(* ===== verification/_CoqProject ===== *)
-Q . S2P
Prelude.v
Utf8.v
Domain.v
Care.v
Garden.v
Catalog.v
Telemetry.v
Journal.v
Notification.v
Topics.v
Rows.v
Views.v
SagaRows.v
Database.v
UnitOfWork.v
Repositories.v
Idempotency.v
Commands.v
SagaIntents.v
SagaDispatch.v
JournalStore.v
Delivery.v
Consumers.v
Ingest.v
CircuitBreaker.v
CareSagas.v
Relay.v
Onboarding.v
SagaStorage.v
SagaBase.v
SpeciesSync.v
SagaRecovery.v
Partitions.v
ReadModels.v
Rollups.v
Rounding.v
Means.v
Projections.v
TelemetryViews.v
ReadSide.v
NotificationStream.v
Fanout.v
FanoutFaults.v
UuidText.v
Decoding.v
RawDelivery.v
DeadLetters.v
Queries.v
SpeciesCache.v
Trefle.v
TrefleSource.v
Lines.v
Api.v
Bindings.v
Rest.v
Grpc.v
Sse.v
Simulator.v
Publishers.v
Drive.v
Wiring.v
Catalogue.v
