(* ===== verification/Prelude.v ===== *)
(** * PlantKeeper: a verification development

    PlantKeeper is an event-driven service for household plants: a domain layer of
    aggregates that record events, an application layer of command handlers and event
    consumers, and an infrastructure layer that keeps rows in PostgreSQL, moves events to
    Kafka through a transactional outbox, and runs relays and scheduled jobs.  This
    library embeds the code of the write side, of the projections of the read side, of the
    delivery of notifications and of the HTTP and gRPC front ends, and the simulator that
    feeds the platform, as executable Rocq definitions and proves what makes them correct.
    Paths below are relative to [src/packages/], with the [src/plantkeeper/] part left out:
    [domain/garden/plant.py] is [src/packages/domain/src/plantkeeper/domain/garden/plant.py].

    ** The parts and where they are modelled

    The domain ([domain/]):
    - [Domain]: [identifiers.py], [values.py], [base.py] and the events of every context.
      An identifier is its 128-bit integer under a phantom kind, an instant or a duration
      is a number of microseconds, a float is an IEEE binary64 value of [SpecFloat].
    - [Care]: [care/schedule.py]; [Garden]: [garden/household.py], [garden/plant.py];
      [Catalog]: [catalog/species.py]; [Telemetry]: [telemetry/sensor.py] and its values;
      [Journal]: [journal/entry.py], [stream.py], [aggregate.py], [state.py];
      [Notification]: [notifications/notification.py].  An aggregate is a record that
      carries its recorded events; a method is a function to [result], whose [Raise]
      names the exception class.

    Persistence ([infrastructure/persistence/], [application/ports/]):
    - [Topics]: [infrastructure/messaging/topics.py] and [application/provenance.py].
    - [Rows]: the models and the mappers; [Views]: [application/views.py].
    - [Database]: the tables, a transaction's session, [tracking.py] and [uow.py].  A
      transaction is a [tx], a function of a [Session]: the rows at its start, the rows
      it sees, the statements it staged and the aggregates it tracks.  [uow_commit]
      drains the tracker into the outbox and replays the statements on the rows as other
      transactions left them ([ss_others]); a statement that breaks a constraint refuses
      the commit.  [UnitOfWork] is its theory: the classes [Staging], [Blind] and [Live]
      are the interface between the unit of work and the code that runs inside it, and
      every repository operation, handler and consumer is shown to be an instance.
    - [Repositories]: [repositories/*.py], one definition per method the write side uses.

    Commands and consumers ([application/]):
    - [Idempotency]: [idempotency.py]; [Commands]: [commands/*.py], every handler, and
      [command_step], the state after any of them.
    - [JournalStore]: [journal/store.py] and [commands/journal.py] over the event store
      and its snapshots.
    - [Delivery]: [delivery.py], [sagas/consumer.py] and the worker's subscriber of
      [src/apps/workers/src/plantkeeper/workers/consumers.py].  The class [Body] states
      what a consumer's handler promises the delivery machinery (it stages, and leaves the
      commit to it), and [Handler] adds [Quiet]: it records no event before it raises.
    - [Consumers]: [journal/consumer.py], [notifications/consumer.py], [references.py],
      shown to be [Handler]s.
    - [Ingest]: [telemetry/ingest.py] and the job of
      [infrastructure/scheduling/sensor_silence.py]; [RawDelivery]: the worker's handler of
      the raw topic around it.

    Infrastructure at the edges:
    - [Relay]: [infrastructure/messaging/relay.py], [publisher.py] and
      [persistence/repositories/outbox.py]: one relay as a function, several relays,
      writers and a broker as the step relation [relay_step].
    - [CircuitBreaker]: [infrastructure/external/circuit_breaker.py], against the
      specification [spec_calls] that only counts consecutive failures.

    - [Wiring]: the registries ([application/sagas/registry.py], [application/registry.py])
      and the subscriptions built from them ([src/apps/workers/.../workers/consumers.py],
      [src/apps/admin/.../projections/subscriber.py]); [Catalogue]:
      [infrastructure/contracts/catalogue.py], up to the text of
      [src/docs/diagrams/event-flow.md] ([diagram_as_checked_in]).

    The front ends ([src/apps/api/src/plantkeeper/api/], [api/] below):
    - [Api]: what both protocols share: the error tables of [api/errors.py] and
      [api/grpc/errors.py], [api/mediator.py], the provenance bound around a request
      ([api/main.py], [api/grpc/servicers/base.py]).  The class [Promises] states what a
      handler answers with, and [handle_clean] what a command leaves behind.
    - [Bindings]: the class [Unaware] of transactions that do not look at the provenance
      they run under; every command handler is an instance.
    - [Rest]: [api/rest/schemas/*.py] and [api/rest/routers/*.py], one [route_] definition
      per endpoint, and [rest_handle], a request through middleware, router, mediator and
      exception handlers.
    - [Grpc]: [api/grpc/mapping.py] and the servicers, one [rpc_] definition per RPC, and
      [grpc_handle]; [rest_twin] is the REST request that asks the same.
    - [Sse]: [api/rest/sse.py] and the frames of [api/rest/routers/notifications.py],
      against a client of the event-stream format; [Lines] is [str.splitlines].

    The simulator ([src/tools/iot-simulator/src/plantkeeper/iot_simulator/]):
    - [Simulator]: [physics.py], [scenarios.py], [simulator.py] over binary64 floats;
      [Publishers]: [publisher.py], with Kafka's batches; [Drive]: the loop and the replay
      of [cli.py], and what [Ingest] makes of a simulated reading.
    - [CareSagas]: [application/sagas/missed_care.py], [sagas/adaptive_watering.py] and the
      job of [infrastructure/scheduling/missed_care.py], both sagas as [Handler]s.

    Orchestration ([application/sagas/], [infrastructure/scheduling/]):
    - [SagaRows]: [sagas/contexts.py] and the tables of executions, their log and the
      recorded commands.
    - [SagaIntents]: [application/ports/saga_intents.py] and the repository of recorded
      commands in [persistence/repositories/sagas.py]; what a delegated command looks like
      as JSON and how it is read back.  [SagaDispatch]: [scheduling/command_dispatch.py],
      against [hand_off_step], which lets a command be recorded, taken, run, failed and
      withdrawn, each in one step.
    - [Onboarding]: [sagas/onboard.py]; [SpeciesSync]: [sagas/species_sync.py] and the
      outbox adapter of [sagas/adapters.py].  A step is a [step], a function of the context
      it mutates and of the session; [resting] is the session between two transactions of
      a process, [running] the session inside one.
    - [SagaStorage]: [persistence/saga_storage.py]: a call on the storage itself is [aside],
      a transaction of its own beside the caller's; [run_log_step] and [run_commit] are the
      run bound to the caller's.
    - [SagaBase]: [sagas/base.py] and the triggers.  The engine that runs the steps is the
      library [cqrs.saga]; wherever the code calls it the model takes it as an argument.
    - [SagaRecovery]: [scheduling/saga_recovery.py].

    Telemetry storage:
    - [Partitions]: [persistence/partitions.py] and [scheduling/telemetry_partitions.py].
      What PostgreSQL does with a statement on a partitioned table ([run_ddl], [route]) is
      modelled from its documentation: bounds may not overlap, and a partition is refused
      while the catch-all holds rows it would cover.  Bounds are read as UTC.

    The read side ([src/apps/admin], package [plantkeeper.admin]) and delivery to clients:
    - [ReadModels]: [read_models/models.py], [read_telemetry/models.py] and
      [projections/base.py]: the read tables, the ledger of claimed events and
      [Projection.apply].  [Projections]: the five projections of the domain events
      ([projections/garden.py], [care.py], [catalog.py], [journal.py], [notifications.py]).
      Each [apply] is one atomic transaction, one after the other, and a handler has one
      [now]; [processed_at] is not kept.
    - [Rollups]: [projections/telemetry.py], its four SQL statements with PostgreSQL's
      float8 arithmetic (an overflow is an error, [LEAST] and [GREATEST] order NaN last);
      [updated_at] of these tables is not kept.  [TelemetryViews]: what the two tables say
      about the readings projected, its mean against the arithmetic mean of [Means], a
      rational; [Rounding] bounds the error of one operation of [SpecFloat] for it, at six
      times what the standard guarantees, which is enough.
    - [ReadSide]: [projections/subscriber.py], on the failure policy of [Delivery]; what a
      message decodes to is an argument.
    - [NotificationStream]: the query of pending notifications, the stream and its cursor
      ([application/notifications/stream.py]), the waiting request of
      [src/apps/api/.../routers/notifications.py] and [notifications/pusher.py].  How a
      wait on the household's signal ends is an argument of the stream.
    - [Fanout]: the fan-out of the same file as a machine over its objects, a step being
      what the event loop runs between two awaits; [FanoutFaults]: two ways it misses what
      it promises.
    - [UuidText]: [uuid.UUID(text)]; [Decoding]: [messaging/decoding.py] and the worker's
      handler from the message on; [DeadLetters]: [src/tools/dlq.py] and the two writers of
      the dead-letter topic.  JSON, pydantic's validation and the text of an instant are
      the interface [MessageText]; a message is kept as its bytes, and [Utf8] is what
      [decode(errors="replace")] makes of them.
    - [Queries]: the reader of the read models
      ([infrastructure/persistence/repositories/read_models.py]) and the query handlers of
      [application/queries/]; a text order of the database, its collation, is an argument.
      The answers respect [same_gardens], an equivalence of [Projections].
    - [SpeciesCache]: [infrastructure/cache/species.py], the query that reads through it and
      [application/catalog/consumer.py], as a machine in which requests give way at every
      call they await.  The server is the class [Valkey], whose laws say only what a key can
      still hold: it may lose an entry at any time.
    - [Trefle]: [infrastructure/external/trefle/models.py], [mapping.py] and [client.py]: the
      walk over the pages and details, each request inside the retries and the breaker of
      [CircuitBreaker].  One request is one call of the world, a parameter; [serves] says
      what a service that is up answers.  The walk takes fuel, one turn for each page, and
      [fetch_is_the_catalogue] shows that as many turns as there are pages are enough.
      [TrefleSource]: [source.py], whose answer is the upstream's of [SpeciesSync].
    ** What the theorems show

    - Nothing is published that was not committed and nothing committed goes unpublished:
      [UnitOfWork.transactional_outbox] for one transaction, [Commands.requests_are_atomic]
      for every command, [Relay.relays_keep_key_order] and
      [Relay.polling_drains_the_outbox] for the way to Kafka.
    - Retries are harmless: [Idempotency.create_replays] and
      [create_race_has_one_winner] for requests, [Delivery.delivery_exactly_once] for
      deliveries (with [policy_outcome], the retry loop), [JournalStore]'s
      [journal_entry_recorded_once], [Consumers]' [watering_journaled_once],
      [reference_replay] and [reminders_are_final], [Ingest.readings_announced_once] and
      [RawDelivery.raw_delivery_outcome].
    - Concurrency control: [Care.schedule_no_lost_update],
      [JournalStore.event_store_one_winner].
    - Invariants of the stored state: [Commands.household_cap_in_database],
      [Consumers.reminders_one_unread], [Telemetry.sensor_last_seen_is_newest],
      [Telemetry.silence_announced_once].
    - Event sourcing: [Journal.journal_snapshot_replay], [journal_replay_rebuilds] and
      [JournalStore.journal_load_is_replay]: what is loaded, through a snapshot or not, is
      the replay of the stream.
    - Functional behaviour on every branch: [Commands.water_plant_all_or_nothing],
      [Ingest.ingest_outcome], [Ingest.silence_tick_announces_once],
      [CareSagas.missed_care_tick], [CareSagas.watering_in_grace_never_missed],
      [CareSagas.adaptive_watering_no_storm],
      [Telemetry.sensor_record_events], and the aggregates' own theorems.
    - Delegated commands: [SagaDispatch.recorded_commands_run_once],
      [withdrawn_command_never_runs], [dispatch_settles_every_command] and the refinement
      [dispatcher_refines_hand_off]; [SagaIntents.recorded_command_roundtrip].
    - Orchestration: [Onboarding.onboarding_outcome], [SagaBase.saga_lifecycle],
      [SpeciesSync.sync_compensation_restores], [SagaStorage.saga_context_no_lost_update];
      [SagaRecovery.failed_process_retried_or_parked], [parked_until_reset] and
      [failing_process_is_parked]: over ticks of the whole job, selection included, the
      retry budget is spent and then announced.
    - The read side: [Projections.read_models_converge]: projecting the events of each
      partition in order gives the read models of any other such interleaving, under
      conditions stated there, the species' names apart, and [Queries.answers_converge] the
      answers; [ReadSide.read_side_exactly_once];
      [TelemetryViews.windows_summarise_readings] and [latest_row_is_newest].
    - Delivery to clients: [NotificationStream.stream_delivers_once] over any number of
      connections, [waiting_request_outcome]; [Fanout.one_subscription_per_household].
    - Messages: [Decoding.published_event_decodes], from the outbox row to the consumer;
      [DeadLetters.dead_letter_roundtrip] and [replay_touches_only_selection].
    - The front ends: [Rest.rest_requests_are_atomic] and [rest_answers_have_their_schema]
      for every route and every failure, field by field ([shows]), [Grpc.protocols_agree]: an RPC and its REST twin
      say the same and leave the same rows; [Api.error_tables_agree];
      [Bindings.provenance_changes_no_answer]; [Sse.sse_stream_roundtrip].
    - Routing: [Wiring.subscriptions_reach_handlers]: every event is offered to whoever
      handles it; [Catalogue.catalogue_is_true]: the documents say who that is.
    - The simulator: [Drive.simulated_readings_accepted], [capture_replays],
      [Simulator.failing_sensors_stay_online], [Publishers.kafka_batches].
    - Partitions: [Partitions.partition_tick], [retention_keeps_the_window],
      [reading_lands_in_its_month].
    - Where the code departs from what it says: [CircuitBreaker.cancelled_trial_wedges],
      [late_failure_two_trials], [Delivery.failed_body_events_published],
      [Consumers.rebuilt_group_reminds_again], [CareSagas.skipped_watering_is_missed],
      [CareSagas.late_due_missed_twice], [Onboarding.repeated_delegation_refused],
      [Onboarding.compensation_keeps_committed_effect],
      [SagaBase.crash_after_start_loses_process], [SpeciesSync.failed_sync_announces_changes],
      [SpeciesSync.repeated_feed_not_restored],
      [SagaRecovery.park_counts_before_announcing], [Partitions.late_reading_blocks_the_job],
      [Partitions.six_digits_are_read_as_a_month],
      [Projections.species_name_depends_on_order], [unadded_plant_depends_on_order],
      [TelemetryViews.mean_depends_on_order],
      [NotificationStream.cursor_skips_and_repeats], [explicit_since_repeats],
      [FanoutFaults.abandoned_attach_keeps_subscription], [late_attach_is_deaf],
      [Decoding.naive_instant_blocks_delivery], [DeadLetters.second_replay_unclaims],
      [Simulator.sensor_noise_is_constant], [Sse.next_line_is_rewritten],
      [Catalogue.projections_without_their_context].

    ** Choices and bounds

    - The clock and the generators of identifiers are arguments ([Env], a [mint] from an
      index to an identifier); so are UUIDv5 and the request fingerprint (SHA-256 over
      canonical JSON), which the source takes from libraries.  No theorem assumes that
      UUIDv5 is injective unless it says so.
    - A payload stored as JSON is kept as the value it encodes; text is a string of
      Latin-1 characters, and [str.strip] strips the white space of that range.
    - One transaction runs at a time, and what others commit before it commits is the
      arbitrary function [ss_others]; row locks ([FOR UPDATE]) are therefore not needed
      for the theorems and are reads like any other.  A [merge] writes the whole row.
      Identity columns take the next number.
    - A rollback discards the staged statements but, as the code does, not what the
      tracker collected ([EStale]).
    - A commit may be acknowledged, refused, or made but not acknowledged
      ([commit_fate]); a broker may take a record, refuse it, or take it and lose the
      acknowledgement ([broker_fate], and [commit_fate] for one that is sent a single
      copy).  Attempts at a delivery run arbitrary handlers.  A request over HTTP or gRPC
      commits under any [commit_fate] ([Api.run_fated]).
    - In [relay_step] a row becomes visible after the older rows of its own key, whatever
      its id is among other keys; the code relies on this, for ids are given out when a
      row is written and not when it is committed.
    - A duration that the code stores as a float number of seconds is kept in microseconds:
      the two agree up to about 285 years.  The steps and silences of the simulator are such
      durations.
    - What a framework does around a handler (routing, reading a body, looking an exception
      handler up) is in [rest_handle] and [grpc_handle] from its documentation; protobuf's
      well-known types, pydantic's reading of an identifier, JSON, [math.sin], [**] on floats
      and the random generator are classes, with their laws beside them where a theorem
      needs any, and instances at which the witnesses run.
    - Fuel: [drive] is given one turn more than it has ticks or captured readings, and
      [capture_replays] shows that they are enough; [policy_loop] is given [max_attempts]
      turns and [policy_outcome] shows that they are enough; [run_polls] is given a list of
      polls and [polling_drains_the_outbox] says how many drain the table; [batches] takes the
      number of rows.

    ** Not modelled

    The processes around the modelled ticks and consumers (workers, relay, scheduler, the
    starting of both servers), the admin site, the dependency-injection providers and the
    settings are wiring of a framework, and stay outside; the AsyncAPI documents and the
    diagrams of the sagas are rendered by libraries, and the migrations are statements whose
    constraints the model of each table carries.  Of the simulator the argument parser and the signal handlers are
    input and output; [physics.ambient_temperature] is called by nothing. *)

From stdpp Require Export base tactics option list gmap strings sorting.
From Stdlib Require Export ZArith Lia.
From Stdlib Require Import SpecFloat Ascii.

(** ** Scopes and generic notation *)

Declare Scope keeper_scope.
Delimit Scope keeper_scope with keeper.

(** ** Exceptions

    One constructor per exception class the modelled code raises, named after the
    class.  [ValueError], [OverflowError] and [ValidationError] are Python's and
    Pydantic's own; [OperationError] stands for an exception of code outside the
    model (a broker, an upstream service), told apart by a number. *)
Inductive exn :=
  | ValueError
  | OverflowError
  | ValidationError
  | PlantNameEmptyError
  | PlantWateringTooSoonError
  | PlantRepottingTooSoonError
  | PlantAlreadyRemovedError
  | HouseholdNameEmptyError
  | HouseholdCapacityExceededError
  | HouseholdPlantNotFoundError
  | CareScheduleInvariantError
  | CareScheduleVersionConflictError
  | WateringNotDueError
  | SpeciesNameEmptyError
  | SpeciesVersionConflictError
  | SensorReadingMismatchError
  | SensorNeverSeenError
  | SensorStillOnlineError
  | SensorAlreadyAnnouncedOfflineError
  | JournalEntryPlantMismatchError
  | JournalEntryAlreadyAppendedError
  | NotificationAlreadyReadError
  | UserNameEmptyError
  | NotFoundError
  | IdempotencyKeyConflictError
  | ConcurrentWriteError
  | EventStoreConcurrencyError
  | EventStoreCorruptionError
  | UnhandledSagaTriggerError
  | UnknownCommandError
  | CircuitOpenError
  | UnmappedEventError
  | NotificationChannelError
  | AssertionError
  | UnexpectedResponseError
  | AttributeError
  | KeyError
  | IndexError
  | TypeError
  | JSONDecodeError
  | TransportError
  | HTTPStatusError (status_code : Z)
  | TrefleClientError
  | TrefleAuthError
  | TrefleRecordMissingError
  | TrefleUnavailableError
  | IntegrityError
  | OperationError (code : Z).

#[export] Instance exn_eq_dec : EqDecision exn.
Proof. solve_decision. Defined.

(** Whether the class of an exception derives from [DomainError]. *)
Definition is_domain_error (e : exn) : bool :=
  match e with
  | PlantNameEmptyError | PlantWateringTooSoonError | PlantRepottingTooSoonError
  | PlantAlreadyRemovedError | HouseholdNameEmptyError | HouseholdCapacityExceededError
  | HouseholdPlantNotFoundError | CareScheduleInvariantError
  | CareScheduleVersionConflictError | WateringNotDueError | SpeciesNameEmptyError
  | SpeciesVersionConflictError | SensorReadingMismatchError | SensorNeverSeenError
  | SensorStillOnlineError | SensorAlreadyAnnouncedOfflineError
  | JournalEntryPlantMismatchError | JournalEntryAlreadyAppendedError
  | NotificationAlreadyReadError | UserNameEmptyError => true
  | _ => false
  end.

(** Whether [except ConcurrentWriteError] catches the exception: the class itself
    and its subclass [EventStoreConcurrencyError]. *)
Definition is_concurrent_write_error (e : exn) : bool :=
  match e with
  | ConcurrentWriteError | EventStoreConcurrencyError => true
  | _ => false
  end.

(** ** Results

    A call either returns a value or raises. *)
Inductive result (A : Type) :=
  | Ok (a : A)
  | Raise (e : exn).
Arguments Ok {A} a.
Arguments Raise {A} e.

#[export] Instance result_eq_dec {A} `{EqDecision A} : EqDecision (result A).
Proof. solve_decision. Defined.

#[export] Instance result_ret : MRet result := fun A a => Ok a.
#[export] Instance result_bind : MBind result := fun A B f m =>
  match m with Ok a => f a | Raise e => Raise e end.
#[export] Instance result_fmap : FMap result := fun A B f m =>
  match m with Ok a => Ok (f a) | Raise e => Raise e end.

(** [raise_unless c e]: go on when [c] holds, raise [e] otherwise. *)
Definition raise_unless (P : Prop) `{Decision P} (e : exn) : result unit :=
  if decide P then Ok tt else Raise e.

(** Results over a type with an equivalence: the same exception, or equivalent values. *)
#[export] Instance result_equiv {A} `{Equiv A} : Equiv (result A) := fun r1 r2 =>
  match r1, r2 with
  | Ok a, Ok b => a ≡ b
  | Raise e, Raise e' => e = e'
  | _, _ => False
  end.

Definition is_ok {A} (r : result A) : bool :=
  match r with Ok _ => true | Raise _ => false end.

(** Folding a fallible step over a list, left to right, stopping at the first
    exception. *)
Fixpoint foldM {A B} (f : B → A → result B) (b : B) (l : list A) : result B :=
  match l with
  | [] => Ok b
  | a :: l => b' ← f b a; foldM f b' l
  end.

(** ** Instants and durations

    A [datetime] is an aware instant in UTC, in microseconds after
    0001-01-01T00:00Z; a [timedelta] is a duration in microseconds.  Both are the
    resolution of Python's own types.  Adding a duration raises [OverflowError]
    outside the years 1 to 9999, exactly as [datetime.__add__] does. *)
Abbreviation datetime := Z (only parsing).
Abbreviation timedelta := Z (only parsing).

Definition MICROSECONDS_PER_SECOND : Z := 1000000.
Definition seconds (n : Z) : timedelta := (n * MICROSECONDS_PER_SECOND)%Z.
Definition minutes (n : Z) : timedelta := seconds (60 * n).
Definition hours (n : Z) : timedelta := minutes (60 * n).
Definition days (n : Z) : timedelta := hours (24 * n).

(** [date.max.toordinal()]: the days from year 1 to year 9999. *)
Definition MAX_ORDINAL : Z := 3652059.
Definition DATETIME_MIN : datetime := 0%Z.
Definition DATETIME_MAX : datetime := (days MAX_ORDINAL - 1)%Z.

Definition dt_add (t : datetime) (d : timedelta) : result datetime :=
  if decide (DATETIME_MIN ≤ t + d ≤ DATETIME_MAX)%Z then Ok (t + d)%Z
  else Raise OverflowError.

(** ** Python floats

    A [float] is an IEEE binary64 value in the Standard Library's executable
    specification; comparisons are [SFltb] and [SFleb], which are false on NaN as
    Python's are. *)
Abbreviation float := spec_float (only parsing).
Definition float_lt (x y : float) : bool := SFltb x y.
Definition float_le (x y : float) : bool := SFleb x y.
Definition is_nan (a : float) : bool := match a with S754_nan => true | _ => false end.
(** The float that is exactly the integer [z], for the constants of the code. *)
Definition float_of_Z (z : Z) : float := binary_normalize 53 1024 z 0 false.

#[export] Instance float_eq_dec : EqDecision spec_float.
Proof. solve_decision. Defined.

(** ** Strings

    A Python [str] is a sequence of code points; the model keeps the Latin-1 ones,
    one [ascii] each. *)

(** The code points below 256 that [str.strip] removes. *)
Definition is_space (c : Ascii.ascii) : bool :=
  let n := Ascii.nat_of_ascii c in
  bool_decide ((9 ≤ n ≤ 13) ∨ (28 ≤ n ≤ 32) ∨ n = 133 ∨ n = 160).

Fixpoint drop_spaces (l : list Ascii.ascii) : list Ascii.ascii :=
  match l with
  | [] => []
  | c :: l' => if is_space c then drop_spaces l' else l
  end.

Definition strip_list (l : list Ascii.ascii) : list Ascii.ascii :=
  rev (drop_spaces (rev (drop_spaces l))).

Definition strip (s : string) : string :=
  String.string_of_list_ascii (strip_list (String.list_ascii_of_string s)).

(** ** Reachability

    The reflexive transitive closure of a step relation, built at the end so that
    an invariant is proved by induction on the last step. *)
Inductive reachable {S} (step : S → S → Prop) (s : S) : S → Prop :=
  | reach_here : reachable step s s
  | reach_step s1 s2 : reachable step s s1 → step s1 s2 → reachable step s s2.

(** ** Ordering of rows

    [ORDER BY k] and [sorted(key=...)] are stdpp's [merge_sort] on the key. *)
Definition lex_le (a b : Z * Z) : Prop :=
  (a.1 < b.1)%Z ∨ (a.1 = b.1 ∧ (a.2 ≤ b.2)%Z).
#[export] Instance lex_le_dec a b : Decision (lex_le a b).
Proof. unfold lex_le. apply _. Defined.

(** ** Tactics *)

(** Break every guard of a goal or hypothesis and clear the impossible branches. *)
Ltac split_guards :=
  repeat (case_match || case_decide); simplify_eq/=; try done.

(** ** Lemmas *)

Create HintDb keeper.

Lemma bind_Ok {A B} (f : A → result B) (m : result A) (b : B) :
  (m ≫= f) = Ok b ↔ ∃ a, m = Ok a ∧ f a = Ok b.
Proof. destruct m; cbn; naive_solver. Qed.

Lemma bind_Raise {A B} (f : A → result B) (m : result A) (e : exn) :
  (m ≫= f) = Raise e ↔ m = Raise e ∨ ∃ a, m = Ok a ∧ f a = Raise e.
Proof. destruct m; cbn; naive_solver. Qed.

Lemma raise_unless_Ok (P : Prop) `{Decision P} e u : raise_unless P e = Ok u ↔ P.
Proof. unfold raise_unless. destruct u. case_decide; naive_solver. Qed.

Lemma raise_unless_true (P : Prop) `{Decision P} e : P → raise_unless P e = Ok tt.
Proof. unfold raise_unless. by intros; case_decide. Qed.

Lemma raise_unless_false (P : Prop) `{Decision P} e : ¬ P → raise_unless P e = Raise e.
Proof. unfold raise_unless. by intros; case_decide. Qed.

(** Invert an equation between results, monadic binds included. *)
Ltac inv_result :=
  repeat match goal with
  | H : Ok _ = Ok _ |- _ => injection H as H; subst
  | H : Raise _ = Raise _ |- _ => injection H as H; subst
  | H : Ok _ = Raise _ |- _ => discriminate H
  | H : Raise _ = Ok _ |- _ => discriminate H
  | H : mbind _ _ = Ok _ |- _ => apply bind_Ok in H; destruct H as (? & ? & H)
  | H : raise_unless _ _ = Ok _ |- _ => apply raise_unless_Ok in H
  end.

Lemma foldM_app {A B} (f : B → A → result B) b l1 l2 :
  foldM f b (l1 ++ l2) = b' ← foldM f b l1; foldM f b' l2.
Proof.
  revert b. induction l1 as [|a l1 IH]; intros b; cbn; [done|].
  destruct (f b a); cbn; auto.
Qed.

(** An invariant of every successful step is an invariant of the fold. *)
Lemma foldM_invariant {A B} (P : B → Prop) (f : B → A → result B) b l b' :
  (∀ b a b', a ∈ l → P b → f b a = Ok b' → P b') →
  P b → foldM f b l = Ok b' → P b'.
Proof.
  revert b. induction l as [|a l IH]; cbn; intros b Hf Hb H.
  - by injection H as <-.
  - apply bind_Ok in H as (b1 & H1 & H2).
    apply (IH b1); [|by eapply Hf; [apply list_elem_of_here| |]|done].
    intros ? ? ? ?. apply Hf. by apply list_elem_of_further.
Qed.

Lemma dt_add_Ok t d t' : dt_add t d = Ok t' → t' = (t + d)%Z.
Proof. unfold dt_add. case_decide; naive_solver. Qed.

Lemma reachable_trans {S} (step : S → S → Prop) s1 s2 s3 :
  reachable step s1 s2 → reachable step s2 s3 → reachable step s1 s3.
Proof. induction 2; [done|]. by eapply reach_step. Qed.

Lemma reachable_invariant {S} (step : S → S → Prop) (P : S → Prop) s s' :
  (∀ a b, P a → step a b → P b) → P s → reachable step s s' → P s'.
Proof. intros Hs Hp. induction 1; eauto. Qed.

#[export] Instance lex_le_total : Total lex_le.
Proof. intros [] []. unfold lex_le; cbn. lia. Qed.
#[export] Instance lex_le_transitive : Transitive lex_le.
Proof. intros [] [] []. unfold lex_le; cbn. lia. Qed.
#[export] Instance lex_le_antisymm : AntiSymm (=) lex_le.
Proof. intros [] []. unfold lex_le; cbn. intros. f_equal; lia. Qed.

(** Sorting is a function of the elements alone when no two of them tie. *)
Lemma merge_sort_perm {A} (R : relation A) `{∀ x y, Decision (R x y)}
    `{!Transitive R, !Total R} (l1 l2 : list A) :
  l1 ≡ₚ l2 → (∀ x y, x ∈ l1 → y ∈ l1 → R x y → R y x → x = y) →
  merge_sort R l1 = merge_sort R l2.
Proof.
  intros Hp Hanti. apply (Sorted_unique_strong R); try apply Sorted_merge_sort; auto.
  - intros x y Hx Hy. rewrite merge_sort_Permutation in Hx. rewrite merge_sort_Permutation, <- Hp in Hy.
    by apply Hanti.
  - by rewrite !merge_sort_Permutation.
Qed.

Lemma StronglySorted_lookup_2 {A} (R : relation A) (l : list A) :
  (∀ i j x y, i < j → l !! i = Some x → l !! j = Some y → R x y) → StronglySorted R l.
Proof.
  induction l as [|x l IH]; intros H; constructor.
  - apply IH. intros i j y z Hij Hi Hj. apply (H (S i) (S j)); [lia|done..].
  - apply Forall_lookup. intros j y Hj. apply (H 0 (S j)); [lia|done..].
Qed.

Lemma StronglySorted_lookup_1 {A} (R : relation A) (l : list A) i j x y :
  StronglySorted R l → l !! i = Some x → l !! j = Some y → i < j → R x y.
Proof.
  intros Hs. revert i j. induction Hs as [|z l Hs IH Hz]; intros [|i] [|j] Hi Hj Hij; try done; try lia.
  - injection Hi as ->. rewrite Forall_forall in Hz. apply Hz. by apply list_elem_of_lookup_2 with j.
  - apply (IH i j); [done..|lia].
Qed.

(** Sorting a list already in strict order of a key changes nothing. *)
Lemma merge_sort_id {A} (R : relation A) `{∀ x y, Decision (R x y)}
    `{!Transitive R, !Total R} (l : list A) :
  (∀ i j x y, i < j → l !! i = Some x → l !! j = Some y → R x y ∧ ¬ R y x) →
  merge_sort R l = l.
Proof.
  intros Hs. apply (Sorted_unique_strong R).
  - intros x y Hx Hy Hxy Hyx. rewrite merge_sort_Permutation in Hx.
    apply list_elem_of_lookup in Hx as [i Hi]. apply list_elem_of_lookup in Hy as [j Hj].
    destruct (Nat.lt_trichotomy i j) as [Hij|[->|Hij]]; [|congruence|].
    + by destruct (Hs i j x y Hij Hi Hj).
    + by destruct (Hs j i y x Hij Hj Hi).
  - by apply Sorted_merge_sort.
  - apply StronglySorted_Sorted, StronglySorted_lookup_2. intros i j x y ? ? ?. by eapply Hs.
  - apply merge_sort_Permutation.
Qed.

(** A filter that refuses a prefix and accepts the rest drops the prefix. *)
Lemma filter_drop {A} (P : A → Prop) `{∀ x, Decision (P x)} (l : list A) (n : nat) :
  (∀ i x, l !! i = Some x → P x ↔ n ≤ i) → filter P l = drop n l.
Proof.
  revert n. induction l as [|x l IH]; intros n Hn; [by rewrite drop_nil|].
  rewrite filter_cons. pose proof (Hn 0 x eq_refl) as H0. destruct n as [|n].
  - rewrite decide_True by (apply H0; lia). cbn. f_equal. rewrite <- (drop_0 l) at 2.
    apply IH. intros i y Hi. rewrite (Hn (S i) y Hi). lia.
  - rewrite decide_False by (rewrite H0; lia). cbn. apply IH.
    intros i y Hi. rewrite (Hn (S i) y Hi). lia.
Qed.

(** Keeping the elements of a sorted list that a downward closed test accepts keeps a
    prefix. *)
Lemma filter_sorted_prefix {A} (R : relation A) (P : A → Prop) `{∀ x, Decision (P x)}
    (l : list A) :
  StronglySorted R l → (∀ x y, R x y → P y → P x) → filter P l `prefix_of` l.
Proof.
  intros Hs Hdown. induction Hs as [|x l Hs IH Hx]; [by apply prefix_nil|].
  rewrite filter_cons. case_decide as Hpx; [by apply prefix_cons|].
  enough (filter P l = []) as -> by apply prefix_nil.
  rewrite Forall_forall in Hx. clear IH Hs. induction l as [|y l IH]; [done|].
  rewrite filter_cons_False; [apply IH; set_solver|]. intros Hy. apply Hpx.
  apply (Hdown x y); [|done]. apply Hx. set_solver.
Qed.

(** A column without duplicates tells the rows apart. *)
Lemma NoDup_fmap_inj {A B} (f : A → B) (l : list A) x y :
  NoDup (f <$> l) → x ∈ l → y ∈ l → f x = f y → x = y.
Proof.
  intros Hnd (i & Hi)%list_elem_of_lookup_1 (j & Hj)%list_elem_of_lookup_1 E.
  assert (i = j) as ->; [|congruence].
  apply (NoDup_lookup (f <$> l) i j (f x) Hnd); rewrite list_lookup_fmap, ?Hi, ?Hj; cbn; congruence.
Qed.

Lemma filter_keeps {A} (P : A → Prop) `{∀ x, Decision (P x)} l : Forall P l → filter P l = l.
Proof. induction 1; [done|]. rewrite filter_cons_True by done. by f_equal. Qed.

Lemma filter_none {A} (P : A → Prop) `{∀ x, Decision (P x)} l :
  Forall (λ x, ¬ P x) l → filter P l = [].
Proof. induction 1 as [|x l Hx _ IH]; [done|]. by rewrite filter_cons, decide_False. Qed.

(** Filtering keeps the keys of a list distinct. *)
Lemma NoDup_fmap_filter {A B} (f : A → B) (P : A → Prop) `{∀ x, Decision (P x)} (l : list A) :
  NoDup (f <$> l) → NoDup (f <$> filter P l).
Proof.
  induction l as [|x l IH]; [done|]. rewrite fmap_cons, NoDup_cons. intros [Hx Hl].
  rewrite filter_cons. case_decide; [|by apply IH]. rewrite fmap_cons, NoDup_cons.
  split; [|by apply IH]. intros (y & Hxy & [_ Hy]%list_elem_of_filter)%list_elem_of_fmap.
  apply Hx. rewrite Hxy. by apply list_elem_of_fmap_2.
Qed.

(** Membership in an optional element. *)
Lemma elem_of_if_list {A} (x y : A) (b : bool) :
  x ∈ (if b then [y] else []) ↔ b = true ∧ x = y.
Proof. destruct b; rewrite ?list_elem_of_singleton, ?elem_of_nil; naive_solver. Qed.

(** *** Stripping *)

Lemma drop_spaces_head l c l' : drop_spaces l = c :: l' → is_space c = false.
Proof. induction l as [|a l IH]; cbn; [done|]. case_match; naive_solver. Qed.

Lemma drop_spaces_keep c l : is_space c = false → drop_spaces (c :: l) = c :: l.
Proof. cbn. by intros ->. Qed.

Lemma drop_spaces_idem l : drop_spaces (drop_spaces l) = drop_spaces l.
Proof.
  destruct (drop_spaces l) as [|c l'] eqn:E; [done|].
  apply drop_spaces_keep. by eapply drop_spaces_head.
Qed.

(** Dropping leading spaces from an extension of a list that starts with a
    non-space keeps the list. *)
Lemma drop_spaces_snoc l c : is_space c = false →
  ∃ l', drop_spaces (l ++ [c]) = l' ++ [c].
Proof.
  intros Hc. induction l as [|a l [l' IH]]; cbn; [exists []; by rewrite Hc|].
  case_match; [by exists l'|]. by exists (a :: l).
Qed.

Lemma strip_list_idem l : strip_list (strip_list l) = strip_list l.
Proof.
  unfold strip_list. destruct (drop_spaces l) as [|c l'] eqn:E; [done|].
  apply drop_spaces_head in E. cbn.
  destruct (drop_spaces_snoc (rev l') c E) as [m Hm]. rewrite Hm.
  rewrite rev_app_distr. cbn [rev app]. rewrite (drop_spaces_keep _ _ E).
  cbn [rev]. rewrite rev_involutive. rewrite <- Hm, drop_spaces_idem, Hm.
  by rewrite rev_app_distr.
Qed.

Lemma strip_idem s : strip (strip s) = strip s.
Proof.
  unfold strip. by rewrite String.list_ascii_of_string_of_list_ascii, strip_list_idem.
Qed.

#[export] Hint Resolve reach_here reach_step : keeper.
#[export] Hint Rewrite strip_idem : keeper.

(** *** Strings as lists of characters *)

Lemma string_app_list s1 s2 :
  String.list_ascii_of_string (s1 +:+ s2)%string =
  String.list_ascii_of_string s1 ++ String.list_ascii_of_string s2.
Proof.
  induction s1 as [|a s1 IH]; [done|].
  change (String.list_ascii_of_string (String a s1 +:+ s2)) with
    (a :: String.list_ascii_of_string (s1 +:+ s2)%string). by rewrite IH.
Qed.

Lemma string_length_list s :
  String.length s = length (String.list_ascii_of_string s).
Proof. induction s; cbn; congruence. Qed.

Lemma string_app_nil_r (s : string) : (s +:+ "")%string = s.
Proof. induction s as [|c s IH]; [done|]. change (String c (s +:+ "") = String c s). by rewrite IH. Qed.

Lemma string_app_assoc (s1 s2 s3 : string) :
  ((s1 +:+ s2) +:+ s3)%string = (s1 +:+ s2 +:+ s3)%string.
Proof.
  induction s1 as [|c s1 IH]; [done|].
  change (String c ((s1 +:+ s2) +:+ s3) = String c (s1 +:+ s2 +:+ s3)). by rewrite IH.
Qed.

(** A number written in binary. *)
Fixpoint positive_text (p : positive) : string :=
  match p with
  | xH => EmptyString
  | xO p => String "0"%char (positive_text p)
  | xI p => String "1"%char (positive_text p)
  end.
Fixpoint text_positive (s : string) : positive :=
  match s with
  | EmptyString => xH
  | String c s => if decide (c = "0"%char) then xO (text_positive s) else xI (text_positive s)
  end.
Lemma text_positive_text p : text_positive (positive_text p) = p.
Proof. induction p as [p IH|p IH|]; cbn; [by rewrite IH..|done]. Qed.
