(* ===== verification/Utf8.v ===== *)
(** [bytes.decode("utf-8", errors="replace")] on a record's key, body and headers: a text is
    kept as its UTF-8 bytes, so that encoding it changes nothing and decoding replaces what
    is not UTF-8 by U+FFFD. *)

From S2P Require Import Prelude.
From Stdlib Require Import Ascii.

#[local] Open Scope string_scope.

Definition byte_in (lo hi : N) (a : ascii) : bool :=
  bool_decide (lo ≤ N_of_ascii a)%N && bool_decide (N_of_ascii a ≤ hi)%N.
Definition continuation : ascii → bool := byte_in 128 191.

(** The second byte after a leading byte of three or four, within the code points. *)
Definition second_of_three (a b : ascii) : bool :=
  byte_in (if bool_decide (N_of_ascii a = 224)%N then 160 else 128)
    (if bool_decide (N_of_ascii a = 237)%N then 159 else 191) b.
Definition second_of_four (a b : ascii) : bool :=
  byte_in (if bool_decide (N_of_ascii a = 240)%N then 144 else 128)
    (if bool_decide (N_of_ascii a = 244)%N then 143 else 191) b.

(** U+FFFD in front of a text. *)
Definition replaced (s : string) : string :=
  String (ascii_of_N 239) (String (ascii_of_N 191) (String (ascii_of_N 189) s)).

(** Each longest start of a character that does not go on as one becomes one U+FFFD, and so
    does each byte no character starts with. *)
Fixpoint decode_replace (s : string) : string :=
  match s with
  | "" => ""
  | String a s1 =>
      if byte_in 0 127 a then String a (decode_replace s1)
      else if byte_in 194 223 a then
        match s1 with
        | "" => replaced ""
        | String b s2 =>
            if continuation b then String a (String b (decode_replace s2))
            else replaced (decode_replace s1)
        end
      else if byte_in 224 239 a then
        match s1 with
        | "" => replaced ""
        | String b s2 =>
            if second_of_three a b then
              match s2 with
              | "" => replaced ""
              | String c s3 =>
                  if continuation c then String a (String b (String c (decode_replace s3)))
                  else replaced (decode_replace s2)
              end
            else replaced (decode_replace s1)
        end
      else if byte_in 240 244 a then
        match s1 with
        | "" => replaced ""
        | String b s2 =>
            if second_of_four a b then
              match s2 with
              | "" => replaced ""
              | String c s3 =>
                  if continuation c then
                    match s3 with
                    | "" => replaced ""
                    | String d s4 =>
                        if continuation d
                        then String a (String b (String c (String d (decode_replace s4))))
                        else replaced (decode_replace s3)
                    end
                  else replaced (decode_replace s2)
              end
            else replaced (decode_replace s1)
        end
      else replaced (decode_replace s1)
  end.

(** The texts: sequences of encoded characters. *)
Inductive is_utf8 : string → Prop :=
  | utf8_nil : is_utf8 ""
  | utf8_one a s : byte_in 0 127 a = true → is_utf8 s → is_utf8 (String a s)
  | utf8_two a b s : byte_in 194 223 a = true → continuation b = true → is_utf8 s →
      is_utf8 (String a (String b s))
  | utf8_three a b c s : byte_in 224 239 a = true → second_of_three a b = true →
      continuation c = true → is_utf8 s → is_utf8 (String a (String b (String c s)))
  | utf8_four a b c d s : byte_in 240 244 a = true → second_of_four a b = true →
      continuation c = true → continuation d = true → is_utf8 s →
      is_utf8 (String a (String b (String c (String d s)))).

(** ** Lemmas *)

Lemma byte_in_spec lo hi a :
  byte_in lo hi a = true ↔ (lo ≤ N_of_ascii a ≤ hi)%N.
Proof. unfold byte_in. by rewrite andb_true_iff, !bool_decide_eq_true. Qed.

Lemma byte_in_disjoint lo hi lo' hi' a :
  byte_in lo hi a = true → (hi < lo' ∨ hi' < lo)%N → byte_in lo' hi' a = false.
Proof.
  rewrite byte_in_spec. intros H Hd. apply not_true_is_false. rewrite byte_in_spec. lia.
Qed.

(** Decoding a text gives it back. *)
Lemma decode_utf8 s : is_utf8 s → decode_replace s = s.
Proof.
  induction 1 as [|a s Ha _ IH|a b s Ha Hb _ IH|a b c s Ha Hb Hc _ IH|a b c d s Ha Hb Hc Hd _ IH];
    cbn [decode_replace].
  - done.
  - by rewrite Ha, IH.
  - rewrite (byte_in_disjoint 194 223 0 127) by (done || lia). by rewrite Ha, Hb, IH.
  - rewrite (byte_in_disjoint 224 239 0 127), (byte_in_disjoint 224 239 194 223) by (done || lia).
    by rewrite Ha, Hb, Hc, IH.
  - rewrite (byte_in_disjoint 240 244 0 127), (byte_in_disjoint 240 244 194 223),
      (byte_in_disjoint 240 244 224 239) by (done || lia).
    by rewrite Ha, Hb, Hc, Hd, IH.
Qed.

Lemma replaced_utf8 s : is_utf8 s → is_utf8 (replaced s).
Proof. intros Hs. by apply utf8_three. Qed.

#[local] Hint Constructors is_utf8 : core.
#[local] Hint Resolve replaced_utf8 : core.

(** What decoding gives is a text, whatever the bytes. *)
Lemma decode_is_utf8 s : is_utf8 (decode_replace s).
Proof.
  remember (String.length s) as n eqn:Hn. revert s Hn. induction (lt_wf n) as [n _ IH].
  intros s ->. destruct s as [|a s1]; cbn [decode_replace]; [done|].
  assert (∀ s', String.length s' < String.length (String a s1) → is_utf8 (decode_replace s')) as Hrec
    by (intros s' Hlt; by eapply IH). clear IH.
  assert (is_utf8 (decode_replace s1)) as H1 by (apply Hrec; cbn; lia).
  destruct (byte_in 0 127 a) eqn:?; [by auto|].
  destruct (byte_in 194 223 a) eqn:?.
  { destruct s1 as [|b s2]; [by auto|]. destruct (continuation b) eqn:?; [|by auto].
    apply utf8_two; [done..|]. apply Hrec. cbn. lia. }
  destruct (byte_in 224 239 a) eqn:?.
  { destruct s1 as [|b s2]; [by auto|]. destruct (second_of_three a b) eqn:?; [|by auto].
    destruct s2 as [|c s3]; [by auto|].
    destruct (continuation c) eqn:?; [apply utf8_three; [done..|]|apply replaced_utf8];
      apply Hrec; cbn; lia. }
  destruct (byte_in 240 244 a) eqn:?; [|by auto].
  destruct s1 as [|b s2]; [by auto|]. destruct (second_of_four a b) eqn:?; [|by auto].
  destruct s2 as [|c s3]; [by auto|].
  destruct (continuation c) eqn:?; [|apply replaced_utf8, Hrec; cbn; lia].
  destruct s3 as [|d s4]; [by auto|].
  destruct (continuation d) eqn:?; [apply utf8_four; [done..|]|apply replaced_utf8];
    apply Hrec; cbn; lia.
Qed.

(** The bytes a decoding keeps are exactly the texts; decoding again changes nothing. *)
Lemma decode_replace_id s : decode_replace s = s ↔ is_utf8 s.
Proof. split; [intros <-; apply decode_is_utf8|apply decode_utf8]. Qed.
Lemma decode_replace_idem s : decode_replace (decode_replace s) = decode_replace s.
Proof. apply decode_utf8, decode_is_utf8. Qed.

Lemma decode_replace_empty s : decode_replace s = "" ↔ s = "".
Proof.
  split; [|by intros ->]. destruct s as [|a s1]; cbn [decode_replace]; [done|].
  repeat case_match; discriminate.
Qed.

(** ASCII is UTF-8. *)
Lemma ascii_utf8 s :
  (∀ c, c ∈ String.list_ascii_of_string s → byte_in 0 127 c = true) → is_utf8 s.
Proof.
  induction s as [|a s IH]; intros Hs; [constructor|].
  apply utf8_one; [apply Hs; by left|]. apply IH. intros c Hc. apply Hs. by right.
Qed.

#[export] Instance is_utf8_dec s : Decision (is_utf8 s).
Proof.
  destruct (decide (decode_replace s = s)) as [H|H]; [left|right]; by rewrite <- decode_replace_id.
Defined.

(** The examples of the Unicode standard's section on ill-formed input. *)
Definition bytes (l : list N) : string := String.string_of_list_ascii (ascii_of_N <$> l).

Example decode_truncated :
  decode_replace (bytes [226; 130; 65; 240; 159; 152]%N) = replaced (String "A" (replaced "")).
Proof. reflexivity. Qed.
Example decode_surrogate :
  decode_replace (bytes [237; 160; 128]%N) = replaced (replaced (replaced "")).
Proof. reflexivity. Qed.
Example decode_accents : decode_replace (bytes [195; 169; 226; 130; 172]%N) = bytes [195; 169; 226; 130; 172]%N.
Proof. reflexivity. Qed.
