(* ===== verification/Domain.v ===== *)
(** The shared kernel of the domain layer: typed identifiers, scalar value objects,
    every domain event, and the entity root that records them
    ([src/packages/domain/src/plantkeeper/domain]: [identifiers.py], [values.py],
    [base.py] and the [events.py] and [values.py] of each context). *)

From S2P Require Import Prelude.

(** ** Identifiers

    A [UUID] is its 128-bit integer.  [UuidIdentifier] wraps one; its subclasses add
    no field, so a phantom index tells [PlantId] from [SensorId] and every
    identifier shares one decidable equality and one countable encoding. *)
Abbreviation uuid := N (only parsing).

Inductive id_kind :=
  | KHousehold | KPlant | KSensor | KSpecies | KJournalEntry | KNotification | KUser.

Inductive UuidIdentifier (k : id_kind) := Uuid (value : uuid).
Arguments Uuid {k} value.

Definition uuid_value {k} (i : UuidIdentifier k) : uuid := let '(Uuid v) := i in v.

Abbreviation HouseholdId := (UuidIdentifier KHousehold) (only parsing).
Abbreviation PlantId := (UuidIdentifier KPlant) (only parsing).
Abbreviation SensorId := (UuidIdentifier KSensor) (only parsing).
Abbreviation SpeciesId := (UuidIdentifier KSpecies) (only parsing).
Abbreviation JournalEntryId := (UuidIdentifier KJournalEntry) (only parsing).
Abbreviation NotificationId := (UuidIdentifier KNotification) (only parsing).
Abbreviation UserId := (UuidIdentifier KUser) (only parsing).

#[export] Instance UuidIdentifier_eq_dec k : EqDecision (UuidIdentifier k).
Proof. solve_decision. Defined.
#[export] Instance UuidIdentifier_countable k : Countable (UuidIdentifier k).
Proof. by apply (inj_countable' uuid_value Uuid); intros []. Defined.

(** [given or Identifier.new()]: an identifier is always truthy, so only [None] is
    replaced by the freshly minted one. *)
Definition or_new {k} (given : option (UuidIdentifier k)) (minted : uuid) :
    UuidIdentifier k :=
  match given with Some i => i | None => Uuid minted end.

(** ** Scalar value objects

    Each class keeps its own constructor; [*_validate] is what constructing the
    Pydantic model does: it returns the value or raises [ValidationError]. *)
Inductive Location := MkLocation (value : string).
Definition location_value (l : Location) : string := let '(MkLocation v) := l in v.
Definition Location_validate (raw : string) : result Location :=
  let value := strip raw in
  if decide (1 ≤ String.length value ≤ 100) then Ok (MkLocation value)
  else Raise ValidationError.

Inductive Moisture := MkMoisture (value : float).
Definition moisture_value (m : Moisture) : float := let '(MkMoisture v) := m in v.
Definition Moisture_validate (v : float) : result Moisture :=
  if float_le (float_of_Z 0) v && float_le v (float_of_Z 100) then Ok (MkMoisture v)
  else Raise ValidationError.
Inductive Temperature := MkTemperature (value : float).
Definition temperature_value (t : Temperature) : float := let '(MkTemperature v) := t in v.
Definition Temperature_validate (v : float) : result Temperature :=
  if float_le (float_of_Z (-50)) v && float_le v (float_of_Z 60) then Ok (MkTemperature v)
  else Raise ValidationError.
Inductive LightLevel := MkLightLevel (value : float).
Definition light_value (l : LightLevel) : float := let '(MkLightLevel v) := l in v.

Definition LightLevel_validate (v : float) : result LightLevel :=
  if float_le (float_of_Z 0) v then Ok (MkLightLevel v) else Raise ValidationError.

Inductive CareInterval := MkCareInterval (value : timedelta).
Definition interval_value (i : CareInterval) : timedelta := let '(MkCareInterval v) := i in v.
Definition CareInterval_validate (value : timedelta) : result CareInterval :=
  if decide (0 < value)%Z then Ok (MkCareInterval value) else Raise ValidationError.
Abbreviation WateringInterval := CareInterval (only parsing).

Record SensorReading := mkSensorReading {
  reading_sensor_id : SensorId;
  reading_recorded_at : datetime;
  reading_moisture : Moisture;
  reading_temperature : Temperature;
  reading_light : LightLevel }.

Inductive LightRequirement := LOW | MEDIUM | HIGH.

Inductive JournalEntryType := WATERING | FERTILIZING | REPOTTING | NOTE.

Inductive NotificationType :=
  | WATERING_DUE | CARE_MISSED | WATERING_RESCHEDULED | SOIL_MOISTURE_LOW
  | SOIL_MOISTURE_HIGH | TEMPERATURE_ANOMALY | SENSOR_OFFLINE | PLANT_ONBOARDED.

(** A JSON scalar of a notification's payload.  A string the code builds with
    [str(uuid)] or [isoformat()] is kept as the value it spells: both spellings are
    canonical, so equality of the strings is equality of the values. *)
Inductive JsonValue :=
  | JNull
  | JStr (s : string)
  | JUuid (u : uuid)
  | JTime (t : datetime)
  | JFloat (x : float)
  | JSeconds (d : timedelta).

#[export] Instance Location_eq_dec : EqDecision Location.
Proof. solve_decision. Defined.
#[export] Instance Moisture_eq_dec : EqDecision Moisture.
Proof. solve_decision. Defined.
#[export] Instance Temperature_eq_dec : EqDecision Temperature.
Proof. solve_decision. Defined.
#[export] Instance LightLevel_eq_dec : EqDecision LightLevel.
Proof. solve_decision. Defined.
#[export] Instance CareInterval_eq_dec : EqDecision CareInterval.
Proof. solve_decision. Defined.
#[export] Instance LightRequirement_eq_dec : EqDecision LightRequirement.
Proof. solve_decision. Defined.
#[export] Instance JournalEntryType_eq_dec : EqDecision JournalEntryType.
Proof. solve_decision. Defined.
#[export] Instance NotificationType_eq_dec : EqDecision NotificationType.
Proof. solve_decision. Defined.
#[export] Instance JsonValue_eq_dec : EqDecision JsonValue.
Proof. solve_decision. Defined.

(** ** Domain events

    The body of each event, one constructor per class in the order of the modules
    that declare them.  [DomainEvent] adds what the root class carries. *)
Inductive event_body :=
  (* garden/events.py *)
  | PlantAdded (plant_id : PlantId) (household_id : HouseholdId) (species_id : SpeciesId)
      (name : string) (location : Location) (added_at : datetime)
  | PlantRemoved (plant_id : PlantId) (removed_at : datetime)
  | PlantMoved (plant_id : PlantId) (previous_location location : Location)
  | PlantOnboarded (plant_id : PlantId) (household_id : HouseholdId)
      (species_id : SpeciesId) (next_watering_at : datetime)
  (* care/events.py *)
  | CareScheduleCreated (plant_id : PlantId) (watering_interval : WateringInterval)
      (next_watering_at : datetime)
  | WateringDue (plant_id : PlantId) (due_at : datetime)
  | WateringCompleted (plant_id : PlantId) (completed_at next_watering_at : datetime)
  | WateringRescheduled (plant_id : PlantId)
      (previous_next_watering_at next_watering_at : datetime) (reason : option string)
  | CareMissed (plant_id : PlantId) (next_watering_at : datetime)
  | CareSkipped (plant_id : PlantId) (skipped_at next_watering_at : datetime)
  (* catalog/events.py *)
  | SpeciesSyncRequested
  | SpeciesAdded (species_id : SpeciesId) (scientific_name common_name : string)
      (watering_interval : WateringInterval) (light_requirement : LightRequirement)
      (version : Z)
  | SpeciesUpdated (species_id : SpeciesId) (scientific_name common_name : string)
      (watering_interval : WateringInterval) (light_requirement : LightRequirement)
      (version : Z)
  | SpeciesCacheInvalidated (species_id : SpeciesId)
  (* journal/events.py *)
  | JournalEntryAdded (entry_id : JournalEntryId) (plant_id : PlantId)
      (entry_type : JournalEntryType) (note : option string) (entry_occurred_at : datetime)
  (* telemetry/events.py *)
  | TelemetryReceived (sensor_id : SensorId) (plant_id : PlantId) (recorded_at : datetime)
      (moisture : Moisture) (temperature : Temperature) (light : LightLevel)
  | SoilMoistureLow (sensor_id : SensorId) (plant_id : PlantId) (moisture : Moisture)
      (threshold : float)
  | SoilMoistureHigh (sensor_id : SensorId) (plant_id : PlantId) (moisture : Moisture)
      (threshold : float)
  | TemperatureAnomaly (sensor_id : SensorId) (plant_id : PlantId)
      (temperature : Temperature) (low_threshold high_threshold : float)
  | SensorOffline (sensor_id : SensorId) (plant_id : PlantId) (last_seen_at : datetime)
      (offline_for : timedelta)
  (* notifications/events.py *)
  | NotificationCreated (notification_id : NotificationId) (household_id : HouseholdId)
      (notification_type : NotificationType) (payload : gmap string JsonValue)
      (created_at : datetime)
  | NotificationRead (notification_id : NotificationId) (household_id : HouseholdId)
      (read_at : datetime)
  (* saga/events.py *)
  | SagaStarted (saga_id : uuid) (saga_name : string)
  | SagaCompleted (saga_id : uuid) (saga_name : string)
  | SagaFailed (saga_id : uuid) (saga_name : string) (error : exn)
  | SagaCompensated (saga_id : uuid) (saga_name : string)
  | SagaRetrying (saga_id : uuid) (saga_name : string) (attempt : Z) (error : string)
  | SagaParked (saga_id : uuid) (saga_name : string) (attempts : Z) (error : string).

Record DomainEvent := mkEvent {
  event_id : uuid;
  occurred_at : datetime;
  body : event_body }.

#[export] Instance event_body_eq_dec : EqDecision event_body.
Proof. solve_decision. Defined.
#[export] Instance DomainEvent_eq_dec : EqDecision DomainEvent.
Proof. solve_decision. Defined.

(** ** Recording events

    [AggregateRoot] keeps the pending events of one aggregate; the aggregates below
    embed such a list.  Minting an [event_id] is [uuid7()]: every operation that
    records events takes the identifiers it mints as an argument. *)

(** [_record]: append an event that has just happened. *)
Definition record_event (events : list DomainEvent) (e : DomainEvent) : list DomainEvent :=
  events ++ [e].

(** [collect_events]: the pending events in order, and the emptied list. *)
Definition collect_events (events : list DomainEvent) : list DomainEvent * list DomainEvent :=
  (events, []).

(** [Entity.__eq__]: same concrete type and same identifier.  The concrete type is
    the identifier's kind. *)
Definition entity_eq {k1 k2 : id_kind} (a : UuidIdentifier k1) (b : UuidIdentifier k2) : bool :=
  match k1, k2 with
  | KHousehold, KHousehold | KPlant, KPlant | KSensor, KSensor | KSpecies, KSpecies
  | KJournalEntry, KJournalEntry | KNotification, KNotification | KUser, KUser =>
      bool_decide (uuid_value a = uuid_value b)
  | _, _ => false
  end.

(** ** Lemmas *)

Lemma record_event_app es e : record_event es e = es ++ [e].
Proof. done. Qed.

Lemma Uuid_inj k (u v : uuid) : @Uuid k u = Uuid v → u = v.
Proof. by injection 1. Qed.

Lemma uuid_value_inj k (i j : UuidIdentifier k) : uuid_value i = uuid_value j → i = j.
Proof. destruct i, j; cbn. by intros ->. Qed.

(** The value objects only hold what their constructors accept. *)
Lemma Location_validate_Ok raw l :
  Location_validate raw = Ok l →
  location_value l = strip raw ∧ 1 ≤ String.length (location_value l) ≤ 100.
Proof. unfold Location_validate. case_decide; [|done]. by intros [= <-]. Qed.

(** Validating a location's own value again gives the same location: a stored row
    rebuilds the value object it was written from. *)
Lemma Location_validate_roundtrip raw l :
  Location_validate raw = Ok l → Location_validate (location_value l) = Ok l.
Proof.
  intros H. pose proof (Location_validate_Ok _ _ H) as [Hv Hlen].
  unfold Location_validate. rewrite Hv, strip_idem, <- Hv.
  rewrite decide_True by done. by destruct l.
Qed.

Lemma CareInterval_validate_Ok v i :
  CareInterval_validate v = Ok i → interval_value i = v ∧ (0 < v)%Z.
Proof. unfold CareInterval_validate. case_decide; [|done]. by intros [= <-]. Qed.
