(* ===== verification/Care.v ===== *)
(** The Care context's aggregate: the watering schedule of one plant
    ([care/schedule.py] of the domain package).  Each operation is the method of the
    same name; it returns the new state or raises, and a raise leaves the aggregate
    as it was because every guard of the code precedes its first assignment. *)

From S2P Require Import Prelude Domain.

(** ** State and operations *)

Record CareSchedule := mkCareSchedule {
  cs_plant_id : PlantId;
  cs_watering_interval : WateringInterval;
  cs_next_watering_at : datetime;
  cs_version : Z;
  cs_events : list DomainEvent }.

(** [CareSchedule(...)]: rebuild from stored state; nothing is recorded. *)
Definition CareSchedule_new (plant_id : PlantId) (watering_interval : WateringInterval)
    (next_watering_at : datetime) (version : Z) : CareSchedule :=
  mkCareSchedule plant_id watering_interval next_watering_at version [].

Definition CareSchedule_create (plant_id : PlantId) (watering_interval : WateringInterval)
    (starts_at now : datetime) (eid : uuid) : result CareSchedule :=
  if decide (starts_at < now)%Z then Raise CareScheduleInvariantError
  else Ok (mkCareSchedule plant_id watering_interval starts_at 1
    [mkEvent eid now (CareScheduleCreated plant_id watering_interval starts_at)]).

Definition CareSchedule_ensure_version (s : CareSchedule) (expected_version : Z) :
    result unit :=
  if decide (expected_version ≠ cs_version s) then Raise CareScheduleVersionConflictError
  else Ok tt.

(** The assignments every versioned change ends with: the new moment, the next
    version and one recorded event. *)
Definition CareSchedule_move (s : CareSchedule) (next : datetime) (e : DomainEvent) :
    CareSchedule :=
  mkCareSchedule (cs_plant_id s) (cs_watering_interval s) next (cs_version s + 1)
    (record_event (cs_events s) e).

Definition CareSchedule_mark_due (s : CareSchedule) (now : datetime) (eid : uuid) :
    result CareSchedule :=
  if decide (now < cs_next_watering_at s)%Z then Raise WateringNotDueError
  else Ok (mkCareSchedule (cs_plant_id s) (cs_watering_interval s)
    (cs_next_watering_at s) (cs_version s)
    (record_event (cs_events s)
      (mkEvent eid now (WateringDue (cs_plant_id s) (cs_next_watering_at s))))).

Definition CareSchedule_complete_watering (s : CareSchedule) (now : datetime)
    (expected_version : Z) (eid : uuid) : result CareSchedule :=
  _ ← CareSchedule_ensure_version s expected_version;
  next ← dt_add now (interval_value (cs_watering_interval s));
  Ok (CareSchedule_move s next
    (mkEvent eid now (WateringCompleted (cs_plant_id s) now next))).

Definition CareSchedule_reschedule (s : CareSchedule) (next_watering_at now : datetime)
    (expected_version : Z) (reason : option string) (eid : uuid) : result CareSchedule :=
  _ ← CareSchedule_ensure_version s expected_version;
  if decide (next_watering_at < now)%Z then Raise CareScheduleInvariantError
  else Ok (CareSchedule_move s next_watering_at
    (mkEvent eid now (WateringRescheduled (cs_plant_id s) (cs_next_watering_at s)
      next_watering_at reason))).

Definition CareSchedule_skip (s : CareSchedule) (now : datetime) (expected_version : Z)
    (eid : uuid) : result CareSchedule :=
  _ ← CareSchedule_ensure_version s expected_version;
  next ← dt_add (cs_next_watering_at s) (interval_value (cs_watering_interval s));
  Ok (CareSchedule_move s next
    (mkEvent eid now (CareSkipped (cs_plant_id s) now next))).

Definition CareSchedule_mark_missed (s : CareSchedule) (now : datetime)
    (expected_version : Z) (eid : uuid) : result CareSchedule :=
  _ ← CareSchedule_ensure_version s expected_version;
  next ← dt_add (cs_next_watering_at s) (interval_value (cs_watering_interval s));
  Ok (CareSchedule_move s next
    (mkEvent eid now (CareMissed (cs_plant_id s) next))).

(** ** The aggregate as a transition system

    The calls a client may make, and what a sequence of them does: a call that
    raises leaves the aggregate unchanged and the client goes on. *)
Inductive schedule_call :=
  | CallMarkDue (now : datetime) (eid : uuid)
  | CallComplete (now : datetime) (expected_version : Z) (eid : uuid)
  | CallReschedule (next_watering_at now : datetime) (expected_version : Z)
      (reason : option string) (eid : uuid)
  | CallSkip (now : datetime) (expected_version : Z) (eid : uuid)
  | CallMissed (now : datetime) (expected_version : Z) (eid : uuid).

Definition schedule_apply (s : CareSchedule) (c : schedule_call) : result CareSchedule :=
  match c with
  | CallMarkDue now eid => CareSchedule_mark_due s now eid
  | CallComplete now v eid => CareSchedule_complete_watering s now v eid
  | CallReschedule next now v reason eid => CareSchedule_reschedule s next now v reason eid
  | CallSkip now v eid => CareSchedule_skip s now v eid
  | CallMissed now v eid => CareSchedule_mark_missed s now v eid
  end.

Definition schedule_after (s : CareSchedule) (c : schedule_call) : CareSchedule :=
  match schedule_apply s c with Ok s' => s' | Raise _ => s end.

Definition schedule_run (s : CareSchedule) (cs : list schedule_call) : CareSchedule :=
  foldl schedule_after s cs.

(** The version a call was made against; [mark_due] reports a fact and names none. *)
Definition call_version (c : schedule_call) : option Z :=
  match c with
  | CallMarkDue _ _ => None
  | CallComplete _ v _ | CallReschedule _ _ v _ _ | CallSkip _ v _ | CallMissed _ v _ =>
      Some v
  end.

(** Whether an event reports a change of the schedule, as opposed to [WateringDue]. *)
Definition is_schedule_change (e : DomainEvent) : bool :=
  match body e with
  | WateringCompleted _ _ _ | WateringRescheduled _ _ _ _ | CareMissed _ _
  | CareSkipped _ _ _ => true
  | _ => false
  end.

Definition schedule_changes (s : CareSchedule) : list DomainEvent :=
  filter (λ e, is_schedule_change e = true) (cs_events s).

(** The moment an event says the plant is next due, when it says one. *)
Definition announced_next (b : event_body) : option datetime :=
  match b with
  | CareScheduleCreated _ _ t | WateringCompleted _ _ t | WateringRescheduled _ _ t _
  | CareMissed _ t | CareSkipped _ _ t | WateringDue _ t => Some t
  | _ => None
  end.

(** ** Lemmas *)

Lemma ensure_version_Ok s v u :
  CareSchedule_ensure_version s v = Ok u ↔ v = cs_version s.
Proof. unfold CareSchedule_ensure_version. destruct u. case_decide; naive_solver. Qed.

Lemma ensure_version_stale s v :
  v ≠ cs_version s → CareSchedule_ensure_version s v = Raise CareScheduleVersionConflictError.
Proof. intros. unfold CareSchedule_ensure_version. by rewrite decide_True. Qed.

(** Invert a successful call into the guards it passed and the state it built. *)
Ltac inv_schedule H :=
  unfold CareSchedule_mark_due, CareSchedule_complete_watering, CareSchedule_reschedule,
    CareSchedule_skip, CareSchedule_mark_missed in H;
  repeat match type of H with
  | mbind _ _ = Ok _ =>
      let K := fresh "Hg" in apply bind_Ok in H; destruct H as (? & K & H);
      first [apply ensure_version_Ok in K | apply dt_add_Ok in K | idtac]; subst
  | (if decide _ then _ else _) = Ok _ => destruct (decide _); [discriminate H|]
  end;
  injection H as H; subst.

(** Every successful call is a [mark_due] that only adds its event, or a move. *)
Lemma schedule_apply_shape s c s' :
  schedule_apply s c = Ok s' →
  (call_version c = None ∧ cs_next_watering_at s' = cs_next_watering_at s ∧
     cs_version s' = cs_version s ∧
     ∃ e, is_schedule_change e = false ∧ announced_next (body e) = Some (cs_next_watering_at s') ∧
       cs_events s' = cs_events s ++ [e]) ∨
  (call_version c = Some (cs_version s) ∧
     ∃ e next, is_schedule_change e = true ∧ announced_next (body e) = Some next ∧
       s' = CareSchedule_move s next e).
Proof.
  destruct c; cbn; intros H; inv_schedule H.
  - left. do 3 (split; [done|]). eexists; split; [|split]; [..|reflexivity]; done.
  - right. split; [done|]. do 2 eexists. split; [|split]; [..|reflexivity]; done.
  - right. split; [done|]. do 2 eexists. split; [|split]; [..|reflexivity]; done.
  - right. split; [done|]. do 2 eexists. split; [|split]; [..|reflexivity]; done.
  - right. split; [done|]. do 2 eexists. split; [|split]; [..|reflexivity]; done.
Qed.

Lemma schedule_apply_identity s c s' :
  schedule_apply s c = Ok s' →
  cs_plant_id s' = cs_plant_id s ∧ cs_watering_interval s' = cs_watering_interval s.
Proof. destruct c; cbn; intros H; by inv_schedule H. Qed.

Lemma schedule_changes_snoc s s' e :
  cs_events s' = cs_events s ++ [e] →
  schedule_changes s' = schedule_changes s ++ (if is_schedule_change e then [e] else []).
Proof.
  unfold schedule_changes. intros ->. rewrite filter_app. f_equal.
  rewrite filter_cons, filter_nil. destruct (is_schedule_change e); by case_decide.
Qed.

(** ** Theorems *)

(** Optimistic locking counts changes: after any sequence of calls, successful
    or refused, the version has grown by exactly the number of change events the
    aggregate recorded, so no change is ever applied without its event nor an event
    recorded without its change. *)
Theorem schedule_version_counts_changes (s : CareSchedule) (calls : list schedule_call) :
  (cs_version (schedule_run s calls) - cs_version s =
   Z.of_nat (length (schedule_changes (schedule_run s calls))) -
   Z.of_nat (length (schedule_changes s)))%Z.
Proof.
  induction calls as [|c calls IH] using rev_ind; [cbn; lia|].
  unfold schedule_run in *. rewrite foldl_snoc. unfold schedule_after at 1 3.
  destruct (schedule_apply _ c) as [s'|] eqn:E; [|done].
  apply schedule_apply_shape in E as [(_ & _ & Hv & e & He & _ & Hes)|(_ & e & n & He & _ & ->)].
  - rewrite (schedule_changes_snoc _ _ _ Hes), He, app_nil_r, Hv. done.
  - rewrite (schedule_changes_snoc _ (CareSchedule_move _ n e) e) by done.
    rewrite He, length_app. cbn. lia.
Qed.

(** No lost update: when two callers read the same version and one of them
    changes the schedule, every versioned call of the other is refused with
    [CareScheduleVersionConflictError], whatever happened in between. *)
Theorem schedule_no_lost_update (s s' : CareSchedule) (c1 c2 : schedule_call)
    (between : list schedule_call) (v : Z) :
  call_version c1 = Some v → call_version c2 = Some v →
  schedule_apply s c1 = Ok s' →
  schedule_apply (schedule_run s' between) c2 = Raise CareScheduleVersionConflictError.
Proof.
  intros H1 H2 E.
  assert (cs_version s' = v + 1)%Z as Hv.
  { apply schedule_apply_shape in E as [(? & _)|(? & ? & ? & _ & _ & ->)]; [congruence|].
    cbn. congruence. }
  assert (cs_version (schedule_run s' between) ≠ v) as Hne.
  { enough (cs_version s' ≤ cs_version (schedule_run s' between))%Z by lia.
    clear. unfold schedule_run. induction between as [|c b IH] using rev_ind; [done|].
    rewrite foldl_snoc. unfold schedule_after at 1.
    destruct (schedule_apply _ c) as [x|] eqn:E; [|done].
    apply schedule_apply_shape in E as [(_ & _ & -> & _)|(_ & ? & ? & _ & _ & ->)];
      cbn; lia. }
  destruct c2; cbn in *; simplify_eq;
    unfold CareSchedule_complete_watering, CareSchedule_reschedule, CareSchedule_skip,
      CareSchedule_mark_missed; by rewrite ensure_version_stale by congruence.
Qed.

Lemma schedule_no_lost_update_witness :
  let s := CareSchedule_new (Uuid 1) (MkCareInterval (days 7)) (days 100) 3 in
  let c1 := CallComplete (days 100) 3 10 in
  let c2 := CallSkip (days 100) 3 11 in
  ∃ s', schedule_apply s c1 = Ok s' ∧
    schedule_apply (schedule_run s' [CallMarkDue (days 200) 12]) c2 =
      Raise CareScheduleVersionConflictError.
Proof.
  intros s c1 c2. eexists. split; [vm_compute; reflexivity|].
  by apply (schedule_no_lost_update s _ c1 c2 [CallMarkDue (days 200) 12] 3).
Defined.

(** The stream tells the schedule: after any sequence of calls on a newly
    created schedule, the last recorded event announces exactly the moment the
    aggregate holds, so a consumer that follows the events knows when the plant is
    due. *)
Theorem schedule_events_announce_next (plant_id : PlantId) (i : WateringInterval)
    (starts_at now : datetime) (eid : uuid) (s : CareSchedule) (calls : list schedule_call) :
  CareSchedule_create plant_id i starts_at now eid = Ok s →
  (last (cs_events (schedule_run s calls)) ≫= (λ e, announced_next (body e))) =
    Some (cs_next_watering_at (schedule_run s calls)).
Proof.
  unfold CareSchedule_create. case_decide; [done|]. intros [= <-].
  induction calls as [|c calls IH] using rev_ind; [done|].
  unfold schedule_run in *. rewrite foldl_snoc. unfold schedule_after at 1 3.
  destruct (schedule_apply _ c) as [s'|] eqn:E; [|done].
  apply schedule_apply_shape in E as [(_ & _ & _ & e & _ & He & Hes)|(_ & e & n & _ & He & ->)].
  - by rewrite Hes, last_snoc.
  - cbn. unfold record_event. by rewrite last_snoc.
Qed.

Lemma schedule_events_announce_next_witness :
  let i := MkCareInterval (days 7) in
  ∃ s, CareSchedule_create (Uuid 1) i (days 107) (days 100) 9 = Ok s ∧
    (last (cs_events (schedule_run s [CallSkip (days 101) 1 10; CallSkip (days 101) 1 11]))
      ≫= (λ e, announced_next (body e))) =
      Some (cs_next_watering_at
        (schedule_run s [CallSkip (days 101) 1 10; CallSkip (days 101) 1 11])).
Proof.
  intros i. eexists. split; [vm_compute; reflexivity|].
  by apply (schedule_events_announce_next (Uuid 1) i (days 107) (days 100) 9).
Defined.
