(* ===== verification/Garden.v ===== *)
(** The Garden context's aggregates: a household with its cap on plants
    ([garden/household.py]) and one plant with its care intervals
    ([garden/plant.py]).  The Identity context's [User] ([identity/user.py]), whose
    only rule is the same name rule, is here too. *)

From S2P Require Import Prelude Domain.

(** ** Household *)

Definition MAX_PLANTS : nat := 50.

Record Household := mkHousehold {
  hh_id : HouseholdId;
  hh_name : string;
  hh_plant_ids : gset PlantId }.

Definition Household_new (household_id : HouseholdId) (name : string)
    (plant_ids : list PlantId) : result Household :=
  let normalized_name := strip name in
  if decide (normalized_name = EmptyString) then Raise HouseholdNameEmptyError
  else
    let ids : gset PlantId := list_to_set plant_ids in
    if decide (MAX_PLANTS < size ids) then Raise HouseholdCapacityExceededError
    else Ok (mkHousehold household_id normalized_name ids).

Definition Household_create (name : string) (household_id : option HouseholdId)
    (minted : uuid) : result Household :=
  Household_new (or_new household_id minted) name [].

Definition Household_plant_count (h : Household) : nat := size (hh_plant_ids h).

Definition Household_add_plant (h : Household) (plant_id : PlantId) : result Household :=
  if decide (plant_id ∈ hh_plant_ids h) then Ok h
  else if decide (MAX_PLANTS ≤ size (hh_plant_ids h)) then
    Raise HouseholdCapacityExceededError
  else Ok (mkHousehold (hh_id h) (hh_name h) ({[plant_id]} ∪ hh_plant_ids h)).

Definition Household_remove_plant (h : Household) (plant_id : PlantId) : result Household :=
  if decide (plant_id ∉ hh_plant_ids h) then Raise HouseholdPlantNotFoundError
  else Ok (mkHousehold (hh_id h) (hh_name h) (hh_plant_ids h ∖ {[plant_id]})).

(** One accepted call on a household. *)
Inductive household_step : Household → Household → Prop :=
  | step_add_plant h p h' : Household_add_plant h p = Ok h' → household_step h h'
  | step_remove_plant h p h' : Household_remove_plant h p = Ok h' → household_step h h'.

(** ** Plant *)

Definition MIN_WATERING_INTERVAL : timedelta := hours 1.
Definition MIN_REPOTTING_INTERVAL : timedelta := days 182.

Record Plant := mkPlant {
  p_id : PlantId;
  p_household_id : HouseholdId;
  p_species_id : SpeciesId;
  p_name : string;
  p_location : Location;
  p_added_at : datetime;
  p_last_watered_at : option datetime;
  p_last_repotted_at : option datetime;
  p_removed : bool;
  p_events : list DomainEvent }.

Definition Plant_new (plant_id : PlantId) (household_id : HouseholdId)
    (species_id : SpeciesId) (name : string) (location : Location) (added_at : datetime)
    (last_watered_at last_repotted_at : option datetime) (removed : bool) : result Plant :=
  let normalized_name := strip name in
  if decide (normalized_name = EmptyString) then Raise PlantNameEmptyError
  else Ok (mkPlant plant_id household_id species_id normalized_name location added_at
    last_watered_at last_repotted_at removed []).

(** [_record] on a plant. *)
Definition Plant_record (p : Plant) (e : DomainEvent) : Plant :=
  mkPlant (p_id p) (p_household_id p) (p_species_id p) (p_name p) (p_location p)
    (p_added_at p) (p_last_watered_at p) (p_last_repotted_at p) (p_removed p)
    (record_event (p_events p) e).

Definition Plant_add (household_id : HouseholdId) (species_id : SpeciesId) (name : string)
    (location : Location) (now : datetime) (plant_id : option PlantId)
    (minted eid : uuid) : result Plant :=
  plant ← Plant_new (or_new plant_id minted) household_id species_id name location now
    None None false;
  Ok (Plant_record plant (mkEvent eid now
    (PlantAdded (p_id plant) household_id species_id (p_name plant) location now))).

Definition Plant_ensure_active (p : Plant) : result unit :=
  if p_removed p then Raise PlantAlreadyRemovedError else Ok tt.

(** The guard of [water] and [repot]: the previous care is absent or at least
    [minimum] ago. *)
Definition rested (last : option datetime) (now : datetime) (minimum : timedelta) : bool :=
  match last with
  | Some t => negb (bool_decide (now - t < minimum)%Z)
  | None => true
  end.

Definition Plant_water (p : Plant) (now : datetime) : result Plant :=
  _ ← Plant_ensure_active p;
  if rested (p_last_watered_at p) now MIN_WATERING_INTERVAL then
    Ok (mkPlant (p_id p) (p_household_id p) (p_species_id p) (p_name p) (p_location p)
      (p_added_at p) (Some now) (p_last_repotted_at p) (p_removed p) (p_events p))
  else Raise PlantWateringTooSoonError.

Definition Plant_repot (p : Plant) (now : datetime) : result Plant :=
  _ ← Plant_ensure_active p;
  if rested (p_last_repotted_at p) now MIN_REPOTTING_INTERVAL then
    Ok (mkPlant (p_id p) (p_household_id p) (p_species_id p) (p_name p) (p_location p)
      (p_added_at p) (p_last_watered_at p) (Some now) (p_removed p) (p_events p))
  else Raise PlantRepottingTooSoonError.

Definition Plant_move (p : Plant) (location : Location) (now : datetime) (eid : uuid) :
    result Plant :=
  _ ← Plant_ensure_active p;
  if decide (location = p_location p) then Ok p
  else Ok (Plant_record
    (mkPlant (p_id p) (p_household_id p) (p_species_id p) (p_name p) location
      (p_added_at p) (p_last_watered_at p) (p_last_repotted_at p) (p_removed p)
      (p_events p))
    (mkEvent eid now (PlantMoved (p_id p) (p_location p) location))).

Definition Plant_remove (p : Plant) (now : datetime) (eid : uuid) : result Plant :=
  _ ← Plant_ensure_active p;
  Ok (Plant_record
    (mkPlant (p_id p) (p_household_id p) (p_species_id p) (p_name p) (p_location p)
      (p_added_at p) (p_last_watered_at p) (p_last_repotted_at p) true (p_events p))
    (mkEvent eid now (PlantRemoved (p_id p) now))).

(** The calls on a plant, and a run of them in which a refused call changes
    nothing; a run answers with the plant and the calls it accepted, in order. *)
Inductive plant_call :=
  | CallWater (now : datetime)
  | CallRepot (now : datetime)
  | CallMove (location : Location) (now : datetime) (eid : uuid)
  | CallRemove (now : datetime) (eid : uuid).

Definition plant_apply (p : Plant) (c : plant_call) : result Plant :=
  match c with
  | CallWater now => Plant_water p now
  | CallRepot now => Plant_repot p now
  | CallMove location now eid => Plant_move p location now eid
  | CallRemove now eid => Plant_remove p now eid
  end.

Fixpoint plant_run (p : Plant) (cs : list plant_call) : Plant * list plant_call :=
  match cs with
  | [] => (p, [])
  | c :: cs =>
      match plant_apply p c with
      | Ok p' => let '(q, done) := plant_run p' cs in (q, c :: done)
      | Raise _ => plant_run p cs
      end
  end.

(** The instants at which accepted waterings happened, oldest first. *)
Definition watering_times (cs : list plant_call) : list datetime :=
  omap (λ c, match c with CallWater t => Some t | _ => None end) cs.

(** Each instant is at least [d] after the one before it. *)
Fixpoint spaced (d : timedelta) (prev : option datetime) (ts : list datetime) : Prop :=
  match ts with
  | [] => True
  | t :: ts => match prev with Some t0 => (t0 + d ≤ t)%Z | None => True end ∧
      spaced d (Some t) ts
  end.

(** ** User *)

Record User := mkUser {
  user_id : UserId;
  user_household_id : HouseholdId;
  user_display_name : string;
  user_added_at : datetime }.

Definition User_new (id : UserId) (household_id : HouseholdId) (display_name : string)
    (added_at : datetime) : result User :=
  let normalized_name := strip display_name in
  if decide (normalized_name = EmptyString) then Raise UserNameEmptyError
  else Ok (mkUser id household_id normalized_name added_at).

Definition User_create (household_id : HouseholdId) (display_name : string)
    (now : datetime) (id : option UserId) (minted : uuid) : result User :=
  User_new (or_new id minted) household_id display_name now.

(** ** Lemmas *)

Lemma ensure_active_Ok p u : Plant_ensure_active p = Ok u ↔ p_removed p = false.
Proof. unfold Plant_ensure_active. destruct u. case_match; naive_solver. Qed.

Lemma rested_spaced last now d :
  rested last now d = true ↔
  match last with Some t => (t + d ≤ now)%Z | None => True end.
Proof.
  unfold rested. destruct last as [t|]; [|done].
  rewrite negb_true_iff, bool_decide_eq_false. lia.
Qed.

Lemma Household_new_Ok id name ids h :
  Household_new id name ids = Ok h →
  hh_id h = id ∧ hh_name h = strip name ∧ hh_plant_ids h = list_to_set ids ∧
  Household_plant_count h ≤ MAX_PLANTS.
Proof.
  unfold Household_new, Household_plant_count. repeat case_decide; try done.
  intros [= <-]. cbn. split_and!; try done. lia.
Qed.

Lemma Plant_new_Ok id hid sid name loc at_ lw lr rm p :
  Plant_new id hid sid name loc at_ lw lr rm = Ok p →
  p = mkPlant id hid sid (strip name) loc at_ lw lr rm [].
Proof. unfold Plant_new. case_decide; [done|]. by intros [= <-]. Qed.

(** What an accepted call keeps, and what it does to the watering clock. *)
Lemma plant_apply_Ok p c p' :
  plant_apply p c = Ok p' →
  p_removed p = false ∧ p_id p' = p_id p ∧ p_household_id p' = p_household_id p ∧
  match c with
  | CallWater now => p_last_watered_at p' = Some now ∧
      rested (p_last_watered_at p) now MIN_WATERING_INTERVAL = true
  | _ => p_last_watered_at p' = p_last_watered_at p
  end.
Proof.
  destruct c; cbn; unfold Plant_water, Plant_repot, Plant_move, Plant_remove; intros H;
    apply bind_Ok in H as ([] & Ha%ensure_active_Ok & H); repeat case_match; inv_result;
    cbn; auto.
Qed.

(** ** Theorems *)

(** The cap holds for ever: a household built by its constructor never owns
    more than [MAX_PLANTS] plants, whatever sequence of additions and removals it
    accepts. *)
Theorem household_capacity (id : HouseholdId) (name : string) (ids : list PlantId)
    (h h' : Household) :
  Household_new id name ids = Ok h → reachable household_step h h' →
  Household_plant_count h' ≤ MAX_PLANTS.
Proof.
  intros Hnew. apply (reachable_invariant _ (λ h, Household_plant_count h ≤ MAX_PLANTS));
    [|by eapply Household_new_Ok].
  unfold Household_plant_count. intros a b Ha Hs; revert Ha; destruct Hs as [? p ? H|? p ? H]; intros Ha;
    [unfold Household_add_plant in H|unfold Household_remove_plant in H];
    repeat case_decide; inv_result; cbn; try done.
  - rewrite size_union by set_solver. rewrite size_singleton. lia.
  - rewrite size_difference by set_solver. lia.
Qed.

Lemma household_capacity_witness :
  ∃ h h', Household_new (Uuid 1) "Home" [] = Ok h ∧
    Household_add_plant h (Uuid 2) = Ok h' ∧ Household_plant_count h' ≤ MAX_PLANTS.
Proof.
  do 2 eexists. split; [vm_compute; reflexivity|]. split; [vm_compute; reflexivity|].
  eapply (household_capacity (Uuid 1) "Home" []); [vm_compute; reflexivity|].
  eapply reach_step; [apply reach_here|]. eapply (step_add_plant _ (Uuid 2)).
  vm_compute; reflexivity.
Defined.

(** Registering is idempotent and removal undoes it: a plant that was accepted
    is accepted again without effect even when the household is full, and removing
    it gives back the household as it was before. *)
Theorem household_add_remove (h h' : Household) (p : PlantId) :
  p ∉ hh_plant_ids h → Household_add_plant h p = Ok h' →
  Household_add_plant h' p = Ok h' ∧ Household_remove_plant h' p = Ok h ∧
  Household_remove_plant h p = Raise HouseholdPlantNotFoundError.
Proof.
  intros Hp. unfold Household_add_plant at 1. rewrite decide_False by done.
  case_decide; [done|]. intros [= <-].
  unfold Household_add_plant, Household_remove_plant; cbn.
  rewrite (decide_True (P := p ∉ hh_plant_ids h)) by done.
  rewrite decide_True by set_solver. rewrite decide_False by set_solver.
  split_and!; [done| |done]. do 2 f_equal. destruct h; cbn in *. f_equal. set_solver.
Qed.

Lemma household_add_remove_witness :
  let h := mkHousehold (Uuid 1) "Home" {[Uuid 5]} in
  ∃ h', Household_add_plant h (Uuid 2) = Ok h' ∧
    Household_add_plant h' (Uuid 2) = Ok h' ∧ Household_remove_plant h' (Uuid 2) = Ok h ∧
    Household_remove_plant h (Uuid 2) = Raise HouseholdPlantNotFoundError.
Proof.
  intros h. eexists. split; [vm_compute; reflexivity|].
  apply (household_add_remove h); [|vm_compute; reflexivity].
  subst h; cbn. set_solver.
Defined.

(** Waterings are spaced: in any sequence of calls, whatever instants the
    clients supply and whichever calls are refused, the accepted waterings are at
    least [MIN_WATERING_INTERVAL] apart, counting from the last watering the plant
    already remembered. *)
Theorem waterings_spaced (p : Plant) (calls : list plant_call) :
  spaced MIN_WATERING_INTERVAL (p_last_watered_at p)
    (watering_times (plant_run p calls).2).
Proof.
  revert p. induction calls as [|c calls IH]; intros p; cbn; [done|].
  destruct (plant_apply p c) as [p'|] eqn:E; [|apply IH].
  specialize (IH p'). destruct (plant_run p' calls) as [q acc]; cbn in *.
  apply plant_apply_Ok in E as (_ & _ & _ & E). destruct c; cbn in *.
  - destruct E as [E1 E2%rested_spaced]. rewrite E1 in IH. split; [done|apply IH].
  - by rewrite <- E.
  - by rewrite <- E.
  - by rewrite <- E.
Qed.

(** Removal is final: once a removal is accepted no call on the plant is ever
    accepted again, each is refused with [PlantAlreadyRemovedError], and the plant
    keeps exactly the state and the events the removal left. *)
Theorem removal_is_final (p p' : Plant) (now : datetime) (eid : uuid)
    (calls : list plant_call) :
  Plant_remove p now eid = Ok p' →
  plant_run p' calls = (p', []) ∧
  Forall (λ c, plant_apply p' c = Raise PlantAlreadyRemovedError) calls.
Proof.
  unfold Plant_remove. intros H. apply bind_Ok in H as ([] & _ & [= <-]).
  match goal with |- plant_run ?q _ = _ ∧ _ => set (q' := q) end.
  assert (∀ c, plant_apply q' c = Raise PlantAlreadyRemovedError) as Hall by (by intros []).
  clearbody q'. split; [|by apply Forall_true].
  induction calls as [|c calls IH]; cbn; [done|]. by rewrite Hall.
Qed.

Lemma removal_is_final_witness :
  let p := mkPlant (Uuid 3) (Uuid 1) (Uuid 2) "Fern" (MkLocation "Shelf") (days 5)
    None None false [] in
  ∃ p', Plant_remove p (days 6) 5 = Ok p' ∧
    plant_run p' [CallWater (days 7)] = (p', []) ∧
    Forall (λ c, plant_apply p' c = Raise PlantAlreadyRemovedError) [CallWater (days 7)].
Proof.
  intros p. eexists. split; [vm_compute; reflexivity|].
  by apply (removal_is_final p _ (days 6) 5).
Defined.
