(* ===== verification/Catalog.v ===== *)
(** The Catalog context's aggregate: one species of the local catalogue
    ([catalog/species.py]), versioned, with its before-image and restore. *)

From S2P Require Import Prelude Domain.

(** ** State and operations *)

Record Species := mkSpecies {
  sp_id : SpeciesId;
  sp_scientific_name : string;
  sp_common_name : string;
  sp_watering_interval : WateringInterval;
  sp_light_requirement : LightRequirement;
  sp_version : Z;
  sp_events : list DomainEvent }.

Definition Species_normalize_name (raw : string) : result string :=
  let normalized := strip raw in
  if decide (normalized = EmptyString) then Raise SpeciesNameEmptyError else Ok normalized.

Definition Species_new (species_id : SpeciesId) (scientific_name common_name : string)
    (watering_interval : WateringInterval) (light_requirement : LightRequirement)
    (version : Z) : result Species :=
  scientific ← Species_normalize_name scientific_name;
  common ← Species_normalize_name common_name;
  Ok (mkSpecies species_id scientific common watering_interval light_requirement version []).

Definition Species_create (scientific_name common_name : string)
    (watering_interval : WateringInterval) (light_requirement : LightRequirement)
    (species_id : option SpeciesId) (minted : uuid) : result Species :=
  Species_new (or_new species_id minted) scientific_name common_name watering_interval
    light_requirement 1.

Definition Species_record (s : Species) (e : DomainEvent) : Species :=
  mkSpecies (sp_id s) (sp_scientific_name s) (sp_common_name s) (sp_watering_interval s)
    (sp_light_requirement s) (sp_version s) (record_event (sp_events s) e).

Definition Species_add (scientific_name common_name : string)
    (watering_interval : WateringInterval) (light_requirement : LightRequirement)
    (now : datetime) (species_id : option SpeciesId) (minted eid : uuid) : result Species :=
  species ← Species_create scientific_name common_name watering_interval light_requirement
    species_id minted;
  Ok (Species_record species (mkEvent eid now
    (SpeciesAdded (sp_id species) (sp_scientific_name species) (sp_common_name species)
      (sp_watering_interval species) (sp_light_requirement species) (sp_version species)))).

(** [update]: the Boolean the method returns, and the aggregate after it. *)
Definition Species_update (s : Species) (scientific_name common_name : string)
    (watering_interval : WateringInterval) (light_requirement : LightRequirement)
    (now : datetime) (expected_version : Z) (eid : uuid) : result (bool * Species) :=
  if decide (expected_version ≠ sp_version s) then Raise SpeciesVersionConflictError
  else
    scientific ← Species_normalize_name scientific_name;
    common ← Species_normalize_name common_name;
    if decide (scientific ≠ sp_scientific_name s ∨ common ≠ sp_common_name s ∨
        watering_interval ≠ sp_watering_interval s ∨
        light_requirement ≠ sp_light_requirement s)
    then
      let version := (sp_version s + 1)%Z in
      Ok (true, mkSpecies (sp_id s) scientific common watering_interval light_requirement
        version (record_event (sp_events s) (mkEvent eid now
          (SpeciesUpdated (sp_id s) scientific common watering_interval light_requirement
            version))))
    else Ok (false, s).

(** What a catalogue entry says, apart from its version and pending events. *)
Definition species_values (s : Species) :
    SpeciesId * string * string * WateringInterval * LightRequirement :=
  (sp_id s, sp_scientific_name s, sp_common_name s, sp_watering_interval s,
   sp_light_requirement s).

(** The names the aggregate holds are normalised and not blank. *)
Definition species_wf (s : Species) : Prop :=
  Species_normalize_name (sp_scientific_name s) = Ok (sp_scientific_name s) ∧
  Species_normalize_name (sp_common_name s) = Ok (sp_common_name s).

(** ** Lemmas *)

Lemma normalize_name_Ok raw n :
  Species_normalize_name raw = Ok n → n = strip raw ∧ Species_normalize_name n = Ok n.
Proof.
  unfold Species_normalize_name. case_decide; [done|]. intros [= <-].
  by rewrite strip_idem, decide_False.
Qed.

Lemma Species_new_wf id sn cn wi lr v s :
  Species_new id sn cn wi lr v = Ok s →
  species_wf s ∧ s = mkSpecies id (strip sn) (strip cn) wi lr v [].
Proof.
  unfold Species_new. intros H.
  apply bind_Ok in H as (n1 & [-> Hw1]%normalize_name_Ok & H).
  apply bind_Ok in H as (n2 & [-> Hw2]%normalize_name_Ok & H).
  injection H as <-. by split.
Qed.

(** A row rebuilds exactly the well-formed species it was written from. *)
Lemma Species_new_roundtrip s :
  species_wf s →
  Species_new (sp_id s) (sp_scientific_name s) (sp_common_name s) (sp_watering_interval s)
    (sp_light_requirement s) (sp_version s) =
  Ok (mkSpecies (sp_id s) (sp_scientific_name s) (sp_common_name s)
    (sp_watering_interval s) (sp_light_requirement s) (sp_version s) []).
Proof. intros [H1 H2]. unfold Species_new. by rewrite H1; cbn; rewrite H2. Qed.

(** Every branch of a successful update. *)
Lemma Species_update_Ok s sn cn wi lr now v eid b s' :
  Species_update s sn cn wi lr now v eid = Ok (b, s') →
  v = sp_version s ∧ species_values s' = (sp_id s, strip sn, strip cn, wi, lr) ∧
  (b = false → s' = s) ∧
  (b = true → sp_version s' = (sp_version s + 1)%Z ∧ species_values s' ≠ species_values s ∧
     ∃ e, occurred_at e = now ∧ sp_events s' = sp_events s ++ [e] ∧
       body e = SpeciesUpdated (sp_id s) (strip sn) (strip cn) wi lr (sp_version s')) ∧
  species_wf s'.
Proof.
  unfold Species_update, species_values. case_decide as Hver; [done|]. intros H.
  apply bind_Ok in H as (n1 & [-> Hw1]%normalize_name_Ok & H).
  apply bind_Ok in H as (n2 & [-> Hw2]%normalize_name_Ok & H).
  case_decide as Hc; simplify_eq/=.
  - split_and!; [lia|done|done| |done]. intros _. split; [lia|]. split; [naive_solver|].
    by eexists (mkEvent _ _ _).
  - assert (strip sn = sp_scientific_name s') as E1 by (apply dec_stable; tauto).
    assert (strip cn = sp_common_name s') as E2 by (apply dec_stable; tauto).
    assert (wi = sp_watering_interval s') as E3 by (apply dec_stable; tauto).
    assert (lr = sp_light_requirement s') as E4 by (apply dec_stable; tauto).
    unfold species_wf. rewrite <- E1, <- E2, <- E3, <- E4.
    split_and!; try done; lia.
Qed.

(** ** Theorems *)

(** An update says whether it changed anything: against the current version
    and with names that are not blank it always succeeds; it answers [False] exactly
    when the normalised values are the ones the species already has, leaving the
    aggregate untouched, and otherwise applies them, raises the version by one and
    records one [SpeciesUpdated] carrying the new values and version. *)
Theorem species_update_reports_change (s : Species) (sn cn : string)
    (wi : WateringInterval) (lr : LightRequirement) (now : datetime) (eid : uuid) :
  strip sn ≠ EmptyString → strip cn ≠ EmptyString →
  Species_update s sn cn wi lr now (sp_version s) eid =
  if decide ((sp_id s, strip sn, strip cn, wi, lr) = species_values s) then Ok (false, s)
  else Ok (true, mkSpecies (sp_id s) (strip sn) (strip cn) wi lr (sp_version s + 1)
    (sp_events s ++ [mkEvent eid now
      (SpeciesUpdated (sp_id s) (strip sn) (strip cn) wi lr (sp_version s + 1))])).
Proof.
  intros Hs Hc. unfold Species_update. rewrite decide_False by (intros ?; done).
  unfold Species_normalize_name. rewrite !decide_False by done. cbn.
  unfold species_values.
  case_decide as H1; case_decide as H2; try done; exfalso; [naive_solver|].
  apply H2. repeat f_equal; apply dec_stable; naive_solver.
Qed.

Lemma species_update_reports_change_witness :
  let s := mkSpecies (Uuid 7) "Ficus" "Fig" (MkCareInterval (days 7)) LOW 4 [] in
  strip " Ficus" ≠ EmptyString ∧ strip "Fig " ≠ EmptyString ∧
  Species_update s " Ficus" "Fig " (MkCareInterval (days 7)) LOW 0 4 1 = Ok (false, s).
Proof.
  intros s. split; [by vm_compute|]. split; [by vm_compute|].
  rewrite (species_update_reports_change s) by (by vm_compute). vm_compute. reflexivity.
Defined.

(** A restore brings the before-image back: updating a well-formed species and
    then updating it to the values frozen before, as a compensation does, yields a
    species that says exactly what it said, at a version that only grew, with one
    [SpeciesUpdated] per change so that readers see the rollback too. *)
Theorem species_restore (s s1 s2 : Species) (sn cn : string) (wi : WateringInterval)
    (lr : LightRequirement) (now now' : datetime) (v : Z) (eid eid' : uuid) (b b' : bool) :
  species_wf s →
  Species_update s sn cn wi lr now v eid = Ok (b, s1) →
  Species_update s1 (sp_scientific_name s) (sp_common_name s) (sp_watering_interval s)
    (sp_light_requirement s) now' (sp_version s1) eid' = Ok (b', s2) →
  species_values s2 = species_values s ∧ b' = b ∧
  (sp_version s2 = sp_version s + (if b then 2 else 0))%Z ∧
  length (sp_events s2) = length (sp_events s) + (if b then 2 else 0).
Proof.
  intros [Hw1 Hw2] H1 H2.
  apply normalize_name_Ok in Hw1 as [Hw1 _], Hw2 as [Hw2 _].
  apply Species_update_Ok in H1 as (_ & Hv1 & Hf1 & Ht1 & _).
  apply Species_update_Ok in H2 as (_ & Hv2 & Hf2 & Ht2 & _).
  rewrite <- Hw1, <- Hw2 in Hv2.
  assert (sp_id s1 = sp_id s) as Hid by (unfold species_values in Hv1; congruence).
  assert (species_values s2 = species_values s) as Hv by (rewrite Hv2, Hid; done).
  split; [done|]. destruct b, b'.
  - destruct (Ht1 eq_refl) as (-> & _ & e1 & _ & E1 & _) in *.
    destruct (Ht2 eq_refl) as (? & _ & e2 & _ & E2 & _).
    destruct (Ht1 eq_refl) as (? & _ ). rewrite E2, E1, !length_app. cbn. lia.
  - destruct (Ht1 eq_refl) as (_ & Hne & _). by rewrite (Hf2 eq_refl) in Hv.
  - destruct (Ht2 eq_refl) as (_ & Hne & _). by rewrite (Hf1 eq_refl) in Hne.
  - rewrite (Hf2 eq_refl), (Hf1 eq_refl). lia.
Qed.

Lemma species_restore_witness :
  let s := mkSpecies (Uuid 7) "Ficus" "Fig" (MkCareInterval (days 7)) LOW 4 [] in
  let s1 := mkSpecies (Uuid 7) "Ficus" "Weeping fig" (MkCareInterval (days 5)) HIGH 5
    [mkEvent 1 0 (SpeciesUpdated (Uuid 7) "Ficus" "Weeping fig" (MkCareInterval (days 5))
      HIGH 5)] in
  ∃ s2, Species_update s "Ficus" "Weeping fig" (MkCareInterval (days 5)) HIGH 0 4 1 =
      Ok (true, s1) ∧
    species_values s2 = species_values s ∧ sp_version s2 = 6%Z.
Proof.
  intros s s1.
  assert (Species_update s "Ficus" "Weeping fig" (MkCareInterval (days 5)) HIGH 0 4 1 =
    Ok (true, s1)) as H1 by (vm_compute; reflexivity).
  destruct (Species_update s1 "Ficus" "Fig" (MkCareInterval (days 7)) LOW 9 5 2)
    as [[b2 s2]|] eqn:H2; [|vm_compute in H2; discriminate H2].
  exists s2. split; [exact H1|].
  assert (species_wf s) as Hw by (split; vm_compute; reflexivity).
  destruct (species_restore s s1 s2 _ _ _ _ _ 9 _ _ 2 true b2 Hw H1 H2) as (Hv & _ & Hn & _).
  split; [exact Hv|exact Hn].
Defined.
