(* ===== verification/Telemetry.v ===== *)
(** The Telemetry context's aggregate: one physical sensor, the threshold events a
    reading raises and the announcement of a silence ([telemetry/sensor.py],
    [telemetry/reading.py]). *)

From S2P Require Import Prelude Domain.
From Stdlib Require Import SpecFloat.

(** ** Constants *)

Definition MOISTURE_LOW_THRESHOLD : float := float_of_Z 30.
Definition MOISTURE_HIGH_THRESHOLD : float := float_of_Z 80.
Definition TEMPERATURE_LOW_THRESHOLD : float := float_of_Z 10.
Definition TEMPERATURE_HIGH_THRESHOLD : float := float_of_Z 35.
Definition OFFLINE_AFTER : timedelta := minutes 10.

(** ** State and operations *)

Record TelemetryReading := mkTelemetryReading {
  tr_sensor_id : SensorId;
  tr_plant_id : PlantId;
  tr_recorded_at : datetime;
  tr_moisture : Moisture;
  tr_temperature : Temperature;
  tr_light : LightLevel }.

Record Sensor := mkSensor {
  sn_id : SensorId;
  sn_plant_id : PlantId;
  sn_added_at : datetime;
  sn_last_seen_at : option datetime;
  sn_offline_announced_at : option datetime;
  sn_events : list DomainEvent }.

Definition Sensor_new (sensor_id : SensorId) (plant_id : PlantId) (added_at : datetime)
    (last_seen_at offline_announced_at : option datetime) : Sensor :=
  mkSensor sensor_id plant_id added_at last_seen_at offline_announced_at [].

Definition Sensor_register (plant_id : PlantId) (added_at : datetime)
    (sensor_id : option SensorId) (minted : uuid) : Sensor :=
  Sensor_new (or_new sensor_id minted) plant_id added_at None None.

(** The bodies [record] raises for one reading, in order. *)
Definition reading_event_bodies (sensor_id : SensorId) (plant_id : PlantId)
    (r : SensorReading) : list event_body :=
  [TelemetryReceived sensor_id plant_id (reading_recorded_at r) (reading_moisture r)
     (reading_temperature r) (reading_light r)] ++
  (if float_lt (moisture_value (reading_moisture r)) MOISTURE_LOW_THRESHOLD
   then [SoilMoistureLow sensor_id plant_id (reading_moisture r) MOISTURE_LOW_THRESHOLD]
   else []) ++
  (if float_lt MOISTURE_HIGH_THRESHOLD (moisture_value (reading_moisture r))
   then [SoilMoistureHigh sensor_id plant_id (reading_moisture r) MOISTURE_HIGH_THRESHOLD]
   else []) ++
  (if float_lt (temperature_value (reading_temperature r)) TEMPERATURE_LOW_THRESHOLD
      || float_lt TEMPERATURE_HIGH_THRESHOLD (temperature_value (reading_temperature r))
   then [TemperatureAnomaly sensor_id plant_id (reading_temperature r)
           TEMPERATURE_LOW_THRESHOLD TEMPERATURE_HIGH_THRESHOLD]
   else []).

(** [_record] once per body, minting one identifier each. *)
Definition stamp_events (mint : nat → uuid) (t : datetime) (bs : list event_body) :
    list DomainEvent :=
  imap (λ k b, mkEvent (mint k) t b) bs.

(** [record]: the k-th event of the call gets the identifier [mint k]. *)
Definition Sensor_record (s : Sensor) (r : SensorReading) (mint : nat → uuid) :
    result Sensor :=
  if decide (reading_sensor_id r ≠ sn_id s) then Raise SensorReadingMismatchError
  else
    let recorded_at := reading_recorded_at r in
    let newest := match sn_last_seen_at s with
                  | None => true
                  | Some t => bool_decide (t ≤ recorded_at)%Z
                  end in
    let last_seen_at := if newest then Some recorded_at else sn_last_seen_at s in
    let offline_announced_at := if newest then None else sn_offline_announced_at s in
    Ok (mkSensor (sn_id s) (sn_plant_id s) (sn_added_at s) last_seen_at
      offline_announced_at
      (sn_events s ++ stamp_events mint recorded_at
        (reading_event_bodies (sn_id s) (sn_plant_id s) r))).

Definition Sensor_mark_offline (s : Sensor) (now : datetime) (eid : uuid) :
    result Sensor :=
  match sn_last_seen_at s with
  | None => Raise SensorNeverSeenError
  | Some last_seen_at =>
      let offline_for := (now - last_seen_at)%Z in
      if decide (offline_for < OFFLINE_AFTER)%Z then Raise SensorStillOnlineError
      else match sn_offline_announced_at s with
           | Some _ => Raise SensorAlreadyAnnouncedOfflineError
           | None => Ok (mkSensor (sn_id s) (sn_plant_id s) (sn_added_at s)
               (sn_last_seen_at s) (Some now)
               (record_event (sn_events s) (mkEvent eid now
                 (SensorOffline (sn_id s) (sn_plant_id s) last_seen_at offline_for))))
           end
  end.

(** The calls on a sensor; a refused call changes nothing. *)
Inductive sensor_call :=
  | CallRecord (r : SensorReading) (mint : nat → uuid)
  | CallMarkOffline (now : datetime) (eid : uuid).

Definition sensor_apply (s : Sensor) (c : sensor_call) : result Sensor :=
  match c with
  | CallRecord r mint => Sensor_record s r mint
  | CallMarkOffline now eid => Sensor_mark_offline s now eid
  end.

Definition sensor_after (s : Sensor) (c : sensor_call) : Sensor :=
  match sensor_apply s c with Ok s' => s' | Raise _ => s end.

Definition sensor_run (s : Sensor) (cs : list sensor_call) : Sensor := foldl sensor_after s cs.

Definition is_offline_event (e : DomainEvent) : bool :=
  match body e with SensorOffline _ _ _ _ => true | _ => false end.

Definition offline_announcements (s : Sensor) : nat :=
  length (filter (λ e, is_offline_event e = true) (sn_events s)).

(** Whether a call is a reading of this sensor taken at or after [t]. *)
Definition reports_since (id : SensorId) (t : datetime) (c : sensor_call) : bool :=
  match c with
  | CallRecord r _ => bool_decide (reading_sensor_id r = id ∧ (t ≤ reading_recorded_at r)%Z)
  | CallMarkOffline _ _ => false
  end.

(** The instants of the readings of sensor [id] among the calls. *)
Definition reading_times (id : SensorId) (cs : list sensor_call) : list datetime :=
  omap (λ c, match c with
             | CallRecord r _ => if decide (reading_sensor_id r = id)
                 then Some (reading_recorded_at r) else None
             | CallMarkOffline _ _ => None
             end) cs.

(** The newest of a list of instants and an earlier newest. *)
Definition newest (t : option datetime) (ts : list datetime) : option datetime :=
  foldl (λ acc t, Some (match acc with Some a => Z.max a t | None => t end)) t ts.

(** ** Lemmas *)

Lemma stamp_events_bodies mint t bs : body <$> stamp_events mint t bs = bs.
Proof.
  unfold stamp_events. rewrite fmap_imap. unfold compose; cbn.
  revert mint. induction bs as [|b bs IH]; intros mint; cbn; [done|].
  f_equal. apply (IH (mint ∘ S)).
Qed.

Lemma stamp_events_at mint t bs : Forall (λ e, occurred_at e = t) (stamp_events mint t bs).
Proof.
  apply Forall_lookup. intros i e. unfold stamp_events. rewrite list_lookup_imap.
  by destruct (bs !! i); intros [= <-].
Qed.

(** A reading raises no offline announcement. *)
Lemma stamp_events_no_offline mint t id pid r :
  filter (λ e, is_offline_event e = true) (stamp_events mint t (reading_event_bodies id pid r))
  = [].
Proof.
  unfold stamp_events, reading_event_bodies.
  by repeat case_match.
Qed.

Lemma sensor_apply_identity s c s' :
  sensor_apply s c = Ok s' → sn_id s' = sn_id s ∧ sn_plant_id s' = sn_plant_id s.
Proof.
  destruct c; cbn; unfold Sensor_record, Sensor_mark_offline; intros H;
    repeat case_match; repeat case_decide; by inv_result.
Qed.

(** No binary64 value is below 30 and above 80 at once. *)
Lemma thresholds_exclusive (x : float) :
  float_lt x MOISTURE_LOW_THRESHOLD = true → float_lt MOISTURE_HIGH_THRESHOLD x = false.
Proof.
  unfold float_lt, SFltb, SFcompare.
  change MOISTURE_LOW_THRESHOLD with (S754_finite false 8444249301319680 (-48)).
  change MOISTURE_HIGH_THRESHOLD with (S754_finite false 5629499534213120 (-46)).
  destruct x as [s|s| |s m e]; try destruct s; try done.
  destruct (Z.compare_spec e (-48)), (Z.compare_spec (-46) e); try done; try lia.
Qed.

(** ** Theorems *)

(** A reading says exactly what it means: recording it raises
    [TelemetryReceived] first and then a threshold event exactly when the value is
    strictly outside its band, never both soil alerts at once, every event stamped
    with the reading's own instant; a reading of another sensor is refused. *)
Theorem sensor_record_events (s : Sensor) (r : SensorReading) (mint : nat → uuid) :
  match Sensor_record s r mint with
  | Raise e => reading_sensor_id r ≠ sn_id s ∧ e = SensorReadingMismatchError
  | Ok s' => reading_sensor_id r = sn_id s ∧
      ∃ es, sn_events s' = sn_events s ++ es ∧
        Forall (λ e, occurred_at e = reading_recorded_at r) es ∧
        head (body <$> es) = Some (TelemetryReceived (sn_id s) (sn_plant_id s)
          (reading_recorded_at r) (reading_moisture r) (reading_temperature r)
          (reading_light r)) ∧
        (SoilMoistureLow (sn_id s) (sn_plant_id s) (reading_moisture r)
           MOISTURE_LOW_THRESHOLD ∈ body <$> es ↔
         float_lt (moisture_value (reading_moisture r)) MOISTURE_LOW_THRESHOLD = true) ∧
        (SoilMoistureHigh (sn_id s) (sn_plant_id s) (reading_moisture r)
           MOISTURE_HIGH_THRESHOLD ∈ body <$> es ↔
         float_lt MOISTURE_HIGH_THRESHOLD (moisture_value (reading_moisture r)) = true) ∧
        (TemperatureAnomaly (sn_id s) (sn_plant_id s) (reading_temperature r)
           TEMPERATURE_LOW_THRESHOLD TEMPERATURE_HIGH_THRESHOLD ∈ body <$> es ↔
         float_lt (temperature_value (reading_temperature r)) TEMPERATURE_LOW_THRESHOLD = true ∨
         float_lt TEMPERATURE_HIGH_THRESHOLD (temperature_value (reading_temperature r)) = true) ∧
        length es ≤ 3
  end.
Proof.
  unfold Sensor_record. case_decide as Hid; [done|].
  split; [done|]. eexists. split; [reflexivity|].
  rewrite <- (length_fmap body), stamp_events_bodies.
  split; [apply stamp_events_at|]. split; [done|].
  unfold reading_event_bodies. rewrite !length_app.
  pose proof (thresholds_exclusive (moisture_value (reading_moisture r))) as Hex.
  rewrite !elem_of_app, !elem_of_if_list, !list_elem_of_singleton, orb_true_iff.
  split_and!; [intuition congruence..|].
  destruct (float_lt (moisture_value (reading_moisture r)) _);
    [rewrite (Hex eq_refl)|case_match]; case_match; cbn; lia.
Qed.

(** The last sighting only moves forward: after any sequence of calls
    [last_seen_at] is the newest instant among the sensor's readings and the one it
    started from, however the readings were ordered and whatever was refused. *)
Theorem sensor_last_seen_is_newest (s : Sensor) (calls : list sensor_call) :
  sn_last_seen_at (sensor_run s calls) =
  newest (sn_last_seen_at s) (reading_times (sn_id s) calls).
Proof.
  revert s. induction calls as [|c calls IH]; intros s; [done|].
  change (sensor_run s (c :: calls)) with (sensor_run (sensor_after s c) calls).
  rewrite IH.
  assert (sn_id (sensor_after s c) = sn_id s) as Hid.
  { unfold sensor_after. destruct (sensor_apply s c) eqn:E; [|done].
    by eapply sensor_apply_identity. }
  rewrite Hid. clear IH Hid. unfold sensor_after.
  destruct c as [r mint|now eid]; cbn.
  - unfold Sensor_record. case_decide as Hne; [by rewrite decide_False|].
    rewrite decide_True by done.
    destruct (sn_last_seen_at s) as [t|] eqn:Et; cbn; [|done].
    case_bool_decide; unfold newest; cbn; do 2 f_equal; lia.
  - unfold Sensor_mark_offline.
    destruct (sn_last_seen_at s) eqn:Et; [|by rewrite Et].
    case_decide; [by rewrite Et|]. by destruct (sn_offline_announced_at s); rewrite ?Et.
Qed.

(** A silence is announced once: after an accepted [mark_offline], however
    often the timer fires and however many late readings arrive, no further
    [SensorOffline] is recorded until the sensor reports an instant at or after the
    last one it was seen at. *)
Theorem silence_announced_once (s s' : Sensor) (now last : datetime) (eid : uuid)
    (calls : list sensor_call) :
  Sensor_mark_offline s now eid = Ok s' → sn_last_seen_at s' = Some last →
  Forall (λ c, reports_since (sn_id s') last c = false) calls →
  offline_announcements (sensor_run s' calls) = S (offline_announcements s).
Proof.
  intros Hoff Hlast Hcalls.
  assert (offline_announcements s' = S (offline_announcements s) ∧
    is_Some (sn_offline_announced_at s')) as [Hn Ha].
  { unfold Sensor_mark_offline in Hoff. repeat (case_match || case_decide); try done.
    injection Hoff as <-. unfold offline_announcements, record_event; cbn.
    rewrite filter_app, length_app, filter_cons_True by done; cbn; split; [lia|done]. }
  rewrite <- Hn. clear Hoff Hn s now eid.
  revert s' Hlast Ha Hcalls. induction calls as [|c calls IH]; intros s Hlast Ha Hc; [done|].
  apply Forall_cons in Hc as [Hc Hcs].
  change (sensor_run s (c :: calls)) with (sensor_run (sensor_after s c) calls).
  unfold sensor_after. destruct (sensor_apply s c) as [s1|] eqn:E; [|by apply IH].
  assert (sn_id s1 = sn_id s) as Hid by (by eapply sensor_apply_identity).
  destruct c as [r mint|now eid]; cbn in E, Hc.
  - unfold Sensor_record in E. case_decide as Hne; [done|]. rewrite Hlast in E.
    apply bool_decide_eq_false in Hc. rewrite bool_decide_false in E
      by (intros ?; apply Hc; done).
    injection E as <-. rewrite IH; [|done..].
    unfold offline_announcements; cbn [sn_events sn_id sn_plant_id].
    by rewrite filter_app, stamp_events_no_offline, app_nil_r.
  - exfalso. unfold Sensor_mark_offline in E. rewrite Hlast in E. case_decide; [done|].
    destruct Ha as [? Ha]. by rewrite Ha in E.
Qed.

Lemma silence_announced_once_witness :
  let s := Sensor_new (Uuid 1) (Uuid 2) 0 (Some (hours 1)) None in
  let late := CallRecord (mkSensorReading (Uuid 1) (minutes 59) (MkMoisture (float_of_Z 50))
    (MkTemperature (float_of_Z 20)) (MkLightLevel (float_of_Z 100))) (λ k, N.of_nat k) in
  ∃ s', Sensor_mark_offline s (hours 2) 7 = Ok s' ∧
    offline_announcements (sensor_run s' [CallMarkOffline (hours 3) 8; late]) = 1.
Proof.
  intros s late. eexists. split; [vm_compute; reflexivity|].
  apply (silence_announced_once s _ (hours 2) (hours 1) 7); [done|done|].
  repeat constructor.
Defined.
