(* ===== verification/Journal.v ===== *)
(** The Journal context's domain: an immutable entry, the ordered stream of one plant,
    the event-sourced aggregate that replays it and the state a snapshot stores
    ([journal/entry.py], [journal/stream.py], [journal/aggregate.py],
    [journal/state.py]). *)

From S2P Require Import Prelude Domain.

(** ** The entry *)

(** [_normalize_note]: strip, and [stripped or None]. *)
Definition normalize_note (note : option string) : option string :=
  match note with
  | None => None
  | Some n => let stripped := strip n in
      if decide (stripped = EmptyString) then None else Some stripped
  end.

Record JournalEntry := mkJournalEntry {
  je_id : JournalEntryId;
  je_plant_id : PlantId;
  je_entry_type : JournalEntryType;
  je_occurred_at : datetime;
  je_note : option string;
  je_events : list DomainEvent }.

Definition JournalEntry_new (entry_id : JournalEntryId) (plant_id : PlantId)
    (entry_type : JournalEntryType) (at_ : datetime) (note : option string) : JournalEntry :=
  mkJournalEntry entry_id plant_id entry_type at_ (normalize_note note) [].

Definition JournalEntry_add (plant_id : PlantId) (entry_type : JournalEntryType)
    (at_ now : datetime) (note : option string) (entry_id : option JournalEntryId)
    (minted eid : uuid) : JournalEntry :=
  let e := JournalEntry_new (or_new entry_id minted) plant_id entry_type at_ note in
  mkJournalEntry (je_id e) (je_plant_id e) (je_entry_type e) (je_occurred_at e) (je_note e)
    (record_event (je_events e) (mkEvent eid now
      (JournalEntryAdded (je_id e) plant_id entry_type (je_note e) at_))).

(** ** The stream *)

Record JournalStream := mkJournalStream {
  js_plant_id : PlantId;
  js_entries : list JournalEntry;
  js_entry_ids : gset JournalEntryId }.

Definition JournalStream_register (s : JournalStream) (e : JournalEntry) :
    result JournalStream :=
  _ ← raise_unless (je_plant_id e = js_plant_id s) JournalEntryPlantMismatchError;
  _ ← raise_unless (je_id e ∉ js_entry_ids s) JournalEntryAlreadyAppendedError;
  Ok (mkJournalStream (js_plant_id s) (js_entries s ++ [e]) ({[je_id e]} ∪ js_entry_ids s)).

Definition JournalStream_new (plant_id : PlantId) (entries : list JournalEntry) :
    result JournalStream :=
  foldM JournalStream_register (mkJournalStream plant_id [] ∅) entries.

(** The key [(entry.occurred_at, entry.id.value)] entries are sorted on. *)
Definition entry_key (e : JournalEntry) : Z * Z :=
  (je_occurred_at e, Z.of_N (uuid_value (je_id e))).
Definition entry_le (e1 e2 : JournalEntry) : Prop := lex_le (entry_key e1) (entry_key e2).
#[export] Instance entry_le_dec e1 e2 : Decision (entry_le e1 e2).
Proof. unfold entry_le. apply _. Defined.

Definition JournalStream_entries (s : JournalStream) : list JournalEntry :=
  merge_sort entry_le (js_entries s).

Definition JournalStream_append := JournalStream_register.

Definition JournalStream_find (s : JournalStream) (entry_id : JournalEntryId) :
    option JournalEntry :=
  head (filter (λ e, je_id e = entry_id) (js_entries s)).

(** ** The checkpoint *)

Record JournalEntryState := mkJournalEntryState {
  jes_entry_id : JournalEntryId;
  jes_entry_type : JournalEntryType;
  jes_occurred_at : datetime;
  jes_note : option string }.

Definition JournalEntryState_from_domain (e : JournalEntry) : JournalEntryState :=
  mkJournalEntryState (je_id e) (je_entry_type e) (je_occurred_at e) (je_note e).

Definition JournalEntryState_to_domain (plant_id : PlantId) (s : JournalEntryState) :
    JournalEntry :=
  JournalEntry_new (jes_entry_id s) plant_id (jes_entry_type s) (jes_occurred_at s)
    (jes_note s).

Record JournalState := mkJournalState {
  jst_plant_id : PlantId;
  jst_version : Z;
  jst_entries : list JournalEntryState }.

Definition JournalState_entry_count (s : JournalState) : nat := length (jst_entries s).

(** ** The aggregate *)

Record JournalAggregate := mkJournalAggregate {
  ja_id : PlantId;
  ja_stream : JournalStream;
  ja_version : Z;
  ja_events : list DomainEvent }.

Definition JournalAggregate_new (plant_id : PlantId) (entries : list JournalEntry)
    (version : Z) : result JournalAggregate :=
  stream ← JournalStream_new plant_id entries;
  Ok (mkJournalAggregate plant_id stream version []).

Definition JournalAggregate_entries (a : JournalAggregate) : list JournalEntry :=
  JournalStream_entries (ja_stream a).

Definition JournalAggregate_entry (a : JournalAggregate) (entry_id : JournalEntryId) :
    option JournalEntry :=
  JournalStream_find (ja_stream a) entry_id.

Definition JournalAggregate_from_state (s : JournalState) : result JournalAggregate :=
  JournalAggregate_new (jst_plant_id s)
    (JournalEntryState_to_domain (jst_plant_id s) <$> jst_entries s) (jst_version s).

(** [apply]; its parameter type admits [JournalEntryAdded] alone, so any other body
    has no meaning here and the model answers [ValueError]; the loader refuses it
    first. *)
Definition JournalAggregate_apply (a : JournalAggregate) (e : DomainEvent) :
    result JournalAggregate :=
  match body e with
  | JournalEntryAdded entry_id plant_id entry_type note at_ =>
      stream ← JournalStream_append (ja_stream a)
        (JournalEntry_new entry_id plant_id entry_type at_ note);
      Ok (mkJournalAggregate (ja_id a) stream (ja_version a + 1) (ja_events a))
  | _ => Raise ValueError
  end.

(** [add_entry]: the aggregate the call leaves behind and what it returns.  The event
    is drained onto the aggregate before the stream may refuse the entry, so the state
    after a refusal is part of the answer. *)
Definition JournalAggregate_add_entry (a : JournalAggregate) (entry_type : JournalEntryType)
    (at_ now : datetime) (note : option string) (entry_id : option JournalEntryId)
    (minted eid : uuid) : JournalAggregate * result JournalEntry :=
  let raw := JournalEntry_add (ja_id a) entry_type at_ now note entry_id minted eid in
  let '(drained, rest) := collect_events (je_events raw) in
  let entry := mkJournalEntry (je_id raw) (je_plant_id raw) (je_entry_type raw)
    (je_occurred_at raw) (je_note raw) rest in
  let events := foldl record_event (ja_events a) drained in
  match JournalStream_append (ja_stream a) entry with
  | Ok stream => (mkJournalAggregate (ja_id a) stream (ja_version a + 1) events, Ok entry)
  | Raise e => (mkJournalAggregate (ja_id a) (ja_stream a) (ja_version a) events, Raise e)
  end.

Definition JournalAggregate_collect_events (a : JournalAggregate) :
    list DomainEvent * JournalAggregate :=
  let '(es, rest) := collect_events (ja_events a) in
  (es, mkJournalAggregate (ja_id a) (ja_stream a) (ja_version a) rest).

Definition JournalAggregate_state (a : JournalAggregate) : JournalState :=
  mkJournalState (ja_id a) (ja_version a)
    (JournalEntryState_from_domain <$> JournalAggregate_entries a).

Definition JournalAggregate_state_at (a : JournalAggregate) (moment : datetime) :
    JournalState :=
  mkJournalState (ja_id a) (ja_version a)
    (JournalEntryState_from_domain <$>
      filter (λ e, (je_occurred_at e ≤ moment)%Z) (JournalAggregate_entries a)).

Definition JournalAggregate_should_snapshot (a : JournalAggregate) (every : Z) : bool :=
  bool_decide (0 < every ∧ 0 < ja_version a ∧ ja_version a `mod` every = 0)%Z.

(** Replaying stored events, oldest first. *)
Definition journal_replay (a : JournalAggregate) (es : list DomainEvent) :
    result JournalAggregate :=
  foldM JournalAggregate_apply a es.

(** One request to append, and a run of them that stops at the first refusal. *)
Record journal_add := mkJournalAdd {
  add_type : JournalEntryType;
  add_at : datetime;
  add_now : datetime;
  add_note : option string;
  add_entry_id : option JournalEntryId;
  add_minted : uuid;
  add_eid : uuid }.

Definition journal_add_one (a : JournalAggregate) (r : journal_add) :
    result JournalAggregate :=
  let '(a', answer) := JournalAggregate_add_entry a (add_type r) (add_at r) (add_now r)
    (add_note r) (add_entry_id r) (add_minted r) (add_eid r) in
  _ ← answer; Ok a'.

Definition journal_adds (a : JournalAggregate) (rs : list journal_add) :
    result JournalAggregate :=
  foldM journal_add_one a rs.

(** ** Well-formedness and equivalence *)

(** What every stream holds: entries of its own plant, each identifier once and
    indexed, notes normalised, no entry with a pending event. *)
Record stream_wf (s : JournalStream) : Prop := mkStreamWf {
  swf_plant : Forall (λ e, je_plant_id e = js_plant_id s) (js_entries s);
  swf_nodup : NoDup (je_id <$> js_entries s);
  swf_ids : js_entry_ids s = list_to_set (je_id <$> js_entries s);
  swf_note : Forall (λ e, normalize_note (je_note e) = je_note e) (js_entries s);
  swf_events : Forall (λ e, je_events e = []) (js_entries s) }.

(** Two journals no caller can tell apart: same plant, version, pending events and
    entries, in whatever order the entries were registered. *)
Record journal_equiv (a b : JournalAggregate) : Prop := mkJournalEquiv {
  jeq_id : ja_id a = ja_id b;
  jeq_plant : js_plant_id (ja_stream a) = js_plant_id (ja_stream b);
  jeq_version : ja_version a = ja_version b;
  jeq_events : ja_events a = ja_events b;
  jeq_entries : js_entries (ja_stream a) ≡ₚ js_entries (ja_stream b);
  jeq_ids : js_entry_ids (ja_stream a) = js_entry_ids (ja_stream b) }.

#[export] Instance journal_equiv_equiv : Equiv JournalAggregate := journal_equiv.

Definition journal_wf (a : JournalAggregate) : Prop :=
  stream_wf (ja_stream a) ∧ ja_id a = js_plant_id (ja_stream a).

(** ** Lemmas *)

Lemma normalize_note_idem n : normalize_note (normalize_note n) = normalize_note n.
Proof.
  destruct n as [n|]; cbn; [|done]. case_decide as E; [done|]. cbn.
  by rewrite strip_idem, decide_False.
Qed.

#[export] Instance entry_le_total : Total entry_le.
Proof. intros x y. unfold entry_le. apply lex_le_total. Qed.
#[export] Instance entry_le_transitive : Transitive entry_le.
Proof. intros x y z. unfold entry_le. apply lex_le_transitive. Qed.

Lemma entry_tie e1 e2 : entry_le e1 e2 → entry_le e2 e1 → je_id e1 = je_id e2.
Proof.
  intros H1 H2. assert (entry_key e1 = entry_key e2) as H by by apply lex_le_antisymm.
  apply uuid_value_inj. injection H. lia.
Qed.

Lemma register_Ok s e s' :
  JournalStream_register s e = Ok s' ↔
  je_plant_id e = js_plant_id s ∧ je_id e ∉ js_entry_ids s ∧
  s' = mkJournalStream (js_plant_id s) (js_entries s ++ [e]) ({[je_id e]} ∪ js_entry_ids s).
Proof.
  unfold JournalStream_register. split.
  - intros H. inv_result. done.
  - intros (? & ? & ->). by rewrite !raise_unless_true.
Qed.

Lemma register_wf s e s' :
  stream_wf s → normalize_note (je_note e) = je_note e → je_events e = [] →
  JournalStream_register s e = Ok s' → stream_wf s'.
Proof.
  intros [Hp Hn Hi Hno Hev] Hnote Hevs (Hpl & Hid & ->)%register_Ok.
  split; cbn; rewrite ?fmap_app, ?Forall_app, ?Forall_singleton; auto.
  - apply NoDup_app. split; [done|]. split; [|apply NoDup_singleton].
    intros i Hi' ->%list_elem_of_singleton. apply Hid. rewrite Hi. by apply elem_of_list_to_set.
  - rewrite Hi. set_solver.
Qed.

(** Registering a list of clean entries of the right plant, each once, keeps them all. *)
Lemma stream_new_Ok pid es :
  Forall (λ e, je_plant_id e = pid) es → NoDup (je_id <$> es) →
  JournalStream_new pid es = Ok (mkJournalStream pid es (list_to_set (je_id <$> es))).
Proof.
  unfold JournalStream_new. induction es as [|e es IH] using rev_ind; [done|].
  rewrite Forall_app, Forall_singleton, fmap_app, NoDup_app.
  intros [Hes He] (Hnd & Hd & _). rewrite foldM_app, (IH Hes Hnd). cbn.
  rewrite bind_Ok. exists (mkJournalStream pid (es ++ [e]) (list_to_set ((je_id <$> es) ++ (je_id <$> [e])))).
  split; [|done]. apply register_Ok. split; [done|]. split; cbn.
  - rewrite elem_of_list_to_set. intros Hin. by apply (Hd _ Hin), list_elem_of_here.
  - f_equal. rewrite list_to_set_app_L. set_solver.
Qed.

Lemma entries_eq s1 s2 :
  stream_wf s1 → js_entries s1 ≡ₚ js_entries s2 →
  JournalStream_entries s1 = JournalStream_entries s2.
Proof.
  intros Hwf Hp. apply (merge_sort_perm entry_le); [done|]. intros x y Hx Hy H1 H2.
  pose proof (entry_tie _ _ H1 H2) as Hid.
  apply list_elem_of_lookup in Hx as [i Hx]. apply list_elem_of_lookup in Hy as [j Hy].
  assert (i = j) as ->; [|congruence].
  apply (NoDup_lookup (je_id <$> js_entries s1) i j (je_id x)); [apply Hwf|..];
    rewrite list_lookup_fmap; [by rewrite Hx|by rewrite Hy, Hid].
Qed.

Lemma find_elem_of s id e :
  stream_wf s → JournalStream_find s id = Some e ↔ e ∈ js_entries s ∧ je_id e = id.
Proof.
  intros Hwf. unfold JournalStream_find.
  assert (NoDup (je_id <$> js_entries s)) as Hnd by apply Hwf.
  induction (js_entries s) as [|x l IH]; [set_solver|].
  rewrite fmap_cons, NoDup_cons in Hnd. destruct Hnd as [Hx Hnd].
  rewrite filter_cons, elem_of_cons. case_decide as Hd; cbn.
  - split; [intros [= <-]; auto|]. intros [[->|He] He']; [done|]. exfalso. apply Hx.
    rewrite Hd, <- He'. by apply list_elem_of_fmap_2.
  - rewrite IH by done. split; [naive_solver|]. intros [[->|He] He']; naive_solver.
Qed.

Lemma find_eq s1 s2 id :
  stream_wf s1 → stream_wf s2 → js_entries s1 ≡ₚ js_entries s2 →
  JournalStream_find s1 id = JournalStream_find s2 id.
Proof.
  intros H1 H2 Hp. apply option_eq. intros e. rewrite !find_elem_of by done. by rewrite Hp.
Qed.

#[export] Instance journal_equiv_equivalence : Equivalence (≡@{JournalAggregate}).
Proof.
  split.
  - by intros a.
  - intros a b []. by split.
  - intros a b c [] []. split; etrans; eauto.
Qed.

#[export] Instance journal_wf_proper : Proper ((≡) ==> iff) journal_wf.
Proof.
  assert (∀ a b : JournalAggregate, a ≡ b → journal_wf a → journal_wf b) as Himpl.
  { intros a b [Hid Hpl _ _ Hes Hids] [[Hp Hnd Hi Hn Hev] Hida]. split; [|congruence].
    split; rewrite <- ?Hpl, <- ?Hes, <- ?Hids; auto. }
  intros a b Hab. split; apply Himpl; [done|by symmetry].
Qed.

#[export] Instance apply_proper :
  Proper ((≡) ==> (=) ==> (≡)) JournalAggregate_apply.
Proof.
  intros a b [Hid Hpl Hv Hev Hes Hids] e _ <-. unfold JournalAggregate_apply.
  case_match; try done. unfold JournalStream_append, JournalStream_register.
  rewrite Hpl, Hids. unfold raise_unless. repeat case_decide; cbn; try done.
  split; cbn; try congruence. by rewrite Hes.
Qed.

#[export] Instance journal_replay_proper :
  Proper ((≡) ==> (=) ==> (≡)) journal_replay.
Proof.
  intros a b Hab es _ <-. unfold journal_replay. revert a b Hab.
  induction es as [|e es IH]; intros a b Hab; cbn; [done|].
  pose proof (apply_proper a b Hab e e eq_refl) as He.
  destruct (JournalAggregate_apply a e), (JournalAggregate_apply b e); cbn in *; try done.
  by apply IH.
Qed.

Lemma apply_wf a e a' :
  journal_wf a → JournalAggregate_apply a e = Ok a' →
  journal_wf a' ∧ ja_events a' = ja_events a ∧ ja_id a' = ja_id a.
Proof.
  unfold JournalAggregate_apply. intros [Hwf Hid] H. case_match; try done.
  apply bind_Ok in H as (s & Hs & [= <-]). cbn. split; [|done]. split; cbn.
  - by eapply register_wf; [| | |exact Hs]; [|cbn; apply normalize_note_idem|].
  - apply register_Ok in Hs as (_ & _ & ->). done.
Qed.

Lemma replay_wf a es a' :
  journal_wf a → journal_replay a es = Ok a' →
  journal_wf a' ∧ ja_events a' = ja_events a ∧ ja_id a' = ja_id a.
Proof.
  intros Hwf. unfold journal_replay.
  apply (foldM_invariant (λ b, journal_wf b ∧ ja_events b = ja_events a ∧ ja_id b = ja_id a));
    [|done].
  intros b e b' _ (Hb & Hev & Hi) H. apply apply_wf in H as (? & ? & ?); [|done].
  split_and!; congruence || done.
Qed.

(** The journal of a plant nothing was recorded for. *)
Definition empty_journal (pid : PlantId) : JournalAggregate :=
  mkJournalAggregate pid (mkJournalStream pid [] ∅) 0 [].

Lemma empty_journal_new pid : JournalAggregate_new pid [] 0 = Ok (empty_journal pid).
Proof. done. Qed.

Lemma empty_journal_wf pid : journal_wf (empty_journal pid).
Proof. split; [|done]. split; cbn; try constructor; done. Qed.

(** A checkpoint of a clean journal rebuilds an equivalent one. *)
Lemma from_state_equiv a :
  journal_wf a → ja_events a = [] →
  JournalAggregate_from_state (JournalAggregate_state a) ≡ Ok a.
Proof.
  intros [Hwf Hid] Hev. unfold JournalAggregate_from_state, JournalAggregate_new; cbn.
  assert (JournalEntryState_to_domain (ja_id a) <$>
    (JournalEntryState_from_domain <$> JournalAggregate_entries a)
    = JournalAggregate_entries a) as ->.
  { rewrite <- list_fmap_compose. transitivity (id <$> JournalAggregate_entries a);
      [|apply list_fmap_id].
    apply list_fmap_ext. intros i e He. apply list_elem_of_lookup_2 in He.
    unfold JournalAggregate_entries, JournalStream_entries in He.
    rewrite merge_sort_Permutation in He.
    destruct Hwf as [Hp _ _ Hn Hevs]. rewrite Forall_forall in Hp, Hn, Hevs.
    specialize (Hp e He). specialize (Hn e He). specialize (Hevs e He).
    destruct e; cbn in *. unfold JournalEntryState_to_domain, JournalEntry_new; cbn.
    by rewrite Hn, Hid, Hp, Hevs. }
  pose proof (merge_sort_Permutation entry_le (js_entries (ja_stream a))) as Hp.
  change (foldM JournalStream_register _ ?l) with (JournalStream_new (ja_id a) l).
  rewrite stream_new_Ok; cbn.
  - split; cbn; auto. rewrite (swf_ids _ Hwf). unfold JournalAggregate_entries.
    apply set_eq. intros i. rewrite !elem_of_list_to_set.
    unfold JournalStream_entries. by rewrite Hp.
  - unfold JournalAggregate_entries, JournalStream_entries. rewrite Hp, Hid. apply Hwf.
  - unfold JournalAggregate_entries, JournalStream_entries. rewrite Hp. apply Hwf.
Qed.

(** What no caller can tell apart answers every question alike. *)
Lemma journal_equiv_answers a b :
  journal_wf a → journal_wf b → a ≡ b →
  JournalAggregate_state a = JournalAggregate_state b ∧
  ∀ i, JournalAggregate_entry a i = JournalAggregate_entry b i.
Proof.
  intros [Ha _] [Hb _] [Hid _ Hv _ Hes _]. split.
  - unfold JournalAggregate_state, JournalAggregate_entries.
    by rewrite Hid, Hv, (entries_eq _ _ Ha Hes).
  - intros i. by apply find_eq.
Qed.

(** One accepted append: one event, one entry, one version, and applying the event to
    the journal before gives the journal after, the pending events apart. *)
Lemma add_one_Ok a r a' :
  journal_add_one a r = Ok a' →
  ∃ e, ja_events a' = ja_events a ++ [e] ∧ ja_version a' = (ja_version a + 1)%Z ∧
    ∀ pending, JournalAggregate_apply
      (mkJournalAggregate (ja_id a) (ja_stream a) (ja_version a) pending) e =
      Ok (mkJournalAggregate (ja_id a') (ja_stream a') (ja_version a') pending).
Proof.
  unfold journal_add_one, JournalAggregate_add_entry, collect_events; cbn. intros H.
  destruct (JournalStream_append _ _) as [s|] eqn:E; [|done]. cbn in H. injection H as <-.
  eexists. split; [done|]. split; [done|]. intros pending. cbn.
  unfold JournalEntry_new in *. cbn. rewrite normalize_note_idem, E. done.
Qed.

(** ** Theorems *)

(** Replay rebuilds the journal: whatever run of accepted appends produced an
    aggregate, folding the events it recorded into an empty journal of the same plant
    gives that aggregate back, with nothing left to publish; its version counts them. *)
Theorem journal_replay_rebuilds (pid : PlantId) (rs : list journal_add)
    (a : JournalAggregate) :
  journal_adds (empty_journal pid) rs = Ok a →
  journal_replay (empty_journal pid) (ja_events a) =
    Ok (mkJournalAggregate (ja_id a) (ja_stream a) (ja_version a) []) ∧
  ja_version a = Z.of_nat (length (ja_events a)) ∧ length (ja_events a) = length rs.
Proof.
  revert a. induction rs as [|r rs IH] using rev_ind; intros a H.
  { by injection H as <-. }
  unfold journal_adds in H. rewrite foldM_app in H. apply bind_Ok in H as (b & Hb & H).
  apply bind_Ok in H as (a' & H & [= <-]).
  apply IH in Hb as (Hr & Hv & Hl). apply add_one_Ok in H as (e & He & Hv' & Ha).
  rewrite He, !length_app. split; [|rewrite Hv', Hv; cbn; lia].
  unfold journal_replay. rewrite foldM_app. unfold journal_replay in Hr. rewrite Hr. cbn.
  by rewrite Ha.
Qed.

Lemma journal_replay_rebuilds_witness :
  let r k n := mkJournalAdd NOTE (hours k) (hours 9) n None (Z.to_N k) (Z.to_N k) in
  let rs := [r 5%Z (Some " x "%string); r 3%Z (Some "  "%string)] in
  ∃ a, journal_adds (empty_journal (Uuid 1)) rs = Ok a ∧
    is_ok (journal_replay (empty_journal (Uuid 1)) (ja_events a)) = true.
Proof.
  intros r rs. destruct (journal_adds (empty_journal (Uuid 1)) rs) as [a|] eqn:E;
    [|vm_compute in E; discriminate E].
  exists a. split; [done|]. by rewrite (proj1 (journal_replay_rebuilds (Uuid 1) rs a E)).
Defined.

(** A snapshot changes nothing but the work: loading from the checkpoint of any
    replayed prefix and folding the later events answers like folding the whole
    stream, exceptions included. *)
Theorem journal_snapshot_replay (pid : PlantId) (es1 es2 : list DomainEvent)
    (a : JournalAggregate) :
  journal_replay (empty_journal pid) es1 = Ok a →
  match journal_replay (empty_journal pid) (es1 ++ es2),
        (b ← JournalAggregate_from_state (JournalAggregate_state a); journal_replay b es2) with
  | Ok x, Ok y => JournalAggregate_state x = JournalAggregate_state y ∧
      ja_events x = ja_events y ∧
      ∀ i, JournalAggregate_entry x i = JournalAggregate_entry y i
  | Raise e, Raise e' => e = e'
  | _, _ => False
  end.
Proof.
  intros H1. pose proof (replay_wf _ _ _ (empty_journal_wf pid) H1) as (Hwf & Hev & _).
  assert (journal_replay (empty_journal pid) (es1 ++ es2) = journal_replay a es2) as ->.
  { unfold journal_replay in H1 |- *. by rewrite foldM_app, H1. }
  pose proof (from_state_equiv a Hwf Hev) as Hb.
  destruct (JournalAggregate_from_state _) as [b|] eqn:Eb; [|done].
  change (b0 ← Ok b; journal_replay b0 es2) with (journal_replay b es2).
  change (b ≡ a) in Hb.
  assert (journal_wf b) as Hwfb by by rewrite Hb.
  pose proof (journal_replay_proper b a Hb es2 es2 eq_refl) as Hr.
  destruct (journal_replay a es2) as [x|] eqn:Ex, (journal_replay b es2) as [y|] eqn:Ey;
    cbn in Hr; try done.
  apply replay_wf in Ex as (Hx & ? & ?); [|done]. apply replay_wf in Ey as (Hy & ? & ?); [|done].
  destruct (journal_equiv_answers x y Hx Hy) as [-> Hi]; [by symmetry|].
  split; [done|]. split; [|done]. pose proof (jeq_events _ _ Hb). congruence.
Qed.

Lemma journal_snapshot_replay_witness :
  let ev k := mkEvent k 0 (JournalEntryAdded (Uuid k) (Uuid 1) WATERING None
    (hours (10 - Z.of_N k))) in
  ∃ a, journal_replay (empty_journal (Uuid 1)) [ev 1%N; ev 2%N] = Ok a ∧
  match journal_replay (empty_journal (Uuid 1)) [ev 1%N; ev 2%N; ev 3%N],
        (b ← JournalAggregate_from_state (JournalAggregate_state a); journal_replay b [ev 3%N]) with
  | Ok x, Ok y => JournalAggregate_state x = JournalAggregate_state y
  | _, _ => False
  end.
Proof.
  intros ev. destruct (journal_replay (empty_journal (Uuid 1)) [ev 1%N; ev 2%N]) as [a|] eqn:E;
    [|vm_compute in E; discriminate E].
  exists a. split; [done|].
  pose proof (journal_snapshot_replay (Uuid 1) [ev 1%N; ev 2%N] [ev 3%N] a E) as H.
  change ([ev 1%N; ev 2%N] ++ [ev 3%N]) with [ev 1%N; ev 2%N; ev 3%N] in H.
  destruct (journal_replay _ [ev 1%N; ev 2%N; ev 3%N]) eqn:E3;
    [|vm_compute in E3; discriminate E3].
  revert H. case_match; [by intros []|done].
Defined.

(** The temporal query is a prefix of the timeline: it holds exactly the entries
    whose care happened at or before the moment, in the timeline's own order, and a
    later moment only extends an earlier answer. *)
Theorem journal_state_at_prefix (a : JournalAggregate) (t1 t2 : datetime) :
  jst_entries (JournalAggregate_state_at a t1) `prefix_of`
    jst_entries (JournalAggregate_state a) ∧
  (∀ s, s ∈ jst_entries (JournalAggregate_state_at a t1) ↔
    s ∈ jst_entries (JournalAggregate_state a) ∧ (jes_occurred_at s ≤ t1)%Z) ∧
  ((t1 ≤ t2)%Z → jst_entries (JournalAggregate_state_at a t1) `prefix_of`
    jst_entries (JournalAggregate_state_at a t2)).
Proof.
  assert (StronglySorted entry_le (JournalAggregate_entries a)) as Hs.
  { apply StronglySorted_merge_sort; apply _. }
  assert (∀ t x y, entry_le x y → (je_occurred_at y ≤ t)%Z → (je_occurred_at x ≤ t)%Z)
    as Hdown.
  { intros t x y [H|[H _]]; cbn in H; lia. }
  assert (∀ t, filter (λ e, (je_occurred_at e ≤ t)%Z) (JournalAggregate_entries a)
    `prefix_of` JournalAggregate_entries a) as Hpre.
  { intros t. eapply filter_sorted_prefix; [exact Hs|]. apply Hdown. }
  assert (∀ l1 l2, l1 `prefix_of` l2 → (JournalEntryState_from_domain <$> l1)
    `prefix_of` (JournalEntryState_from_domain <$> l2)) as Hmap.
  { intros l1 l2 [k ->]. rewrite fmap_app. by exists (JournalEntryState_from_domain <$> k). }
  split; [by apply Hmap|]. split.
  - intros s. cbn. rewrite !list_elem_of_fmap. setoid_rewrite list_elem_of_filter.
    split; [intros (e & -> & ? & ?); cbn; eauto|]. intros [(e & -> & He) Ht].
    exists e. cbn in Ht. auto.
  - intros Ht. apply Hmap.
    rewrite <- (list_filter_filter_l (λ e, (je_occurred_at e ≤ t1)%Z)
      (λ e, (je_occurred_at e ≤ t2)%Z)) by lia.
    eapply filter_sorted_prefix; [|apply Hdown].
    destruct (Hpre t2) as [k Hk]. eapply StronglySorted_app_1_l. by rewrite <- Hk.
Qed.
