(* ===== verification/Notification.v ===== *)
(** The Notifications context's aggregate: a message waiting for a household, which is
    acknowledged at most once ([notifications/notification.py]). *)

From S2P Require Import Prelude Domain.

Record Notification := mkNotification {
  nt_id : NotificationId;
  nt_household_id : HouseholdId;
  nt_notification_type : NotificationType;
  nt_created_at : datetime;
  nt_payload : gmap string JsonValue;
  nt_read_at : option datetime;
  nt_events : list DomainEvent }.

Definition Notification_new (notification_id : NotificationId) (household_id : HouseholdId)
    (notification_type : NotificationType) (created_at : datetime)
    (payload : option (gmap string JsonValue)) (read_at : option datetime) : Notification :=
  mkNotification notification_id household_id notification_type created_at
    (default ∅ payload) read_at [].

Definition Notification_create (household_id : HouseholdId)
    (notification_type : NotificationType) (now : datetime)
    (payload : option (gmap string JsonValue)) (notification_id : option NotificationId)
    (minted eid : uuid) : Notification :=
  let n := Notification_new (or_new notification_id minted) household_id notification_type
    now payload None in
  mkNotification (nt_id n) (nt_household_id n) (nt_notification_type n) (nt_created_at n)
    (nt_payload n) (nt_read_at n)
    (record_event (nt_events n) (mkEvent eid now
      (NotificationCreated (nt_id n) household_id notification_type (nt_payload n) now))).

Definition Notification_is_read (n : Notification) : bool :=
  match nt_read_at n with Some _ => true | None => false end.

Definition Notification_mark_read (n : Notification) (now : datetime) (eid : uuid) :
    result Notification :=
  match nt_read_at n with
  | Some _ => Raise NotificationAlreadyReadError
  | None => Ok (mkNotification (nt_id n) (nt_household_id n) (nt_notification_type n)
      (nt_created_at n) (nt_payload n) (Some now)
      (record_event (nt_events n) (mkEvent eid now
        (NotificationRead (nt_id n) (nt_household_id n) now))))
  end.

(** ** Lemmas *)

Lemma mark_read_Ok n now eid n' :
  Notification_mark_read n now eid = Ok n' →
  nt_read_at n = None ∧ nt_read_at n' = Some now ∧ nt_id n' = nt_id n ∧
  nt_events n' = nt_events n ++
    [mkEvent eid now (NotificationRead (nt_id n) (nt_household_id n) now)].
Proof. unfold Notification_mark_read. destruct (nt_read_at n); [done|]. by intros [= <-]. Qed.
