(* ===== verification/Topics.v ===== *)
(** Where an event travels and what travels with it: the topic and the partition key of
    every event ([infrastructure/messaging/topics.py]) and the provenance stamped on a
    message ([application/provenance.py]). *)

From S2P Require Import Prelude Domain.

(** ** Names, topics and keys *)

Local Open Scope string_scope.

(** [type(event).__name__]. *)
Definition event_name (b : event_body) : string :=
  match b with
  | PlantAdded _ _ _ _ _ _ => "PlantAdded"
  | PlantRemoved _ _ => "PlantRemoved"
  | PlantMoved _ _ _ => "PlantMoved"
  | PlantOnboarded _ _ _ _ => "PlantOnboarded"
  | CareScheduleCreated _ _ _ => "CareScheduleCreated"
  | WateringDue _ _ => "WateringDue"
  | WateringCompleted _ _ _ => "WateringCompleted"
  | WateringRescheduled _ _ _ _ => "WateringRescheduled"
  | CareMissed _ _ => "CareMissed"
  | CareSkipped _ _ _ => "CareSkipped"
  | SpeciesSyncRequested => "SpeciesSyncRequested"
  | SpeciesAdded _ _ _ _ _ _ => "SpeciesAdded"
  | SpeciesUpdated _ _ _ _ _ _ => "SpeciesUpdated"
  | SpeciesCacheInvalidated _ => "SpeciesCacheInvalidated"
  | JournalEntryAdded _ _ _ _ _ => "JournalEntryAdded"
  | TelemetryReceived _ _ _ _ _ _ => "TelemetryReceived"
  | SoilMoistureLow _ _ _ _ => "SoilMoistureLow"
  | SoilMoistureHigh _ _ _ _ => "SoilMoistureHigh"
  | TemperatureAnomaly _ _ _ _ _ => "TemperatureAnomaly"
  | SensorOffline _ _ _ _ => "SensorOffline"
  | NotificationCreated _ _ _ _ _ => "NotificationCreated"
  | NotificationRead _ _ _ => "NotificationRead"
  | SagaStarted _ _ => "SagaStarted"
  | SagaCompleted _ _ => "SagaCompleted"
  | SagaFailed _ _ _ => "SagaFailed"
  | SagaCompensated _ _ => "SagaCompensated"
  | SagaRetrying _ _ _ _ => "SagaRetrying"
  | SagaParked _ _ _ _ => "SagaParked"
  end.

Definition GARDEN_EVENTS : string := "garden.events".
Definition CARE_EVENTS : string := "care.events".
Definition CATALOG_EVENTS : string := "catalog.events".
Definition JOURNAL_EVENTS : string := "journal.events".
Definition TELEMETRY_EVENTS : string := "telemetry.events".
Definition NOTIFICATIONS_EVENTS : string := "notifications.events".
Definition SAGA_EVENTS : string := "saga.events".

(** The dictionary keyed by class, the class spelled by its name. *)
Definition EVENT_TOPICS : list (string * string) :=
  [("PlantAdded", GARDEN_EVENTS); ("PlantRemoved", GARDEN_EVENTS);
   ("PlantMoved", GARDEN_EVENTS); ("PlantOnboarded", GARDEN_EVENTS);
   ("CareScheduleCreated", CARE_EVENTS); ("WateringDue", CARE_EVENTS);
   ("WateringCompleted", CARE_EVENTS); ("WateringRescheduled", CARE_EVENTS);
   ("CareMissed", CARE_EVENTS); ("CareSkipped", CARE_EVENTS);
   ("SpeciesSyncRequested", CATALOG_EVENTS); ("SpeciesAdded", CATALOG_EVENTS);
   ("SpeciesUpdated", CATALOG_EVENTS); ("SpeciesCacheInvalidated", CATALOG_EVENTS);
   ("JournalEntryAdded", JOURNAL_EVENTS);
   ("TelemetryReceived", TELEMETRY_EVENTS); ("SoilMoistureLow", TELEMETRY_EVENTS);
   ("SoilMoistureHigh", TELEMETRY_EVENTS); ("TemperatureAnomaly", TELEMETRY_EVENTS);
   ("SensorOffline", TELEMETRY_EVENTS);
   ("NotificationCreated", NOTIFICATIONS_EVENTS); ("NotificationRead", NOTIFICATIONS_EVENTS);
   ("SagaStarted", SAGA_EVENTS); ("SagaCompleted", SAGA_EVENTS);
   ("SagaFailed", SAGA_EVENTS); ("SagaCompensated", SAGA_EVENTS);
   ("SagaRetrying", SAGA_EVENTS); ("SagaParked", SAGA_EVENTS)].

(** [dict.get] on an association list without repeated keys. *)
Definition dict_get {V} (d : list (string * V)) (k : string) : option V :=
  snd <$> head (filter (λ kv, kv.1 = k) d).

Definition EVENT_TYPES : list string := EVENT_TOPICS.*1.

Definition topic_for (e : DomainEvent) : result string :=
  match dict_get EVENT_TOPICS (event_name (body e)) with
  | Some topic => Ok topic
  | None => Raise UnmappedEventError
  end.

(** A class is known by its name, so the class found under a name is that name. *)
Definition event_type_for (name : string) : option string :=
  if decide (name ∈ EVENT_TYPES) then Some name else None.

Definition PARTITION_KEY_FIELDS : list string :=
  ["plant_id"; "household_id"; "species_id"; "sensor_id"; "saga_id"].

(** [event.model_dump().get(field)] for the identifier fields. *)
Definition plant_id_of (b : event_body) : option PlantId :=
  match b with
  | PlantAdded p _ _ _ _ _ | PlantRemoved p _ | PlantMoved p _ _ | PlantOnboarded p _ _ _
  | CareScheduleCreated p _ _ | WateringDue p _ | WateringCompleted p _ _
  | WateringRescheduled p _ _ _ | CareMissed p _ | CareSkipped p _ _
  | JournalEntryAdded _ p _ _ _ | TelemetryReceived _ p _ _ _ _ | SoilMoistureLow _ p _ _
  | SoilMoistureHigh _ p _ _ | TemperatureAnomaly _ p _ _ _ | SensorOffline _ p _ _ => Some p
  | _ => None
  end.

Definition household_id_of (b : event_body) : option HouseholdId :=
  match b with
  | PlantAdded _ h _ _ _ _ | PlantOnboarded _ h _ _ | NotificationCreated _ h _ _ _
  | NotificationRead _ h _ => Some h
  | _ => None
  end.

Definition species_id_of (b : event_body) : option SpeciesId :=
  match b with
  | PlantAdded _ _ s _ _ _ | PlantOnboarded _ _ s _ | SpeciesAdded s _ _ _ _ _
  | SpeciesUpdated s _ _ _ _ _ | SpeciesCacheInvalidated s => Some s
  | _ => None
  end.

Definition sensor_id_of (b : event_body) : option SensorId :=
  match b with
  | TelemetryReceived s _ _ _ _ _ | SoilMoistureLow s _ _ _ | SoilMoistureHigh s _ _ _
  | TemperatureAnomaly s _ _ _ _ | SensorOffline s _ _ _ => Some s
  | _ => None
  end.

Definition saga_id_of (b : event_body) : option uuid :=
  match b with
  | SagaStarted s _ | SagaCompleted s _ | SagaFailed s _ _ | SagaCompensated s _
  | SagaRetrying s _ _ _ | SagaParked s _ _ _ => Some s
  | _ => None
  end.

Definition payload_get (b : event_body) (field : string) : option uuid :=
  if decide (field = "plant_id") then uuid_value <$> plant_id_of b
  else if decide (field = "household_id") then uuid_value <$> household_id_of b
  else if decide (field = "species_id") then uuid_value <$> species_id_of b
  else if decide (field = "sensor_id") then uuid_value <$> sensor_id_of b
  else if decide (field = "saga_id") then saga_id_of b
  else None.

(** The key; [str(value)] of an identifier is kept as the UUID it spells. *)
Fixpoint first_present (b : event_body) (fields : list string) : option uuid :=
  match fields with
  | [] => None
  | field :: fields =>
      match payload_get b field with
      | Some value => Some value
      | None => first_present b fields
      end
  end.

Definition partition_key_for (e : DomainEvent) : uuid :=
  default (event_id e) (first_present (body e) PARTITION_KEY_FIELDS).

(** ** Provenance *)

Definition UNKNOWN_RAISER : string := "system:unknown".

(** [MessageContext]: [MessageProvenance] and the instant the edge saw the work. *)
Record MessageContext := mkMessageContext {
  mc_raised_by : string;
  mc_correlation_id : option uuid;
  mc_causation_id : option uuid;
  mc_traceparent : option string;
  mc_observed_at : datetime }.

Definition request_context (raised_by : string) (traceparent : option string)
    (correlation_id : option uuid) (observed_at : option datetime) (minted : uuid)
    (now : datetime) : MessageContext :=
  mkMessageContext raised_by (Some (default minted correlation_id)) None traceparent
    (default now observed_at).

Definition reaction_context (raised_by : string) (caused_by : uuid)
    (correlation_id : option uuid) (traceparent : option string)
    (observed_at : option datetime) (now : datetime) : MessageContext :=
  mkMessageContext raised_by (Some (default caused_by correlation_id)) (Some caused_by)
    traceparent (default now observed_at).

(** [as_raiser]: [current] is the context variable's value. *)
Definition as_raiser (raised_by : string) (ambient current : option MessageContext)
    (now : datetime) : MessageContext :=
  match match ambient with Some a => Some a | None => current end with
  | None => mkMessageContext raised_by None None None now
  | Some b => mkMessageContext raised_by (mc_correlation_id b) (mc_causation_id b)
      (mc_traceparent b) (mc_observed_at b)
  end.

(** ** Theorems *)

(** Every event of the catalogue is routed: it has a topic, its name is one a
    consumer can look up again, and the topic is the one its context owns — so the
    names of two events on different topics differ. *)
Theorem topics_route_every_event (e : DomainEvent) :
  ∃ topic, topic_for e = Ok topic ∧
    event_type_for (event_name (body e)) = Some (event_name (body e)) ∧
    topic ∈ [GARDEN_EVENTS; CARE_EVENTS; CATALOG_EVENTS; JOURNAL_EVENTS; TELEMETRY_EVENTS;
             NOTIFICATIONS_EVENTS; SAGA_EVENTS] ∧
    (topic = CARE_EVENTS → ∃ p, partition_key_for e = uuid_value p ∧
       plant_id_of (body e) = Some p) ∧
    (topic = SAGA_EVENTS → Some (partition_key_for e) = saga_id_of (body e)) ∧
    (topic = NOTIFICATIONS_EVENTS → ∃ h, partition_key_for e = uuid_value h ∧
       household_id_of (body e) = Some h).
Proof.
  destruct e as [eid t b].
  destruct b; eexists; (split; [reflexivity|]); (split; [reflexivity|]); split_and!;
    try (intros [=]); try (by eauto); try (by repeat constructor).
Qed.
