(* ===== verification/Rows.v ===== *)
(** The rows the write side stores and the mapping between a row and its aggregate
    ([infrastructure/persistence/models], [infrastructure/persistence/mappers]).

    A row holds scalars: raw UUIDs, strings for the enumerations, plain floats.  A
    mapper back to the domain runs the aggregate's own constructor, so a row the
    constructor refuses raises. *)

From S2P Require Import Prelude Domain Care Garden Catalog Telemetry Journal Notification Topics.

(** ** Enumerations by value *)

Local Open Scope string_scope.

Definition LightRequirement_value (l : LightRequirement) : string :=
  match l with LOW => "low" | MEDIUM => "medium" | HIGH => "high" end.
Definition LightRequirement_parse (s : string) : result LightRequirement :=
  if decide (s = "low") then Ok LOW else if decide (s = "medium") then Ok MEDIUM
  else if decide (s = "high") then Ok HIGH else Raise ValueError.

Definition JournalEntryType_value (t : JournalEntryType) : string :=
  match t with WATERING => "watering" | FERTILIZING => "fertilizing"
  | REPOTTING => "repotting" | NOTE => "note" end.
Definition JournalEntryType_parse (s : string) : result JournalEntryType :=
  if decide (s = "watering") then Ok WATERING
  else if decide (s = "fertilizing") then Ok FERTILIZING
  else if decide (s = "repotting") then Ok REPOTTING
  else if decide (s = "note") then Ok NOTE else Raise ValueError.

Definition NotificationType_value (t : NotificationType) : string :=
  match t with
  | WATERING_DUE => "watering_due" | CARE_MISSED => "care_missed"
  | WATERING_RESCHEDULED => "watering_rescheduled" | SOIL_MOISTURE_LOW => "soil_moisture_low"
  | SOIL_MOISTURE_HIGH => "soil_moisture_high" | TEMPERATURE_ANOMALY => "temperature_anomaly"
  | SENSOR_OFFLINE => "sensor_offline" | PLANT_ONBOARDED => "plant_onboarded"
  end.
Definition NotificationType_parse (s : string) : result NotificationType :=
  if decide (s = "watering_due") then Ok WATERING_DUE
  else if decide (s = "care_missed") then Ok CARE_MISSED
  else if decide (s = "watering_rescheduled") then Ok WATERING_RESCHEDULED
  else if decide (s = "soil_moisture_low") then Ok SOIL_MOISTURE_LOW
  else if decide (s = "soil_moisture_high") then Ok SOIL_MOISTURE_HIGH
  else if decide (s = "temperature_anomaly") then Ok TEMPERATURE_ANOMALY
  else if decide (s = "sensor_offline") then Ok SENSOR_OFFLINE
  else if decide (s = "plant_onboarded") then Ok PLANT_ONBOARDED
  else Raise ValueError.

(** ** Garden *)

Record HouseholdModel := mkHouseholdModel { hm_id : uuid; hm_name : string }.

Record PlantModel := mkPlantModel {
  pm_id : uuid;
  pm_household_id : uuid;
  pm_species_id : uuid;
  pm_name : string;
  pm_location : string;
  pm_added_at : datetime;
  pm_last_watered_at : option datetime;
  pm_last_repotted_at : option datetime;
  pm_removed : bool }.

Definition plant_to_domain (m : PlantModel) : result Plant :=
  location ← Location_validate (pm_location m);
  Plant_new (Uuid (pm_id m)) (Uuid (pm_household_id m)) (Uuid (pm_species_id m)) (pm_name m)
    location (pm_added_at m) (pm_last_watered_at m) (pm_last_repotted_at m) (pm_removed m).

Definition plant_to_model (p : Plant) : PlantModel :=
  mkPlantModel (uuid_value (p_id p)) (uuid_value (p_household_id p))
    (uuid_value (p_species_id p)) (p_name p) (location_value (p_location p)) (p_added_at p)
    (p_last_watered_at p) (p_last_repotted_at p) (p_removed p).

Definition household_to_domain (m : HouseholdModel) (plant_ids : list PlantId) :
    result Household :=
  Household_new (Uuid (hm_id m)) (hm_name m) plant_ids.

Definition household_to_model (h : Household) : HouseholdModel :=
  mkHouseholdModel (uuid_value (hh_id h)) (hh_name h).

(** ** Care *)

Record CareScheduleModel := mkCareScheduleModel {
  csm_plant_id : uuid;
  csm_watering_interval : timedelta;
  csm_next_watering_at : datetime;
  csm_version : Z }.

Definition care_schedule_to_domain (m : CareScheduleModel) : result CareSchedule :=
  watering_interval ← CareInterval_validate (csm_watering_interval m);
  Ok (CareSchedule_new (Uuid (csm_plant_id m)) watering_interval (csm_next_watering_at m)
    (csm_version m)).

Definition care_schedule_to_model (s : CareSchedule) : CareScheduleModel :=
  mkCareScheduleModel (uuid_value (cs_plant_id s)) (interval_value (cs_watering_interval s))
    (cs_next_watering_at s) (cs_version s).

(** ** Catalog *)

Record SpeciesModel := mkSpeciesModel {
  spm_id : uuid;
  spm_scientific_name : string;
  spm_common_name : string;
  spm_watering_interval : timedelta;
  spm_light_requirement : string;
  spm_version : Z }.

Definition species_to_domain (m : SpeciesModel) : result Species :=
  watering_interval ← CareInterval_validate (spm_watering_interval m);
  light_requirement ← LightRequirement_parse (spm_light_requirement m);
  Species_new (Uuid (spm_id m)) (spm_scientific_name m) (spm_common_name m)
    watering_interval light_requirement (spm_version m).

Definition species_to_model (s : Species) : SpeciesModel :=
  mkSpeciesModel (uuid_value (sp_id s)) (sp_scientific_name s) (sp_common_name s)
    (interval_value (sp_watering_interval s)) (LightRequirement_value (sp_light_requirement s))
    (sp_version s).

(** ** Telemetry *)

Record SensorModel := mkSensorModel {
  sm_id : uuid;
  sm_plant_id : uuid;
  sm_added_at : datetime;
  sm_last_seen_at : option datetime;
  sm_offline_announced_at : option datetime }.

Definition sensor_to_domain (m : SensorModel) : Sensor :=
  Sensor_new (Uuid (sm_id m)) (Uuid (sm_plant_id m)) (sm_added_at m) (sm_last_seen_at m)
    (sm_offline_announced_at m).

Definition sensor_to_model (s : Sensor) : SensorModel :=
  mkSensorModel (uuid_value (sn_id s)) (uuid_value (sn_plant_id s)) (sn_added_at s)
    (sn_last_seen_at s) (sn_offline_announced_at s).

Record SensorReadingModel := mkSensorReadingModel {
  srm_sensor_id : uuid;
  srm_recorded_at : datetime;
  srm_plant_id : uuid;
  srm_moisture : float;
  srm_temperature : float;
  srm_light : float }.

Definition reading_to_model (r : TelemetryReading) : SensorReadingModel :=
  mkSensorReadingModel (uuid_value (tr_sensor_id r)) (tr_recorded_at r)
    (uuid_value (tr_plant_id r)) (moisture_value (tr_moisture r))
    (temperature_value (tr_temperature r)) (light_value (tr_light r)).

(** ** Journal *)

Record JournalEntryModel := mkJournalEntryModel {
  jem_id : uuid;
  jem_plant_id : uuid;
  jem_entry_type : string;
  jem_occurred_at : datetime;
  jem_note : option string }.

Definition journal_entry_to_domain (m : JournalEntryModel) : result JournalEntry :=
  entry_type ← JournalEntryType_parse (jem_entry_type m);
  Ok (JournalEntry_new (Uuid (jem_id m)) (Uuid (jem_plant_id m)) entry_type
    (jem_occurred_at m) (jem_note m)).

Definition journal_entry_to_model (e : JournalEntry) : JournalEntryModel :=
  mkJournalEntryModel (uuid_value (je_id e)) (uuid_value (je_plant_id e))
    (JournalEntryType_value (je_entry_type e)) (je_occurred_at e) (je_note e).

(** An event-store row.  [payload] is the JSON document of the event; the model keeps
    the event it spells, and [event_type] beside it, so a row naming an unknown class
    is still a value. *)
Record EventStoreModel := mkEventStoreModel {
  esm_global_position : Z;
  esm_stream_id : uuid;
  esm_version : Z;
  esm_event_id : uuid;
  esm_event_type : string;
  esm_payload : DomainEvent;
  esm_occurred_at : datetime }.

Definition event_store_model_from_event (e : DomainEvent) (stream_id : PlantId)
    (version position : Z) : EventStoreModel :=
  mkEventStoreModel position (uuid_value stream_id) version (event_id e)
    (event_name (body e)) e (occurred_at e).

Record StoredEvent := mkStoredEvent {
  se_stream_id : PlantId;
  se_version : Z;
  se_global_position : Z;
  se_event : DomainEvent }.

(** [model_validate] of the class the row names accepts the document of an event of
    that class alone: every class forbids extra fields and requires its own. *)
Definition stored_event_from_model (m : EventStoreModel) : result StoredEvent :=
  match event_type_for (esm_event_type m) with
  | None => Raise EventStoreCorruptionError
  | Some cls =>
      if decide (event_name (body (esm_payload m)) = cls) then
        Ok (mkStoredEvent (Uuid (esm_stream_id m)) (esm_version m) (esm_global_position m)
          (esm_payload m))
      else Raise EventStoreCorruptionError
  end.

Record JournalSnapshotModel := mkJournalSnapshotModel {
  jsm_stream_id : uuid;
  jsm_version : Z;
  jsm_state : JournalState }.

Definition snapshot_model_from_state (s : JournalState) : JournalSnapshotModel :=
  mkJournalSnapshotModel (uuid_value (jst_plant_id s)) (jst_version s) s.

Definition state_from_snapshot_model (m : JournalSnapshotModel) : JournalState := jsm_state m.

(** ** Notifications *)

Record NotificationModel := mkNotificationModel {
  nm_id : uuid;
  nm_household_id : uuid;
  nm_notification_type : string;
  nm_payload : gmap string JsonValue;
  nm_created_at : datetime;
  nm_read_at : option datetime }.

Definition notification_to_domain (m : NotificationModel) : result Notification :=
  notification_type ← NotificationType_parse (nm_notification_type m);
  Ok (Notification_new (Uuid (nm_id m)) (Uuid (nm_household_id m)) notification_type
    (nm_created_at m) (Some (nm_payload m)) (nm_read_at m)).

Definition notification_to_model (n : Notification) : NotificationModel :=
  mkNotificationModel (uuid_value (nt_id n)) (uuid_value (nt_household_id n))
    (NotificationType_value (nt_notification_type n)) (nt_payload n) (nt_created_at n)
    (nt_read_at n).

(** ** The outbox *)

Record OutboxModel := mkOutboxModel {
  ob_id : Z;
  ob_event_id : uuid;
  ob_event_name : string;
  ob_topic : string;
  ob_partition_key : uuid;
  ob_payload : DomainEvent;
  ob_occurred_at : datetime;
  ob_created_at : datetime;
  ob_published_at : option datetime;
  ob_dead_lettered_at : option datetime;
  ob_attempts : Z;
  ob_last_error : option string;
  ob_schema_version : Z;
  ob_raised_by : string;
  ob_correlation_id : option uuid;
  ob_causation_id : option uuid;
  ob_traceparent : option string;
  ob_claimed_at : option datetime }.

(** [outbox_model_from_event]; the identity column [id] is the database's to choose. *)
Definition outbox_model_from_event (e : DomainEvent) (provenance : option MessageContext)
    (id : Z) : result OutboxModel :=
  topic ← topic_for e;
  Ok (mkOutboxModel id (event_id e) (event_name (body e)) topic (partition_key_for e) e
    (occurred_at e)
    (match provenance with Some c => mc_observed_at c | None => occurred_at e end)
    None None 0 None 1
    (match provenance with Some c => mc_raised_by c | None => UNKNOWN_RAISER end)
    (provenance ≫= mc_correlation_id) (provenance ≫= mc_causation_id)
    (provenance ≫= mc_traceparent) None).

(** ** Lemmas *)

Lemma LightRequirement_roundtrip l : LightRequirement_parse (LightRequirement_value l) = Ok l.
Proof. by destruct l. Qed.
Lemma JournalEntryType_roundtrip t : JournalEntryType_parse (JournalEntryType_value t) = Ok t.
Proof. by destruct t. Qed.
Lemma NotificationType_roundtrip t : NotificationType_parse (NotificationType_value t) = Ok t.
Proof. by destruct t. Qed.

(** A stored type that parses is the spelling of the value it parses to. *)
Lemma NotificationType_parse_value s t :
  NotificationType_parse s = Ok t → NotificationType_value t = s.
Proof. unfold NotificationType_parse. repeat case_decide; subst; by intros [= <-]. Qed.

#[export] Hint Rewrite LightRequirement_roundtrip JournalEntryType_roundtrip
  NotificationType_roundtrip : keeper.

Lemma Uuid_eta {k} (i : UuidIdentifier k) : Uuid (uuid_value i) = i.
Proof. by destruct i. Qed.
#[export] Hint Rewrite @Uuid_eta : keeper.

(** What a plant's constructor guarantees of the scalars it keeps. *)
Definition plant_wf (p : Plant) : Prop :=
  strip (p_name p) = p_name p ∧ p_name p ≠ EmptyString ∧
  Location_validate (location_value (p_location p)) = Ok (p_location p).

Lemma plant_roundtrip p :
  plant_wf p → plant_to_domain (plant_to_model p) =
    Ok (mkPlant (p_id p) (p_household_id p) (p_species_id p) (p_name p) (p_location p)
      (p_added_at p) (p_last_watered_at p) (p_last_repotted_at p) (p_removed p) []).
Proof.
  intros (Hn & Hne & Hl). unfold plant_to_domain, plant_to_model; cbn.
  rewrite Hl. cbn. unfold Plant_new. rewrite Hn, decide_False by done.
  by rewrite !Uuid_eta.
Qed.

(** A row that maps at all maps to a well-formed plant. *)
Lemma plant_to_domain_Ok m p :
  plant_to_domain m = Ok p →
  plant_wf p ∧ p_id p = Uuid (pm_id m) ∧ p_household_id p = Uuid (pm_household_id m) ∧
  p_removed p = pm_removed m ∧ p_last_watered_at p = pm_last_watered_at m ∧ p_events p = [].
Proof.
  unfold plant_to_domain, Plant_new. intros H.
  apply bind_Ok in H as (l & Hl & H). case_decide as Hn; [done|]. injection H as <-.
  cbn. split; [|done]. split; cbn; [apply strip_idem|]. split; [done|].
  by eapply Location_validate_roundtrip.
Qed.

Lemma care_schedule_roundtrip s :
  (0 < interval_value (cs_watering_interval s))%Z →
  care_schedule_to_domain (care_schedule_to_model s) =
    Ok (CareSchedule_new (cs_plant_id s) (cs_watering_interval s) (cs_next_watering_at s)
      (cs_version s)).
Proof.
  intros H. unfold care_schedule_to_domain, care_schedule_to_model, CareInterval_validate; cbn.
  rewrite decide_True by done. cbn. rewrite Uuid_eta. by destruct (cs_watering_interval s).
Qed.

Lemma care_schedule_to_domain_Ok m s :
  care_schedule_to_domain m = Ok s →
  (0 < interval_value (cs_watering_interval s))%Z ∧ cs_events s = [] ∧
  care_schedule_to_model s = m ∧ cs_plant_id s = Uuid (csm_plant_id m).
Proof.
  unfold care_schedule_to_domain. intros (i & [Hi Hp]%CareInterval_validate_Ok & [= <-])%bind_Ok.
  cbn. split_and!; [by rewrite Hi|done| |done]. unfold care_schedule_to_model; cbn.
  rewrite Hi. by destruct m.
Qed.

Lemma sensor_roundtrip s :
  sensor_to_domain (sensor_to_model s) =
    mkSensor (sn_id s) (sn_plant_id s) (sn_added_at s) (sn_last_seen_at s)
      (sn_offline_announced_at s) [].
Proof. unfold sensor_to_domain, sensor_to_model, Sensor_new; cbn. by rewrite !Uuid_eta. Qed.

Lemma notification_roundtrip n :
  notification_to_domain (notification_to_model n) =
    Ok (mkNotification (nt_id n) (nt_household_id n) (nt_notification_type n)
      (nt_created_at n) (nt_payload n) (nt_read_at n) []).
Proof.
  unfold notification_to_domain, notification_to_model; cbn.
  rewrite NotificationType_roundtrip. cbn. unfold Notification_new. by rewrite !Uuid_eta.
Qed.

Lemma stored_event_roundtrip e sid v pos :
  stored_event_from_model (event_store_model_from_event e sid v pos) =
    Ok (mkStoredEvent sid v pos e).
Proof.
  unfold stored_event_from_model, event_store_model_from_event; cbn.
  assert (event_type_for (event_name (body e)) = Some (event_name (body e))) as ->.
  { destruct e as [? ? []]; reflexivity. }
  rewrite decide_True by done. by rewrite Uuid_eta.
Qed.

Lemma outbox_row_Ok e ctx id :
  ∃ row, outbox_model_from_event e ctx id = Ok row ∧ ob_id row = id ∧ ob_payload row = e ∧
    ob_event_id row = event_id e ∧ ob_partition_key row = partition_key_for e ∧
    ob_published_at row = None ∧ ob_dead_lettered_at row = None ∧ ob_claimed_at row = None ∧
    ob_attempts row = 0%Z.
Proof.
  unfold outbox_model_from_event.
  assert (∃ topic, topic_for e = Ok topic) as [topic ->].
  { destruct e as [? ? []]; eexists; reflexivity. }
  cbn. eexists. split; [done|]. by cbn.
Qed.
