(* ===== verification/Views.v ===== *)
(** What a use case answers with: the flat projection of an aggregate
    ([application/views.py]). *)

From S2P Require Import Prelude Domain Care Garden Catalog Telemetry Journal Notification.

(** One constructor per view class.  Every class forbids extra fields and no two have
    the same ones, so a stored document validates as the class it was dumped from and as
    no other. *)
Inductive View :=
  | HouseholdView (household_id : HouseholdId) (name : string) (plant_count : nat)
  | PlantView (plant_id : PlantId) (household_id : HouseholdId) (species_id : SpeciesId)
      (name location : string) (added_at : datetime) (last_watered_at : option datetime)
      (removed : bool)
  | CareScheduleView (plant_id : PlantId) (watering_interval : timedelta)
      (next_watering_at : datetime) (version : Z)
  | SensorView (sensor_id : SensorId) (plant_id : PlantId) (added_at : datetime)
      (last_seen_at : option datetime)
  | SpeciesView (species_id : SpeciesId) (scientific_name common_name : string)
      (watering_interval : timedelta) (light_requirement : LightRequirement) (version : Z)
  | NotificationView (notification_id : NotificationId) (household_id : HouseholdId)
      (notification_type : NotificationType) (payload : gmap string JsonValue)
      (created_at : datetime) (read_at : option datetime)
  | JournalEntryView (entry_id : JournalEntryId) (plant_id : PlantId)
      (entry_type : JournalEntryType) (at_ : datetime) (note : option string)
  | SyncRequestedView (requested : bool)
  | NoneView.

Inductive view_class :=
  | CHousehold | CPlant | CCareSchedule | CSensor | CSpecies | CNotification | CJournalEntry
  | CSyncRequested | CNone.

#[export] Instance view_class_eq_dec : EqDecision view_class.
Proof. solve_decision. Defined.

Definition view_class_of (v : View) : view_class :=
  match v with
  | HouseholdView _ _ _ => CHousehold
  | PlantView _ _ _ _ _ _ _ _ => CPlant
  | CareScheduleView _ _ _ _ => CCareSchedule
  | SensorView _ _ _ _ => CSensor
  | SpeciesView _ _ _ _ _ _ => CSpecies
  | NotificationView _ _ _ _ _ _ => CNotification
  | JournalEntryView _ _ _ _ _ => CJournalEntry
  | SyncRequestedView _ => CSyncRequested
  | NoneView => CNone
  end.

(** [view_type.model_validate(document)]. *)
Definition view_validate (cls : view_class) (v : View) : result View :=
  if decide (view_class_of v = cls) then Ok v else Raise ValidationError.

Definition HouseholdView_from_domain (h : Household) : View :=
  HouseholdView (hh_id h) (hh_name h) (Household_plant_count h).

Definition PlantView_from_domain (p : Plant) : View :=
  PlantView (p_id p) (p_household_id p) (p_species_id p) (p_name p)
    (location_value (p_location p)) (p_added_at p) (p_last_watered_at p) (p_removed p).

Definition CareScheduleView_from_domain (s : CareSchedule) : View :=
  CareScheduleView (cs_plant_id s) (interval_value (cs_watering_interval s))
    (cs_next_watering_at s) (cs_version s).

Definition SensorView_from_domain (s : Sensor) : View :=
  SensorView (sn_id s) (sn_plant_id s) (sn_added_at s) (sn_last_seen_at s).

Definition SpeciesView_from_domain (s : Species) : View :=
  SpeciesView (sp_id s) (sp_scientific_name s) (sp_common_name s)
    (interval_value (sp_watering_interval s)) (sp_light_requirement s) (sp_version s).

Definition NotificationView_from_domain (n : Notification) : View :=
  NotificationView (nt_id n) (nt_household_id n) (nt_notification_type n) (nt_payload n)
    (nt_created_at n) (nt_read_at n).

Definition JournalEntryView_from_domain (e : JournalEntry) : View :=
  JournalEntryView (je_id e) (je_plant_id e) (je_entry_type e) (je_occurred_at e) (je_note e).
