(* ===== verification/SagaRows.v ===== *)
(** The rows of the orchestration sagas and the data they hold: the contexts
    ([application/sagas/contexts.py]), the recorded commands and their status
    ([application/ports/saga_intents.py]), the executions and their log
    ([persistence/models/shared.py], [application/ports/sagas.py],
    [persistence/mappers/sagas.py] and [saga_intents.py]). *)

From S2P Require Import Prelude Domain Rows.

(** ** Contexts

    A context is the JSON document of an execution; identifiers are kept as the values
    their strings spell and a duration given in seconds as that duration. *)
Record OnboardPlantContext := mkOnboardPlantContext {
  oc_plant_id : uuid;
  oc_household_id : uuid;
  oc_species_id : uuid;
  oc_saga_id : uuid;
  oc_watering_interval : timedelta;
  oc_care_schedule_created : bool;
  oc_notification_id : option uuid;
  oc_next_watering_at : option datetime }.

Record SpeciesSnapshot := mkSpeciesSnapshot {
  snap_species_id : uuid;
  snap_scientific_name : string;
  snap_common_name : string;
  snap_watering_interval : timedelta;
  snap_light_requirement : string;
  snap_version : Z }.

Record SpeciesSyncContext := mkSpeciesSyncContext {
  sc_saga_id : uuid;
  sc_requested_at : datetime;
  sc_requested_by : uuid;
  sc_fetched : list SpeciesSnapshot;
  sc_updated : list SpeciesSnapshot;
  sc_created : list uuid }.

Inductive SagaContext :=
  | OnboardContext (c : OnboardPlantContext)
  | SyncContext (c : SpeciesSyncContext).

(** ** Recorded commands *)

Inductive IntentStatus :=
  | IntentPending | IntentExecuted | IntentFailed | IntentParked | IntentCancelled.

Record SagaIntentModel := mkSagaIntentModel {
  si_id : Z;
  si_saga_id : uuid;
  si_step_no : Z;
  si_command_name : string;
  si_payload : gmap string JsonValue;
  si_status : IntentStatus;
  si_attempts : Z;
  si_idempotency_key : string;
  si_last_error : option exn;
  si_claimed_at : option datetime;
  si_executed_at : option datetime;
  si_created_at : datetime }.

(** ** Executions and their log

    The engine's enumerations, by the members the source names; a step status it does
    not name is kept by its text. *)
Inductive SagaStatus := SagaPending | SagaRunning | SagaCompensating | SagaDone | SagaFailing.

Inductive SagaStepStatus := StepCompleted | StepFailed | StepOther (value : string).

Inductive StepAction := Act | Compensate.

Record SagaStateModel := mkSagaStateModel {
  sgm_id : uuid;
  sgm_name : string;
  sgm_status : SagaStatus;
  sgm_context : SagaContext;
  sgm_version : Z;
  sgm_recovery_attempts : Z;
  sgm_created_at : datetime;
  sgm_updated_at : datetime }.

Record SagaLogModel := mkSagaLogModel {
  sl_id : Z;
  sl_saga_id : uuid;
  sl_step_name : string;
  sl_action : StepAction;
  sl_status : SagaStepStatus;
  sl_details : option string;
  sl_created_at : datetime }.

(** What a reader of an execution sees. *)
Record SagaState := mkSagaState {
  ste_saga_id : uuid;
  ste_saga_name : string;
  ste_status : SagaStatus;
  ste_version : Z;
  ste_recovery_attempts : Z;
  ste_created_at : datetime;
  ste_updated_at : datetime }.

Definition saga_state_to_domain (m : SagaStateModel) : SagaState :=
  mkSagaState (sgm_id m) (sgm_name m) (sgm_status m) (sgm_version m) (sgm_recovery_attempts m)
    (sgm_created_at m) (sgm_updated_at m).

(** What an operator sees of a recorded command. *)
Record SagaIntent := mkSagaIntent {
  sai_id : Z;
  sai_saga_id : uuid;
  sai_step_no : Z;
  sai_command_name : string;
  sai_payload : gmap string JsonValue;
  sai_status : IntentStatus;
  sai_idempotency_key : string;
  sai_attempts : Z;
  sai_last_error : option exn }.

Definition saga_intent_to_domain (m : SagaIntentModel) : SagaIntent :=
  mkSagaIntent (si_id m) (si_saga_id m) (si_step_no m) (si_command_name m) (si_payload m)
    (si_status m) (si_idempotency_key m) (si_attempts m) (si_last_error m).

#[export] Instance OnboardPlantContext_eq_dec : EqDecision OnboardPlantContext.
Proof. solve_decision. Defined.
#[export] Instance SpeciesSnapshot_eq_dec : EqDecision SpeciesSnapshot.
Proof. solve_decision. Defined.
#[export] Instance SpeciesSyncContext_eq_dec : EqDecision SpeciesSyncContext.
Proof. solve_decision. Defined.
#[export] Instance SagaContext_eq_dec : EqDecision SagaContext.
Proof. solve_decision. Defined.
#[export] Instance IntentStatus_eq_dec : EqDecision IntentStatus.
Proof. solve_decision. Defined.
#[export] Instance SagaStatus_eq_dec : EqDecision SagaStatus.
Proof. solve_decision. Defined.
#[export] Instance SagaStepStatus_eq_dec : EqDecision SagaStepStatus.
Proof. solve_decision. Defined.
#[export] Instance StepAction_eq_dec : EqDecision StepAction.
Proof. solve_decision. Defined.
#[export] Instance SagaIntentModel_eq_dec : EqDecision SagaIntentModel.
Proof. solve_decision. Defined.
#[export] Instance SagaStateModel_eq_dec : EqDecision SagaStateModel.
Proof. solve_decision. Defined.
