(* ===== verification/Database.v ===== *)
(** The write side's database and the unit of work over it
    ([infrastructure/persistence/uow.py], [tracking.py] and [repositories/]).

    A transaction is a computation over a [Session]: the rows other transactions have
    committed, the view this transaction reads (those rows with its own writes on top),
    the statements it staged, the aggregates it tracks.  An exception keeps the session,
    as it does in the code.  [commit] drains the tracked events into the outbox and
    replays the staged statements on whatever is committed by then; a statement that
    meets a taken key fails the whole transaction. *)

From S2P Require Import Prelude Domain Care Garden Catalog Telemetry Journal Notification.
From S2P Require Import Topics Rows Views SagaRows.

(** ** Tables *)

(** [MissedCareWindowModel] and [MissedCareState]. *)
Inductive MissedCareState := PENDING | SATISFIED | MISSED.
#[export] Instance MissedCareState_eq_dec : EqDecision MissedCareState.
Proof. solve_decision. Defined.

Record MissedCareWindowModel := mkMissedCareWindowModel {
  mcw_plant_id : uuid;
  mcw_household_id : uuid;
  mcw_due_at : datetime;
  mcw_grace_deadline : datetime;
  mcw_state : MissedCareState;
  mcw_updated_at : datetime }.

Record PlantReference := mkPlantReference {
  pr_plant_id : PlantId;
  pr_household_id : HouseholdId;
  pr_name : string;
  pr_location : string;
  pr_seen_at : datetime }.

Record IdempotencyRecord := mkIdempotencyRecord {
  ir_key : string;
  ir_request_hash : string;
  ir_status_code : Z;
  ir_response : View;
  ir_created_at : datetime }.

Record Database := mkDatabase {
  db_households : gmap uuid HouseholdModel (* [write_garden.households] *);
  db_plants : gmap uuid PlantModel (* [write_garden.plants] *);
  db_care_schedules : gmap uuid CareScheduleModel (* [write_care.care_schedules] *);
  db_windows : gmap uuid MissedCareWindowModel (* [write_care.missed_care_windows] *);
  db_species : gmap uuid SpeciesModel (* [write_catalog.species] *);
  db_sensors : gmap uuid SensorModel (* [write_telemetry.sensors] *);
  db_readings : gmap (uuid * datetime) SensorReadingModel (* [write_telemetry.sensor_readings] *);
  db_journal_entries : gmap uuid JournalEntryModel (* [write_journal.journal_entries] *);
  db_event_store : list EventStoreModel (* [write_journal.event_store], in append order *);
  db_snapshots : gmap (uuid * Z) JournalSnapshotModel (* [write_journal.journal_snapshots] *);
  db_journal_refs : gmap uuid PlantReference (* [write_journal.plant_refs] *);
  db_notifications : gmap uuid NotificationModel (* [write_notifications.notifications] *);
  db_notification_refs : gmap uuid PlantReference (* [write_notifications.plant_refs] *);
  db_outbox : list OutboxModel (* [write_shared.outbox], in identity order *);
  db_idempotency : gmap string IdempotencyRecord (* [write_shared.idempotency_keys] *);
  db_processed_events : gset (string * uuid) (* [write_shared.processed_events] *);
  db_saga_intents : list SagaIntentModel (* [write_shared.saga_intents], in identity order *);
  db_saga_states : gmap uuid SagaStateModel (* [write_shared.saga_state] *);
  db_saga_log : list SagaLogModel (* [write_shared.saga_log], in identity order *) }.

Definition empty_database : Database :=
  mkDatabase ∅ ∅ ∅ ∅ ∅ ∅ ∅ ∅ [] ∅ ∅ ∅ ∅ [] ∅ ∅ [] ∅ [].

(** Replacing one table. *)
Definition set_households (d : Database) (v : gmap uuid HouseholdModel) : Database :=
  mkDatabase v (db_plants d) (db_care_schedules d) (db_windows d) (db_species d) (db_sensors d)
    (db_readings d) (db_journal_entries d) (db_event_store d) (db_snapshots d) (db_journal_refs
    d) (db_notifications d) (db_notification_refs d) (db_outbox d) (db_idempotency d)
    (db_processed_events d) (db_saga_intents d) (db_saga_states d) (db_saga_log d).
Definition set_plants (d : Database) (v : gmap uuid PlantModel) : Database :=
  mkDatabase (db_households d) v (db_care_schedules d) (db_windows d) (db_species d) (db_sensors
    d) (db_readings d) (db_journal_entries d) (db_event_store d) (db_snapshots d)
    (db_journal_refs d) (db_notifications d) (db_notification_refs d) (db_outbox d)
    (db_idempotency d) (db_processed_events d) (db_saga_intents d) (db_saga_states d)
    (db_saga_log d).
Definition set_care_schedules (d : Database) (v : gmap uuid CareScheduleModel) : Database :=
  mkDatabase (db_households d) (db_plants d) v (db_windows d) (db_species d) (db_sensors d)
    (db_readings d) (db_journal_entries d) (db_event_store d) (db_snapshots d) (db_journal_refs
    d) (db_notifications d) (db_notification_refs d) (db_outbox d) (db_idempotency d)
    (db_processed_events d) (db_saga_intents d) (db_saga_states d) (db_saga_log d).
Definition set_windows (d : Database) (v : gmap uuid MissedCareWindowModel) : Database :=
  mkDatabase (db_households d) (db_plants d) (db_care_schedules d) v (db_species d) (db_sensors
    d) (db_readings d) (db_journal_entries d) (db_event_store d) (db_snapshots d)
    (db_journal_refs d) (db_notifications d) (db_notification_refs d) (db_outbox d)
    (db_idempotency d) (db_processed_events d) (db_saga_intents d) (db_saga_states d)
    (db_saga_log d).
Definition set_species (d : Database) (v : gmap uuid SpeciesModel) : Database :=
  mkDatabase (db_households d) (db_plants d) (db_care_schedules d) (db_windows d) v (db_sensors
    d) (db_readings d) (db_journal_entries d) (db_event_store d) (db_snapshots d)
    (db_journal_refs d) (db_notifications d) (db_notification_refs d) (db_outbox d)
    (db_idempotency d) (db_processed_events d) (db_saga_intents d) (db_saga_states d)
    (db_saga_log d).
Definition set_sensors (d : Database) (v : gmap uuid SensorModel) : Database :=
  mkDatabase (db_households d) (db_plants d) (db_care_schedules d) (db_windows d) (db_species d)
    v (db_readings d) (db_journal_entries d) (db_event_store d) (db_snapshots d)
    (db_journal_refs d) (db_notifications d) (db_notification_refs d) (db_outbox d)
    (db_idempotency d) (db_processed_events d) (db_saga_intents d) (db_saga_states d)
    (db_saga_log d).
Definition set_readings (d : Database) (v : gmap (uuid * datetime) SensorReadingModel) : Database :=
  mkDatabase (db_households d) (db_plants d) (db_care_schedules d) (db_windows d) (db_species d)
    (db_sensors d) v (db_journal_entries d) (db_event_store d) (db_snapshots d) (db_journal_refs
    d) (db_notifications d) (db_notification_refs d) (db_outbox d) (db_idempotency d)
    (db_processed_events d) (db_saga_intents d) (db_saga_states d) (db_saga_log d).
Definition set_journal_entries (d : Database) (v : gmap uuid JournalEntryModel) : Database :=
  mkDatabase (db_households d) (db_plants d) (db_care_schedules d) (db_windows d) (db_species d)
    (db_sensors d) (db_readings d) v (db_event_store d) (db_snapshots d) (db_journal_refs d)
    (db_notifications d) (db_notification_refs d) (db_outbox d) (db_idempotency d)
    (db_processed_events d) (db_saga_intents d) (db_saga_states d) (db_saga_log d).
Definition set_event_store (d : Database) (v : list EventStoreModel) : Database :=
  mkDatabase (db_households d) (db_plants d) (db_care_schedules d) (db_windows d) (db_species d)
    (db_sensors d) (db_readings d) (db_journal_entries d) v (db_snapshots d) (db_journal_refs d)
    (db_notifications d) (db_notification_refs d) (db_outbox d) (db_idempotency d)
    (db_processed_events d) (db_saga_intents d) (db_saga_states d) (db_saga_log d).
Definition set_snapshots (d : Database) (v : gmap (uuid * Z) JournalSnapshotModel) : Database :=
  mkDatabase (db_households d) (db_plants d) (db_care_schedules d) (db_windows d) (db_species d)
    (db_sensors d) (db_readings d) (db_journal_entries d) (db_event_store d) v (db_journal_refs
    d) (db_notifications d) (db_notification_refs d) (db_outbox d) (db_idempotency d)
    (db_processed_events d) (db_saga_intents d) (db_saga_states d) (db_saga_log d).
Definition set_journal_refs (d : Database) (v : gmap uuid PlantReference) : Database :=
  mkDatabase (db_households d) (db_plants d) (db_care_schedules d) (db_windows d) (db_species d)
    (db_sensors d) (db_readings d) (db_journal_entries d) (db_event_store d) (db_snapshots d) v
    (db_notifications d) (db_notification_refs d) (db_outbox d) (db_idempotency d)
    (db_processed_events d) (db_saga_intents d) (db_saga_states d) (db_saga_log d).
Definition set_notifications (d : Database) (v : gmap uuid NotificationModel) : Database :=
  mkDatabase (db_households d) (db_plants d) (db_care_schedules d) (db_windows d) (db_species d)
    (db_sensors d) (db_readings d) (db_journal_entries d) (db_event_store d) (db_snapshots d)
    (db_journal_refs d) v (db_notification_refs d) (db_outbox d) (db_idempotency d)
    (db_processed_events d) (db_saga_intents d) (db_saga_states d) (db_saga_log d).
Definition set_notification_refs (d : Database) (v : gmap uuid PlantReference) : Database :=
  mkDatabase (db_households d) (db_plants d) (db_care_schedules d) (db_windows d) (db_species d)
    (db_sensors d) (db_readings d) (db_journal_entries d) (db_event_store d) (db_snapshots d)
    (db_journal_refs d) (db_notifications d) v (db_outbox d) (db_idempotency d)
    (db_processed_events d) (db_saga_intents d) (db_saga_states d) (db_saga_log d).
Definition set_outbox (d : Database) (v : list OutboxModel) : Database :=
  mkDatabase (db_households d) (db_plants d) (db_care_schedules d) (db_windows d) (db_species d)
    (db_sensors d) (db_readings d) (db_journal_entries d) (db_event_store d) (db_snapshots d)
    (db_journal_refs d) (db_notifications d) (db_notification_refs d) v (db_idempotency d)
    (db_processed_events d) (db_saga_intents d) (db_saga_states d) (db_saga_log d).
Definition set_idempotency (d : Database) (v : gmap string IdempotencyRecord) : Database :=
  mkDatabase (db_households d) (db_plants d) (db_care_schedules d) (db_windows d) (db_species d)
    (db_sensors d) (db_readings d) (db_journal_entries d) (db_event_store d) (db_snapshots d)
    (db_journal_refs d) (db_notifications d) (db_notification_refs d) (db_outbox d) v
    (db_processed_events d) (db_saga_intents d) (db_saga_states d) (db_saga_log d).
Definition set_processed_events (d : Database) (v : gset (string * uuid)) : Database :=
  mkDatabase (db_households d) (db_plants d) (db_care_schedules d) (db_windows d) (db_species d)
    (db_sensors d) (db_readings d) (db_journal_entries d) (db_event_store d) (db_snapshots d)
    (db_journal_refs d) (db_notifications d) (db_notification_refs d) (db_outbox d)
    (db_idempotency d) v (db_saga_intents d) (db_saga_states d) (db_saga_log d).
Definition set_saga_intents (d : Database) (v : list SagaIntentModel) : Database :=
  mkDatabase (db_households d) (db_plants d) (db_care_schedules d) (db_windows d) (db_species d)
    (db_sensors d) (db_readings d) (db_journal_entries d) (db_event_store d) (db_snapshots d)
    (db_journal_refs d) (db_notifications d) (db_notification_refs d) (db_outbox d)
    (db_idempotency d) (db_processed_events d) v (db_saga_states d) (db_saga_log d).
Definition set_saga_states (d : Database) (v : gmap uuid SagaStateModel) : Database :=
  mkDatabase (db_households d) (db_plants d) (db_care_schedules d) (db_windows d) (db_species d)
    (db_sensors d) (db_readings d) (db_journal_entries d) (db_event_store d) (db_snapshots d)
    (db_journal_refs d) (db_notifications d) (db_notification_refs d) (db_outbox d)
    (db_idempotency d) (db_processed_events d) (db_saga_intents d) v (db_saga_log d).
Definition set_saga_log (d : Database) (v : list SagaLogModel) : Database :=
  mkDatabase (db_households d) (db_plants d) (db_care_schedules d) (db_windows d) (db_species d)
    (db_sensors d) (db_readings d) (db_journal_entries d) (db_event_store d) (db_snapshots d)
    (db_journal_refs d) (db_notifications d) (db_notification_refs d) (db_outbox d)
    (db_idempotency d) (db_processed_events d) (db_saga_intents d) (db_saga_states d) v.

(** ** Sessions *)

(** A staged statement: [None] is a violated constraint. *)
Abbreviation statement := (Database → option Database) (only parsing).

(** What an aggregate is tracked under: the object's identity.  A transaction loads or
    builds one object per aggregate, so the class and the identifier name it; [EStale]
    stands for the objects a rolled-back transaction left in the tracker, which no later
    transaction of the same unit of work loads again, and [EReloadedSchedule] for the
    second object the missed-care tick loads of a schedule it has already saved, and
    [ELoaded] for the objects a loop loads, one per turn. *)
Inductive entity_class :=
  | EHousehold | EPlant | ECareSchedule | ESpecies | ESensor | EJournalEntry | ENotification
  | EReloadedSchedule | ELoaded (n : nat) | EStale.
Abbreviation entity_ref := (entity_class * uuid)%type (only parsing).

#[export] Instance entity_class_eq_dec : EqDecision entity_class.
Proof. solve_decision. Defined.

Record Session := mkSession {
  ss_base : Database;
  ss_view : Database;
  ss_writes : list statement;
  ss_conflict : bool;
  ss_tracked : list (entity_ref * list DomainEvent);
  ss_committed : bool;
  ss_context : option MessageContext;
  ss_others : Database → Database }.

(** A fresh session.  [others] is what other transactions commit between this one's
    first read and its commit; [id] when nothing interferes. *)
Definition open_session (d : Database) (ctx : option MessageContext)
    (others : Database → Database) : Session :=
  mkSession d d [] false [] false ctx others.

Definition tx (A : Type) : Type := Session → result A * Session.

#[export] Instance tx_ret : MRet tx := fun A a s => (Ok a, s).
#[export] Instance tx_bind : MBind tx := fun A B f m s =>
  match m s with
  | (Ok a, s') => f a s'
  | (Raise e, s') => (Raise e, s')
  end.

Definition tx_lift {A} (r : result A) : tx A := fun s => (r, s).
Definition tx_raise {A} (e : exn) : tx A := fun s => (Raise e, s).

(** [try: m except <caught>: h]. *)
Definition tx_except {A} (m : tx A) (caught : exn → bool) (h : exn → tx A) : tx A := fun s =>
  match m s with
  | (Raise e, s') => if caught e then h e s' else (Raise e, s')
  | r => r
  end.

(** A query: pending inserts are flushed first, and a violated key surfaces here. *)
Definition query {A} (f : Database → A) : tx A := fun s =>
  if ss_conflict s then (Raise IntegrityError, s) else (Ok (f (ss_view s)), s).

(** Staging a statement. *)
Definition execute (w : statement) : tx unit := fun s =>
  match w (ss_view s) with
  | Some v => (Ok tt, mkSession (ss_base s) v (ss_writes s ++ [w]) (ss_conflict s)
      (ss_tracked s) (ss_committed s) (ss_context s) (ss_others s))
  | None => (Ok tt, mkSession (ss_base s) (ss_view s) (ss_writes s ++ [w]) true
      (ss_tracked s) (ss_committed s) (ss_context s) (ss_others s))
  end.

Definition flush : tx unit := query (λ _, tt).

(** [AggregateTracker.track]: register an object once; the tracker holds a reference,
    so a later registration of the same object sees its events of then. *)
Fixpoint track_in (r : entity_ref) (es : list DomainEvent)
    (l : list (entity_ref * list DomainEvent)) : list (entity_ref * list DomainEvent) :=
  match l with
  | [] => [(r, es)]
  | (r', es') :: l => if decide (r = r') then (r, es) :: l else (r', es') :: track_in r es l
  end.

Definition track (r : entity_ref) (es : list DomainEvent) : tx unit := fun s =>
  (Ok tt, mkSession (ss_base s) (ss_view s) (ss_writes s) (ss_conflict s)
    (track_in r es (ss_tracked s)) (ss_committed s) (ss_context s) (ss_others s)).

(** [AggregateTracker.collect_events]: the events in touch order; the tracker is cleared. *)
Definition collect_tracked : tx (list DomainEvent) := fun s =>
  (Ok (concat (ss_tracked s).*2),
   mkSession (ss_base s) (ss_view s) (ss_writes s) (ss_conflict s) [] (ss_committed s)
     (ss_context s) (ss_others s)).

(** ** The outbox insert and the unit of work *)

Definition set_ob_id (row : OutboxModel) (id : Z) : OutboxModel :=
  mkOutboxModel id (ob_event_id row) (ob_event_name row) (ob_topic row)
    (ob_partition_key row) (ob_payload row) (ob_occurred_at row) (ob_created_at row)
    (ob_published_at row) (ob_dead_lettered_at row) (ob_attempts row) (ob_last_error row)
    (ob_schema_version row) (ob_raised_by row) (ob_correlation_id row) (ob_causation_id row)
    (ob_traceparent row) (ob_claimed_at row).

(** The next value of the identity column; rows are never deleted. *)
Definition next_outbox_id (d : Database) : Z := (1 + Z.of_nat (length (db_outbox d)))%Z.

(** [INSERT INTO outbox]: [event_id] is unique. *)
Definition insert_outbox (row : OutboxModel) : statement := fun d =>
  if decide (ob_event_id row ∈ ob_event_id <$> db_outbox d) then None
  else Some (set_outbox d (db_outbox d ++ [set_ob_id row (next_outbox_id d)])).

Definition outbox_append (e : DomainEvent) : tx unit := fun s =>
  match outbox_model_from_event e (ss_context s) 0 with
  | Ok row => execute (insert_outbox row) s
  | Raise x => (Raise x, s)
  end.

Fixpoint tx_iter {A} (f : A → tx unit) (l : list A) : tx unit :=
  match l with
  | [] => mret tt
  | a :: l => _ ← f a; tx_iter f l
  end.

Definition replay_writes (ws : list statement) (d : Database) : option Database :=
  foldl (λ acc w, acc ≫= w) (Some d) ws.

Arguments replay_writes : simpl never.

(** [rollback]: the statements are forgotten, the tracker is not. *)
Definition stale_tracked (l : list (entity_ref * list DomainEvent)) :
    list (entity_ref * list DomainEvent) :=
  match l with
  | [] => []
  | _ => [((EStale, 0%N), concat l.*2)]
  end.

Definition uow_rollback : tx unit := fun s =>
  (Ok tt, mkSession (ss_base s) (ss_base s) [] false (stale_tracked (ss_tracked s)) false
    (ss_context s) (ss_others s)).

(** [session.commit]: the staged statements against what is committed by now. *)
Definition session_commit : tx unit := fun s =>
  let current := ss_others s (ss_base s) in
  match replay_writes (ss_writes s) current with
  | Some d => (Ok tt, mkSession d d [] false (ss_tracked s) true (ss_context s) id)
  | None => (Raise ConcurrentWriteError,
      mkSession current current [] false (ss_tracked s) (ss_committed s) (ss_context s) id)
  end.

Definition uow_commit : tx unit :=
  events ← collect_tracked;
  _ ← tx_iter outbox_append events;
  session_commit.

(** [async with uow]: enter, run the body, roll back unless it committed. *)
Definition uow_enter (s : Session) : Session :=
  mkSession (ss_base s) (ss_view s) (ss_writes s) (ss_conflict s) (ss_tracked s) false
    (ss_context s) (ss_others s).

Definition with_uow {A} (m : tx A) : tx A := fun s =>
  match m (uow_enter s) with
  | (Ok a, s1) => if ss_committed s1 then (Ok a, s1) else (Ok a, (uow_rollback s1).2)
  | (Raise e, s1) => (Raise e, (uow_rollback s1).2)
  end.

(** One request on a database: its answer and the rows committed when it is over. *)
Definition run_request {A} (m : tx A) (d : Database) : result A * Database :=
  let '(r, s) := m (open_session d None id) in (r, ss_base s).

(** One transaction on a database under a binding: its answer and the rows when it is over. *)
Definition run_bound {A} (ctx : option MessageContext) (m : tx A) (d : Database) :
    result A * Database :=
  let '(r, s) := m (open_session d ctx id) in (r, ss_base s).

(** ** Rows by key *)

(** [INSERT] with a primary key. *)
Definition insert_row {K V} `{Countable K} (get : Database → gmap K V)
    (put : Database → gmap K V → Database) (k : K) (v : V) : statement := fun d =>
  match get d !! k with
  | Some _ => None
  | None => Some (put d (<[k := v]> (get d)))
  end.

(** [session.merge]: insert or overwrite by primary key. *)
Definition merge_row {K V} `{Countable K} (get : Database → gmap K V)
    (put : Database → gmap K V → Database) (k : K) (v : V) : statement := fun d =>
  Some (put d (<[k := v]> (get d))).

Definition delete_row {K V} `{Countable K} (get : Database → gmap K V)
    (put : Database → gmap K V → Database) (k : K) : statement := fun d =>
  Some (put d (delete k (get d))).

(** The rows of a table that pass a test, in the order of a key. *)
Definition select_rows {K V} `{Countable K} (t : gmap K V) (P : V → bool)
    (key : V → Z * Z) : list V :=
  merge_sort (λ a b, lex_le (key a) (key b)) (filter (λ v, P v = true) (map_to_list t).*2).

Definition mapM_result {A B} (f : A → result B) : list A → result (list B) :=
  fix go l := match l with
  | [] => Ok []
  | a :: l => b ← f a; bs ← go l; Ok (b :: bs)
  end.

Definition opt_to_domain {M A} (f : M → result A) (row : option M) : result (option A) :=
  match row with
  | None => Ok None
  | Some m => Some <$> f m
  end.
