(* ===== verification/UnitOfWork.v ===== *)
(** What a transaction guarantees, whatever its body does: the interface [Staging]
    between the unit of work and the code that runs inside it, its instances for the
    primitives of a session, and the atomicity of the transactional outbox
    ([infrastructure/persistence/uow.py], [tracking.py]). *)

From S2P Require Import Prelude Domain Topics Rows Database.

(** ** The interface

    A computation stages when it only reads, stages statements and tracks aggregates:
    it neither commits nor rolls back, and the statements it adds satisfy [P].  The
    client's part of a transaction is proved against this class; each repository
    operation discharges it. *)
Definition stmt_pred := statement → Prop.

(** The frame every repository write of the modelled code respects: idempotency keys
    are written by [remember] alone and outbox rows are appended by [append] alone. *)
Class domain_write (w : statement) : Prop := domain_write_frame :
  ∀ d d', w d = Some d' →
    db_idempotency d' = db_idempotency d ∧ db_outbox d' = db_outbox d.

Record stages_to (P : stmt_pred) (s s' : Session) : Prop := mkStagesTo {
  st_base : ss_base s' = ss_base s;
  st_committed : ss_committed s' = ss_committed s;
  st_context : ss_context s' = ss_context s;
  st_others : ss_others s' = ss_others s;
  st_writes : ∃ ws, ss_writes s' = ss_writes s ++ ws ∧ Forall P ws }.

Class Staging (P : stmt_pred) {A} (m : tx A) : Prop :=
  staging : ∀ s, stages_to P s (m s).2.

(** The view is the base with the staged statements on top, unless one of them failed. *)
Definition coherent (s : Session) : Prop :=
  replay_writes (ss_writes s) (ss_base s) =
  if ss_conflict s then None else Some (ss_view s).

(** The statements [uow_commit] adds for the drained events. *)
Definition outbox_statements (ctx : option MessageContext) (es : list DomainEvent) :
    list statement :=
  omap (λ e, match outbox_model_from_event e ctx 0 with
             | Ok row => Some (insert_outbox row)
             | Raise _ => None
             end) es.

Arguments outbox_statements : simpl never.

Definition tracked_events (s : Session) : list DomainEvent := concat (ss_tracked s).*2.

(** The events a transaction published, read back from the outbox. *)
Definition published (d : Database) : list DomainEvent := ob_payload <$> db_outbox d.

(** A handler in the shape of the code: open the unit of work, run the body, commit. *)
Definition transaction {A} (m : tx A) : tx A :=
  with_uow (v ← m; _ ← uow_commit; mret v).

(** ** Lemmas *)

Lemma replay_writes_app ws1 ws2 d :
  replay_writes (ws1 ++ ws2) d = replay_writes ws1 d ≫= replay_writes ws2.
Proof.
  unfold replay_writes. rewrite foldl_app. generalize (foldl (λ acc w, acc ≫= w) (Some d) ws1).
  intros [d'|]; [done|]. cbn. induction ws2 as [|w ws2 IH]; [done|]. apply IH.
Qed.

Lemma replay_writes_cons w ws d :
  replay_writes (w :: ws) d = w d ≫= replay_writes ws.
Proof. exact (replay_writes_app [w] ws d). Qed.

#[export] Instance stages_to_preorder P : PreOrder (stages_to P).
Proof.
  split.
  - intros s. split; try done. exists []. by rewrite app_nil_r.
  - intros s1 s2 s3 [? ? ? ? (w1 & E1 & H1)] [? ? ? ? (w2 & E2 & H2)].
    split; try congruence. exists (w1 ++ w2). rewrite E2, E1, app_assoc.
    split; [done|]. by apply Forall_app.
Qed.

#[export] Instance staging_ret P {A} (a : A) : Staging P (mret a : tx A).
Proof. intros s. cbn. reflexivity. Qed.
#[export] Instance staging_lift P {A} (r : result A) : Staging P (tx_lift r).
Proof. intros s. cbn. reflexivity. Qed.
#[export] Instance staging_raise P {A} e : Staging P (tx_raise e : tx A).
Proof. intros s. cbn. reflexivity. Qed.

#[export] Instance staging_bind P {A B} (m : tx A) (f : A → tx B) :
  Staging P m → (∀ a, Staging P (f a)) → Staging P (m ≫= f).
Proof.
  intros Hm Hf s. unfold mbind, tx_bind. specialize (Hm s).
  destruct (m s) as [[a|e] s']; cbn in *; [|done]. etrans; [exact Hm|]. apply Hf.
Qed.

#[export] Instance staging_query P {A} (f : Database → A) : Staging P (query f).
Proof. intros s. unfold query. case_match; cbn; reflexivity. Qed.

#[export] Instance staging_track P r es : Staging P (track r es).
Proof. intros s. split; try done. exists []. by rewrite app_nil_r. Qed.

Lemma staging_execute (P : stmt_pred) w : P w → Staging P (execute w).
Proof.
  intros Hw s. unfold execute. case_match; split; try done; cbn; exists [w];
    (split; [done|by constructor]).
Qed.

#[export] Instance staging_domain_write w :
  domain_write w → Staging domain_write (execute w).
Proof. apply staging_execute. Qed.

#[export] Instance staging_except P {A} (m : tx A) c h :
  Staging P m → (∀ e, Staging P (h e)) → Staging P (tx_except m c h).
Proof.
  intros Hm Hh s. unfold tx_except. specialize (Hm s).
  destruct (m s) as [[a|e] s']; cbn in *; [done|]. case_match; [|done].
  etrans; [exact Hm|]. apply Hh.
Qed.

#[export] Instance staging_iter P {A} (f : A → tx unit) l :
  (∀ a, Staging P (f a)) → Staging P (tx_iter f l).
Proof. intros Hf. induction l; cbn; apply _. Qed.

#[export] Instance staging_match_option P {A B} (o : option A) (m : tx B) (f : A → tx B) :
  Staging P m → (∀ a, Staging P (f a)) →
  Staging P (match o with None => m | Some a => f a end).
Proof. destruct o; auto. Qed.

#[export] Instance staging_if P {B} (b : bool) (m n : tx B) :
  Staging P m → Staging P n → Staging P (if b then m else n).
Proof. destruct b; auto. Qed.

#[export] Instance staging_pair P {A B C} (p : A * B) (f : A → B → tx C) :
  (∀ a b, Staging P (f a b)) → Staging P (let '(a, b) := p in f a b).
Proof. destruct p; auto. Qed.

Lemma staging_mono (P Q : stmt_pred) {A} (m : tx A) :
  (∀ w, P w → Q w) → Staging P m → Staging Q m.
Proof.
  intros HPQ Hm s. destruct (Hm s) as [? ? ? ? (ws & ? & ?)]. split; try done.
  exists ws. split; [done|]. by eapply Forall_impl.
Qed.

(** The interface without a frame: bodies that append to the outbox themselves. *)
Definition any_write : stmt_pred := λ _, True.
#[export] Instance staging_any w : Staging any_write (execute w).
Proof. by apply staging_execute. Qed.

(** Tables whose replacement leaves the shared tables alone, and the row statements. *)
Class DomainTable {T} (put : Database → T → Database) : Prop :=
  domain_table : ∀ d v, db_idempotency (put d v) = db_idempotency d ∧
    db_outbox (put d v) = db_outbox d.

#[export] Instance domain_households : DomainTable set_households. Proof. by intros d v. Qed.
#[export] Instance domain_plants : DomainTable set_plants. Proof. by intros d v. Qed.
#[export] Instance domain_schedules : DomainTable set_care_schedules. Proof. by intros d v. Qed.
#[export] Instance domain_windows : DomainTable set_windows. Proof. by intros d v. Qed.
#[export] Instance domain_species : DomainTable set_species. Proof. by intros d v. Qed.
#[export] Instance domain_sensors : DomainTable set_sensors. Proof. by intros d v. Qed.
#[export] Instance domain_readings : DomainTable set_readings. Proof. by intros d v. Qed.
#[export] Instance domain_entries : DomainTable set_journal_entries. Proof. by intros d v. Qed.
#[export] Instance domain_events : DomainTable set_event_store. Proof. by intros d v. Qed.
#[export] Instance domain_snapshots : DomainTable set_snapshots. Proof. by intros d v. Qed.
#[export] Instance domain_jrefs : DomainTable set_journal_refs. Proof. by intros d v. Qed.
#[export] Instance domain_notifications : DomainTable set_notifications.
Proof. by intros d v. Qed.
#[export] Instance domain_nrefs : DomainTable set_notification_refs. Proof. by intros d v. Qed.
#[export] Instance domain_processed : DomainTable set_processed_events.
Proof. by intros d v. Qed.

#[export] Instance domain_intents : DomainTable set_saga_intents. Proof. by intros d v. Qed.
#[export] Instance domain_sagas : DomainTable set_saga_states. Proof. by intros d v. Qed.
#[export] Instance domain_saga_log : DomainTable set_saga_log. Proof. by intros d v. Qed.

#[export] Instance insert_row_domain {K V} `{Countable K} (get : Database → gmap K V) put k v :
  DomainTable put → domain_write (insert_row get put k v).
Proof. intros Hp d d'. unfold insert_row. case_match; [done|]. intros [= <-]. apply Hp. Qed.
#[export] Instance merge_row_domain {K V} `{Countable K} (get : Database → gmap K V) put k v :
  DomainTable put → domain_write (merge_row get put k v).
Proof. intros Hp d d' [= <-]. apply Hp. Qed.
#[export] Instance delete_row_domain {K V} `{Countable K} (get : Database → gmap K V) put k :
  DomainTable put → domain_write (delete_row get put k).
Proof. intros Hp d d' [= <-]. apply Hp. Qed.
#[export] Instance put_domain {T} (put : Database → T → Database) f :
  DomainTable put → domain_write (λ d, Some (put d (f d))).
Proof. intros Hp d d' [= <-]. apply Hp. Qed.

(** Every primitive of a staging computation keeps the session coherent. *)
Class Coherent {A} (m : tx A) : Prop :=
  coherence : ∀ s, coherent s → coherent (m s).2.

#[export] Instance coherent_ret {A} (a : A) : Coherent (mret a : tx A).
Proof. by intros s. Qed.
#[export] Instance coherent_lift {A} (r : result A) : Coherent (tx_lift r).
Proof. by intros s. Qed.
#[export] Instance coherent_raise {A} e : Coherent (tx_raise e : tx A).
Proof. by intros s. Qed.
#[export] Instance coherent_bind {A B} (m : tx A) (f : A → tx B) :
  Coherent m → (∀ a, Coherent (f a)) → Coherent (m ≫= f).
Proof.
  intros Hm Hf s Hs. unfold mbind, tx_bind. specialize (Hm s Hs).
  destruct (m s) as [[a|e] s']; cbn in *; [|done]. by apply Hf.
Qed.
#[export] Instance coherent_query {A} (f : Database → A) : Coherent (query f).
Proof. intros s Hs. unfold query. by case_match. Qed.
#[export] Instance coherent_track r es : Coherent (track r es).
Proof. by intros s. Qed.
#[export] Instance coherent_execute w : Coherent (execute w).
Proof.
  intros s Hs. unfold coherent in *. unfold execute.
  destruct (w (ss_view s)) eqn:E; cbn; rewrite replay_writes_app, Hs;
    destruct (ss_conflict s); cbn; by rewrite ?E.
Qed.
#[export] Instance coherent_except {A} (m : tx A) c h :
  Coherent m → (∀ e, Coherent (h e)) → Coherent (tx_except m c h).
Proof.
  intros Hm Hh s Hs. unfold tx_except. specialize (Hm s Hs).
  destruct (m s) as [[a|e] s']; cbn in *; [done|]. case_match; [by apply Hh|done].
Qed.
#[export] Instance coherent_iter {A} (f : A → tx unit) l :
  (∀ a, Coherent (f a)) → Coherent (tx_iter f l).
Proof. intros Hf. induction l; cbn; apply _. Qed.
#[export] Instance coherent_match_option {A B} (o : option A) (m : tx B) (f : A → tx B) :
  Coherent m → (∀ a, Coherent (f a)) →
  Coherent (match o with None => m | Some a => f a end).
Proof. destruct o; auto. Qed.
#[export] Instance coherent_if {B} (b : bool) (m n : tx B) :
  Coherent m → Coherent n → Coherent (if b then m else n).
Proof. destruct b; auto. Qed.

#[export] Instance coherent_pair {A B C} (p : A * B) (f : A → B → tx C) :
  (∀ a b, Coherent (f a b)) → Coherent (let '(a, b) := p in f a b).
Proof. destruct p; auto. Qed.

(** What a rolled-back transaction left in the tracker stays at its front, and no
    computation of a later transaction looks at it. *)
Definition with_stale (es : list DomainEvent) (s : Session) : Session :=
  mkSession (ss_base s) (ss_view s) (ss_writes s) (ss_conflict s)
    (((EStale, 0%N), es) :: ss_tracked s) (ss_committed s) (ss_context s) (ss_others s).

Class Blind {A} (m : tx A) : Prop := blindness : ∀ es s,
  m (with_stale es s) = ((m s).1, with_stale es (m s).2).

(** A reference to an object of the current transaction. *)
Class Live (r : entity_ref) : Prop := live : r.1 ≠ EStale.
#[export] Hint Extern 0 (Live _) => (unfold Live; discriminate) : typeclass_instances.

#[export] Instance blind_ret {A} (a : A) : Blind (mret a : tx A).
Proof. by intros es s. Qed.
#[export] Instance blind_lift {A} (r : result A) : Blind (tx_lift r).
Proof. by intros es s. Qed.
#[export] Instance blind_raise {A} e : Blind (tx_raise e : tx A).
Proof. by intros es s. Qed.
#[export] Instance blind_bind {A B} (m : tx A) (f : A → tx B) :
  Blind m → (∀ a, Blind (f a)) → Blind (m ≫= f).
Proof.
  intros Hm Hf es s. unfold mbind, tx_bind. rewrite (Hm es s).
  destruct (m s) as [[a|e] s']; cbn; [apply Hf|done].
Qed.
#[export] Instance blind_query {A} (f : Database → A) : Blind (query f).
Proof. intros es s. unfold query. cbn. by case_match. Qed.
#[export] Instance blind_track r es : Live r → Blind (track r es).
Proof. intros Hr es' s. unfold track, with_stale; cbn. rewrite decide_False; [done|].
  intros ->. by apply Hr. Qed.
#[export] Instance blind_execute w : Blind (execute w).
Proof. intros es s. unfold execute. cbn. by case_match. Qed.
#[export] Instance blind_except {A} (m : tx A) c h :
  Blind m → (∀ e, Blind (h e)) → Blind (tx_except m c h).
Proof.
  intros Hm Hh es s. unfold tx_except. rewrite (Hm es s).
  destruct (m s) as [[a|e] s']; cbn; [done|]. case_match; [apply Hh|done].
Qed.
#[export] Instance blind_iter {A} (f : A → tx unit) l : (∀ a, Blind (f a)) → Blind (tx_iter f l).
Proof. intros Hf. induction l; cbn; apply _. Qed.
#[export] Instance blind_match_option {A B} (o : option A) (m : tx B) (f : A → tx B) :
  Blind m → (∀ a, Blind (f a)) → Blind (match o with None => m | Some a => f a end).
Proof. destruct o; auto. Qed.
#[export] Instance blind_if {B} (b : bool) (m n : tx B) :
  Blind m → Blind n → Blind (if b then m else n).
Proof. destruct b; auto. Qed.

#[export] Instance blind_pair {A B C} (p : A * B) (f : A → B → tx C) :
  (∀ a b, Blind (f a b)) → Blind (let '(a, b) := p in f a b).
Proof. destruct p; auto. Qed.

Lemma open_session_coherent d ctx others : coherent (open_session d ctx others).
Proof. done. Qed.

#[export] Instance outbox_append_staging e : Staging any_write (outbox_append e).
Proof.
  intros s. unfold outbox_append. case_match; [apply (staging_any _ s)|reflexivity].
Qed.
#[export] Instance outbox_append_coherent e : Coherent (outbox_append e).
Proof. intros s Hs. unfold outbox_append. case_match; [by apply coherent_execute|done]. Qed.
#[export] Instance outbox_append_blind e : Blind (outbox_append e).
Proof. intros es s. unfold outbox_append. cbn. case_match; [by apply blind_execute|done]. Qed.

(** *** Running a computation *)

Lemma tx_bind_Ok {A B} (m : tx A) (f : A → tx B) s a s' :
  m s = (Ok a, s') → (m ≫= f) s = f a s'.
Proof. intros H. unfold mbind, tx_bind. by rewrite H. Qed.

Lemma tx_bind_Raise {A B} (m : tx A) (f : A → tx B) s e s' :
  m s = (Raise e, s') → (m ≫= f) s = (Raise e, s').
Proof. intros H. unfold mbind, tx_bind. by rewrite H. Qed.

Lemma with_uow_open {A} (m : tx A) d ctx others :
  with_uow m (open_session d ctx others) =
  match m (open_session d ctx others) with
  | (Ok a, s1) => if ss_committed s1 then (Ok a, s1) else (Ok a, (uow_rollback s1).2)
  | (Raise e, s1) => (Raise e, (uow_rollback s1).2)
  end.
Proof. done. Qed.

(** *** The outbox *)

Lemma outbox_append_writes e s :
  ∃ w, outbox_statements (ss_context s) [e] = [w] ∧ outbox_append e s = execute w s.
Proof.
  destruct (outbox_row_Ok e (ss_context s) 0) as (row & Hr & _).
  unfold outbox_append, outbox_statements; cbn. rewrite Hr. eauto.
Qed.

Lemma execute_writes w s :
  (execute w s).1 = Ok tt ∧ ss_writes (execute w s).2 = ss_writes s ++ [w] ∧
  ss_base (execute w s).2 = ss_base s ∧ ss_context (execute w s).2 = ss_context s ∧
  ss_others (execute w s).2 = ss_others s ∧ ss_committed (execute w s).2 = ss_committed s ∧
  ss_tracked (execute w s).2 = ss_tracked s.
Proof. unfold execute. by case_match. Qed.

Lemma outbox_iter es s :
  ∃ s', tx_iter outbox_append es s = (Ok tt, s') ∧
    ss_writes s' = ss_writes s ++ outbox_statements (ss_context s) es ∧
    ss_base s' = ss_base s ∧ ss_context s' = ss_context s ∧ ss_others s' = ss_others s ∧
    ss_committed s' = ss_committed s ∧ ss_tracked s' = ss_tracked s.
Proof.
  revert s. induction es as [|e es IH]; intros s.
  { exists s. by rewrite app_nil_r. }
  destruct (outbox_append_writes e s) as (w & Hw & He).
  pose proof (execute_writes w s) as (Hok & Hws & Hb & Hc & Ho & Hm & Ht).
  cbn. unfold mbind, tx_bind. rewrite He.
  destruct (execute w s) as [r s1]; cbn in *; subst r.
  destruct (IH s1) as (s' & E & Hws' & Hb' & Hc' & Ho' & Hm' & Ht'). rewrite E.
  exists s'. split; [done|]. rewrite Hws', Hws, Hc, <- app_assoc. split_and!; try congruence.
  f_equal. unfold outbox_statements in *. cbn in *.
  destruct (outbox_model_from_event e _ _); [by injection Hw as ->|done].
Qed.

Lemma insert_outbox_Some row d d' :
  insert_outbox row d = Some d' →
  db_outbox d' = db_outbox d ++ [set_ob_id row (next_outbox_id d)] ∧
  d' = set_outbox d (db_outbox d').
Proof. unfold insert_outbox. case_decide; [done|]. by intros [= <-]. Qed.

(** Staging events publishes exactly them, in order, and nothing else changes. *)
Lemma outbox_statements_published ctx es d d' :
  replay_writes (outbox_statements ctx es) d = Some d' →
  published d' = published d ++ es ∧ d' = set_outbox d (db_outbox d').
Proof.
  revert d. induction es as [|e es IH]; intros d H.
  { injection H as <-. rewrite app_nil_r. by destruct d. }
  destruct (outbox_row_Ok e ctx 0) as (row & Hr & _ & Hp & _).
  unfold outbox_statements in H; cbn in H. rewrite Hr in H.
  rewrite replay_writes_cons in H.
  destruct (insert_outbox row d) as [d1|] eqn:E; [|done].
  apply insert_outbox_Some in E as [Ho Hd]. apply IH in H as [Hp' Hd'].
  rewrite Hp'. unfold published at 1. rewrite Ho, fmap_app. split.
  - unfold published. rewrite <- app_assoc. do 2 f_equal. cbn. by rewrite Hp.
  - rewrite Hd', Hd. by destruct d.
Qed.

(** The identifiers of what was published. *)
Lemma outbox_statements_ids ctx es d d' :
  replay_writes (outbox_statements ctx es) d = Some d' →
  ob_event_id <$> db_outbox d' = (ob_event_id <$> db_outbox d) ++ (event_id <$> es).
Proof.
  revert d. induction es as [|e es IH]; intros d H.
  { injection H as <-. by rewrite app_nil_r. }
  destruct (outbox_row_Ok e ctx 0) as (row & Hr & _ & _ & Hid & _).
  unfold outbox_statements in H; cbn in H. rewrite Hr, replay_writes_cons in H.
  destruct (insert_outbox row d) as [d1|] eqn:E; [|done].
  apply insert_outbox_Some in E as [Ho _]. apply IH in H. rewrite H, Ho, fmap_app, <- app_assoc.
  cbn. by rewrite Hid.
Qed.

(** One event whose identifier is new is always accepted. *)
Lemma outbox_statement_one ctx e d :
  event_id e ∉ ob_event_id <$> db_outbox d →
  ∃ d', replay_writes (outbox_statements ctx [e]) d = Some d' ∧
    published d' = published d ++ [e] ∧ d' = set_outbox d (db_outbox d').
Proof.
  intros Hnew. destruct (outbox_row_Ok e ctx 0) as (row & Hr & _ & _ & Hid & _).
  assert (∃ d', replay_writes (outbox_statements ctx [e]) d = Some d') as [d' Hd'].
  { unfold outbox_statements; cbn. rewrite Hr, replay_writes_cons. unfold insert_outbox.
    rewrite Hid, decide_False by done. by eexists. }
  exists d'. split; [done|]. by apply outbox_statements_published in Hd'.
Qed.

(** Events whose identifiers are new and distinct are all accepted. *)
Lemma outbox_statements_fresh ctx es : ∀ d,
  NoDup (event_id <$> es) →
  (∀ e, e ∈ es → event_id e ∉ ob_event_id <$> db_outbox d) →
  ∃ d', replay_writes (outbox_statements ctx es) d = Some d'.
Proof.
  induction es as [|e es IH]; intros d Hnd Hnew; [by exists d|].
  rewrite fmap_cons, NoDup_cons in Hnd. destruct Hnd as [He Hnd].
  destruct (outbox_row_Ok e ctx 0) as (row & Hr & _ & _ & Hid & _).
  assert (insert_outbox row d =
    Some (set_outbox d (db_outbox d ++ [set_ob_id row (next_outbox_id d)]))) as Hrow.
  { unfold insert_outbox. rewrite decide_False; [done|]. rewrite Hid. apply Hnew. by left. }
  unfold outbox_statements. cbn. rewrite Hr, replay_writes_cons, Hrow. cbn.
  apply IH; [done|]. intros e' He'. cbn. rewrite fmap_app, elem_of_app.
  intros [Hin|Heq%list_elem_of_singleton].
  - apply (Hnew e'); [by right|done].
  - apply He. cbn in Heq. rewrite Hid in Heq. rewrite <- Heq. by apply list_elem_of_fmap_2.
Qed.

(** *** The shape of a committed transaction *)

Lemma uow_commit_run s :
  uow_commit s =
  let current := ss_others s (ss_base s) in
  match replay_writes (ss_writes s ++ outbox_statements (ss_context s) (tracked_events s))
          current with
  | Some d => (Ok tt, mkSession d d [] false [] true (ss_context s) id)
  | None => (Raise ConcurrentWriteError,
      mkSession current current [] false [] (ss_committed s) (ss_context s) id)
  end.
Proof.
  destruct (outbox_iter (tracked_events s) (collect_tracked s).2)
    as (s1 & E & Hw & Hb & Hc & Ho & Hm & Ht).
  unfold uow_commit, mbind, tx_bind. change (collect_tracked s) with
    (Ok (tracked_events s), (collect_tracked s).2). cbn [fst snd] in *. rewrite E.
  unfold session_commit. rewrite Hw, Hb, Hc, Ho, Hm, Ht. cbn. by case_match.
Qed.

(** A transaction whose body stages: what it answers and what is committed after it. *)
Lemma transaction_run P {A} (m : tx A) `{!Staging P m} d ctx others :
  let '(r, s) := m (open_session d ctx others) in
  let '(r', s') := transaction m (open_session d ctx others) in
  match r with
  | Raise e => r' = Raise e ∧ ss_base s' = d
  | Ok v =>
      match replay_writes (ss_writes s ++ outbox_statements ctx (tracked_events s)) (others d) with
      | Some d' => r' = Ok v ∧ ss_base s' = d' ∧ ss_committed s' = true
      | None => r' = Raise ConcurrentWriteError ∧ ss_base s' = others d
      end
  end.
Proof.
  unfold transaction, with_uow.
  change (uow_enter (open_session d ctx others)) with (open_session d ctx others).
  pose proof (staging (P := P) (m := m) (open_session d ctx others)) as [Hb Hc Hx Ho _].
  unfold mbind, tx_bind. destruct (m (open_session d ctx others)) as [[v|e] s]; cbn in *;
    [|by rewrite Hb].
  rewrite uow_commit_run, Hx, Ho, Hb, Hc. cbn. by destruct (replay_writes _ _).
Qed.

Lemma run_transaction P {A} (m : tx A) `{!Staging P m} d :
  run_request (transaction m) d =
  let '(r, s) := m (open_session d None id) in
  match r with
  | Raise e => (Raise e, d)
  | Ok v =>
      match replay_writes (ss_writes s ++ outbox_statements None (tracked_events s)) d with
      | Some d' => (Ok v, d')
      | None => (Raise ConcurrentWriteError, d)
      end
  end.
Proof.
  unfold run_request. pose proof (transaction_run P m d None id) as H.
  destruct (m (open_session d None id)) as [r s].
  destruct (transaction m (open_session d None id)) as [r' s'].
  destruct r as [v|e]; [|by destruct H as [-> ->]].
  cbn in H. destruct (replay_writes _ d); destruct H as (-> & Hb); [by destruct Hb as [-> _]|].
  by rewrite Hb.
Qed.

(** The same for a body with no frame, when it answers: the view it built is committed,
    followed by the events of its tracked aggregates. *)
Lemma transaction_any {A} (m : tx A) d :
  Staging any_write m → Coherent m →
  (∃ x, run_request (transaction m) d = (Raise x, d)) ∨
  ∃ v s, m (open_session d None id) = (Ok v, s) ∧ ss_conflict s = false ∧
    replay_writes (outbox_statements None (tracked_events s)) (ss_view s) =
      Some (run_request (transaction m) d).2 ∧
    (run_request (transaction m) d).1 = Ok v.
Proof.
  intros Hst Hco. rewrite (run_transaction any_write m d).
  pose proof (coherence (m := m) (open_session d None id) (open_session_coherent _ _ _)) as Hs.
  pose proof (staging (P := any_write) (m := m) (open_session d None id)) as [Hb _ _ _ _].
  destruct (m (open_session d None id)) as [[v|e] s] eqn:E; [|by left; eexists].
  cbn in Hs, Hb. unfold coherent in Hs. rewrite Hb in Hs. rewrite replay_writes_app, Hs.
  destruct (ss_conflict s) eqn:Ec; [by left; eexists|]. cbn.
  destruct (replay_writes (outbox_statements None (tracked_events s)) (ss_view s)) eqn:Er;
    [|by left; eexists].
  right. exists v, s. by rewrite Ec, Er.
Qed.

(** A transaction that tracks no aggregate commits its body's view and publishes nothing
    of its own. *)
Lemma run_quiet {A} (m : tx A) d v s :
  Staging any_write m → Coherent m → m (open_session d None id) = (Ok v, s) →
  ss_tracked s = [] →
  run_request (transaction m) d =
  if ss_conflict s then (Raise ConcurrentWriteError, d) else (Ok v, ss_view s).
Proof.
  intros Hst Hco Hm Ht. rewrite (run_transaction any_write m d), Hm.
  pose proof (coherence (m := m) (open_session d None id) (open_session_coherent _ _ _)) as Hs.
  pose proof (staging (P := any_write) (m := m) (open_session d None id)) as [Hb _ _ _ _].
  rewrite Hm in Hs, Hb. cbn in Hs, Hb. unfold coherent in Hs. rewrite Hb in Hs.
  unfold tracked_events. rewrite Ht. cbn [concat fmap list_fmap].
  change (outbox_statements None []) with ([] : list statement). rewrite app_nil_r, Hs.
  by destruct (ss_conflict s).
Qed.

Lemma replay_domain_writes ws d d' :
  Forall domain_write ws → replay_writes ws d = Some d' →
  db_idempotency d' = db_idempotency d ∧ db_outbox d' = db_outbox d.
Proof.
  intros Hws. revert d. induction Hws as [|w ws Hw Hws IH]; intros d H.
  { by injection H as <-. }
  rewrite replay_writes_cons in H. destruct (w d) as [d1|] eqn:E; [|done].
  apply Hw in E as [? ?]. apply IH in H as [? ?]. split; congruence.
Qed.

(** *** Inverting a computation that answered *)

Lemma tx_bind_inv {A B} (m : tx A) (f : A → tx B) s b s2 :
  (m ≫= f) s = (Ok b, s2) → ∃ a s1, m s = (Ok a, s1) ∧ f a s1 = (Ok b, s2).
Proof.
  unfold mbind, tx_bind. destruct (m s) as [[a|e] s1]; [|done]. by exists a, s1.
Qed.

Lemma tx_ret_inv {A} (a b : A) s s' : (mret a : tx A) s = (Ok b, s') → b = a ∧ s' = s.
Proof. by intros [= -> ->]. Qed.

Lemma tx_lift_inv {A} (r : result A) s a s' : tx_lift r s = (Ok a, s') → r = Ok a ∧ s' = s.
Proof. by intros [= -> ->]. Qed.

Lemma query_inv {A} (f : Database → A) s a s' :
  query f s = (Ok a, s') → a = f (ss_view s) ∧ s' = s ∧ ss_conflict s = false.
Proof. unfold query. case_match; [done|]. by intros [= -> ->]. Qed.

(** A staged statement either shows in the view or spoils the session. *)
Lemma execute_inv w s u s' :
  execute w s = (Ok u, s') →
  ss_tracked s' = ss_tracked s ∧
  (ss_conflict s' = false → ss_conflict s = false ∧ w (ss_view s) = Some (ss_view s')).
Proof. unfold execute. case_match; intros [= _ <-]; by cbn. Qed.

Lemma track_inv r es s u s' :
  track r es s = (Ok u, s') →
  ss_view s' = ss_view s ∧ ss_conflict s' = ss_conflict s ∧
  ss_tracked s' = track_in r es (ss_tracked s).
Proof. by intros [= _ <-]. Qed.

(** A write and the tracking of its aggregate, the shape of every [add] and [save]. *)
Lemma execute_track_inv w r es s u s' :
  (_ ← execute w; track r es) s = (Ok u, s') → ss_conflict s' = false →
  ss_conflict s = false ∧ w (ss_view s) = Some (ss_view s') ∧
  ss_tracked s' = track_in r es (ss_tracked s).
Proof.
  intros (? & s1 & He & Ht)%tx_bind_inv Hc.
  apply execute_inv in He as [Htr Hw]. apply track_inv in Ht as (-> & Hc' & ->).
  rewrite Hc' in Hc. destruct (Hw Hc) as [? ?]. by rewrite Htr.
Qed.

(** The same, run forward. *)
Lemma execute_track_run w r es s :
  ∃ s', (_ ← execute w; track r es) s = (Ok tt, s') ∧ ss_writes s' = ss_writes s ++ [w] ∧
    ss_base s' = ss_base s ∧ ss_context s' = ss_context s ∧ ss_others s' = ss_others s ∧
    ss_committed s' = ss_committed s ∧ ss_tracked s' = track_in r es (ss_tracked s).
Proof. unfold mbind, tx_bind, execute. destruct (w (ss_view s)); eexists; split_and!; reflexivity. Qed.

Lemma track_in_empty r l :
  Forall (λ t : entity_ref * list DomainEvent, t.2 = []) l →
  Forall (λ t, t.2 = []) (track_in r [] l).
Proof.
  induction 1 as [|[r' es] l Hr Hl IH]; cbn; [by constructor|].
  case_decide; by constructor.
Qed.

(** Invert a computation that answered, step by step. *)
Ltac tx_inv :=
  repeat match goal with
  | H : mbind _ _ _ = (Ok _, _) |- _ => apply tx_bind_inv in H as (? & ? & ? & H)
  | H : mret _ _ = (Ok _, _) |- _ => apply tx_ret_inv in H as [? ?]; subst
  | H : tx_lift _ _ = (Ok _, _) |- _ => apply tx_lift_inv in H as [? ?]; subst
  | H : query _ _ = (Ok _, _) |- _ => apply query_inv in H as (? & ? & ?); subst
  | H : tx_raise _ _ = (Ok _, _) |- _ => discriminate H
  end.

Lemma outbox_append_inv e s u s' :
  outbox_append e s = (Ok u, s') → ss_conflict s' = false →
  ss_conflict s = false ∧ ss_tracked s' = ss_tracked s ∧
  published (ss_view s') = published (ss_view s) ++ [e] ∧
  ss_view s' = set_outbox (ss_view s) (db_outbox (ss_view s')).
Proof.
  destruct (outbox_append_writes e s) as (w & Hw & ->). intros He Hc.
  apply execute_inv in He as [Ht Hv]. destruct (Hv Hc) as [Hc' Hwv].
  split; [done|]. split; [done|].
  apply (outbox_statements_published (ss_context s) [e]). by rewrite Hw.
Qed.

(** *** Frames

    A computation all of whose statements keep a part of the database keeps that part of
    the view. *)
Definition keeps {T} (get : Database → T) : stmt_pred := λ w,
  ∀ d d', w d = Some d' → get d' = get d.

Class Elsewhere {T U} (get : Database → T) (put : Database → U → Database) : Prop :=
  elsewhere : ∀ d v, get (put d v) = get d.
#[export] Hint Extern 0 (Elsewhere _ _) => (intros ? ?; reflexivity) : typeclass_instances.

#[export] Instance staging_keeps_insert {T} (g : Database → T) {K V} `{Countable K}
    (get : Database → gmap K V) put k v :
  Elsewhere g put → Staging (keeps g) (execute (insert_row get put k v)).
Proof.
  intros Hp. apply staging_execute. intros d d'. unfold insert_row.
  case_match; [done|]. intros [= <-]. apply Hp.
Qed.
#[export] Instance staging_keeps_merge {T} (g : Database → T) {K V} `{Countable K}
    (get : Database → gmap K V) put k v :
  Elsewhere g put → Staging (keeps g) (execute (merge_row get put k v)).
Proof. intros Hp. apply staging_execute. intros d d' [= <-]. apply Hp. Qed.
#[export] Instance staging_keeps_delete {T} (g : Database → T) {K V} `{Countable K}
    (get : Database → gmap K V) put k :
  Elsewhere g put → Staging (keeps g) (execute (delete_row get put k)).
Proof. intros Hp. apply staging_execute. intros d d' [= <-]. apply Hp. Qed.
#[export] Instance staging_keeps_put {T U} (g : Database → T) (put : Database → U → Database) f :
  Elsewhere g put → Staging (keeps g) (execute (λ d, Some (put d (f d)))).
Proof. intros Hp. apply staging_execute. intros d d' [= <-]. apply Hp. Qed.

Lemma replay_keeps {T} (get : Database → T) ws d d' :
  Forall (keeps get) ws → replay_writes ws d = Some d' → get d' = get d.
Proof.
  intros Hk. revert d. induction Hk as [|w ws Hw Hk IH]; intros d H; [by injection H as <-|].
  rewrite replay_writes_cons in H. destruct (w d) as [d1|] eqn:E; [|done].
  cbn in H. rewrite (IH d1 H). by apply Hw.
Qed.

Lemma keeps_view {T} (get : Database → T) {A} (m : tx A) s r s' :
  Staging (keeps get) m → Coherent m → coherent s → m s = (r, s') → ss_conflict s' = false →
  get (ss_view s') = get (ss_view s).
Proof.
  intros Hst Hco Hs Hm Hc. pose proof (staging (P := keeps get) (m := m) s) as [Hb _ _ _ (ws & Hw & Hk)].
  pose proof (coherence (m := m) s Hs) as Hs'. rewrite Hm in *. cbn in *. unfold coherent in *.
  rewrite Hw, Hb, replay_writes_app, Hs, Hc in Hs'. destruct (ss_conflict s); [done|].
  cbn in Hs'. by eapply replay_keeps.
Qed.

(** *** What a request commits *)

(** Everything but the shared tables is what the body's view shows. *)
Definition domain_rows_of (view d : Database) : Prop :=
  d = set_outbox (set_idempotency view (db_idempotency d)) (db_outbox d).

Lemma shared_rows view i d :
  d = set_outbox (set_idempotency view i) (db_outbox d) → domain_rows_of view d.
Proof.
  intros H. unfold domain_rows_of. by assert (db_idempotency d = i) as -> by (by rewrite H).
Qed.

Lemma set_outbox_rows view d : d = set_outbox view (db_outbox d) → domain_rows_of view d.
Proof. intros H. apply (shared_rows _ (db_idempotency view)). by destruct view. Qed.

(** The two ways a request built on the body [op] may end: nothing was committed, or
    the body answered and its view is committed together with the events it tracked. *)
Definition request_outcome {A} (op : tx A) (d : Database) (out : result A * Database) : Prop :=
  out.2 = d ∨
  ∃ v s, out = (Ok v, out.2) ∧ op (open_session d None id) = (Ok v, s) ∧
    ss_conflict s = false ∧ domain_rows_of (ss_view s) out.2 ∧
    published out.2 = published d ++ tracked_events s.

Lemma body_view {A} (m : tx A) d v s :
  Staging domain_write m → Coherent m → m (open_session d None id) = (Ok v, s) →
  ∃ ws, ss_writes s = ws ∧ Forall domain_write ws ∧
    replay_writes ws d = (if ss_conflict s then None else Some (ss_view s)).
Proof.
  intros Hst Hco Hm.
  pose proof (coherence (m := m) (open_session d None id) (open_session_coherent _ _ _)) as Hs.
  pose proof (staging (P := domain_write) (m := m) (open_session d None id))
    as [Hb _ _ _ (ws & Hw & Hd)].
  rewrite Hm in *. cbn in *. unfold coherent in Hs. rewrite Hb in Hs.
  exists ws. by rewrite Hw in Hs.
Qed.

Lemma transaction_outcome {A} (m : tx A) d :
  Staging domain_write m → Coherent m →
  request_outcome m d (run_request (transaction m) d) ∧
  (is_ok (run_request (transaction m) d).1 = false → (run_request (transaction m) d).2 = d).
Proof.
  intros Hst Hco. rewrite (run_transaction domain_write m d).
  destruct (m (open_session d None id)) as [[v|e] s] eqn:E; [|by split; [left|]].
  destruct (body_view m d v s Hst Hco E) as (ws & -> & Hd & Hr).
  destruct (replay_writes (ws ++ outbox_statements None (tracked_events s)) d) as [d'|] eqn:Er;
    [|by split; [left|]].
  split; [right|done]. exists v, s. cbn. rewrite replay_writes_app, Hr in Er.
  destruct (ss_conflict s); [done|]. cbn in Er.
  apply outbox_statements_published in Er as [Hp Hd'].
  apply replay_domain_writes in Hr as [_ Ho]; [|done].
  split_and!; try done.
  - by apply set_outbox_rows.
  - rewrite Hp. unfold published. by rewrite Ho.
Qed.

(** ** Theorems *)

(** [C1] The transactional outbox: a transaction whose body only stages domain writes
    either raises and leaves every committed row as it was, or answers with its body's
    value and commits the body's writes together with exactly the events its tracked
    aggregates recorded, appended to the outbox in touch order. *)
Theorem transactional_outbox {A} (m : tx A) (d : Database) :
  Staging domain_write m → Coherent m →
  match run_request (transaction m) d with
  | (Raise e, d') => d' = d
  | (Ok v, d') => ∃ s, m (open_session d None id) = (Ok v, s) ∧
      published d' = published d ++ tracked_events s ∧
      d' = set_outbox (ss_view s) (db_outbox d') ∧ ss_conflict s = false
  end.
Proof.
  intros Hst Hco. rewrite (run_transaction domain_write m d).
  pose proof (coherence (m := m) (open_session d None id) (open_session_coherent _ _ _)) as Hs.
  pose proof (staging (P := domain_write) (m := m) (open_session d None id))
    as [Hb _ _ _ (ws & Hw & Hd)].
  destruct (m (open_session d None id)) as [[v|e] s]; [|done]. cbn in *.
  destruct (replay_writes _ d) as [d'|] eqn:E; [|done].
  exists s. split; [done|]. rewrite replay_writes_app in E.
  unfold coherent in Hs. rewrite Hb in Hs.
  destruct (ss_conflict s); [by rewrite Hs in E|]. rewrite Hs in E. cbn in E.
  apply outbox_statements_published in E as [Hp Hd'].
  rewrite Hw in Hs. apply replay_domain_writes in Hs as [_ Ho]; [|done].
  split; [|done]. rewrite Hp. unfold published. by rewrite Ho.
Qed.

Lemma transactional_outbox_witness :
  let e := mkEvent 9 0 SpeciesSyncRequested in
  let m : tx unit :=
    _ ← execute (insert_row db_households set_households 1%N (mkHouseholdModel 1 "home"));
    track (EHousehold, 1%N) [e] in
  Staging domain_write m ∧ Coherent m ∧
  ∃ d', run_request (transaction m) empty_database = (Ok tt, d') ∧ published d' = [e].
Proof.
  intros e m.
  assert (Staging domain_write m) as Hst.
  { apply _. }
  assert (Coherent m) as Hco by apply _.
  split; [done|]. split; [done|].
  pose proof (transactional_outbox m empty_database Hst Hco) as H.
  destruct (run_request (transaction m) empty_database) as [[[]|x] d'] eqn:E;
    [|vm_compute in E; discriminate E].
  exists d'. split; [done|]. destruct H as (s & Hs & Hp & _). rewrite Hp.
  vm_compute in Hs. injection Hs as <-. reflexivity.
Defined.
