(* ===== verification/Repositories.v ===== *)
(** The repositories over one session ([infrastructure/persistence/repositories/]):
    each operation stages a statement or runs a query, and [add] and [save] track the
    aggregate so that the commit publishes its events. *)

From S2P Require Import Prelude Domain Care Garden Catalog Telemetry Journal Notification.
From S2P Require Import Topics Rows Views Database UnitOfWork.

(** ** Garden *)

(** [ForeignKey(households.id)]: a plant row needs its household's row. *)
Definition insert_plant (m : PlantModel) : statement := fun d =>
  match db_households d !! pm_household_id m with
  | None => None
  | Some _ => insert_row db_plants set_plants (pm_id m) m d
  end.

Definition plants_add (p : Plant) : tx unit :=
  let m := plant_to_model p in
  _ ← execute (insert_plant m);
  track (EPlant, pm_id m) (p_events p).

Definition plants_get (plant_id : PlantId) : tx (option Plant) :=
  row ← query (λ d, db_plants d !! uuid_value plant_id);
  tx_lift (opt_to_domain plant_to_domain row).

Definition plants_save (p : Plant) : tx unit :=
  let m := plant_to_model p in
  _ ← execute (merge_row db_plants set_plants (pm_id m) m);
  track (EPlant, pm_id m) (p_events p).

Definition plants_delete (plant_id : PlantId) : tx unit :=
  row ← query (λ d, db_plants d !! uuid_value plant_id);
  match row with
  | None => mret tt
  | Some m => execute (delete_row db_plants set_plants (pm_id m))
  end.

Definition plants_list_by_household (household_id : HouseholdId) (include_removed : bool) :
    tx (list Plant) :=
  rows ← query (λ d, select_rows (db_plants d)
    (λ m, bool_decide (pm_household_id m = uuid_value household_id) &&
          (include_removed || negb (pm_removed m)))
    (λ m, (pm_added_at m, Z.of_N (pm_id m))));
  tx_lift (mapM_result plant_to_domain rows).

(** [_plant_ids]: the household's plants that are not removed, in no stated order. *)
Definition active_plant_ids (household_id : uuid) (d : Database) : list PlantId :=
  (λ m, Uuid (pm_id m)) <$> filter (λ m, pm_household_id m = household_id ∧ pm_removed m = false)
    (map_to_list (db_plants d)).*2.

Definition households_add (h : Household) : tx unit :=
  let m := household_to_model h in
  _ ← execute (insert_row db_households set_households (hm_id m) m);
  track (EHousehold, hm_id m) [].

(** [get] and [get_for_update]: the lock changes who waits, not what is read. *)
Definition households_get (household_id : HouseholdId) : tx (option Household) :=
  row ← query (λ d, db_households d !! uuid_value household_id);
  match row with
  | None => mret None
  | Some m =>
      ids ← query (active_plant_ids (uuid_value household_id));
      h ← tx_lift (household_to_domain m ids);
      mret (Some h)
  end.

Definition households_get_for_update := households_get.

Definition households_save (h : Household) : tx unit :=
  let m := household_to_model h in
  _ ← execute (merge_row db_households set_households (hm_id m) m);
  track (EHousehold, hm_id m) [].

(** Deleting a household cascades to its plants. *)
Definition delete_household (id : uuid) : statement := fun d =>
  let d := set_plants d (filter (λ kv, pm_household_id kv.2 ≠ id) (db_plants d)) in
  delete_row db_households set_households id d.

Definition households_delete (household_id : HouseholdId) : tx unit :=
  row ← query (λ d, db_households d !! uuid_value household_id);
  match row with
  | None => mret tt
  | Some m => execute (delete_household (hm_id m))
  end.

(** ** Care *)

Definition schedules_add (s : CareSchedule) : tx unit :=
  let m := care_schedule_to_model s in
  _ ← execute (insert_row db_care_schedules set_care_schedules (csm_plant_id m) m);
  track (ECareSchedule, csm_plant_id m) (cs_events s).

Definition schedules_get (plant_id : PlantId) : tx (option CareSchedule) :=
  row ← query (λ d, db_care_schedules d !! uuid_value plant_id);
  tx_lift (opt_to_domain care_schedule_to_domain row).

Definition schedules_get_for_update := schedules_get.

Definition schedules_save (s : CareSchedule) : tx unit :=
  let m := care_schedule_to_model s in
  _ ← execute (merge_row db_care_schedules set_care_schedules (csm_plant_id m) m);
  track (ECareSchedule, csm_plant_id m) (cs_events s).

(** [save] of a second object of a schedule the transaction has saved before. *)
Definition schedules_save_reloaded (s : CareSchedule) : tx unit :=
  let m := care_schedule_to_model s in
  _ ← execute (merge_row db_care_schedules set_care_schedules (csm_plant_id m) m);
  track (EReloadedSchedule, csm_plant_id m) (cs_events s).

Definition schedules_delete (plant_id : PlantId) : tx unit :=
  row ← query (λ d, db_care_schedules d !! uuid_value plant_id);
  match row with
  | None => mret tt
  | Some m => execute (delete_row db_care_schedules set_care_schedules (csm_plant_id m))
  end.

(** The plant of a schedule exists and is not removed: the inner join of the lists. *)
Definition schedule_active (d : Database) (m : CareScheduleModel) : bool :=
  match db_plants d !! csm_plant_id m with
  | Some p => negb (pm_removed p)
  | None => false
  end.

Definition schedule_due_key (m : CareScheduleModel) : Z * Z :=
  (csm_next_watering_at m, Z.of_N (csm_plant_id m)).

Definition schedules_list_due (household_id : HouseholdId) (until : datetime) :
    tx (list CareSchedule) :=
  rows ← query (λ d, select_rows (db_care_schedules d)
    (λ m, schedule_active d m &&
       match db_plants d !! csm_plant_id m with
       | Some p => bool_decide (pm_household_id p = uuid_value household_id)
       | None => false
       end && bool_decide (csm_next_watering_at m ≤ until)%Z)
    schedule_due_key);
  tx_lift (mapM_result care_schedule_to_domain rows).

Definition has_pending_window (d : Database) (plant_id : uuid) : bool :=
  match db_windows d !! plant_id with
  | Some w => bool_decide (mcw_state w = PENDING)
  | None => false
  end.

Definition schedules_list_due_without_pending_window (until : datetime) (limit : nat) :
    tx (list CareSchedule) :=
  rows ← query (λ d, take limit (select_rows (db_care_schedules d)
    (λ m, schedule_active d m && bool_decide (csm_next_watering_at m ≤ until)%Z &&
       negb (has_pending_window d (csm_plant_id m)))
    schedule_due_key));
  tx_lift (mapM_result care_schedule_to_domain rows).

(** ** Catalog *)

Definition species_repo_add (s : Species) : tx unit :=
  let m := species_to_model s in
  _ ← execute (insert_row db_species set_species (spm_id m) m);
  track (ESpecies, spm_id m) (sp_events s).

Definition species_repo_get (species_id : SpeciesId) : tx (option Species) :=
  row ← query (λ d, db_species d !! uuid_value species_id);
  tx_lift (opt_to_domain species_to_domain row).

Definition species_repo_get_for_update := species_repo_get.

Definition species_repo_save (s : Species) : tx unit :=
  let m := species_to_model s in
  _ ← execute (merge_row db_species set_species (spm_id m) m);
  track (ESpecies, spm_id m) (sp_events s).

Definition species_repo_delete (species_id : SpeciesId) : tx unit :=
  row ← query (λ d, db_species d !! uuid_value species_id);
  match row with
  | None => mret tt
  | Some m => execute (delete_row db_species set_species (spm_id m))
  end.

(** ** Telemetry *)

Definition sensors_add (s : Sensor) : tx unit :=
  let m := sensor_to_model s in
  _ ← execute (insert_row db_sensors set_sensors (sm_id m) m);
  track (ESensor, sm_id m) (sn_events s).

Definition sensors_get (sensor_id : SensorId) : tx (option Sensor) :=
  row ← query (λ d, db_sensors d !! uuid_value sensor_id);
  mret (sensor_to_domain <$> row).

Definition sensors_save (s : Sensor) : tx unit :=
  let m := sensor_to_model s in
  _ ← execute (merge_row db_sensors set_sensors (sm_id m) m);
  track (ESensor, sm_id m) (sn_events s).

Definition sensors_delete (sensor_id : SensorId) : tx unit :=
  row ← query (λ d, db_sensors d !! uuid_value sensor_id);
  match row with
  | None => mret tt
  | Some m => execute (delete_row db_sensors set_sensors (sm_id m))
  end.

Definition sensors_list_by_plant (plant_id : PlantId) : tx (list Sensor) :=
  rows ← query (λ d, select_rows (db_sensors d)
    (λ m, bool_decide (sm_plant_id m = uuid_value plant_id))
    (λ m, (sm_added_at m, Z.of_N (sm_id m))));
  mret (sensor_to_domain <$> rows).

Definition sensor_silent (threshold : datetime) (m : SensorModel) : bool :=
  match sm_last_seen_at m, sm_offline_announced_at m with
  | Some t, None => bool_decide (t ≤ threshold)%Z
  | _, _ => false
  end.

Definition sensors_list_silent (threshold : datetime) : tx (list Sensor) :=
  rows ← query (λ d, select_rows (db_sensors d) (sensor_silent threshold)
    (λ m, (default 0%Z (sm_last_seen_at m), Z.of_N (sm_id m))));
  mret (sensor_to_domain <$> rows).

Definition reading_key (m : SensorReadingModel) : uuid * datetime :=
  (srm_sensor_id m, srm_recorded_at m).

(** [INSERT ... ON CONFLICT DO NOTHING] of one row after another: the table and how
    many rows it took. *)
Definition insert_readings (ms : list SensorReadingModel)
    (t : gmap (uuid * datetime) SensorReadingModel) :
    gmap (uuid * datetime) SensorReadingModel * nat :=
  foldl (λ '(t, n) m,
    match t !! reading_key m with
    | Some _ => (t, n)
    | None => (<[reading_key m := m]> t, S n)
    end) (t, 0) ms.

Definition READING_BATCH_SIZE : nat := 500.

(** [rows[start : start + size]] for [start] in [range(0, len(rows), size)]; [fuel] is
    the number of rows, which is enough. *)
Fixpoint batches {A} (fuel size : nat) (rows : list A) : list (list A) :=
  match fuel, rows with
  | S fuel, _ :: _ => take size rows :: batches fuel size (drop size rows)
  | _, _ => []
  end.

Definition readings_insert_batch (ms : list SensorReadingModel) : tx nat :=
  n ← query (λ d, (insert_readings ms (db_readings d)).2);
  _ ← execute (λ d, Some (set_readings d (insert_readings ms (db_readings d)).1));
  mret n.

Fixpoint readings_insert_batches (bs : list (list SensorReadingModel)) (inserted : nat) :
    tx nat :=
  match bs with
  | [] => mret inserted
  | b :: bs => n ← readings_insert_batch b; readings_insert_batches bs (inserted + n)
  end.

Definition readings_add_many (readings : list TelemetryReading) : tx nat :=
  let rows := reading_to_model <$> readings in
  readings_insert_batches (batches (length rows) READING_BATCH_SIZE rows) 0.

(** ** Notifications *)

Definition notifications_add (n : Notification) : tx unit :=
  let m := notification_to_model n in
  _ ← execute (insert_row db_notifications set_notifications (nm_id m) m);
  track (ENotification, nm_id m) (nt_events n).

Definition notifications_get (notification_id : NotificationId) : tx (option Notification) :=
  row ← query (λ d, db_notifications d !! uuid_value notification_id);
  tx_lift (opt_to_domain notification_to_domain row).

Definition notifications_get_for_update := notifications_get.

Definition notifications_save (n : Notification) : tx unit :=
  let m := notification_to_model n in
  _ ← execute (merge_row db_notifications set_notifications (nm_id m) m);
  track (ENotification, nm_id m) (nt_events n).

Definition notifications_delete (notification_id : NotificationId) : tx unit :=
  row ← query (λ d, db_notifications d !! uuid_value notification_id);
  match row with
  | None => mret tt
  | Some m => execute (delete_row db_notifications set_notifications (nm_id m))
  end.

(** The rows [list_pending] answers with: unread, of the household, with a greater
    identifier than the cursor, ordered by creation. *)
Definition pending_rows (d : Database) (household_id : HouseholdId)
    (since : option NotificationId) : list NotificationModel :=
  select_rows (db_notifications d)
    (λ m, bool_decide (nm_household_id m = uuid_value household_id) &&
       bool_decide (nm_read_at m = None) &&
       match since with
       | Some c => bool_decide (uuid_value c < nm_id m)%N
       | None => true
       end)
    (λ m, (nm_created_at m, Z.of_N (nm_id m))).

Definition notifications_list_pending (household_id : HouseholdId)
    (since : option NotificationId) : tx (list Notification) :=
  rows ← query (λ d, pending_rows d household_id since);
  tx_lift (mapM_result notification_to_domain rows).

(** ** The journal's tables *)

Definition journal_entries_add (e : JournalEntry) : tx unit :=
  let m := journal_entry_to_model e in
  _ ← execute (insert_row db_journal_entries set_journal_entries (jem_id m) m);
  track (EJournalEntry, jem_id m) (je_events e).

(** [INSERT INTO event_store] of one row: [(stream_id, version)] and [event_id] are
    unique and [version] is positive. *)
Definition insert_event (stream_id : PlantId) (version : Z) (e : DomainEvent) : statement :=
  fun d =>
  if decide ((0 < version)%Z ∧
      Forall (λ m, (esm_stream_id m, esm_version m) ≠ (uuid_value stream_id, version) ∧
        esm_event_id m ≠ event_id e) (db_event_store d))
  then Some (set_event_store d (db_event_store d ++
    [event_store_model_from_event e stream_id version
      (1 + Z.of_nat (length (db_event_store d)))%Z]))
  else None.

Fixpoint insert_events (stream_id : PlantId) (version : Z) (es : list DomainEvent) : tx unit :=
  match es with
  | [] => mret tt
  | e :: es =>
      _ ← execute (insert_event stream_id version e);
      insert_events stream_id (version + 1) es
  end.

(** [append]: stage the rows and flush; a taken version is a lost race. *)
Definition event_store_append (stream_id : PlantId) (expected_version : Z)
    (es : list DomainEvent) : tx unit :=
  _ ← insert_events stream_id (expected_version + 1) es;
  tx_except flush (λ e, bool_decide (e = IntegrityError))
    (λ _, tx_raise EventStoreConcurrencyError).

Definition version_le (a b : EventStoreModel) : Prop := (esm_version a ≤ esm_version b)%Z.
#[export] Instance version_le_dec a b : Decision (version_le a b).
Proof. unfold version_le. apply _. Defined.

Definition stream_rows (d : Database) (stream_id : uuid) (after_version : Z) :
    list EventStoreModel :=
  merge_sort version_le
    (filter (λ m, esm_stream_id m = stream_id ∧ (after_version < esm_version m)%Z)
      (db_event_store d)).

Definition event_store_load_stream (stream_id : PlantId) (after_version : Z) :
    tx (list StoredEvent) :=
  rows ← query (λ d, stream_rows d (uuid_value stream_id) after_version);
  tx_lift (mapM_result stored_event_from_model rows).

Definition event_store_load_all (after_position : Z) (limit : nat) : tx (list StoredEvent) :=
  rows ← query (λ d, take limit (filter (λ m, (after_position < esm_global_position m)%Z)
    (db_event_store d)));
  tx_lift (mapM_result stored_event_from_model rows).

Definition newer_first (a b : JournalSnapshotModel) : Prop :=
  (jsm_version b ≤ jsm_version a)%Z.
#[export] Instance newer_first_dec a b : Decision (newer_first a b).
Proof. unfold newer_first. apply _. Defined.

(** [ORDER BY version DESC LIMIT 1] among the stream's checkpoints. *)
Definition latest_snapshot (d : Database) (stream_id : uuid) : option JournalSnapshotModel :=
  head (merge_sort newer_first
    (filter (λ m, jsm_stream_id m = stream_id) (map_to_list (db_snapshots d)).*2)).

Definition snapshots_latest (plant_id : PlantId) : tx (option JournalState) :=
  row ← query (λ d, latest_snapshot d (uuid_value plant_id));
  mret (state_from_snapshot_model <$> row).

Definition snapshots_save (st : JournalState) : tx unit :=
  let m := snapshot_model_from_state st in
  execute (insert_row db_snapshots set_snapshots (jsm_stream_id m, jsm_version m) m).

(** ** Idempotency, the consumer ledger and the windows *)

Definition idempotency_get (key : string) : tx (option IdempotencyRecord) :=
  query (λ d, db_idempotency d !! key).

Definition idempotency_remember (r : IdempotencyRecord) : tx unit :=
  execute (insert_row db_idempotency set_idempotency (ir_key r) r).

(** [claim]: [True] for the first delivery of the event to the group. *)
Definition processed_claim (consumer_group : string) (event_id : uuid) : tx bool :=
  taken ← query (λ d, bool_decide ((consumer_group, event_id) ∈ db_processed_events d));
  _ ← execute (λ d, Some (set_processed_events d
    ({[(consumer_group, event_id)]} ∪ db_processed_events d)));
  mret (negb taken).

Definition windows_get (plant_id : PlantId) : tx (option MissedCareWindowModel) :=
  query (λ d, db_windows d !! uuid_value plant_id).

Definition windows_save (w : MissedCareWindowModel) : tx unit :=
  execute (merge_row db_windows set_windows (mcw_plant_id w) w).

Definition overdue_windows (d : Database) (until : datetime) (limit : nat) :
    list MissedCareWindowModel :=
  take limit (select_rows (db_windows d)
    (λ w, bool_decide (mcw_state w = PENDING) && bool_decide (mcw_grace_deadline w ≤ until)%Z)
    (λ w, (mcw_grace_deadline w, Z.of_N (mcw_plant_id w)))).

Definition windows_list_overdue (until : datetime) (limit : nat) :
    tx (list MissedCareWindowModel) :=
  query (λ d, overdue_windows d until limit).

(** ** Plant references *)

(** [INSERT ... ON CONFLICT DO UPDATE ... WHERE excluded.seen_at > seen_at]. *)
Definition upsert_reference (r : PlantReference) (t : gmap uuid PlantReference) :
    gmap uuid PlantReference :=
  match t !! uuid_value (pr_plant_id r) with
  | Some old => if decide (pr_seen_at old < pr_seen_at r)%Z
      then <[uuid_value (pr_plant_id r) := r]> t else t
  | None => <[uuid_value (pr_plant_id r) := r]> t
  end.

(** A context's own reference table: where its rows are read and written. *)
Record ref_table := mkRefTable {
  rt_get : Database → gmap uuid PlantReference;
  rt_set : Database → gmap uuid PlantReference → Database }.

Definition journal_ref_table : ref_table := mkRefTable db_journal_refs set_journal_refs.
Definition notification_ref_table : ref_table :=
  mkRefTable db_notification_refs set_notification_refs.

Definition refs_get (t : ref_table) (plant_id : PlantId) : tx (option PlantReference) :=
  query (λ d, rt_get t d !! uuid_value plant_id).

Definition refs_upsert (t : ref_table) (r : PlantReference) : tx unit :=
  _ ← flush; execute (λ d, Some (rt_set t d (upsert_reference r (rt_get t d)))).

Definition refs_remove (t : ref_table) (plant_id : PlantId) : tx unit :=
  _ ← flush; execute (λ d, Some (rt_set t d (delete (uuid_value plant_id) (rt_get t d)))).

(** ** Lemmas

    Every repository operation but [remember] stages domain writes and keeps the session
    coherent: unfolding it, the instances of the session's primitives prove it. *)

Create HintDb repo.
#[export] Hint Unfold plants_add plants_get plants_save plants_delete
  plants_list_by_household households_add households_get households_get_for_update
  households_save households_delete schedules_add schedules_get schedules_get_for_update
  schedules_save schedules_delete schedules_list_due
  schedules_save_reloaded schedules_list_due_without_pending_window species_repo_add species_repo_get
  species_repo_get_for_update species_repo_save species_repo_delete sensors_add
  sensors_get sensors_save sensors_delete sensors_list_by_plant sensors_list_silent
  readings_insert_batch notifications_add notifications_get notifications_get_for_update
  notifications_save notifications_delete notifications_list_pending journal_entries_add
  event_store_append event_store_load_stream event_store_load_all snapshots_latest
  snapshots_save processed_claim windows_get windows_save windows_list_overdue refs_get
  refs_upsert refs_remove flush : repo.

(** Discharge the interface for a body made of repository operations. *)
Ltac stage := autounfold with repo; cbv zeta; apply _.

#[export] Instance version_le_total : Total version_le.
Proof. intros a b. unfold version_le. lia. Qed.
#[export] Instance version_le_transitive : Transitive version_le.
Proof. intros a b c. unfold version_le. lia. Qed.
#[export] Instance newer_first_total : Total newer_first.
Proof. intros a b. unfold newer_first. lia. Qed.
#[export] Instance newer_first_transitive : Transitive newer_first.
Proof. intros a b c. unfold newer_first. lia. Qed.

Lemma elem_of_select_rows {K V} `{Countable K} (t : gmap K V) (P : V → bool) key v :
  v ∈ select_rows t P key ↔ P v = true ∧ ∃ k, t !! k = Some v.
Proof.
  unfold select_rows. rewrite merge_sort_Permutation, list_elem_of_filter, list_elem_of_fmap.
  split; intros [HP Hv]; (split; [done|]).
  - destruct Hv as ([k v'] & -> & Hv). exists k. by apply elem_of_map_to_list.
  - destruct Hv as [k Hv]. exists (k, v). split; [done|]. by apply elem_of_map_to_list.
Qed.

#[export] Instance insert_plant_domain m : domain_write (insert_plant m).
Proof.
  intros d d'. unfold insert_plant. case_match; [|done].
  apply (insert_row_domain db_plants set_plants); apply _.
Qed.

#[export] Instance delete_household_domain id : domain_write (delete_household id).
Proof. by intros d d' [= <-]. Qed.

#[export] Instance insert_event_domain sid v e : domain_write (insert_event sid v e).
Proof. intros d d'. unfold insert_event. case_decide; [|done]. by intros [= <-]. Qed.

#[export] Instance insert_events_staging sid v es :
  Staging domain_write (insert_events sid v es).
Proof. revert v. induction es; intros v; cbn; apply _. Qed.
#[export] Instance insert_events_any sid v es : Staging any_write (insert_events sid v es).
Proof. by apply (staging_mono domain_write), _. Qed.
#[export] Instance insert_events_coherent sid v es : Coherent (insert_events sid v es).
Proof. revert v. induction es; intros v; cbn; apply _. Qed.
#[export] Instance insert_events_blind sid v es : Blind (insert_events sid v es).
Proof. revert v. induction es; intros v; cbn; apply _. Qed.

#[export] Instance readings_batches_staging bs n :
  Staging domain_write (readings_insert_batches bs n).
Proof. revert n. induction bs; intros n; cbn; stage. Qed.
#[export] Instance readings_batches_any bs n : Staging any_write (readings_insert_batches bs n).
Proof. by apply (staging_mono domain_write), _. Qed.
#[export] Instance readings_batches_coherent bs n : Coherent (readings_insert_batches bs n).
Proof. revert n. induction bs; intros n; cbn; stage. Qed.
#[export] Instance readings_batches_blind bs n : Blind (readings_insert_batches bs n).
Proof. revert n. induction bs; intros n; cbn; stage. Qed.

(** The statements that are not one row's keep what lies outside their tables. *)
#[export] Instance insert_event_keeps {T} (g : Database → T) sid v e :
  Elsewhere g set_event_store → Staging (keeps g) (execute (insert_event sid v e)).
Proof.
  intros Hp. apply staging_execute. intros d d'. unfold insert_event.
  case_decide; [|done]. intros [= <-]. apply Hp.
Qed.
#[export] Instance insert_events_keeps {T} (g : Database → T) sid v es :
  Elsewhere g set_event_store → Staging (keeps g) (insert_events sid v es).
Proof. intros Hp. revert v. induction es; intros v; cbn; apply _. Qed.
#[export] Instance outbox_append_keeps {T} (g : Database → T) e :
  Elsewhere g set_outbox → Staging (keeps g) (outbox_append e).
Proof.
  intros Hp s. destruct (outbox_append_writes e s) as (w & Hw & ->).
  apply staging_execute. intros d d' E.
  assert (replay_writes (outbox_statements (ss_context s) [e]) d = Some d') as Hr
    by (rewrite Hw, replay_writes_cons, E; done).
  apply outbox_statements_published in Hr as [_ ->]. apply Hp.
Qed.
