(* ===== verification/Idempotency.v ===== *)
(** Replayable creates: [commit_create] runs an operation once per idempotency key and
    answers a repetition from the stored response ([application/idempotency.py],
    [application/commands/base.py]). *)

From S2P Require Import Prelude Domain Topics Rows Views Database UnitOfWork Repositories.

Definition CREATED : Z := 201.

(** [_replayed]: refuse a key that was reused for other content, otherwise the stored
    document as the view the caller asked for. *)
Definition replayed (stored : IdempotencyRecord) (fingerprint : string)
    (view_type : view_class) : result View :=
  if decide (ir_request_hash stored ≠ fingerprint) then Raise IdempotencyKeyConflictError
  else view_validate view_type (ir_response stored).

(** [commit_create].  [fingerprint] is [request_fingerprint(command)], the SHA-256 of the
    command's JSON without its key, as the caller computes it; [now] is [clock.now()]. *)
Definition commit_create (key : option string) (fingerprint : string)
    (view_type : view_class) (status_code : Z) (operation : tx View) (now : datetime) :
    tx View :=
  match key with
  | None => with_uow (view ← operation; _ ← uow_commit; mret view)
  | Some key =>
      with_uow (
        stored ← idempotency_get key;
        match stored with
        | Some r => tx_lift (replayed r fingerprint view_type)
        | None =>
            view ← operation;
            _ ← idempotency_remember
                  (mkIdempotencyRecord key fingerprint status_code view now);
            tx_except (_ ← uow_commit; mret view) is_concurrent_write_error
              (λ e, _ ← uow_rollback;
                    winner ← idempotency_get key;
                    match winner with
                    | None => tx_raise e
                    | Some r => tx_lift (replayed r fingerprint view_type)
                    end)
        end)
  end.

(** A request in a session that other transactions may overtake before it commits. *)
Definition run_overtaken {A} (m : tx A) (others : Database → Database) (d : Database) :
    result A * Database :=
  let '(r, s) := m (open_session d None others) in (r, ss_base s).

(** ** Lemmas *)

(** The writing path of [commit_create], when the key was free at the first read. *)
Lemma commit_create_fresh key fp cls status (op : tx View) now others d :
  Staging domain_write op → db_idempotency d !! key = None →
  run_overtaken (commit_create (Some key) fp cls status op now) others d =
  let '(r, s) := op (open_session d None others) in
  match r with
  | Raise e => (Raise e, d)
  | Ok v =>
      let record := mkIdempotencyRecord key fp status v now in
      match replay_writes
        (ss_writes s ++ insert_row db_idempotency set_idempotency key record ::
           outbox_statements None (tracked_events s)) (others d) with
      | Some d' => (Ok v, d')
      | None => (match db_idempotency (others d) !! key with
                 | None => Raise ConcurrentWriteError
                 | Some w => replayed w fp cls
                 end, others d)
      end
  end.
Proof.
  intros Hst Hkey. unfold run_overtaken, commit_create. rewrite with_uow_open.
  rewrite (tx_bind_Ok _ _ _ (db_idempotency d !! key) (open_session d None others)) by done.
  rewrite Hkey.
  pose proof (staging (P := domain_write) (m := op) (open_session d None others))
    as [Hb Hc Hx Ho _].
  destruct (op (open_session d None others)) as [[v|e] s] eqn:Eop; cbn in Hb, Hc, Hx, Ho;
    [|by rewrite (tx_bind_Raise _ _ _ _ _ Eop); cbn; rewrite Hb].
  rewrite (tx_bind_Ok _ _ _ _ _ Eop). cbv zeta.
  set (rec := mkIdempotencyRecord key fp status v now).
  pose proof (execute_writes (insert_row db_idempotency set_idempotency key rec) s)
    as (Hok & Hws & Hb1 & Hx1 & Ho1 & Hc1 & Ht1).
  destruct (execute (insert_row db_idempotency set_idempotency key rec) s)
    as [r1 s1] eqn:Eex; cbn in Hok, Hws, Hb1, Hx1, Ho1, Hc1, Ht1; subst r1.
  unfold idempotency_remember. rewrite (tx_bind_Ok _ _ _ _ _ Eex).
  unfold tx_except, mbind at 1, tx_bind at 1. rewrite uow_commit_run.
  unfold tracked_events. rewrite Hws, Hx1, Ht1, Ho1, Hb1, Hc1, Hx, Ho, Hb, Hc.
  rewrite <- app_assoc. cbn [app]. cbv zeta.
  destruct (replay_writes _ (others d)) as [d'|]; [done|].
  unfold mbind, tx_bind, idempotency_get, query. cbn.
  destruct (db_idempotency (others d) !! key) as [w|]; [|done].
  by destruct (replayed w fp cls).
Qed.

Lemma replay_domain_write_list ws d d' :
  Forall domain_write ws → replay_writes ws d = Some d' →
  db_idempotency d' = db_idempotency d.
Proof. intros H1 H2. by eapply replay_domain_writes. Qed.

(** A request that runs [op] through [commit_create] ends in one of the two ways of
    [request_outcome], the stored response apart. *)
Lemma commit_create_outcome key fp cls status (op : tx View) now d :
  Staging domain_write op → Coherent op →
  request_outcome op d (run_request (commit_create key fp cls status op now) d) ∧
  (is_ok (run_request (commit_create key fp cls status op now) d).1 = false →
   (run_request (commit_create key fp cls status op now) d).2 = d).
Proof.
  intros Hst Hco. destruct key as [key|]; [|by apply (transaction_outcome op)].
  destruct (db_idempotency d !! key) as [r|] eqn:Hkey.
  { assert (run_request (commit_create (Some key) fp cls status op now) d =
      (replayed r fp cls, d)) as ->; [|by split; [left|]].
    unfold run_request, commit_create, with_uow, idempotency_get, mbind, tx_bind, query. cbn.
    rewrite Hkey. cbn. by destruct (replayed r fp cls). }
  change (run_request ?m) with (run_overtaken m id).
  rewrite (commit_create_fresh key fp cls status op now id d Hst Hkey).
  destruct (op (open_session d None id)) as [[v|e] s] eqn:E; [|by split; [left|]].
  destruct (body_view op d v s Hst Hco E) as (ws & -> & Hd & Hr). cbv zeta.
  destruct (replay_writes _ (id d)) as [d'|] eqn:Er; [|by split; [left|]].
  split; [right|done]. exists v, s. unfold id in Er. rewrite replay_writes_app, Hr in Er.
  destruct (ss_conflict s); [done|]. cbn in Er. rewrite replay_writes_cons in Er.
  unfold insert_row in Er. apply replay_domain_writes in Hr as [Hi Ho]; [|done].
  rewrite Hi, Hkey in Er. cbn in Er.
  apply outbox_statements_published in Er as [Hp Hd']. split_and!; try done.
  - by eapply shared_rows.
  - cbn [snd]. rewrite Hp. unfold published. cbn. by rewrite Ho.
Qed.

(** ** Theorems *)

(** A replayed create answers what the first one answered and writes nothing:
    once a create with a key has committed, any later request with that key and the same
    content returns the first view and leaves every row alone, whatever its operation
    would have done; other content under the same key is refused, again without a write. *)
Theorem create_replays (key fp fp' : string) (status : Z) (op op' : tx View)
    (now now' : datetime) (d d1 : Database) (v : View) :
  Staging domain_write op →
  db_idempotency d !! key = None →
  run_request (commit_create (Some key) fp (view_class_of v) status op now) d = (Ok v, d1) →
  run_request (commit_create (Some key) fp (view_class_of v) status op' now') d1 = (Ok v, d1) ∧
  (fp' ≠ fp → ∀ cls, run_request (commit_create (Some key) fp' cls status op' now') d1 =
    (Raise IdempotencyKeyConflictError, d1)).
Proof.
  intros Hst Hkey Hrun.
  change (run_request ?m) with (run_overtaken m id) in Hrun.
  rewrite (commit_create_fresh key fp _ status op now id d Hst Hkey) in Hrun.
  pose proof (staging (P := domain_write) (m := op) (open_session d None id))
    as [_ _ _ _ (ws & Hws & Hdw)].
  destruct (op (open_session d None id)) as [[v0|e] s]; [|done]. cbn in Hws, Hrun.
  rewrite Hws in Hrun.
  assert (∃ r, db_idempotency d1 !! key = Some r ∧ ir_request_hash r = fp ∧
    ir_response r = v) as (r & Hr & Hfp & Hv).
  { destruct (replay_writes _ _) as [d'|] eqn:E.
    - injection Hrun as -> ->. rewrite replay_writes_app in E.
      destruct (replay_writes ws d) as [da|] eqn:Ea; [|done]. cbn in E.
      apply replay_domain_write_list in Ea; [|done].
      rewrite replay_writes_cons in E. unfold insert_row in E.
      rewrite Ea, Hkey in E. cbn in E.
      apply outbox_statements_published in E as [_ ->]. cbn.
      rewrite lookup_insert_eq. eexists. split; [done|]. done.
    - unfold id in Hrun. by rewrite Hkey in Hrun. }
  assert (∀ fp' cls op' now', run_request (commit_create (Some key) fp' cls status op' now') d1 =
    (replayed r fp' cls, d1)) as Hrep.
  { intros fp1 cls op1 now1. unfold run_request, commit_create, with_uow, idempotency_get.
    unfold mbind, tx_bind, query. cbn. rewrite Hr. cbn. by destruct (replayed r fp1 cls). }
  rewrite !Hrep. split.
  - unfold replayed, view_validate. rewrite decide_False by (intros []; done).
    by rewrite Hv, decide_True.
  - intros Hne cls. rewrite Hrep. unfold replayed. by rewrite decide_True by congruence.
Qed.

Lemma create_replays_witness :
  let home := mkHouseholdModel 1 "home" in
  let op : tx View :=
    _ ← execute (insert_row db_households set_households 1%N home);
    mret (HouseholdView (Uuid 1) "home" 0) in
  let other : tx View := mret (HouseholdView (Uuid 2) "home" 0) in
  let v := HouseholdView (Uuid 1) "home" 0 in
  ∃ d1, run_request (commit_create (Some "k"%string) "f" CHousehold CREATED op 0) empty_database =
      (Ok v, d1) ∧
    run_request (commit_create (Some "k"%string) "f" CHousehold CREATED other 5) d1 = (Ok v, d1).
Proof.
  intros home op other v.
  destruct (run_request (commit_create (Some "k"%string) "f" CHousehold CREATED op 0)
    empty_database) as [r d1] eqn:E.
  assert (r = Ok v) as -> by (vm_compute in E; by injection E).
  exists d1. split; [done|].
  apply (create_replays "k" "f" "g" CREATED op other 0 5 empty_database d1 v);
    [apply _|done|exact E].
Defined.

(** [C6] Two racing creates have one winner: when another request with the same key
    commits first, this one writes nothing of its own and answers with the winner's
    stored response, or refuses if the contents differ; and when the operation itself
    raises, the key stays free for a retry. *)
Theorem create_race_has_one_winner (key fp : string) (cls : view_class) (status : Z)
    (op : tx View) (now : datetime) (d : Database) (others : Database → Database)
    (winner : IdempotencyRecord) :
  Staging domain_write op →
  db_idempotency d !! key = None →
  db_idempotency (others d) !! key = Some winner →
  match op (open_session d None others) with
  | (Ok _, _) =>
      run_overtaken (commit_create (Some key) fp cls status op now) others d =
        (replayed winner fp cls, others d)
  | (Raise e, _) =>
      run_overtaken (commit_create (Some key) fp cls status op now) others d = (Raise e, d)
  end.
Proof.
  intros Hst Hkey Hwin. rewrite (commit_create_fresh key fp cls status op now others d Hst Hkey).
  pose proof (staging (P := domain_write) (m := op) (open_session d None others))
    as [_ _ _ _ (ws & Hws & Hdw)].
  destruct (op (open_session d None others)) as [[v|e] s]; [|done]. cbn in Hws |- *.
  rewrite Hws. rewrite replay_writes_app.
  destruct (replay_writes ws (others d)) as [da|] eqn:Ea; cbn; [|by rewrite Hwin].
  apply replay_domain_write_list in Ea; [|done].
  rewrite replay_writes_cons. unfold insert_row. by rewrite Ea, Hwin.
Qed.

Lemma create_race_has_one_winner_witness :
  let v := SyncRequestedView true in
  let w := mkIdempotencyRecord "k" "f" CREATED v 0 in
  let others d := set_idempotency d (<[ "k"%string := w ]> (db_idempotency d)) in
  let op : tx View := mret (SyncRequestedView false) in
  run_overtaken (commit_create (Some "k"%string) "f" CSyncRequested CREATED op 3) others
    empty_database = (Ok v, others empty_database).
Proof.
  intros v w others op.
  rewrite (create_race_has_one_winner "k" "f" CSyncRequested CREATED op 3 empty_database
    others w); [done|apply _|done|done].
Defined.
