(* ===== verification/Commands.v ===== *)
(** The commands of the write side: each handler opens the unit of work, loads the
    aggregates it needs, calls them, saves them and commits
    ([application/commands/garden.py], [care.py], [telemetry.py], [notifications.py],
    [catalog.py]). *)

From S2P Require Import Prelude Domain Care Garden Catalog Telemetry Journal Notification.
From S2P Require Import Topics Rows Views Database UnitOfWork Repositories Idempotency.

(** What a handler takes from outside: the clock and the identifiers it mints, the k-th
    [uuid7()] of the call being [mint k]. *)
Record Env := mkEnv { env_now : datetime; env_mint : nat → uuid }.

(** [if x is None: raise NotFoundError]. *)
Definition require {A} (o : option A) : tx A :=
  match o with Some a => mret a | None => tx_raise NotFoundError end.

(** ** Garden *)

Definition CreateHousehold_create (name : string) (e : Env) : tx View :=
  household ← tx_lift (Household_create name None (env_mint e 0));
  _ ← households_add household;
  mret (HouseholdView_from_domain household).

Definition CreateHouseholdHandler (name : string) (key : option string) (fp : string)
    (e : Env) : tx View :=
  commit_create key fp CHousehold CREATED (CreateHousehold_create name e) (env_now e).

Definition AddPlant_add (household_id : HouseholdId) (species_id : SpeciesId)
    (name : string) (location : Location) (e : Env) : tx View :=
  found ← households_get_for_update household_id;
  household ← require found;
  plant ← tx_lift (Plant_add household_id species_id name location (env_now e) None
    (env_mint e 0) (env_mint e 1));
  _ ← tx_lift (Household_add_plant household (p_id plant));
  _ ← plants_add plant;
  mret (PlantView_from_domain plant).

Definition AddPlantHandler (household_id : HouseholdId) (species_id : SpeciesId)
    (name : string) (location : Location) (key : option string) (fp : string) (e : Env) :
    tx View :=
  commit_create key fp CPlant CREATED
    (AddPlant_add household_id species_id name location e) (env_now e).

Definition RemovePlant_body (plant_id : PlantId) (e : Env) : tx View :=
  found ← plants_get plant_id;
  plant ← require found;
  plant ← tx_lift (Plant_remove plant (env_now e) (env_mint e 0));
  _ ← plants_save plant;
  mret (PlantView_from_domain plant).

Definition RemovePlantHandler (plant_id : PlantId) (e : Env) : tx View :=
  transaction (RemovePlant_body plant_id e).

Definition MovePlant_body (plant_id : PlantId) (location : Location) (e : Env) : tx View :=
  found ← plants_get plant_id;
  plant ← require found;
  plant ← tx_lift (Plant_move plant location (env_now e) (env_mint e 0));
  _ ← plants_save plant;
  mret (PlantView_from_domain plant).

Definition MovePlantHandler (plant_id : PlantId) (location : Location) (e : Env) : tx View :=
  transaction (MovePlant_body plant_id location e).

(** ** Care *)

Definition WaterPlant_body (plant_id : PlantId) (expected_version : option Z) (e : Env) :
    tx View :=
  found ← schedules_get_for_update plant_id;
  schedule ← require found;
  found ← plants_get plant_id;
  plant ← require found;
  plant ← tx_lift (Plant_water plant (env_now e));
  schedule ← tx_lift (CareSchedule_complete_watering schedule (env_now e)
    (default (cs_version schedule) expected_version) (env_mint e 0));
  _ ← plants_save plant;
  _ ← schedules_save schedule;
  mret (CareScheduleView_from_domain schedule).

Definition WaterPlantHandler (plant_id : PlantId) (expected_version : option Z) (e : Env) :
    tx View :=
  transaction (WaterPlant_body plant_id expected_version e).

Definition SkipWatering_body (plant_id : PlantId) (expected_version : option Z) (e : Env) : tx View :=
  found ← schedules_get_for_update plant_id;
  schedule ← require found;
  schedule ← tx_lift (CareSchedule_skip schedule (env_now e)
    (default (cs_version schedule) expected_version) (env_mint e 0));
  _ ← schedules_save schedule;
  mret (CareScheduleView_from_domain schedule).

Definition SkipWateringHandler (plant_id : PlantId) (expected_version : option Z) (e : Env) : tx View :=
  transaction (SkipWatering_body plant_id expected_version e).

(** [timedelta(seconds=...)]: the interval arrives as a duration in microseconds, the
    value the float of seconds spells. *)
Definition CreateCareSchedule_create (plant_id : PlantId) (interval : timedelta) (e : Env) :
    tx View :=
  watering_interval ← tx_lift (CareInterval_validate interval);
  starts_at ← tx_lift (dt_add (env_now e) interval);
  schedule ← tx_lift (CareSchedule_create plant_id watering_interval starts_at (env_now e)
    (env_mint e 0));
  _ ← schedules_add schedule;
  mret (CareScheduleView_from_domain schedule).

Definition CreateCareScheduleHandler (plant_id : PlantId) (interval : timedelta)
    (key : option string) (fp : string) (e : Env) : tx View :=
  commit_create key fp CCareSchedule CREATED (CreateCareSchedule_create plant_id interval e)
    (env_now e).

(** Deleting what is not there answers [None] and commits nothing. *)
Definition DeleteCareScheduleHandler (plant_id : PlantId) : tx View :=
  with_uow (
    found ← schedules_get_for_update plant_id;
    match found with
    | None => mret NoneView
    | Some schedule =>
        _ ← schedules_delete plant_id;
        _ ← uow_commit;
        mret (CareScheduleView_from_domain schedule)
    end).

(** ** Telemetry *)

Definition AddSensor_add (plant_id : PlantId) (sensor_id : option SensorId) (e : Env) :
    tx View :=
  found ← plants_get plant_id;
  _ ← require found;
  let sensor := Sensor_register plant_id (env_now e) sensor_id (env_mint e 0) in
  _ ← sensors_add sensor;
  mret (SensorView_from_domain sensor).

Definition AddSensorHandler (plant_id : PlantId) (sensor_id : option SensorId)
    (key : option string) (fp : string) (e : Env) : tx View :=
  commit_create key fp CSensor CREATED (AddSensor_add plant_id sensor_id e) (env_now e).

Definition RemoveSensor_body (sensor_id : SensorId) : tx View :=
  found ← sensors_get sensor_id;
  sensor ← require found;
  _ ← sensors_delete sensor_id;
  mret (SensorView_from_domain sensor).

Definition RemoveSensorHandler (sensor_id : SensorId) : tx View :=
  transaction (RemoveSensor_body sensor_id).

(** ** Notifications *)

Definition AcknowledgeNotification_body (notification_id : NotificationId) (e : Env) : tx View :=
  found ← notifications_get_for_update notification_id;
  notification ← require found;
  notification ← tx_lift (Notification_mark_read notification (env_now e) (env_mint e 0));
  _ ← notifications_save notification;
  mret (NotificationView_from_domain notification).

Definition AcknowledgeNotificationHandler (notification_id : NotificationId) (e : Env) : tx View :=
  transaction (AcknowledgeNotification_body notification_id e).

Definition CreateOnboardingNotification_create (household_id : HouseholdId)
    (plant_id : PlantId) (next_watering_at : datetime)
    (notification_id : option NotificationId) (e : Env) : tx View :=
  let payload : gmap string JsonValue :=
    <["plant_id"%string := JUuid (uuid_value plant_id)]>
      (<["next_watering_at"%string := JTime next_watering_at]> ∅) in
  let notification := Notification_create household_id PLANT_ONBOARDED (env_now e)
    (Some payload) notification_id (env_mint e 0) (env_mint e 1) in
  _ ← notifications_add notification;
  mret (NotificationView_from_domain notification).

Definition CreateOnboardingNotificationHandler (household_id : HouseholdId)
    (plant_id : PlantId) (next_watering_at : datetime)
    (notification_id : option NotificationId) (key : option string) (fp : string)
    (e : Env) : tx View :=
  commit_create key fp CNotification CREATED
    (CreateOnboardingNotification_create household_id plant_id next_watering_at
      notification_id e) (env_now e).

Definition DeleteNotificationHandler (notification_id : NotificationId) : tx View :=
  with_uow (
    found ← notifications_get_for_update notification_id;
    match found with
    | None => mret NoneView
    | Some notification =>
        _ ← notifications_delete notification_id;
        _ ← uow_commit;
        mret (NotificationView_from_domain notification)
    end).

(** ** Catalog *)

(** The one event no aggregate raises goes to the outbox directly. *)
Definition RequestSpeciesSyncHandler (e : Env) : tx View :=
  with_uow (
    _ ← outbox_append (mkEvent (env_mint e 0) (env_now e) SpeciesSyncRequested);
    _ ← uow_commit;
    mret (SyncRequestedView true)).

(** ** The command bus *)

Inductive Command :=
  | CreateHousehold (name : string) (key : option string) (fp : string)
  | AddPlant (household_id : HouseholdId) (species_id : SpeciesId) (name : string)
      (location : Location) (key : option string) (fp : string)
  | RemovePlant (plant_id : PlantId)
  | MovePlant (plant_id : PlantId) (location : Location)
  | WaterPlant (plant_id : PlantId) (expected_version : option Z)
  | SkipWatering (plant_id : PlantId) (expected_version : option Z)
  | CreateCareSchedule (plant_id : PlantId) (interval : timedelta) (key : option string)
      (fp : string)
  | DeleteCareSchedule (plant_id : PlantId)
  | AddSensor (plant_id : PlantId) (sensor_id : option SensorId) (key : option string)
      (fp : string)
  | RemoveSensor (sensor_id : SensorId)
  | AcknowledgeNotification (notification_id : NotificationId)
  | CreateOnboardingNotification (household_id : HouseholdId) (plant_id : PlantId)
      (next_watering_at : datetime) (notification_id : option NotificationId)
      (key : option string) (fp : string)
  | DeleteNotification (notification_id : NotificationId)
  | RequestSpeciesSync.

Definition handle (c : Command) (e : Env) : tx View :=
  match c with
  | CreateHousehold name key fp => CreateHouseholdHandler name key fp e
  | AddPlant h s n l key fp => AddPlantHandler h s n l key fp e
  | RemovePlant p => RemovePlantHandler p e
  | MovePlant p l => MovePlantHandler p l e
  | WaterPlant p v => WaterPlantHandler p v e
  | SkipWatering p v => SkipWateringHandler p v e
  | CreateCareSchedule p i key fp => CreateCareScheduleHandler p i key fp e
  | DeleteCareSchedule p => DeleteCareScheduleHandler p
  | AddSensor p s key fp => AddSensorHandler p s key fp e
  | RemoveSensor s => RemoveSensorHandler s
  | AcknowledgeNotification n => AcknowledgeNotificationHandler n e
  | CreateOnboardingNotification h p t n key fp =>
      CreateOnboardingNotificationHandler h p t n key fp e
  | DeleteNotification n => DeleteNotificationHandler n
  | RequestSpeciesSync => RequestSpeciesSyncHandler e
  end.

(** A sequence of requests, one after the other, each with its own clock reading and
    identifiers: the rows after it. *)
Definition serve (d : Database) (rs : list (Command * Env)) : Database :=
  foldl (λ d '(c, e), (run_request (handle c e) d).2) d rs.

(** The part of a handler that runs between opening the unit of work and its commit;
    [None] for the request that stages an event of its own. *)
Definition command_body (c : Command) (e : Env) : option (tx View) :=
  match c with
  | CreateHousehold name _ _ => Some (CreateHousehold_create name e)
  | AddPlant h s n l _ _ => Some (AddPlant_add h s n l e)
  | RemovePlant p => Some (RemovePlant_body p e)
  | MovePlant p l => Some (MovePlant_body p l e)
  | WaterPlant p v => Some (WaterPlant_body p v e)
  | SkipWatering p v => Some (SkipWatering_body p v e)
  | CreateCareSchedule p i _ _ => Some (CreateCareSchedule_create p i e)
  | DeleteCareSchedule p => Some (
      found ← schedules_get_for_update p;
      match found with
      | None => mret NoneView
      | Some schedule =>
          _ ← schedules_delete p; mret (CareScheduleView_from_domain schedule)
      end)
  | AddSensor p s _ _ => Some (AddSensor_add p s e)
  | RemoveSensor s => Some (RemoveSensor_body s)
  | AcknowledgeNotification n => Some (AcknowledgeNotification_body n e)
  | CreateOnboardingNotification h p t n _ _ =>
      Some (CreateOnboardingNotification_create h p t n e)
  | DeleteNotification n => Some (
      found ← notifications_get_for_update n;
      match found with
      | None => mret NoneView
      | Some notification =>
          _ ← notifications_delete n; mret (NotificationView_from_domain notification)
      end)
  | RequestSpeciesSync => None
  end.

(** Every household owns at most [MAX_PLANTS] plants that are not removed, and a plant's
    row sits under its own key. *)
Definition plants_keyed (t : gmap uuid PlantModel) : Prop :=
  map_Forall (λ k m, pm_id m = k) t.

Definition schedules_keyed (t : gmap uuid CareScheduleModel) : Prop :=
  map_Forall (λ k m, csm_plant_id m = k) t.

Definition household_cap (d : Database) : Prop :=
  plants_keyed (db_plants d) ∧
  ∀ household_id, length (active_plant_ids household_id d) ≤ MAX_PLANTS.

(** ** Lemmas *)

#[export] Hint Unfold require CreateHousehold_create AddPlant_add RemovePlant_body
  MovePlant_body WaterPlant_body SkipWatering_body CreateCareSchedule_create AddSensor_add
  RemoveSensor_body AcknowledgeNotification_body CreateOnboardingNotification_create : repo.

Lemma command_body_staging c e op :
  command_body c e = Some op → Staging domain_write op ∧ Coherent op.
Proof. destruct c; intros [= <-]; split; stage. Qed.

(** A read-or-delete handler is a transaction once the row was found. *)
Lemma delete_outcome {A} (get : tx (option A)) (del : tx unit) (view : A → View) d r :
  get (open_session d None id) = (r, open_session d None id) →
  (∀ a, Staging domain_write (_ ← del; (mret (view a) : tx View)) ∧
        Coherent (_ ← del; (mret (view a) : tx View))) →
  let body := found ← get; match found with
    | None => mret NoneView
    | Some a => _ ← del; mret (view a)
    end in
  let handler := with_uow (found ← get; match found with
    | None => mret NoneView
    | Some a => _ ← del; _ ← uow_commit; mret (view a)
    end) in
  request_outcome body d (run_request handler d) ∧
  (is_ok (run_request handler d).1 = false → (run_request handler d).2 = d).
Proof.
  intros Hget Hdel body handler. unfold handler, body, run_request, request_outcome.
  rewrite with_uow_open.
  destruct r as [[a|]|x].
  - rewrite !(tx_bind_Ok _ _ _ _ _ Hget).
    destruct (Hdel a) as [Hst Hco].
    pose proof (transaction_outcome (_ ← del; (mret (view a) : tx View)) d Hst Hco) as H.
    unfold run_request, transaction in H. rewrite with_uow_open in H.
    unfold request_outcome, mbind, tx_bind in H |- *.
    destruct (del (open_session d None id)) as [[[]|x] s1]; exact H.
  - rewrite !(tx_bind_Ok _ _ _ _ _ Hget). split; [by left|done].
  - rewrite !(tx_bind_Raise _ _ _ _ _ Hget). split; [by left|done].
Qed.

Lemma query_lift_open {A B} (f : Database → A) (g : A → result B) d :
  ∃ r, (row ← query f; tx_lift (g row)) (open_session d None id) =
    (r, open_session d None id).
Proof. eexists. reflexivity. Qed.

(** Every handler but the last ends in one of the ways of [request_outcome]. *)
Lemma handle_outcome c e d op :
  command_body c e = Some op →
  request_outcome op d (run_request (handle c e) d) ∧
  (is_ok (run_request (handle c e) d).1 = false → (run_request (handle c e) d).2 = d).
Proof.
  intros Hop. pose proof (command_body_staging _ _ _ Hop) as [Hst Hco].
  destruct c; try discriminate Hop; cbn [command_body] in Hop; injection Hop as <-;
    cbn [handle];
    try (by apply commit_create_outcome); try (by apply transaction_outcome).
  - destruct (query_lift_open (λ d, db_care_schedules d !! uuid_value plant_id)
      (opt_to_domain care_schedule_to_domain) d) as [r Hr].
    eapply delete_outcome; [exact Hr|]. intros a. split; stage.
  - destruct (query_lift_open (λ d, db_notifications d !! uuid_value notification_id)
      (opt_to_domain notification_to_domain) d) as [r Hr].
    eapply delete_outcome; [exact Hr|]. intros a. split; stage.
Qed.

(** *** Counting the plants of a household *)

Definition plant_active (household_id : uuid) (m : PlantModel) : Prop :=
  pm_household_id m = household_id ∧ pm_removed m = false.
#[export] Instance plant_active_dec h m : Decision (plant_active h m).
Proof. unfold plant_active. apply _. Defined.

Definition active_rows (household_id : uuid) (t : gmap uuid PlantModel) : list PlantModel :=
  filter (plant_active household_id) (map_to_list t).*2.

Lemma active_plant_ids_rows h d :
  active_plant_ids h d = (λ m, Uuid (pm_id m)) <$> active_rows h (db_plants d).
Proof. done. Qed.

Lemma active_rows_insert h k m t :
  t !! k = None →
  length (active_rows h (<[k := m]> t)) =
  (if decide (plant_active h m) then 1 else 0) + length (active_rows h t).
Proof.
  intros Hk. unfold active_rows.
  rewrite (map_to_list_insert t k m Hk), fmap_cons. cbn [snd]. rewrite filter_cons.
  by case_decide.
Qed.

(** Overwriting a plant's row with one of the same household that is removed if the old
    one was adds no active plant. *)
Lemma active_rows_update h k m0 m t :
  t !! k = Some m0 → pm_household_id m = pm_household_id m0 →
  (pm_removed m0 = true → pm_removed m = true) →
  length (active_rows h (<[k := m]> t)) ≤ length (active_rows h t).
Proof.
  intros Hk Hh Hr. rewrite <- (insert_delete_eq t k m).
  rewrite <- (insert_delete_id t k m0 Hk) at 2.
  rewrite !active_rows_insert by apply lookup_delete_eq.
  unfold plant_active. case_decide as Hm; [|case_decide; lia].
  rewrite decide_True; [done|]. destruct Hm as [Hmh Hmr]. split; [congruence|].
  destruct (pm_removed m0); [|done]. by rewrite Hr in Hmr.
Qed.

(** Loading the household counts each of its active plants once. *)
Lemma active_ids_size h d :
  plants_keyed (db_plants d) →
  size (list_to_set (active_plant_ids h d) : gset PlantId) = length (active_rows h (db_plants d)).
Proof.
  intros Hk. rewrite size_list_to_set; [by rewrite active_plant_ids_rows, length_fmap|].
  rewrite active_plant_ids_rows. unfold active_rows.
  assert (NoDup (pm_id <$> (map_to_list (db_plants d)).*2)) as Hnd.
  { rewrite <- list_fmap_compose.
    rewrite (list_fmap_ext _ fst); [apply NoDup_fst_map_to_list|].
    intros i [k m] Hi%list_elem_of_lookup_2%elem_of_map_to_list. cbn. by apply Hk in Hi. }
  apply (NoDup_fmap_1 uuid_value). rewrite <- list_fmap_compose.
  change (uuid_value ∘ λ m, Uuid (pm_id m)) with pm_id.
  by apply NoDup_fmap_filter.
Qed.

(** What each body leaves in the plants table: the table itself, a new plant of a
    household below its cap, or an update that keeps the household and never revives. *)
Inductive plants_effect (d : Database) (t : gmap uuid PlantModel) : Prop :=
  | plants_same : t = db_plants d → plants_effect d t
  | plants_added m : db_plants d !! pm_id m = None → t = <[pm_id m := m]> (db_plants d) →
      size (list_to_set (active_plant_ids (pm_household_id m) d) : gset PlantId) < MAX_PLANTS →
      plants_effect d t
  | plants_updated m0 m : db_plants d !! pm_id m = Some m0 →
      pm_household_id m = pm_household_id m0 →
      (pm_removed m0 = true → pm_removed m = true) →
      t = <[pm_id m := m]> (db_plants d) → plants_effect d t.

Lemma household_cap_step d d' :
  household_cap d → plants_effect d (db_plants d') → household_cap d'.
Proof.
  intros [Hk Hc] [Hsame|m Hnew Ht Hlt|m0 m Hold Hh Hr Ht]; unfold household_cap.
  - rewrite Hsame. split; [done|]. intros h. specialize (Hc h).
    rewrite active_plant_ids_rows in *. by rewrite Hsame.
  - rewrite Ht. split; [by apply map_Forall_insert_2|]. intros h. specialize (Hc h).
    rewrite active_ids_size in Hlt by done.
    rewrite active_plant_ids_rows, length_fmap in *. rewrite Ht, active_rows_insert by done.
    case_decide as Ha; [|lia]. destruct Ha as [<- _]. lia.
  - rewrite Ht. split; [by apply map_Forall_insert_2|]. intros h. specialize (Hc h).
    rewrite active_plant_ids_rows, length_fmap in *. rewrite Ht.
    pose proof (active_rows_update h _ _ _ _ Hold Hh Hr). lia.
Qed.

(** *** The plants table after each command *)

(** Statements that leave the plants table alone. *)
Class keeps_plants (w : statement) : Prop := keeps_plants_frame :
  ∀ d d', w d = Some d' → db_plants d' = db_plants d.

(** Tables other than the plants'. *)
Class PlantsFree {T} (put : Database → T → Database) : Prop :=
  plants_free : ∀ d t, db_plants (put d t) = db_plants d.
#[export] Hint Extern 0 (PlantsFree _) => (intros ? ?; reflexivity) : typeclass_instances.

#[export] Instance staging_keeps_plants w :
  keeps_plants w → Staging keeps_plants (execute w).
Proof. apply staging_execute. Qed.

#[export] Instance insert_keeps {K V} `{Countable K} (get : Database → gmap K V) put k v :
  PlantsFree put → keeps_plants (insert_row get put k v).
Proof. intros Hp d d'. unfold insert_row. case_match; [done|]. intros [= <-]. apply Hp. Qed.
#[export] Instance merge_keeps {K V} `{Countable K} (get : Database → gmap K V) put k v :
  PlantsFree put → keeps_plants (merge_row get put k v).
Proof. intros Hp d d' [= <-]. apply Hp. Qed.
#[export] Instance delete_keeps {K V} `{Countable K} (get : Database → gmap K V) put k :
  PlantsFree put → keeps_plants (delete_row get put k).
Proof. intros Hp d d' [= <-]. apply Hp. Qed.
Lemma kept_plants {A} (op : tx A) d v s :
  Staging keeps_plants op → Coherent op →
  op (open_session d None id) = (Ok v, s) → ss_conflict s = false →
  db_plants (ss_view s) = db_plants d.
Proof.
  intros Hst Hco Hop Hc.
  pose proof (coherence (m := op) (open_session d None id) (open_session_coherent _ _ _)) as Hs.
  pose proof (staging (P := keeps_plants) (m := op) (open_session d None id))
    as [Hb _ _ _ (ws & Hw & Hk)].
  rewrite Hop in *. cbn in *. unfold coherent in Hs. rewrite Hb, Hc, Hw in Hs. clear - Hs Hk.
  revert d Hs. induction Hk as [|w ws Hw Hk IH]; intros d Hs; [by injection Hs as <-|].
  rewrite replay_writes_cons in Hs. destruct (w d) as [d1|] eqn:E; [|done].
  rewrite (IH _ Hs). by eapply Hw.
Qed.

Lemma require_inv {A} (o : option A) s a s' :
  require o s = (Ok a, s') → o = Some a ∧ s' = s.
Proof. destruct o; [|done]. by intros [= -> ->]. Qed.

Lemma plants_get_inv plant_id o s s' :
  plants_get plant_id s = (Ok o, s') →
  s' = s ∧ opt_to_domain plant_to_domain (db_plants (ss_view s) !! uuid_value plant_id) = Ok o.
Proof. unfold plants_get. intros H. tx_inv. done. Qed.

(** A found plant sits in the row it was loaded from. *)
Lemma loaded_plant d plant_id p :
  plants_keyed (db_plants d) →
  opt_to_domain plant_to_domain (db_plants d !! uuid_value plant_id) = Ok (Some p) →
  ∃ m, db_plants d !! uuid_value (p_id p) = Some m ∧ p_id p = plant_id ∧
    uuid_value (p_household_id p) = pm_household_id m ∧ p_removed p = pm_removed m ∧
    p_events p = [].
Proof.
  intros Hk H. destruct (db_plants d !! uuid_value plant_id) as [m|] eqn:E; [|done].
  cbn in H. destruct (plant_to_domain m) as [q|] eqn:Eq; [|done]. injection H as ->.
  apply plant_to_domain_Ok in Eq as (_ & Hid & Hh & Hr & _ & Hev).
  apply Hk in E as Hm. exists m.
  assert (p_id p = plant_id) as Hp by (rewrite Hid, Hm; apply Uuid_eta).
  split_and!; try done; [by rewrite Hp|by rewrite Hh].
Qed.

(** Saving a plant over its own row. *)
Lemma save_plant_effect d m0 p p' :
  db_plants d !! uuid_value (p_id p) = Some m0 →
  uuid_value (p_household_id p) = pm_household_id m0 → p_removed p = pm_removed m0 →
  p_id p' = p_id p → p_household_id p' = p_household_id p →
  p_removed p = false →
  plants_effect d (<[pm_id (plant_to_model p') := plant_to_model p']> (db_plants d)).
Proof.
  intros Hm Hh Hr Hid Hh' Ha. eapply (plants_updated _ _ m0); [| | |reflexivity]; cbn.
  - by rewrite Hid.
  - by rewrite Hh'.
  - rewrite <- Hr, Ha. done.
Qed.

Lemma plants_save_inv p s u s' :
  plants_save p s = (Ok u, s') → ss_conflict s' = false →
  ss_conflict s = false ∧
  ss_view s' = set_plants (ss_view s)
    (<[uuid_value (p_id p) := plant_to_model p]> (db_plants (ss_view s))) ∧
  ss_tracked s' = track_in (EPlant, uuid_value (p_id p)) (p_events p) (ss_tracked s).
Proof.
  intros H Hc. destruct (execute_track_inv _ _ _ _ _ _ H Hc) as (? & Hw & ?).
  injection Hw as Hw. by rewrite <- Hw.
Qed.

(** Load a plant, change it, save it: the three handlers that touch one plant alone. *)
Lemma plant_body_effect (f : Plant → result Plant) plant_id d v s :
  plants_keyed (db_plants d) →
  (∀ p p', f p = Ok p' → p_removed p = false ∧ p_id p' = p_id p ∧
    p_household_id p' = p_household_id p) →
  (found ← plants_get plant_id; plant ← require found; plant ← tx_lift (f plant);
   _ ← plants_save plant; mret (PlantView_from_domain plant))
    (open_session d None id) = (Ok v, s) →
  ss_conflict s = false → plants_effect d (db_plants (ss_view s)).
Proof.
  intros Hk Hf (found & s1 & [-> Hl]%plants_get_inv & H)%tx_bind_inv Hc.
  apply tx_bind_inv in H as (p & s2 & [-> ->]%require_inv & H).
  apply tx_bind_inv in H as (p' & s3 & [Hp' ->]%tx_lift_inv & H).
  apply tx_bind_inv in H as (u & s4 & H & [-> ->]%tx_ret_inv).
  apply plants_save_inv in H as (_ & -> & _); [|done].
  destruct (loaded_plant d plant_id p Hk Hl) as (m & Hm & _ & Hh & Hr & _).
  destruct (Hf _ _ Hp') as (Ha & Hi & Hhh). by eapply save_plant_effect.
Qed.

Lemma households_get_inv household_id o s s' :
  households_get household_id s = (Ok o, s') →
  s' = s ∧ match o with
  | None => True
  | Some h => hh_plant_ids h =
      list_to_set (active_plant_ids (uuid_value household_id) (ss_view s))
  end.
Proof.
  unfold households_get. intros (row & s1 & (-> & -> & _)%query_inv & H)%tx_bind_inv.
  destruct (db_households _ !! _) as [m|]; [|by apply tx_ret_inv in H as [-> ->]].
  apply tx_bind_inv in H as (ids & s2 & (-> & -> & _)%query_inv & H).
  apply tx_bind_inv in H as (h & s3 & [Hh ->]%tx_lift_inv & [-> ->]%tx_ret_inv).
  split; [done|]. by apply Household_new_Ok in Hh as (_ & _ & -> & _).
Qed.

Lemma AddPlant_effect h sp n l e d v s :
  plants_keyed (db_plants d) →
  AddPlant_add h sp n l e (open_session d None id) = (Ok v, s) →
  ss_conflict s = false → plants_effect d (db_plants (ss_view s)).
Proof.
  intros Hk (o & s1 & [-> Ho]%households_get_inv & H)%tx_bind_inv Hc.
  apply tx_bind_inv in H as (hh & s2 & [-> ->]%require_inv & H).
  apply tx_bind_inv in H as (p & s3 & [Hp ->]%tx_lift_inv & H).
  apply tx_bind_inv in H as (hh' & s4 & [Hadd ->]%tx_lift_inv & H).
  apply tx_bind_inv in H as (u & s5 & H & [-> ->]%tx_ret_inv).
  apply execute_track_inv in H as (_ & Hw & _); [|done]. cbn in Ho, Hw.
  unfold insert_plant in Hw. destruct (db_households d !! _); [|done].
  unfold insert_row in Hw. destruct (db_plants d !! _) eqn:Hnew; [done|].
  injection Hw as Hw. rewrite <- Hw. cbn.
  unfold Plant_add in Hp. apply bind_Ok in Hp as (p0 & Hp0%Plant_new_Ok & [= <-]).
  rewrite Hp0 in *. cbn in *.
  match goal with |- plants_effect _ (<[ _ := ?m ]> _) =>
    apply (plants_added _ _ m Hnew eq_refl) end. cbn.
  unfold Household_add_plant in Hadd. rewrite Ho in Hadd. case_decide as Hin.
  - exfalso. rewrite active_plant_ids_rows in Hin.
    apply elem_of_list_to_set, list_elem_of_fmap in Hin as (m & Hm & Hact).
    apply list_elem_of_filter in Hact as [_ ([k m'] & -> & Hkm)%list_elem_of_fmap].
    apply elem_of_map_to_list in Hkm. cbn in *. apply Hk in Hkm as Hid.
    injection Hm as Hm. rewrite Hm, Hid, Hkm in Hnew. done.
  - case_decide; [done|]. lia.
Qed.

Lemma WaterPlant_effect pid ver e d v s :
  plants_keyed (db_plants d) →
  WaterPlant_body pid ver e (open_session d None id) = (Ok v, s) →
  ss_conflict s = false → plants_effect d (db_plants (ss_view s)).
Proof.
  intros Hk (o & s1 & H1 & H)%tx_bind_inv Hc.
  assert (s1 = open_session d None id) as -> by (unfold schedules_get_for_update,
    schedules_get in H1; by tx_inv).
  apply tx_bind_inv in H as (sch & s2 & [-> ->]%require_inv & H).
  apply tx_bind_inv in H as (o & s3 & [-> Hl]%plants_get_inv & H).
  apply tx_bind_inv in H as (p & s4 & [-> ->]%require_inv & H).
  apply tx_bind_inv in H as (p' & s5 & [Hp' ->]%tx_lift_inv & H).
  apply tx_bind_inv in H as (sch' & s6 & [_ ->]%tx_lift_inv & H).
  apply tx_bind_inv in H as (u & s7 & Hsave & H).
  apply tx_bind_inv in H as (u' & s8 & Hs & [-> ->]%tx_ret_inv).
  apply execute_track_inv in Hs as (Hc7 & [= Hw] & _); [|done].
  apply plants_save_inv in Hsave as (_ & Hv & _); [|done].
  rewrite <- Hw. cbn. rewrite Hv. cbn.
  destruct (loaded_plant d pid p Hk Hl) as (m & Hm & _ & Hh & Hr & _).
  unfold Plant_water in Hp'. apply bind_Ok in Hp' as ([] & Ha%ensure_active_Ok & Hp').
  case_match; [|done]. injection Hp' as <-. by eapply save_plant_effect.
Qed.

(** Every command body leaves the plants table in one of the three ways. *)
Lemma command_plants_effect c e op d v s :
  plants_keyed (db_plants d) → command_body c e = Some op →
  op (open_session d None id) = (Ok v, s) → ss_conflict s = false →
  plants_effect d (db_plants (ss_view s)).
Proof.
  intros Hk Hop Hrun Hc. pose proof (command_body_staging _ _ _ Hop) as [_ Hco].
  assert (Staging keeps_plants op → plants_effect d (db_plants (ss_view s))) as Hkeep.
  { intros Hst. apply plants_same. by eapply kept_plants. }
  destruct c; try discriminate Hop; cbn [command_body] in Hop; injection Hop as <-;
    try (apply Hkeep; stage).
  - by eapply AddPlant_effect.
  - eapply plant_body_effect; [done| |exact Hrun|done]. intros p p' H.
    by apply (plant_apply_Ok p (CallRemove _ _)) in H as (? & ? & ? & _).
  - eapply plant_body_effect; [done| |exact Hrun|done]. intros p p' H.
    by apply (plant_apply_Ok p (CallMove _ _ _)) in H as (? & ? & ? & _).
  - by eapply WaterPlant_effect.
Qed.

(** The request that stages an event of its own. *)
Lemma sync_run e d :
  let ev := mkEvent (env_mint e 0) (env_now e) SpeciesSyncRequested in
  run_request (RequestSpeciesSyncHandler e) d =
  match replay_writes (outbox_statements None [ev]) d with
  | Some d' => (Ok (SyncRequestedView true), d')
  | None => (Raise ConcurrentWriteError, d)
  end.
Proof.
  intros ev. unfold run_request, RequestSpeciesSyncHandler. rewrite with_uow_open.
  destruct (outbox_append_writes ev (open_session d None id)) as (w & Hw & He).
  pose proof (execute_writes w (open_session d None id)) as (Hok & Hws & Hb & Hx & Ho & Hc & Ht).
  destruct (execute w (open_session d None id)) as [r s1] eqn:Eex; cbn [fst snd] in *; subst r.
  fold ev. rewrite (tx_bind_Ok _ _ _ _ _ He). unfold mbind at 1, tx_bind at 1.
  rewrite uow_commit_run. unfold tracked_events. rewrite Hws, Hb, Hx, Ho, Hc, Ht. cbn.
  change (ss_context _) with (@None MessageContext) in Hw. rewrite Hw. unfold id.
  change (w :: outbox_statements None []) with [w]. by destruct (replay_writes [w] d).
Qed.

Lemma sync_outcome e d :
  (run_request (RequestSpeciesSyncHandler e) d).2 = d ∨
  is_ok (run_request (RequestSpeciesSyncHandler e) d).1 = true ∧
  ∃ es, published (run_request (RequestSpeciesSyncHandler e) d).2 = published d ++ es ∧
    db_plants (run_request (RequestSpeciesSyncHandler e) d).2 = db_plants d.
Proof.
  rewrite sync_run. destruct (replay_writes _ d) as [d'|] eqn:E; [right|by left].
  apply outbox_statements_published in E as [Hp Hd]. split; [done|].
  eexists. split; [exact Hp|]. cbn. by rewrite Hd.
Qed.

Lemma loaded_schedule d plant_id s :
  schedules_keyed (db_care_schedules d) →
  opt_to_domain care_schedule_to_domain (db_care_schedules d !! uuid_value plant_id) =
    Ok (Some s) →
  cs_plant_id s = plant_id ∧ cs_events s = [].
Proof.
  intros Hk H. destruct (db_care_schedules d !! uuid_value plant_id) as [m|] eqn:E; [|done].
  cbn in H. destruct (care_schedule_to_domain m) as [q|] eqn:Eq; [|done]. injection H as ->.
  apply care_schedule_to_domain_Ok in Eq as (_ & Hev & _ & Hid).
  apply Hk in E as Hm. split; [|done]. rewrite Hid, Hm. apply Uuid_eta.
Qed.

(** Saving a plant and its schedule, on a fresh session. *)
Lemma save_both_run d p s plant_id v :
  p_id p = plant_id → cs_plant_id s = plant_id →
  let P := <[uuid_value plant_id := plant_to_model p]> (db_plants d) in
  let S := <[uuid_value plant_id := care_schedule_to_model s]> (db_care_schedules d) in
  (_ ← plants_save p; _ ← schedules_save s; (mret v : tx View)) (open_session d None id) =
  (Ok v, mkSession d (set_care_schedules (set_plants d P) S)
    [merge_row db_plants set_plants (uuid_value plant_id) (plant_to_model p);
     merge_row db_care_schedules set_care_schedules (uuid_value plant_id)
       (care_schedule_to_model s)] false
    [((EPlant, uuid_value plant_id), p_events p);
     ((ECareSchedule, uuid_value plant_id), cs_events s)] false None id).
Proof. intros <- Hs. cbn. unfold schedules_save. cbn. by rewrite Hs. Qed.

Lemma Plant_water_refused p now x y :
  Plant_water p now = Raise x →
  x = (if p_removed p then PlantAlreadyRemovedError
       else if rested (p_last_watered_at p) now MIN_WATERING_INTERVAL then y
       else PlantWateringTooSoonError) ∧ x ≠ OverflowError.
Proof.
  unfold Plant_water, Plant_ensure_active. destruct (p_removed p); cbn; [by intros [= <-]|].
  destruct (rested _ _ _); [done|by intros [= <-]].
Qed.

(** The watering body, rule by rule. *)
Lemma WaterPlant_run d plant_id ver e p s :
  let s0 := open_session d None id in
  opt_to_domain plant_to_domain (db_plants d !! uuid_value plant_id) = Ok (Some p) →
  opt_to_domain care_schedule_to_domain (db_care_schedules d !! uuid_value plant_id) =
    Ok (Some s) →
  WaterPlant_body plant_id ver e s0 =
  match Plant_water p (env_now e) with
  | Raise x => (Raise x, s0)
  | Ok p' =>
      match CareSchedule_complete_watering s (env_now e) (default (cs_version s) ver)
              (env_mint e 0) with
      | Raise x => (Raise x, s0)
      | Ok s' =>
          (_ ← plants_save p'; _ ← schedules_save s';
           mret (CareScheduleView_from_domain s')) s0
      end
  end.
Proof.
  intros s0 Hp Hs. unfold WaterPlant_body.
  rewrite (tx_bind_Ok _ _ _ (Some s) s0)
    by (transitivity (opt_to_domain care_schedule_to_domain
          (db_care_schedules d !! uuid_value plant_id), s0); [done|by rewrite Hs]).
  rewrite (tx_bind_Ok _ _ _ s s0) by done.
  rewrite (tx_bind_Ok _ _ _ (Some p) s0)
    by (transitivity (opt_to_domain plant_to_domain
          (db_plants d !! uuid_value plant_id), s0); [done|by rewrite Hp]).
  rewrite (tx_bind_Ok _ _ _ p s0) by done.
  destruct (Plant_water p (env_now e)) as [p'|x]; [|done].
  by destruct (CareSchedule_complete_watering s _ _ _).
Qed.

(** ** Theorems *)

(** [C10] The cap of a household holds in the database, not only in one aggregate: from
    any state in which every household owns at most [MAX_PLANTS] plants, no sequence of
    requests of any kind reaches one in which some household owns more. *)
Theorem household_cap_in_database (d : Database) (requests : list (Command * Env)) :
  household_cap d → household_cap (serve d requests).
Proof.
  revert d. induction requests as [|[c e] rs IH]; intros d Hd; [done|].
  change (serve d ((c, e) :: rs)) with (serve (run_request (handle c e) d).2 rs).
  apply IH. destruct (command_body c e) as [op|] eqn:Hop.
  - pose proof (handle_outcome c e d op Hop) as [[->|(v & s & _ & Hrun & Hc & Hrows & _)] _];
      [done|]. apply (household_cap_step d); [done|].
    rewrite Hrows. cbn. destruct Hd as [Hk _]. by eapply command_plants_effect.
  - destruct c; try discriminate Hop. cbn [handle].
    destruct (sync_outcome e d) as [->|(_ & es & _ & Hp)]; [done|].
    apply (household_cap_step d); [done|]. by apply plants_same.
Qed.

Lemma household_cap_in_database_witness :
  let e k := mkEnv (Z.of_N k) (λ n, (k + N.of_nat n)%N) in
  let rs := [(CreateHousehold "home" None "", e 1%N);
             (AddPlant (Uuid 1) (Uuid 5) "fern" (MkLocation "sill") None "", e 10%N);
             (RemovePlant (Uuid 10), e 20%N)] in
  household_cap empty_database ∧ household_cap (serve empty_database rs).
Proof.
  intros e rs.
  assert (household_cap empty_database) as H.
  { split; [apply map_Forall_empty|]. intros h. vm_compute. lia. }
  split; [exact H|]. apply (household_cap_in_database empty_database rs H).
Defined.

(** Every request is atomic: one that raises leaves every row of every table as it
    was, and one that answers never rewrites what was published, it only appends. *)
Theorem requests_are_atomic (c : Command) (e : Env) (d : Database) :
  match run_request (handle c e) d with
  | (Raise _, d') => d' = d
  | (Ok _, d') => ∃ es, published d' = published d ++ es
  end.
Proof.
  destruct (command_body c e) as [op|] eqn:Hop.
  - pose proof (handle_outcome c e d op Hop) as [Ho Hr].
    destruct (run_request (handle c e) d) as [[v|x] d']; cbn in *; [|by apply Hr].
    destruct Ho as [Hd|(v' & s & _ & _ & _ & _ & Hp)]; cbn in *; [|by eexists].
    exists []. by rewrite Hd, app_nil_r.
  - destruct c; try discriminate Hop. cbn [handle]. rewrite sync_run.
    destruct (replay_writes _ d) as [d'|] eqn:E; [|done].
    apply outbox_statements_published in E as [Hp _]. by eexists.
Qed.

(** [C11] Watering is all or nothing over two contexts: when the plant and its schedule
    exist, the request raises exactly what the first failing rule says and writes
    nothing, or moves the plant's clock and the schedule together, one version on and one
    interval after now, and publishes the one [WateringCompleted] that says so. *)
Theorem water_plant_all_or_nothing (d : Database) (plant_id : PlantId)
    (expected_version : option Z) (e : Env) (p : Plant) (s : CareSchedule) :
  plants_keyed (db_plants d) → schedules_keyed (db_care_schedules d) →
  opt_to_domain plant_to_domain (db_plants d !! uuid_value plant_id) = Ok (Some p) →
  opt_to_domain care_schedule_to_domain (db_care_schedules d !! uuid_value plant_id) =
    Ok (Some s) →
  env_mint e 0 ∉ ob_event_id <$> db_outbox d →
  let next := (env_now e + interval_value (cs_watering_interval s))%Z in
  match run_request (WaterPlantHandler plant_id expected_version e) d with
  | (Raise x, d') => d' = d ∧
      x = (if p_removed p then PlantAlreadyRemovedError
           else if rested (p_last_watered_at p) (env_now e) MIN_WATERING_INTERVAL then
             if decide (default (cs_version s) expected_version = cs_version s)
             then OverflowError else CareScheduleVersionConflictError
           else PlantWateringTooSoonError) ∧
      (x = OverflowError → ¬ (DATETIME_MIN ≤ next ≤ DATETIME_MAX)%Z)
  | (Ok v, d') => v = CareScheduleView plant_id (interval_value (cs_watering_interval s)) next
        (cs_version s + 1) ∧
      p_removed p = false ∧
      (pm_last_watered_at <$> db_plants d' !! uuid_value plant_id) = Some (Some (env_now e)) ∧
      db_care_schedules d' !! uuid_value plant_id =
        Some (mkCareScheduleModel (uuid_value plant_id)
          (interval_value (cs_watering_interval s)) next (cs_version s + 1)) ∧
      published d' = published d ++
        [mkEvent (env_mint e 0) (env_now e) (WateringCompleted plant_id (env_now e) next)]
  end.
Proof.
  intros Hk Hks Hp Hs Heid next. unfold WaterPlantHandler.
  assert (Staging domain_write (WaterPlant_body plant_id expected_version e)) as Hst by stage.
  rewrite (run_transaction domain_write _ d).
  pose proof (WaterPlant_run d plant_id expected_version e p s Hp Hs) as Hrun.
  destruct (Plant_water p (env_now e)) as [p'|x] eqn:Hw.
  2: { rewrite Hrun. split; [done|].
       destruct (Plant_water_refused _ _ _ (if decide (default (cs_version s) expected_version =
         cs_version s) then OverflowError else CareScheduleVersionConflictError) Hw); done. }
  unfold Plant_water in Hw. apply bind_Ok in Hw as ([] & Ha%ensure_active_Ok & Hw).
  destruct (rested _ _ _) eqn:Hrest; [|done]. rewrite Ha.
  unfold CareSchedule_complete_watering in Hrun.
  destruct (decide (default (cs_version s) expected_version = cs_version s)) as [Hv|Hv].
  2: { rewrite ensure_version_stale in Hrun by done. cbn in Hrun. by rewrite Hrun. }
  rewrite Hv, (proj2 (ensure_version_Ok s (cs_version s) tt)) in Hrun by done. cbn in Hrun.
  fold next in Hrun. unfold dt_add in Hrun. fold next in Hrun.
  case_decide; cbn in Hrun; [|by rewrite Hrun].
  apply loaded_plant in Hp as (m & _ & Hpid & _ & _ & Hpe); [|done].
  apply loaded_schedule in Hs as [Hsid Hse]; [|done].
  injection Hw as <-. rewrite (save_both_run d _ _ plant_id) in Hrun by (exact Hpid || exact Hsid).
  rewrite Hrun. clear Hrun. cbn [p_events cs_events CareSchedule_move].
  unfold record_event. rewrite Hpe, Hse.
  match goal with |- context [mkSession d ?v _ _ _ _ _ _] => set (d2 := v) end.
  set (ev := mkEvent _ _ (WateringCompleted _ _ _)) in *.
  destruct (outbox_statement_one None ev d2) as (d' & Hd' & Hp & Hdd); [exact Heid|].
  cbn [ss_writes]. rewrite replay_writes_app.
  match goal with |- context [replay_writes ?ws d ≫= _] =>
    change (replay_writes ws d) with (Some d2) end.
  match goal with |- context [tracked_events ?x] => change (tracked_events x) with [ev] end.
  cbn [mbind option_bind]. rewrite Hd'. cbv beta iota.
  rewrite Hp, Hdd. unfold d2, ev. cbn. rewrite Hsid, !lookup_insert_eq. cbn.
  unfold CareScheduleView_from_domain, care_schedule_to_model. cbn. by rewrite Hsid.
Qed.

Definition demo_env (k : Z) : Env := mkEnv (hours k) (λ n, (Z.to_N k + N.of_nat n)%N).
Definition demo_database : Database := serve empty_database
  [(CreateHousehold "home" None "", demo_env 1);
   (AddPlant (Uuid 1) (Uuid 5) "fern" (MkLocation "sill") None "", demo_env 10);
   (CreateCareSchedule (Uuid 10) (days 7) None "", demo_env 20)].

Lemma water_plant_all_or_nothing_witness :
  ∃ d', run_request (WaterPlantHandler (Uuid 10) None (demo_env 30)) demo_database =
      (Ok (CareScheduleView (Uuid 10) (days 7) (hours 30 + days 7) 2), d') ∧
    published d' = published demo_database ++
      [mkEvent 30 (hours 30) (WateringCompleted (Uuid 10) (hours 30) (hours 30 + days 7))].
Proof.
  pose proof (water_plant_all_or_nothing demo_database (Uuid 10) None (demo_env 30)
    (mkPlant (Uuid 10) (Uuid 1) (Uuid 5) "fern" (MkLocation "sill") (hours 10) None None false [])
    (CareSchedule_new (Uuid 10) (MkCareInterval (days 7)) (hours 20 + days 7) 1)) as H.
  assert (is_ok (run_request (WaterPlantHandler (Uuid 10) None (demo_env 30)) demo_database).1 =
    true) as Hok by (vm_compute; reflexivity).
  destruct (run_request (WaterPlantHandler (Uuid 10) None (demo_env 30)) demo_database)
    as [[v|x] d']; [|discriminate Hok].
  exists d'. destruct H as (-> & _ & _ & _ & Hp).
  - apply map_Forall_to_list. vm_compute. repeat constructor.
  - apply map_Forall_to_list. vm_compute. repeat constructor.
  - vm_compute. reflexivity.
  - vm_compute. reflexivity.
  - apply (bool_decide_unpack _). vm_compute. exact I.
  - split; [reflexivity|exact Hp].
Defined.
