(* ===== verification/SagaIntents.v ===== *)
(** Recorded cross-context commands: their keys, their payloads, and the repository of
    [write_shared.saga_intents] ([application/ports/saga_intents.py],
    [persistence/repositories/sagas.py]). *)

From S2P Require Import Prelude Domain Topics Rows Views SagaRows Database UnitOfWork.
From S2P Require Import Repositories.
From stdpp Require Import pretty.

(** ** Keys *)

(** [str(uuid)]: 32 hexadecimal digits in groups of 8, 4, 4, 4 and 12. *)
Definition hex_digit (n : N) : Ascii.ascii :=
  Ascii.ascii_of_N (if (n <? 10)%N then 48 + n else 87 + n)%N.

Fixpoint hex_digits (width : nat) (n : N) : list Ascii.ascii :=
  match width with
  | O => []
  | S width => hex_digits width (n / 16)%N ++ [hex_digit (n mod 16)%N]
  end.

Definition hyphen : Ascii.ascii := Ascii.ascii_of_N 45.

Definition dashed (h : list Ascii.ascii) : list Ascii.ascii :=
  let dash := hyphen in
  take 8 h ++ dash :: take 4 (drop 8 h) ++ dash :: take 4 (drop 12 h) ++ dash ::
  take 4 (drop 16 h) ++ dash :: drop 20 h.

Definition uuid_str (u : uuid) : string :=
  String.string_of_list_ascii (dashed (hex_digits 32 u)).

Definition intent_key (saga_id : uuid) (step_no : Z) : string :=
  ("saga-intent:" +:+ uuid_str saga_id +:+ ":" +:+ pretty step_no)%string.

Record RecordedIntent := mkRecordedIntent {
  rin_saga_id : uuid;
  rin_step_no : Z;
  rin_command_name : string;
  rin_payload : gmap string JsonValue;
  rin_idempotency_key : string }.

Definition recorded_intent (saga_id : uuid) (step_no : Z) (command_name : string)
    (payload : gmap string JsonValue) : RecordedIntent :=
  mkRecordedIntent saga_id step_no command_name payload (intent_key saga_id step_no).

Record IntentClaim := mkIntentClaim {
  ic_id : Z;
  ic_saga_id : uuid;
  ic_command_name : string;
  ic_payload : gmap string JsonValue;
  ic_attempts : Z;
  ic_idempotency_key : string;
  ic_recorded_at : datetime }.

(** ** The repository *)

(** [UPDATE saga_intents SET ... WHERE ...] on the rows in identity order. *)
Definition update_where (P : SagaIntentModel → bool) (f : SagaIntentModel → SagaIntentModel)
    (rows : list SagaIntentModel) : list SagaIntentModel :=
  (λ r, if P r then f r else r) <$> rows.

Definition has_id (id : Z) (r : SagaIntentModel) : bool := bool_decide (si_id r = id).

Definition set_intent (status : IntentStatus) (attempts : Z) (last_error : option exn)
    (claimed_at executed_at : option datetime) (r : SagaIntentModel) : SagaIntentModel :=
  mkSagaIntentModel (si_id r) (si_saga_id r) (si_step_no r) (si_command_name r) (si_payload r)
    status attempts (si_idempotency_key r) last_error claimed_at executed_at (si_created_at r).

Definition next_intent_id (d : Database) : Z := (1 + Z.of_nat (length (db_saga_intents d)))%Z.

Definition new_intent (id : Z) (i : RecordedIntent) (now : datetime) : SagaIntentModel :=
  mkSagaIntentModel id (rin_saga_id i) (rin_step_no i) (rin_command_name i) (rin_payload i)
    IntentPending 0 (rin_idempotency_key i) None None None now.

(** [INSERT]: the idempotency key is unique, the identity column takes the next value. *)
Definition insert_intent (i : RecordedIntent) (now : datetime) : statement := fun d =>
  if decide (rin_idempotency_key i ∈ si_idempotency_key <$> db_saga_intents d) then None
  else Some (set_saga_intents d
    (db_saga_intents d ++ [new_intent (next_intent_id d) i now])).

Definition intents_record (i : RecordedIntent) (now : datetime) : tx unit :=
  execute (insert_intent i now).

Definition intent_lease_expired (lease : timedelta) (now : datetime) (r : SagaIntentModel) : bool :=
  match si_claimed_at r with
  | None => true
  | Some claimed_at => bool_decide (lease < now - claimed_at)%Z
  end.

(** [status IN ('pending', 'failed')]. *)
Definition retryable (r : SagaIntentModel) : bool :=
  match si_status r with IntentPending | IntentFailed => true | _ => false end.

Definition claimable_intents (limit : nat) (lease : timedelta) (now : datetime)
    (rows : list SagaIntentModel) : list SagaIntentModel :=
  take limit (filter (λ r, retryable r && intent_lease_expired lease now r = true) rows).

Definition claim_of (r : SagaIntentModel) : IntentClaim :=
  mkIntentClaim (si_id r) (si_saga_id r) (si_command_name r) (si_payload r) (si_attempts r)
    (si_idempotency_key r) (si_created_at r).

Definition leased (now : datetime) (r : SagaIntentModel) : SagaIntentModel :=
  set_intent (si_status r) (si_attempts r) (si_last_error r) (Some now) (si_executed_at r) r.

(** The select, then the update of the selected rows and what it returns. *)
Definition intents_claim_pending (limit : nat) (lease : timedelta) (now : datetime) :
    tx (list IntentClaim) :=
  models ← query (λ d, claimable_intents limit lease now (db_saga_intents d));
  match models with
  | [] => mret []
  | _ =>
      let taken r := bool_decide (si_id r ∈ si_id <$> models) && retryable r in
      _ ← execute (λ d, Some (set_saga_intents d
            (update_where taken (leased now) (db_saga_intents d))));
      query (λ d, claim_of <$> filter (λ r, taken r = true) (db_saga_intents d))
  end.

Definition cancelled_row (r : SagaIntentModel) : SagaIntentModel :=
  set_intent IntentCancelled (si_attempts r) (si_last_error r) None (si_executed_at r) r.

Definition pending_with (key : string) (r : SagaIntentModel) : bool :=
  bool_decide (si_idempotency_key r = key) && bool_decide (si_status r = IntentPending).

(** The key is unique, so [RETURNING] gives at most one row. *)
Definition intents_cancel_pending (key : string) : tx bool :=
  cancelled ← query (λ d, existsb (pending_with key) (db_saga_intents d));
  _ ← execute (λ d, Some (set_saga_intents d
        (update_where (pending_with key) cancelled_row (db_saga_intents d))));
  mret cancelled.

Definition executed_row (now : datetime) (r : SagaIntentModel) : SagaIntentModel :=
  set_intent IntentExecuted (si_attempts r) None None (Some now) r.

Definition intents_mark_executed (id : Z) (now : datetime) : tx unit :=
  execute (λ d, Some (set_saga_intents d
    (update_where (has_id id) (executed_row now) (db_saga_intents d)))).

Definition parked_row (error : exn) (r : SagaIntentModel) : SagaIntentModel :=
  set_intent IntentParked (si_attempts r) (Some error) None (si_executed_at r) r.

Definition intents_park (id : Z) (error : exn) : tx unit :=
  execute (λ d, Some (set_saga_intents d
    (update_where (has_id id) (parked_row error) (db_saga_intents d)))).

Definition failed_row (error : exn) (r : SagaIntentModel) : SagaIntentModel :=
  set_intent (si_status r) (si_attempts r + 1) (Some error) None (si_executed_at r) r.

Definition intents_mark_failed (id : Z) (error : exn) (max_attempts : Z) : tx IntentStatus :=
  _ ← execute (λ d, Some (set_saga_intents d
        (update_where (has_id id) (failed_row error) (db_saga_intents d))));
  attempt ← query (λ d, si_attempts <$> find (has_id id) (db_saga_intents d));
  match attempt with
  | None => tx_raise ValueError
  | Some attempt =>
      if bool_decide (max_attempts ≤ attempt)%Z then
        _ ← intents_park id error; mret IntentParked
      else mret IntentFailed
  end.

Definition released_row (r : SagaIntentModel) : SagaIntentModel :=
  set_intent (si_status r) (si_attempts r) (si_last_error r) None (si_executed_at r) r.

Definition intents_release_claim (id : Z) : tx unit :=
  execute (λ d, Some (set_saga_intents d
    (update_where (has_id id) released_row (db_saga_intents d)))).

Definition intents_for_saga (saga_id : uuid) : tx (list SagaIntent) :=
  query (λ d, saga_intent_to_domain <$>
    filter (λ r, si_saga_id r = saga_id) (db_saga_intents d)).

(** ** Commands and their payloads

    [command.model_dump(mode="json")] and [model_validate] for the four commands a step
    records; extra fields are forbidden. *)
Abbreviation payload_fields := (gmap string JsonValue) (only parsing).

Definition json_uuid (p : payload_fields) (field : string) : result uuid :=
  match p !! field with Some (JUuid u) => Ok u | _ => Raise ValidationError end.
Definition json_time (p : payload_fields) (field : string) : result datetime :=
  match p !! field with Some (JTime t) => Ok t | _ => Raise ValidationError end.
Definition json_seconds (p : payload_fields) (field : string) : result timedelta :=
  match p !! field with Some (JSeconds t) => Ok t | _ => Raise ValidationError end.
Definition json_opt_uuid (p : payload_fields) (field : string) : result (option uuid) :=
  match p !! field with
  | Some (JUuid u) => Ok (Some u) | Some JNull | None => Ok None | _ => Raise ValidationError
  end.
(** [Field(default=None, max_length=255)]. *)
Definition json_key (p : payload_fields) : result (option string) :=
  match p !! "idempotency_key"%string with
  | Some (JStr s) => if decide (String.length s ≤ 255) then Ok (Some s) else Raise ValidationError
  | Some JNull | None => Ok None
  | _ => Raise ValidationError
  end.

Definition only_fields (p : payload_fields) (fields : list string) : result unit :=
  raise_unless (dom p ⊆ (list_to_set fields : gset string)) ValidationError.

Inductive DelegatedCommand :=
  | CreateCareScheduleCommand (plant_id : PlantId) (watering_interval : timedelta)
  | DeleteCareScheduleCommand (plant_id : PlantId)
  | CreateOnboardingNotificationCommand (household_id : HouseholdId) (plant_id : PlantId)
      (next_watering_at : datetime) (notification_id : option NotificationId)
  | DeleteNotificationCommand (notification_id : NotificationId).

(** [type(command).__name__]. *)
Definition delegated_name (c : DelegatedCommand) : string :=
  match c with
  | CreateCareScheduleCommand _ _ => "CreateCareScheduleCommand"
  | DeleteCareScheduleCommand _ => "DeleteCareScheduleCommand"
  | CreateOnboardingNotificationCommand _ _ _ _ => "CreateOnboardingNotificationCommand"
  | DeleteNotificationCommand _ => "DeleteNotificationCommand"
  end%string.

Definition model_dump (c : DelegatedCommand) (key : JsonValue) : payload_fields :=
  <["idempotency_key"%string := key]>
  match c with
  | CreateCareScheduleCommand p i =>
      <["plant_id" := JUuid (uuid_value p)]> (<["watering_interval_seconds" := JSeconds i]> ∅)
  | DeleteCareScheduleCommand p => <["plant_id" := JUuid (uuid_value p)]> ∅
  | CreateOnboardingNotificationCommand h p t n =>
      <["household_id" := JUuid (uuid_value h)]> (<["plant_id" := JUuid (uuid_value p)]>
        (<["next_watering_at" := JTime t]>
          (<["notification_id" := match n with Some n => JUuid (uuid_value n) | None => JNull end]>
            ∅)))
  | DeleteNotificationCommand n => <["notification_id" := JUuid (uuid_value n)]> ∅
  end%string.

(** [_handler_for] and [_command_type_of]: the request map by class name.  The requests of
    the HTTP interface are in the map as well; no step records one. *)
Inductive handler_type :=
  | HCreateCareSchedule | HDeleteCareSchedule | HCreateOnboardingNotification
  | HDeleteNotification.

Definition handler_for (command_name : string) : result handler_type :=
  if decide (command_name = "CreateCareScheduleCommand"%string) then Ok HCreateCareSchedule
  else if decide (command_name = "DeleteCareScheduleCommand"%string) then Ok HDeleteCareSchedule
  else if decide (command_name = "CreateOnboardingNotificationCommand"%string)
  then Ok HCreateOnboardingNotification
  else if decide (command_name = "DeleteNotificationCommand"%string) then Ok HDeleteNotification
  else Raise UnknownCommandError.

(** [command_type.model_validate(payload)]: the command and its idempotency key. *)
Definition model_validate (h : handler_type) (p : payload_fields) :
    result (DelegatedCommand * option string) :=
  match h with
  | HCreateCareSchedule =>
      plant ← json_uuid p "plant_id"; interval ← json_seconds p "watering_interval_seconds";
      key ← json_key p;
      _ ← only_fields p ["plant_id"; "watering_interval_seconds"; "idempotency_key"];
      Ok (CreateCareScheduleCommand (Uuid plant) interval, key)
  | HDeleteCareSchedule =>
      plant ← json_uuid p "plant_id"; key ← json_key p;
      _ ← only_fields p ["plant_id"; "idempotency_key"];
      Ok (DeleteCareScheduleCommand (Uuid plant), key)
  | HCreateOnboardingNotification =>
      household ← json_uuid p "household_id"; plant ← json_uuid p "plant_id";
      at_ ← json_time p "next_watering_at"; n ← json_opt_uuid p "notification_id";
      key ← json_key p;
      _ ← only_fields p ["household_id"; "plant_id"; "next_watering_at"; "notification_id";
        "idempotency_key"];
      Ok (CreateOnboardingNotificationCommand (Uuid household) (Uuid plant) at_ (Uuid <$> n), key)
  | HDeleteNotification =>
      n ← json_uuid p "notification_id"; key ← json_key p;
      _ ← only_fields p ["notification_id"; "idempotency_key"];
      Ok (DeleteNotificationCommand (Uuid n), key)
  end%string.

(** [_command_for]: every one of the four has an [idempotency_key] field, so the claim's
    key is put into the payload. *)
Definition command_for (h : handler_type) (c : IntentClaim) :
    result (DelegatedCommand * option string) :=
  model_validate h (<["idempotency_key"%string := JStr (ic_idempotency_key c)]> (ic_payload c)).

(** ** Lemmas *)

(** *** Keys *)

Lemma hex_digits_length w n : length (hex_digits w n) = w.
Proof. revert n. induction w as [|w IH]; intros n; cbn; [done|]. rewrite length_app, IH. cbn. lia. Qed.

Lemma hex_digit_inj a b : (a < 16)%N → (b < 16)%N → hex_digit a = hex_digit b → a = b.
Proof.
  intros Ha Hb. unfold hex_digit. intros H%(f_equal Ascii.N_of_ascii).
  rewrite !Ascii.N_ascii_embedding in H; repeat case_match; lia.
Qed.

Lemma hex_digits_inj w n m :
  (n < 16 ^ N.of_nat w)%N → (m < 16 ^ N.of_nat w)%N → hex_digits w n = hex_digits w m → n = m.
Proof.
  revert n m. induction w as [|w IH]; intros n m Hn Hm H; [cbn in *; lia|].
  rewrite Nat2N.inj_succ, N.pow_succ_r' in Hn, Hm. cbn in H.
  apply app_inj_tail in H as [H1 H2].
  apply hex_digit_inj in H2; [|apply N.mod_lt; lia..].
  apply IH in H1; [|apply N.Div0.div_lt_upper_bound; lia..].
  rewrite (N.div_mod' n 16), (N.div_mod' m 16). congruence.
Qed.

Lemma dashed_length h : length h = 32 → length (dashed h) = 36.
Proof. intros H. unfold dashed. rewrite ?length_app; cbn; rewrite ?length_app; cbn;
  rewrite ?length_app; cbn; rewrite ?length_app; cbn. rewrite ?length_take, ?length_drop. lia. Qed.

Ltac explode h H :=
  do 32 (destruct h as [|? h]; [discriminate H|]); destruct h; [|discriminate H].

Lemma dashed_inj h h' : length h = 32 → length h' = 32 → dashed h = dashed h' → h = h'.
Proof.
  intros H H' E. explode h H. explode h' H'. cbv in E. injection E. intros. by subst.
Qed.

Lemma uuid_str_digits u : String.list_ascii_of_string (uuid_str u) = dashed (hex_digits 32 u).
Proof. apply String.list_ascii_of_string_of_list_ascii. Qed.

Lemma uuid_str_length u : String.length (uuid_str u) = 36.
Proof.
  rewrite string_length_list, uuid_str_digits, dashed_length; [done|].
  apply hex_digits_length.
Qed.

Lemma uuid_str_inj u v :
  (u < 2 ^ 128)%N → (v < 2 ^ 128)%N → uuid_str u = uuid_str v → u = v.
Proof.
  intros Hu Hv H%(f_equal String.list_ascii_of_string). rewrite !uuid_str_digits in H.
  apply dashed_inj in H; try apply hex_digits_length. by apply (hex_digits_inj 32) in H.
Qed.

(** Two steps, or two executions, never share a key. *)
Lemma intent_key_inj s1 n1 s2 n2 :
  (s1 < 2 ^ 128)%N → (s2 < 2 ^ 128)%N → intent_key s1 n1 = intent_key s2 n2 →
  s1 = s2 ∧ n1 = n2.
Proof.
  intros H1 H2 H. unfold intent_key in H. apply (inj (String.append _)) in H.
  assert (uuid_str s1 = uuid_str s2) as E.
  { apply (f_equal String.list_ascii_of_string) in H. rewrite !string_app_list in H.
    apply app_inj_1 in H as [H _]; [|by rewrite <- !string_length_list, !uuid_str_length].
    apply (f_equal String.string_of_list_ascii) in H.
    by rewrite !String.string_of_list_ascii_of_string in H. }
  split; [by apply uuid_str_inj|]. rewrite E in H.
  apply (inj (String.append _)) in H. apply (inj (String.append _)) in H.
  by apply (inj pretty) in H.
Qed.

Lemma intent_key_step_inj s n1 n2 : intent_key s n1 = intent_key s n2 → n1 = n2.
Proof.
  unfold intent_key. intros H. do 3 apply (inj (String.append _)) in H. by apply (inj pretty) in H.
Qed.

Lemma intent_key_length s n :
  String.length (intent_key s n) = 49 + String.length (pretty n).
Proof.
  unfold intent_key. rewrite !string_length_list, !string_app_list, !length_app,
    uuid_str_digits, dashed_length by apply hex_digits_length. cbn. lia.
Qed.

(** *** Payloads *)

Lemma json_key_Some p k :
  String.length k ≤ 255 → json_key (<["idempotency_key"%string := JStr k]> p) = Ok (Some k).
Proof. intros H. unfold json_key. rewrite lookup_insert_eq. by case_decide. Qed.

Lemma only_fields_Ok p fields :
  dom p ⊆ (list_to_set fields : gset string) → only_fields p fields = Ok tt.
Proof. apply raise_unless_true. Qed.

(** Reading back a document that was written field by field. *)
Ltac read_back :=
  repeat first
    [ progress unfold json_uuid, json_time, json_seconds, json_opt_uuid
    | rewrite lookup_insert_eq | rewrite lookup_insert_ne by discriminate
    | rewrite insert_insert_eq ];
  cbn [mbind result_bind].

(** *** The repository's transactions *)

Lemma insert_intent_Some i now d d' :
  insert_intent i now d = Some d' →
  rin_idempotency_key i ∉ si_idempotency_key <$> db_saga_intents d ∧
  d' = set_saga_intents d (db_saga_intents d').
Proof. unfold insert_intent. case_decide; [done|]. by intros [= <-]. Qed.

#[export] Instance insert_intent_domain i now : domain_write (insert_intent i now).
Proof. intros d d' [_ ->]%insert_intent_Some. done. Qed.
#[export] Instance insert_intent_keeps {T} (g : Database → T) i now :
  Elsewhere g set_saga_intents → Staging (keeps g) (execute (insert_intent i now)).
Proof. intros Hg. apply staging_execute. intros d d' [_ ->]%insert_intent_Some. apply Hg. Qed.

#[export] Hint Unfold intents_record intents_claim_pending intents_cancel_pending
  intents_mark_executed intents_park intents_mark_failed intents_release_claim
  intents_for_saga : repo.

#[export] Instance staging_match_list P {A B} (l : list A) (m : tx B) (f : A → list A → tx B) :
  Staging P m → (∀ a l, Staging P (f a l)) →
  Staging P (match l with [] => m | a :: l => f a l end).
Proof. destruct l; auto. Qed.
#[export] Instance coherent_match_list {A B} (l : list A) (m : tx B) (f : A → list A → tx B) :
  Coherent m → (∀ a l, Coherent (f a l)) →
  Coherent (match l with [] => m | a :: l => f a l end).
Proof. destruct l; auto. Qed.

(** Every repository operation of this file stages and tracks nothing, so what it commits
    is its view. *)
Ltac run_intents :=
  erewrite run_quiet; [|by stage|by stage|reflexivity|reflexivity]; try reflexivity.

Lemma run_record i now d :
  run_request (transaction (intents_record i now)) d =
  match insert_intent i now d with
  | Some d' => (Ok tt, d')
  | None => (Raise ConcurrentWriteError, d)
  end.
Proof.
  destruct (insert_intent i now d) as [d'|] eqn:E.
  - erewrite (run_quiet _ d tt (execute (insert_intent i now) (open_session d None id)).2);
      [|stage|stage|unfold intents_record, execute; cbn; by rewrite E|
       unfold execute; cbn; by rewrite E].
    unfold execute; cbn. by rewrite E.
  - erewrite (run_quiet _ d tt (execute (insert_intent i now) (open_session d None id)).2);
      [|stage|stage|unfold intents_record, execute; cbn; by rewrite E|
       unfold execute; cbn; by rewrite E].
    unfold execute; cbn. by rewrite E.
Qed.

Lemma run_cancel key d :
  run_request (transaction (intents_cancel_pending key)) d =
  (Ok (existsb (pending_with key) (db_saga_intents d)),
   set_saga_intents d (update_where (pending_with key) cancelled_row (db_saga_intents d))).
Proof. by run_intents. Qed.

Lemma run_mark_executed id_ now d :
  run_request (transaction (intents_mark_executed id_ now)) d =
  (Ok tt, set_saga_intents d (update_where (has_id id_) (executed_row now) (db_saga_intents d))).
Proof. by run_intents. Qed.

Lemma update_where_none P f rows :
  (∀ r, r ∈ rows → P r = false) → update_where P f rows = rows.
Proof.
  intros H. unfold update_where. rewrite <- (list_fmap_id rows) at 2.
  apply list_fmap_ext. intros i r Hr. by rewrite (H r) by by eapply list_elem_of_lookup_2.
Qed.

Lemma set_saga_intents_id d : set_saga_intents d (db_saga_intents d) = d.
Proof. by destruct d. Qed.

(** Whether a claim of this tick takes the row. *)
Definition taken_by (limit : nat) (lease : timedelta) (now : datetime)
    (rows : list SagaIntentModel) (r : SagaIntentModel) : bool :=
  bool_decide (si_id r ∈ si_id <$> claimable_intents limit lease now rows) && retryable r.

Lemma run_claim limit lease now d :
  let taken := taken_by limit lease now (db_saga_intents d) in
  let rows := update_where taken (leased now) (db_saga_intents d) in
  run_request (transaction (intents_claim_pending limit lease now)) d =
  (Ok (claim_of <$> filter (λ r, taken r = true) rows), set_saga_intents d rows).
Proof.
  cbv zeta. unfold taken_by.
  destruct (claimable_intents limit lease now (db_saga_intents d)) as [|m ms] eqn:E.
  - erewrite (run_quiet _ d [] (open_session d None id)); [|stage|stage| |reflexivity].
    + cbn [ss_conflict open_session]. rewrite update_where_none by done.
      rewrite set_saga_intents_id. f_equal. f_equal.
      induction (db_saga_intents d) as [|r rs IH]; [done|].
      rewrite filter_cons, decide_False by done. apply IH.
      clear -E. unfold claimable_intents in *. destruct limit; [done|].
      rewrite filter_cons in E. case_decide; [done|]. done.
    + unfold intents_claim_pending, query, mbind, tx_bind. cbn. by rewrite E.
  - erewrite (run_quiet (intents_claim_pending limit lease now) d); [|stage|stage| |].
    2: { unfold intents_claim_pending, query, mbind, tx_bind. cbn [ss_conflict open_session].
      change (ss_view (open_session d None id)) with d. rewrite E. reflexivity. }
    + reflexivity.
    + reflexivity.
Qed.

Lemma run_mark_failed id_ error max_attempts d :
  let rows := update_where (has_id id_) (failed_row error) (db_saga_intents d) in
  run_request (transaction (intents_mark_failed id_ error max_attempts)) d =
  match find (has_id id_) rows with
  | None => (Raise ValueError, d)
  | Some r =>
      if bool_decide (max_attempts ≤ si_attempts r)%Z
      then (Ok IntentParked, set_saga_intents d (update_where (has_id id_) (parked_row error) rows))
      else (Ok IntentFailed, set_saga_intents d rows)
  end.
Proof.
  cbv zeta. set (rows := update_where _ _ _).
  destruct (find (has_id id_) rows) as [r|] eqn:E.
  - case_bool_decide as Hmax.
    + erewrite (run_quiet (intents_mark_failed id_ error max_attempts) d); [|stage|stage| |].
      2: { unfold intents_mark_failed, query, mbind, tx_bind. cbn [execute open_session ss_view
        ss_conflict db_saga_intents set_saga_intents]. fold rows. rewrite E. cbn [fmap option_fmap option_map].
        rewrite bool_decide_true by done. reflexivity. }
      all: reflexivity.
    + erewrite (run_quiet (intents_mark_failed id_ error max_attempts) d); [|stage|stage| |].
      2: { unfold intents_mark_failed, query, mbind, tx_bind. cbn [execute open_session ss_view
        ss_conflict db_saga_intents set_saga_intents]. fold rows. rewrite E. cbn [fmap option_fmap option_map].
        rewrite bool_decide_false by done. reflexivity. }
      all: reflexivity.
  - rewrite (run_transaction any_write _ d).
    unfold intents_mark_failed, query, mbind, tx_bind. cbn [execute open_session ss_view
      ss_conflict db_saga_intents set_saga_intents]. fold rows. by rewrite E.
Qed.

(** ** Theorems *)

(** A recorded command survives its hand-off: the name and the document a step stores
    for a command resolve, in the dispatcher, to the handler of that very command, rebuilt
    field by field and carrying the key of the intent. *)
Theorem recorded_command_roundtrip (c : DelegatedCommand) (saga_id : uuid) (step_no id_ : Z)
    (attempts : Z) (now : datetime) :
  let key := intent_key saga_id step_no in
  String.length key ≤ 255 →
  ∃ h, handler_for (delegated_name c) = Ok h ∧
    command_for h (mkIntentClaim id_ saga_id (delegated_name c) (model_dump c JNull) attempts key
      now) = Ok (c, Some key).
Proof.
  intros key Hkey. unfold command_for. cbn [ic_idempotency_key ic_payload].
  destruct c as [[p] i|[p]|[h] [p] t n|[n]]; eexists; (split; [reflexivity|]);
    unfold model_dump; rewrite insert_insert_eq; cbn [model_validate uuid_value];
    repeat (read_back; rewrite ?json_key_Some by done);
    rewrite ?only_fields_Ok by set_solver; try done.
  by destruct n as [[n]|].
Qed.

Lemma recorded_command_roundtrip_witness :
  String.length (intent_key 5 1002) ≤ 255 ∧
  ∃ h, handler_for "DeleteNotificationCommand" = Ok h ∧
    command_for h (mkIntentClaim 1 5 "DeleteNotificationCommand"
      (model_dump (DeleteNotificationCommand (Uuid 8)) JNull) 0 (intent_key 5 1002) 0) =
    Ok (DeleteNotificationCommand (Uuid 8), Some (intent_key 5 1002)).
Proof.
  split; [vm_compute; lia|].
  apply (recorded_command_roundtrip (DeleteNotificationCommand (Uuid 8)) 5 1002 1 0 0).
  vm_compute. lia.
Defined.
