(* ===== verification/SagaDispatch.v ===== *)
(** The dispatcher that runs the recorded commands
    ([infrastructure/scheduling/command_dispatch.py]): one dispatcher as a function, several
    dispatchers and sagas as the step relation [hand_off_step]. *)

From S2P Require Import Prelude Domain Care Notification Topics Rows Views SagaRows Database UnitOfWork.
From S2P Require Import Repositories Idempotency Commands SagaIntents.

(** ** The dispatcher *)

Record DispatchSettings := mkDispatchSettings {
  intent_dispatch_batch_size : nat;
  intent_claim_lease : timedelta;
  intent_max_attempts : Z }.

(** The dispatcher runs a command through the handler of its context.  [fingerprint] is
    the digest of a command's JSON without its key. *)
Definition to_command (fingerprint : payload_fields → string) (c : DelegatedCommand)
    (key : option string) : Command :=
  let fp := fingerprint (delete "idempotency_key"%string (model_dump c JNull)) in
  match c with
  | CreateCareScheduleCommand p i => CreateCareSchedule p i key fp
  | DeleteCareScheduleCommand p => DeleteCareSchedule p
  | CreateOnboardingNotificationCommand h p t n => CreateOnboardingNotification h p t n key fp
  | DeleteNotificationCommand n => DeleteNotification n
  end.

(** Resolving, rebuilding and running the command of a claim. *)
Definition attempt (fingerprint : payload_fields → string) (c : IntentClaim) (e : Env) :
    tx View :=
  handler_type ← tx_lift (handler_for (ic_command_name c));
  command ← tx_lift (command_for handler_type c);
  handle (to_command fingerprint command.1 command.2) e.

Definition CommandDispatcher_record_failure (cfg : DispatchSettings) (c : IntentClaim)
    (error : exn) : tx unit :=
  _ ← intents_mark_failed (ic_id c) error (intent_max_attempts cfg);
  uow_commit.

(** [_execute], in the session of the dispatcher's request: the handler's transaction,
    then the mark in one of its own; every [Exception] is caught. *)
Definition CommandDispatcher_execute (fingerprint : payload_fields → string)
    (cfg : DispatchSettings) (c : IntentClaim) (e : Env) : tx bool :=
  tx_except (
    _ ← attempt fingerprint c e;
    _ ← intents_mark_executed (ic_id c) (env_now e);
    _ ← uow_commit;
    mret true)
  (λ _, true)
  (λ error,
    _ ← uow_rollback;
    _ ← CommandDispatcher_record_failure cfg c error;
    mret false).

(** The claims of one batch, each with the clock and the identifiers of its own. *)
Fixpoint dispatch_claims (fingerprint : payload_fields → string) (cfg : DispatchSettings)
    (claims : list IntentClaim) (env : nat → Env) : tx nat :=
  match claims with
  | [] => mret 0
  | c :: claims =>
      done_ ← CommandDispatcher_execute fingerprint cfg c (env 0);
      executed ← dispatch_claims fingerprint cfg claims (λ n, env (S n));
      mret ((if done_ : bool then 1 else 0) + executed)
  end.

Definition CommandDispatcher_run_once (fingerprint : payload_fields → string)
    (cfg : DispatchSettings) (now : datetime) (env : nat → Env) : tx nat :=
  claims ← intents_claim_pending (intent_dispatch_batch_size cfg) (intent_claim_lease cfg) now;
  _ ← uow_commit;
  dispatch_claims fingerprint cfg claims env.

(** The loop of [run]: a tick that raises is logged and the next one starts afresh. *)
Definition CommandDispatcher_run (fingerprint : payload_fields → string)
    (cfg : DispatchSettings) (ticks : list (datetime * (nat → Env))) (d : Database) : Database :=
  foldl (λ d '(now, env),
    (run_request (CommandDispatcher_run_once fingerprint cfg now env) d).2) d ticks.

(** ** The hand-off as a step relation

    Sagas record and cancel, any number of dispatchers claim, run and mark, each in a
    transaction of its own and each able to stop between two of them; [hs_running] holds
    the claims in the dispatchers' hands, with the handler's answer once it has run, and
    [hs_effects] remembers which claims' handlers published something. *)
Record HandOff := mkHandOff {
  hs_db : Database;
  hs_running : list (IntentClaim * option (result View));
  hs_effects : list IntentClaim }.

Section hand_off.
Context (fingerprint : payload_fields → string) (cfg : DispatchSettings).

Inductive hand_off_step : HandOff → HandOff → Prop :=
  | step_record d run eff i now d' :
      run_request (transaction (intents_record i now)) d = (Ok tt, d') →
      hand_off_step (mkHandOff d run eff) (mkHandOff d' run eff)
  | step_cancel d run eff key b d' :
      run_request (transaction (intents_cancel_pending key)) d = (Ok b, d') →
      hand_off_step (mkHandOff d run eff) (mkHandOff d' run eff)
  | step_claim d run eff now cs d' :
      run_request (transaction (intents_claim_pending (intent_dispatch_batch_size cfg)
        (intent_claim_lease cfg) now)) d = (Ok cs, d') →
      hand_off_step (mkHandOff d run eff) (mkHandOff d' (run ++ ((λ c, (c, None)) <$> cs)) eff)
  | step_attempt d run1 c run2 eff e r d' :
      run_request (attempt fingerprint c e) d = (r, d') →
      hand_off_step (mkHandOff d (run1 ++ (c, None) :: run2) eff)
        (mkHandOff d' (run1 ++ (c, Some r) :: run2)
           (if decide (published d' = published d) then eff else eff ++ [c]))
  | step_executed d run1 c v run2 eff now d' :
      run_request (transaction (intents_mark_executed (ic_id c) now)) d = (Ok tt, d') →
      hand_off_step (mkHandOff d (run1 ++ (c, Some (Ok v)) :: run2) eff)
        (mkHandOff d' (run1 ++ run2) eff)
  | step_failed d run1 c r run2 eff error status d' :
      run_request (transaction (intents_mark_failed (ic_id c) error (intent_max_attempts cfg))) d =
        (Ok status, d') →
      hand_off_step (mkHandOff d (run1 ++ (c, Some r) :: run2) eff)
        (mkHandOff d' (run1 ++ run2) eff)
  | step_crash d run1 c run2 eff :
      hand_off_step (mkHandOff d (run1 ++ c :: run2) eff) (mkHandOff d (run1 ++ run2) eff)
  | step_other d run eff d' :
      db_saga_intents d' = db_saga_intents d → db_idempotency d ⊆ db_idempotency d' →
      hand_off_step (mkHandOff d run eff) (mkHandOff d' run eff).
End hand_off.

(** ** Lemmas *)

(** *** A session between two transactions *)

Definition at_rest (d : Database) (committed : bool) : Session :=
  mkSession d d [] false [] committed None id.

Lemma idle_rollback d b : (uow_rollback (at_rest d b)).2 = at_rest d false.
Proof. done. Qed.

Lemma with_uow_idle {A} (m : tx A) d b :
  with_uow m (at_rest d b) = with_uow m (open_session d None id).
Proof. done. Qed.

(** A rolled-back body leaves an idle session when it had tracked nothing. *)
Lemma rollback_to_idle s d :
  ss_base s = d → ss_context s = None → ss_others s = id → ss_tracked s = [] →
  (uow_rollback s).2 = at_rest d false.
Proof. intros Hb Hc Ho Ht. unfold uow_rollback. cbn. by rewrite Hb, Hc, Ho, Ht. Qed.

Lemma commit_idle s d :
  ss_base s = d → ss_context s = None → ss_others s = id →
  uow_commit s =
  match replay_writes (ss_writes s ++ outbox_statements None (tracked_events s)) d with
  | Some d' => (Ok tt, at_rest d' true)
  | None => (Raise ConcurrentWriteError, at_rest d (ss_committed s))
  end.
Proof. intros Hb Hc Ho. rewrite uow_commit_run, Hb, Hc, Ho. done. Qed.

(** A computation that raises has tracked nothing of its own: tracking is the last thing
    an [add] does, and nothing raises after it. *)
Class Tidy {A} (m : tx A) : Prop :=
  tidy : ∀ s x s', m s = (Raise x, s') → ss_tracked s' = ss_tracked s.

#[export] Instance tidy_ret {A} (a : A) : Tidy (mret a : tx A).
Proof. by intros s x s' [=]. Qed.
#[export] Instance tidy_lift_bind {A B} (r : result A) (f : A → tx B) :
  (∀ a, Tidy (f a)) → Tidy (tx_lift r ≫= f).
Proof. intros Hf s x s'. destruct r as [a|e]; [apply (Hf a s)|by intros [= _ <-]]. Qed.
#[export] Instance tidy_add {A} w r es (a : A) :
  Tidy (_ ← (_ ← execute w; track r es); mret a).
Proof. intros s x s'. unfold mbind, tx_bind, execute, track. by destruct (w (ss_view s)). Qed.
#[export] Instance create_schedule_tidy p i e : Tidy (CreateCareSchedule_create p i e).
Proof. unfold CreateCareSchedule_create, schedules_add. apply _. Qed.
#[export] Instance create_notification_tidy h p t n e :
  Tidy (CreateOnboardingNotification_create h p t n e).
Proof. unfold CreateOnboardingNotification_create, notifications_add. apply _. Qed.

(** A repetition is answered with the stored response, or refused. *)
Lemma replayed_response stored fp cls v : replayed stored fp cls = Ok v → ir_response stored = v.
Proof. unfold replayed, view_validate. repeat case_decide; by intros [= <-]. Qed.

(** What a create with a key does to the shared tables, session included. *)
Lemma commit_create_idle key fp cls status (op : tx View) now d b :
  Staging domain_write op → Staging (keeps db_saga_intents) op →
  Tidy op →
  ∃ r d' b', commit_create (Some key) fp cls status op now (at_rest d b) = (r, at_rest d' b') ∧
    db_saga_intents d' = db_saga_intents d ∧
    ((d' = d ∧ ∀ v, r = Ok v → ∃ rec, db_idempotency d !! key = Some rec ∧ ir_response rec = v) ∨
     (db_idempotency d !! key = None ∧
      ∃ rec, r = Ok (ir_response rec) ∧ db_idempotency d' = <[key := rec]> (db_idempotency d))).
Proof.
  intros Hst Hk Htidy. unfold commit_create. rewrite with_uow_idle, with_uow_open.
  rewrite (tx_bind_Ok _ _ _ (db_idempotency d !! key) (open_session d None id)) by done.
  destruct (db_idempotency d !! key) as [stored|] eqn:Hkey.
  { unfold tx_lift. destruct (replayed stored fp cls) as [v|] eqn:Erep; do 3 eexists;
      (split; [reflexivity|]); (split; [done|]); left; (split; [done|]); [|done].
    intros ? [= <-]. exists stored. split; [done|]. by eapply replayed_response. }
  pose proof (staging (P := domain_write) (m := op) (open_session d None id))
    as [Hb Hc Hx Ho (ws & Hws & Hdw)].
  pose proof (staging (P := keeps db_saga_intents) (m := op) (open_session d None id))
    as [_ _ _ _ (ws' & Hws' & Hkw)].
  destruct (op (open_session d None id)) as [[v|x] s] eqn:Eop; cbn in Hb, Hc, Hx, Ho, Hws, Hws'.
  2: { rewrite (tx_bind_Raise _ _ _ _ _ Eop). do 3 eexists. split.
       - rewrite (rollback_to_idle s d) by (done || by apply Htidy in Eop). reflexivity.
       - split; [done|]. by left. }
  subst ws'. rewrite (tx_bind_Ok _ _ _ _ _ Eop).
  set (rec := mkIdempotencyRecord key fp status v now).
  pose proof (execute_writes (insert_row db_idempotency set_idempotency key rec) s)
    as (Hok & Hw1 & Hb1 & Hx1 & Ho1 & Hc1 & Ht1).
  destruct (execute (insert_row db_idempotency set_idempotency key rec) s)
    as [r1 s1] eqn:Eex; cbn in Hok, Hw1, Hb1, Hx1, Ho1, Hc1, Ht1; subst r1.
  unfold idempotency_remember. rewrite (tx_bind_Ok _ _ _ _ _ Eex).
  unfold tx_except, mbind at 1, tx_bind at 1.
  rewrite (commit_idle s1 d) by congruence.
  destruct (replay_writes _ d) as [d'|] eqn:Er.
  - do 3 eexists. split; [reflexivity|].
    rewrite Hw1, Hws, <- app_assoc, replay_writes_app in Er.
    destruct (replay_writes ws d) as [d1|] eqn:E1; [|done]. cbn in Er.
    rewrite replay_writes_cons in Er.
    apply replay_domain_writes in E1 as E2; [|done]. destruct E2 as [Hi _].
    unfold insert_row in Er. rewrite Hi, Hkey in Er. cbn in Er.
    apply outbox_statements_published in Er as [_ Er].
    split; [|right; split; [done|]; exists rec; by rewrite Er].
    rewrite Er. cbn. rewrite Hws in Hkw. by eapply replay_keeps.
  - cbn [is_concurrent_write_error]. unfold mbind, tx_bind.
    rewrite Hc1, Hc. cbn. rewrite Hkey. cbn. do 3 eexists. split; [reflexivity|].
    split; [done|]. by left.
Qed.

(** The two delete handlers touch the row they delete, and nothing else. *)
Lemma delete_schedule_idle p d b :
  ∃ r d' b', DeleteCareScheduleHandler p (at_rest d b) = (r, at_rest d' b') ∧
    d' = set_care_schedules d (db_care_schedules d').
Proof.
  unfold DeleteCareScheduleHandler. rewrite with_uow_idle, with_uow_open.
  unfold schedules_get_for_update, schedules_get, schedules_delete, mbind, tx_bind, query, tx_lift.
  cbn. destruct (db_care_schedules d !! uuid_value p) as [m|] eqn:E; cbn;
    [|do 3 eexists; split; [reflexivity|by destruct d]].
  destruct (care_schedule_to_domain m) as [s|x]; cbn;
    [|do 3 eexists; split; [reflexivity|by destruct d]].
  rewrite E. unfold execute, delete_row; cbn. do 3 eexists. split; [reflexivity|done].
Qed.

Lemma delete_notification_idle n d b :
  ∃ r d' b', DeleteNotificationHandler n (at_rest d b) = (r, at_rest d' b') ∧
    d' = set_notifications d (db_notifications d').
Proof.
  unfold DeleteNotificationHandler. rewrite with_uow_idle, with_uow_open.
  unfold notifications_get_for_update, notifications_get, notifications_delete, mbind, tx_bind,
    query, tx_lift.
  cbn. destruct (db_notifications d !! uuid_value n) as [m|] eqn:E; cbn;
    [|do 3 eexists; split; [reflexivity|by destruct d]].
  destruct (notification_to_domain m) as [s|x]; cbn;
    [|do 3 eexists; split; [reflexivity|by destruct d]].
  rewrite E. unfold execute, delete_row; cbn. do 3 eexists. split; [reflexivity|done].
Qed.

(** *** One attempt at a claim *)

(** The commands whose handler answers once per key. *)
Definition creating (name : string) : bool :=
  bool_decide (name = "CreateCareScheduleCommand"%string) ||
  bool_decide (name = "CreateOnboardingNotificationCommand"%string).

Record attempted (c : IntentClaim) (d d' : Database) (r : result View) : Prop := mkAttempted {
  at_intents : db_saga_intents d' = db_saga_intents d;
  at_keys : db_idempotency d ⊆ db_idempotency d';
  at_effect : published d' = published d ∨
    db_idempotency d !! ic_idempotency_key c = None ∧
    ∃ rec, r = Ok (ir_response rec) ∧ db_idempotency d' !! ic_idempotency_key c = Some rec;
  at_done : ∀ v, r = Ok v → creating (ic_command_name c) = true →
    ∃ rec, ir_response rec = v ∧ db_idempotency d' !! ic_idempotency_key c = Some rec }.

Lemma json_key_Ok p k key :
  json_key (<["idempotency_key"%string := JStr k]> p) = Ok key → key = Some k.
Proof. unfold json_key. rewrite lookup_insert_eq. case_decide; [|done]. by intros [= <-]. Qed.

(** The rebuilt command carries the claim's key and is of the class its name says. *)
Lemma command_for_inv h c cmd key :
  handler_for (ic_command_name c) = Ok h → command_for h c = Ok (cmd, key) →
  key = Some (ic_idempotency_key c) ∧ delegated_name cmd = ic_command_name c.
Proof.
  unfold handler_for, command_for, model_validate. intros Hh Hc.
  repeat case_decide; simplify_eq; inv_result; simplify_eq;
    match goal with H : json_key _ = Ok _ |- _ => apply json_key_Ok in H as -> end; done.
Qed.

Lemma attempt_idle fingerprint c e d b :
  ∃ r d' b', attempt fingerprint c e (at_rest d b) = (r, at_rest d' b') ∧ attempted c d d' r.
Proof.
  assert (∀ x, attempted c d d (Raise x)) as Hraise.
  { intros x. split; try done. by left. }
  unfold attempt, mbind, tx_bind, tx_lift.
  destruct (handler_for (ic_command_name c)) as [h|x] eqn:Hh;
    [|do 3 eexists; split; [reflexivity|apply Hraise]].
  destruct (command_for h c) as [[cmd key]|x] eqn:Hc;
    [|do 3 eexists; split; [reflexivity|apply Hraise]].
  apply command_for_inv in Hc as [-> Hname]; [|done]. cbn [fst snd].
  assert (∀ fp cls status op now, Staging domain_write op → Staging (keeps db_saga_intents) op →
    Tidy op →
    ∃ r d' b', commit_create (Some (ic_idempotency_key c)) fp cls status op now (at_rest d b) =
      (r, at_rest d' b') ∧ attempted c d d' r) as Hcreate.
  { intros fp cls status op now Hst Hk Htidy.
    destruct (commit_create_idle (ic_idempotency_key c) fp cls status op now d b Hst Hk Htidy)
      as (r & d' & b' & E & Hi & [[-> Hr]|(Hnone & rec & -> & Hidem)]);
      eexists; eexists; exists b'; (split; [exact E|]).
    - split; [done|done|by left|]. intros v Hv _. destruct (Hr v Hv) as (rec & ? & ?). by exists rec.
    - split; [done| |right; split; [done|]|intros v [= <-] _]; rewrite ?Hidem.
      + by apply insert_subseteq.
      + exists rec. by rewrite lookup_insert_eq.
      + exists rec. by rewrite lookup_insert_eq. }
  destruct cmd as [p i|p|h' p t n|n]; cbn [to_command handle].
  - apply Hcreate; [stage|stage|apply _].
  - destruct (delete_schedule_idle p d b) as (r & d' & b' & E & Hd). exists r, d', b'.
    split; [exact E|]. rewrite Hd. split; [done|done|by left|].
    rewrite <- Hname. by intros ? _.
  - apply Hcreate; [stage|stage|apply _].
  - destruct (delete_notification_idle n d b) as (r & d' & b' & E & Hd). exists r, d', b'.
    split; [exact E|]. rewrite Hd. split; [done|done|by left|].
    rewrite <- Hname. by intros ? _.
Qed.

(** *** What never changes about a recorded command *)

Definition identity (r : SagaIntentModel) : Z * string * string :=
  (si_id r, si_idempotency_key r, si_command_name r).
Definition claimed_identity (c : IntentClaim) : Z * string * string :=
  (ic_id c, ic_idempotency_key c, ic_command_name c).

(** The identity column counts the rows, and a key is recorded once. *)
Definition intents_keyed (rows : list SagaIntentModel) : Prop :=
  si_id <$> rows = seqZ 1 (Z.of_nat (length rows)) ∧ NoDup (si_idempotency_key <$> rows).

Lemma update_where_identity P f rows :
  (∀ r, identity (f r) = identity r) → identity <$> update_where P f rows = identity <$> rows.
Proof.
  intros Hf. unfold update_where. rewrite <- list_fmap_compose. apply list_fmap_ext.
  intros _ r _. cbn. destruct (P r); [apply Hf|done].
Qed.

Lemma elem_of_update_where P f rows r' :
  r' ∈ update_where P f rows ↔ ∃ r, r ∈ rows ∧ r' = if P r then f r else r.
Proof. unfold update_where. rewrite list_elem_of_fmap. naive_solver. Qed.

Lemma intents_keyed_identity rows rows' :
  identity <$> rows' = identity <$> rows → intents_keyed rows → intents_keyed rows'.
Proof.
  intros H [Hid Hk]. unfold intents_keyed.
  assert (length rows' = length rows) as Hlen.
  { by rewrite <- (length_fmap identity rows'), H, length_fmap. }
  assert (∀ l : list SagaIntentModel, si_id <$> l = (λ i, i.1.1) <$> (identity <$> l)) as E1.
  { intros l. by rewrite <- list_fmap_compose. }
  assert (∀ l : list SagaIntentModel, si_idempotency_key <$> l = (λ i, i.1.2) <$> (identity <$> l))
    as E2. { intros l. by rewrite <- list_fmap_compose. }
  by rewrite E1, E2, H, <- E1, <- E2, Hlen.
Qed.

Lemma intents_keyed_insert i now d d' :
  insert_intent i now d = Some d' → intents_keyed (db_saga_intents d) →
  intents_keyed (db_saga_intents d').
Proof.
  unfold insert_intent. case_decide as Hk; [done|]. intros [= <-] [Hid Hnd]. cbn. split.
  - rewrite fmap_app, Hid, length_app. cbn [length fmap list_fmap]. rewrite Nat2Z.inj_add, seqZ_app by lia. f_equal.
  - rewrite fmap_app. apply NoDup_app. split; [done|]. split; [|apply NoDup_singleton].
    intros k Hin. cbn. rewrite list_elem_of_singleton. by intros ->.
Qed.

(** Rows are told apart by their identifier, and by their key. *)
Lemma keyed_by_id rows r r' :
  intents_keyed rows → r ∈ rows → r' ∈ rows → si_id r = si_id r' → r = r'.
Proof.
  intros [Hid _]. apply NoDup_fmap_inj. rewrite Hid. apply NoDup_seqZ.
Qed.
Lemma keyed_by_key rows r r' :
  intents_keyed rows → r ∈ rows → r' ∈ rows → si_idempotency_key r = si_idempotency_key r' →
  r = r'.
Proof. intros [_ Hk]. by apply NoDup_fmap_inj. Qed.

(** *** The invariant of the hand-off *)

Section invariant.
Context (fingerprint : payload_fields → string) (cfg : DispatchSettings).

(** The stored answer is what the handler of the claimed command answered. *)
Definition answer_of (c : IntentClaim) (rec : IdempotencyRecord) : Prop :=
  ∃ e d1 d2, run_request (attempt fingerprint c e) d1 = (Ok (ir_response rec), d2) ∧
    db_idempotency d2 !! ic_idempotency_key c = Some rec.

(** The stored answer was stored by the transaction that published the command's effect. *)
Definition effect_of (c : IntentClaim) (rec : IdempotencyRecord) : Prop :=
  ∃ e d1 d2, run_request (attempt fingerprint c e) d1 = (Ok (ir_response rec), d2) ∧
    published d2 ≠ published d1 ∧ db_idempotency d1 !! ic_idempotency_key c = None ∧
    db_idempotency d2 !! ic_idempotency_key c = Some rec.

(** The command with these identifiers has been answered, and its answer is stored. *)
Definition answered (d : Database) (i : Z * string * string) : Prop :=
  ∃ c rec, claimed_identity c = i ∧ db_idempotency d !! ic_idempotency_key c = Some rec ∧
    answer_of c rec.

Lemma answered_mono d d' i : db_idempotency d ⊆ db_idempotency d' → answered d i → answered d' i.
Proof.
  intros Hd (c & rec & ? & ? & ?). exists c, rec. split_and!; [done| |done]. by eapply lookup_weaken.
Qed.

Record hand_off_inv (h : HandOff) : Prop := mkHandOffInv {
  hi_keyed : intents_keyed (db_saga_intents (hs_db h));
  hi_once : NoDup (ic_idempotency_key <$> hs_effects h);
  hi_stored : ∀ c, c ∈ hs_effects h → 
    ∃ rec, db_idempotency (hs_db h) !! ic_idempotency_key c = Some rec ∧ effect_of c rec;
  hi_matched : ∀ c o, (c, o) ∈ hs_running h →
    claimed_identity c ∈ identity <$> db_saga_intents (hs_db h);
  hi_answered : ∀ c v, (c, Some (Ok v)) ∈ hs_running h → creating (ic_command_name c) = true →
    answered (hs_db h) (claimed_identity c);
  hi_executed : ∀ r, r ∈ db_saga_intents (hs_db h) → si_status r = IntentExecuted →
    creating (si_command_name r) = true → answered (hs_db h) (identity r) }.

(** A transaction that neither forgets a key nor changes what a command is keeps the
    invariant, when the claims in hand and the rows marked executed are accounted for. *)
Lemma hand_off_inv_update d d' run run' eff :
  hand_off_inv (mkHandOff d run eff) →
  intents_keyed (db_saga_intents d') →
  db_idempotency d ⊆ db_idempotency d' →
  (∀ i, i ∈ identity <$> db_saga_intents d → i ∈ identity <$> db_saga_intents d') →
  (∀ c o, (c, o) ∈ run' → (c, o) ∈ run ∨ claimed_identity c ∈ identity <$> db_saga_intents d' ∧
     ∀ v, o = Some (Ok v) → creating (ic_command_name c) = true →
       answered d' (claimed_identity c)) →
  (∀ r', r' ∈ db_saga_intents d' → si_status r' = IntentExecuted →
     creating (si_command_name r') = true → answered d' (identity r') ∨
     ∃ r, r ∈ db_saga_intents d ∧ identity r = identity r' ∧ si_status r = IntentExecuted) →
  hand_off_inv (mkHandOff d' run' eff).
Proof.
  intros [Hk Ho Hs Hm Ha He] Hk' Hi Hid Hrun Hx. cbn in *.
  split; cbn; [done|done|..].
  - intros c (rec & ? & ?)%Hs. exists rec. split; [by eapply lookup_weaken|done].
  - intros c o [Hc|[Hc _]]%Hrun; [|done]. by eapply Hid, Hm.
  - intros c v [Hc|[_ Hc]]%Hrun Hcr; [by eapply answered_mono, Ha|by eapply Hc].
  - intros r' Hr' Hst Hcr. destruct (Hx r' Hr' Hst Hcr) as [?|(r & Hr & E & Hstr)]; [done|].
    rewrite <- E. eapply answered_mono, He; [done..|]. unfold identity in E. congruence.
Qed.

(** The same for an update of some rows. *)
Lemma hand_off_inv_rows P f d run run' eff :
  hand_off_inv (mkHandOff d run eff) →
  (∀ r, identity (f r) = identity r) →
  (∀ c o, (c, o) ∈ run' → (c, o) ∈ run ∨
     claimed_identity c ∈ identity <$> update_where P f (db_saga_intents d) ∧ o = None) →
  (∀ r, r ∈ db_saga_intents d → P r = true → si_status (f r) = IntentExecuted →
     si_status r = IntentExecuted ∨
     (creating (si_command_name r) = true → answered d (identity r))) →
  hand_off_inv
    (mkHandOff (set_saga_intents d (update_where P f (db_saga_intents d))) run' eff).
Proof.
  intros Hinv Hf Hrun Hx.
  pose proof (update_where_identity P f (db_saga_intents d) Hf) as Hid.
  apply (hand_off_inv_update d _ run); cbn; try done.
  - apply (intents_keyed_identity _ _ Hid), Hinv.
  - intros i. by rewrite Hid.
  - intros c o [?|[? ->]]%Hrun; [by left|by right].
  - intros r' (r & Hr & ->)%elem_of_update_where Hst Hcr.
    destruct (P r) eqn:E; [|right; by exists r].
    destruct (Hx r Hr E Hst) as [Hold|Hnew]; [right; exists r; by rewrite Hf|left].
    pose proof (Hf r) as Hfr. rewrite Hfr. apply (answered_mono d); [done|]. apply Hnew.
    unfold identity in Hfr. congruence.
Qed.

Lemma elem_of_middle {A} (x y : A) l1 l2 : x ∈ l1 ++ l2 → x ∈ l1 ++ y :: l2.
Proof. set_solver. Qed.

Lemma run_attempt c e d r d' :
  run_request (attempt fingerprint c e) d = (r, d') → attempted c d d' r.
Proof.
  intros H. destruct (attempt_idle fingerprint c e d false) as (r0 & d0 & b0 & E & Ha).
  unfold run_request in H. change (open_session d None id) with (at_rest d false) in H.
  rewrite E in H. by injection H as <- <-.
Qed.

(** A claim in hand is the row with its identifier. *)
Lemma claimed_row d run eff c o r :
  hand_off_inv (mkHandOff d run eff) → (c, o) ∈ run → r ∈ db_saga_intents d →
  si_id r = ic_id c → si_idempotency_key r = ic_idempotency_key c ∧
    si_command_name r = ic_command_name c.
Proof.
  intros Hinv Hc Hr Hid. pose proof (hi_matched _ Hinv _ _ Hc) as Hm.
  apply list_elem_of_fmap in Hm as (r0 & E & Hr0). unfold claimed_identity, identity in E.
  injection E as E1 E2 E3.
  rewrite (keyed_by_id _ r r0 (hi_keyed _ Hinv) Hr Hr0) by congruence. done.
Qed.

Lemma hand_off_inv_start d eff :
  db_saga_intents d = [] → eff = [] → hand_off_inv (mkHandOff d [] eff).
Proof.
  intros Hd ->. split; cbn; rewrite ?Hd; try set_solver.
  - split; [done|constructor].
  - constructor.
Qed.

Lemma hand_off_inv_step h h' :
  hand_off_inv h → hand_off_step fingerprint cfg h h' → hand_off_inv h'.
Proof.
  intros Hinv Hstep. destruct Hstep as
    [d run eff i now d' H|d run eff key b d' H|d run eff now cs d' H|d run1 c run2 eff e r d' H
    |d run1 c v run2 eff now d' H|d run1 c r run2 eff x status d' H|d run1 c run2 eff
    |d run eff d' Hi Hk].
  - rewrite run_record in H. destruct (insert_intent i now d) as [d1|] eqn:E; [|done].
    injection H as <-. pose proof (intents_keyed_insert _ _ _ _ E (hi_keyed _ Hinv)) as Hkeyed.
    unfold insert_intent in E. case_decide; [done|]. injection E as <-.
    apply (hand_off_inv_update d _ run); cbn; auto.
    + intros j. rewrite fmap_app. set_solver.
    + intros r' [Hr|Hr%list_elem_of_singleton]%elem_of_app; [|by subst]. right. by exists r'.
  - rewrite run_cancel in H. injection H as <- <-.
    by apply (hand_off_inv_rows _ _ d run); auto.
  - rewrite run_claim in H. injection H as <- <-. apply (hand_off_inv_rows _ _ d run); auto.
    intros c o [?|Hc]%elem_of_app; [by left|right].
    apply list_elem_of_fmap in Hc as (c' & [= -> ->] & (r & -> & Hr)%list_elem_of_fmap).
    apply list_elem_of_filter in Hr as [_ Hr]. split; [|done]. apply list_elem_of_fmap. by exists r.
  - pose proof H as Hrun. apply run_attempt in H as [Hi Hk He Hd].
    assert (hand_off_inv (mkHandOff d' (run1 ++ (c, Some r) :: run2) eff)) as Hinv'.
    { apply (hand_off_inv_update d _ (run1 ++ (c, None) :: run2)); rewrite ?Hi; auto.
      - apply Hinv.
      - intros c' o. rewrite !elem_of_app, !elem_of_cons.
        intros [?|[[= -> ->]|?]]; [by auto| |by auto]. right. split.
        + apply (hi_matched _ Hinv _ None). set_solver.
        + intros v [= ->] Hcr. destruct (Hd v eq_refl Hcr) as (rec & <- & Hrec).
          exists c, rec. split_and!; [done..|]. by exists e, d, d'.
      - intros r' Hr'. right. by exists r'. }
    case_decide as Hp; [done|]. destruct He as [|(Hnone & rec & -> & Hrec)]; [done|].
    destruct Hinv' as [? Ho Hs ? ? ?]. cbn in *. split; cbn; [done|..|done|done|done].
    + rewrite fmap_app. apply NoDup_app. split; [done|]. split; [|apply NoDup_singleton].
      intros k (c' & -> & Hc')%list_elem_of_fmap. cbn. rewrite list_elem_of_singleton. intros E.
      apply (hi_stored _ Hinv) in Hc' as (rec' & Hc' & _). cbn in Hc'. by rewrite E, Hnone in Hc'.
    + intros c' [?| ->%list_elem_of_singleton]%elem_of_app; [auto|]. exists rec. split; [done|].
      by exists e, d, d'.
  - rewrite run_mark_executed in H. injection H as <-.
    apply (hand_off_inv_rows _ _ d (run1 ++ (c, Some (Ok v)) :: run2)); auto.
    { intros c' o Hc'. left. by apply elem_of_middle. }
    intros r Hr Hid _. right. unfold has_id in Hid. apply bool_decide_eq_true in Hid.
    assert ((c, Some (Ok v)) ∈ run1 ++ (c, Some (Ok v)) :: run2) as Hc by set_solver.
    destruct (claimed_row _ _ _ _ _ r Hinv Hc Hr Hid) as [Ek En]. unfold identity.
    rewrite Hid, Ek, En. apply (hi_answered _ Hinv _ _ Hc).
  - rewrite run_mark_failed in H. cbv zeta in H.
    set (rows := update_where (has_id (ic_id c)) (failed_row x) (db_saga_intents d)) in *.
    assert (hand_off_inv (mkHandOff (set_saga_intents d rows) (run1 ++ run2) eff)) as Hfailed.
    { apply (hand_off_inv_rows _ _ d (run1 ++ (c, Some r) :: run2)); auto.
      intros c' o Hc'. left. by apply elem_of_middle. }
    destruct (find _ rows) as [r'|]; [|done]. case_bool_decide; injection H as <- <-; [|done].
    by apply (hand_off_inv_rows _ _ _ (run1 ++ run2) _ _ Hfailed); auto.
  - destruct Hinv as [? ? ? Hm Ha ?]; split; cbn in *; try done.
    + intros c' o Hc'. eapply Hm. by apply elem_of_middle.
    + intros c' v Hc'. eapply Ha. by apply elem_of_middle.
  - apply (hand_off_inv_update d _ run); cbn; auto.
    + rewrite Hi. apply Hinv.
    + by rewrite Hi.
    + rewrite Hi. intros r' Hr'. right. by exists r'.
Qed.

Lemma hand_off_inv_reachable h h' :
  hand_off_inv h → reachable (hand_off_step fingerprint cfg) h h' → hand_off_inv h'.
Proof. intros Hh Hr. induction Hr; [done|]. by eapply hand_off_inv_step. Qed.
(** *** A command withdrawn while nobody holds it *)

Record withdrawn (key : string) (h : HandOff) : Prop := mkWithdrawn {
  wd_row : ∃ r, r ∈ db_saga_intents (hs_db h) ∧ si_idempotency_key r = key ∧
    si_status r = IntentCancelled;
  wd_idle : ∀ c o, (c, o) ∈ hs_running h → ic_idempotency_key c ≠ key;
  wd_silent : key ∉ ic_idempotency_key <$> hs_effects h }.

(** An update that spares the cancelled row. *)
Lemma withdrawn_rows key P f d run run' eff :
  withdrawn key (mkHandOff d run eff) →
  (∀ r, r ∈ db_saga_intents d → si_idempotency_key r = key → si_status r = IntentCancelled →
     P r = false) →
  (∀ c o, (c, o) ∈ run' → (c, o) ∈ run ∨ ic_idempotency_key c ≠ key) →
  withdrawn key (mkHandOff (set_saga_intents d (update_where P f (db_saga_intents d))) run' eff).
Proof.
  intros [(r & Hr & Hk & Hs) Hi He] HP Hrun. split; cbn in *; [|naive_solver|done].
  exists r. split; [|done]. apply elem_of_update_where. exists r. by rewrite (HP r).
Qed.

(** No claim in hand is for the withdrawn row. *)
Lemma withdrawn_not_held key d run eff c o r :
  hand_off_inv (mkHandOff d run eff) → withdrawn key (mkHandOff d run eff) → (c, o) ∈ run →
  r ∈ db_saga_intents d → si_idempotency_key r = key → has_id (ic_id c) r = false.
Proof.
  intros Hinv Hw Hc Hr Hkey. apply not_true_is_false. intros Hid%bool_decide_eq_true.
  destruct (claimed_row _ _ _ _ _ r Hinv Hc Hr Hid) as [E _].
  apply (wd_idle _ _ Hw _ _ Hc). congruence.
Qed.

(** A cancelled row is never claimed, so no claim carries its key. *)
Lemma withdrawn_not_claimed key d run eff limit now c :
  let taken := taken_by limit (intent_claim_lease cfg) now (db_saga_intents d) in
  hand_off_inv (mkHandOff d run eff) → withdrawn key (mkHandOff d run eff) →
  c ∈ claim_of <$> filter (λ r, taken r = true)
    (update_where taken (leased now) (db_saga_intents d)) →
  ic_idempotency_key c ≠ key.
Proof.
  intros taken Hinv Hw (r & -> & Hr)%list_elem_of_fmap Hkey.
  apply list_elem_of_filter in Hr as [Ht (r1 & Hr1 & ->)%elem_of_update_where].
  destruct (wd_row _ _ Hw) as (r0 & Hr0 & Hk0 & Hs0).
  assert (r1 = r0) as ->.
  { apply (keyed_by_key (db_saga_intents d)); [apply Hinv|done..|].
    rewrite Hk0, <- Hkey. by destruct (taken r1). }
  assert (taken r0 = false) as Hspared.
  { unfold taken, taken_by, retryable. by rewrite Hs0, andb_false_r. }
  rewrite Hspared in Ht. by rewrite Hspared in Ht.
Qed.

Lemma withdrawn_step key h h' :
  hand_off_inv h → withdrawn key h → hand_off_step fingerprint cfg h h' → withdrawn key h'.
Proof.
  intros Hinv Hw Hstep. destruct Hstep as
    [d run eff i now d' H|d run eff k b d' H|d run eff now cs d' H|d run1 c run2 eff e r d' H
    |d run1 c v run2 eff now d' H|d run1 c r run2 eff x status d' H|d run1 c run2 eff
    |d run eff d' Hi Hk].
  - rewrite run_record in H. destruct (insert_intent i now d) as [d1|] eqn:E; [|done].
    injection H as <-. unfold insert_intent in E. case_decide; [done|]. injection E as <-.
    destruct Hw as [(r & Hr & ?) ? ?]. split; cbn in *; [|done..]. exists r. set_solver.
  - rewrite run_cancel in H. injection H as <- <-. apply (withdrawn_rows _ _ _ _ run); auto.
    intros r _ _ Hs. unfold pending_with. by rewrite Hs, andb_false_r.
  - rewrite run_claim in H. injection H as <- <-. apply (withdrawn_rows _ _ _ _ run); [done| |].
    + intros r _ _ Hs. unfold taken_by, retryable. by rewrite Hs, andb_false_r.
    + intros c o [?|(c' & [= -> ->] & Hc)%list_elem_of_fmap]%elem_of_app; [by left|right].
      by eapply withdrawn_not_claimed.
  - apply run_attempt in H as [Hi _ _ _]. destruct Hw as [Hr Hidle Hsil]. cbn in *.
    assert (ic_idempotency_key c ≠ key) as Hc by (apply (Hidle c None); set_solver).
    split; cbn; [by rewrite Hi| |].
    + intros c' o. rewrite elem_of_app, elem_of_cons. intros [?|[[= -> ->]|?]]; [|done|];
        apply (Hidle c' o); set_solver.
    + case_decide; [done|]. rewrite fmap_app, elem_of_app. intros [?|Hx]; [done|].
      apply list_elem_of_singleton in Hx. by rewrite Hx in Hc.
  - rewrite run_mark_executed in H. injection H as <-.
    apply (withdrawn_rows _ _ _ _ (run1 ++ (c, Some (Ok v)) :: run2)); [done| |].
    + intros r Hr Hkey _. apply (withdrawn_not_held key _ _ _ c (Some (Ok v)) _ Hinv Hw); [|done..].
      set_solver.
    + intros c' o Hc'. left. by apply elem_of_middle.
  - rewrite run_mark_failed in H. cbv zeta in H.
    set (rows := update_where (has_id (ic_id c)) (failed_row x) (db_saga_intents d)) in *.
    set (run := run1 ++ (c, Some r) :: run2) in *.
    assert ((c, Some r) ∈ run) as Hc by set_solver.
    assert (hand_off_inv (mkHandOff (set_saga_intents d rows) run eff)) as Hinv'
      by (apply (hand_off_inv_rows _ _ d run); auto).
    assert (withdrawn key (mkHandOff (set_saga_intents d rows) run eff)) as Hw'.
    { apply (withdrawn_rows _ _ _ _ run); [done| |auto].
      intros r0 Hr0 Hk0 _. by apply (withdrawn_not_held key d run eff c (Some r)). }
    assert (∀ c' o, (c', o) ∈ run1 ++ run2 → (c', o) ∈ run) as Hrun
      by (intros c' o Hc'; by apply elem_of_middle).
    destruct (find _ rows) as [r'|]; [|done].
    case_bool_decide; injection H as <- <-;
      [|by destruct Hw' as [? Hi' ?]; split; cbn in *; eauto].
    apply (withdrawn_rows _ _ _ _ _ _ _ Hw'); [|auto].
    intros r0 Hr0 Hk0 _. by apply (withdrawn_not_held key (set_saga_intents d rows) run eff c (Some r)).
  - destruct Hw as [? Hidle ?]; split; cbn in *; [done| |done].
    intros c' o Hc'. eapply Hidle. by apply elem_of_middle.
  - destruct Hw; split; cbn in *; [by rewrite Hi|done..].
Qed.
End invariant.

(** *** The dispatcher's function *)

(** An update by identifier changes one row. *)
Lemma update_by_id rows r id_ :
  intents_keyed rows → r ∈ rows → si_id r = id_ →
  ∃ l1 l2, rows = l1 ++ r :: l2 ∧
    ∀ f, update_where (has_id id_) f rows = l1 ++ f r :: l2.
Proof.
  intros [Hids _] Hr Hid. apply list_elem_of_split in Hr as (l1 & l2 & ->). exists l1, l2.
  split; [done|]. intros f.
  assert (NoDup (si_id <$> l1 ++ r :: l2)) as Hnd by (rewrite Hids; apply NoDup_seqZ).
  rewrite fmap_app, fmap_cons in Hnd. apply NoDup_app in Hnd as (_ & H1 & [H2 _]%NoDup_cons).
  assert (∀ l, si_id r ∉ si_id <$> l → update_where (has_id id_) f l = l) as Hsame.
  { intros l Hl. apply update_where_none. intros r' Hr'. unfold has_id.
    apply bool_decide_eq_false. intros E. apply Hl. rewrite Hid, <- E.
    by apply list_elem_of_fmap_2. }
  unfold update_where. rewrite fmap_app, fmap_cons.
  change ((λ r, if has_id id_ r then f r else r) <$> l1) with (update_where (has_id id_) f l1).
  change ((λ r, if has_id id_ r then f r else r) <$> l2) with (update_where (has_id id_) f l2).
  rewrite !Hsame; [|done|intros Hl; apply (H1 _ Hl); set_solver].
  unfold has_id. by rewrite bool_decide_true.
Qed.

Lemma find_by_id rows r id_ :
  intents_keyed rows → r ∈ rows → si_id r = id_ → find (has_id id_) rows = Some r.
Proof.
  intros Hk Hr Hid. destruct (find (has_id id_) rows) as [r'|] eqn:E.
  - apply find_some in E as [Hr' Hid'%bool_decide_eq_true]. apply list_elem_of_In in Hr'.
    f_equal. apply (keyed_by_id rows); congruence.
  - eapply find_none in E; [|by apply list_elem_of_In]. unfold has_id in E.
    by rewrite bool_decide_true in E.
Qed.

Lemma update_where_twice id_ f g rows :
  (∀ r, si_id (f r) = si_id r) →
  update_where (has_id id_) g (update_where (has_id id_) f rows) =
  update_where (has_id id_) (λ r, g (f r)) rows.
Proof.
  intros Hf. unfold update_where. rewrite <- list_fmap_compose. apply list_fmap_ext.
  intros _ r _. cbn. unfold has_id. destruct (decide (si_id r = id_)) as [E|E].
  - rewrite (bool_decide_true (si_id r = id_)) by done. cbn.
    by rewrite bool_decide_true by (by rewrite Hf).
  - rewrite (bool_decide_false (si_id r = id_)) by done. cbn. by rewrite bool_decide_false.
Qed.

(** How many more attempts a row can cost. *)
Definition attempts_left (cfg : DispatchSettings) (r : SagaIntentModel) : nat :=
  if retryable r then Z.to_nat (Z.max 1 (intent_max_attempts cfg - si_attempts r)) else 0.
Definition attempts_needed (cfg : DispatchSettings) (rows : list SagaIntentModel) : nat :=
  sum_list_with (attempts_left cfg) rows.

(** No row that may still run is held by a lease at [now]. *)
Definition leases_over (cfg : DispatchSettings) (now : datetime) (d : Database) : Prop :=
  ∀ r, r ∈ db_saga_intents d → retryable r = true →
    intent_lease_expired (intent_claim_lease cfg) now r = true.

(** What an execution leaves of its row. *)
Definition settled (cfg : DispatchSettings) (r r' : SagaIntentModel) : Prop :=
  si_claimed_at r' = None ∧
  (si_status r' = IntentExecuted ∨
   si_attempts r' = (si_attempts r + 1)%Z ∧
   si_status r' = if bool_decide (intent_max_attempts cfg ≤ si_attempts r + 1)%Z
     then IntentParked else si_status r).

Lemma settled_progress cfg r r' :
  retryable r = true → settled cfg r r' → attempts_left cfg r' < attempts_left cfg r.
Proof.
  intros Hr [_ [Hs|[Ha Hs]]]; unfold attempts_left; rewrite Hr.
  - unfold retryable at 1. rewrite Hs. lia.
  - case_bool_decide as Hmax; [unfold retryable at 1; rewrite Hs; lia|].
    assert (retryable r' = true) as -> by (unfold retryable in *; by rewrite Hs). lia.
Qed.

Section dispatching.
Context (fingerprint : payload_fields → string) (cfg : DispatchSettings).

Lemma mark_executed_idle c now d b :
  (_ ← intents_mark_executed (ic_id c) now; _ ← uow_commit; mret true) (at_rest d b) =
  (Ok true, at_rest (set_saga_intents d
    (update_where (has_id (ic_id c)) (executed_row now) (db_saga_intents d))) true).
Proof.
  unfold intents_mark_executed. unfold mbind at 1, tx_bind at 1, execute. cbn [ss_view at_rest].
  unfold mbind at 1, tx_bind at 1. by rewrite (commit_idle _ d).
Qed.

Lemma record_failure_idle c x d b r :
  let rows := update_where (has_id (ic_id c)) (failed_row x) (db_saga_intents d) in
  find (has_id (ic_id c)) rows = Some r →
  CommandDispatcher_record_failure cfg c x (at_rest d b) =
  (Ok tt, at_rest (set_saga_intents d
    (if bool_decide (intent_max_attempts cfg ≤ si_attempts r)%Z
     then update_where (has_id (ic_id c)) (parked_row x) rows else rows)) true).
Proof.
  intros rows Hf. unfold CommandDispatcher_record_failure, intents_mark_failed.
  unfold query, mbind, tx_bind.
  cbn [execute at_rest ss_view ss_conflict db_saga_intents set_saga_intents]. fold rows.
  rewrite Hf. cbn [fmap option_fmap option_map].
  case_bool_decide; cbn -[uow_commit]; by rewrite (commit_idle _ d).
Qed.
Lemma attempt_any_flag c e d b :
  (attempt fingerprint c e (at_rest d b)).1 = (run_request (attempt fingerprint c e) d).1 ∧
  ss_base (attempt fingerprint c e (at_rest d b)).2 = (run_request (attempt fingerprint c e) d).2.
Proof.
  unfold run_request. change (open_session d None id) with (at_rest d false).
  assert (∀ p : result View * Session, (let '(r, s) := p in (r, ss_base s)) = (p.1, ss_base p.2))
    as -> by (by intros []).
  unfold attempt, mbind, tx_bind, tx_lift.
  destruct (handler_for (ic_command_name c)) as [h|x]; [|done].
  destruct (command_for h c) as [[cmd key]|x]; [|done].
  destruct cmd, key; done.
Qed.

(** One execution: the row of the claim is settled, no other row changes, and the
    hand-off has taken the steps of the code. *)
Lemma execute_idle c e d b r :
  intents_keyed (db_saga_intents d) → r ∈ db_saga_intents d → si_id r = ic_id c →
  ∃ ok d' f, CommandDispatcher_execute fingerprint cfg c e (at_rest d b) = (Ok ok, at_rest d' true) ∧
    db_saga_intents d' = update_where (has_id (ic_id c)) f (db_saga_intents d) ∧
    (∀ r, identity (f r) = identity r) ∧ settled cfg r (f r) ∧
    ∀ run1 run2 eff, ∃ eff', reachable (hand_off_step fingerprint cfg)
      (mkHandOff d (run1 ++ (c, None) :: run2) eff) (mkHandOff d' (run1 ++ run2) eff').
Proof.
  intros Hk Hr Hid.
  destruct (attempt_idle fingerprint c e d b) as (res & d1 & b1 & Hatt & [Hi _ _ _]).
  assert (run_request (attempt fingerprint c e) d = (res, d1)) as Hrun.
  { destruct (attempt_any_flag c e d b) as [E1 E2]. rewrite Hatt in E1, E2.
    by rewrite (surjective_pairing (run_request _ d)), <- E1, <- E2. }
  unfold CommandDispatcher_execute, tx_except.
  destruct res as [v|x].
  - rewrite (tx_bind_Ok _ _ _ _ _ Hatt), mark_executed_idle.
    eexists true, _, (executed_row (env_now e)). split; [done|]. rewrite <- Hi.
    split; [done|]. split; [done|]. split; [split; [done|by left]|]. intros run1 run2 eff.
    eexists. eapply reach_step; [eapply reach_step; [apply reach_here|by eapply step_attempt]|].
    apply step_executed with (now := env_now e). apply run_mark_executed.
  - rewrite (tx_bind_Raise _ _ _ _ _ Hatt).
    unfold mbind at 1, tx_bind at 1. change (uow_rollback (at_rest d1 b1)) with (Ok tt, at_rest d1 false).
    set (rows := update_where (has_id (ic_id c)) (failed_row x) (db_saga_intents d1)).
    assert (find (has_id (ic_id c)) rows = Some (failed_row x r)) as Hfind.
    { apply find_by_id; [|apply elem_of_update_where; exists r; rewrite Hi|done].
      - unfold rows. rewrite Hi. by eapply intents_keyed_identity, Hk; apply update_where_identity.
      - split; [done|]. unfold has_id. by rewrite bool_decide_true. }
    unfold mbind at 1, tx_bind at 1. rewrite (record_failure_idle c x d1 false _ Hfind).
    eexists false, _, (λ r0, if bool_decide (intent_max_attempts cfg ≤ si_attempts r + 1)%Z
      then parked_row x (failed_row x r0) else failed_row x r0). split; [done|].
    split; [|split; [|split]].
    + cbn. rewrite <- Hi. unfold rows. case_bool_decide; [|done]. by apply update_where_twice.
    + intros r0. by case_bool_decide.
    + unfold settled. case_bool_decide; (split; [done|]); right; done.
    + intros run1 run2 eff. eexists.
      eapply reach_step; [eapply reach_step; [apply reach_here|by eapply step_attempt]|].
      eapply (step_failed _ _ _ _ _ _ _ _ x
        (if bool_decide (intent_max_attempts cfg ≤ si_attempts r + 1)%Z
         then IntentParked else IntentFailed)). rewrite run_mark_failed. cbv zeta. fold rows.
      rewrite Hfind. cbn [failed_row set_intent si_attempts]. by case_bool_decide.
Qed.
(** The rest of a batch is untouched by one execution. *)
Lemma other_row rows id_ f r :
  r ∈ rows → si_id r ≠ id_ → r ∈ update_where (has_id id_) f rows.
Proof.
  intros Hr Hid. apply elem_of_update_where. exists r. split; [done|].
  unfold has_id. by rewrite bool_decide_false.
Qed.

Lemma attempts_needed_by_id rows id_ f r :
  intents_keyed rows → r ∈ rows → si_id r = id_ →
  attempts_needed cfg (update_where (has_id id_) f rows) + attempts_left cfg r =
  attempts_needed cfg rows + attempts_left cfg (f r).
Proof.
  intros Hk Hr Hid. destruct (update_by_id rows r id_ Hk Hr Hid) as (l1 & l2 & -> & Hf).
  rewrite Hf. unfold attempts_needed. rewrite !sum_list_with_app. cbn. lia.
Qed.

Lemma dispatch_claims_idle claims : ∀ env d b,
  intents_keyed (db_saga_intents d) → NoDup (ic_id <$> claims) →
  (∀ c, c ∈ claims → ∃ r, r ∈ db_saga_intents d ∧ si_id r = ic_id c ∧ retryable r = true) →
  ∃ n d' b', dispatch_claims fingerprint cfg claims env (at_rest d b) = (Ok n, at_rest d' b') ∧
    intents_keyed (db_saga_intents d') ∧
    attempts_needed cfg (db_saga_intents d') + length claims ≤
      attempts_needed cfg (db_saga_intents d) ∧
    (∀ r', r' ∈ db_saga_intents d' → si_claimed_at r' = None ∨
      r' ∈ db_saga_intents d ∧ si_id r' ∉ ic_id <$> claims) ∧
    ∀ run eff, ∃ eff', reachable (hand_off_step fingerprint cfg)
      (mkHandOff d (run ++ ((λ c, (c, None)) <$> claims)) eff) (mkHandOff d' run eff').
Proof.
  induction claims as [|c claims IH]; intros env d b Hk Hnd Hrows.
  { exists 0, d, b. split; [done|]. split; [done|]. split; [cbn; lia|]. split.
    - intros r' Hr'. right. split; [done|]. apply not_elem_of_nil.
    - intros run eff. exists eff. rewrite app_nil_r. apply reach_here. }
  destruct (Hrows c) as (r & Hr & Hid & Hret); [by left|].
  destruct (execute_idle c (env 0) d b r Hk Hr Hid)
    as (ok & d1 & f & E & Hd1 & Hf & Hs & Hpath).
  apply NoDup_cons in Hnd as [Hc Hnd].
  assert (intents_keyed (db_saga_intents d1)) as Hk1.
  { rewrite Hd1. eapply intents_keyed_identity, Hk. by apply update_where_identity. }
  destruct (IH (λ n, env (S n)) d1 true Hk1 Hnd) as (n & d' & b' & E' & Hk' & Hneed & Hold & Hpath').
  { intros c' Hc'. destruct (Hrows c') as (r' & Hr' & Hid' & Hret'); [by right|]. exists r'.
    split; [|done]. rewrite Hd1. apply other_row; [done|]. rewrite Hid'. intros Heq.
    apply Hc. rewrite <- Heq. by apply list_elem_of_fmap_2. }
  exists ((if ok then 1 else 0) + n), d', b'. split; [|split; [done|split; [|split]]].
  - cbn. rewrite (tx_bind_Ok _ _ _ _ _ E), (tx_bind_Ok _ _ _ _ _ E'). done.
  - pose proof (attempts_needed_by_id _ _ f r Hk Hr Hid) as Hsum. rewrite <- Hd1 in Hsum.
    pose proof (settled_progress cfg _ _ Hret Hs). cbn [length]. lia.
  - intros r' [?|[Hr' Hnot]]%Hold; [by left|].
    rewrite Hd1 in Hr'. apply elem_of_update_where in Hr' as (r0 & Hr0 & ->).
    unfold has_id in *. case_bool_decide as Heq.
    + left. rewrite (keyed_by_id _ r0 r Hk Hr0 Hr) by congruence. apply Hs.
    + right. split; [done|]. cbn. rewrite not_elem_of_cons. done.
  - intros run eff. destruct (Hpath run ((λ c, (c, None)) <$> claims) eff) as [eff1 H1].
    destruct (Hpath' run eff1) as [eff2 H2]. exists eff2.
    by eapply reachable_trans.
Qed.
(** A transaction inside a longer computation: what follows sees an idle session. *)
Lemma then_commit {A B} (m : tx A) d v d' (k : A → tx B) :
  Staging any_write m → run_request (transaction m) d = (Ok v, d') →
  (a ← m; _ ← uow_commit; k a) (open_session d None id) = k v (at_rest d' true).
Proof.
  intros Hst H. rewrite (run_transaction any_write m d) in H.
  pose proof (staging (P := any_write) (m := m) (open_session d None id)) as [Hb _ Hx Ho _].
  destruct (m (open_session d None id)) as [[a|x] s] eqn:E; cbn in Hb, Hx, Ho; [|done].
  destruct (replay_writes _ d) as [d1|] eqn:Er; [|done]. injection H as <- <-.
  rewrite (tx_bind_Ok _ _ _ _ _ E). unfold mbind at 1, tx_bind at 1.
  by rewrite (commit_idle s d), Er by done.
Qed.

Lemma attempts_left_leased now r : attempts_left cfg (leased now r) = attempts_left cfg r.
Proof. done. Qed.

Lemma claim_needs limit now rows :
  let taken := taken_by limit (intent_claim_lease cfg) now rows in
  attempts_needed cfg (update_where taken (leased now) rows) = attempts_needed cfg rows.
Proof.
  intros taken. unfold attempts_needed, update_where.
  generalize taken. clear taken. intros taken.
  induction rows as [|r rows IH]; [done|]. cbn. rewrite IH. by destruct (taken r).
Qed.

(** A claim takes a row when one is retryable and its lease is over. *)
Lemma claim_nonempty limit now rows r :
  0 < limit → r ∈ rows → retryable r = true →
  intent_lease_expired (intent_claim_lease cfg) now r = true →
  ∃ r0, r0 ∈ rows ∧ taken_by limit (intent_claim_lease cfg) now rows r0 = true.
Proof.
  intros Hl Hr Hret Hlease. unfold taken_by, claimable_intents.
  set (P := λ r, retryable r && intent_lease_expired (intent_claim_lease cfg) now r = true).
  assert (r ∈ filter P rows) as Hin.
  { apply list_elem_of_filter. unfold P. by rewrite Hret, Hlease. }
  destruct (filter P rows) as [|r0 rs] eqn:E; [by apply elem_of_nil in Hin|].
  assert (r0 ∈ filter P rows) as Hr0 by (rewrite E; by left).
  apply list_elem_of_filter in Hr0 as [Hp Hr0]. exists r0. split; [done|].
  destruct limit; [lia|]. cbn. apply andb_true_iff in Hp as [-> _].
  rewrite bool_decide_true; [done|by left].
Qed.

(** One tick: it answers, and costs every row it takes an attempt. *)
Lemma dispatch_tick_progress now env d :
  intents_keyed (db_saga_intents d) →
  ∃ n d', run_request (CommandDispatcher_run_once fingerprint cfg now env) d = (Ok n, d') ∧
    intents_keyed (db_saga_intents d') ∧
    (0 < intent_dispatch_batch_size cfg → leases_over cfg now d →
     Exists (λ r, retryable r = true) (db_saga_intents d) →
       attempts_needed cfg (db_saga_intents d') < attempts_needed cfg (db_saga_intents d)) ∧
    attempts_needed cfg (db_saga_intents d') ≤ attempts_needed cfg (db_saga_intents d) ∧
    (∀ r', r' ∈ db_saga_intents d' → si_claimed_at r' = None ∨ r' ∈ db_saga_intents d) ∧
    ∀ run eff, ∃ eff', reachable (hand_off_step fingerprint cfg)
      (mkHandOff d run eff) (mkHandOff d' run eff').
Proof.
  intros Hk.
  set (taken := taken_by (intent_dispatch_batch_size cfg) (intent_claim_lease cfg) now
    (db_saga_intents d)).
  set (rows := update_where taken (leased now) (db_saga_intents d)).
  set (claims := claim_of <$> filter (λ r, taken r = true) rows).
  pose proof (run_claim (intent_dispatch_batch_size cfg) (intent_claim_lease cfg) now d) as Hclaim.
  cbv zeta in Hclaim. fold taken rows claims in Hclaim.
  assert (intents_keyed rows) as Hk1.
  { eapply intents_keyed_identity, Hk. by apply update_where_identity. }
  assert (attempts_needed cfg rows = attempts_needed cfg (db_saga_intents d)) as Hneed
    by apply claim_needs.
  destruct (dispatch_claims_idle claims env (set_saga_intents d rows) true)
    as (n & d' & b' & E & Hk' & Hless & Hold & Hpath).
  { done. }
  { unfold claims. rewrite <- list_fmap_compose.
    change (ic_id ∘ claim_of) with si_id. apply NoDup_fmap_filter.
    rewrite (proj1 Hk1). apply NoDup_seqZ. }
  { intros c (r & -> & [Ht Hr]%list_elem_of_filter)%list_elem_of_fmap. exists r.
    split_and!; [done|done|]. unfold taken, taken_by in Ht. by apply andb_true_iff in Ht as [_ Ht]. }
  cbn [db_saga_intents set_saga_intents] in *.
  exists n, d'. split_and!; [|done|intros Hlimit Hleases Hex|lia| |].
  - unfold run_request, CommandDispatcher_run_once.
    rewrite (then_commit _ d claims _ (λ cs, dispatch_claims fingerprint cfg cs env) _ Hclaim).
    by rewrite E.
  - apply Exists_exists in Hex as (r & Hr & Hret).
    destruct (claim_nonempty _ now _ r Hlimit Hr Hret (Hleases r Hr Hret)) as (r0 & Hr0 & Ht).
    assert (claims ≠ []) as Hne; [|destruct claims; [done|cbn in Hless; lia]].
    unfold claims. intros Hnil%fmap_nil_inv.
    apply (filter_nil_not_elem_of _ _ (leased now r0) Hnil Ht).
    apply elem_of_update_where. exists r0. split; [done|]. unfold taken. by rewrite Ht.
  - intros r' [?|[Hr' Hnot]]%Hold; [by left|]. apply elem_of_update_where in Hr' as (r0 & Hr0 & ->).
    right. destruct (taken r0) eqn:Ht; [|done]. exfalso. apply Hnot.
    apply list_elem_of_fmap. exists (claim_of (leased now r0)). split; [done|].
    apply list_elem_of_fmap_2, list_elem_of_filter. split; [done|].
    apply elem_of_update_where. exists r0. by rewrite Ht.
  - intros run eff. destruct (Hpath run eff) as [eff' Hreach]. exists eff'.
    eapply reachable_trans; [|exact Hreach].
    eapply reach_step; [apply reach_here|]. by apply (step_claim _ _ _ _ _ now).
Qed.
End dispatching.

(** ** Theorems *)

(** [C7] A recorded command takes effect once.  Whatever sagas record and cancel, however
    many dispatchers claim the same command again after a crash or a lost mark, and
    whatever other transactions do to the rest of the rows while they forget no stored
    answer: no command publishes its effect twice; the transaction that published a
    command's effect also stored its answer under its key, where there was none, and that
    answer is still stored; and a create marked executed has been answered by its handler,
    and that answer is stored under its key. *)
Theorem recorded_commands_run_once (fingerprint : payload_fields → string)
    (cfg : DispatchSettings) (d0 : Database) (h : HandOff) :
  db_saga_intents d0 = [] →
  reachable (hand_off_step fingerprint cfg) (mkHandOff d0 [] []) h →
  NoDup (ic_idempotency_key <$> hs_effects h) ∧
  (∀ c, c ∈ hs_effects h → ∃ rec,
     db_idempotency (hs_db h) !! ic_idempotency_key c = Some rec ∧
     ∃ e d1 d2, run_request (attempt fingerprint c e) d1 = (Ok (ir_response rec), d2) ∧
       published d2 ≠ published d1 ∧ db_idempotency d1 !! ic_idempotency_key c = None ∧
       db_idempotency d2 !! ic_idempotency_key c = Some rec) ∧
  (∀ r, r ∈ db_saga_intents (hs_db h) → si_status r = IntentExecuted →
     creating (si_command_name r) = true →
     ∃ c rec, claimed_identity c = identity r ∧
       db_idempotency (hs_db h) !! si_idempotency_key r = Some rec ∧
       ∃ e d1 d2, run_request (attempt fingerprint c e) d1 = (Ok (ir_response rec), d2) ∧
         db_idempotency d2 !! si_idempotency_key r = Some rec).
Proof.
  intros Hd Hr.
  pose proof (hand_off_inv_reachable _ _ _ _ (hand_off_inv_start fingerprint d0 [] Hd eq_refl) Hr)
    as [_ Honce Hstored _ _ Hexec].
  split_and!; [done|exact Hstored|]. intros r Hin Hs Hc.
  destruct (Hexec r Hin Hs Hc) as (c & rec & E & Hrec & Hans). exists c, rec.
  pose proof E as E'. unfold claimed_identity, identity in E'. injection E' as _ <- _. by split_and!.
Qed.

(** A command withdrawn in time never runs.  When a process cancels a command that
    is pending, that no dispatcher holds and that has not taken effect, it is told so, and
    in every later state of the hand-off the command is still cancelled and has published
    nothing. *)
Theorem withdrawn_command_never_runs (fingerprint : payload_fields → string)
    (cfg : DispatchSettings) (d0 d1 : Database) (h h' : HandOff) (key : string) (b : bool) :
  db_saga_intents d0 = [] →
  reachable (hand_off_step fingerprint cfg) (mkHandOff d0 [] []) h →
  (∃ r, r ∈ db_saga_intents (hs_db h) ∧ si_idempotency_key r = key ∧
     si_status r = IntentPending) →
  (∀ c o, (c, o) ∈ hs_running h → ic_idempotency_key c ≠ key) →
  key ∉ ic_idempotency_key <$> hs_effects h →
  run_request (transaction (intents_cancel_pending key)) (hs_db h) = (Ok b, d1) →
  reachable (hand_off_step fingerprint cfg) (mkHandOff d1 (hs_running h) (hs_effects h)) h' →
  b = true ∧ key ∉ ic_idempotency_key <$> hs_effects h' ∧
  ∃ r, r ∈ db_saga_intents (hs_db h') ∧ si_idempotency_key r = key ∧
    si_status r = IntentCancelled.
Proof.
  intros Hd Hr (r & Hin & Hk & Hs) Hidle Hsilent Hcancel Hr'.
  pose proof (hand_off_inv_reachable _ _ _ _ (hand_off_inv_start fingerprint d0 [] Hd eq_refl) Hr) as Hinv.
  destruct h as [d run eff]. cbn in *.
  assert (hand_off_inv fingerprint (mkHandOff d1 run eff)) as Hinv1.
  { eapply (hand_off_inv_step fingerprint cfg _ _ Hinv). by eapply step_cancel. }
  rewrite run_cancel in Hcancel. injection Hcancel as <- <-.
  split.
  { apply existsb_exists. exists r. split; [by apply list_elem_of_In|].
    unfold pending_with. by rewrite !bool_decide_true. }
  set (d1 := set_saga_intents d _) in *.
  assert (withdrawn key (mkHandOff d1 run eff)) as Hw.
  { split; cbn; [|done|done]. exists (cancelled_row r). split; [|done].
    apply elem_of_update_where. exists r. unfold pending_with.
    by rewrite !bool_decide_true. }
  assert (hand_off_inv fingerprint h' ∧ withdrawn key h') as [_ [? _ ?]]; [|by split].
  clear -Hr' Hinv1 Hw. induction Hr' as [|h1 h2 Hr1 [IHi IHw] Hstep]; [by split|].
  split; [by eapply hand_off_inv_step|by eapply withdrawn_step].
Qed.

(** [C8] The dispatcher gets through its work.  With a batch of at least one and no lease
    running, after as many ticks as the rows have attempts left — whatever the handlers
    answer — no command is left to run: each is executed, parked after its last attempt,
    or was cancelled. *)
Theorem dispatch_settles_every_command (fingerprint : payload_fields → string)
    (cfg : DispatchSettings) (ticks : list (datetime * (nat → Env))) (d : Database) :
  intents_keyed (db_saga_intents d) → 0 < intent_dispatch_batch_size cfg →
  (∀ now env, (now, env) ∈ ticks → leases_over cfg now d) →
  attempts_needed cfg (db_saga_intents d) ≤ length ticks →
  ∀ r, r ∈ db_saga_intents (CommandDispatcher_run fingerprint cfg ticks d) →
    retryable r = false.
Proof.
  revert d. induction ticks as [|[now env] ticks IH]; intros d Hk Hl Hleases Hneed r Hr.
  - cbn in *. unfold attempts_needed in Hneed.
    apply list_elem_of_split in Hr as (l1 & l2 & E). rewrite E, sum_list_with_app in Hneed.
    cbn in Hneed. unfold attempts_left at 2 in Hneed. destruct (retryable r); [lia|done].
  - cbn in Hr. destruct (dispatch_tick_progress fingerprint cfg now env d Hk)
      as (n & d' & E & Hk' & Hless & Hle & Hold & _). rewrite E in Hr.
    apply (IH d' Hk' Hl); [|cbn in Hneed|exact Hr].
    + intros now' env' Hin r' Hr' Hret. destruct (Hold r' Hr') as [Hnone|Hr0].
      * unfold intent_lease_expired. by rewrite Hnone.
      * apply (Hleases now' env'); [by right|done..].
    + destruct (decide (Exists (λ r, retryable r = true) (db_saga_intents d))) as [Hex|Hno].
      * specialize (Hless Hl (Hleases now env ltac:(by left)) Hex). lia.
      * assert (attempts_needed cfg (db_saga_intents d) = 0) as Hz; [|lia].
        unfold attempts_needed. clear -Hno. induction (db_saga_intents d) as [|r rs IH]; [done|].
        rewrite Exists_cons in Hno. cbn. rewrite IH by naive_solver.
        unfold attempts_left. destruct (retryable r); naive_solver.
Qed.

(** [C9] What one dispatcher does, tick after tick, is a run of the hand-off: a claim in a
    transaction of its own, each handler in its own, each mark in its own. *)
Theorem dispatcher_refines_hand_off (fingerprint : payload_fields → string)
    (cfg : DispatchSettings) (ticks : list (datetime * (nat → Env))) (d : Database)
    (run : list (IntentClaim * option (result View))) (eff : list IntentClaim) :
  intents_keyed (db_saga_intents d) →
  ∃ eff', reachable (hand_off_step fingerprint cfg) (mkHandOff d run eff)
    (mkHandOff (CommandDispatcher_run fingerprint cfg ticks d) run eff').
Proof.
  revert d eff. induction ticks as [|[now env] ticks IH]; intros d eff Hk.
  { exists eff. apply reach_here. }
  destruct (dispatch_tick_progress fingerprint cfg now env d Hk)
    as (n & d' & E & Hk' & _ & _ & _ & Hpath).
  destruct (Hpath run eff) as [eff1 H1]. destruct (IH d' eff1 Hk') as [eff2 H2].
  exists eff2. cbn. rewrite E. by eapply reachable_trans.
Qed.

(** ** A hand-off with a crash in it

    A schedule is recorded, claimed and created; the dispatcher stops before it marks the
    row.  Once the lease is over the command is claimed and run again, and marked. *)
Definition demo_cfg : DispatchSettings := mkDispatchSettings 10 (seconds 60) 3.
Definition demo_fingerprint (_ : payload_fields) : string := "digest".
Definition demo_command : DelegatedCommand := CreateCareScheduleCommand (Uuid 7) (days 3).
Definition demo_intent : RecordedIntent :=
  recorded_intent 5 2 (delegated_name demo_command) (model_dump demo_command JNull).
Definition demo_at (n : Z) : datetime := (days 1000 + seconds n)%Z.
Definition demo_env (n : Z) : Env := mkEnv (demo_at n) (λ k, (100 + Z.to_N n * 10 + N.of_nat k)%N).

Definition demo_claim_tx (n : Z) : tx (list IntentClaim) :=
  transaction (intents_claim_pending (intent_dispatch_batch_size demo_cfg)
    (intent_claim_lease demo_cfg) (demo_at n)).
Definition demo_claim : IntentClaim :=
  mkIntentClaim 1 5 (delegated_name demo_command) (model_dump demo_command JNull) 0
    (intent_key 5 2) (demo_at 0).

Definition demo_recorded : Database :=
  (run_request (transaction (intents_record demo_intent (demo_at 0))) empty_database).2.
Definition demo_claimed : Database := (run_request (demo_claim_tx 1) demo_recorded).2.
Definition demo_created : Database :=
  (run_request (attempt demo_fingerprint demo_claim (demo_env 2)) demo_claimed).2.
Definition demo_reclaimed : Database := (run_request (demo_claim_tx 90) demo_created).2.
Definition demo_replayed : Database :=
  (run_request (attempt demo_fingerprint demo_claim (demo_env 91)) demo_reclaimed).2.
Definition demo_executed : Database :=
  (run_request (transaction (intents_mark_executed (ic_id demo_claim) (demo_at 92)))
    demo_replayed).2.

Lemma demo_after_crash :
  reachable (hand_off_step demo_fingerprint demo_cfg) (mkHandOff empty_database [] [])
    (mkHandOff demo_created [] [demo_claim]).
Proof.
  eapply reach_step; [|apply (step_crash _ _ _ [] (demo_claim,
    Some (run_request (attempt demo_fingerprint demo_claim (demo_env 2)) demo_claimed).1) [])].
  eapply reach_step; [eapply reach_step; [eapply reach_step; [apply reach_here|]|]|].
  - by apply (step_record _ _ _ _ _ demo_intent (demo_at 0) demo_recorded).
  - apply (step_claim _ _ _ _ _ (demo_at 1) [demo_claim] demo_claimed). by vm_compute.
  - pose proof (step_attempt demo_fingerprint demo_cfg demo_claimed [] demo_claim [] []
      (demo_env 2) _ demo_created (surjective_pairing _)) as H.
    rewrite decide_False in H by by vm_compute. exact H.
Qed.

Lemma recorded_commands_run_once_witness :
  db_saga_intents empty_database = [] ∧
  reachable (hand_off_step demo_fingerprint demo_cfg) (mkHandOff empty_database [] [])
    (mkHandOff demo_executed [] [demo_claim]) ∧
  is_Some (db_care_schedules demo_executed !! 7%N) ∧
  NoDup (ic_idempotency_key <$> [demo_claim]) ∧
  is_Some (db_idempotency demo_executed !! ic_idempotency_key demo_claim).
Proof.
  assert (reachable (hand_off_step demo_fingerprint demo_cfg) (mkHandOff empty_database [] [])
    (mkHandOff demo_executed [] [demo_claim])) as Hr.
  { eapply reach_step; [eapply reach_step; [eapply reach_step; [exact demo_after_crash|]|]|].
    - apply (step_claim _ _ _ _ _ (demo_at 90) [demo_claim] demo_reclaimed). by vm_compute.
    - pose proof (step_attempt demo_fingerprint demo_cfg demo_reclaimed [] demo_claim []
        [demo_claim] (demo_env 91) _ demo_replayed (surjective_pairing _)) as H.
      rewrite decide_True in H by by vm_compute. exact H.
    - eapply (step_executed _ _ _ [] demo_claim _ [] _ (demo_at 92)). by vm_compute. }
  split; [done|]. split; [exact Hr|]. split; [eexists; vm_compute; reflexivity|].
  destruct (recorded_commands_run_once demo_fingerprint demo_cfg empty_database
    (mkHandOff demo_executed [] [demo_claim]) eq_refl Hr) as (Honce & Hstored & _).
  split; [exact Honce|]. destruct (Hstored demo_claim) as (rec & Hrec & _); [by left|].
  by exists rec.
Defined.

Lemma demo_recorded_reachable :
  reachable (hand_off_step demo_fingerprint demo_cfg) (mkHandOff empty_database [] [])
    (mkHandOff demo_recorded [] []).
Proof.
  eapply reach_step; [apply reach_here|].
  by apply (step_record _ _ _ _ _ demo_intent (demo_at 0) demo_recorded).
Qed.

Lemma demo_recorded_keyed : intents_keyed (db_saga_intents demo_recorded).
Proof.
  apply (hi_keyed _ _ (hand_off_inv_reachable _ _ _ _
    (hand_off_inv_start demo_fingerprint empty_database [] eq_refl eq_refl) demo_recorded_reachable)).
Qed.

Lemma withdrawn_command_never_runs_witness :
  ∃ d1, run_request (transaction (intents_cancel_pending (intent_key 5 2))) demo_recorded =
      (Ok true, d1) ∧
    ∃ r, r ∈ db_saga_intents d1 ∧ si_idempotency_key r = intent_key 5 2 ∧
      si_status r = IntentCancelled.
Proof.
  destruct (run_request (transaction (intents_cancel_pending (intent_key 5 2))) demo_recorded)
    as [[b|x] d1] eqn:E; [|by vm_compute in E].
  destruct (withdrawn_command_never_runs demo_fingerprint demo_cfg empty_database d1
    (mkHandOff demo_recorded [] []) (mkHandOff d1 [] []) (intent_key 5 2) b)
    as (-> & _ & H).
  - done.
  - exact demo_recorded_reachable.
  - eexists. split; [vm_compute; by left|]. by vm_compute.
  - set_solver.
  - set_solver.
  - exact E.
  - apply reach_here.
  - exists d1. split; [done|exact H].
Defined.

Definition demo_ticks : list (datetime * (nat → Env)) :=
  [(demo_at 1, λ _, demo_env 2); (demo_at 3, λ _, demo_env 4); (demo_at 5, λ _, demo_env 6)].

Lemma demo_no_lease now : leases_over demo_cfg now demo_recorded.
Proof. intros r Hr. vm_compute in Hr. apply list_elem_of_singleton in Hr as ->. done. Qed.

Lemma dispatch_settles_every_command_witness :
  is_Some (db_care_schedules (CommandDispatcher_run demo_fingerprint demo_cfg demo_ticks
    demo_recorded) !! 7%N) ∧
  ∀ r, r ∈ db_saga_intents (CommandDispatcher_run demo_fingerprint demo_cfg demo_ticks
    demo_recorded) → retryable r = false.
Proof.
  split; [eexists; vm_compute; reflexivity|].
  apply (dispatch_settles_every_command demo_fingerprint demo_cfg demo_ticks demo_recorded).
  - exact demo_recorded_keyed.
  - cbn. lia.
  - intros now env _. apply demo_no_lease.
  - vm_compute. lia.
Defined.

Lemma dispatcher_refines_hand_off_witness :
  intents_keyed (db_saga_intents demo_recorded) ∧
  ∃ eff', reachable (hand_off_step demo_fingerprint demo_cfg) (mkHandOff demo_recorded [] [])
    (mkHandOff (CommandDispatcher_run demo_fingerprint demo_cfg demo_ticks demo_recorded) [] eff').
Proof.
  split; [exact demo_recorded_keyed|].
  apply (dispatcher_refines_hand_off demo_fingerprint demo_cfg demo_ticks demo_recorded [] []).
  exact demo_recorded_keyed.
Defined.
