(* ===== verification/JournalStore.v ===== *)
(** The journal's event store: replaying a plant's stream from its newest checkpoint,
    appending one entry with the event that announces it, and the two callers of the
    append path ([application/journal/store.py], [application/journal/consumer.py],
    [application/commands/journal.py]). *)

From S2P Require Import Prelude Domain Journal Garden Topics Rows Views Database UnitOfWork.
From S2P Require Import Repositories Commands.

Definition SNAPSHOT_EVERY : Z := 50.

(** ** Loading *)

Definition is_journal_event (e : DomainEvent) : bool :=
  match body e with JournalEntryAdded _ _ _ _ _ => true | _ => false end.

(** The loop over the stored events, checking that versions are consecutive. *)
Fixpoint replay_stored (expected_version : Z) (a : JournalAggregate)
    (stored : list StoredEvent) : result JournalAggregate :=
  match stored with
  | [] => Ok a
  | item :: stored =>
      if decide (se_version item ≠ expected_version) then Raise EventStoreCorruptionError
      else if is_journal_event (se_event item) then
        a ← JournalAggregate_apply a (se_event item);
        replay_stored (expected_version + 1) a stored
      else Raise EventStoreCorruptionError
  end.

Definition load_journal_aggregate (plant_id : PlantId) : tx JournalAggregate :=
  state ← snapshots_latest plant_id;
  let after_version := match state with None => 0%Z | Some st => jst_version st end in
  stored ← event_store_load_stream plant_id after_version;
  aggregate ← tx_lift match state with
    | None => JournalAggregate_new plant_id [] 0
    | Some st => JournalAggregate_from_state st
    end;
  tx_lift (replay_stored (after_version + 1) aggregate stored).

(** ** Appending *)

(** [record_journal_entry]; [minted] is the identifier of an entry the caller does not
    name, [eid] the event's. *)
Definition record_journal_entry (plant_id : PlantId) (entry_type : JournalEntryType)
    (at_ now : datetime) (note : option string) (entry_id : option JournalEntryId)
    (minted eid : uuid) : tx JournalEntry :=
  aggregate ← load_journal_aggregate plant_id;
  match entry_id ≫= JournalAggregate_entry aggregate with
  | Some existing => mret existing
  | None =>
      let expected_version := ja_version aggregate in
      let '(added, answer) := JournalAggregate_add_entry aggregate entry_type at_ now note
        entry_id minted eid in
      entry ← tx_lift answer;
      let '(events, clean) := JournalAggregate_collect_events added in
      _ ← event_store_append plant_id expected_version events;
      _ ← tx_iter outbox_append events;
      _ ← journal_entries_add entry;
      _ ← (if JournalAggregate_should_snapshot clean SNAPSHOT_EVERY
           then snapshots_save (JournalAggregate_state clean) else mret tt);
      mret entry
  end.

Definition AddJournalEntryHandler (plant_id : PlantId) (entry_type : JournalEntryType)
    (at_ : option datetime) (note : option string) (entry_id : option JournalEntryId)
    (e : Env) : tx View :=
  transaction (
    found ← plants_get plant_id;
    _ ← require found;
    entry ← record_journal_entry plant_id entry_type (default (env_now e) at_) (env_now e)
      note entry_id (env_mint e 0) (env_mint e 1);
    mret (JournalEntryView_from_domain entry)).

(** ** The stream a journal is kept in *)

(** A journal append as a request of its own. *)
Record journal_request := mkJournalRequest {
  jr_plant_id : PlantId;
  jr_add : journal_add }.

Definition run_journal_request (d : Database) (r : journal_request) :
    result JournalEntry * Database :=
  run_request (transaction (record_journal_entry (jr_plant_id r) (add_type (jr_add r))
    (add_at (jr_add r)) (add_now (jr_add r)) (add_note (jr_add r)) (add_entry_id (jr_add r))
    (add_minted (jr_add r)) (add_eid (jr_add r)))) d.

Definition run_journal_requests (d : Database) (rs : list journal_request) : Database :=
  foldl (λ d r, (run_journal_request d r).2) d rs.

(** What a stored row says: its version, its type and its event. *)
Definition row_facts (m : EventStoreModel) : Z * string * DomainEvent :=
  (esm_version m, esm_event_type m, esm_payload m).

Definition plant_rows (d : Database) (plant_id : PlantId) : list EventStoreModel :=
  filter (λ m, esm_stream_id m = uuid_value plant_id) (db_event_store d).

(** The rows of a stream, numbered from 1 in append order. *)
Definition numbered (es : list DomainEvent) : list (Z * string * DomainEvent) :=
  imap (λ i e, (Z.of_nat i + 1, event_name (body e), e)%Z) es.

(** The stream of [plant_id] holds exactly [es], replaying it gives [a], and every
    checkpoint of it is the state of the prefix its version names. *)
Record journal_ok (d : Database) (plant_id : PlantId) (es : list DomainEvent)
    (a : JournalAggregate) : Prop := mkJournalOk {
  jok_rows : row_facts <$> plant_rows d plant_id = numbered es;
  jok_replay : journal_replay (empty_journal plant_id) es = Ok a;
  jok_snapshots : ∀ v m, db_snapshots d !! (uuid_value plant_id, v) = Some m →
    ∃ n b, v = Z.of_nat n ∧ (0 < n ≤ length es) ∧
      journal_replay (empty_journal plant_id) (take n es) = Ok b ∧
      m = snapshot_model_from_state (JournalAggregate_state b) }.

Definition snapshots_keyed (d : Database) : Prop :=
  map_Forall (λ k m, (jsm_stream_id m, jsm_version m) = k) (db_snapshots d).

Definition journals_ok (d : Database) : Prop :=
  snapshots_keyed d ∧ ∀ plant_id, ∃ es a, journal_ok d plant_id es a.

(** A writer of its own: one event appended on top of the version it read. *)
Definition append_on (plant_id : PlantId) (version : Z) (e : DomainEvent) (d : Database) :
    result unit * Database :=
  run_request (transaction (event_store_append plant_id version [e])) d.

(** ** Lemmas *)

Lemma numbered_snoc es e :
  numbered (es ++ [e]) =
  numbered es ++ [(Z.of_nat (length es) + 1, event_name (body e), e)%Z].
Proof. unfold numbered. rewrite imap_app. cbn. by rewrite Nat.add_0_r. Qed.

Lemma numbered_lookup es i :
  numbered es !! i = (λ e, (Z.of_nat i + 1, event_name (body e), e)%Z) <$> es !! i.
Proof. unfold numbered. by rewrite list_lookup_imap. Qed.

(** The rows after a version, in version order, are the tail of the stream. *)
Lemma stream_rows_drop d plant_id es n :
  row_facts <$> plant_rows d plant_id = numbered es → n ≤ length es →
  row_facts <$> stream_rows d (uuid_value plant_id) (Z.of_nat n) = drop n (numbered es).
Proof.
  intros Hrows Hn.
  assert (∀ i m, plant_rows d plant_id !! i = Some m → esm_version m = (Z.of_nat i + 1)%Z) as Hv.
  { intros i m Hi. assert ((row_facts <$> plant_rows d plant_id) !! i = Some (row_facts m)) as H
      by (by rewrite list_lookup_fmap, Hi).
    rewrite Hrows, numbered_lookup in H. destruct (es !! i); [|done]. by injection H. }
  assert (filter (λ m, esm_stream_id m = uuid_value plant_id ∧ (Z.of_nat n < esm_version m)%Z)
    (db_event_store d) = drop n (plant_rows d plant_id)) as Hf.
  { rewrite <- (filter_drop (λ m, (Z.of_nat n < esm_version m)%Z)).
    - unfold plant_rows. rewrite list_filter_filter. apply list_filter_iff. tauto.
    - intros i m Hi. rewrite (Hv i m Hi). lia. }
  unfold stream_rows. rewrite Hf, (merge_sort_id version_le); [by rewrite fmap_drop, Hrows|].
  intros i j x y Hij. rewrite !lookup_drop. intros Hi%Hv Hj%Hv. unfold version_le. lia.
Qed.

(** Mapping the rows of a stream back gives the numbered events. *)
Lemma stored_rows (pid : PlantId) ms nes :
  Forall (λ m, esm_stream_id m = uuid_value pid) ms →
  row_facts <$> ms = nes → Forall (λ ne, ne.1.2 = event_name (body ne.2)) nes →
  ∃ stored, mapM_result stored_event_from_model ms = Ok stored ∧
    (λ i, (se_version i, se_event i)) <$> stored = (λ ne, (ne.1.1, ne.2)) <$> nes.
Proof.
  intros Hs <- Hn. induction ms as [|m ms IH]; [by exists []|].
  apply Forall_cons in Hs as [_ Hs]. rewrite fmap_cons in Hn.
  apply Forall_cons in Hn as [Hm Hn]. destruct (IH Hs Hn) as (stored & E & Hst).
  cbn in Hm.
  assert (stored_event_from_model m = Ok (mkStoredEvent (Uuid (esm_stream_id m))
    (esm_version m) (esm_global_position m) (esm_payload m))) as Em.
  { unfold stored_event_from_model. rewrite Hm.
    assert (event_type_for (event_name (body (esm_payload m))) =
      Some (event_name (body (esm_payload m)))) as ->.
    { by destruct (esm_payload m) as [? ? []]. }
    by rewrite decide_True. }
  eexists. split; [cbn; rewrite Em; cbn; by rewrite E|]. cbn. by rewrite Hst.
Qed.

(** Consecutive versions and journal events replay like the events themselves; the
    events of a journal that replays are journal events. *)
Lemma replay_stored_replay a stored k :
  (λ i, (se_version i, se_event i)) <$> stored =
    imap (λ i e, (Z.of_nat i + k, e)%Z) (se_event <$> stored) →
  (∃ b, journal_replay a (se_event <$> stored) = Ok b) →
  replay_stored k a stored = journal_replay a (se_event <$> stored).
Proof.
  revert a k. induction stored as [|it stored IH]; intros a k Hv [b Hb]; [done|].
  cbn in Hv. injection Hv as Hk Hv. cbn. rewrite decide_False by lia.
  unfold journal_replay in *. cbn in Hb |- *.
  destruct (JournalAggregate_apply a (se_event it)) as [a'|] eqn:Ea; [|done].
  assert (is_journal_event (se_event it) = true) as ->.
  { unfold JournalAggregate_apply in Ea. unfold is_journal_event. by case_match. }
  cbn in *. apply IH; [|by exists b]. rewrite Hv. apply imap_ext. intros. cbn. f_equal. lia.
Qed.

Lemma replay_version a es b :
  journal_replay a es = Ok b → ja_version b = (ja_version a + Z.of_nat (length es))%Z.
Proof.
  revert a. induction es as [|e es IH]; intros a H; [injection H as <-; cbn; lia|].
  unfold journal_replay in H. cbn in H. apply bind_Ok in H as (a1 & Ha & H).
  apply IH in H. rewrite H. unfold JournalAggregate_apply in Ha. case_match; try done.
  apply bind_Ok in Ha as (st & _ & [= <-]). cbn. lia.
Qed.

Lemma plant_rows_stream d (pid : PlantId) :
  Forall (λ m, esm_stream_id m = uuid_value pid) (plant_rows d pid).
Proof. apply Forall_forall. intros m Hm. by apply list_elem_of_filter in Hm as [? _]. Qed.

Lemma latest_snapshot_Some d sid m :
  snapshots_keyed d → latest_snapshot d sid = Some m →
  db_snapshots d !! (sid, jsm_version m) = Some m.
Proof.
  unfold latest_snapshot. intros Hk H. apply head_Some_elem_of in H.
  rewrite merge_sort_Permutation in H. apply list_elem_of_filter in H as [<- H].
  apply list_elem_of_fmap in H as ([k m'] & -> & H). apply elem_of_map_to_list in H.
  cbn in *. apply Hk in H as Hkey. cbn in Hkey. by rewrite Hkey.
Qed.

(** Reading the stream after version [n]. *)
Lemma load_stream_run s (pid : PlantId) es n :
  ss_conflict s = false → row_facts <$> plant_rows (ss_view s) pid = numbered es →
  n ≤ length es →
  ∃ stored, event_store_load_stream pid (Z.of_nat n) s = (Ok stored, s) ∧
    se_event <$> stored = drop n es ∧
    (λ i, (se_version i, se_event i)) <$> stored =
      imap (λ i e, (Z.of_nat i + (Z.of_nat n + 1), e)%Z) (se_event <$> stored).
Proof.
  intros Hc Hrows Hn. pose proof (stream_rows_drop _ _ _ _ Hrows Hn) as Hd.
  assert (Forall (λ m, esm_stream_id m = uuid_value pid)
    (stream_rows (ss_view s) (uuid_value pid) (Z.of_nat n))) as Hsid.
  { apply Forall_forall. intros m Hm. unfold stream_rows in Hm.
    rewrite merge_sort_Permutation in Hm. by apply list_elem_of_filter in Hm as [[? _] _]. }
  destruct (stored_rows pid _ _ Hsid Hd) as (stored & Est & Hst).
  { apply Forall_drop, Forall_lookup. intros i x. rewrite numbered_lookup.
    destruct (es !! i); [|done]. by intros [= <-]. }
  assert (se_event <$> stored = drop n es) as Hev.
  { transitivity (snd <$> ((λ i, (se_version i, se_event i)) <$> stored)).
    - rewrite <- list_fmap_compose. by apply list_fmap_ext.
    - rewrite Hst, <- list_fmap_compose, fmap_drop. f_equal. unfold numbered.
      rewrite fmap_imap. apply list_eq. intros i. rewrite list_lookup_imap.
      by destruct (es !! i). }
  exists stored. split; [|split; [done|]].
  - unfold event_store_load_stream, query, mbind, tx_bind. rewrite Hc. unfold tx_lift.
    by rewrite Est.
  - rewrite Hst, Hev. apply list_eq. intros i.
    rewrite list_lookup_fmap, lookup_drop, numbered_lookup, list_lookup_imap, lookup_drop.
    destruct (es !! (n + i)); cbn; [|done]. do 2 f_equal. lia.
Qed.

(** Loading, from whichever checkpoint is the newest, is replaying the whole stream. *)
Lemma load_run s (pid : PlantId) es a :
  ss_conflict s = false → snapshots_keyed (ss_view s) → journal_ok (ss_view s) pid es a →
  ∃ b, load_journal_aggregate pid s = (Ok b, s) ∧ b ≡ a ∧ journal_wf b.
Proof.
  intros Hc Hk [Hrows Hrep Hsnap]. unfold load_journal_aggregate, snapshots_latest.
  rewrite (tx_bind_Ok _ _ _ (state_from_snapshot_model <$>
    latest_snapshot (ss_view s) (uuid_value pid)) s)
    by (unfold query, mbind, tx_bind; by rewrite Hc).
  destruct (replay_wf _ _ _ (empty_journal_wf pid) Hrep) as (Hwfa & _ & _).
  destruct (latest_snapshot _ _) as [m|] eqn:Em; cbn [fmap option_fmap option_map].
  - apply latest_snapshot_Some in Em; [|done].
    destruct (Hsnap _ _ Em) as (n & b0 & Hv & Hn & Hb0 & Hm).
    destruct (replay_wf _ _ _ (empty_journal_wf pid) Hb0) as (Hwf0 & Hev0 & _).
    assert (jst_version (state_from_snapshot_model m) = Z.of_nat n) as ->.
    { rewrite Hm. cbn. apply replay_version in Hb0. rewrite Hb0, length_take. cbn. lia. }
    destruct (load_stream_run s pid es n Hc Hrows ltac:(lia)) as (stored & Hst & Hev & Hver).
    rewrite (tx_bind_Ok _ _ _ _ _ Hst).
    assert (state_from_snapshot_model m = JournalAggregate_state b0) as -> by (by rewrite Hm).
    pose proof (from_state_equiv b0 Hwf0 Hev0) as Hc0.
    destruct (JournalAggregate_from_state _) as [c|] eqn:Ec; [|done].
    change (c ≡ b0) in Hc0. rewrite (tx_bind_Ok _ _ _ c s) by done.
    assert (journal_replay b0 (drop n es) = Ok a) as Htail.
    { unfold journal_replay in *. rewrite <- (take_drop n es), foldM_app, Hb0 in Hrep. done. }
    pose proof (journal_replay_proper c b0 Hc0 (drop n es) _ eq_refl) as Hr.
    rewrite Htail in Hr. destruct (journal_replay c (drop n es)) as [b|] eqn:Eb; [|done].
    exists b. unfold tx_lift. rewrite replay_stored_replay; [|exact Hver|rewrite Hev; by exists b].
    rewrite Hev, Eb. split; [done|]. split; [exact Hr|]. change (b ≡ a) in Hr. by rewrite Hr.
  - destruct (load_stream_run s pid es 0 Hc Hrows ltac:(lia)) as (stored & Hst & Hev & Hver).
    change 0%Z with (Z.of_nat 0). rewrite (tx_bind_Ok _ _ _ _ _ Hst).
    rewrite (tx_bind_Ok _ _ _ (empty_journal pid) s) by done.
    exists a. unfold tx_lift. rewrite drop_0 in Hev.
    rewrite replay_stored_replay; [by rewrite Hev, Hrep|exact Hver|rewrite Hev; by exists a].
Qed.

(** *** Appending *)

Lemma event_store_append_inv pid v e s u s' :
  event_store_append pid v [e] s = (Ok u, s') →
  ss_conflict s' = false ∧ ss_conflict s = false ∧
  insert_event pid (v + 1) e (ss_view s) = Some (ss_view s') ∧
  ss_tracked s' = ss_tracked s.
Proof.
  unfold event_store_append. intros (u1 & s1 & Hi & Hf)%tx_bind_inv. cbn in Hi.
  apply tx_bind_inv in Hi as (u2 & s2 & He & [_ ->]%tx_ret_inv).
  unfold tx_except, flush, query in Hf. destruct (ss_conflict s2) eqn:Hc; [done|].
  injection Hf as <- <-. apply execute_inv in He as [Ht Hw]. destruct (Hw Hc). by split_and!.
Qed.

Lemma insert_event_Some pid v e d d' :
  insert_event pid v e d = Some d' →
  d' = set_event_store d (db_event_store d ++ [event_store_model_from_event e pid v
    (1 + Z.of_nat (length (db_event_store d)))%Z]).
Proof. unfold insert_event. case_decide; [|done]. by intros [= <-]. Qed.

(** The two ways the body of an append may answer, from a loaded journal [b]. *)
Definition appended (d : Database) (pid : PlantId) (b : JournalAggregate) (r : journal_add)
    (entry : JournalEntry) (s : Session) : Prop :=
  ∃ added e pos,
    journal_add_one b r = Ok added ∧ ja_events added = ja_events b ++ [e] ∧
    JournalAggregate_entry added (je_id entry) = Some entry ∧
    (∀ i, add_entry_id r = Some i → je_id entry = i) ∧
    db_event_store (ss_view s) = db_event_store d ++
      [event_store_model_from_event e pid (ja_version b + 1) pos] ∧
    (db_snapshots (ss_view s) = db_snapshots d ∨
     db_snapshots (ss_view s) = <[(uuid_value (ja_id added), ja_version added) :=
       snapshot_model_from_state (JournalAggregate_state added)]> (db_snapshots d)) ∧
    published (ss_view s) = published d ++ [e] ∧ tracked_events s = [].

#[export] Hint Unfold load_journal_aggregate : repo.

#[export] Instance record_staging pid t at_ now note id m e :
  Staging any_write (record_journal_entry pid t at_ now note id m e).
Proof.
  unfold record_journal_entry. apply staging_bind; [stage|]. intros a.
  apply staging_match_option; [|intros; apply _].
  destruct (JournalAggregate_add_entry _ _ _ _ _ _ _ _) as [added answer].
  destruct (JournalAggregate_collect_events added) as [es clean]. 
  stage.
Qed.
#[export] Instance record_keeps {T} (g : Database → T) pid t at_ now note id m e :
  Elsewhere g set_event_store → Elsewhere g set_outbox → Elsewhere g set_journal_entries →
  Elsewhere g set_snapshots → Staging (keeps g) (record_journal_entry pid t at_ now note id m e).
Proof.
  intros ? ? ? ?. unfold record_journal_entry. apply staging_bind; [stage|]. intros a.
  apply staging_match_option; [|intros; apply _].
  destruct (JournalAggregate_add_entry _ _ _ _ _ _ _ _) as [added answer].
  destruct (JournalAggregate_collect_events added) as [es clean].
  stage.
Qed.
#[export] Instance record_coherent pid t at_ now note id m e :
  Coherent (record_journal_entry pid t at_ now note id m e).
Proof.
  unfold record_journal_entry. apply coherent_bind; [stage|]. intros a.
  apply coherent_match_option; [|intros; apply _].
  destruct (JournalAggregate_add_entry _ _ _ _ _ _ _ _) as [added answer].
  destruct (JournalAggregate_collect_events added) as [es clean].
  stage.
Qed.

Lemma add_entry_Ok b r added en :
  JournalAggregate_add_entry b (add_type r) (add_at r) (add_now r) (add_note r)
    (add_entry_id r) (add_minted r) (add_eid r) = (added, Ok en) → journal_wf b →
  journal_wf added ∧ JournalAggregate_entry added (je_id en) = Some en ∧
  (∀ i, add_entry_id r = Some i → je_id en = i) ∧ je_events en = [] ∧ ja_id added = ja_id b.
Proof.
  unfold JournalAggregate_add_entry, collect_events. intros H [Hwf Hid].
  destruct (JournalStream_append _ _) as [st|] eqn:E; [|done].
  injection H as <- <-. cbn.
  assert (stream_wf st) as Hst.
  { eapply register_wf; [exact Hwf| | |exact E]; [apply normalize_note_idem|done]. }
  apply register_Ok in E as (Hpl & _ & ->). cbn in *.
  split; [by split; cbn; [|congruence]|]. split; [|split_and!; [|done..]].
  - apply find_elem_of; [done|]. split; [|done]. cbn. apply elem_of_app. right.
    by apply list_elem_of_singleton.
  - intros i Hi. cbn. by rewrite Hi.
Qed.

(** The last step of an append: a checkpoint when one is due. *)
Lemma snapshot_step_inv (due : bool) st s u s' :
  (if due then snapshots_save st else mret tt) s = (Ok u, s') → ss_conflict s' = false →
  ss_conflict s = false ∧ ss_tracked s' = ss_tracked s ∧
  published (ss_view s') = published (ss_view s) ∧
  db_event_store (ss_view s') = db_event_store (ss_view s) ∧
  (db_snapshots (ss_view s') = db_snapshots (ss_view s) ∨
   db_snapshots (ss_view s') = <[(uuid_value (jst_plant_id st), jst_version st) :=
     snapshot_model_from_state st]> (db_snapshots (ss_view s))).
Proof.
  destruct due; intros H Hc.
  - apply execute_inv in H as [Ht Hw]. destruct (Hw Hc) as [Hc' Hv].
    unfold insert_row in Hv. case_match; [done|]. injection Hv as <-. cbn. auto 6.
  - apply tx_ret_inv in H as [_ ->]. auto 6.
Qed.

Lemma record_inv s0 pid r es a entry s :
  let d := ss_view s0 in
  ss_conflict s0 = false → ss_tracked s0 = [] → snapshots_keyed d → journal_ok d pid es a →
  record_journal_entry pid (add_type r) (add_at r) (add_now r) (add_note r) (add_entry_id r)
    (add_minted r) (add_eid r) s0 = (Ok entry, s) →
  ss_conflict s = false →
  ∃ b, b ≡ a ∧ journal_wf b ∧
    ((s = s0 ∧ ∃ i, add_entry_id r = Some i ∧ JournalAggregate_entry b i = Some entry) ∨
     appended d pid b r entry s).
Proof.
  intros d Hc0 Ht0 Hk Hok Hrec Hc.
  destruct (load_run s0 pid es a Hc0 Hk Hok) as (b & Hload & Hba & Hwf).
  exists b. split; [done|]. split; [done|]. unfold record_journal_entry in Hrec.
  rewrite (tx_bind_Ok _ _ _ _ _ Hload) in Hrec.
  destruct (add_entry_id r ≫= JournalAggregate_entry b) as [existing|] eqn:Eid.
  { left. apply tx_ret_inv in Hrec as [-> ->]. split; [done|].
    destruct (add_entry_id r) as [i|]; [|done]. by exists i. }
  right. clear Eid.
  destruct (JournalAggregate_add_entry _ _ _ _ _ _ _ _) as [added answer] eqn:Eadd.
  apply tx_bind_inv in Hrec as (en & s1 & [-> ->]%tx_lift_inv & Hrec).
  assert (journal_add_one b r = Ok added) as Hone
    by (unfold journal_add_one; by rewrite Eadd).
  destruct (add_one_Ok _ _ _ Hone) as (e & Hev & Hver & _).
  assert (ja_events b = []) as Hbe.
  { rewrite (jeq_events _ _ Hba). by destruct (replay_wf _ _ _ (empty_journal_wf pid)
      (jok_replay _ _ _ _ Hok)) as (_ & ? & _). }
  unfold JournalAggregate_collect_events, collect_events in Hrec.
  rewrite Hev, Hbe in Hrec. cbn [app] in Hrec.
  apply tx_bind_inv in Hrec as (u1 & s2 & Happ & Hrec).
  apply tx_bind_inv in Hrec as (u2 & s3 & Hout & Hrec).
  apply tx_bind_inv in Hrec as (u3 & s4 & Hent & Hrec).
  apply tx_bind_inv in Hrec as (u4 & s5 & Hsnap & [-> ->]%tx_ret_inv).
  apply snapshot_step_inv in Hsnap as (Hc4 & Ht5 & Hp5 & Hs5 & Hsn5); [|done].
  apply execute_track_inv in Hent as (Hc3 & Hw4 & Ht4); [|done].
  unfold insert_row in Hw4. destruct (db_journal_entries _ !! _); [done|]. injection Hw4 as Hw4.
  cbn in Hout. apply tx_bind_inv in Hout as (u5 & s6 & Hout & [_ ->]%tx_ret_inv).
  apply outbox_append_inv in Hout as (Hc2 & Ht3 & Hp3 & Hv3); [|done].
  apply event_store_append_inv in Happ as (_ & _ & Hins & Ht2).
  apply insert_event_Some in Hins. cbn in Hins.
  destruct (add_entry_Ok _ _ _ _ Eadd Hwf) as (_ & Hfind & Hids & Hje & _).
  exists added, e, (1 + Z.of_nat (length (db_event_store d)))%Z. split_and!; try done.
  - rewrite Hs5, <- Hw4. cbn. rewrite Hv3. cbn. by rewrite Hins.
  - rewrite <- Hw4, Hv3, Hins in Hsn5. cbn in Hsn5. exact Hsn5.
  - rewrite Hp5, <- Hw4. change (published (set_journal_entries ?x _)) with (published x).
    rewrite Hp3, Hins. done.
  - unfold tracked_events. rewrite Ht5, Ht4, Ht3, Ht2, Ht0, Hje. done.
Qed.

(** *** The invariant of the store *)

(** It only speaks of the journal's own tables. *)
Lemma journal_ok_ext d d' pid es a :
  db_event_store d' = db_event_store d → db_snapshots d' = db_snapshots d →
  journal_ok d pid es a → journal_ok d' pid es a.
Proof.
  intros He Hs [Hr Hp Hk]. split; [|done|].
  - unfold plant_rows in *. by rewrite He.
  - by rewrite Hs.
Qed.

Lemma journals_ok_ext d d' :
  db_event_store d' = db_event_store d → db_snapshots d' = db_snapshots d →
  journals_ok d → journals_ok d'.
Proof.
  intros He Hs [Hk Hall]. split; [unfold snapshots_keyed in *; by rewrite Hs|].
  intros pid. destruct (Hall pid) as (es & a & Hok). exists es, a. by apply (journal_ok_ext d).
Qed.

Lemma plant_rows_append d d' pid pid' e v pos :
  db_event_store d' = db_event_store d ++ [event_store_model_from_event e pid v pos] →
  plant_rows d' pid' = plant_rows d pid' ++
    (if decide (pid = pid') then [event_store_model_from_event e pid v pos] else []).
Proof.
  intros H. unfold plant_rows. rewrite H, filter_app, filter_cons. f_equal.
  cbn [event_store_model_from_event esm_stream_id].
  destruct (decide (pid = pid')) as [->|Hne]; [by rewrite decide_True|].
  rewrite decide_False; [done|]. intros ?%uuid_value_inj. done.
Qed.

(** What an append does to the journal of its plant: one more event, and the aggregate
    replaying the longer stream gives. *)
Lemma appended_replay d pid es a b r entry s :
  journal_ok d pid es a → b ≡ a → journal_wf b → appended d pid b r entry s →
  ∃ added e a' pos, journal_replay (empty_journal pid) (es ++ [e]) = Ok a' ∧
    JournalAggregate_state added = JournalAggregate_state a' ∧
    JournalAggregate_entry a' (je_id entry) = Some entry ∧
    published (ss_view s) = published d ++ [e] ∧
    ja_id added = pid ∧ ja_version added = Z.of_nat (S (length es)) ∧
    db_event_store (ss_view s) = db_event_store d ++
      [event_store_model_from_event e pid (Z.of_nat (length es) + 1) pos] ∧
    (db_snapshots (ss_view s) = db_snapshots d ∨
     db_snapshots (ss_view s) = <[(uuid_value pid, Z.of_nat (S (length es))) :=
       snapshot_model_from_state (JournalAggregate_state a')]> (db_snapshots d)).
Proof.
  intros [_ Hrep _] Hba Hwf (added & e & pos & Hone & Hev & Hfind & _ & Hst & Hsn & Hpub & _).
  destruct (replay_wf _ _ _ (empty_journal_wf pid) Hrep) as (Hwfa & Heva & Hida).
  assert (ja_version b = Z.of_nat (length es)) as Hvb.
  { rewrite (jeq_version _ _ Hba), (replay_version _ _ _ Hrep). cbn. lia. }
  assert (ja_id b = pid) as Hidb by (rewrite (jeq_id _ _ Hba), Hida; done).
  destruct (add_one_Ok _ _ _ Hone) as (e1 & He1 & Hver & Happ).
  assert (e1 = e) as -> by (rewrite Hev in He1; by apply app_inj_tail in He1 as [_ ?]).
  pose proof (Happ (ja_events b)) as Hab.
  assert (mkJournalAggregate (ja_id b) (ja_stream b) (ja_version b) (ja_events b) = b) as Eb
    by (by destruct b).
  rewrite Eb in Hab. pose proof (apply_proper b a Hba e e eq_refl) as Hp. rewrite Hab in Hp.
  destruct (JournalAggregate_apply a e) as [a'|] eqn:Ea; [|done].
  set (added0 := mkJournalAggregate _ _ _ _) in Hp. change (added0 ≡ a') in Hp.
  destruct (apply_wf _ _ _ Hwfa Ea) as (Hwfa' & _ & Hida').
  assert (journal_wf added0) as Hwf0 by by rewrite Hp.
  destruct (journal_equiv_answers _ _ Hwf0 Hwfa' Hp) as [Hstate Hent].
  assert (ja_id added = pid) as Hida2.
  { change (ja_id added0 = pid). rewrite (jeq_id _ _ Hp), Hida', Hida. done. }
  exists added, e, a', pos. split_and!; try done.
  - unfold journal_replay in *. rewrite foldM_app, Hrep. cbn. by rewrite Ea.
  - rewrite <- Hent. exact Hfind.
  - rewrite Hver, Hvb. lia.
  - rewrite Hst, Hvb. done.
  - rewrite Hida2 in Hsn. assert (ja_version added = Z.of_nat (S (length es))) as Hv
      by (rewrite Hver, Hvb; lia).
    rewrite Hv in Hsn. change (JournalAggregate_state added0) with
      (JournalAggregate_state added) in Hstate. by rewrite Hstate in Hsn.
Qed.

Lemma journals_ok_append d d' pid es a e a' pos :
  journals_ok d → journal_ok d pid es a →
  journal_replay (empty_journal pid) (es ++ [e]) = Ok a' →
  db_event_store d' = db_event_store d ++
    [event_store_model_from_event e pid (Z.of_nat (length es) + 1) pos] →
  (db_snapshots d' = db_snapshots d ∨
   db_snapshots d' = <[(uuid_value pid, Z.of_nat (S (length es))) :=
     snapshot_model_from_state (JournalAggregate_state a')]> (db_snapshots d)) →
  journals_ok d' ∧ journal_ok d' pid (es ++ [e]) a'.
Proof.
  intros [Hk Hall] Hok Hrep Hst Hsn.
  assert (ja_version a' = Z.of_nat (S (length es))) as Hva.
  { apply replay_version in Hrep. rewrite Hrep, length_app. cbn. lia. }
  assert (ja_id a' = pid) as Hida.
  { by destruct (replay_wf _ _ _ (empty_journal_wf pid) Hrep) as (_ & _ & ->). }
  assert (journal_ok d' pid (es ++ [e]) a') as Hok'.
  { destruct Hok as [Hrows _ Hs]. split; [|done|].
    - rewrite (plant_rows_append d d' pid pid _ _ _ Hst), decide_True by done.
      rewrite fmap_app, Hrows, numbered_snoc. done.
    - intros v m Hm.
      assert (v = Z.of_nat (S (length es)) ∧
        m = snapshot_model_from_state (JournalAggregate_state a') ∨
        db_snapshots d !! (uuid_value pid, v) = Some m) as [[-> ->]|Hold].
      { destruct Hsn as [->| ->] in Hm; [by right|]. rewrite lookup_insert in Hm.
        case_decide; [left; split; congruence|by right]. }
      + exists (S (length es)), a'. rewrite length_app. cbn. split_and!; try done; try lia.
        rewrite take_ge by (rewrite length_app; cbn; lia). done.
      + destruct (Hs v m Hold) as (n & b & -> & Hn & Hb & ->). exists n, b.
        rewrite length_app. split_and!; try done; try lia.
        by rewrite take_app_le by lia. }
  split; [|done]. split.
  - unfold snapshots_keyed. destruct Hsn as [->| ->]; [done|].
    apply map_Forall_insert_2; [|done]. cbn. by rewrite Hida, Hva.
  - intros pid'. destruct (decide (pid = pid')) as [<-|Hne]; [by eexists _, _|].
    destruct (Hall pid') as (es' & b & [Hr Hp Hs]). exists es', b. split; [|done|].
    + rewrite (plant_rows_append d d' pid pid' _ _ _ Hst), decide_False by done.
      by rewrite app_nil_r.
    + intros v m Hm. apply Hs. destruct Hsn as [Hsn|Hsn]; rewrite Hsn in Hm; [done|].
      rewrite lookup_insert_ne in Hm; [done|]. intros [= ?%uuid_value_inj]. done.
Qed.

(** One request, from a store whose journals are all well kept. *)
Lemma journal_request_outcome d r es a :
  journals_ok d → journal_ok d (jr_plant_id r) es a →
  match run_journal_request d r with
  | (Raise _, d') => d' = d
  | (Ok entry, d') =>
      (d' = d ∧ ∃ i, add_entry_id (jr_add r) = Some i ∧
         JournalAggregate_entry a i = Some entry) ∨
      (∃ e a', journals_ok d' ∧ journal_ok d' (jr_plant_id r) (es ++ [e]) a' ∧
         published d' = published d ++ [e] ∧
         JournalAggregate_entry a' (je_id entry) = Some entry ∧
         ∀ i, add_entry_id (jr_add r) = Some i → je_id entry = i)
  end.
Proof.
  intros Hall Hok. unfold run_journal_request.
  destruct (transaction_any (record_journal_entry (jr_plant_id r) (add_type (jr_add r))
    (add_at (jr_add r)) (add_now (jr_add r)) (add_note (jr_add r)) (add_entry_id (jr_add r))
    (add_minted (jr_add r)) (add_eid (jr_add r))) d _ _)
    as [[x ->]|(entry & s & Hrun & Hc & Hw & Hv)]; [done|].
  destruct (run_request _ d) as [res d'] eqn:Er. cbn in Hv, Hw. subst res.
  destruct (record_inv (open_session d None id) (jr_plant_id r) (jr_add r) es a entry s eq_refl
    eq_refl (proj1 Hall) Hok Hrun Hc)
    as (b & Hba & Hwf & [[-> (i & Hi & Hfind)]|Happ]).
  - left. injection Hw as <-. split; [done|]. exists i. split; [done|].
    destruct (replay_wf _ _ _ (empty_journal_wf _) (jok_replay _ _ _ _ Hok)) as (Hwfa & _ & _).
    destruct (journal_equiv_answers _ _ Hwf Hwfa Hba) as [_ <-]. done.
  - right. pose proof Happ as (_ & e0 & _ & _ & _ & _ & Hids & _ & _ & _ & Htr).
    rewrite Htr in Hw. injection Hw as <-.
    change (ss_view (open_session d None id)) with d in Happ.
    destruct (appended_replay _ _ _ _ _ _ _ _ Hok Hba Hwf Happ)
      as (added & e & a' & pos & Hrep & _ & Hfind & Hpub & _ & _ & Hst & Hsn).
    exists e, a'. destruct (journals_ok_append d (ss_view s) _ es a e a' pos Hall Hok Hrep Hst Hsn).
    split_and!; done.
Qed.

(** Asking for an entry the stream already holds answers with it and writes nothing. *)
Lemma record_existing d r es a i entry :
  journals_ok d → journal_ok d (jr_plant_id r) es a →
  add_entry_id (jr_add r) = Some i → JournalAggregate_entry a i = Some entry →
  run_journal_request d r = (Ok entry, d).
Proof.
  intros [Hk _] Hok Hi Hfind. unfold run_journal_request.
  rewrite (run_transaction any_write) by stage. set (s0 := open_session d None id).
  destruct (load_run s0 _ es a eq_refl Hk Hok) as (b & Hload & Hba & Hwf).
  destruct (replay_wf _ _ _ (empty_journal_wf _) (jok_replay _ _ _ _ Hok)) as (Hwfa & _ & _).
  destruct (journal_equiv_answers _ _ Hwf Hwfa Hba) as [_ Hent].
  unfold record_journal_entry. rewrite (tx_bind_Ok _ _ _ _ _ Hload), Hi.
  cbn [mbind option_bind]. by rewrite Hent, Hfind.
Qed.

Lemma run_journal_requests_ok d rs : journals_ok d → journals_ok (run_journal_requests d rs).
Proof.
  revert d. induction rs as [|r rs IH]; intros d Hd; [done|].
  change (run_journal_requests d (r :: rs)) with
    (run_journal_requests (run_journal_request d r).2 rs).
  apply IH. destruct (proj2 Hd (jr_plant_id r)) as (es & a & Hok).
  pose proof (journal_request_outcome d r es a Hd Hok) as H.
  destruct (run_journal_request d r) as [[entry|x] d']; cbn; [|by rewrite H].
  destruct H as [[-> _]|(e & a' & Hd' & _)]; done.
Qed.

(** What a plant's stored stream replays to, and what loading it answers. *)
Lemma stored_journal d plant_id :
  journals_ok d →
  ∃ whole loaded,
    journal_replay (empty_journal plant_id) (esm_payload <$> plant_rows d plant_id) = Ok whole ∧
    load_journal_aggregate plant_id (open_session d None id) =
      (Ok loaded, open_session d None id) ∧
    JournalAggregate_state loaded = JournalAggregate_state whole ∧
    ∀ i, JournalAggregate_entry loaded i = JournalAggregate_entry whole i.
Proof.
  intros Hd. destruct (proj2 Hd plant_id) as (es & a & Hok).
  destruct (load_run (open_session d None id) plant_id es a eq_refl (proj1 Hd) Hok)
    as (b & Hload & Hba & Hwf).
  destruct (replay_wf _ _ _ (empty_journal_wf _) (jok_replay _ _ _ _ Hok)) as (Hwfa & _ & _).
  destruct (journal_equiv_answers _ _ Hwf Hwfa Hba) as [Hst Hent].
  assert (esm_payload <$> plant_rows d plant_id = es) as ->.
  { transitivity (snd <$> (row_facts <$> plant_rows d plant_id));
      [by rewrite <- list_fmap_compose|].
    rewrite (jok_rows _ _ _ _ Hok). unfold numbered. rewrite fmap_imap.
    apply list_eq. intros i. rewrite list_lookup_imap. by destruct (es !! i). }
  exists a, b. split_and!; try done. apply Hok.
Qed.

Lemma empty_database_ok : journals_ok empty_database.
Proof.
  split; [apply map_Forall_empty|]. intros pid. exists [], (empty_journal pid).
  by split.
Qed.

(** ** Theorems *)

(** [C17] Loading is replaying: after any requests to append, to any plants, whatever
    they ask for, loading a plant's journal — from its newest checkpoint when there is
    one — gives the journal that folding every stored event of the stream gives. *)
Theorem journal_load_is_replay (d : Database) (requests : list journal_request)
    (plant_id : PlantId) :
  journals_ok d →
  let d' := run_journal_requests d requests in
  ∃ whole loaded,
    journal_replay (empty_journal plant_id) (esm_payload <$> plant_rows d' plant_id) =
      Ok whole ∧
    (load_journal_aggregate plant_id (open_session d' None id)).1 = Ok loaded ∧
    JournalAggregate_state loaded = JournalAggregate_state whole ∧
    ∀ i, JournalAggregate_entry loaded i = JournalAggregate_entry whole i.
Proof.
  intros Hd d'. destruct (stored_journal d' plant_id (run_journal_requests_ok d requests Hd))
    as (whole & loaded & Hw & Hl & Hs & He).
  exists whole, loaded. by rewrite Hl.
Qed.

Lemma journal_load_is_replay_witness :
  let r k := mkJournalRequest (Uuid 1) (mkJournalAdd WATERING (hours (9 - Z.of_N k)) 0 None
    (Some (Uuid k)) 0 k) in
  let d' := run_journal_requests empty_database [r 1%N; r 2%N; r 1%N] in
  ∃ whole, journal_replay (empty_journal (Uuid 1)) (esm_payload <$> plant_rows d' (Uuid 1)) =
    Ok whole.
Proof.
  intros r d'.
  destruct (journal_load_is_replay empty_database [r 1%N; r 2%N; r 1%N] (Uuid 1)
    empty_database_ok) as (whole & _ & H & _). by exists whole.
Defined.

(** An entry whose identity the caller owns is recorded at most once: after one
    append under an identifier, a later request under the same identifier for the same
    plant, whatever else it says, answers with the stored entry and writes no row. *)
Theorem journal_entry_recorded_once (d d1 : Database) (r r' : journal_request)
    (i : JournalEntryId) (entry : JournalEntry) :
  journals_ok d →
  add_entry_id (jr_add r) = Some i →
  run_journal_request d r = (Ok entry, d1) →
  jr_plant_id r' = jr_plant_id r → add_entry_id (jr_add r') = Some i →
  run_journal_request d1 r' = (Ok entry, d1).
Proof.
  intros Hd Hi Hrun Hpl Hi'. destruct (proj2 Hd (jr_plant_id r)) as (es & a & Hok).
  pose proof (journal_request_outcome d r es a Hd Hok) as H. rewrite Hrun in H.
  destruct H as [[-> (j & Hj & Hfind)]|(e & a' & Hd' & Hok' & _ & Hfind & Hids)].
  - rewrite <- Hpl in Hok. apply (record_existing d r' es a i); try done. congruence.
  - rewrite <- Hpl in Hok'. rewrite (Hids i Hi) in Hfind.
    by apply (record_existing d1 r' (es ++ [e]) a' i).
Qed.

Lemma journal_entry_recorded_once_witness :
  let r k := mkJournalRequest (Uuid 1) (mkJournalAdd WATERING (hours 3) 0 None
    (Some (Uuid 4)) 0 k) in
  ∃ entry d1, run_journal_request empty_database (r 7%N) = (Ok entry, d1) ∧
    length (db_event_store d1) = 1 ∧ run_journal_request d1 (r 8%N) = (Ok entry, d1).
Proof.
  intros r. destruct (run_journal_request empty_database (r 7%N)) as [[entry|x] d1] eqn:E;
    [|vm_compute in E; discriminate E].
  exists entry, d1. split; [done|]. split; [vm_compute in E; injection E as <- <-; reflexivity|].
  apply (journal_entry_recorded_once empty_database d1 (r 7%N) (r 8%N) (Uuid 4) entry);
    [apply empty_database_ok|done|exact E|done|done].
Defined.

(** [C18] The optimistic lock of the store: of two writers that read the same version of
    a stream, the second to append is refused with [EventStoreConcurrencyError] and
    writes nothing, however much was appended to other streams. *)
Theorem event_store_one_winner (plant_id : PlantId) (version : Z) (e1 e2 : DomainEvent)
    (d d1 : Database) :
  append_on plant_id version e1 d = (Ok tt, d1) →
  append_on plant_id version e2 d1 = (Raise EventStoreConcurrencyError, d1).
Proof.
  unfold append_on. intros H1.
  assert (∃ row, row ∈ db_event_store d1 ∧
    (esm_stream_id row, esm_version row) = (uuid_value plant_id, version + 1)%Z)
    as (row & Hin & Hrow).
  { assert (Staging any_write (event_store_append plant_id version [e1])) as Hst by stage.
    destruct (transaction_any (event_store_append plant_id version [e1]) d Hst ltac:(stage))
      as [[x Hx]|(v & s & Hrun & Hc & Hw & _)]; [by rewrite H1 in Hx|].
    rewrite H1 in Hw. cbn in Hw. apply event_store_append_inv in Hrun as (_ & _ & Hi & Ht).
    unfold tracked_events in Hw. rewrite Ht in Hw. injection Hw as <-.
    apply insert_event_Some in Hi. rewrite Hi.
    eexists. split; [apply elem_of_app; right; by apply list_elem_of_singleton|done]. }
  rewrite (run_transaction any_write) by stage.
  assert (insert_event plant_id (version + 1) e2 d1 = None) as Hnone.
  { unfold insert_event. rewrite decide_False; [done|]. intros [_ Hall].
    rewrite Forall_forall in Hall. destruct (Hall row Hin) as [Hne _]. by rewrite Hrow in Hne. }
  unfold event_store_append. cbn [insert_events].
  unfold mbind, tx_bind, execute. cbn [ss_view open_session]. by rewrite Hnone.
Qed.

Lemma event_store_one_winner_witness :
  let e k := mkEvent k 0 (JournalEntryAdded (Uuid k) (Uuid 1) NOTE None 0) in
  ∃ d1, append_on (Uuid 1) 0 (e 5%N) empty_database = (Ok tt, d1) ∧
    append_on (Uuid 1) 0 (e 6%N) d1 = (Raise EventStoreConcurrencyError, d1).
Proof.
  intros e. destruct (append_on (Uuid 1) 0 (e 5%N) empty_database)
    as [[[]|x] d1] eqn:E; [|vm_compute in E; discriminate E].
  exists d1. split; [done|].
  apply (event_store_one_winner (Uuid 1) 0 (e 5%N) (e 6%N) empty_database d1 E).
Defined.
