(* ===== verification/Delivery.v ===== *)
(** How a delivery is consumed: the failure policy every consumer runs under
    ([application/delivery.py]), the claim and the handler in one transaction
    ([application/sagas/consumer.py]), and the worker's subscriber, which retries a
    delivery in one request scope and moves it aside when it cannot be handled
    ([apps/workers/consumers.py], [infrastructure/messaging/failures.py]). *)

From S2P Require Import Prelude Utf8 Domain Topics Rows Database UnitOfWork Repositories.

(** ** The failure policy *)

Record FailurePolicy := mkFailurePolicy {
  max_attempts : Z;
  initial_wait_seconds : float;
  max_wait_seconds : float }.

(** [__post_init__]. *)
Definition FailurePolicy_new (max_attempts : Z) (initial_wait max_wait : float) :
    result FailurePolicy :=
  if decide (max_attempts < 1)%Z then Raise ValueError
  else Ok (mkFailurePolicy max_attempts initial_wait max_wait).

(** [2.0 ** n] for [n] not negative: a result out of range raises. *)
Definition float_pow2 (n : Z) : result float :=
  if decide (1024 ≤ n)%Z then Raise OverflowError else Ok (float_of_Z (2 ^ n)).

(** [min(a, b)]: [b] only when it is smaller. *)
Definition float_min (a b : float) : float := if float_lt b a then b else a.

Definition wait_before_retry (p : FailurePolicy) (attempt : Z) : result float :=
  power ← float_pow2 (attempt - 1);
  Ok (float_min (SpecFloat.SFmul 53 1024 (initial_wait_seconds p) power) (max_wait_seconds p)).

Definition is_terminal (error : exn) : bool := is_domain_error error.

Section Policy.
Context {S : Type} (deliver : S → result bool * S) (move_aside : exn → S → result unit * S)
  (policy : FailurePolicy).

(** [await move_aside(error); return True]. *)
Definition moved_aside (error : exn) (s : S) : result bool * S :=
  match move_aside error s with
  | (Ok _, s) => (Ok true, s)
  | (Raise e, s) => (Raise e, s)
  end.

(** The loop of [run_with_failure_policy], with the waits it slept.  [None] is a loop
    still running when the fuel is out; [policy_outcome] shows that [max_attempts]
    turns are enough. *)
Fixpoint policy_loop (fuel : nat) (attempt : Z) (s : S) :
    option (result bool * S * list float) :=
  match fuel with
  | O => None
  | Datatypes.S fuel =>
      let attempt := (attempt + 1)%Z in
      match deliver s with
      | (Ok handled, s) => Some (Ok handled, s, [])
      | (Raise error, s) =>
          if is_domain_error error then Some (moved_aside error s, [])
          else if decide (max_attempts policy ≤ attempt)%Z then Some (moved_aside error s, [])
          else match wait_before_retry policy attempt with
               | Raise e => Some (Raise e, s, [])
               | Ok wait =>
                   '(answer, waits) ← policy_loop fuel attempt s;
                   Some (answer, wait :: waits)
               end
      end
  end.

Definition run_with_failure_policy (s : S) : option (result bool * S * list float) :=
  policy_loop (Z.to_nat (max_attempts policy)) 0 s.

(** The state before attempt [k + 1] when the [k] attempts before it were made. *)
Definition state_after (k : nat) (s : S) : S := Nat.iter k (λ s, (deliver s).2) s.
End Policy.

(** ** Consuming once *)

(** What the connection makes of a commit: it is acknowledged, it is refused, or it
    happened and its acknowledgement was lost. *)
Inductive commit_fate := Acknowledged | Refused (e : exn) | Unacknowledged (e : exn).

(** [unit_of_work.commit()] on such a connection: the events are drained and staged
    before the database is asked. *)
Definition commit_under (fate : commit_fate) : tx unit :=
  match fate with
  | Acknowledged => uow_commit
  | Refused e => events ← collect_tracked; _ ← tx_iter outbox_append events; tx_raise e
  | Unacknowledged e => _ ← uow_commit; tx_raise e
  end.

Definition consume_once (commit : tx unit) (consumer_group : string) (event_id : uuid)
    (handler : tx unit) : tx bool :=
  with_uow (
    claimed ← processed_claim consumer_group event_id;
    if negb claimed then mret false
    else
      _ ← handler;
      _ ← commit;
      mret true).

(** [Consumer]: the suffix of its group, the types it handles and its handler. *)
Record Consumer := mkConsumer {
  consumer_name : string;
  handled_types : list string;
  consumer_handle : DomainEvent → tx unit }.

Definition Consumer_handles (c : Consumer) (e : DomainEvent) : bool :=
  bool_decide (event_name (body e) ∈ handled_types c).

Definition Consumer_consume (c : Consumer) (commit : tx unit) (e : DomainEvent)
    (consumer_group : string) : tx bool :=
  if negb (Consumer_handles c e) then mret false
  else consume_once commit consumer_group (event_id e) (consumer_handle c e).

(** ** The worker's subscriber *)

(** [DeliveryDeadLetter]: the message as it arrived and why it was given up.  The cause
    is the exception [describe_failure] renders. *)
Record DeliveryDeadLetter := mkDeliveryDeadLetter {
  dl_consumer_group : string;
  dl_original_topic : string;
  dl_partition_key : string;
  dl_body : string;
  dl_headers : gmap string string;
  dl_error : exn }.

(** A Kafka delivery: the record's topic, the bytes of its key and body, and its headers,
    which the broker's client decodes. *)
Record KafkaMessage := mkKafkaMessage {
  km_topic : string;
  km_key : option string;
  km_body : string;
  km_headers : gmap string string }.

(** [_key_text] and [_body_text]. *)
Definition key_text (key : option string) : string :=
  match key with None => "" | Some key => decode_replace key end.
Definition body_text (body : string) : string := decode_replace body.

Definition dead_letter_for (message : KafkaMessage) (consumer_group : string) (error : exn) :
    DeliveryDeadLetter :=
  mkDeliveryDeadLetter consumer_group (km_topic message) (key_text (km_key message))
    (body_text (km_body message)) (km_headers message) error.

(** [PublishedMessage]. *)
Record PublishedMessage := mkPublishedMessage {
  pub_event : DomainEvent;
  pub_context : MessageContext }.

(** What one attempt meets: a failure before the claim, the handler with the failures
    it runs into, and the commit. *)
Record attempt_env := mkAttemptEnv {
  at_start : option exn;
  at_handler : tx unit;
  at_commit : commit_fate }.

(** What moving aside meets: the transaction, the broker — which may refuse the copy, or
    take it and lose the acknowledgement — and the commit. *)
Record aside_env := mkAsideEnv {
  as_start : option exn;
  as_broker : commit_fate;
  as_commit : commit_fate }.

Definition fail_if (e : option exn) : tx unit :=
  match e with None => mret tt | Some e => tx_raise e end.

(** The request scope of a delivery: its unit of work, the dead-letter topic, and how
    many attempts were made. *)
Record Scope := mkScope {
  sc_session : Session;
  sc_copies : list DeliveryDeadLetter;
  sc_attempts : nat }.

Section Subscriber.
Context (consumer_group : string) (message : KafkaMessage) (delivered : PublishedMessage)
  (attempts : nat → attempt_env) (aside : aside_env) (policy : FailurePolicy).

Let eid := event_id (pub_event delivered).

(** [consumer.consume] of a delivery this consumer handles. *)
Definition deliver_attempt (sc : Scope) : result bool * Scope :=
  let env := attempts (sc_attempts sc) in
  let '(r, s) := (_ ← fail_if (at_start env);
    consume_once (commit_under (at_commit env)) consumer_group eid (at_handler env))
      (sc_session sc) in
  (r, mkScope s (sc_copies sc) (S (sc_attempts sc))).

(** [move_aside]: claim, copy, commit. *)
Definition move_aside (error : exn) (sc : Scope) : result unit * Scope :=
  let copy := dead_letter_for message consumer_group error in
  let rolled_back s q := mkScope (uow_rollback s).2 q (sc_attempts sc) in
  match (_ ← fail_if (as_start aside); processed_claim consumer_group eid)
      (uow_enter (sc_session sc)) with
  | (Raise e, s) => (Raise e, rolled_back s (sc_copies sc))
  | (Ok false, s) => (Ok tt, rolled_back s (sc_copies sc))
  | (Ok true, s) =>
      let copies := sc_copies sc ++ [copy] in
      match as_broker aside with
      | Refused e => (Raise e, rolled_back s (sc_copies sc))
      | Unacknowledged e => (Raise e, rolled_back s copies)
      | Acknowledged =>
          match commit_under (as_commit aside) s with
          | (Ok _, s) => (Ok tt, mkScope s copies (sc_attempts sc))
          | (Raise e, s) => (Raise e, rolled_back s copies)
          end
      end
  end.

(** The handler [build_consumer_handler] returns, past the decoding: the answer, the
    rows committed and the copies on the dead-letter topic when it is over. *)
Definition handle_message (d : Database) (copies : list DeliveryDeadLetter) :
    option (result bool * Database * list DeliveryDeadLetter) :=
  '(r, sc, _) ← run_with_failure_policy deliver_attempt move_aside policy
    (mkScope (open_session d (Some (pub_context delivered)) id) copies 0);
  Some (r, ss_base (sc_session sc), sc_copies sc).
End Subscriber.

(** A handler alone, claimed and committed on a session of its own. *)
Definition run_once (consumer_group : string) (ctx : MessageContext) (event_id : uuid)
    (handler : tx unit) (d : Database) : result bool * Database :=
  let '(r, s) := consume_once uow_commit consumer_group event_id handler
    (open_session d (Some ctx) id) in (r, ss_base s).

(** The same on a session whose tracker still holds what earlier transactions of its scope
    recorded. *)
Definition run_once_after (leftover : list DomainEvent) (consumer_group : string)
    (ctx : MessageContext) (event_id : uuid) (handler : tx unit) (d : Database) :
    result bool * Database :=
  let '(r, s) := consume_once uow_commit consumer_group event_id handler
    (with_stale leftover (open_session d (Some ctx) id)) in (r, ss_base s).

(** Two transactions of one scope, as two attempts at a delivery are: the unit of work
    the first leaves behind is entered again by the second. *)
Definition retried (m1 m2 : tx unit) (d : Database) : result unit * Database :=
  let '(r, s) := transaction m2 (transaction m1 (open_session d None id)).2 in (r, ss_base s).

(** The handler's first lines: a message that decodes to nothing, or to an event of
    another consumer, is acknowledged without opening a scope. *)
Definition subscriber_handle (consumer : Consumer) (consumer_group : string)
    (message : KafkaMessage) (delivered : option PublishedMessage)
    (attempts : nat → attempt_env) (aside : aside_env) (policy : FailurePolicy)
    (d : Database) (copies : list DeliveryDeadLetter) :
    option (result bool * Database * list DeliveryDeadLetter) :=
  match delivered with
  | None => Some (Ok false, d, copies)
  | Some m =>
      if negb (Consumer_handles consumer (pub_event m)) then Some (Ok false, d, copies)
      else handle_message consumer_group message m attempts aside policy d copies
  end.

(** ** Lemmas *)

Lemma state_after_S {S} (deliver : S → result bool * S) k s :
  state_after deliver (Datatypes.S k) s = state_after deliver k (deliver s).2.
Proof. unfold state_after. by rewrite Nat.iter_succ_r. Qed.

Lemma float_min_le a b : float_lt b (float_min a b) = false.
Proof.
  unfold float_min. destruct (float_lt b a) eqn:E; [|done].
  unfold float_lt, SpecFloat.SFltb in *. destruct b as [[]|[]| |[] m e]; try done;
    cbn; by rewrite Z.compare_refl, Pos.compare_cont_refl.
Qed.

Lemma wait_before_retry_Ok p attempt :
  (1 ≤ attempt ≤ 1024)%Z → ∃ w, wait_before_retry p attempt = Ok w ∧
    float_lt (max_wait_seconds p) w = false.
Proof.
  intros H. unfold wait_before_retry, float_pow2. rewrite decide_False by lia. cbn.
  eexists. split; [done|]. apply float_min_le.
Qed.

Lemma policy_loop_outcome {S} (deliver : S → result bool * S) aside p fuel attempt s :
  (0 ≤ attempt)%Z → (max_attempts p ≤ 1025)%Z → 0 < fuel →
  (Z.of_nat fuel = max_attempts p - attempt)%Z →
  ∃ n waits, n < fuel ∧
    (∀ k, k < n → ∃ e, (deliver (state_after deliver k s)).1 = Raise e ∧
       is_domain_error e = false) ∧
    length waits = n ∧ Forall (λ w, float_lt (max_wait_seconds p) w = false) waits ∧
    let '(r, s') := deliver (state_after deliver n s) in
    policy_loop deliver aside p fuel attempt s = Some
      (match r with Ok b => (Ok b, s') | Raise e => moved_aside aside e s' end, waits) ∧
    ∀ e, r = Raise e → is_domain_error e = true ∨ Datatypes.S n = fuel.
Proof.
  revert attempt s. induction fuel as [|fuel IH]; intros attempt s Ha Hmax Hpos Hf; [lia|].
  cbn [policy_loop]. destruct (deliver s) as [[b|e] s1] eqn:Ed.
  { exists 0, []. split_and!; [lia|intros; lia|done..|].
    change (state_after deliver 0 s) with s. by rewrite Ed. }
  destruct (decide (is_domain_error e = true ∨ fuel = 0)) as [Hstop|Hgo].
  - exists 0, []. split_and!; [lia|intros; lia|done..|].
    change (state_after deliver 0 s) with s. rewrite Ed. split.
    + destruct (is_domain_error e); [done|]. rewrite decide_True; [done|].
      destruct Hstop; [done|lia].
    + intros e' [= <-]. destruct Hstop; [by left|right; lia].
  - assert (is_domain_error e = false) as He by (destruct (is_domain_error e); tauto).
    rewrite He, decide_False by lia.
    destruct (wait_before_retry_Ok p (attempt + 1) ltac:(lia)) as (w & -> & Hw).
    destruct (IH (attempt + 1)%Z s1 ltac:(lia) Hmax ltac:(lia) ltac:(lia))
      as (n & waits & Hn & Hfail & Hlen & Hws & Hrun).
    exists (Datatypes.S n), (w :: waits). rewrite state_after_S, Ed. cbn [snd].
    split_and!; [lia| |cbn; lia|by constructor|].
    + intros [|k] Hk; [exists e; by change (state_after deliver 0 s) with s; rewrite Ed|].
      rewrite state_after_S, Ed. apply Hfail. lia.
    + destruct (deliver (state_after deliver n s1)) as [r' s'].
      destruct Hrun as [-> Hr]. split; [done|]. intros e' He'.
      destruct (Hr e' He'); [by left|right; lia].
Qed.

(** *** The interface of a handler

    A body of [consume_once] stages its work and leaves the commit to it, keeps the ledger's
    claims and the session coherent, and does not look at the tracker; a handler that is
    also quiet leaves no recorded event behind when it raises. *)
Class claim_write (w : statement) : Prop := claim_write_frame :
  ∀ d d', w d = Some d' → db_processed_events d ⊆ db_processed_events d'.

Class Quiet {A} (m : tx A) : Prop := quietness : ∀ s e s',
  tracked_events s = [] → m s = (Raise e, s') → tracked_events s' = [].

Class Body (h : tx unit) : Prop := mkBody {
  body_staging :: Staging claim_write h;
  body_coherent :: Coherent h;
  body_blind :: Blind h }.

Class Handler (h : tx unit) : Prop := mkHandler {
  handler_body :: Body h;
  handler_quiet :: Quiet h }.

(** A tracker that holds the events of earlier transactions and nothing else. *)
Definition stale_entries (evs : list DomainEvent) (t : list (entity_ref * list DomainEvent)) :
    Prop := (t = [] ∧ evs = []) ∨ t = [((EStale, 0%N), evs)].

(** A session between two attempts: nothing staged, and these events still tracked. *)
Definition idle (d : Database) (ctx : option MessageContext) (evs : list DomainEvent)
    (s : Session) : Prop :=
  ∃ t committed, stale_entries evs t ∧ s = mkSession d d [] false t committed ctx id.

Lemma idle_open d ctx : idle d ctx [] (open_session d ctx id).
Proof. exists [], false. split; [by left|done]. Qed.

Lemma idle_base d ctx evs s : idle d ctx evs s → ss_base s = d.
Proof. by intros (? & ? & _ & ->). Qed.

Lemma rollback_idle s :
  ss_others s = id → idle (ss_base s) (ss_context s) (tracked_events s) (uow_rollback s).2.
Proof.
  unfold tracked_events. intros Ho. unfold uow_rollback. rewrite Ho.
  eexists _, false. split; [|done]. destruct (ss_tracked s); [by left|by right].
Qed.

(** A commit, whatever its fate: nothing is committed, or everything staged is. *)
Lemma commit_under_run fate s :
  ss_others s = id →
  let '(r, s') := commit_under fate s in
  ss_others s' = id ∧ ss_context s' = ss_context s ∧ tracked_events s' = [] ∧
  ((∃ e, r = Raise e ∧ ss_base s' = ss_base s) ∨
   ∃ d', replay_writes (ss_writes s ++ outbox_statements (ss_context s) (tracked_events s))
      (ss_base s) = Some d' ∧ ss_base s' = d' ∧
     ((r = Ok tt ∧ idle d' (ss_context s) [] s' ∧ ss_committed s' = true) ∨ ∃ e, r = Raise e)).
Proof.
  intros Ho. pose proof (uow_commit_run s) as Hc. rewrite Ho in Hc. cbn in Hc.
  assert (∀ e, ∃ s1, (_ ← uow_commit; tx_raise (A := unit) e) s = (Raise s1, (uow_commit s).2))
    as Hun.
  { intros e. unfold mbind, tx_bind. destruct (uow_commit s) as [[]?]; by eexists. }
  destruct fate as [|e|e]; cbn [commit_under].
  - rewrite Hc. destruct (replay_writes _ _) as [d'|]; cbn; split_and!; try done.
    + right. exists d'. split_and!; [done..|]. left. split_and!; [done| |done].
      exists [], true. split; [by left|done].
    + left. by eexists.
  - destruct (outbox_iter (tracked_events s) (collect_tracked s).2)
      as (s1 & E & _ & Hb & Hx & Ho1 & _ & Ht).
    unfold mbind, tx_bind. change (collect_tracked s) with
      (Ok (tracked_events s), (collect_tracked s).2). cbn [fst snd] in *. rewrite E. cbn.
    unfold tracked_events. rewrite Ho1, Hx, Ht, Hb. split_and!; [done..|]. left. by eexists.
  - destruct (Hun e) as (x & ->). rewrite Hc.
    destruct (replay_writes _ _) as [d'|]; cbn; split_and!; try done.
    + right. exists d'. split_and!; [done..|]. right. by eexists.
    + left. by eexists.
Qed.

(** The session of a delivery the ledger let through: its only statement is the claim. *)
Definition claim_statement (g : string) (eid : uuid) : statement := λ d,
  Some (set_processed_events d ({[(g, eid)]} ∪ db_processed_events d)).

Definition claimed_session (d : Database) (g : string) (eid : uuid) (ctx : option MessageContext)
    (t : list (entity_ref * list DomainEvent)) : Session :=
  mkSession d (set_processed_events d ({[(g, eid)]} ∪ db_processed_events d))
    [claim_statement g eid] false t false ctx id.

Lemma claimed_rollback d g eid ctx evs t :
  stale_entries evs t → idle d ctx evs (uow_rollback (claimed_session d g eid ctx t)).2.
Proof.
  intros Ht. eexists _, false. split; [|done].
  destruct Ht as [[-> ->]| ->]; [by left|right]. cbn. by rewrite app_nil_r.
Qed.

Lemma stale_events d g eid ctx evs t :
  stale_entries evs t → tracked_events (claimed_session d g eid ctx t) = evs.
Proof. intros [[-> ->]| ->]; [done|]. unfold tracked_events; cbn. by rewrite app_nil_r. Qed.

(** The claim on an idle session, entered by [async with]. *)
Lemma claim_idle g eid d ctx evs s :
  idle d ctx evs s → ∃ t, stale_entries evs t ∧
    processed_claim g eid (uow_enter s) =
    (Ok (negb (bool_decide ((g, eid) ∈ db_processed_events d))), claimed_session d g eid ctx t).
Proof. intros (t & c & Ht & ->). by exists t. Qed.

#[export] Instance insert_outbox_claims row : claim_write (insert_outbox row).
Proof. intros d d'. unfold insert_outbox. case_decide; [done|]. by intros [= <-]. Qed.

Lemma outbox_statements_claims ctx es : Forall claim_write (outbox_statements ctx es).
Proof.
  unfold outbox_statements. apply Forall_forall. intros w Hw.
  apply list_elem_of_omap in Hw as (e & _ & Hw). case_match; [|done].
  injection Hw as <-. apply _.
Qed.

Lemma replay_claims ws d d' :
  Forall claim_write ws → replay_writes ws d = Some d' →
  db_processed_events d ⊆ db_processed_events d'.
Proof.
  intros Hws. revert d. induction Hws as [|w ws Hw _ IH]; intros d H.
  { by injection H as <-. }
  rewrite replay_writes_cons in H. destruct (w d) as [d1|] eqn:E; [|done].
  etrans; [by apply Hw|by apply IH].
Qed.

Lemma claim_open g eid d ctx :
  processed_claim g eid (open_session d ctx id) =
    (Ok (negb (bool_decide ((g, eid) ∈ db_processed_events d))), claimed_session d g eid ctx []).
Proof. done. Qed.

(** The handler on a claimed session does what it does on one with an empty tracker, and
    adds its events to those the tracker holds. *)
Lemma handler_run h d g eid ctx evs t :
  Body h → stale_entries evs t →
  let '(r, s2) := h (claimed_session d g eid ctx []) in
  ∃ s2', h (claimed_session d g eid ctx t) = (r, s2') ∧
    (∃ ws, ss_writes s2' = claim_statement g eid :: ws ∧ Forall claim_write ws) ∧
    ss_writes s2' = ss_writes s2 ∧ ss_base s2' = d ∧ ss_context s2' = ctx ∧ ss_others s2' = id ∧
    ss_base s2 = d ∧ ss_context s2 = ctx ∧ ss_others s2 = id ∧
    tracked_events s2' = evs ++ tracked_events s2.
Proof.
  intros Hh Ht. pose proof (body_staging (h := h) (claimed_session d g eid ctx []))
    as [Hb Hc Hx Ho (ws & Hws & Hcl)].
  destruct (h (claimed_session d g eid ctx [])) as [r s2] eqn:Eh. cbn in *.
  destruct Ht as [[-> ->]| ->]; [by exists s2; split_and!; eauto|].
  exists (with_stale evs s2). change (claimed_session d g eid ctx [((EStale, 0%N), evs)])
    with (with_stale evs (claimed_session d g eid ctx [])).
  rewrite (blindness (m := h)), Eh. by split_and!; eauto.
Qed.

(** A lone run of a handler whose events and statements are accepted. *)
Lemma run_once_Ok h d g eid ctx s2 d' :
  (g, eid) ∉ db_processed_events d →
  h (claimed_session d g eid (Some ctx) []) = (Ok tt, s2) →
  ss_base s2 = d → ss_context s2 = Some ctx → ss_others s2 = id →
  replay_writes (ss_writes s2 ++ outbox_statements (Some ctx) (tracked_events s2)) d = Some d' →
  run_once g ctx eid h d = (Ok true, d').
Proof.
  intros Hin Eh Hb Hx Ho Hrep. unfold run_once, consume_once, with_uow.
  pose proof (claim_open g eid d (Some ctx)) as Hcl. rewrite bool_decide_false in Hcl by done.
  change (uow_enter (open_session d (Some ctx) id)) with (open_session d (Some ctx) id).
  rewrite (tx_bind_Ok _ _ _ _ _ Hcl). cbn [negb]. rewrite (tx_bind_Ok _ _ _ _ _ Eh).
  unfold mbind, tx_bind. rewrite uow_commit_run, Ho, Hx, Hb. cbn. by rewrite Hrep.
Qed.

Lemma run_once_after_eq h d g eid ctx evs :
  Body h →
  run_once_after evs g ctx eid h d =
  if bool_decide ((g, eid) ∈ db_processed_events d) then (Ok false, d)
  else match h (claimed_session d g eid (Some ctx) []) with
       | (Raise e, _) => (Raise e, d)
       | (Ok _, s) =>
           match replay_writes (ss_writes s ++
               outbox_statements (Some ctx) (evs ++ tracked_events s)) d with
           | Some d' => (Ok true, d')
           | None => (Raise ConcurrentWriteError, d)
           end
       end.
Proof.
  intros Hh. unfold run_once_after, consume_once, with_uow.
  assert (processed_claim g eid (uow_enter (with_stale evs (open_session d (Some ctx) id))) =
    (Ok (negb (bool_decide ((g, eid) ∈ db_processed_events d))),
     claimed_session d g eid (Some ctx) [((EStale, 0%N), evs)])) as Hcl by done.
  rewrite (tx_bind_Ok _ _ _ _ _ Hcl). case_bool_decide as Hin; cbn [negb]; [done|].
  pose proof (handler_run h d g eid (Some ctx) evs [((EStale, 0%N), evs)] Hh (or_intror eq_refl))
    as Hrun. destruct (h (claimed_session d g eid (Some ctx) [])) as [[[]|e] s2] eqn:Eh;
    destruct Hrun as (s2' & Eh' & _ & Hw & Hb & Hx & Ho & _ & _ & _ & Ht).
  2:{ rewrite (tx_bind_Raise _ _ _ _ _ Eh'). cbn. by rewrite Hb. }
  rewrite (tx_bind_Ok _ _ _ _ _ Eh'). unfold mbind, tx_bind.
  rewrite uow_commit_run, Ho, Hx, Hb, Ht, Hw. cbn. by destruct (replay_writes _ _).
Qed.

(** With nothing left behind, a retried run is a lone one. *)
Lemma run_once_after_nil h d g eid ctx d' :
  Body h → run_once_after [] g ctx eid h d = (Ok true, d') → run_once g ctx eid h d = (Ok true, d').
Proof.
  intros Hh. rewrite run_once_after_eq by done. case_bool_decide as Hin; [done|].
  pose proof (handler_run h d g eid (Some ctx) [] [] Hh (or_introl (conj eq_refl eq_refl))) as Hrun.
  destruct (h (claimed_session d g eid (Some ctx) [])) as [[[]|e] s2] eqn:Eh; [|done].
  destruct Hrun as (_ & _ & _ & _ & _ & _ & _ & Hb & Hx & Ho & _). cbn [app].
  destruct (replay_writes _ _) eqn:Er; [|done]. intros [= <-]. by apply (run_once_Ok h d g eid ctx s2).
Qed.

(** A lone run of a handler that records no event commits its view. *)
Lemma run_once_view h d g eid ctx s2 :
  Handler h → (g, eid) ∉ db_processed_events d →
  h (claimed_session d g eid (Some ctx) []) = (Ok tt, s2) → ss_conflict s2 = false →
  tracked_events s2 = [] → run_once g ctx eid h d = (Ok true, ss_view s2).
Proof.
  intros Hh Hin Eh Hc Ht. pose proof (handler_run h d g eid (Some ctx) [] [] _ (or_introl (conj eq_refl eq_refl))) as Hrun.
  pose proof (coherence (m := h) (claimed_session d g eid (Some ctx) []) eq_refl) as Hco.
  rewrite Eh in *. destruct Hrun as (_ & _ & _ & _ & _ & _ & _ & Hb & Hx & Ho & _).
  apply (run_once_Ok h d g eid ctx s2); try done. rewrite Ht.
  cbn in Hco. unfold coherent in Hco. rewrite Hb, Hc in Hco.
  rewrite replay_writes_app, Hco. done.
Qed.

(** What a lone run commits: nothing, or the claim, what the handler's view shows and the
    events its aggregates recorded. *)
Lemma run_once_inv g ctx eid h d r d' :
  Handler h → run_once g ctx eid h d = (r, d') →
  (d' = d ∧ r ≠ Ok true) ∨
  ∃ s, r = Ok true ∧ h (claimed_session d g eid (Some ctx) []) = (Ok tt, s) ∧
    ss_conflict s = false ∧ (g, eid) ∉ db_processed_events d ∧
    replay_writes (outbox_statements (Some ctx) (tracked_events s)) (ss_view s) = Some d' ∧
    published d' = published (ss_view s) ++ tracked_events s ∧
    d' = set_outbox (ss_view s) (db_outbox d').
Proof.
  intros Hh. unfold run_once, consume_once, with_uow.
  change (uow_enter (open_session d (Some ctx) id)) with (open_session d (Some ctx) id).
  rewrite (tx_bind_Ok _ _ _ _ _ (claim_open g eid d (Some ctx))). case_bool_decide as Hin; cbn [negb].
  { intros [= <- <-]. by left. }
  pose proof (handler_run h d g eid (Some ctx) [] [] _ (or_introl (conj eq_refl eq_refl))) as Hrun.
  pose proof (coherence (m := h) (claimed_session d g eid (Some ctx) []) eq_refl) as Hco.
  destruct (h (claimed_session d g eid (Some ctx) [])) as [[[]|e] s2] eqn:Eh;
    destruct Hrun as (_ & _ & _ & _ & _ & _ & _ & Hb & Hx & Ho & _).
  2:{ rewrite (tx_bind_Raise _ _ _ _ _ Eh). cbn. rewrite Hb. intros [= <- <-]. by left. }
  rewrite (tx_bind_Ok _ _ _ _ _ Eh). unfold mbind, tx_bind.
  rewrite uow_commit_run, Ho, Hx, Hb. cbn in Hco |- *. unfold coherent in Hco. rewrite Hb in Hco.
  rewrite replay_writes_app, Hco. destruct (ss_conflict s2) eqn:Hc; cbn;
    [intros [= <- <-]; by left|].
  destruct (replay_writes (outbox_statements _ _) (ss_view s2)) as [d2|] eqn:Er;
    intros [= <- <-]; [right|by left].
  pose proof Er as [Hp Hd]%outbox_statements_published. exists s2. by split_and!.
Qed.

(** What a failed attempt leaves in the tracker; a commit, whatever becomes of it, drains it. *)
Definition leftover_after (h : tx unit) (g : string) (eid : uuid) (ctx : MessageContext)
    (d : Database) (evs : list DomainEvent) : list DomainEvent :=
  match h (claimed_session d g eid (Some ctx) []) with
  | (Raise _, s) => evs ++ tracked_events s
  | (Ok _, _) => []
  end.

(** One [consume_once] on an idle session: a claimed delivery is refused; otherwise
    either nothing is committed, or what a run of the handler on what the tracker holds
    commits is. *)
Lemma consume_once_idle fate g eid h d ctx evs s :
  Body h → idle d (Some ctx) evs s →
  let '(r, s') := consume_once (commit_under fate) g eid h s in
  if decide ((g, eid) ∈ db_processed_events d) then r = Ok false ∧ idle d (Some ctx) evs s'
  else
    (∃ e, r = Raise e ∧ idle d (Some ctx) (leftover_after h g eid ctx d evs) s') ∨
    (∃ d', run_once_after evs g ctx eid h d = (Ok true, d') ∧ idle d' (Some ctx) [] s' ∧
       (g, eid) ∈ db_processed_events d' ∧ (r = Ok true ∨ ∃ e, r = Raise e)).
Proof.
  intros Hh Hidle. destruct (claim_idle g eid d (Some ctx) evs s Hidle) as (t & Ht & Hcl).
  unfold consume_once, with_uow. rewrite (tx_bind_Ok _ _ _ _ _ Hcl).
  destruct (decide ((g, eid) ∈ db_processed_events d)) as [Hin|Hin].
  { rewrite bool_decide_true by done. cbn -[uow_rollback]. split; [done|].
    by apply claimed_rollback. }
  rewrite bool_decide_false by done. cbn [negb].
  pose proof (handler_run h d g eid (Some ctx) evs t Hh Ht) as Hrun. unfold leftover_after.
  pose proof (run_once_after_eq h d g eid ctx evs Hh) as Heq. rewrite bool_decide_false in Heq by done.
  destruct (h (claimed_session d g eid (Some ctx) [])) as [[[]|e] s2] eqn:Eh;
    destruct Hrun as (s2' & Eh' & (ws & Hws & Hk) & Hw' & Hb' & Hx' & Ho' & _ & _ & _ & Ht').
  2:{ rewrite (tx_bind_Raise _ _ _ _ _ Eh'). left. exists e. split; [done|].
      rewrite <- Hb', <- Hx', <- Ht'. by apply rollback_idle. }
  rewrite (tx_bind_Ok _ _ _ _ _ Eh').
  pose proof (commit_under_run fate s2' Ho') as Hf. rewrite Hb', Hx', Ht', Hw' in Hf.
  unfold mbind at 1, tx_bind at 1. destruct (commit_under fate s2') as [r s3].
  destruct Hf as (Ho3 & Hx3 & Ht3 & [(e & -> & Hb3)|(d' & Hrep & Hb3 & Hr)]).
  - left. exists e. split; [done|]. rewrite <- Hb3, <- Hx3, <- Ht3. by apply rollback_idle.
  - rewrite Hrep in Heq.
    assert ((g, eid) ∈ db_processed_events d') as Hin'.
    { rewrite <- Hw', Hws in Hrep. cbn [app] in Hrep. rewrite replay_writes_cons in Hrep.
      apply replay_claims in Hrep; [set_solver|].
      apply Forall_app. split; [done|apply outbox_statements_claims]. }
    destruct Hr as [(-> & Hi & Hc3)|(e & ->)].
    + change ((mret true : tx bool) s3) with (Ok true, s3). cbn beta iota. rewrite Hc3. right.
      exists d'. by split_and!; eauto.
    + right. exists d'. split_and!; [done| |done|by right; exists e].
      rewrite <- Hb3, <- Hx3, <- Ht3. by apply rollback_idle.
Qed.

(** *** Discharging the interface

    Claims survive every statement of the repositories, and an unfolded handler is quiet
    when it tracks an aggregate only once nothing can raise any more. *)
Class ClaimTable {T} (put : Database → T → Database) : Prop :=
  claim_table : ∀ d v, db_processed_events (put d v) = db_processed_events d.
#[export] Hint Extern 0 (ClaimTable _) => (intros ? ?; reflexivity) : typeclass_instances.

#[export] Instance insert_row_claims {K V} `{Countable K} (get : Database → gmap K V) put k v :
  ClaimTable put → claim_write (insert_row get put k v).
Proof. intros Hp d d'. unfold insert_row. case_match; [done|]. intros [= <-]. by rewrite Hp. Qed.
#[export] Instance merge_row_claims {K V} `{Countable K} (get : Database → gmap K V) put k v :
  ClaimTable put → claim_write (merge_row get put k v).
Proof. intros Hp d d' [= <-]. by rewrite Hp. Qed.
#[export] Instance delete_row_claims {K V} `{Countable K} (get : Database → gmap K V) put k :
  ClaimTable put → claim_write (delete_row get put k).
Proof. intros Hp d d' [= <-]. by rewrite Hp. Qed.
#[export] Instance put_claims {T} (put : Database → T → Database) f :
  ClaimTable put → claim_write (λ d, Some (put d (f d))).
Proof. intros Hp d d' [= <-]. by rewrite Hp. Qed.
#[export] Instance insert_event_claims sid v e : claim_write (insert_event sid v e).
Proof. intros d d'. unfold insert_event. case_decide; [|done]. by intros [= <-]. Qed.

#[export] Instance staging_claims w : claim_write w → Staging claim_write (execute w).
Proof. apply staging_execute. Qed.
#[export] Instance insert_events_staging_claims sid v es :
  Staging claim_write (insert_events sid v es).
Proof. revert v. induction es; intros v; cbn; apply _. Qed.
#[export] Instance outbox_append_staging_claims e : Staging claim_write (outbox_append e).
Proof.
  intros s. unfold outbox_append. case_match; [apply (staging_claims _ _ s)|reflexivity].
Qed.

(** The tracker is left as it was; nothing is raised. *)
Class Silent {A} (m : tx A) : Prop := silence : ∀ s, ss_tracked (m s).2 = ss_tracked s.
Class Sure {A} (m : tx A) : Prop := surety : ∀ s, is_ok (m s).1 = true.

#[export] Instance silent_ret {A} (a : A) : Silent (mret a : tx A).
Proof. by intros s. Qed.
#[export] Instance silent_lift {A} (r : result A) : Silent (tx_lift r).
Proof. by intros s. Qed.
#[export] Instance silent_raise {A} e : Silent (tx_raise e : tx A).
Proof. by intros s. Qed.
#[export] Instance silent_query {A} (f : Database → A) : Silent (query f).
Proof. intros s. unfold query. by case_match. Qed.
#[export] Instance silent_execute w : Silent (execute w).
Proof. intros s. unfold execute. by case_match. Qed.
#[export] Instance silent_bind {A B} (m : tx A) (f : A → tx B) :
  Silent m → (∀ a, Silent (f a)) → Silent (m ≫= f).
Proof.
  intros Hm Hf s. unfold mbind, tx_bind. specialize (Hm s).
  destruct (m s) as [[a|e] s']; cbn in *; [by rewrite Hf|done].
Qed.
#[export] Instance silent_except {A} (m : tx A) c h :
  Silent m → (∀ e, Silent (h e)) → Silent (tx_except m c h).
Proof.
  intros Hm Hh s. unfold tx_except. specialize (Hm s).
  destruct (m s) as [[a|e] s']; cbn in *; [done|]. case_match; [by rewrite Hh|done].
Qed.
#[export] Instance silent_match_option {A B} (o : option A) (m : tx B) (f : A → tx B) :
  Silent m → (∀ a, Silent (f a)) → Silent (match o with None => m | Some a => f a end).
Proof. destruct o; auto. Qed.
#[export] Instance silent_if {B} (b : bool) (m n : tx B) :
  Silent m → Silent n → Silent (if b then m else n).
Proof. destruct b; auto. Qed.
#[export] Instance silent_iter {A} (f : A → tx unit) l :
  (∀ a, Silent (f a)) → Silent (tx_iter f l).
Proof. intros Hf. induction l; cbn; apply _. Qed.
#[export] Instance silent_pair {A B C} (p : A * B) (f : A → B → tx C) :
  (∀ a b, Silent (f a b)) → Silent (let '(a, b) := p in f a b).
Proof. destruct p; auto. Qed.
#[export] Instance silent_insert_events sid v es : Silent (insert_events sid v es).
Proof. revert v. induction es; intros v; cbn; apply _. Qed.
#[export] Instance silent_outbox_append e : Silent (outbox_append e).
Proof. intros s. unfold outbox_append. case_match; [apply silent_execute|done]. Qed.

#[export] Instance sure_ret {A} (a : A) : Sure (mret a : tx A).
Proof. by intros s. Qed.
#[export] Instance sure_execute w : Sure (execute w).
Proof. intros s. unfold execute. by case_match. Qed.
#[export] Instance sure_track r es : Sure (track r es).
Proof. by intros s. Qed.
#[export] Instance sure_bind {A B} (m : tx A) (f : A → tx B) :
  Sure m → (∀ a, Sure (f a)) → Sure (m ≫= f).
Proof.
  intros Hm Hf s. unfold mbind, tx_bind. specialize (Hm s).
  destruct (m s) as [[a|e] s']; cbn in *; [apply Hf|done].
Qed.
#[export] Instance sure_if {B} (b : bool) (m n : tx B) :
  Sure m → Sure n → Sure (if b then m else n).
Proof. destruct b; auto. Qed.

#[export] Instance sure_pair {A B C} (p : A * B) (f : A → B → tx C) :
  (∀ a b, Sure (f a b)) → Sure (let '(a, b) := p in f a b).
Proof. destruct p; auto. Qed.

#[export] Instance quiet_sure {A} (m : tx A) : Sure m → Quiet m | 10.
Proof. intros Hm s e s' _ E. specialize (Hm s). by rewrite E in Hm. Qed.
#[export] Instance quiet_silent {A} (m : tx A) : Silent m → Quiet m | 5.
Proof.
  intros Hm s e s' Ht E. specialize (Hm s). rewrite E in Hm. cbn in Hm.
  unfold tracked_events in *. by rewrite Hm.
Qed.
#[export] Instance quiet_bind {A B} (m : tx A) (f : A → tx B) :
  Silent m → (∀ a, Quiet (f a)) → Quiet (m ≫= f) | 20.
Proof.
  intros Hm Hf s e s' Ht. unfold mbind, tx_bind. specialize (Hm s).
  destruct (m s) as [[a|x] s1]; cbn in *.
  - apply Hf. unfold tracked_events in *. by rewrite Hm.
  - intros [= _ <-]. unfold tracked_events in *. by rewrite Hm.
Qed.
#[export] Instance quiet_match_option {A B} (o : option A) (m : tx B) (f : A → tx B) :
  Quiet m → (∀ a, Quiet (f a)) → Quiet (match o with None => m | Some a => f a end).
Proof. destruct o; auto. Qed.
#[export] Instance quiet_if {B} (b : bool) (m n : tx B) :
  Quiet m → Quiet n → Quiet (if b then m else n).
Proof. destruct b; auto. Qed.

#[export] Instance quiet_pair {A B C} (p : A * B) (f : A → B → tx C) :
  (∀ a b, Quiet (f a b)) → Quiet (let '(a, b) := p in f a b).
Proof. destruct p; auto. Qed.
#[export] Instance quiet_then_sure {A B} (m : tx A) (f : A → tx B) :
  Quiet m → (∀ a, Sure (f a)) → Quiet (m ≫= f) | 30.
Proof.
  intros Hm Hf s e s' Ht. unfold mbind, tx_bind. pose proof (Hm s) as Hs.
  destruct (m s) as [[a|x] s1].
  - intros E. specialize (Hf a s1). by rewrite E in Hf.
  - intros [= <- <-]. by eapply Hs.
Qed.

(** A handler made of repository operations. *)
Ltac handler := constructor; [constructor|]; stage.

(** *** A delivery in its scope *)

(** The ledger with one more claim and nothing else. *)
Definition claim_only (d : Database) (g : string) (eid : uuid) : Database :=
  set_processed_events d ({[(g, eid)]} ∪ db_processed_events d).

Lemma move_aside_idle g message delivered aside error D evs sc :
  let ctx := Some (pub_context delivered) in
  idle D ctx evs (sc_session sc) →
  let eid := event_id (pub_event delivered) in
  let copied := sc_copies sc ++ [dead_letter_for message g error] in
  let '(r, sc') := move_aside g message delivered aside error sc in
  if decide ((g, eid) ∈ db_processed_events D)
  then ss_base (sc_session sc') = D ∧ sc_copies sc' = sc_copies sc
  else
    (ss_base (sc_session sc') = D ∧ (∃ e, r = Raise e) ∧
     (sc_copies sc' = sc_copies sc ∨ sc_copies sc' = copied)) ∨
    (replay_writes (outbox_statements ctx evs) (claim_only D g eid) =
       Some (ss_base (sc_session sc')) ∧ sc_copies sc' = copied).
Proof.
  intros ctx Hidle eid copied. unfold move_aside. fold eid.
  destruct (claim_idle g eid D _ _ _ Hidle) as (t & Ht & Hcl).
  pose proof (idle_base _ _ _ _ Hidle) as Hb.
  destruct (as_start aside) as [x|]; cbn [fail_if].
  { rewrite (tx_bind_Raise _ _ _ x (uow_enter (sc_session sc))) by done. cbn. rewrite Hb.
    case_decide; [done|]. left. eauto. }
  rewrite (tx_bind_Ok _ _ _ tt (uow_enter (sc_session sc))) by done. rewrite Hcl.
  destruct (decide ((g, eid) ∈ db_processed_events D)) as [Hin|Hin].
  { rewrite bool_decide_true by done. done. }
  rewrite bool_decide_false by done. cbn [negb].
  destruct (as_broker aside) as [|x|x]; [|left; cbn; eauto|left; cbn; eauto].
  set (s1 := claimed_session _ _ _ _ _). pose proof (commit_under_run (as_commit aside) s1 eq_refl) as H.
  assert (tracked_events s1 = evs) as Hte by (by apply stale_events). rewrite Hte in H.
  destruct (commit_under (as_commit aside) s1) as [r s2].
  destruct H as (_ & _ & _ & [(e & -> & Hb2)|(d' & Hrep & Hb2 & Hr)]).
  - cbn. rewrite Hb2. left. eauto.
  - cbn [app ss_writes s1 claimed_session] in Hrep. rewrite replay_writes_cons in Hrep.
    cbn in Hrep. fold (claim_only D g eid) in Hrep.
    destruct Hr as [(-> & _)|(e & ->)]; cbn; rewrite Hb2; by right.
Qed.

Section Outcome.
Context (g : string) (message : KafkaMessage) (delivered : PublishedMessage)
  (attempts : nat → attempt_env) (aside : aside_env) (policy : FailurePolicy)
  (d : Database) (copies : list DeliveryDeadLetter)
  (Hbody : ∀ k, Body (at_handler (attempts k))).

Let eid := event_id (pub_event delivered).
Let ctx := pub_context delivered.

(** What the first [k] attempts left in the tracker: an attempt that fails before its
    handler leaves it as it was, a handler that raises leaves its events in it. *)
Fixpoint left_behind (k : nat) : list DomainEvent :=
  match k with
  | O => []
  | S k =>
      match at_start (attempts k) with
      | Some _ => left_behind k
      | None => leftover_after (at_handler (attempts k)) g eid ctx d (left_behind k)
      end
  end.

(** Attempt [j]'s handler is the one whose work was committed. *)
Definition handled_by (k : nat) (d' : Database) : Prop :=
  (g, eid) ∉ db_processed_events d ∧ (g, eid) ∈ db_processed_events d' ∧
  ∃ j, j < k ∧ run_once_after (left_behind j) g ctx eid (at_handler (attempts j)) d = (Ok true, d').

(** The scope after [k] attempts. *)
Definition after_attempts (k : nat) (sc : Scope) : Prop :=
  sc_copies sc = copies ∧ sc_attempts sc = k ∧
  ((∃ evs, idle d (Some ctx) evs (sc_session sc) ∧
      ((g, eid) ∉ db_processed_events d → evs = left_behind k)) ∨
   ∃ d', handled_by k d' ∧ idle d' (Some ctx) [] (sc_session sc)).

Lemma handled_by_later k d' : handled_by k d' → handled_by (S k) d'.
Proof. intros (? & ? & j & ? & ?). split_and!; [done..|]. exists j. split; [lia|done]. Qed.

Lemma deliver_after k sc :
  after_attempts k sc →
  let '(r, sc') := deliver_attempt g delivered attempts sc in
  after_attempts (S k) sc' ∧
  ∀ b, r = Ok b → (g, eid) ∈ db_processed_events (ss_base (sc_session sc')).
Proof.
  intros (Hq & <- & Hs). unfold deliver_attempt. fold eid.
  destruct Hs as [(evs & Hidle & Hevs)|(D & HD & Hidle)].
  - destruct (at_start _) as [x|] eqn:Es; cbn [fail_if].
    { rewrite (tx_bind_Raise _ _ _ x (sc_session sc)) by done. split; [|done].
      split_and!; [done..|]. left. exists evs. split; [done|]. intros Hin. cbn [left_behind sc_attempts].
      rewrite Es. auto. }
    rewrite (tx_bind_Ok _ _ _ tt (sc_session sc)) by done.
    pose proof (consume_once_idle (at_commit (attempts (sc_attempts sc))) g eid _ d ctx evs _
      (Hbody (sc_attempts sc)) Hidle) as H.
    destruct (consume_once _ g eid _ _) as [r s'].
    destruct (decide ((g, eid) ∈ db_processed_events d)) as [Hin|Hin].
    { destruct H as [-> H]. split; [|intros _ _; cbn; by rewrite (idle_base _ _ _ _ H)].
      split_and!; [done..|]. left. by exists evs. }
    rewrite (Hevs Hin) in H. destruct H as [(e & -> & H)|(d' & Hro & Hi & Hc & _)].
    + split; [|done]. split_and!; [done..|]. left. eexists. split; [exact H|]. intros _.
      cbn [left_behind sc_attempts]. by rewrite Es.
    + split; [|intros _ _; cbn; by rewrite (idle_base _ _ _ _ Hi)].
      split_and!; [done..|]. right. exists d'. split; [|done]. split_and!; [done..|].
      exists (sc_attempts sc). split; [lia|done].
  - assert (∀ s', idle D (Some ctx) [] s' → after_attempts (S (sc_attempts sc))
      (mkScope s' (sc_copies sc) (S (sc_attempts sc)))) as Hkeep.
    { intros s' Hs'. split_and!; [done..|]. right. exists D. split; [by apply handled_by_later|done]. }
    destruct (at_start _) as [x|]; cbn [fail_if].
    { rewrite (tx_bind_Raise _ _ _ x (sc_session sc)) by done. split; [by apply Hkeep|done]. }
    rewrite (tx_bind_Ok _ _ _ tt (sc_session sc)) by done.
    pose proof (consume_once_idle (at_commit (attempts (sc_attempts sc))) g eid _ D ctx [] _
      (Hbody (sc_attempts sc)) Hidle) as H.
    destruct (consume_once _ g eid _ _) as [r s']. rewrite decide_True in H by apply HD.
    destruct H as [-> H]. split; [by apply Hkeep|]. intros _ _. cbn. rewrite (idle_base _ _ _ _ H).
    apply HD.
Qed.

Lemma state_after_attempts k sc :
  after_attempts 0 sc → after_attempts k (state_after (deliver_attempt g delivered attempts) k sc).
Proof.
  intros H0. induction k as [|k IH]; [done|]. apply deliver_after in IH.
  change (after_attempts (S k) (deliver_attempt g delivered attempts
    (state_after (deliver_attempt g delivered attempts) k sc)).2).
  destruct (deliver_attempt _ _ _ _). apply IH.
Qed.

Lemma after_none :
  after_attempts 0 (mkScope (open_session d (Some ctx) id) copies 0).
Proof. split_and!; [done..|]. left. exists []. split; [apply idle_open|done]. Qed.

(** Handlers that raise before they record an event leave nothing behind. *)
Lemma quiet_left_behind k : (∀ k, Quiet (at_handler (attempts k))) → left_behind k = [].
Proof.
  intros Hq. induction k as [|k IH]; [done|]. cbn [left_behind]. destruct (at_start _); [done|].
  unfold leftover_after. rewrite IH.
  destruct (at_handler (attempts k) _) as [[?|e] s] eqn:E; [done|].
  by rewrite (quietness (claimed_session d g eid (Some ctx) []) e s eq_refl E).
Qed.
End Outcome.

(** ** Theorems *)

(** The failure policy makes between one and [max_attempts] attempts and stops at
    the first that is decided: an answer is returned as it is, a broken domain rule is
    moved aside at once, any other failure is retried until the budget is spent and then
    moved aside.  It sleeps once between two attempts, never longer than the ceiling. *)
Theorem policy_outcome {S} (deliver : S → result bool * S) (aside : exn → S → result unit * S)
    (p : FailurePolicy) (s : S) :
  (1 ≤ max_attempts p ≤ 1025)%Z →
  ∃ n waits, (Z.of_nat n < max_attempts p)%Z ∧
    (∀ k, k < n → ∃ e, (deliver (state_after deliver k s)).1 = Raise e ∧
       is_domain_error e = false) ∧
    length waits = n ∧ Forall (λ w, float_lt (max_wait_seconds p) w = false) waits ∧
    let '(r, s') := deliver (state_after deliver n s) in
    run_with_failure_policy deliver aside p s = Some
      (match r with Ok b => (Ok b, s') | Raise e => moved_aside aside e s' end, waits) ∧
    ∀ e, r = Raise e → is_domain_error e = true ∨ (Z.of_nat n = max_attempts p - 1)%Z.
Proof.
  intros Hp. destruct (policy_loop_outcome deliver aside p (Z.to_nat (max_attempts p)) 0 s)
    as (n & waits & Hn & Hf & Hl & Hw & Hrun); [lia..|].
  exists n, waits. split_and!; [lia|done..|].
  destruct (deliver (state_after deliver n s)) as [r s']. destruct Hrun as [Hrun Hr].
  split; [done|]. intros e He. destruct (Hr e He); [by left|right; lia].
Qed.

Definition demo_policy : FailurePolicy :=
  mkFailurePolicy 3 (float_of_Z 1) (float_of_Z 30).

(** Two timeouts, then an answer: three attempts, waits of one and two seconds. *)
Lemma policy_outcome_witness :
  let deliver (k : nat) := (if decide (k < 2) then Raise (OperationError 1) else Ok true, S k) in
  let aside (_ : exn) (k : nat) := (Ok tt, k) in
  ∃ n waits, n = 2 ∧ run_with_failure_policy deliver aside demo_policy 0 =
    Some ((Ok true, 3), waits) ∧ waits = [float_of_Z 1; float_of_Z 2].
Proof.
  intros deliver aside.
  destruct (policy_outcome deliver aside demo_policy 0 ltac:(cbn; lia))
    as (n & waits & Hn & Hf & Hl & _ & Hrun).
  assert (n = 2) as ->.
  { cbn in Hn. destruct n as [|[|[|n]]]; [| |done|lia].
    - destruct Hrun as [H _]. vm_compute in H. discriminate H.
    - destruct Hrun as [H _]. vm_compute in H. discriminate H. }
  exists 2, waits. destruct Hrun as [Hrun _]. split; [done|]. rewrite Hrun. split; [reflexivity|].
  vm_compute in Hrun. injection Hrun as <-. reflexivity.
Defined.

(** [C4] A consumer's handler stages its work through the unit of work it is given and leaves
    the commit to [consume_once]; it may raise at any point.  Under a policy of at most 1025
    attempts, however often a delivery is attempted and whatever fails on the way — the
    handler, the commit, its acknowledgement, the broker, which may refuse the copy or take
    it unheard, the copy's own commit — the subscriber commits the work of at most one
    attempt, and commits it with the claim.  A delivery the ledger holds changes nothing; a
    new one ends handled exactly once, or moved aside with a copy and the claim, or
    unclaimed behind an exception, which makes the transport offer it again.  What is
    committed with the claim also carries the events that handlers of earlier attempts had
    recorded before they raised, since a rollback leaves them in the tracker; handlers that
    raise before they record an event leave nothing behind, and then the delivery commits
    what one run of the handler alone commits, or the claim alone. *)
Theorem delivery_exactly_once (g : string) (message : KafkaMessage) (delivered : PublishedMessage)
    (attempts : nat → attempt_env) (aside : aside_env) (policy : FailurePolicy)
    (d : Database) (copies : list DeliveryDeadLetter) :
  (∀ k, Body (at_handler (attempts k))) → (1 ≤ max_attempts policy ≤ 1025)%Z →
  let ctx := pub_context delivered in
  let eid := event_id (pub_event delivered) in
  let left := left_behind g delivered attempts d in
  ((∀ k, Quiet (at_handler (attempts k))) → ∀ k, left k = []) ∧
  ∃ r d' copies',
    handle_message g message delivered attempts aside policy d copies = Some (r, d', copies') ∧
    if decide ((g, eid) ∈ db_processed_events d) then d' = d ∧ copies' = copies
    else
      (copies' = copies ∧ (g, eid) ∈ db_processed_events d' ∧
       ∃ k, (Z.of_nat k < max_attempts policy)%Z ∧
         run_once_after (left k) g ctx eid (at_handler (attempts k)) d = (Ok true, d') ∧
         (left k = [] → run_once g ctx eid (at_handler (attempts k)) d = (Ok true, d'))) ∨
      ((∃ k, (Z.of_nat k ≤ max_attempts policy)%Z ∧ published d' = published d ++ left k ∧
          d' = set_outbox (claim_only d g eid) (db_outbox d') ∧
          (left k = [] → d' = claim_only d g eid)) ∧
       ∃ error, copies' = copies ++ [dead_letter_for message g error]) ∨
      (d' = d ∧ (∃ e, r = Raise e) ∧
       (copies' = copies ∨ ∃ error, copies' = copies ++ [dead_letter_for message g error])).
Proof.
  intros Hh Hp ctx eid left. split; [by intros Hq k; apply quiet_left_behind|].
  set (sc0 := mkScope (open_session d (Some ctx) id) copies 0).
  destruct (policy_loop_outcome (deliver_attempt g delivered attempts)
    (move_aside g message delivered aside) policy (Z.to_nat (max_attempts policy)) 0 sc0)
    as (n & waits & Hn & _ & _ & _ & Hrun); [lia..|].
  pose proof (deliver_after g delivered attempts d copies Hh n _
    (state_after_attempts g delivered attempts d copies Hh n sc0
      (after_none g delivered attempts d copies))) as Ha.
  unfold handle_message, run_with_failure_policy. fold ctx sc0.
  destruct (deliver_attempt _ _ _ _) as [r sc]. destruct Hrun as [-> _].
  destruct Ha as [(Hq & _ & Hs) Hok].
  assert (∀ D, handled_by g delivered attempts d (S n) D → (g, eid) ∉ db_processed_events d ∧
    (g, eid) ∈ db_processed_events D ∧ ∃ k, (Z.of_nat k < max_attempts policy)%Z ∧
      run_once_after (left k) g ctx eid (at_handler (attempts k)) d = (Ok true, D) ∧
      (left k = [] → run_once g ctx eid (at_handler (attempts k)) d = (Ok true, D))) as Hby.
  { intros D (? & ? & j & ? & Hj). split_and!; [done..|]. exists j. split; [lia|]. split; [done|].
    intros Hnil. fold eid ctx left in Hj. rewrite Hnil in Hj. by apply run_once_after_nil. }
  destruct r as [b|error].
  - exists (Ok b), (ss_base (sc_session sc)), copies. cbn. rewrite Hq. split; [done|].
    specialize (Hok b eq_refl). fold eid in Hok.
    destruct Hs as [(evs & Hi & _)|(D & HD%Hby & Hi)]; rewrite (idle_base _ _ _ _ Hi) in *.
    + by rewrite decide_True.
    + rewrite decide_False by apply HD. left. by split_and!; try apply HD.
  - unfold moved_aside.
    pose proof (λ D evs, move_aside_idle g message delivered aside error D evs sc) as Hm.
    destruct (move_aside _ _ _ _ _ _) as [r sc'].
    exists (match r with Ok _ => Ok true | Raise e => Raise e end), (ss_base (sc_session sc')),
      (sc_copies sc'). split; [by destruct r|]. rewrite Hq in Hm. fold eid ctx in Hm.
    destruct Hs as [(evs & Hi & Hevs)|(D & HD%Hby & Hi)]; specialize (Hm _ _ Hi).
    + destruct (decide ((g, eid) ∈ db_processed_events d)) as [Hin|Hin];
        [by rewrite decide_True in Hm|rewrite decide_False in Hm by done]. right.
      destruct Hm as [(-> & (e & ->) & Hc)|[Hrep ->]]; [right|left].
      * split_and!; [done|by exists e|]. destruct Hc as [->| ->]; eauto.
      * specialize (Hevs Hin). split; [|eauto]. exists (S n). split; [lia|].
        pose proof (outbox_statements_published _ _ _ _ Hrep) as [Hpub Hd].
        fold left in Hevs. rewrite <- Hevs. split_and!; [exact Hpub|exact Hd|].
        intros ->. by injection Hrep.
    + rewrite decide_True in Hm by apply HD. rewrite decide_False by apply HD. left.
      destruct Hm as [-> ->]. by split_and!; try apply HD.
Qed.

Definition demo_window (at_ : datetime) : MissedCareWindowModel :=
  mkMissedCareWindowModel 1 2 at_ (at_ + days 1)%Z PENDING at_.

Definition demo_attempts (k : nat) : attempt_env :=
  match k with
  | 0 => mkAttemptEnv None (tx_raise (OperationError 7)) Acknowledged
  | _ => mkAttemptEnv None (windows_save (demo_window 5)) (Unacknowledged (OperationError 8))
  end.

#[export] Instance demo_attempts_handlers k : Handler (at_handler (demo_attempts k)).
Proof. destruct k; handler. Qed.

Definition demo_delivery : PublishedMessage :=
  mkPublishedMessage (mkEvent 9 5 (WateringDue (Uuid 1) 5))
    (mkMessageContext "user:1" None None None 5).
Definition demo_message : KafkaMessage := mkKafkaMessage "care.events" (Some "1") "{}" ∅.
Definition demo_aside : aside_env := mkAsideEnv None Acknowledged Acknowledged.

(** A timeout, then a commit whose acknowledgement is lost: the third attempt finds the
    claim, and the window is there once. *)
Lemma delivery_exactly_once_witness :
  ∃ r d' copies',
    handle_message "missed-care" demo_message demo_delivery demo_attempts demo_aside demo_policy
      empty_database [] = Some (r, d', copies') ∧
    r = Ok false ∧ copies' = [] ∧ ("missed-care", 9%N) ∈ db_processed_events d' ∧
    db_windows d' !! 1%N = Some (demo_window 5).
Proof.
  destruct (delivery_exactly_once "missed-care" demo_message demo_delivery demo_attempts demo_aside
    demo_policy empty_database [] (λ k, handler_body) ltac:(cbn; lia))
    as (_ & r & d' & copies' & H & Hout).
  exists r, d', copies'. split; [exact H|].
  rewrite decide_False in Hout by (vm_compute; by intros ?).
  vm_compute in H. injection H as <- <- <-.
  split; [done|]. split; [done|]. split; [|vm_compute; reflexivity].
  destruct Hout as [(_ & Hin & _)|[(_ & e & Hq)|(_ & (e & Hr) & _)]];
    [exact Hin|discriminate Hq|discriminate Hr].
Defined.

(** A rollback does not empty the tracker: when the body of a transaction raises and
    the same unit of work then runs and commits another body, as a retried delivery does,
    the commit publishes the events the failed body had recorded, before its own. *)
Theorem failed_body_events_published (m1 m2 : tx unit) (d : Database) (e : exn)
    (s1 s2 : Session) :
  Staging any_write m1 → Staging domain_write m2 → Blind m2 →
  m1 (open_session d None id) = (Raise e, s1) →
  m2 (open_session d None id) = (Ok tt, s2) →
  (retried m1 m2 d).1 = Ok tt →
  published (retried m1 m2 d).2 = published d ++ tracked_events s1 ++ tracked_events s2.
Proof.
  intros Hm1 Hm2 Hblind E1 E2. unfold retried.
  pose proof (staging (P := any_write) (m := m1) (open_session d None id)) as [Hb1 _ Hx1 Ho1 _].
  pose proof (staging (P := domain_write) (m := m2) (open_session d None id))
    as [Hb2 Hc2 Hx2 Ho2 (ws & Hws & Hdom)].
  rewrite E1 in *. rewrite E2 in *. cbn in *.
  assert ((transaction m1 (open_session d None id)).2 = (uow_rollback s1).2) as ->.
  { unfold transaction, with_uow. change (uow_enter _) with (open_session d None id).
    by rewrite (tx_bind_Raise _ _ _ _ _ E1). }
  assert (∃ s2', m2 (uow_enter (uow_rollback s1).2) = (Ok tt, s2') ∧ ss_writes s2' = ws ∧
    ss_base s2' = d ∧ ss_context s2' = None ∧ ss_others s2' = id ∧
    tracked_events s2' = tracked_events s1 ++ tracked_events s2) as
    (s2' & E2' & Hw' & Hb' & Hx' & Ho' & Ht').
  { unfold uow_enter, uow_rollback; cbn. rewrite Hb1, Hx1, Ho1. unfold tracked_events at 2.
    destruct (ss_tracked s1) as [|t l]; cbn [stale_tracked].
    - exists s2. by split_and!.
    - exists (with_stale (concat (t :: l).*2) s2).
      change (mkSession d d [] false _ false None id) with
        (with_stale (concat (t :: l).*2) (open_session d None id)).
      by rewrite (blindness (m := m2)), E2. }
  unfold transaction at 1 2, with_uow. rewrite !(tx_bind_Ok _ _ _ _ _ E2').
  unfold mbind, tx_bind. rewrite uow_commit_run, Ho', Hx', Hb', Hw', Ht'. cbn.
  rewrite replay_writes_app. destruct (replay_writes ws d) as [d1|] eqn:Er; [|done].
  cbn. apply replay_domain_writes in Er as [_ Hout]; [|done].
  destruct (replay_writes (outbox_statements _ _) d1) as [d2|] eqn:Er2; [|done].
  intros _. cbn. apply outbox_statements_published in Er2 as [-> _].
  unfold published. by rewrite Hout.
Qed.

(** A handler that saves a plant and then fails, and one that succeeds after it. *)
Lemma failed_body_events_published_witness :
  let ev k := mkEvent k 0 (PlantRemoved (Uuid 1) 0) in
  let m1 : tx unit := _ ← track (EPlant, 1%N) [ev 1%N]; tx_raise (OperationError 1) in
  let m2 : tx unit := track (EPlant, 1%N) [ev 2%N] in
  (retried m1 m2 empty_database).1 = Ok tt ∧
  published (retried m1 m2 empty_database).2 = [ev 1%N; ev 2%N].
Proof.
  intros ev m1 m2.
  assert ((retried m1 m2 empty_database).1 = Ok tt) as Hr by (vm_compute; reflexivity).
  split; [exact Hr|].
  apply (failed_body_events_published m1 m2 empty_database (OperationError 1)
    (m1 (open_session empty_database None id)).2 (m2 (open_session empty_database None id)).2);
    [apply _|apply _|apply _|reflexivity|reflexivity|exact Hr].
Defined.
