(* ===== verification/Consumers.v ===== *)
(** The consumers that keep a context's own rows in step with another context's events:
    the plant references ([application/references.py]), the journal
    ([application/journal/consumer.py]) and the household's reminders
    ([application/notifications/consumer.py]). *)

From S2P Require Import Prelude Domain Journal Garden Notification Topics Rows Views Database.
From S2P Require Import UnitOfWork Repositories Commands JournalStore Delivery.

(** ** Derived identifiers

    [uuid5(NAMESPACE_URL, name)] of the names the consumers build; a name is kept as the
    values it spells. *)
Inductive derived_name :=
  | JournalWatering (plant_id : PlantId) (completed_at : datetime)
  | NotificationOf (event_type : string) (event_id : uuid).

Definition watering_entry_id (uuid5 : derived_name → uuid) (plant_id : PlantId)
    (completed_at : datetime) : JournalEntryId :=
  Uuid (uuid5 (JournalWatering plant_id completed_at)).

Definition notification_id_for (uuid5 : derived_name → uuid) (e : DomainEvent) :
    NotificationId :=
  Uuid (uuid5 (NotificationOf (event_name (body e)) (event_id e))).

(** ** Plant references *)

Definition garden_facts (t : ref_table) (e : DomainEvent) :
    tx (option (HouseholdId * string * string)) :=
  match body e with
  | PlantAdded _ household_id _ name location _ =>
      mret (Some (household_id, name, location_value location))
  | PlantMoved plant_id _ location =>
      known ← refs_get t plant_id;
      mret match known with
      | None => None
      | Some r => Some (pr_household_id r, pr_name r, location_value location)
      end
  | _ => mret None
  end.

Definition maintain_plant_reference (t : ref_table) (plant_id : PlantId) (e : DomainEvent) :
    tx unit :=
  match body e with
  | PlantRemoved plant_id _ => refs_remove t plant_id
  | _ =>
      facts ← garden_facts t e;
      match facts with
      | None => mret tt
      | Some f => let '(household_id, name, location) := f in
          refs_upsert t (mkPlantReference plant_id household_id name location (occurred_at e))
      end
  end.

(** ** The journal *)

Definition JournalEntryConsumer_handle (uuid5 : derived_name → uuid) (env : Env)
    (e : DomainEvent) : tx unit :=
  match body e with
  | PlantAdded plant_id _ _ _ _ _ | PlantMoved plant_id _ _ | PlantRemoved plant_id _ =>
      maintain_plant_reference journal_ref_table plant_id e
  | WateringCompleted plant_id completed_at _ =>
      plant ← refs_get journal_ref_table plant_id;
      match plant with
      | None => mret tt
      | Some _ =>
          _ ← record_journal_entry plant_id WATERING completed_at (env_now env) None
            (Some (watering_entry_id uuid5 plant_id completed_at)) (env_mint env 0)
            (env_mint env 1);
          mret tt
      end
  | _ => mret tt
  end.

Definition JournalEntryConsumer (uuid5 : derived_name → uuid) (env : Env) : Consumer :=
  mkConsumer "journal-entries" ["PlantAdded"; "PlantMoved"; "PlantRemoved"; "WateringCompleted"]
    (JournalEntryConsumer_handle uuid5 env).

(** ** Reminders *)

Definition UNREAD_GUARDED : list NotificationType := [SOIL_MOISTURE_LOW; TEMPERATURE_ANOMALY].

(** Whether a stored notification is of the type and about the plant. *)
Definition concerns (notification_type : NotificationType) (plant_id : PlantId)
    (n : Notification) : bool :=
  bool_decide (nt_notification_type n = notification_type) &&
  bool_decide (nt_payload n !! "plant_id"%string = Some (JUuid (uuid_value plant_id))).

Definition has_unread (household_id : HouseholdId) (notification_type : NotificationType)
    (plant_id : PlantId) : tx bool :=
  pending ← notifications_list_pending household_id None;
  mret (existsb (concerns notification_type plant_id) pending).

Definition NotificationConsumer_store (uuid5 : derived_name → uuid) (env : Env)
    (e : DomainEvent) (plant_id : PlantId) (notification_type : NotificationType)
    (payload : gmap string JsonValue) : tx unit :=
  let notification_id := notification_id_for uuid5 e in
  plant ← refs_get notification_ref_table plant_id;
  match plant with
  | None => mret tt
  | Some plant =>
      existing ← notifications_get notification_id;
      match existing with
      | Some _ => mret tt
      | None =>
          unread ← (if bool_decide (notification_type ∈ UNREAD_GUARDED)
                    then has_unread (pr_household_id plant) notification_type plant_id
                    else mret false);
          if (unread : bool) then mret tt
          else notifications_add (Notification_create (pr_household_id plant)
            notification_type (env_now env) (Some payload) (Some notification_id)
            (env_mint env 0) (env_mint env 1))
      end
  end.

(** The type and the payload of the reminder an event becomes.  The payload of every
    branch starts with the plant. *)
Definition reminder_of (e : DomainEvent) :
    option (PlantId * NotificationType * gmap string JsonValue) :=
  let about (p : PlantId) (l : list (string * JsonValue)) : gmap string JsonValue :=
    list_to_map (("plant_id"%string, JUuid (uuid_value p)) :: l) in
  match body e with
  | WateringDue p due_at => Some (p, WATERING_DUE, about p [("due_at"%string, JTime due_at)])
  | WateringRescheduled p previous next reason =>
      Some (p, WATERING_RESCHEDULED, about p
        [("previous_next_watering_at"%string, JTime previous);
         ("next_watering_at"%string, JTime next);
         ("reason"%string, match reason with Some r => JStr r | None => JNull end)])
  | CareMissed p next => Some (p, CARE_MISSED, about p [("next_watering_at"%string, JTime next)])
  | SoilMoistureLow _ p moisture threshold =>
      Some (p, SOIL_MOISTURE_LOW, about p
        [("moisture"%string, JFloat (moisture_value moisture));
         ("threshold"%string, JFloat threshold)])
  | TemperatureAnomaly _ p temperature low high =>
      Some (p, TEMPERATURE_ANOMALY, about p
        [("temperature"%string, JFloat (temperature_value temperature));
         ("low_threshold"%string, JFloat low); ("high_threshold"%string, JFloat high)])
  | SensorOffline _ p last_seen_at offline_for =>
      Some (p, SENSOR_OFFLINE, about p
        [("last_seen_at"%string, JTime last_seen_at);
         ("offline_for_seconds"%string, JSeconds offline_for)])
  | _ => None
  end.

Definition NotificationConsumer_handle (uuid5 : derived_name → uuid) (env : Env)
    (e : DomainEvent) : tx unit :=
  match body e with
  | PlantAdded plant_id _ _ _ _ _ | PlantMoved plant_id _ _ | PlantRemoved plant_id _ =>
      maintain_plant_reference notification_ref_table plant_id e
  | _ =>
      match reminder_of e with
      | None => mret tt
      | Some r => let '(plant_id, notification_type, payload) := r in
          NotificationConsumer_store uuid5 env e plant_id notification_type payload
      end
  end.

Definition NotificationConsumer (uuid5 : derived_name → uuid) (env : Env) : Consumer :=
  mkConsumer "notifications" ["PlantAdded"; "PlantMoved"; "PlantRemoved"; "WateringDue";
    "WateringRescheduled"; "CareMissed"; "SoilMoistureLow"; "TemperatureAnomaly";
    "SensorOffline"] (NotificationConsumer_handle uuid5 env).

(** ** Lemmas *)

#[export] Hint Unfold garden_facts maintain_plant_reference has_unread
  NotificationConsumer_store : repo.

(** *** Every consumer satisfies the interface of the subscriber *)

Lemma refs_remove_handler t p :
  t = journal_ref_table ∨ t = notification_ref_table → Handler (refs_remove t p).
Proof. intros [->| ->]; handler. Qed.

Lemma maintain_handler t p e :
  t = journal_ref_table ∨ t = notification_ref_table → Handler (maintain_plant_reference t p e).
Proof.
  intros Ht. unfold maintain_plant_reference, garden_facts.
  destruct (body e); try (by apply refs_remove_handler);
    destruct Ht as [->| ->]; handler.
Qed.

Lemma NotificationConsumer_handler uuid5 env e : Handler (NotificationConsumer_handle uuid5 env e).
Proof.
  unfold NotificationConsumer_handle.
  assert (Handler match reminder_of e with None => mret tt | Some r => let '(p, ty, payload) := r in
    NotificationConsumer_store uuid5 env e p ty payload end) as Hs
    by (destruct (reminder_of e) as [[[p ty] payload]|]; handler).
  destruct (body e); try exact Hs; apply maintain_handler; by right.
Qed.

#[export] Instance load_journal_silent p : Silent (load_journal_aggregate p).
Proof. unfold load_journal_aggregate. stage. Qed.

Lemma record_journal_entry_handler p ty at_ now note i m k :
  Handler (_ ← record_journal_entry p ty at_ now note i m k; mret tt).
Proof.
  unfold record_journal_entry. split; [|stage].
  split; unfold load_journal_aggregate; stage.
Qed.

Lemma JournalEntryConsumer_handler uuid5 env e : Handler (JournalEntryConsumer_handle uuid5 env e).
Proof.
  unfold JournalEntryConsumer_handle.
  destruct (body e); try (by apply maintain_handler; left); try handler.
  pose proof (record_journal_entry_handler plant_id WATERING completed_at (env_now env) None
    (Some (watering_entry_id uuid5 plant_id completed_at)) (env_mint env 0) (env_mint env 1))
    as [[? ? ?] ?]. handler.
Qed.

(** *** The reminders of a plant *)

(** An unread row of the household, of the type, about the plant. *)
Definition unread_about (household_id : uuid) (ty : NotificationType) (plant_id : uuid)
    (m : NotificationModel) : Prop :=
  nm_household_id m = household_id ∧ nm_notification_type m = NotificationType_value ty ∧
  nm_read_at m = None ∧ nm_payload m !! "plant_id"%string = Some (JUuid plant_id).

(** Rows are keyed by their identifier, and a guarded type has at most one unread row
    per household and plant. *)
Record one_unread (t : gmap uuid NotificationModel) : Prop := mkOneUnread {
  ou_keyed : ∀ k m, t !! k = Some m → nm_id m = k;
  ou_unique : ∀ h ty p k1 k2 m1 m2, ty ∈ UNREAD_GUARDED →
    t !! k1 = Some m1 → t !! k2 = Some m2 →
    unread_about h ty p m1 → unread_about h ty p m2 → k1 = k2 }.

Lemma mapM_result_elem {A B} (f : A → result B) l l' a :
  mapM_result f l = Ok l' → a ∈ l → ∃ b, f a = Ok b ∧ b ∈ l'.
Proof.
  revert l'. induction l as [|x l IH]; intros l' H Ha; [by apply not_elem_of_nil in Ha|].
  cbn in H. apply bind_Ok in H as (b & Hb & H). apply bind_Ok in H as (bs & Hbs & [= <-]).
  apply elem_of_cons in Ha as [->|Ha]; [exists b; split; [done|by left]|].
  destruct (IH bs Hbs Ha) as (b' & ? & ?). exists b'. split; [done|by right].
Qed.

Lemma NotificationType_value_inj a b :
  NotificationType_value a = NotificationType_value b → a = b.
Proof.
  intros H. assert (NotificationType_parse (NotificationType_value a) =
    NotificationType_parse (NotificationType_value b)) as E by (by rewrite H).
  rewrite !NotificationType_roundtrip in E. by injection E.
Qed.

(** When [has_unread] answers no, no unread row is about the plant. *)
Lemma has_unread_inv h ty p s u s' :
  has_unread h ty p s = (Ok u, s') →
  s' = s ∧ (u = false → ∀ k m, db_notifications (ss_view s) !! k = Some m →
    ¬ unread_about (uuid_value h) ty (uuid_value p) m).
Proof.
  unfold has_unread, notifications_list_pending. intros H. tx_inv.
  match goal with H : mapM_result _ _ = Ok _ |- _ => rename H into Hrows end.
  split; [done|]. intros Hex k m Hk (Hh & Hty & Hr & Hp).
  assert (m ∈ pending_rows (ss_view s) h None) as Hm.
  { apply elem_of_select_rows. split; [|by exists k]. by rewrite !bool_decide_true. }
  destruct (mapM_result_elem _ _ _ _ Hrows Hm) as (n & Hn & Hin).
  assert (existsb (concerns ty p) x = true) as Ht; [|by rewrite Ht in Hex].
  apply existsb_exists. exists n. split; [by apply list_elem_of_In|].
  unfold notification_to_domain in Hn. rewrite Hty, NotificationType_roundtrip in Hn.
  injection Hn as <-. unfold concerns. cbn. by rewrite !bool_decide_true.
Qed.

(** What the store of a reminder does to the view. *)
Lemma store_inv uuid5 env e p ty payload s s' :
  NotificationConsumer_store uuid5 env e p ty payload s = (Ok tt, s') → ss_conflict s' = false →
  db_notifications (ss_view s') = db_notifications (ss_view s) ∨
  ∃ r n, db_notification_refs (ss_view s) !! uuid_value p = Some r ∧
    nt_id n = notification_id_for uuid5 e ∧
    db_notifications (ss_view s) !! uuid_value (nt_id n) = None ∧
    db_notifications (ss_view s') =
      <[uuid_value (nt_id n) := notification_to_model n]> (db_notifications (ss_view s)) ∧
    nt_household_id n = pr_household_id r ∧ nt_notification_type n = ty ∧
    nt_payload n = payload ∧ nt_read_at n = None ∧
    (ty ∈ UNREAD_GUARDED → ∀ k m, db_notifications (ss_view s) !! k = Some m →
       ¬ unread_about (uuid_value (pr_household_id r)) ty (uuid_value p) m).
Proof.
  unfold NotificationConsumer_store. intros (plant & s1 & Hr & H)%tx_bind_inv Hc.
  apply query_inv in Hr as (-> & -> & _). cbn [rt_get notification_ref_table] in H.
  destruct (db_notification_refs (ss_view s) !! _) as [r|] eqn:Er; [|tx_inv; by left].
  apply tx_bind_inv in H as (existing & s1 & Hg & H). unfold notifications_get in Hg. tx_inv.
  destruct (db_notifications (ss_view s) !! _) as [m0|] eqn:Em.
  { cbn in *. destruct existing; [tx_inv; by left|]. by destruct (notification_to_domain m0). }
  cbn in *. simplify_eq. apply tx_bind_inv in H as (unread & s2 & Hu & H).
  assert (s2 = s ∧ (unread = false → ty ∈ UNREAD_GUARDED → ∀ k m,
    db_notifications (ss_view s) !! k = Some m →
    ¬ unread_about (uuid_value (pr_household_id r)) ty (uuid_value p) m)) as [-> Hfree].
  { case_bool_decide; [|tx_inv; split; [done|by intros]]. apply has_unread_inv in Hu as [-> Hu].
    split; [done|]. intros Hf _. by apply Hu. }
  destruct unread; [tx_inv; by left|]. right.
  apply execute_track_inv in H as (_ & Hw & _); [|done]. unfold insert_row in Hw.
  set (n := Notification_create _ _ _ _ _ _ _) in Hw. exists r, n. cbn in Hw. rewrite Em in Hw.
  injection Hw as <-. split_and!; try done. by apply Hfree.
Qed.

Lemma maintain_notifications t p e s s' :
  t = journal_ref_table ∨ t = notification_ref_table → coherent s →
  maintain_plant_reference t p e s = (Ok tt, s') → ss_conflict s' = false →
  db_notifications (ss_view s') = db_notifications (ss_view s).
Proof.
  intros Ht Hs. apply (keeps_view db_notifications); [|by apply maintain_handler|done].
  unfold maintain_plant_reference, garden_facts.
  destruct (body e), Ht as [->| ->]; stage.
Qed.

(** *** Deliveries and acknowledgements *)

(** What touches the reminders: a delivery to the consumer in some group, or a household
    acknowledging one. *)
Inductive reminder_op :=
  | DeliverReminder (group : string) (ctx : MessageContext) (env : Env) (e : DomainEvent)
  | AcknowledgeReminder (notification_id : NotificationId) (env : Env).

Definition reminder_step (uuid5 : derived_name → uuid) (d : Database) (op : reminder_op) :
    Database :=
  match op with
  | DeliverReminder group ctx env e =>
      (run_once group ctx (event_id e) (NotificationConsumer_handle uuid5 env e) d).2
  | AcknowledgeReminder n env => (run_request (AcknowledgeNotificationHandler n env) d).2
  end.

Definition run_reminders (uuid5 : derived_name → uuid) (d : Database) (ops : list reminder_op) :
    Database := foldl (reminder_step uuid5) d ops.

Lemma one_unread_insert t n :
  one_unread t → t !! uuid_value (nt_id n) = None → nt_read_at n = None →
  (∀ p, nt_payload n !! "plant_id"%string = Some (JUuid p) →
     nt_notification_type n ∈ UNREAD_GUARDED → ∀ k m, t !! k = Some m →
     ¬ unread_about (uuid_value (nt_household_id n)) (nt_notification_type n) p m) →
  one_unread (<[uuid_value (nt_id n) := notification_to_model n]> t).
Proof.
  intros [Hk Hu] Hnew Hr Hfree. split.
  - intros k m. rewrite lookup_insert. case_decide; [by intros [= <-]|apply Hk].
  - assert (∀ h ty p k m, ty ∈ UNREAD_GUARDED → t !! k = Some m →
      unread_about h ty p (notification_to_model n) → unread_about h ty p m → False) as Hno.
    { intros h ty p k m Hg Hm (Hh & Hty & _ & Hp) Hum. cbn in Hh, Hty, Hp.
      apply NotificationType_value_inj in Hty. subst. by eapply Hfree. }
    intros h ty p k1 k2 m1 m2 Hg. rewrite !lookup_insert.
    repeat case_decide; subst; [done|..].
    + intros [= <-] H2 Hu1 Hu2. exfalso. by eapply (Hno h ty p k2 m2).
    + intros H1 [= <-] Hu1 Hu2. exfalso. by eapply (Hno h ty p k1 m1).
    + by apply (Hu h ty p).
Qed.

Lemma reminder_of_plant e p ty payload :
  reminder_of e = Some (p, ty, payload) →
  payload !! "plant_id"%string = Some (JUuid (uuid_value p)).
Proof.
  unfold reminder_of. intros H. destruct (body e); try discriminate H; injection H as <- <- <-;
    cbn; apply lookup_insert_eq.
Qed.

Lemma deliver_reminder_effect uuid5 g ctx env e d :
  let d' := (run_once g ctx (event_id e) (NotificationConsumer_handle uuid5 env e) d).2 in
  db_notifications d' = db_notifications d ∨
  ∃ n, nt_id n = notification_id_for uuid5 e ∧
    db_notifications d !! uuid_value (nt_id n) = None ∧
    db_notifications d' = <[uuid_value (nt_id n) := notification_to_model n]> (db_notifications d) ∧
    nt_read_at n = None ∧
    ∀ p, nt_payload n !! "plant_id"%string = Some (JUuid p) →
      nt_notification_type n ∈ UNREAD_GUARDED → ∀ k m, db_notifications d !! k = Some m →
      ¬ unread_about (uuid_value (nt_household_id n)) (nt_notification_type n) p m.
Proof.
  intros d'. destruct (run_once _ _ _ _ d) as [r d1] eqn:Er. cbn in d'. subst d'.
  apply run_once_inv in Er as [[-> _]|(s & _ & Hh & Hc & _ & _ & _ & Hd)];
    [by left| |apply NotificationConsumer_handler].
  assert (db_notifications d1 = db_notifications (ss_view s)) as -> by (by rewrite Hd).
  unfold NotificationConsumer_handle in Hh.
  assert ((∃ t p, (t = journal_ref_table ∨ t = notification_ref_table) ∧
      maintain_plant_reference t p e (claimed_session d g (event_id e) (Some ctx) []) = (Ok tt, s)) ∨
    (∃ p ty payload, reminder_of e = Some (p, ty, payload) ∧ NotificationConsumer_store uuid5 env e
      p ty payload (claimed_session d g (event_id e) (Some ctx) []) = (Ok tt, s)) ∨
    s = claimed_session d g (event_id e) (Some ctx) []) as [(t & p & Ht & Hm)|[(p & ty & payload & Hre & Hs)| ->]].
  { destruct (reminder_of e) as [[[p ty] payload]|] eqn:Hre;
      destruct (body e) eqn:Hbody; first
      [left; eexists notification_ref_table, _; split; [by right|exact Hh]
      |right; left; eexists _, _, _; split; [done|exact Hh]
      |right; right; by injection Hh as ->]. }
  - left. by apply maintain_notifications in Hm.
  - apply store_inv in Hs as [Hs|(r' & n & _ & Hid & Hnew & Hins & Hhh & Hty & Hpl & Hrd & Hfree)];
      [by left| |done].
    right. exists n. split_and!; try done. intros q Hq Hg k m Hk.
    rewrite Hpl, (reminder_of_plant _ _ _ _ Hre) in Hq. injection Hq as <-.
    rewrite Hhh, Hty. rewrite Hty in Hg. by eapply Hfree.
  - by left.
Qed.

Lemma one_unread_read t k m' :
  one_unread t → nm_id m' = k → nm_read_at m' ≠ None → one_unread (<[k := m']> t).
Proof.
  intros [Hk Hu] Hid Hread. split.
  - intros k1 m. rewrite lookup_insert. case_decide; [by intros [= <-]; subst|apply Hk].
  - intros h ty p k1 k2 m1 m2 Hg. rewrite !lookup_insert.
    repeat case_decide; subst; [done|..].
    + intros [= <-] _ (_ & _ & ? & _). done.
    + intros _ [= <-] _ (_ & _ & ? & _). done.
    + by apply (Hu h ty p).
Qed.

(** A row read at [t]. *)
Definition read_row (m : NotificationModel) (t : datetime) : NotificationModel :=
  mkNotificationModel (nm_id m) (nm_household_id m) (nm_notification_type m) (nm_payload m)
    (nm_created_at m) (Some t).

Lemma acknowledge_effect n env d :
  (∀ k m, db_notifications d !! k = Some m → nm_id m = k) →
  let d' := (run_request (AcknowledgeNotificationHandler n env) d).2 in
  db_notifications d' = db_notifications d ∨
  ∃ m, db_notifications d !! uuid_value n = Some m ∧ nm_read_at m = None ∧
    db_notifications d' = <[uuid_value n := read_row m (env_now env)]> (db_notifications d).
Proof.
  intros Hk d'. unfold AcknowledgeNotificationHandler in d'.
  destruct (transaction_outcome (AcknowledgeNotification_body n env) d
    ltac:(unfold AcknowledgeNotification_body, require; stage)
    ltac:(unfold AcknowledgeNotification_body, require; stage))
    as [[Hd|(v & s & _ & Hb & Hc & Hrows & _)] _]; fold d' in Hd || fold d' in Hrows; [by left; rewrite Hd|right].
  assert (db_notifications d' = db_notifications (ss_view s)) as -> by (by rewrite Hrows).
  unfold AcknowledgeNotification_body, notifications_get_for_update, notifications_get,
    require in Hb.
  apply tx_bind_inv in Hb as (found & s1 & Hg & Hb). tx_inv.
  cbn [ss_view open_session] in *.
  destruct found as [n0|]; [|discriminate]. tx_inv.
  match goal with H : opt_to_domain _ _ = Ok _ |- _ => rename H into Hload end.
  match goal with H : Notification_mark_read _ _ _ = Ok ?x |- _ =>
    rename x into n1, H into Hmark end.
  match goal with H : notifications_save _ _ = (Ok _, ?x) |- _ => rename H into Hsave end.
  apply execute_track_inv in Hsave as (_ & Hw & _); [|done]. injection Hw as Hw.
  destruct (db_notifications d !! uuid_value n) as [m|] eqn:Em; [|done].
  cbn in Hload. destruct (notification_to_domain m) as [q|] eqn:Eq; [|done]. injection Hload as ->.
  unfold notification_to_domain in Eq. apply bind_Ok in Eq as (ty & Hty & [= <-]).
  unfold Notification_mark_read in Hmark. cbn in Hmark.
  destruct (nm_read_at m) eqn:Hr; [done|]. injection Hmark as <-.
  exists m. split; [done|]. split; [done|]. rewrite <- Hw.
  unfold read_row, notification_to_model. cbn.
  by rewrite (NotificationType_parse_value _ _ Hty), (Hk _ _ Em).
Qed.

Lemma reminder_step_one_unread uuid5 d op :
  one_unread (db_notifications d) → one_unread (db_notifications (reminder_step uuid5 d op)).
Proof.
  intros Hd. destruct op as [g ctx env e|n env]; cbn.
  - destruct (deliver_reminder_effect uuid5 g ctx env e d) as
      [->|(x & Hid & Hnew & -> & Hr & Hfree)]; [done|]. by apply one_unread_insert.
  - destruct (acknowledge_effect n env d (ou_keyed _ Hd)) as [->|(m & Hm & _ & ->)]; [done|].
    apply one_unread_read; [done|exact (ou_keyed _ Hd _ _ Hm)|done].
Qed.

(** How a stored reminder may change: not at all, or from unread to read. *)
Definition reminder_kept (t t' : gmap uuid NotificationModel) : Prop :=
  ∀ k m, t !! k = Some m → ∃ m', t' !! k = Some m' ∧
    (m' = m ∨ nm_read_at m = None ∧ ∃ at_, m' = read_row m at_).

#[export] Instance reminder_kept_preorder : PreOrder reminder_kept.
Proof.
  split; [intros t k m Hm; eauto|]. intros t1 t2 t3 H12 H23 k m Hm.
  destruct (H12 k m Hm) as (m2 & Hm2 & H2). destruct (H23 k m2 Hm2) as (m3 & Hm3 & H3).
  exists m3. split; [done|]. destruct H2 as [->|(Hn & at_ & ->)]; [done|].
  destruct H3 as [->|(? & _)]; [eauto|done].
Qed.

Lemma reminder_step_kept uuid5 d op :
  one_unread (db_notifications d) →
  reminder_kept (db_notifications d) (db_notifications (reminder_step uuid5 d op)).
Proof.
  intros Hd. destruct op as [g ctx env e|n env]; cbn.
  - destruct (deliver_reminder_effect uuid5 g ctx env e d) as
      [->|(x & Hid & Hnew & -> & _)]; [done|]. intros k m Hm. exists m. split; [|by left].
    rewrite lookup_insert_ne; [done|congruence].
  - destruct (acknowledge_effect n env d (ou_keyed _ Hd)) as [->|(m & Hm & Hn & ->)]; [done|].
    intros k m' Hm'. rewrite lookup_insert. case_decide as Hk; [subst k|by eauto].
    rewrite Hm in Hm'. injection Hm' as <-. eexists. split; [done|]. right. eauto.
Qed.

(** *** Waterings in the journal *)

(** What a watering's delivery asks of the journal. *)
Definition watering_add (uuid5 : derived_name → uuid) (env : Env) (plant_id : PlantId)
    (completed_at : datetime) : journal_add :=
  mkJournalAdd WATERING completed_at (env_now env) None
    (Some (watering_entry_id uuid5 plant_id completed_at)) (env_mint env 0) (env_mint env 1).

(** The journal of the plant holds the watering's entry. *)
Definition watering_journaled (uuid5 : derived_name → uuid) (d : Database) (plant_id : PlantId)
    (completed_at : datetime) : Prop :=
  ∃ es a, journal_ok d plant_id es a ∧
    is_Some (JournalAggregate_entry a (watering_entry_id uuid5 plant_id completed_at)).

(** One delivery of a watering: the store stays well kept, and the entry is there when
    the plant is known. *)
Lemma watering_delivered uuid5 g ctx env e d d' pid t next :
  journals_ok d → body e = WateringCompleted pid t next →
  run_once g ctx (event_id e) (JournalEntryConsumer_handle uuid5 env e) d = (Ok true, d') →
  journals_ok d' ∧ db_journal_refs d' = db_journal_refs d ∧
  (is_Some (db_journal_refs d !! uuid_value pid) → watering_journaled uuid5 d' pid t).
Proof.
  intros [Hk Hall] Hbody Hrun. pose proof (JournalEntryConsumer_handler uuid5 env e) as Hh.
  apply run_once_inv in Hrun as [[_ ?]|(s & _ & Hs & Hc & _ & _ & _ & Hd)]; [done| |done].
  set (s0 := claimed_session d g (event_id e) (Some ctx) []) in Hs.
  assert (db_journal_refs d' = db_journal_refs d) as Hrefs.
  { transitivity (db_journal_refs (ss_view s)); [by rewrite Hd|].
    apply (keeps_view db_journal_refs (JournalEntryConsumer_handle uuid5 env e) s0 (Ok tt));
      [|apply _|done..].
    unfold JournalEntryConsumer_handle. rewrite Hbody. stage. }
  assert (db_event_store d' = db_event_store (ss_view s) ∧
    db_snapshots d' = db_snapshots (ss_view s)) as [He Hsn] by (by rewrite Hd).
  unfold JournalEntryConsumer_handle in Hs. rewrite Hbody in Hs.
  apply tx_bind_inv in Hs as (plant & s1 & (-> & -> & _)%query_inv & Hs).
  cbn [rt_get journal_ref_table] in Hs. change (db_journal_refs (ss_view s0)) with
    (db_journal_refs d) in Hs.
  destruct (db_journal_refs d !! uuid_value pid) eqn:Er.
  2:{ apply tx_ret_inv in Hs as [_ ->]. split; [by apply (journals_ok_ext d)|].
      split; [done|]. by intros [? ?]. }
  apply tx_bind_inv in Hs as (entry & s1 & Hrec & [_ ->]%tx_ret_inv).
  destruct (Hall pid) as (es & a & Hok).
  assert (journal_ok (ss_view s0) pid es a) as Hok0 by (by apply (journal_ok_ext d)).
  destruct (record_inv s0 pid (watering_add uuid5 env pid t) es a entry s1 eq_refl eq_refl Hk Hok0
    Hrec Hc) as (b & Hba & Hwf & [[-> (i & [= <-] & Hfind)]|Happ]).
  - split; [by apply (journals_ok_ext d)|]. split; [done|]. intros _. exists es, a.
    split; [by apply (journal_ok_ext d)|].
    destruct (replay_wf _ _ _ (empty_journal_wf _) (jok_replay _ _ _ _ Hok)) as (Hwfa & _ & _).
    destruct (journal_equiv_answers _ _ Hwf Hwfa Hba) as [_ <-]. by exists entry.
  - pose proof Happ as (_ & _ & _ & _ & _ & _ & Hid & _).
    destruct (appended_replay _ _ _ _ _ _ _ _ Hok0 Hba Hwf Happ)
      as (added & e' & a' & pos & Hrep & _ & Hfind & _ & _ & _ & Hst & Hsnap).
    assert (journals_ok (ss_view s0)) as Hok1 by (by apply (journals_ok_ext d)).
    destruct (journals_ok_append _ (ss_view s1) _ es a e' a' pos Hok1 Hok0 Hrep Hst Hsnap)
      as [Hall' Hok'].
    split; [by apply (journals_ok_ext (ss_view s1))|]. split; [done|]. intros _.
    exists (es ++ [e']), a'. split; [by apply (journal_ok_ext (ss_view s1))|].
    rewrite (Hid _ eq_refl) in Hfind. by exists entry.
Qed.

(** A delivery of a watering whose entry is there, or whose plant is unknown, writes
    nothing but its claim. *)
Lemma watering_redelivered uuid5 g ctx env e d r d' pid t next :
  journals_ok d → body e = WateringCompleted pid t next →
  db_journal_refs d !! uuid_value pid = None ∨ watering_journaled uuid5 d pid t →
  run_once g ctx (event_id e) (JournalEntryConsumer_handle uuid5 env e) d = (r, d') →
  d' = d ∨ d' = claim_only d g (event_id e).
Proof.
  intros [Hk Hall] Hbody Hdone Hrun.
  pose proof (JournalEntryConsumer_handler uuid5 env e) as Hh.
  apply run_once_inv in Hrun as [[-> _]|(s & _ & Hs & Hc & _ & Hrep & _)]; [by left|right|done].
  set (s0 := claimed_session d g (event_id e) (Some ctx) []) in Hs.
  assert (s = s0) as ->; [|by injection Hrep as <-].
  unfold JournalEntryConsumer_handle in Hs. rewrite Hbody in Hs.
  apply tx_bind_inv in Hs as (plant & s1 & (-> & -> & _)%query_inv & Hs).
  cbn [rt_get journal_ref_table] in Hs. change (db_journal_refs (ss_view s0)) with
    (db_journal_refs d) in Hs.
  destruct Hdone as [Hno|(es & a & Hok & entry & Hfind)].
  { rewrite Hno in Hs. by apply tx_ret_inv in Hs as [_ ->]. }
  destruct (db_journal_refs d !! uuid_value pid); [|by apply tx_ret_inv in Hs as [_ ->]].
  assert (journal_ok (ss_view s0) pid es a) as Hok0 by (by apply (journal_ok_ext d)).
  destruct (load_run s0 pid es a eq_refl Hk Hok0) as (b & Hload & Hba & Hwf).
  destruct (replay_wf _ _ _ (empty_journal_wf _) (jok_replay _ _ _ _ Hok)) as (Hwfa & _ & _).
  destruct (journal_equiv_answers _ _ Hwf Hwfa Hba) as [_ Hent].
  unfold record_journal_entry in Hs. rewrite (tx_bind_Ok _ _ _ entry s0) in Hs;
    [by apply tx_ret_inv in Hs as [_ ->]|].
  rewrite (tx_bind_Ok _ _ _ _ _ Hload). cbn [mbind option_bind]. by rewrite Hent, Hfind.
Qed.

(** *** The reference rows *)

(** Abstractly: what one garden fact does to a reference table. *)
Definition reference_effect (e : DomainEvent) (t : gmap uuid PlantReference) :
    gmap uuid PlantReference :=
  match body e with
  | PlantRemoved p _ => delete (uuid_value p) t
  | PlantAdded p h _ name location _ =>
      upsert_reference (mkPlantReference p h name (location_value location) (occurred_at e)) t
  | PlantMoved p _ location =>
      match t !! uuid_value p with
      | None => t
      | Some r => upsert_reference (mkPlantReference p (pr_household_id r) (pr_name r)
          (location_value location) (occurred_at e)) t
      end
  | _ => t
  end.

Definition is_ref_table (t : ref_table) : Prop :=
  t = journal_ref_table ∨ t = notification_ref_table.

(** The plant a garden fact is about; the reference consumers only see these. *)
Definition garden_fact (p : PlantId) (e : DomainEvent) : Prop :=
  match body e with
  | PlantAdded q _ _ _ _ _ | PlantMoved q _ _ | PlantRemoved q _ => q = p
  | _ => False
  end.

(** A delivery to a context's reference consumer. *)
Definition reference_step (t : ref_table) (ctx : MessageContext) (p : PlantId) (d : Database)
    (op : string * DomainEvent) : Database :=
  (run_once op.1 ctx (event_id op.2) (maintain_plant_reference t p op.2) d).2.

Lemma maintain_run t p e s :
  is_ref_table t → garden_fact p e → ss_conflict s = false →
  ∃ s', maintain_plant_reference t p e s = (Ok tt, s') ∧ ss_conflict s' = false ∧
    ss_tracked s' = ss_tracked s ∧
    rt_get t (ss_view s') = reference_effect e (rt_get t (ss_view s)).
Proof.
  intros Ht Hg Hc. unfold maintain_plant_reference, garden_facts, reference_effect.
  assert (∀ d m, rt_get t (rt_set t d m) = m) as Hgs by (destruct Ht as [->| ->]; done).
  unfold garden_fact in Hg. destruct (body e) as [q h sp n l at_|q at_|q l l'| | | | | | | | | | | | |
    | | | | | | | | | | | |]; try done; subst q.
  - eexists. unfold refs_upsert, flush, query, execute, mbind, tx_bind. cbn. rewrite Hc. cbn.
    split_and!; [done..|]. apply Hgs.
  - eexists. unfold refs_remove, flush, query, execute, mbind, tx_bind. rewrite Hc. cbn.
    split_and!; [done..|]. apply Hgs.
  - unfold refs_get, refs_upsert, flush, query, execute, mbind, tx_bind. rewrite Hc. cbn.
    destruct (rt_get t (ss_view s) !! uuid_value p) as [r|]; cbn; [|by exists s].
    eexists. rewrite Hc. cbn. split_and!; [done..|]. apply Hgs.
Qed.

Lemma reference_step_run t ctx p d g e :
  is_ref_table t → garden_fact p e →
  rt_get t (reference_step t ctx p d (g, e)) =
    (if decide ((g, event_id e) ∈ db_processed_events d) then rt_get t d
     else reference_effect e (rt_get t d)) ∧
  db_processed_events (reference_step t ctx p d (g, e)) =
    {[(g, event_id e)]} ∪ db_processed_events d.
Proof.
  intros Ht Hg. unfold reference_step; cbn [fst snd]. case_decide as Hin.
  { assert (run_once g ctx (event_id e) (maintain_plant_reference t p e) d = (Ok false, d)) as ->.
    { unfold run_once, consume_once, with_uow.
      change (uow_enter (open_session d (Some ctx) id)) with (open_session d (Some ctx) id).
      rewrite (tx_bind_Ok _ _ _ _ _ (claim_open g (event_id e) d (Some ctx))).
      by rewrite bool_decide_true. }
    split; [done|]. cbn. set_solver. }
  set (s0 := claimed_session d g (event_id e) (Some ctx) []).
  destruct (maintain_run t p e s0 Ht Hg eq_refl) as (s' & Hm & Hc & Htr & Hget).
  rewrite (run_once_view (maintain_plant_reference t p e) d g (event_id e) ctx s'); try done.
  - cbn [snd]. rewrite Hget. split; [by destruct Ht as [->| ->]|].
    apply (keeps_view db_processed_events (maintain_plant_reference t p e) s0 (Ok tt));
      [|by apply maintain_handler|done..].
    unfold maintain_plant_reference, garden_facts. destruct (body e), Ht as [->| ->]; stage.
  - by apply maintain_handler.
  - unfold tracked_events. by rewrite Htr.
Qed.

(** The row of the plant is at least as new as an event. *)
Definition as_new_as (t : gmap uuid PlantReference) (p : PlantId) (e : DomainEvent) : Prop :=
  ∃ r, t !! uuid_value p = Some r ∧ (occurred_at e ≤ pr_seen_at r)%Z.

Lemma reference_effect_stale t p e :
  garden_fact p e → (∀ at_, body e ≠ PlantRemoved p at_) → as_new_as t p e →
  reference_effect e t = t.
Proof.
  unfold garden_fact, reference_effect. intros Hg Hr (r & Hp & Hle).
  destruct (body e) as [q h sp n l at_|q at_|q l l'| | | | | | | | | | | | |
    | | | | | | | | | | | |]; try done; subst q.
  - unfold upsert_reference. cbn. rewrite Hp, decide_False; [done|lia].
  - by destruct (Hr at_).
  - rewrite Hp. unfold upsert_reference. cbn. rewrite Hp, decide_False; [done|lia].
Qed.

Lemma reference_effect_newer t p e e' :
  garden_fact p e' → (∀ at_, body e' ≠ PlantRemoved p at_) →
  as_new_as t p e → as_new_as (reference_effect e' t) p e.
Proof.
  unfold garden_fact, reference_effect. intros Hg Hr (r & Hp & Hle).
  destruct (body e') as [q h sp n l at_|q at_|q l l'| | | | | | | | | | | | |
    | | | | | | | | | | | |]; try done; subst q;
    [|by destruct (Hr at_)|]; rewrite ?Hp; unfold upsert_reference; cbn; rewrite ?Hp;
    (case_decide; [|by exists r]); eexists; (split; [apply lookup_insert_eq|cbn; lia]).
Qed.

Lemma reference_effect_recorded t p e :
  garden_fact p e → (∀ at_, body e ≠ PlantRemoved p at_) →
  (∃ r, t !! uuid_value p = Some r) ∨ (∃ h sp n l at_, body e = PlantAdded p h sp n l at_) →
  as_new_as (reference_effect e t) p e.
Proof.
  intros Hg Hr Hk. unfold reference_effect, as_new_as. unfold garden_fact in Hg.
  destruct (body e) as [q h sp n l at_|q at_|q l l'| | | | | | | | | | | | |
    | | | | | | | | | | | |]; try done; subst q; [|by destruct (Hr at_)|].
  - unfold upsert_reference. cbn. destruct (t !! uuid_value p) as [r|] eqn:E;
      [case_decide; [|exists r; split; [done|lia]]|];
      eexists; (split; [apply lookup_insert_eq|cbn; lia]).
  - destruct Hk as [[r E]|(? & ? & ? & ? & ? & ?)]; [|done]. rewrite E.
    unfold upsert_reference. cbn. rewrite E. case_decide; [|exists r; split; [done|lia]].
    eexists; (split; [apply lookup_insert_eq|cbn; lia]).
Qed.

(** A fact about the plant that is not its removal. *)
Definition kept_fact (p : PlantId) (e : DomainEvent) : Prop :=
  garden_fact p e ∧ ∀ at_, body e ≠ PlantRemoved p at_.

(** Deliveries to one group of facts it has not claimed, to a context that has the row. *)
Lemma reference_deliveries t ctx p g es seen d :
  is_ref_table t → Forall (kept_fact p) es → NoDup (event_id <$> es) →
  (∀ e, e ∈ es → (g, event_id e) ∉ db_processed_events d) →
  seen ≠ [] → Forall (as_new_as (rt_get t d) p) seen →
  Forall (as_new_as (rt_get t (foldl (reference_step t ctx p) d ((λ e, (g, e)) <$> es))) p)
    (seen ++ es).
Proof.
  intros Ht. revert seen d. induction es as [|e es IH]; intros seen d Hk Hnd Hnew Hne Hs.
  { by rewrite app_nil_r. }
  apply Forall_cons in Hk as [[Hg Hr] Hk]. apply NoDup_cons in Hnd as [Hid Hnd].
  destruct (reference_step_run t ctx p d g e Ht Hg) as [Hget Hpr].
  rewrite decide_False in Hget by (apply Hnew; by left).
  cbn [fmap list_fmap foldl]. rewrite cons_middle, app_assoc. apply IH; try done.
  - intros e' He'. rewrite Hpr. intros [Heq%elem_of_singleton|Hin]%elem_of_union.
    + injection Heq as Heq. apply Hid, list_elem_of_fmap. by exists e'.
    + apply (Hnew e'); [by right|done].
  - by destruct seen.
  - rewrite Hget. apply Forall_app. split.
    + eapply Forall_impl; [exact Hs|]. intros x. by apply reference_effect_newer.
    + apply Forall_singleton, reference_effect_recorded; [done..|].
      destruct seen as [|x seen]; [done|]. apply Forall_cons in Hs as [(r & ? & _) _].
      left. by exists r.
Qed.

Lemma reference_redeliveries t ctx p es ops d :
  is_ref_table t → Forall (kept_fact p) es → Forall (as_new_as (rt_get t d) p) es →
  Forall (λ op, op.2 ∈ es) ops →
  rt_get t (foldl (reference_step t ctx p) d ops) = rt_get t d.
Proof.
  intros Ht Hk. revert d. induction ops as [|[g e] ops IH]; intros d Hnew Hops; [done|].
  apply Forall_cons in Hops as [He Hops]. cbn in He |- *.
  rewrite Forall_forall in Hk, Hnew. destruct (Hk e He) as [Hg Hr].
  destruct (reference_step_run t ctx p d g e Ht Hg) as [Hget _].
  rewrite (reference_effect_stale _ p e Hg Hr (Hnew e He)) in Hget.
  assert (rt_get t (reference_step t ctx p d (g, e)) = rt_get t d) as Hsame
    by (by rewrite Hget; case_decide).
  rewrite IH; [done| |done]. rewrite Hsame. by apply Forall_forall.
Qed.

(** ** Theorems *)

(** [C34] One unread reminder per plant for the fast streams: whatever is delivered to the
    notification consumer, in whatever groups and however often, and whenever the
    household acknowledges, a household never has two unread reminders of low soil
    moisture, or two of a temperature anomaly, about the same plant. *)
Theorem reminders_one_unread (uuid5 : derived_name → uuid) (d : Database)
    (ops : list reminder_op) (h : HouseholdId) (p : PlantId) (ty : NotificationType)
    (k1 k2 : uuid) (m1 m2 : NotificationModel) :
  one_unread (db_notifications d) → ty ∈ UNREAD_GUARDED →
  let d' := run_reminders uuid5 d ops in
  db_notifications d' !! k1 = Some m1 → db_notifications d' !! k2 = Some m2 →
  unread_about (uuid_value h) ty (uuid_value p) m1 →
  unread_about (uuid_value h) ty (uuid_value p) m2 → k1 = k2.
Proof.
  intros Hd Hg d'. assert (one_unread (db_notifications d')) as [_ Hu]; [|by apply Hu].
  subst d'. unfold run_reminders. revert d Hd. induction ops as [|op ops IH]; intros d Hd; [done|].
  cbn [foldl]. apply IH. by apply reminder_step_one_unread.
Qed.

Definition demo_uuid5 (name : derived_name) : uuid :=
  match name with
  | JournalWatering p t => (2 * (uuid_value p + Z.to_N t))%N
  | NotificationOf _ i => (2 * i + 1)%N
  end.

Definition demo_ctx : MessageContext := mkMessageContext "system:test" None None None 0.
Definition demo_env_at (t : datetime) (k : N) : Env := mkEnv t (λ i, (100 * k + N.of_nat i)%N).

Definition demo_added : DomainEvent :=
  mkEvent 1 10 (PlantAdded (Uuid 7) (Uuid 3) (Uuid 4) "fern" (MkLocation "hall") 10).
Definition demo_dry (k : N) : DomainEvent :=
  mkEvent k 20 (SoilMoistureLow (Uuid 8) (Uuid 7) (MkMoisture (float_of_Z 5)) (float_of_Z 20)).
Definition demo_reminders : list reminder_op :=
  [DeliverReminder "n" demo_ctx (demo_env_at 11 1) demo_added;
   DeliverReminder "n" demo_ctx (demo_env_at 21 2) (demo_dry 2);
   DeliverReminder "n" demo_ctx (demo_env_at 22 3) (demo_dry 3)].

Lemma one_unread_empty : one_unread (db_notifications empty_database).
Proof. by split. Qed.

(** Two dry readings: one reminder, under the identifier derived from the first. *)
Lemma reminders_one_unread_witness :
  let d' := run_reminders demo_uuid5 empty_database demo_reminders in
  ∃ m, db_notifications d' !! 5%N = Some m ∧ size (db_notifications d') = 1 ∧
    ∀ k m', db_notifications d' !! k = Some m' → unread_about 3 SOIL_MOISTURE_LOW 7 m' → k = 5%N.
Proof.
  intros d'. destruct (db_notifications d' !! 5%N) as [m|] eqn:E; [|vm_compute in E; discriminate E].
  exists m. split; [done|]. split; [vm_compute; reflexivity|]. intros k m' Hk Hu.
  apply (reminders_one_unread demo_uuid5 empty_database demo_reminders (Uuid 3) (Uuid 7)
    SOIL_MOISTURE_LOW k 5 m' m one_unread_empty); [by left|exact Hk|exact E|exact Hu|].
  vm_compute in E. injection E as <-. by split_and!.
Defined.

(** A watering is journaled once, whatever the ledger remembers: after one delivery
    of a completed watering that was handled, delivering the same watering again, as
    another event or to another consumer group, writes at most a claim; and when the
    journal knows the plant, the entry is in its stream. *)
Theorem watering_journaled_once (uuid5 : derived_name → uuid) (d d1 d2 : Database)
    (g1 g2 : string) (ctx1 ctx2 : MessageContext) (env1 env2 : Env) (e1 e2 : DomainEvent)
    (plant_id : PlantId) (completed_at next1 next2 : datetime) (r : result bool) :
  journals_ok d →
  body e1 = WateringCompleted plant_id completed_at next1 →
  body e2 = WateringCompleted plant_id completed_at next2 →
  run_once g1 ctx1 (event_id e1) (JournalEntryConsumer_handle uuid5 env1 e1) d = (Ok true, d1) →
  run_once g2 ctx2 (event_id e2) (JournalEntryConsumer_handle uuid5 env2 e2) d1 = (r, d2) →
  (d2 = d1 ∨ d2 = claim_only d1 g2 (event_id e2)) ∧
  (is_Some (db_journal_refs d !! uuid_value plant_id) →
     watering_journaled uuid5 d1 plant_id completed_at).
Proof.
  intros Hd H1 H2 Hr1 Hr2.
  destruct (watering_delivered _ _ _ _ _ _ _ _ _ _ Hd H1 Hr1) as (Hd1 & Hrefs & Hin).
  split; [|done]. apply (watering_redelivered uuid5 _ _ _ _ _ _ _ _ _ _ Hd1 H2) in Hr2; [done|].
  rewrite Hrefs. destruct (db_journal_refs d !! uuid_value plant_id); [right; by apply Hin|by left].
Qed.

Definition demo_watered (k : N) : DomainEvent :=
  mkEvent k 30 (WateringCompleted (Uuid 7) 29 90).
Definition demo_known : Database :=
  (run_once "j" demo_ctx 1 (JournalEntryConsumer_handle demo_uuid5 (demo_env_at 11 1) demo_added)
    empty_database).2.

Lemma demo_known_ok : journals_ok demo_known.
Proof. apply (journals_ok_ext empty_database); [reflexivity..|apply empty_database_ok]. Qed.

(** The same watering under another event and another group is recognised. *)
Lemma watering_journaled_once_witness :
  let handle k := JournalEntryConsumer_handle demo_uuid5 (demo_env_at 31 k) (demo_watered k) in
  let d1 := (run_once "j" demo_ctx 2 (handle 2%N) demo_known).2 in
  let d2 := (run_once "rebuilt" demo_ctx 3 (handle 3%N) d1).2 in
  length (db_event_store d1) = 1 ∧
  (d2 = d1 ∨ d2 = claim_only d1 "rebuilt" 3) ∧ watering_journaled demo_uuid5 d1 (Uuid 7) 29.
Proof.
  intros handle d1 d2.
  assert ((run_once "j" demo_ctx 2 (handle 2%N) demo_known).1 = Ok true) as Hok
    by (vm_compute; reflexivity).
  assert (length (db_event_store d1) = 1) as Hlen by (vm_compute; reflexivity).
  split; [exact Hlen|].
  destruct (watering_journaled_once demo_uuid5 demo_known d1 d2 "j" "rebuilt" demo_ctx demo_ctx
    (demo_env_at 31 2) (demo_env_at 31 3) (demo_watered 2) (demo_watered 3) (Uuid 7) 29 90 90
    (run_once "rebuilt" demo_ctx 3 (handle 3%N) d1).1 demo_known_ok eq_refl eq_refl)
    as [H1 H2].
  - change (event_id (demo_watered 2)) with 2%N. rewrite <- Hok. apply surjective_pairing.
  - apply surjective_pairing.
  - split; [exact H1|]. apply H2. vm_compute. by eexists.
Defined.

(** A replay never walks a plant back: once a consumer group has been given a plant's
    addition and any of its moves, in any order after the addition, giving the same facts
    again — all or some, in any order, to any groups, as a rebuilt group does — leaves the
    reference rows as they are, and the row is as new as every one of the facts. *)
Theorem reference_replay (t : ref_table) (ctx : MessageContext) (p : PlantId) (g : string)
    (added : DomainEvent) (moves : list DomainEvent) (ops : list (string * DomainEvent))
    (d : Database) :
  is_ref_table t → Forall (kept_fact p) (added :: moves) →
  (∃ h sp name l at_, body added = PlantAdded p h sp name l at_) →
  NoDup (event_id <$> added :: moves) →
  (∀ e, e ∈ added :: moves → (g, event_id e) ∉ db_processed_events d) →
  Forall (λ op, op.2 ∈ added :: moves) ops →
  let d1 := foldl (reference_step t ctx p) d ((λ e, (g, e)) <$> added :: moves) in
  rt_get t (foldl (reference_step t ctx p) d1 ops) = rt_get t d1 ∧
  Forall (as_new_as (rt_get t d1) p) (added :: moves).
Proof.
  intros Ht Hk Hadd Hnd Hnew Hops d1.
  assert (Forall (as_new_as (rt_get t d1) p) (added :: moves)) as Hd1.
  { apply Forall_cons in Hk as [[Hg Hr] Hk]. apply NoDup_cons in Hnd as [Hid Hnd].
    destruct (reference_step_run t ctx p d g added Ht Hg) as [Hget Hpr].
    rewrite decide_False in Hget by (apply Hnew; by left).
    apply (reference_deliveries t ctx p g moves [added]); try done.
    - intros e He. rewrite Hpr. intros [Heq%elem_of_singleton|Hin]%elem_of_union.
      + injection Heq as Heq. apply Hid, list_elem_of_fmap. by exists e.
      + apply (Hnew e); [by right|done].
    - rewrite Hget. apply Forall_singleton, reference_effect_recorded; [done..|by right]. }
  split; [|done]. by apply (reference_redeliveries t ctx p (added :: moves)).
Qed.

Definition demo_moved (k : N) (t : datetime) (l : string) : DomainEvent :=
  mkEvent k t (PlantMoved (Uuid 7) (MkLocation "hall") (MkLocation l)).

Definition demo_facts : list DomainEvent := [demo_moved 2 20 "kitchen"; demo_moved 3 30 "attic"].
Definition demo_replay : list (string * DomainEvent) :=
  [("rebuilt"%string, demo_added); ("rebuilt"%string, demo_moved 2 20 "kitchen")].
Definition demo_step : Database → string * DomainEvent → Database :=
  reference_step notification_ref_table demo_ctx (Uuid 7).
Definition demo_given : Database :=
  foldl demo_step empty_database ((λ e, ("n"%string, e)) <$> demo_added :: demo_facts).

Lemma demo_facts_kept : Forall (kept_fact (Uuid 7)) (demo_added :: demo_facts).
Proof. repeat constructor; by intros ? ?. Qed.
Lemma demo_facts_ids : NoDup (event_id <$> demo_added :: demo_facts).
Proof. cbn. repeat constructor; set_solver. Qed.
Lemma demo_facts_new e :
  e ∈ demo_added :: demo_facts → ("n"%string, event_id e) ∉ db_processed_events empty_database.
Proof. intros _. apply not_elem_of_empty. Qed.
Lemma demo_replay_facts : Forall (λ op, op.2 ∈ demo_added :: demo_facts) demo_replay.
Proof. repeat constructor; cbn; set_solver. Qed.

(** A rebuilt group replays the addition and the first move: the row stays in the attic. *)
Lemma reference_replay_witness :
  rt_get notification_ref_table (foldl demo_step demo_given demo_replay) =
    rt_get notification_ref_table demo_given ∧
  pr_location <$> db_notification_refs demo_given !! 7%N = Some "attic"%string.
Proof.
  split; [|vm_compute; reflexivity].
  exact (proj1 (reference_replay notification_ref_table demo_ctx (Uuid 7) "n" demo_added
    demo_facts demo_replay empty_database (or_intror eq_refl) demo_facts_kept
    (ex_intro _ (Uuid 3) (ex_intro _ (Uuid 4) (ex_intro _ "fern"%string
      (ex_intro _ (MkLocation "hall") (ex_intro _ 10%Z eq_refl)))))
    demo_facts_ids demo_facts_new demo_replay_facts)).
Defined.

(** A reminder is written once and acknowledged once: whatever is delivered and
    acknowledged later, a stored reminder keeps its household, type, payload and creation,
    its only possible change is from unread to read, and the moment it was read never
    changes again.  No delivery, of its own event or another, replaces it. *)
Theorem reminders_are_final (uuid5 : derived_name → uuid) (d : Database) (ops : list reminder_op)
    (k : uuid) (m : NotificationModel) :
  one_unread (db_notifications d) → db_notifications d !! k = Some m →
  ∃ m', db_notifications (run_reminders uuid5 d ops) !! k = Some m' ∧
    (m' = m ∨ nm_read_at m = None ∧ ∃ at_, m' = read_row m at_).
Proof.
  intros Hd Hm.
  assert (reminder_kept (db_notifications d) (db_notifications (run_reminders uuid5 d ops)))
    as Hk; [|by apply Hk].
  clear Hm. revert d Hd. induction ops as [|op ops IH]; intros d Hd; [done|].
  etrans; [by apply (reminder_step_kept uuid5 d op)|]. apply (IH (reminder_step uuid5 d op)).
  by apply reminder_step_one_unread.
Qed.

Lemma reminders_are_final_witness :
  let d := run_reminders demo_uuid5 empty_database demo_reminders in
  ∃ m m', db_notifications d !! 5%N = Some m ∧
    db_notifications (run_reminders demo_uuid5 d
      [AcknowledgeReminder (Uuid 5) (demo_env_at 40 4);
       DeliverReminder "rebuilt" demo_ctx (demo_env_at 50 5) (demo_dry 2)]) !! 5%N = Some m' ∧
    (m' = m ∨ nm_read_at m = None ∧ ∃ at_, m' = read_row m at_).
Proof.
  intros d. destruct (db_notifications d !! 5%N) as [m|] eqn:E; [|vm_compute in E; discriminate E].
  assert (one_unread (db_notifications d)) as Hd.
  { apply reminder_step_one_unread, reminder_step_one_unread, reminder_step_one_unread,
      one_unread_empty. }
  exists m. destruct (reminders_are_final demo_uuid5 d
    [AcknowledgeReminder (Uuid 5) (demo_env_at 40 4);
     DeliverReminder "rebuilt" demo_ctx (demo_env_at 50 5) (demo_dry 2)] 5 m Hd E) as (m' & H & Hm).
  exists m'. split_and!; done.
Defined.

(** A rebuilt group is not silent: the second dry reading was suppressed by the unread
    reminder of the first, so nothing is stored under its identifier; once the household
    has acknowledged, a replay of both readings creates a reminder for the second. *)
Lemma rebuilt_group_reminds_again :
  let d := run_reminders demo_uuid5 empty_database
    (demo_reminders ++ [AcknowledgeReminder (Uuid 5) (demo_env_at 40 4)]) in
  let d' := run_reminders demo_uuid5 d
    [DeliverReminder "rebuilt" demo_ctx (demo_env_at 50 5) (demo_dry 2);
     DeliverReminder "rebuilt" demo_ctx (demo_env_at 51 6) (demo_dry 3)] in
  size (db_notifications d) = 1 ∧ size (db_notifications d') = 2.
Proof. vm_compute. done. Qed.
