(* ===== verification/Ingest.v ===== *)
(** The telemetry ingress, which stores a raw reading and announces what it means
    ([application/telemetry/ingest.py]), and the job that announces the sensors that
    went silent ([infrastructure/scheduling/sensor_silence.py]). *)

From S2P Require Import Prelude Domain Telemetry Topics Rows Database UnitOfWork Repositories.

(** ** Raw readings *)

(** A JSON document of the right shape: the identifier, the instant and the numbers.  A
    text that is not JSON, not an object, or of another shape is [None]; telling which is
    Pydantic's and [json]'s work. *)
Record RawDocument := mkRawDocument {
  doc_sensor_id : uuid;
  doc_recorded_at : datetime;
  doc_moisture : float;
  doc_temperature : float;
  doc_light : float }.

Record RawReading := mkRawReading {
  raw_sensor_id : uuid;
  raw_recorded_at : datetime;
  raw_moisture : Moisture;
  raw_temperature : Temperature;
  raw_light : LightLevel }.

Definition RawReading_validate (d : RawDocument) : result RawReading :=
  moisture ← Moisture_validate (doc_moisture d);
  temperature ← Temperature_validate (doc_temperature d);
  light ← LightLevel_validate (doc_light d);
  Ok (mkRawReading (doc_sensor_id d) (doc_recorded_at d) moisture temperature light).

Definition parse_raw_reading (document : option RawDocument) : option RawReading :=
  match document with
  | None => None
  | Some d => match RawReading_validate d with Ok r => Some r | Raise _ => None end
  end.

(** ** The ingress *)

Definition Sensor_with_events (s : Sensor) (es : list DomainEvent) : Sensor :=
  mkSensor (sn_id s) (sn_plant_id s) (sn_added_at s) (sn_last_seen_at s)
    (sn_offline_announced_at s) es.

(** [sensor.collect_events()] into the outbox, and the save. *)
Definition publish_sensor (s : Sensor) : tx unit :=
  let '(events, rest) := collect_events (sn_events s) in
  _ ← tx_iter outbox_append events;
  sensors_save (Sensor_with_events s rest).

Definition ingest_store (sensor : Sensor) (stored : TelemetryReading) (mint : nat → uuid) :
    tx nat :=
  with_uow (
    inserted ← readings_add_many [stored];
    if bool_decide (inserted ≠ 0) then
      sensor ← tx_lift (Sensor_record sensor (mkSensorReading (tr_sensor_id stored)
        (tr_recorded_at stored) (tr_moisture stored) (tr_temperature stored)
        (tr_light stored)) mint);
      _ ← publish_sensor sensor;
      _ ← uow_commit;
      mret inserted
    else mret inserted).

Definition ingest (document : option RawDocument) (mint : nat → uuid) : tx bool :=
  match parse_raw_reading document with
  | None => mret false
  | Some reading =>
      sensor ← sensors_get (Uuid (raw_sensor_id reading));
      match sensor with
      | None => mret false
      | Some sensor =>
          let stored := mkTelemetryReading (Uuid (raw_sensor_id reading))
            (sn_plant_id sensor) (raw_recorded_at reading) (raw_moisture reading)
            (raw_temperature reading) (raw_light reading) in
          _ ← ingest_store sensor stored mint;
          mret true
      end
  end.

(** ** The silence timer *)

Fixpoint announce_silent (now : datetime) (mint : nat → uuid) (k : nat) (sensors : list Sensor) :
    tx unit :=
  match sensors with
  | [] => mret tt
  | sensor :: sensors =>
      sensor ← tx_lift (Sensor_mark_offline sensor now (mint k));
      _ ← publish_sensor sensor;
      announce_silent now mint (S k) sensors
  end.

Definition SensorSilenceJob_run_once (now : datetime) (mint : nat → uuid) : tx nat :=
  threshold ← tx_lift (dt_add now (- OFFLINE_AFTER));
  with_uow (
    sensors ← sensors_list_silent threshold;
    _ ← announce_silent now mint 0 sensors;
    _ ← (match sensors with [] => mret tt | _ :: _ => uow_commit end);
    mret (length sensors)).

(** Raw deliveries one after the other, redeliveries and duplicates included: each with
    the identifiers it mints. *)
Definition run_ingest (d : Database) (deliveries : list (option RawDocument * (nat → uuid))) :
    Database :=
  foldl (λ d '(doc, mint), (run_request (ingest doc mint) d).2) d deliveries.

(** The readings [TelemetryReceived] announced, in the order of the outbox. *)
Definition announced_reading (e : DomainEvent) : option (uuid * datetime) :=
  match body e with
  | TelemetryReceived s _ t _ _ _ => Some (uuid_value s, t)
  | _ => None
  end.
Definition announced_readings (d : Database) : list (uuid * datetime) :=
  omap announced_reading (published d).

(** Every stored reading is announced exactly once, and nothing else is. *)
Record readings_announced (d : Database) : Prop := mkReadingsAnnounced {
  ra_once : NoDup (announced_readings d);
  ra_stored : ∀ k, k ∈ announced_readings d ↔ is_Some (db_readings d !! k) }.

(** ** Lemmas *)

Lemma published_shared d d' : db_outbox d' = db_outbox d → published d' = published d.
Proof. unfold published. by intros ->. Qed.

(** Storing one reading of a sensor, in full. *)
Lemma ingest_store_run ctx sensor stored mint d :
  let key := (uuid_value (tr_sensor_id stored), tr_recorded_at stored) in
  let reading := mkSensorReading (tr_sensor_id stored) (tr_recorded_at stored)
    (tr_moisture stored) (tr_temperature stored) (tr_light stored) in
  run_bound ctx (ingest_store sensor stored mint) d =
  match db_readings d !! key with
  | Some _ => (Ok 0, d)
  | None =>
      match Sensor_record sensor reading mint with
      | Raise e => (Raise e, d)
      | Ok s => match replay_writes (outbox_statements ctx (sn_events s))
            (set_readings d (<[key := reading_to_model stored]> (db_readings d))) with
          | Some d2 => (Ok 1, set_sensors d2 (<[uuid_value (sn_id s) := sensor_to_model s]>
              (db_sensors d2)))
          | None => (Raise ConcurrentWriteError, d)
          end
      end
  end.
Proof.
  intros key reading. unfold run_bound, ingest_store, with_uow.
  change (uow_enter (open_session d ctx id)) with (open_session d ctx id).
  set (w := λ d, Some (set_readings d (insert_readings [reading_to_model stored]
    (db_readings d)).1)).
  assert (readings_add_many [stored] (open_session d ctx id) =
    (Ok (match db_readings d !! key with Some _ => 0 | None => 1 end),
     mkSession d (set_readings d (insert_readings [reading_to_model stored] (db_readings d)).1)
       [w] false [] false ctx id)) as Hadd.
  { unfold readings_add_many, readings_insert_batches, readings_insert_batch. cbn.
    change (reading_key (reading_to_model stored)) with key in *.
    unfold mbind, tx_bind, query, execute. cbn. by destruct (db_readings d !! key). }
  rewrite (tx_bind_Ok _ _ _ _ _ Hadd). clear Hadd.
  destruct (db_readings d !! key) as [old|] eqn:Eold; [done|].
  change (bool_decide (1 ≠ 0)) with true. cbv iota. fold reading.
  destruct (Sensor_record sensor reading mint) as [s|e] eqn:Es; [|done].
  rewrite (tx_bind_Ok (tx_lift (Ok s)) _ _ s _ eq_refl).
  set (s1 := mkSession _ _ _ _ _ _ _ _).
  assert (∃ s3, publish_sensor s s1 = (Ok tt, s3) ∧ ss_writes s3 = w ::
      outbox_statements ctx (sn_events s) ++
      [merge_row db_sensors set_sensors (uuid_value (sn_id s)) (sensor_to_model s)] ∧
    ss_base s3 = d ∧ ss_context s3 = ctx ∧ ss_others s3 = id ∧ tracked_events s3 = [])
    as (s3 & Hp & Hw3 & Hb3 & Hx3 & Ho3 & Ht3).
  { unfold publish_sensor, collect_events.
    destruct (outbox_iter (sn_events s) s1) as (s2 & E2 & Hw & Hb & Hx & Ho & Hc & Ht).
    rewrite (tx_bind_Ok _ _ _ _ _ E2). eexists. split; [reflexivity|].
    cbn. rewrite Hw, Hb, Hx, Ho. unfold tracked_events. cbn. rewrite Ht. by split_and!. }
  rewrite (tx_bind_Ok _ _ _ _ _ Hp). unfold mbind at 1, tx_bind at 1.
  rewrite uow_commit_run, Hw3, Hb3, Hx3, Ho3, Ht3. change (outbox_statements ctx []) with (@nil statement).
  cbn [id]. rewrite app_nil_r, replay_writes_cons.
  assert (w d = Some (set_readings d (<[key := reading_to_model stored]> (db_readings d)))) as ->.
  { subst w. cbn. change (reading_key (reading_to_model stored)) with key. by rewrite Eold. }
  cbn [mbind option_bind]. rewrite replay_writes_app.
  by destruct (replay_writes (outbox_statements ctx (sn_events s)) _).
Qed.

(** The reading a raw one becomes for a registered sensor, and the row's key. *)
Definition stored_reading (r : RawReading) (m : SensorModel) : TelemetryReading :=
  mkTelemetryReading (Uuid (raw_sensor_id r)) (sn_plant_id (sensor_to_domain m))
    (raw_recorded_at r) (raw_moisture r) (raw_temperature r) (raw_light r).
Definition raw_key (r : RawReading) : uuid * datetime := (raw_sensor_id r, raw_recorded_at r).
Definition raw_reading (r : RawReading) : SensorReading :=
  mkSensorReading (Uuid (raw_sensor_id r)) (raw_recorded_at r) (raw_moisture r)
    (raw_temperature r) (raw_light r).

Lemma ingest_run ctx doc mint d :
  run_bound ctx (ingest doc mint) d =
  match parse_raw_reading doc with
  | None => (Ok false, d)
  | Some r =>
      match db_sensors d !! raw_sensor_id r with
      | None => (Ok false, d)
      | Some m =>
          let '(n, d') := run_bound ctx (ingest_store (sensor_to_domain m) (stored_reading r m) mint) d in
          (match n with Ok _ => Ok true | Raise e => Raise e end, d')
      end
  end.
Proof.
  unfold ingest, run_bound. destruct (parse_raw_reading doc) as [r|]; [|done].
  unfold sensors_get, query, mbind, tx_bind. cbn. 
  destruct (db_sensors d !! raw_sensor_id r) as [m|]; [|done]. cbn.
  change (Uuid (sm_plant_id m)) with (sn_plant_id (sensor_to_domain m)).
  fold (stored_reading r m).
  by destruct (ingest_store _ _ _ _) as [[n|e] s].
Qed.

(** One raw delivery, whatever identifiers it mints: nothing, or one reading that was not
    there with its announcement. *)
Lemma ingest_cases ctx doc mint d r d' :
  run_bound ctx (ingest doc mint) d = (r, d') →
  d' = d ∨
  ∃ raw m, parse_raw_reading doc = Some raw ∧ db_sensors d !! raw_sensor_id raw = Some m ∧
    db_readings d !! raw_key raw = None ∧
    db_readings d' = <[raw_key raw := reading_to_model (stored_reading raw m)]> (db_readings d) ∧
    published d' = published d ++ stamp_events mint (raw_recorded_at raw)
      (reading_event_bodies (Uuid (raw_sensor_id raw)) (Uuid (sm_plant_id m)) (raw_reading raw)).
Proof.
  rewrite ingest_run. destruct (parse_raw_reading doc) as [raw|]; [|intros [= _ <-]; by left].
  destruct (db_sensors d !! raw_sensor_id raw) as [m|] eqn:Em; [|intros [= _ <-]; by left].
  rewrite ingest_store_run. cbn [stored_reading tr_sensor_id tr_recorded_at tr_moisture
    tr_temperature tr_light uuid_value]. fold (raw_key raw) (raw_reading raw).
  destruct (db_readings d !! raw_key raw) as [old|] eqn:Eold; [intros [= _ <-]; by left|].
  destruct (Sensor_record _ _ _) as [s|e] eqn:Es; [|intros [= _ <-]; by left].
  destruct (replay_writes _ _) as [d2|] eqn:Er; [|intros [= _ <-]; by left].
  intros [= _ <-]. right. exists raw, m. do 3 (split; [done|]).
  apply outbox_statements_published in Er as [Hp Hd].
  split; [by rewrite Hd|]. change (published (set_sensors d2 _)) with (published d2).
  rewrite Hp. f_equal. unfold Sensor_record in Es. case_decide as Hid; [done|].
  injection Es as <-. cbn in Hid |- *. by rewrite Hid.
Qed.

Lemma announced_readings_app d d' es :
  published d' = published d ++ es →
  announced_readings d' = announced_readings d ++ omap announced_reading es.
Proof. unfold announced_readings. intros ->. apply omap_app. Qed.

(** The events of one reading announce it, once. *)
Lemma stamped_announces mint t s p r :
  omap announced_reading (stamp_events mint t (reading_event_bodies s p r)) =
    [(uuid_value s, reading_recorded_at r)].
Proof. unfold reading_event_bodies, stamp_events. by repeat case_match. Qed.

(** A reading that was not there, stored with its events. *)
Lemma stored_announced raw m mint d d' :
  db_readings d !! raw_key raw = None →
  db_readings d' = <[raw_key raw := reading_to_model (stored_reading raw m)]> (db_readings d) →
  published d' = published d ++ stamp_events mint (raw_recorded_at raw)
    (reading_event_bodies (Uuid (raw_sensor_id raw)) (Uuid (sm_plant_id m)) (raw_reading raw)) →
  readings_announced d → readings_announced d'.
Proof.
  intros Hnew Hr Hp [Hnd Hst].
  apply announced_readings_app in Hp. rewrite stamped_announces in Hp.
  change [(_, _)] with [raw_key raw] in Hp.
  split.
  - rewrite Hp. apply NoDup_app. split; [done|]. split; [|apply NoDup_singleton].
    intros k Hk Heq%list_elem_of_singleton. apply Hst in Hk. subst k.
    rewrite Hnew in Hk. by destruct Hk.
  - intros k. rewrite Hp, Hr, elem_of_app, list_elem_of_singleton, Hst, lookup_insert.
    case_decide as Hk; [subst; split; [by eexists|by right]|].
    split; [intros [?|?]; [done|congruence]|by left].
Qed.

Lemma ingest_announced ctx doc mint d :
  readings_announced d → readings_announced (run_bound ctx (ingest doc mint) d).2.
Proof.
  intros H. destruct (run_bound ctx (ingest doc mint) d) as [r d'] eqn:E. cbn.
  apply ingest_cases in E as [->|(raw & m & _ & _ & Hnew & Hr & Hp)]; [done|].
  by eapply stored_announced.
Qed.

(** *** The silence tick *)

(** The announcement of a silent sensor, and its row afterwards. *)
Definition offline_event (now : datetime) (eid : uuid) (s : Sensor) : DomainEvent :=
  mkEvent eid now (SensorOffline (sn_id s) (sn_plant_id s) (default now (sn_last_seen_at s))
    (now - default now (sn_last_seen_at s))).
Definition announced_row (now : datetime) (s : Sensor) : SensorModel :=
  mkSensorModel (uuid_value (sn_id s)) (uuid_value (sn_plant_id s)) (sn_added_at s)
    (sn_last_seen_at s) (Some now).

Definition offline_events (now : datetime) (mint : nat → uuid) (k : nat) (l : list Sensor) :
    list DomainEvent := imap (λ i s, offline_event now (mint (k + i)) s) l.

(** A sensor the query answers with: due for an announcement, fresh from its row. *)
Definition due_sensor (now : datetime) (s : Sensor) : Prop :=
  sn_events s = [] ∧ sn_offline_announced_at s = None ∧
  ∃ t, sn_last_seen_at s = Some t ∧ (t ≤ now - OFFLINE_AFTER)%Z.

Lemma mark_offline_due now s eid :
  due_sensor now s → ∃ s', Sensor_mark_offline s now eid = Ok s' ∧
    sn_events s' = [offline_event now eid s] ∧ sensor_to_model s' = announced_row now s ∧
    sn_id s' = sn_id s.
Proof.
  intros (He & Ha & t & Ht & Hle). unfold Sensor_mark_offline. rewrite Ht, Ha.
  rewrite decide_False by lia. eexists. split; [done|]. cbn. rewrite He. unfold offline_event, announced_row.
  by rewrite Ht.
Qed.

Lemma announce_silent_run now mint l k s :
  Forall (due_sensor now) l →
  ∃ s' ws, announce_silent now mint k l s = (Ok tt, s') ∧ ss_writes s' = ss_writes s ++ ws ∧
    ss_base s' = ss_base s ∧ ss_context s' = ss_context s ∧ ss_others s' = ss_others s ∧
    ss_committed s' = ss_committed s ∧
    (Forall (λ t, t.2 = []) (ss_tracked s) → Forall (λ t, t.2 = []) (ss_tracked s')) ∧
    ∀ d d', replay_writes ws d = Some d' →
      published d' = published d ++ offline_events now mint k l ∧
      db_sensors d' = foldl (λ t x, <[uuid_value (sn_id x) := announced_row now x]> t)
        (db_sensors d) l.
Proof.
  revert k s. induction l as [|x l IH]; intros k s Hl.
  { exists s, []. rewrite app_nil_r. split_and!; try done.
    intros d d' [= <-]. split; [by rewrite app_nil_r|done]. }
  apply Forall_cons in Hl as [Hx Hl].
  destruct (mark_offline_due now x (mint k) Hx) as (x' & Hmark & Hev & Hmod & Hid).
  cbn [announce_silent]. rewrite (tx_bind_Ok (tx_lift _) _ _ x' s) by (unfold tx_lift; by rewrite Hmark).
  destruct (outbox_append_writes (offline_event now (mint k) x) s) as (w & Hw & Happ).
  pose proof (execute_writes w s) as (Hok & Hws & Hb & Hc & Ho & Hm & Ht).
  destruct (execute w s) as [r1 s1] eqn:E1; cbn in *; subst r1.
  pose proof (execute_track_run (merge_row db_sensors set_sensors (uuid_value (sn_id x)) (announced_row now x))
    (ESensor, uuid_value (sn_id x)) [] s1) as (s2 & E2 & Hw2 & Hb2 & Hc2 & Ho2 & Hm2 & Ht2).
  assert (publish_sensor x' s = (Ok tt, s2)) as Hpub.
  { unfold publish_sensor, collect_events. rewrite Hev. cbn [tx_iter].
    unfold mbind at 1 2, tx_bind at 1 2. rewrite Happ. cbn [mret tx_ret].
    unfold sensors_save. change (sensor_to_model (Sensor_with_events x' [])) with (sensor_to_model x').
    rewrite Hmod. exact E2. }
  rewrite (tx_bind_Ok _ _ _ _ _ Hpub).
  destruct (IH (S k) s2 Hl) as (s' & ws & E & Hws' & Hb' & Hc' & Ho' & Hm' & Ht' & Hrep).
  exists s', (w :: merge_row db_sensors set_sensors (uuid_value (sn_id x)) (announced_row now x) :: ws).
  split_and!; try congruence.
  - rewrite Hws', Hw2, Hws, <- !app_assoc. done.
  - intros Hf. apply Ht'. rewrite Ht2, Ht. by apply track_in_empty.
  - intros d d' Hd. rewrite replay_writes_cons in Hd.
    destruct (w d) as [d1|] eqn:Ew; [|done]. cbn in Hd. rewrite replay_writes_cons in Hd. cbn in Hd.
    apply Hrep in Hd as [-> ->].
    assert (replay_writes (outbox_statements (ss_context s) [offline_event now (mint k) x]) d = Some d1)
      as Hone by (rewrite Hw, replay_writes_cons, Ew; done).
    apply outbox_statements_published in Hone as [Hp Hd1]. split.
    + change (published (set_sensors d1 _)) with (published d1). rewrite Hp, <- app_assoc.
      do 2 f_equal. unfold offline_events. cbn. rewrite Nat.add_0_r. f_equal.
      apply imap_ext. intros i y _. cbn. by rewrite <- plus_n_Sm.
    + cbn. by rewrite Hd1.
Qed.

(** The sensors the tick announces. *)
Definition silent_sensors (d : Database) (threshold : datetime) : list Sensor :=
  sensor_to_domain <$> select_rows (db_sensors d) (sensor_silent threshold)
    (λ m, (default 0%Z (sm_last_seen_at m), Z.of_N (sm_id m))).

Lemma silent_sensors_due d now : Forall (due_sensor now) (silent_sensors d (now - OFFLINE_AFTER)).
Proof.
  apply Forall_fmap, Forall_forall. intros m Hm. apply elem_of_select_rows in Hm as [Hs _].
  unfold sensor_silent in Hs. split; [done|].
  destruct (sm_last_seen_at m) as [t|] eqn:Et; [|done].
  destruct (sm_offline_announced_at m) eqn:Ea; [done|]. split; [done|].
  exists t. split; [done|]. by apply bool_decide_eq_true in Hs.
Qed.

(** The rows after announcing a list of sensors: announced, or as they were. *)
Lemma announced_rows now l (t : gmap uuid SensorModel) k m :
  foldl (λ t x, <[uuid_value (sn_id x) := announced_row now x]> t) t l !! k = Some m →
  (∃ x, x ∈ l ∧ m = announced_row now x) ∨
  (t !! k = Some m ∧ ∀ x, x ∈ l → uuid_value (sn_id x) ≠ k).
Proof.
  revert t. induction l as [|x l IH]; intros t H; [right; split; [done|set_solver]|].
  cbn in H. apply IH in H as [(y & Hy & ->)|[H Hne]]; [left; exists y; split; [by right|done]|].
  rewrite lookup_insert in H. case_decide as Hx.
  - injection H as <-. left. exists x. split; [by left|done].
  - right. split; [done|]. intros y [->|Hy]%elem_of_cons; [done|by apply Hne].
Qed.

Lemma silence_tick_run now mint d :
  let l := silent_sensors d (now - OFFLINE_AFTER) in
  (∃ e, run_request (SensorSilenceJob_run_once now mint) d = (Raise e, d)) ∨
  ∃ d', run_request (SensorSilenceJob_run_once now mint) d = (Ok (length l), d') ∧
    published d' = published d ++ offline_events now mint 0 l ∧
    db_sensors d' = foldl (λ t x, <[uuid_value (sn_id x) := announced_row now x]> t)
      (db_sensors d) l ∧ (l = [] → d' = d).
Proof.
  intros l. unfold run_request, SensorSilenceJob_run_once.
  destruct (dt_add now (- OFFLINE_AFTER)) as [th|e] eqn:Eth; [|left; by exists e].
  apply dt_add_Ok in Eth as ->. rewrite (tx_bind_Ok (tx_lift _) _ _ _ _ eq_refl).
  unfold with_uow. change (uow_enter (open_session d None id)) with (open_session d None id).
  assert (sensors_list_silent (now + - OFFLINE_AFTER) (open_session d None id) =
    (Ok l, open_session d None id)) as Hl by done.
  rewrite (tx_bind_Ok _ _ _ _ _ Hl).
  destruct (announce_silent_run now mint l 0 (open_session d None id) (silent_sensors_due d now))
    as (s & ws & E & Hw & Hb & Hx & Ho & Hm & Ht & Hrep).
  rewrite (tx_bind_Ok _ _ _ _ _ E). destruct l as [|x l'] eqn:El.
  { rewrite (tx_bind_Ok (mret tt) _ s tt s eq_refl). right. exists d.
    unfold mret, tx_ret. rewrite Hm. cbn. by rewrite Hb, app_nil_r. }
  unfold mbind, tx_bind. rewrite uow_commit_run, Hw, Hb, Hx, Ho. cbn [ss_writes ss_base ss_context
    ss_others open_session app id].
  assert (tracked_events s = []) as ->.
  { unfold tracked_events. specialize (Ht ltac:(by constructor)). clear -Ht.
    induction Ht as [|t l Ht _ IH]; [done|]. cbn. by rewrite Ht, IH. }
  change (outbox_statements None []) with (@nil statement). rewrite app_nil_r.
  destruct (replay_writes ws d) as [d'|] eqn:Er; [|left; cbn; by eexists].
  destruct (Hrep d d' Er) as [Hp Hs]. right. exists d'. by split_and!.
Qed.

(** ** Theorems *)

(** [C35] A reading is stored and announced together and once: however often, in whatever
    order and with whatever duplicates raw messages arrive, the outbox holds exactly one
    [TelemetryReceived] for every stored reading and none for anything else. *)
Theorem readings_announced_once (d : Database)
    (deliveries : list (option RawDocument * (nat → uuid))) :
  readings_announced d →
  NoDup (announced_readings (run_ingest d deliveries)) ∧
  ∀ k, k ∈ announced_readings (run_ingest d deliveries) ↔
    is_Some (db_readings (run_ingest d deliveries) !! k).
Proof.
  intros Hd. enough (readings_announced (run_ingest d deliveries)) as [? ?] by done.
  revert d Hd. induction deliveries as [|[doc mint] ds IH]; intros d Hd; [done|].
  apply (IH (run_request (ingest doc mint) d).2). by apply (ingest_announced None).
Qed.

Definition demo_sensor : SensorModel := mkSensorModel 5 7 0 None None.
Definition demo_registered : Database := set_sensors empty_database {[ 5%N := demo_sensor ]}.
Definition demo_document (t : datetime) : RawDocument :=
  mkRawDocument 5 t (float_of_Z 20) (float_of_Z 21) (float_of_Z 300).
Definition demo_mint (k : N) : nat → uuid := λ i, (10 * k + N.of_nat i)%N.
(** The same reading twice, garbage, and a later reading. *)
Definition demo_raw : list (option RawDocument * (nat → uuid)) :=
  [(Some (demo_document 3), demo_mint 1); (Some (demo_document 3), demo_mint 2);
   (None, demo_mint 3); (Some (demo_document 9), demo_mint 4)].

Lemma demo_registered_announced : readings_announced demo_registered.
Proof.
  split; [apply NoDup_nil_2|]. intros k. change (db_readings demo_registered) with
    (∅ : gmap (uuid * datetime) SensorReadingModel). rewrite lookup_empty.
  split; [by intros ?%not_elem_of_nil|by intros [? ?]].
Qed.

Lemma readings_announced_once_witness :
  let d := run_ingest demo_registered demo_raw in
  announced_readings d = [(5%N, 3%Z); (5%N, 9%Z)] ∧ size (db_readings d) = 2 ∧
  ((5%N, 3%Z) ∈ announced_readings d ↔ is_Some (db_readings d !! (5%N, 3%Z))).
Proof.
  intros d. split; [vm_compute; reflexivity|]. split; [vm_compute; reflexivity|].
  exact (proj2 (readings_announced_once demo_registered demo_raw demo_registered_announced)
    (5%N, 3%Z)).
Defined.

(** What the ingress answers, on every branch: a message that is not a valid reading
    or comes from an unregistered sensor is dropped; a reading already stored changes
    nothing; a new reading of a registered sensor, whose events get identifiers nobody
    used, is stored, announced with every event the sensor's rules raise for it, and the
    sensor's row moves to the newer of its last sighting and the reading. *)
Theorem ingest_outcome (doc : option RawDocument) (mint : nat → uuid) (d : Database) :
  match parse_raw_reading doc with
  | None => run_request (ingest doc mint) d = (Ok false, d)
  | Some raw =>
      match db_sensors d !! raw_sensor_id raw with
      | None => run_request (ingest doc mint) d = (Ok false, d)
      | Some m =>
          let bodies := reading_event_bodies (Uuid (raw_sensor_id raw)) (Uuid (sm_plant_id m))
            (raw_reading raw) in
          match db_readings d !! raw_key raw with
          | Some _ => run_request (ingest doc mint) d = (Ok true, d)
          | None =>
              sm_id m = raw_sensor_id raw →
              NoDup (event_id <$> stamp_events mint (raw_recorded_at raw) bodies) →
              (∀ e, e ∈ stamp_events mint (raw_recorded_at raw) bodies →
                 event_id e ∉ ob_event_id <$> db_outbox d) →
              ∃ d' m', run_request (ingest doc mint) d = (Ok true, d') ∧
                db_readings d' = <[raw_key raw := reading_to_model (stored_reading raw m)]>
                  (db_readings d) ∧
                published d' = published d ++ stamp_events mint (raw_recorded_at raw) bodies ∧
                db_sensors d' = <[sm_id m := m']> (db_sensors d) ∧
                sm_last_seen_at m' = Some (match sm_last_seen_at m with
                  | Some t => Z.max t (raw_recorded_at raw) | None => raw_recorded_at raw end) ∧
                (sm_last_seen_at m' ≠ sm_last_seen_at m → sm_offline_announced_at m' = None)
          end
      end
  end.
Proof.
  change (run_request (ingest doc mint) d) with (run_bound None (ingest doc mint) d).
  rewrite !ingest_run. destruct (parse_raw_reading doc) as [raw|]; [|done].
  destruct (db_sensors d !! raw_sensor_id raw) as [m|] eqn:Em; [|done].
  rewrite ingest_store_run. cbn [stored_reading tr_sensor_id tr_recorded_at tr_moisture
    tr_temperature tr_light uuid_value]. fold (raw_key raw) (raw_reading raw).
  destruct (db_readings d !! raw_key raw) as [old|] eqn:Eold; [done|].
  intros Hid Hnd Hnew. unfold Sensor_record. rewrite decide_False by (cbn; rewrite Hid; auto).
  cbn [sn_events sensor_to_domain Sensor_new app sn_id sn_plant_id].
  change (reading_recorded_at (raw_reading raw)) with (raw_recorded_at raw).
  rewrite Hid. set (es := stamp_events mint _ _) in *.
  destruct (outbox_statements_fresh None es (set_readings d (<[raw_key raw :=
    reading_to_model (stored_reading raw m)]> (db_readings d))) Hnd Hnew) as (d2 & Er).
  rewrite Er. apply outbox_statements_published in Er as [Hp Hd].
  eexists _, _. split; [reflexivity|]. split_and!.
  - by rewrite Hd.
  - exact Hp.
  - cbn. by rewrite Hd.
  - cbn. destruct (sm_last_seen_at m) as [t|]; cbn; [|done]. case_bool_decide; f_equal; lia.
  - cbn. destruct (sm_last_seen_at m) as [t|]; cbn; [|done]. by case_bool_decide.
Qed.

Lemma demo_document_fresh e :
  e ∈ stamp_events (demo_mint 1) 3 (reading_event_bodies (Uuid 5) (Uuid 7)
    (mkSensorReading (Uuid 5) 3 (MkMoisture (float_of_Z 20)) (MkTemperature (float_of_Z 21))
      (MkLightLevel (float_of_Z 300)))) →
  event_id e ∉ ob_event_id <$> db_outbox demo_registered.
Proof. intros _. apply not_elem_of_nil. Qed.

Lemma ingest_outcome_witness :
  ∃ d' m', run_request (ingest (Some (demo_document 3)) (demo_mint 1)) demo_registered = (Ok true, d') ∧
    length (published d') = 2 ∧ db_sensors d' !! 5%N = Some m' ∧ sm_last_seen_at m' = Some 3%Z.
Proof.
  pose proof (ingest_outcome (Some (demo_document 3)) (demo_mint 1) demo_registered) as H.
  destruct (H eq_refl) as (d' & m' & Hrun & _ & Hp & Hs & Hseen & _).
  - vm_compute. repeat constructor; set_solver.
  - exact demo_document_fresh.
  - exists d', m'. split; [exact Hrun|]. split; [rewrite Hp; vm_compute; reflexivity|].
    split; [rewrite Hs; apply lookup_insert_eq|exact Hseen].
Defined.

(** A silence is announced once: a tick either fails and changes nothing, or commits
    one [SensorOffline] for each sensor silent past the threshold and not yet announced,
    in the order they went quiet, together with the rows that remember it; no silent
    sensor is left, and a tick at the same moment announces nothing more. *)
Theorem silence_tick_announces_once (now : datetime) (mint : nat → uuid) (d d' : Database)
    (r : result nat) :
  (∀ k m, db_sensors d !! k = Some m → sm_id m = k) →
  run_request (SensorSilenceJob_run_once now mint) d = (r, d') →
  let l := silent_sensors d (now - OFFLINE_AFTER) in
  ((∃ e, r = Raise e) ∧ d' = d) ∨
  (r = Ok (length l) ∧ published d' = published d ++ offline_events now mint 0 l ∧
   (∀ k m, db_sensors d' !! k = Some m → sensor_silent (now - OFFLINE_AFTER) m = false) ∧
   silent_sensors d' (now - OFFLINE_AFTER) = [] ∧
   ∀ mint', (run_request (SensorSilenceJob_run_once now mint') d').2 = d').
Proof.
  intros Hk Hrun l. destruct (silence_tick_run now mint d) as [(e & E)|(d1 & E & Hp & Hs & _)];
    rewrite Hrun in E; injection E as -> ->; [left; eauto|right].
  assert (∀ k m, db_sensors d1 !! k = Some m → sensor_silent (now - OFFLINE_AFTER) m = false)
    as Hquiet.
  { intros k m Hm. rewrite Hs in Hm. apply announced_rows in Hm as [(x & Hx & ->)|[Hm Hne]].
    - unfold sensor_silent, announced_row. cbn. by destruct (sn_last_seen_at x).
    - destruct (sensor_silent (now - OFFLINE_AFTER) m) eqn:Esil; [|done]. exfalso.
      apply (Hne (sensor_to_domain m)); [|cbn; by apply Hk].
      apply list_elem_of_fmap. exists m. split; [done|].
      apply elem_of_select_rows. split; [done|by exists k]. }
  assert (silent_sensors d1 (now - OFFLINE_AFTER) = []) as Hnone.
  { unfold silent_sensors. destruct (select_rows _ _ _) as [|m ms] eqn:Esel; [done|].
    assert (m ∈ m :: ms) as Hm by (by left). rewrite <- Esel in Hm.
    apply elem_of_select_rows in Hm as [Hm (k & Hkm)]. by rewrite (Hquiet k m Hkm) in Hm. }
  split_and!; [done|done|exact Hquiet|exact Hnone|]. intros mint'.
  destruct (silence_tick_run now mint' d1) as [(e & ->)|(d2 & -> & _ & _ & Hd2)]; [done|].
  by apply Hd2.
Qed.

Definition demo_quiet : Database :=
  set_sensors empty_database {[ 5%N := mkSensorModel 5 7 0 (Some 0%Z) None ]}.

Lemma demo_quiet_keyed k m : db_sensors demo_quiet !! k = Some m → sm_id m = k.
Proof.
  change (db_sensors demo_quiet) with ({[ 5%N := mkSensorModel 5 7 0 (Some 0%Z) None ]} : gmap uuid SensorModel).
  intros [<- <-]%lookup_singleton_Some. done.
Qed.

Lemma silence_tick_announces_once_witness :
  let out := run_request (SensorSilenceJob_run_once (hours 1) (demo_mint 1)) demo_quiet in
  out.1 = Ok 1 ∧ length (published out.2) = 1 ∧
  ∀ mint', (run_request (SensorSilenceJob_run_once (hours 1) mint') out.2).2 = out.2.
Proof.
  intros out. assert (out.1 = Ok 1) as Hout by (vm_compute; reflexivity).
  split; [exact Hout|]. split; [vm_compute; reflexivity|].
  destruct (silence_tick_announces_once (hours 1) (demo_mint 1) demo_quiet out.2 out.1
    demo_quiet_keyed (surjective_pairing out)) as [[[e He] _]|(_ & _ & _ & _ & H)]; [|exact H].
  rewrite Hout in He. discriminate He.
Defined.
