(* ===== verification/CircuitBreaker.v ===== *)
(** The circuit breaker that guards an external dependency
    ([infrastructure/external/circuit_breaker.py]): its states and transitions, calls one
    after the other against an abstract specification, and calls in flight together. *)

From S2P Require Import Prelude.

(** ** State and operations *)

Inductive CircuitState := CLOSED | OPEN | HALF_OPEN.
#[export] Instance CircuitState_eq_dec : EqDecision CircuitState.
Proof. solve_decision. Defined.

Record BreakerConfig := mkBreakerConfig {
  failure_threshold : Z;
  reset_timeout : timedelta }.

Record AsyncCircuitBreaker := mkAsyncCircuitBreaker {
  cb_state : CircuitState;
  cb_failures : Z;
  cb_opened_at : option datetime;
  cb_trial_in_flight : bool }.

(** [__init__]: the configuration is checked and the breaker starts closed. *)
Definition breaker_init (failure_threshold : Z) (reset_timeout : timedelta) :
    result (BreakerConfig * AsyncCircuitBreaker) :=
  if decide (failure_threshold < 1)%Z then Raise ValueError
  else if decide (reset_timeout ≤ 0)%Z then Raise ValueError
  else Ok (mkBreakerConfig failure_threshold reset_timeout,
           mkAsyncCircuitBreaker CLOSED 0 None false).

Definition effective_state (c : BreakerConfig) (b : AsyncCircuitBreaker) (now : datetime) :
    CircuitState :=
  match cb_state b, cb_opened_at b with
  | OPEN, Some opened_at =>
      if decide (reset_timeout c ≤ now - opened_at)%Z then HALF_OPEN else OPEN
  | s, _ => s
  end.

Definition before_call (c : BreakerConfig) (b : AsyncCircuitBreaker) (now : datetime) :
    result AsyncCircuitBreaker :=
  let state := effective_state c b now in
  if decide (state = OPEN) then Raise CircuitOpenError
  else
    let b := mkAsyncCircuitBreaker state (cb_failures b) (cb_opened_at b) (cb_trial_in_flight b) in
    if decide (state = HALF_OPEN) then
      if cb_trial_in_flight b then Raise CircuitOpenError
      else Ok (mkAsyncCircuitBreaker state (cb_failures b) (cb_opened_at b) true)
    else Ok b.

(** What [before_call] leaves when it refuses: [self._state = state] runs before the test
    of the trial. *)
Definition after_refusal (c : BreakerConfig) (b : AsyncCircuitBreaker) (now : datetime) :
    AsyncCircuitBreaker :=
  let state := effective_state c b now in
  if decide (state = OPEN) then b
  else mkAsyncCircuitBreaker state (cb_failures b) (cb_opened_at b) (cb_trial_in_flight b).

Definition breaker_open (c : BreakerConfig) (b : AsyncCircuitBreaker) (now : datetime) :
    AsyncCircuitBreaker :=
  mkAsyncCircuitBreaker OPEN (failure_threshold c) (Some now) (cb_trial_in_flight b).

Definition record_success (b : AsyncCircuitBreaker) : AsyncCircuitBreaker :=
  mkAsyncCircuitBreaker CLOSED 0 None false.

Definition record_failure (c : BreakerConfig) (b : AsyncCircuitBreaker) (now : datetime) :
    AsyncCircuitBreaker :=
  let b := mkAsyncCircuitBreaker (cb_state b) (cb_failures b) (cb_opened_at b) false in
  if decide (cb_state b = HALF_OPEN) then breaker_open c b now
  else
    let b := mkAsyncCircuitBreaker (cb_state b) (cb_failures b + 1) (cb_opened_at b) false in
    if decide (failure_threshold c ≤ cb_failures b)%Z then breaker_open c b now else b.

(** ** One call after the other

    [call] with nothing else running: the instants are the clock's at the admission and
    when the operation is over. *)
Definition breaker_call (c : BreakerConfig) (b : AsyncCircuitBreaker) (started ended : datetime)
    (operation : result unit) : result unit * AsyncCircuitBreaker :=
  match before_call c b started with
  | Raise e => (Raise e, after_refusal c b started)
  | Ok b =>
      match operation with
      | Ok v => (Ok v, record_success b)
      | Raise e => (Raise e, record_failure c b ended)
      end
  end.

Record call_attempt := mkCallAttempt {
  ca_started : datetime;
  ca_ended : datetime;
  ca_operation : result unit }.

Fixpoint breaker_calls (c : BreakerConfig) (b : AsyncCircuitBreaker) (calls : list call_attempt) :
    list (result unit) :=
  match calls with
  | [] => []
  | a :: calls =>
      let '(r, b) := breaker_call c b (ca_started a) (ca_ended a) (ca_operation a) in
      r :: breaker_calls c b calls
  end.

(** *** The specification

    How many calls in a row have failed since the last success, and when the last of them
    did: a call is let through while the count is below the threshold, or once the timeout
    has passed since the last failure. *)
Record failure_run := mkFailureRun { fr_count : Z; fr_last : datetime }.

Definition spec_admits (c : BreakerConfig) (f : failure_run) (now : datetime) : bool :=
  bool_decide (fr_count f < failure_threshold c)%Z ||
  bool_decide (reset_timeout c ≤ now - fr_last f)%Z.

Definition spec_call (c : BreakerConfig) (f : failure_run) (a : call_attempt) :
    result unit * failure_run :=
  if spec_admits c f (ca_started a) then
    match ca_operation a with
    | Ok v => (Ok v, mkFailureRun 0 (ca_ended a))
    | Raise e => (Raise e, mkFailureRun (fr_count f + 1) (ca_ended a))
    end
  else (Raise CircuitOpenError, f).

Fixpoint spec_calls (c : BreakerConfig) (f : failure_run) (calls : list call_attempt) :
    list (result unit) :=
  match calls with
  | [] => []
  | a :: calls => let '(r, f) := spec_call c f a in r :: spec_calls c f calls
  end.

(** ** Calls in flight together

    A system is a breaker and the admitted calls that have not ended, each with whether
    it was admitted as a trial.  An operation may also be cancelled: [CancelledError] is
    not an [Exception], so nothing is recorded. *)
Record System := mkSystem {
  sys_breaker : AsyncCircuitBreaker;
  sys_in_flight : list (N * bool) }.

Inductive breaker_event :=
  | CallArrives (id : N) (now : datetime)
  | CallSucceeds (id : N)
  | CallFails (id : N) (now : datetime)
  | CallCancelled (id : N).

Definition remove_call (id : N) (l : list (N * bool)) : list (N * bool) :=
  filter (λ c, c.1 ≠ id) l.

(** [None] for an event that cannot happen: an operation ends only while in flight. *)
Definition system_step (c : BreakerConfig) (s : System) (e : breaker_event) : option System :=
  let b := sys_breaker s in
  match e with
  | CallArrives id now =>
      if decide (id ∈ (sys_in_flight s).*1) then None
      else Some match before_call c b now with
        | Ok b => mkSystem b (sys_in_flight s ++ [(id, cb_trial_in_flight b)])
        | Raise _ => mkSystem (after_refusal c b now) (sys_in_flight s)
        end
  | CallSucceeds id =>
      if decide (id ∈ (sys_in_flight s).*1)
      then Some (mkSystem (record_success b) (remove_call id (sys_in_flight s))) else None
  | CallFails id now =>
      if decide (id ∈ (sys_in_flight s).*1)
      then Some (mkSystem (record_failure c b now) (remove_call id (sys_in_flight s))) else None
  | CallCancelled id =>
      if decide (id ∈ (sys_in_flight s).*1)
      then Some (mkSystem b (remove_call id (sys_in_flight s))) else None
  end.

Fixpoint system_run (c : BreakerConfig) (s : System) (es : list breaker_event) : option System :=
  match es with
  | [] => Some s
  | e :: es => s ← system_step c s e; system_run c s es
  end.

(** ** Lemmas *)

(** Between two calls: closed with the count, or open since the last failure. *)
Definition breaker_refines (c : BreakerConfig) (b : AsyncCircuitBreaker) (f : failure_run) : Prop :=
  cb_trial_in_flight b = false ∧
  ((cb_state b = CLOSED ∧ cb_failures b = fr_count f ∧ (fr_count f < failure_threshold c)%Z) ∨
   (cb_state b = OPEN ∧ cb_opened_at b = Some (fr_last f) ∧
    (failure_threshold c ≤ fr_count f)%Z)).

Lemma before_call_closed c fails opened now :
  before_call c (mkAsyncCircuitBreaker CLOSED fails opened false) now =
    Ok (mkAsyncCircuitBreaker CLOSED fails opened false).
Proof. done. Qed.

Lemma before_call_open c fails t now :
  let b := mkAsyncCircuitBreaker OPEN fails (Some t) false in
  before_call c b now =
    (if decide (reset_timeout c ≤ now - t)%Z
     then Ok (mkAsyncCircuitBreaker HALF_OPEN fails (Some t) true) else Raise CircuitOpenError) ∧
  (¬ (reset_timeout c ≤ now - t)%Z → after_refusal c b now = b).
Proof.
  unfold before_call, after_refusal, effective_state. cbn.
  by destruct (decide (reset_timeout c ≤ now - t)%Z).
Qed.

Lemma record_failure_closed c fails opened trial now :
  record_failure c (mkAsyncCircuitBreaker CLOSED fails opened trial) now =
  if decide (failure_threshold c ≤ fails + 1)%Z
  then mkAsyncCircuitBreaker OPEN (failure_threshold c) (Some now) false
  else mkAsyncCircuitBreaker CLOSED (fails + 1) opened false.
Proof. done. Qed.

Lemma breaker_call_refines c b f a :
  (1 ≤ failure_threshold c)%Z → breaker_refines c b f →
  let '(r, b') := breaker_call c b (ca_started a) (ca_ended a) (ca_operation a) in
  let '(r', f') := spec_call c f a in
  r = r' ∧ breaker_refines c b' f'.
Proof.
  intros Hc (Ht & Hs). destruct b as [st fails opened trial], f as [n last], a as [t0 t1 op].
  cbn [cb_state cb_failures cb_opened_at cb_trial_in_flight fr_count fr_last] in *. subst trial.
  unfold breaker_call, spec_call, spec_admits. cbn [ca_started ca_ended ca_operation fr_count fr_last].
  destruct Hs as [(-> & -> & Hn)|(-> & -> & Hn)].
  - rewrite before_call_closed, bool_decide_true by done. cbn [orb]. destruct op as [v|e].
    + split; [done|]. split; [done|]. left. cbn. split_and!; (done || lia).
    + rewrite record_failure_closed. split; [done|].
      case_decide; (split; [done|]); [right|left]; cbn; split_and!; (done || lia).
  - rewrite (bool_decide_false (n < _)%Z) by lia. cbn [orb].
    destruct (before_call_open c fails last t0) as [-> Href].
    case_decide as Hr; [rewrite bool_decide_true by done|rewrite bool_decide_false by done].
    + destruct op as [v|e]; (split; [done|]); (split; [done|]); [left|right]; cbn;
        split_and!; (done || lia).
    + rewrite Href by done. split; [done|]. split; [done|]. right. by split_and!.
Qed.

(** A trial that was cancelled with nothing else in flight: no call can end any more. *)
Definition wedged (s : System) : Prop :=
  cb_state (sys_breaker s) = HALF_OPEN ∧ cb_trial_in_flight (sys_breaker s) = true ∧
  sys_in_flight s = [].

Lemma wedged_refuses c s now :
  wedged s → before_call c (sys_breaker s) now = Raise CircuitOpenError.
Proof.
  intros (Hs & Ht & _). unfold before_call, effective_state. rewrite Hs. cbn. by rewrite Ht.
Qed.

Lemma wedged_step c s e s' : wedged s → system_step c s e = Some s' → wedged s'.
Proof.
  intros Hw H. pose proof Hw as (Hs & Ht & Hf). destruct e as [id now|id|id now|id]; cbn in H;
    rewrite Hf in H; cbn in H; [|by rewrite decide_False in H by apply not_elem_of_nil..].
  rewrite decide_False in H by apply not_elem_of_nil.
  rewrite (wedged_refuses c s now Hw) in H. injection H as <-.
  unfold after_refusal, effective_state. rewrite Hs. cbn. by split_and!.
Qed.

(** ** Theorems *)

(** One call after the other, the breaker is its specification: each call is let
    through exactly when fewer than the threshold of calls failed in a row, or the timeout
    has passed since the last failure; a call that is refused never reaches the operation,
    and one that is let through answers what the operation answers. *)
Theorem breaker_meets_specification (threshold : Z) (timeout : timedelta) (c : BreakerConfig)
    (b : AsyncCircuitBreaker) (calls : list call_attempt) :
  breaker_init threshold timeout = Ok (c, b) →
  breaker_calls c b calls = spec_calls c (mkFailureRun 0 0) calls.
Proof.
  unfold breaker_init. intros H. do 2 (case_decide; [done|]). injection H as <- <-.
  set (c := mkBreakerConfig threshold timeout).
  assert (1 ≤ failure_threshold c)%Z as Hc by (cbn; lia).
  assert (breaker_refines c (mkAsyncCircuitBreaker CLOSED 0 None false) (mkFailureRun 0 0)) as Hr
    by (split; [done|left; cbn; split_and!; (done || lia)]).
  revert Hr. generalize (mkAsyncCircuitBreaker CLOSED 0 None false) (mkFailureRun 0 0).
  induction calls as [|a calls IH]; intros b f Hr; [done|]. cbn.
  pose proof (breaker_call_refines c b f a Hc Hr) as Hcall.
  destruct (breaker_call _ _ _ _ _) as [r b'], (spec_call _ _ _) as [r' f'].
  destruct Hcall as [-> Hr']. by rewrite (IH b' f' Hr').
Qed.

(** Two failures open it; a call during the timeout is refused, the trial after it
    succeeds and closes it. *)
Definition demo_calls : list call_attempt :=
  [mkCallAttempt 0 1 (Raise (OperationError 1)); mkCallAttempt 2 3 (Raise (OperationError 1));
   mkCallAttempt 5 6 (Ok tt); mkCallAttempt 13 14 (Ok tt); mkCallAttempt 15 16 (Ok tt)].

Lemma breaker_meets_specification_witness :
  ∃ c b, breaker_init 2 10 = Ok (c, b) ∧
    breaker_calls c b demo_calls = spec_calls c (mkFailureRun 0 0) demo_calls ∧
    breaker_calls c b demo_calls =
      [Raise (OperationError 1); Raise (OperationError 1); Raise CircuitOpenError; Ok tt; Ok tt].
Proof.
  exists (mkBreakerConfig 2 10), (mkAsyncCircuitBreaker CLOSED 0 None false).
  split; [reflexivity|]. split; [|reflexivity].
  apply (breaker_meets_specification 2 10 _ _ demo_calls). reflexivity.
Defined.

(** A cancelled trial wedges the breaker: once the only call in flight was a trial
    and was cancelled, whatever happens afterwards and however much time passes, every
    call that arrives is refused and the breaker never leaves the half-open state. *)
Theorem cancelled_trial_wedges (c : BreakerConfig) (s s' : System) (es : list breaker_event) :
  wedged s → system_run c s es = Some s' →
  wedged s' ∧ ∀ now, before_call c (sys_breaker s') now = Raise CircuitOpenError.
Proof.
  intros Hw Hrun. enough (wedged s') as Hw' by (split; [done|intros; by apply wedged_refuses]).
  revert s Hw Hrun. induction es as [|e es IH]; intros s Hw Hrun; [by injection Hrun as <-|].
  cbn in Hrun. destruct (system_step c s e) as [s1|] eqn:E; [|done].
  apply (IH s1); [by eapply wedged_step|done].
Qed.

(** The state is reached: a failure opens a breaker of threshold one, its trial is
    cancelled, and a year later calls are still refused. *)
Lemma cancelled_trial_wedges_witness :
  ∃ c b s s', breaker_init 1 10 = Ok (c, b) ∧
    system_run c (mkSystem b []) [CallArrives 1 0; CallFails 1 1; CallArrives 2 20; CallCancelled 2]
      = Some s ∧
    system_run c s [CallArrives 3 100; CallArrives 4 (days 365)] = Some s' ∧
    before_call c (sys_breaker s') (days 400) = Raise CircuitOpenError.
Proof.
  set (s := mkSystem (mkAsyncCircuitBreaker HALF_OPEN 1 (Some 1%Z) true) []).
  exists (mkBreakerConfig 1 10), (mkAsyncCircuitBreaker CLOSED 0 None false), s, s.
  split; [reflexivity|]. split; [reflexivity|]. split; [reflexivity|].
  apply (cancelled_trial_wedges (mkBreakerConfig 1 10) s s
    [CallArrives 3 100; CallArrives 4 (days 365)]); [by split_and!|reflexivity].
Defined.

(** The promise of a single trial needs more than the code checks: a call admitted before
    the breaker opened that fails while the trial is running reopens it and forgets the
    trial, and after the timeout a second trial joins the first. *)
Lemma late_failure_two_trials :
  ∃ c b s, breaker_init 1 10 = Ok (c, b) ∧
    system_run c (mkSystem b []) [CallArrives 1 0; CallArrives 2 0; CallFails 1 1;
      CallArrives 3 20; CallFails 2 21; CallArrives 4 40] = Some s ∧
    sys_in_flight s = [(3%N, true); (4%N, true)].
Proof. by eexists _, _, _. Qed.
