(* ===== verification/CareSagas.v ===== *)
(** The choreography sagas of the care context: the missed-care grace window with its
    timer ([application/sagas/missed_care.py]) and the reaction to telemetry
    ([application/sagas/adaptive_watering.py]). *)

From S2P Require Import Prelude Domain Care Garden Telemetry Notification Topics Rows Views.
From S2P Require Import Database UnitOfWork Repositories Commands Delivery Consumers.

(** ** Missed care *)

Definition GRACE_PERIOD : timedelta := hours 24.
Definition TICK_BATCH_SIZE : nat := 200.

Definition on_watering_due (env : Env) (plant_id : PlantId) (due_at : datetime) : tx unit :=
  found ← plants_get plant_id;
  match found with
  | None => mret tt
  | Some plant =>
      existing ← windows_get plant_id;
      if match existing with
         | Some w => bool_decide (mcw_state w = PENDING) && bool_decide (mcw_due_at w = due_at)
         | None => false
         end
      then mret tt
      else
        grace_deadline ← tx_lift (dt_add due_at GRACE_PERIOD);
        windows_save (mkMissedCareWindowModel (uuid_value plant_id)
          (uuid_value (p_household_id plant)) due_at grace_deadline PENDING (env_now env))
  end.

(** [window.model_copy(update=...)]. *)
Definition window_in (state : MissedCareState) (updated_at : datetime)
    (w : MissedCareWindowModel) : MissedCareWindowModel :=
  mkMissedCareWindowModel (mcw_plant_id w) (mcw_household_id w) (mcw_due_at w)
    (mcw_grace_deadline w) state updated_at.

Definition on_watering_completed (env : Env) (plant_id : PlantId) (completed_at : datetime) :
    tx unit :=
  window ← windows_get plant_id;
  match window with
  | None => mret tt
  | Some w =>
      if negb (bool_decide (mcw_state w = PENDING)) then mret tt
      else if bool_decide (mcw_grace_deadline w < completed_at)%Z then mret tt
      else windows_save (window_in SATISFIED (env_now env) w)
  end.

Definition MissedCareSaga_handle (env : Env) (e : DomainEvent) : tx unit :=
  match body e with
  | WateringDue plant_id due_at => on_watering_due env plant_id due_at
  | WateringCompleted plant_id completed_at _ => on_watering_completed env plant_id completed_at
  | _ => mret tt
  end.

Definition MissedCareSaga (env : Env) : Consumer :=
  mkConsumer "missed-care" ["WateringDue"; "WateringCompleted"] (MissedCareSaga_handle env).

(** *** The scheduled half *)

(** The body of [_open_windows_for_due]'s loop; the [k]-th event takes [mint k]. *)
Fixpoint open_windows (now : datetime) (mint : nat → uuid) (k : nat)
    (due : list CareSchedule) : tx unit :=
  match due with
  | [] => mret tt
  | schedule :: due =>
      found ← plants_get (cs_plant_id schedule);
      match found with
      | None => open_windows now mint k due
      | Some plant =>
          schedule ← tx_lift (CareSchedule_mark_due schedule now (mint k));
          _ ← schedules_save schedule;
          grace_deadline ← tx_lift (dt_add (cs_next_watering_at schedule) GRACE_PERIOD);
          _ ← windows_save (mkMissedCareWindowModel (uuid_value (cs_plant_id schedule))
            (uuid_value (p_household_id plant)) (cs_next_watering_at schedule) grace_deadline
            PENDING now);
          open_windows now mint (S k) due
      end
  end.

Definition open_windows_for_due (now : datetime) (mint : nat → uuid) : tx nat :=
  due ← schedules_list_due_without_pending_window now TICK_BATCH_SIZE;
  _ ← open_windows now mint 0 due;
  mret (length due).

(** The body of [_escalate_expired]'s loop. *)
Fixpoint escalate (now : datetime) (mint : nat → uuid) (k : nat)
    (expired : list MissedCareWindowModel) : tx unit :=
  match expired with
  | [] => mret tt
  | window :: expired =>
      found ← schedules_get_for_update (Uuid (mcw_plant_id window));
      match found with
      | None => escalate now mint k expired
      | Some schedule =>
          schedule ← tx_lift (CareSchedule_mark_missed schedule now (cs_version schedule) (mint k));
          _ ← schedules_save_reloaded schedule;
          _ ← windows_save (window_in MISSED now window);
          escalate now mint (S k) expired
      end
  end.

Definition escalate_expired (now : datetime) (mint : nat → uuid) (k : nat) : tx nat :=
  expired ← windows_list_overdue now TICK_BATCH_SIZE;
  _ ← escalate now mint k expired;
  mret (length expired).

Definition escalate_overdue (now : datetime) (mint : nat → uuid) : tx nat :=
  transaction (k ← open_windows_for_due now mint; escalate_expired now mint k).

(** ** Adaptive watering *)

Definition WATERING_HORIZON : timedelta := days 2.
Definition RESCHEDULE_REASON : string := "telemetry: soil moisture below threshold".

Definition on_telemetry_received (env : Env) (plant_id : PlantId) (moisture : Moisture) :
    tx unit :=
  let now := env_now env in
  found ← schedules_get_for_update plant_id;
  match found with
  | None => mret tt
  | Some schedule =>
      if float_le MOISTURE_LOW_THRESHOLD (moisture_value moisture) then mret tt
      else if bool_decide (cs_next_watering_at schedule - now ≤ WATERING_HORIZON)%Z then mret tt
      else
        schedule ← tx_lift (CareSchedule_reschedule schedule now now (cs_version schedule)
          (Some RESCHEDULE_REASON) (env_mint env 0));
        schedules_save schedule
  end.

Definition on_soil_moisture_high (env : Env) (plant_id : PlantId) (moisture : Moisture)
    (threshold : float) : tx unit :=
  found ← plants_get plant_id;
  match found with
  | None => mret tt
  | Some plant =>
      unread ← has_unread (p_household_id plant) SOIL_MOISTURE_HIGH plant_id;
      if (unread : bool) then mret tt
      else notifications_add (Notification_create (p_household_id plant) SOIL_MOISTURE_HIGH
        (env_now env)
        (Some (list_to_map [("plant_id"%string, JUuid (uuid_value plant_id));
           ("moisture"%string, JFloat (moisture_value moisture));
           ("threshold"%string, JFloat threshold)]))
        None (env_mint env 0) (env_mint env 1))
  end.

Definition AdaptiveWateringSaga_handle (env : Env) (e : DomainEvent) : tx unit :=
  match body e with
  | TelemetryReceived _ plant_id _ moisture _ _ => on_telemetry_received env plant_id moisture
  | SoilMoistureHigh _ plant_id moisture threshold =>
      on_soil_moisture_high env plant_id moisture threshold
  | _ => mret tt
  end.

Definition AdaptiveWateringSaga (env : Env) : Consumer :=
  mkConsumer "adaptive-watering" ["TelemetryReceived"; "SoilMoistureHigh"]
    (AdaptiveWateringSaga_handle env).

(** ** What a tick does, on the rows *)

(** A table keyed by the plant of its rows. *)
Definition keyed {V} (id : V → uuid) (t : gmap uuid V) : Prop := ∀ k v, t !! k = Some v → id v = k.

Definition newly_due (d : Database) (now : datetime) : list CareScheduleModel :=
  take TICK_BATCH_SIZE (select_rows (db_care_schedules d)
    (λ m, schedule_active d m && bool_decide (csm_next_watering_at m ≤ now)%Z &&
       negb (has_pending_window d (csm_plant_id m))) schedule_due_key).

Definition opened_row (plants : gmap uuid PlantModel) (now : datetime) (m : CareScheduleModel) :
    MissedCareWindowModel :=
  mkMissedCareWindowModel (csm_plant_id m)
    (from_option pm_household_id 0%N (plants !! csm_plant_id m))
    (csm_next_watering_at m) (csm_next_watering_at m + GRACE_PERIOD) PENDING now.

(** A table after a list of upserts. *)
Definition upserts {X V} (key : X → uuid) (val : X → V) (t : gmap uuid V) (l : list X) :
    gmap uuid V := foldl (λ t x, <[key x := val x]> t) t l.

Definition opened_windows (plants : gmap uuid PlantModel) (now : datetime)
    (due : list CareScheduleModel) (t : gmap uuid MissedCareWindowModel) :
    gmap uuid MissedCareWindowModel :=
  upserts csm_plant_id (opened_row plants now) t due.

(** The expired windows of the batch whose plant still has a schedule, with it. *)
Definition missed_of (schedules : gmap uuid CareScheduleModel)
    (expired : list MissedCareWindowModel) : list (MissedCareWindowModel * CareScheduleModel) :=
  omap (λ w, (λ m, (w, m)) <$> schedules !! mcw_plant_id w) expired.

Definition shifted_row (m : CareScheduleModel) : CareScheduleModel :=
  mkCareScheduleModel (csm_plant_id m) (csm_watering_interval m)
    (csm_next_watering_at m + csm_watering_interval m) (csm_version m + 1).

Definition missed_windows (now : datetime)
    (missed : list (MissedCareWindowModel * CareScheduleModel))
    (t : gmap uuid MissedCareWindowModel) : gmap uuid MissedCareWindowModel :=
  upserts (λ x, mcw_plant_id x.1) (λ x, window_in MISSED now x.1) t missed.
Definition missed_schedules (missed : list (MissedCareWindowModel * CareScheduleModel))
    (t : gmap uuid CareScheduleModel) : gmap uuid CareScheduleModel :=
  upserts (λ x, csm_plant_id x.2) (λ x, shifted_row x.2) t missed.

Definition due_event (now : datetime) (eid : uuid) (m : CareScheduleModel) : DomainEvent :=
  mkEvent eid now (WateringDue (Uuid (csm_plant_id m)) (csm_next_watering_at m)).
Definition missed_event (now : datetime) (eid : uuid) (m : CareScheduleModel) : DomainEvent :=
  mkEvent eid now (CareMissed (Uuid (csm_plant_id m)) (csm_next_watering_at (shifted_row m))).

Definition due_events (now : datetime) (mint : nat → uuid) (k : nat)
    (l : list CareScheduleModel) : list DomainEvent :=
  imap (λ i m, due_event now (mint (k + i)) m) l.
Definition missed_events (now : datetime) (mint : nat → uuid) (k : nat)
    (l : list (MissedCareWindowModel * CareScheduleModel)) : list DomainEvent :=
  imap (λ i x, missed_event now (mint (k + i)) x.2) l.

(** ** Lemmas *)

#[export] Hint Unfold on_watering_due on_watering_completed open_windows_for_due
  escalate_expired on_telemetry_received on_soil_moisture_high : repo.

#[export] Instance open_windows_staging now mint k l :
  Staging domain_write (open_windows now mint k l).
Proof. revert k. induction l; intros k; cbn; stage. Qed.
#[export] Instance open_windows_coherent now mint k l : Coherent (open_windows now mint k l).
Proof. revert k. induction l; intros k; cbn; stage. Qed.
#[export] Instance escalate_staging now mint k l :
  Staging domain_write (escalate now mint k l).
Proof. revert k. induction l; intros k; cbn; stage. Qed.
#[export] Instance escalate_coherent now mint k l : Coherent (escalate now mint k l).
Proof. revert k. induction l; intros k; cbn; stage. Qed.

Lemma MissedCareSaga_handler env e : Handler (MissedCareSaga_handle env e).
Proof. unfold MissedCareSaga_handle. destruct (body e); handler. Qed.
Lemma AdaptiveWateringSaga_handler env e : Handler (AdaptiveWateringSaga_handle env e).
Proof. unfold AdaptiveWateringSaga_handle. destruct (body e); handler. Qed.

(** A new object goes to the end of the tracker. *)
Lemma track_in_new r es l : r ∉ l.*1 → track_in r es l = l ++ [(r, es)].
Proof.
  induction l as [|[r' es'] l IH]; [done|]. cbn. rewrite not_elem_of_cons. intros [Hr Hl].
  rewrite decide_False by done. by rewrite IH.
Qed.

Lemma windows_save_run w s :
  ∃ s', windows_save w s = (Ok tt, s') ∧ ss_conflict s' = ss_conflict s ∧
    ss_tracked s' = ss_tracked s ∧
    ss_view s' = set_windows (ss_view s) (<[mcw_plant_id w := w]> (db_windows (ss_view s))).
Proof. eexists. by split_and!. Qed.

(** Saving a schedule, as the first or as a second object of its row. *)
Definition saved_schedule (c : entity_class) (sc : CareSchedule) (s s' : Session) : Prop :=
  ss_conflict s' = ss_conflict s ∧
  ss_tracked s' = track_in (c, uuid_value (cs_plant_id sc)) (cs_events sc) (ss_tracked s) ∧
  ss_view s' = set_care_schedules (ss_view s)
    (<[uuid_value (cs_plant_id sc) := care_schedule_to_model sc]> (db_care_schedules (ss_view s))).

Lemma schedules_save_run sc s :
  ∃ s', schedules_save sc s = (Ok tt, s') ∧ saved_schedule ECareSchedule sc s s'.
Proof. eexists. by repeat split. Qed.
Lemma schedules_save_reloaded_run sc s :
  ∃ s', schedules_save_reloaded sc s = (Ok tt, s') ∧ saved_schedule EReloadedSchedule sc s s'.
Proof. eexists. by repeat split. Qed.

Lemma schedules_get_inv p s found s' :
  schedules_get p s = (Ok found, s') →
  s' = s ∧ match db_care_schedules (ss_view s) !! uuid_value p with
  | None => found = None
  | Some m => ∃ sc, found = Some sc ∧ care_schedule_to_domain m = Ok sc
  end.
Proof.
  unfold schedules_get. intros H. tx_inv. split; [done|].
  destruct (db_care_schedules _ !! _) as [m|]; cbn in *; [|by simplify_eq].
  destruct (care_schedule_to_domain m); naive_solver.
Qed.

(** The loop over newly due schedules: a window each, and the schedules untouched. *)
Lemma open_windows_inv now mint k due l s s' :
  ss_conflict s = false →
  mapM_result care_schedule_to_domain l = Ok due →
  (∀ m, m ∈ l → db_care_schedules (ss_view s) !! csm_plant_id m = Some m) →
  (∀ m, m ∈ l → is_Some (db_plants (ss_view s) !! csm_plant_id m)) →
  NoDup (csm_plant_id <$> l) →
  (∀ m, m ∈ l → (ECareSchedule, csm_plant_id m) ∉ (ss_tracked s).*1) →
  open_windows now mint k due s = (Ok tt, s') →
  ss_conflict s' = false ∧
  db_plants (ss_view s') = db_plants (ss_view s) ∧
  db_care_schedules (ss_view s') = db_care_schedules (ss_view s) ∧
  db_windows (ss_view s') =
    opened_windows (db_plants (ss_view s)) now l (db_windows (ss_view s)) ∧
  ss_tracked s' = ss_tracked s ++
    imap (λ i m, ((ECareSchedule, csm_plant_id m), [due_event now (mint (k + i)) m])) l.
Proof.
  revert k due s. induction l as [|m l IH]; intros k due s Hc Hdue Hrow Hplant Hnd Hnew H.
  { injection Hdue as <-. injection H as <-. by rewrite app_nil_r. }
  cbn in Hdue. apply bind_Ok in Hdue as (sc & Hsc & Hdue).
  apply bind_Ok in Hdue as (due' & Hdue & [= <-]).
  destruct (care_schedule_to_domain_Ok _ _ Hsc) as (_ & Hev & _ & Hid).
  apply NoDup_cons in Hnd as [Hm Hnd].
  cbn [open_windows] in H. rewrite Hid in H.
  apply tx_bind_inv in H as (found & s1 & Hg & H). unfold plants_get in Hg. tx_inv. cbn [uuid_value] in *.
  destruct (Hplant m) as [pm Hpm]; [by left|]. rewrite Hpm in *. cbn in *.
  destruct (plant_to_domain pm) as [plant|] eqn:Hp; [|done]. cbn in *. simplify_eq.
  destruct (plant_to_domain_Ok _ _ Hp) as (_ & _ & Hhh & _).
  apply tx_bind_inv in H as (sc' & s1 & Hm' & H). apply tx_lift_inv in Hm' as [Hm' ->].
  unfold CareSchedule_mark_due in Hm'. case_decide as Hdue'; [done|]. injection Hm' as <-.
  match type of H with (_ ← schedules_save ?x; _) _ = _ =>
    destruct (schedules_save_run x s) as (s1 & Hsave & Hc1 & Ht1 & Hv1) end.
  rewrite (tx_bind_Ok _ _ _ _ _ Hsave) in H.
  apply tx_bind_inv in H as (dl & s2 & Hdl & H). apply tx_lift_inv in Hdl as [Hdl ->].
  apply dt_add_Ok in Hdl as ->.
  match type of H with (_ ← windows_save ?x; _) _ = _ =>
    destruct (windows_save_run x s1) as (s2 & Hwin & Hc2 & Ht2 & Hv2) end.
  rewrite (tx_bind_Ok _ _ _ _ _ Hwin) in H.
  destruct (care_schedule_to_domain_Ok _ _ Hsc) as (_ & _ & Hmod & _).
  assert (db_plants (ss_view s2) = db_plants (ss_view s)) as Hvp by (by rewrite Hv2, Hv1).
  assert (db_care_schedules (ss_view s2) = db_care_schedules (ss_view s)) as Hvs.
  { rewrite Hv2, Hv1. apply insert_id. pose proof (Hrow m ltac:(by left)) as Hrm.
    rewrite <- Hmod in Hrm. exact Hrm. }
  assert (db_windows (ss_view s2) = <[csm_plant_id m := opened_row (db_plants (ss_view s)) now m]>
    (db_windows (ss_view s))) as Hvw.
  { rewrite Hv2, Hv1. unfold opened_row. rewrite Hpm, <- Hmod. cbn. by rewrite Hhh. }
  assert (ss_tracked s2 = ss_tracked s ++
    [((ECareSchedule, csm_plant_id m), [due_event now (mint k) m])]) as Htr.
  { pose proof (Hnew m ltac:(by left)) as Hn. unfold due_event. rewrite <- Hmod in Hn |- *.
    rewrite Ht2, Ht1, track_in_new by exact Hn. cbn. by rewrite Hev, Uuid_eta. }
  destruct (IH (S k) due' s2) as (Hc' & Hp' & Hs' & Hw' & Ht'); try done.
  - by rewrite Hc2, Hc1.
  - intros m' Hm'. rewrite Hvs. apply Hrow. by right.
  - intros m' Hm'. rewrite Hvp. apply Hplant. by right.
  - intros m' Hm'. rewrite Htr, fmap_app, not_elem_of_app. split.
    + apply Hnew. by right.
    + intros [= Heq]%list_elem_of_singleton. apply Hm. rewrite <- Heq. by apply list_elem_of_fmap_2.
  - split_and!; [done|by rewrite Hp'|by rewrite Hs'| |].
    + rewrite Hw', Hvw, Hvp. done.
    + rewrite Ht', Htr, <- app_assoc. f_equal. cbn. rewrite Nat.add_0_r. f_equal.
      apply imap_ext. intros i x _. cbn. by rewrite <- plus_n_Sm.
Qed.

(** The loop over expired windows. *)
Lemma escalate_inv now mint k l s s' :
  ss_conflict s = false →
  keyed csm_plant_id (db_care_schedules (ss_view s)) →
  NoDup (mcw_plant_id <$> l) →
  (∀ w, w ∈ l → (EReloadedSchedule, mcw_plant_id w) ∉ (ss_tracked s).*1) →
  escalate now mint k l s = (Ok tt, s') →
  let missed := missed_of (db_care_schedules (ss_view s)) l in
  ss_conflict s' = false ∧
  db_care_schedules (ss_view s') = missed_schedules missed (db_care_schedules (ss_view s)) ∧
  db_windows (ss_view s') = missed_windows now missed (db_windows (ss_view s)) ∧
  ss_tracked s' = ss_tracked s ++
    imap (λ i x, ((EReloadedSchedule, csm_plant_id x.2), [missed_event now (mint (k + i)) x.2]))
      missed.
Proof.
  revert k s. induction l as [|w l IH]; intros k s Hc Hkey Hnd Hnew H missed.
  { injection H as <-. subst missed. cbn. by rewrite app_nil_r. }
  rewrite fmap_cons, NoDup_cons in Hnd. destruct Hnd as [Hw Hnd].
  cbn [escalate] in H. apply tx_bind_inv in H as (found & s1 & Hg & H).
  apply schedules_get_inv in Hg as [-> Hg]. cbn [uuid_value] in Hg.
  destruct (db_care_schedules (ss_view s) !! mcw_plant_id w) as [m|] eqn:Em.
  2:{ subst found missed. unfold missed_of. cbn [omap list_omap]. rewrite Em. cbn [fmap option_fmap].
      apply (IH k s); try done. intros w' Hw'. apply Hnew. by right. }
  destruct Hg as (sc & -> & Hsc).
  destruct (care_schedule_to_domain_Ok _ _ Hsc) as (_ & Hev & Hmod & Hid).
  pose proof (Hkey _ _ Em) as Hmk.
  apply tx_bind_inv in H as (sc' & s1 & Hm' & H). apply tx_lift_inv in Hm' as [Hm' ->].
  unfold CareSchedule_mark_missed, CareSchedule_ensure_version in Hm'.
  rewrite decide_False in Hm' by auto. cbn in Hm'. apply bind_Ok in Hm' as (next & Hn & [= <-]).
  apply dt_add_Ok in Hn as ->.
  match type of H with (_ ← schedules_save_reloaded ?x; _) _ = _ =>
    destruct (schedules_save_reloaded_run x s) as (s1 & Hsave & Hc1 & Ht1 & Hv1) end.
  rewrite (tx_bind_Ok _ _ _ _ _ Hsave) in H.
  match type of H with (_ ← windows_save ?x; _) _ = _ =>
    destruct (windows_save_run x s1) as (s2 & Hwin & Hc2 & Ht2 & Hv2) end.
  rewrite (tx_bind_Ok _ _ _ _ _ Hwin) in H.
  assert (db_care_schedules (ss_view s2) =
    <[csm_plant_id m := shifted_row m]> (db_care_schedules (ss_view s))) as Hvs.
  { rewrite Hv2, Hv1. unfold shifted_row. by rewrite <- Hmod. }
  assert (db_windows (ss_view s2) = <[mcw_plant_id w := window_in MISSED now w]>
    (db_windows (ss_view s))) as Hvw by (by rewrite Hv2, Hv1).
  assert (ss_tracked s2 = ss_tracked s ++
    [((EReloadedSchedule, csm_plant_id m), [missed_event now (mint k) m])]) as Htr.
  { pose proof (Hnew w ltac:(by left)) as Hn'. rewrite <- Hmk in Hn'. unfold missed_event, shifted_row.
    rewrite <- Hmod in Hn' |- *. rewrite Ht2, Ht1, track_in_new by exact Hn'.
    cbn. by rewrite Hev, Uuid_eta. }
  assert (missed_of (db_care_schedules (ss_view s2)) l = missed_of (db_care_schedules (ss_view s)) l)
    as Hrest.
  { clear -Hw Hvs Hmk. induction l as [|w' l IH]; [done|].
    rewrite fmap_cons, not_elem_of_cons in Hw. destruct Hw as [Hne Hw].
    unfold missed_of in *. cbn [omap list_omap].
    rewrite Hvs, lookup_insert_ne by congruence. rewrite <- Hvs. by rewrite IH. }
  destruct (IH (S k) s2) as (Hc' & Hs' & Hw' & Ht'); try done.
  - by rewrite Hc2, Hc1.
  - intros k' v. rewrite Hvs, lookup_insert_Some. intros [[<- <-]|[_ Hv]]; [done|by apply Hkey].
  - intros w' Hw''. rewrite Htr, fmap_app, not_elem_of_app. split; [apply Hnew; by right|].
    intros [= Heq]%list_elem_of_singleton. apply Hw. rewrite <- Hmk, <- Heq.
    by apply list_elem_of_fmap_2.
  - rewrite Hrest in *. subst missed. unfold missed_of. cbn [omap list_omap]. rewrite Em.
    cbn [fmap option_fmap]. split_and!; [done| | |].
    + by rewrite Hs', Hvs.
    + by rewrite Hw', Hvw.
    + rewrite Ht', Htr, <- app_assoc. f_equal. cbn. rewrite Nat.add_0_r. f_equal.
      apply imap_ext. intros i x _. cbn. by rewrite <- plus_n_Sm.
Qed.

Lemma select_rows_NoDup {V} (id : V → uuid) (t : gmap uuid V) P key :
  keyed id t → NoDup (id <$> select_rows t P key).
Proof.
  intros Hk. unfold select_rows. rewrite merge_sort_Permutation. apply NoDup_fmap_filter.
  rewrite <- list_fmap_compose.
  assert ((id ∘ snd) <$> map_to_list t = (map_to_list t).*1) as ->; [|apply NoDup_fst_map_to_list].
  apply list_fmap_ext. intros i [k v] Hi%list_elem_of_lookup_2%elem_of_map_to_list.
  cbn. by apply Hk.
Qed.

Lemma NoDup_fmap_take {A B} (f : A → B) n (l : list A) : NoDup (f <$> l) → NoDup (f <$> take n l).
Proof. intros H. rewrite fmap_take. apply (sublist_NoDup _ _ H), sublist_take. Qed.

Lemma elem_of_take_1 {A} n (l : list A) x : x ∈ take n l → x ∈ l.
Proof. intros (i & [Hi _]%lookup_take_Some)%list_elem_of_lookup_1. by eapply list_elem_of_lookup_2. Qed.

Section Upserts.
Context {X V : Type} (key : X → uuid) (val : X → V).

Lemma upserts_other t l p : (∀ x, x ∈ l → key x ≠ p) → upserts key val t l !! p = t !! p.
Proof.
  unfold upserts. revert t. induction l as [|x l IH]; intros t Hne; [done|]. cbn [foldl].
  rewrite IH by (intros; apply Hne; by right). by rewrite lookup_insert_ne by (apply Hne; by left).
Qed.

Lemma upserts_lookup t l p v :
  upserts key val t l !! p = Some v →
  (∃ x, x ∈ l ∧ key x = p ∧ v = val x) ∨ (t !! p = Some v ∧ ∀ x, x ∈ l → key x ≠ p).
Proof.
  unfold upserts. revert t. induction l as [|y l IH]; intros t; cbn [foldl].
  - intros H. right. split; [done|]. by intros x ?%not_elem_of_nil.
  - intros [(x & Hx & Hk & ->)|[Hp Hl]]%IH; [left; exists x; split; [by right|done]|].
    apply lookup_insert_Some in Hp as [[Hk <-]|[Hk Hp]].
    + left. exists y. split; [by left|done].
    + right. split; [done|]. by intros x [->|Hx]%elem_of_cons; [|apply Hl].
Qed.

Lemma upserts_is_Some t l p : is_Some (t !! p) → is_Some (upserts key val t l !! p).
Proof.
  unfold upserts. revert t. induction l as [|y l IH]; intros t Ht; [done|]. apply IH.
  destruct (decide (key y = p)) as [<-|Hne]; [by rewrite lookup_insert_eq|by rewrite lookup_insert_ne].
Qed.

Lemma upserts_elem t l x : NoDup (key <$> l) → x ∈ l → upserts key val t l !! key x = Some (val x).
Proof.
  unfold upserts. revert t. induction l as [|y l IH]; intros t Hnd Hx; [by apply not_elem_of_nil in Hx|].
  rewrite fmap_cons, NoDup_cons in Hnd. destruct Hnd as [Hy Hnd]. cbn [foldl].
  apply elem_of_cons in Hx as [->|Hx]; [|by apply IH].
  etrans; [apply (upserts_other (<[key y := val y]> t) l (key y))|apply lookup_insert_eq].
  intros z Hz Heq. apply Hy. rewrite <- Heq. by apply list_elem_of_fmap_2.
Qed.

Lemma upserts_keyed (id : V → uuid) t l :
  (∀ x, id (val x) = key x) → keyed id t → keyed id (upserts key val t l).
Proof.
  unfold upserts. intros Hid. revert t. induction l as [|x l IH]; intros t Ht; [done|].
  cbn [foldl]. apply IH. intros k v. rewrite lookup_insert_Some.
  intros [[<- <-]|[_ Hv]]; [apply Hid|by apply Ht].
Qed.
End Upserts.

Lemma concat_imap_singletons {A B C} (r : nat → A → C) (f : nat → A → B) (l : list A) :
  concat (imap (λ i x, (r i x, [f i x])) l).*2 = imap f l.
Proof.
  revert r f. induction l as [|x l IH]; intros r f; [done|]. cbn. f_equal.
  apply (IH (λ i, r (S i)) (λ i, f (S i))).
Qed.

(** The expired windows a tick looks at, after the windows it opened. *)
Definition expired_windows (now : datetime) (t : gmap uuid MissedCareWindowModel) :
    list MissedCareWindowModel :=
  take TICK_BATCH_SIZE (select_rows t
    (λ w, bool_decide (mcw_state w = PENDING) && bool_decide (mcw_grace_deadline w ≤ now)%Z)
    (λ w, (mcw_grace_deadline w, Z.of_N (mcw_plant_id w)))).

Definition care_keyed (d : Database) : Prop :=
  keyed csm_plant_id (db_care_schedules d) ∧ keyed mcw_plant_id (db_windows d).

Lemma newly_due_spec d now m :
  care_keyed d → m ∈ newly_due d now →
  db_care_schedules d !! csm_plant_id m = Some m ∧ is_Some (db_plants d !! csm_plant_id m) ∧
  (csm_next_watering_at m ≤ now)%Z ∧ has_pending_window d (csm_plant_id m) = false.
Proof.
  intros [Hk _] [HP [k Hm]]%elem_of_take_1%elem_of_select_rows.
  pose proof (Hk _ _ Hm) as Hid. subst k. rewrite !andb_true_iff, bool_decide_eq_true, negb_true_iff in HP. destruct HP as [[Ha Hn] Hp].
  split_and!; try done. unfold schedule_active in Ha. by destruct (db_plants d !! _).
Qed.

Lemma tick_body now mint d v s :
  care_keyed d →
  (k ← open_windows_for_due now mint; escalate_expired now mint k) (open_session d None id) =
    (Ok v, s) →
  let due := newly_due d now in
  let opened := opened_windows (db_plants d) now due (db_windows d) in
  let missed := missed_of (db_care_schedules d) (expired_windows now opened) in
  v = length (expired_windows now opened) ∧
  db_care_schedules (ss_view s) = missed_schedules missed (db_care_schedules d) ∧
  db_windows (ss_view s) = missed_windows now missed opened ∧
  tracked_events s = due_events now mint 0 due ++ missed_events now mint (length due) missed.
Proof.
  intros Hd H due opened missed. pose proof Hd as [Hks Hkw].
  apply tx_bind_inv in H as (k & s1 & H1 & H2).
  unfold open_windows_for_due in H1. apply tx_bind_inv in H1 as (schedules & s0 & Hl & H1).
  unfold schedules_list_due_without_pending_window in Hl. revert H1 H2. tx_inv.
  cbn [ss_view open_session] in *. intros Hopening Hclosing. match goal with H : mapM_result _ _ = Ok _ |- _ => rename H into Hrows end.
  apply tx_bind_inv in Hopening as ([] & s2 & Hopen & [-> ->]%tx_ret_inv).
  assert (length schedules = length due) as Hlen.
  { clear -Hrows. subst due. unfold newly_due. revert schedules Hrows.
    generalize (take TICK_BATCH_SIZE (select_rows (db_care_schedules d)
      (λ m, schedule_active d m && bool_decide (csm_next_watering_at m ≤ now)%Z &&
        negb (has_pending_window d (csm_plant_id m))) schedule_due_key)) as l.
    induction l as [|m l IH]; intros sc H; [by injection H as <-|].
    cbn in H. apply bind_Ok in H as (? & _ & H). apply bind_Ok in H as (? & ? & [= <-]).
    cbn. f_equal. by apply IH. }
  destruct (open_windows_inv now mint 0 schedules due (open_session d None id) s2)
    as (Hc & Hp & Hs & Hw & Ht); try done.
  - intros m Hm. by apply (newly_due_spec d now m Hd Hm).
  - intros m Hm. by apply (newly_due_spec d now m Hd Hm).
  - by apply NoDup_fmap_take, select_rows_NoDup.
  - intros m _ []%not_elem_of_nil.
  - cbn [ss_view open_session] in *. unfold escalate_expired in Hclosing.
    apply tx_bind_inv in Hclosing as (expired & s3 & Hex & Hclosing). unfold windows_list_overdue in Hex.
    apply query_inv in Hex as (-> & -> & _).
    assert (overdue_windows (ss_view s2) now TICK_BATCH_SIZE = expired_windows now opened) as Hexp
      by (unfold overdue_windows; by rewrite Hw).
    rewrite Hexp in Hclosing. apply tx_bind_inv in Hclosing as ([] & s4 & Hesc & [-> ->]%tx_ret_inv).
    destruct (escalate_inv now mint (length schedules) (expired_windows now opened) s2 s4)
      as (_ & Hs' & Hw' & Ht'); try done.
    + by rewrite Hs.
    + apply NoDup_fmap_take, select_rows_NoDup. by apply upserts_keyed.
    + intros w _. rewrite Ht. cbn. intros (x & Hx & Hin)%list_elem_of_fmap.
      apply elem_of_lookup_imap in Hin as (i & y & -> & _). done.
    + rewrite Hs in Hs', Hw', Ht'. split_and!; [done|done|by rewrite Hw', Hw|].
      unfold tracked_events. rewrite Ht', Ht. cbn. rewrite fmap_app, concat_app, Hlen.
      by rewrite !concat_imap_singletons.
Qed.

(** A tick either changes nothing or commits exactly this. *)
Record ticked (now : datetime) (mint : nat → uuid) (d d' : Database) : Prop := mkTicked {
  tk_opened := opened_windows (db_plants d) now (newly_due d now) (db_windows d);
  tk_missed := missed_of (db_care_schedules d) (expired_windows now tk_opened);
  tk_events : published d' = published d ++ due_events now mint 0 (newly_due d now) ++
    missed_events now mint (length (newly_due d now)) tk_missed;
  tk_windows : db_windows d' = missed_windows now tk_missed tk_opened;
  tk_schedules : db_care_schedules d' = missed_schedules tk_missed (db_care_schedules d) }.

Lemma tick_run now mint d :
  care_keyed d →
  (∃ e, run_request (escalate_overdue now mint) d = (Raise e, d)) ∨
  ∃ d', run_request (escalate_overdue now mint) d =
      (Ok (length (expired_windows now
         (opened_windows (db_plants d) now (newly_due d now) (db_windows d)))), d') ∧
    ticked now mint d d'.
Proof.
  intros Hd. unfold escalate_overdue. set (body := mbind _ _).
  assert (Staging domain_write body) as Hst by (subst body; stage).
  assert (Coherent body) as Hco by (subst body; stage).
  destruct (transaction_any body d (staging_mono domain_write any_write body (λ _ _, I) Hst) Hco)
    as [[e He]|(v & s & Hrun & Hc & Hrep & Hok)]; [by left; exists e|right].
  destruct (tick_body now mint d v s Hd Hrun) as (-> & Hs & Hw & Ht).
  destruct (body_view body d _ s Hst Hco Hrun) as (ws & _ & Hdom & Hview). rewrite Hc in Hview.
  apply replay_domain_writes in Hview as [_ Hout]; [|done].
  apply outbox_statements_published in Hrep as [Hp Hd'].
  destruct (run_request (transaction body) d) as [r d']. cbn [fst snd] in *. subst r.
  exists d'. split; [done|]. split.
  - rewrite Hp, Ht. unfold published. by rewrite Hout.
  - rewrite Hd'. exact Hw.
  - rewrite Hd'. exact Hs.
Qed.

(** *** What a tick does to one plant *)

Lemma missed_of_spec schedules l w m :
  keyed csm_plant_id schedules → (w, m) ∈ missed_of schedules l →
  w ∈ l ∧ schedules !! mcw_plant_id w = Some m ∧ csm_plant_id m = mcw_plant_id w.
Proof.
  intros Hk (w' & Hw & Hm)%list_elem_of_omap.
  destruct (schedules !! mcw_plant_id w') as [m'|] eqn:E; [|done]. injection Hm as -> ->.
  split_and!; [done..|by apply Hk].
Qed.

Lemma expired_spec now t w :
  keyed mcw_plant_id t → w ∈ expired_windows now t →
  t !! mcw_plant_id w = Some w ∧ mcw_state w = PENDING ∧ (mcw_grace_deadline w ≤ now)%Z.
Proof.
  intros Hk [HP [k Hw]]%elem_of_take_1%elem_of_select_rows.
  rewrite andb_true_iff, !bool_decide_eq_true in HP. destruct HP.
  by rewrite (Hk _ _ Hw).
Qed.

Lemma ticked_keyed now mint d d' : care_keyed d → ticked now mint d d' → care_keyed d'.
Proof.
  intros [Hs Hw] [opened missed _ Hw' Hs']. split.
  - rewrite Hs'. by apply upserts_keyed.
  - rewrite Hw'. by apply upserts_keyed, upserts_keyed.
Qed.

Lemma missed_of_NoDup schedules l :
  NoDup (mcw_plant_id <$> l) → NoDup ((λ x, mcw_plant_id x.1) <$> missed_of schedules l).
Proof.
  unfold missed_of. induction l as [|w l IH]; [constructor|]. rewrite fmap_cons, NoDup_cons.
  intros [Hw Hnd]. cbn [omap list_omap]. destruct (schedules !! mcw_plant_id w); [|by apply IH].
  change (NoDup (mcw_plant_id w :: ((λ x, mcw_plant_id x.1) <$> missed_of schedules l))).
  rewrite NoDup_cons. split; [|by apply IH].
  intros (x & Heq & (w' & Hw' & Hx)%list_elem_of_omap)%list_elem_of_fmap. apply Hw.
  destruct (schedules !! mcw_plant_id w'); [|done]. injection Hx as <-. cbn in Heq.
  rewrite Heq. by apply list_elem_of_fmap_2.
Qed.

(** *** Deliveries to the saga *)

Lemma MissedCareSaga_silent env e : Silent (MissedCareSaga_handle env e).
Proof. unfold MissedCareSaga_handle. destruct (body e); stage. Qed.

Lemma MissedCareSaga_keeps {T} (g : Database → T) env e :
  Elsewhere g set_windows → Staging (keeps g) (MissedCareSaga_handle env e).
Proof. intros Hg. unfold MissedCareSaga_handle. destruct (body e); stage. Qed.

(** A window another delivery may still close, or reopen. *)
Definition window_open (d : Database) (p : uuid) : bool :=
  match db_windows d !! p with Some w => bool_decide (mcw_state w = PENDING) | None => false end.

Lemma windows_save_view w s u s' :
  windows_save w s = (Ok u, s') →
  db_windows (ss_view s') = <[mcw_plant_id w := w]> (db_windows (ss_view s)).
Proof.
  intros H. destruct (windows_save_run w s) as (s1 & H1 & _ & _ & Hv).
  rewrite H1 in H. injection H as <- <-. by rewrite Hv.
Qed.

(** The saga writes one window at most: one an event announces as due, or one that was
    waiting for a watering. *)
Lemma MissedCareSaga_effect env e s u s' :
  MissedCareSaga_handle env e s = (Ok u, s') → keyed mcw_plant_id (db_windows (ss_view s)) →
  db_windows (ss_view s') = db_windows (ss_view s) ∨
  ∃ w, db_windows (ss_view s') = <[mcw_plant_id w := w]> (db_windows (ss_view s)) ∧
    ((∃ due_at, body e = WateringDue (Uuid (mcw_plant_id w)) due_at) ∨
     window_open (ss_view s) (mcw_plant_id w) = true).
Proof.
  unfold MissedCareSaga_handle. intros H Hk.
  destruct (body e) as [| | | | |q due_at|q completed_at next| | | | | | | | | | | | | | | | | | | | |];
    try (left; by tx_inv).
  - unfold on_watering_due in H. apply tx_bind_inv in H as (plant & s1 & Hg & H).
    unfold plants_get in Hg. revert H. tx_inv. intros H.
    destruct plant as [plant|]; [|left; by tx_inv].
    apply tx_bind_inv in H as (w & s1 & Hg & H). apply query_inv in Hg as (-> & -> & _).
    match type of H with (if ?b then _ else _) _ = _ => destruct b; [left; by tx_inv|] end.
    apply tx_bind_inv in H as (dl & s1 & Hdl & H). apply tx_lift_inv in Hdl as [_ ->].
    right. eexists. split; [by apply windows_save_view in H|]. left. exists due_at. cbn. by rewrite Uuid_eta.
  - unfold on_watering_completed in H. apply tx_bind_inv in H as (w & s1 & Hg & H).
    apply query_inv in Hg as (-> & -> & _).
    destruct (db_windows (ss_view s) !! uuid_value q) as [w|] eqn:E; [|left; by tx_inv].
    destruct (negb _) eqn:Ep; [left; by tx_inv|]. case_bool_decide; [left; by tx_inv|].
    right. eexists. split; [by apply windows_save_view in H|]. right. cbn.
    unfold window_open. rewrite (Hk _ _ E), E. by apply negb_false_iff in Ep.
Qed.

(** *** Any number of ticks and deliveries *)

Inductive care_op :=
  | CareTick (now : datetime) (mint : nat → uuid)
  | CareDelivery (group : string) (ctx : MessageContext) (env : Env) (e : DomainEvent).

Definition care_step (d : Database) (op : care_op) : Database :=
  match op with
  | CareTick now mint => (run_request (escalate_overdue now mint) d).2
  | CareDelivery g ctx env e => (run_once g ctx (event_id e) (MissedCareSaga_handle env e) d).2
  end.

Definition is_missed (p : PlantId) (e : DomainEvent) : bool :=
  match body e with CareMissed q _ => bool_decide (q = p) | _ => false end.
(** How often a plant's care was announced as missed. *)
Definition times_missed (p : PlantId) (d : Database) : nat :=
  length (filter (λ e, is_missed p e = true) (published d)).

(** Ticks before the plant is due again, and deliveries that do not announce it as due. *)
Definition leaves_alone (p : PlantId) (due_again : datetime) (op : care_op) : Prop :=
  match op with
  | CareTick now _ => (now < due_again)%Z
  | CareDelivery _ _ _ e => ∀ due_at, body e ≠ WateringDue p due_at
  end.

(** The plant is not waiting for a watering and its schedule, if any, is in the future. *)
Record cared_for (p : PlantId) (due_again : datetime) (d : Database) : Prop := mkCaredFor {
  cf_keyed : care_keyed d;
  cf_window : window_open d (uuid_value p) = false;
  cf_schedule : ∀ m, db_care_schedules d !! uuid_value p = Some m →
    (due_again ≤ csm_next_watering_at m)%Z }.

Lemma filter_nothing {A} (P : A → bool) (l : list A) :
  (∀ x, x ∈ l → P x = false) → filter (λ x, P x = true) l = [].
Proof.
  induction l as [|x l IH]; intros H; [done|].
  rewrite filter_cons, decide_False by (rewrite H by left; done). apply IH. intros y Hy. apply H. by right.
Qed.

Lemma no_miss_of p now mint k l :
  (∀ x, x ∈ l → csm_plant_id x.2 ≠ uuid_value p) →
  filter (λ e, is_missed p e = true) (missed_events now mint k l) = [].
Proof.
  intros Hne. apply filter_nothing. intros e (i & x & -> & Hx)%elem_of_lookup_imap.
  unfold is_missed. cbn. apply bool_decide_eq_false. intros <-.
  by apply (Hne x); [eapply list_elem_of_lookup_2|].
Qed.

Lemma dues_are_no_misses p now mint k l :
  filter (λ e, is_missed p e = true) (due_events now mint k l) = [].
Proof. apply filter_nothing. by intros e (i & x & -> & Hx)%elem_of_lookup_imap. Qed.

Lemma tick_leaves_alone now mint d p due_again :
  cared_for p due_again d → (now < due_again)%Z →
  cared_for p due_again (care_step d (CareTick now mint)) ∧
  times_missed p (care_step d (CareTick now mint)) = times_missed p d.
Proof.
  intros [Hd Hw Hs] Hnow. unfold care_step.
  destruct (tick_run now mint d Hd) as [[e ->]|(d' & -> & Ht)]; [done|]. cbn [snd].
  pose proof (ticked_keyed _ _ _ _ Hd Ht) as Hd'. destruct Ht as [opened missed Hev Hw' Hs'].
  unfold missed_windows in Hw'. unfold missed_schedules in Hs'.
  assert (∀ m, m ∈ newly_due d now → csm_plant_id m ≠ uuid_value p) as Hdue.
  { intros m Hm Heq. destruct (newly_due_spec d now m Hd Hm) as (Hrow & _ & Hle & _).
    rewrite Heq in Hrow. specialize (Hs m Hrow). lia. }
  assert (opened !! uuid_value p = db_windows d !! uuid_value p) as Hop
    by (by apply upserts_other).
  assert (∀ x, x ∈ missed → mcw_plant_id x.1 ≠ uuid_value p ∧ csm_plant_id x.2 ≠ uuid_value p)
    as Hmiss.
  { intros [w m] (Hin & _ & Heq)%missed_of_spec; [|by apply Hd]. cbn. rewrite Heq.
    enough (mcw_plant_id w ≠ uuid_value p) by done. intros Hp.
    apply expired_spec in Hin as (Hrow & Hpend & _); [|by apply upserts_keyed, Hd].
    rewrite Hp in Hrow. fold opened in Hrow. rewrite Hop in Hrow.
    unfold window_open in Hw. rewrite Hrow in Hw. by apply bool_decide_eq_false in Hw. }
  split; [split; [done| |]|].
  - unfold window_open. rewrite Hw', upserts_other by (intros x Hx; by apply Hmiss). by rewrite Hop.
  - intros m. rewrite Hs', upserts_other by (intros x Hx; by apply Hmiss). apply Hs.
  - unfold times_missed. rewrite Hev, !filter_app, dues_are_no_misses, no_miss_of, !app_nil_r; [done|].
    intros x Hx. by apply Hmiss.
Qed.

(** What a delivery to the saga leaves: nothing, or the schedules, the outbox and the windows
    its handler leaves in its view. *)
Lemma saga_delivery_run g ctx env e d :
  let d' := care_step d (CareDelivery g ctx env e) in
  d' = d ∨
  ∃ s, MissedCareSaga_handle env e (claimed_session d g (event_id e) (Some ctx) []) = (Ok tt, s) ∧
    db_windows d' = db_windows (ss_view s) ∧ db_care_schedules d' = db_care_schedules d ∧
    published d' = published d.
Proof.
  unfold care_step. pose proof (MissedCareSaga_handler env e) as Hh.
  destruct (run_once g ctx (event_id e) (MissedCareSaga_handle env e) d) as [r d'] eqn:E.
  apply run_once_inv in E as [[-> _]|(s & _ & Hrun & Hc & _ & _ & Hp & Hd')]; [by left| |done].
  right. exists s. cbn [snd]. split; [done|].
  pose proof (MissedCareSaga_silent env e (claimed_session d g (event_id e) (Some ctx) [])) as Ht.
  rewrite Hrun in Ht. cbn in Ht. unfold tracked_events in Hp. rewrite Ht, app_nil_r in Hp.
  assert (∀ T (f : Database → T), Elsewhere f set_windows →
    f (claimed_session d g (event_id e) (Some ctx) []).(ss_view) = f (ss_view s)) as Hkeep.
  { intros T f Hf. symmetry. eapply (keeps_view f); [by apply MissedCareSaga_keeps|apply Hh|done..]. }
  split_and!.
  - by rewrite Hd'.
  - rewrite Hd'. symmetry. apply (Hkeep _ db_care_schedules). by intros ? ?.
  - rewrite Hp. symmetry. apply (Hkeep _ published). by intros ? ?.
Qed.

Lemma delivery_leaves_alone g ctx env e d p due_again :
  cared_for p due_again d → (∀ due_at, body e ≠ WateringDue p due_at) →
  cared_for p due_again (care_step d (CareDelivery g ctx env e)) ∧
  times_missed p (care_step d (CareDelivery g ctx env e)) = times_missed p d.
Proof.
  intros [[Hks Hkw] Hw Hs] Hdue.
  destruct (saga_delivery_run g ctx env e d) as [->|(s & Hrun & Hws & Hss & Hp)]; [done|].
  unfold times_missed. rewrite Hp. split; [|done].
  apply MissedCareSaga_effect in Hrun as [Heff|(w & Heff & Hwhy)]; [| |done];
    change (db_windows (ss_view (claimed_session _ _ _ _ _))) with (db_windows d) in Heff.
  - split; [split; [by rewrite Hss|by rewrite Hws, Heff]| |by rewrite Hss].
    unfold window_open. rewrite Hws, Heff. exact Hw.
  - assert (mcw_plant_id w ≠ uuid_value p) as Hne.
    { intros Heq. rewrite Heq, Uuid_eta in Hwhy. destruct Hwhy as [[due_at Hb]|Ho].
      - by apply (Hdue due_at).
      - change (window_open (ss_view (claimed_session _ _ _ _ _)) (uuid_value p))
          with (window_open d (uuid_value p)) in Ho. by rewrite Hw in Ho. }
    split; [split; [by rewrite Hss|]| |by rewrite Hss].
    + rewrite Hws, Heff. intros k v. rewrite lookup_insert_Some.
      intros [[<- <-]|[_ H]]; [done|by apply Hkw].
    + unfold window_open. rewrite Hws, Heff, lookup_insert_ne by done. exact Hw.
Qed.

Lemma care_run_leaves_alone ops d p due_again :
  cared_for p due_again d → Forall (leaves_alone p due_again) ops →
  cared_for p due_again (foldl care_step d ops) ∧
  times_missed p (foldl care_step d ops) = times_missed p d.
Proof.
  intros Hd Hops. revert d Hd. induction Hops as [|op ops Hop _ IH]; intros d Hd; [done|].
  cbn [foldl]. assert (cared_for p due_again (care_step d op) ∧
    times_missed p (care_step d op) = times_missed p d) as [Hd' Ht].
  { destruct op; [by apply tick_leaves_alone|by apply delivery_leaves_alone]. }
  destruct (IH _ Hd') as [? Ht']. by rewrite Ht', Ht.
Qed.

(** A watering inside the grace period closes the plant's window. *)
Lemma watering_satisfies g ctx env e d p completed_at next w :
  care_keyed d → body e = WateringCompleted p completed_at next →
  (g, event_id e) ∉ db_processed_events d →
  db_windows d !! uuid_value p = Some w → mcw_state w = PENDING →
  (completed_at ≤ mcw_grace_deadline w)%Z →
  let d' := care_step d (CareDelivery g ctx env e) in
  db_windows d' = <[uuid_value p := window_in SATISFIED (env_now env) w]> (db_windows d) ∧
  db_care_schedules d' = db_care_schedules d ∧ published d' = published d.
Proof.
  intros [_ Hk] Hb Hnew Hw Hp Hle d'. subst d'. unfold care_step.
  pose (s0 := claimed_session d g (event_id e) (Some ctx) []).
  destruct (windows_save_run (window_in SATISFIED (env_now env) w) s0)
    as (s1 & Hrun & Hc & Ht & Hv).
  rewrite (run_once_view _ d g (event_id e) ctx s1 (MissedCareSaga_handler env e) Hnew).
  - cbn [snd]. rewrite Hv. cbn. by rewrite (Hk _ _ Hw).
  - rewrite <- Hrun. unfold MissedCareSaga_handle. rewrite Hb. unfold on_watering_completed, windows_get.
    rewrite (tx_bind_Ok _ _ s0 (Some w) s0) by (cbn; by rewrite Hw).
    rewrite Hp, bool_decide_true by done. cbn [negb]. by rewrite bool_decide_false by lia.
  - by rewrite Hc.
  - unfold tracked_events. by rewrite Ht.
Qed.

Lemma elem_of_expired now t k w :
  t !! k = Some w → mcw_state w = PENDING → (mcw_grace_deadline w ≤ now)%Z →
  length (expired_windows now t) < TICK_BATCH_SIZE → w ∈ expired_windows now t.
Proof.
  intros Hw Hp Hle. unfold expired_windows. rewrite length_take. intros Hlen.
  rewrite take_ge by lia. apply elem_of_select_rows. split; [|by exists k].
  by rewrite !bool_decide_true.
Qed.

Lemma missed_of_elem schedules l w m :
  w ∈ l → schedules !! mcw_plant_id w = Some m → (w, m) ∈ missed_of schedules l.
Proof. intros Hw Hm. apply list_elem_of_omap. exists w. split; [done|]. by rewrite Hm. Qed.

(** *** Telemetry, any number of times *)

Definition is_rescheduled (p : PlantId) (e : DomainEvent) : bool :=
  match body e with WateringRescheduled q _ _ _ => bool_decide (q = p) | _ => false end.
Definition times_rescheduled (p : PlantId) (d : Database) : nat :=
  length (filter (λ e, is_rescheduled p e = true) (published d)).

(** A delivery to the adaptive saga in a group, at the moment its clock shows. *)
Record telemetry_op := mkTelemetryOp {
  to_group : string;
  to_context : MessageContext;
  to_env : Env;
  to_event : DomainEvent }.

Definition adaptive_step (d : Database) (op : telemetry_op) : Database :=
  (run_once (to_group op) (to_context op) (event_id (to_event op))
     (AdaptiveWateringSaga_handle (to_env op) (to_event op)) d).2.

(** The plant's next watering is not far away any more. *)
Definition near (p : uuid) (now : datetime) (t : gmap uuid CareScheduleModel) : Prop :=
  ∀ m, t !! p = Some m → (csm_next_watering_at m - now ≤ WATERING_HORIZON)%Z.

(** The saga changes nothing, or pulls one far-away watering to the present. *)
Lemma telemetry_effect env q moisture s s' :
  on_telemetry_received env q moisture s = (Ok tt, s') →
  s' = s ∨ ∃ m m' e, db_care_schedules (ss_view s) !! uuid_value q = Some m ∧
    (WATERING_HORIZON < csm_next_watering_at m - env_now env)%Z ∧
    csm_next_watering_at m' = env_now env ∧ csm_plant_id m' = csm_plant_id m ∧
    db_care_schedules (ss_view s') = <[csm_plant_id m := m']> (db_care_schedules (ss_view s)) ∧
    ss_tracked s' = track_in (ECareSchedule, csm_plant_id m) [e] (ss_tracked s) ∧
    ∃ previous next reason, body e = WateringRescheduled (Uuid (csm_plant_id m)) previous next reason.
Proof.
  unfold on_telemetry_received. intros (found & s1 & Hg & H)%tx_bind_inv.
  apply schedules_get_inv in Hg as [-> Hg].
  destruct (db_care_schedules (ss_view s) !! uuid_value q) as [m|]; [|subst found; left; by tx_inv].
  destruct Hg as (sc & -> & Hsc). destruct (float_le _ _); [left; by tx_inv|].
  case_bool_decide as Hfar; [left; by tx_inv|].
  destruct (care_schedule_to_domain_Ok _ _ Hsc) as (_ & Hev & Hmod & Hid).
  apply tx_bind_inv in H as (sc' & s1 & Hr & H). apply tx_lift_inv in Hr as [Hr ->].
  unfold CareSchedule_reschedule, CareSchedule_ensure_version in Hr.
  rewrite !decide_False in Hr by (auto || lia). cbn in Hr.
  injection Hr as <-.
  match type of H with schedules_save (CareSchedule_move _ _ ?ev) _ = _ => set (e := ev) in H end.
  destruct (schedules_save_run (CareSchedule_move sc (env_now env) e) s) as (s1 & Hs & _ & Ht & Hv).
  rewrite Hs in H. injection H as <-. right. rewrite <- Hmod.
  exists (care_schedule_to_model sc), (care_schedule_to_model (CareSchedule_move sc (env_now env) e)), e.
  rewrite Hv, Ht. split_and!; try done.
  - cbn. lia.
  - cbn [cs_events CareSchedule_move]. by rewrite Hev.
  - eexists _, _, _. subst e. cbn. by rewrite Uuid_eta.
Qed.

Lemma soil_high_effect env q moisture threshold s s' :
  on_soil_moisture_high env q moisture threshold s = (Ok tt, s') →
  s' = s ∨ ∃ r e, ss_tracked s' = track_in r [e] (ss_tracked s) ∧
    ∃ n h ty payload at_, body e = NotificationCreated n h ty payload at_.
Proof.
  unfold on_soil_moisture_high. intros (plant & s1 & Hg & H)%tx_bind_inv.
  unfold plants_get in Hg. revert H. tx_inv. intros H. destruct plant as [plant|]; [|left; by tx_inv].
  apply tx_bind_inv in H as (unread & s1 & Hu & H). apply has_unread_inv in Hu as [-> _].
  destruct unread; [left; by tx_inv|]. right. unfold notifications_add in H.
  match type of H with (_ ← execute ?w; track ?r ?es) _ = _ =>
    destruct (execute_track_run w r es s) as (s1 & Hs & _ & _ & _ & _ & _ & Ht) end.
  rewrite Hs in H. injection H as <-. eexists _, _. split; [exact Ht|]. by eexists _, _, _, _, _.
Qed.

Lemma adaptive_effect env e d g ctx s p :
  keyed csm_plant_id (db_care_schedules d) → 
  AdaptiveWateringSaga_handle env e (claimed_session d g (event_id e) (Some ctx) []) = (Ok tt, s) →
  ss_conflict s = false →
  keyed csm_plant_id (db_care_schedules (ss_view s)) ∧
  ((filter (λ e, is_rescheduled p e = true) (tracked_events s) = [] ∧
    db_care_schedules (ss_view s) !! uuid_value p = db_care_schedules d !! uuid_value p) ∨
   (length (filter (λ e, is_rescheduled p e = true) (tracked_events s)) = 1 ∧
    ¬ near (uuid_value p) (env_now env) (db_care_schedules d) ∧
    near (uuid_value p) (env_now env) (db_care_schedules (ss_view s)))).
Proof.
  intros Hk H Hc. set (s0 := claimed_session _ _ _ _ _) in H.
  change (db_care_schedules d) with (db_care_schedules (ss_view s0)) in Hk |- *.
  assert ((db_care_schedules (ss_view s) = db_care_schedules (ss_view s0) ∧
      filter (λ e, is_rescheduled p e = true) (tracked_events s) = []) ∨
    ∃ q moisture, on_telemetry_received env q moisture s0 = (Ok tt, s)) as [[Hss Hev]|(q & moisture & Ht)].
  { unfold AdaptiveWateringSaga_handle in H. destruct (body e);
      try (left; apply tx_ret_inv in H as [_ ->]; done); [right; eauto|left]. split.
    - eapply (keeps_view db_care_schedules (on_soil_moisture_high env plant_id moisture threshold));
        [stage|stage|done..].
    - apply soil_high_effect in H as [->|(r & e' & Htr & n & h & ty & pl & at_ & Hb)]; [done|].
      unfold tracked_events. rewrite Htr. cbn. rewrite decide_False; [done|].
      unfold is_rescheduled. by rewrite Hb. }
  { split; [by rewrite Hss|]. left. by rewrite Hss. }
  apply telemetry_effect in Ht as [->|(m & m' & e' & Hm & Hfar & Hnow & Hid & Hss & Htr & Hb)];
    [by split; [|left]|].
  destruct Hb as (previous & next & reason & Hb). pose proof (Hk _ _ Hm) as Hmq.
  assert (tracked_events s = [e']) as -> by (unfold tracked_events; by rewrite Htr).
  rewrite Hss, Hmq. split.
  { intros k v. rewrite lookup_insert_Some. intros [[<- <-]|[_ Hv]]; [congruence|by apply Hk]. }
  rewrite filter_cons. unfold is_rescheduled. rewrite Hb, Hmq.
  destruct (decide (uuid_value q = uuid_value p)) as [Hqp|Hqp].
  - right. rewrite Hqp, decide_True by (apply bool_decide_eq_true; apply Uuid_eta).
    split_and!; [done| |].
    + intros Hn. rewrite Hqp in Hm. specialize (Hn m Hm). lia.
    + intros m2. rewrite lookup_insert_eq. intros [= <-]. unfold WATERING_HORIZON, days, hours,
        minutes, seconds, MICROSECONDS_PER_SECOND. lia.
  - left. rewrite lookup_insert_ne by done. rewrite decide_False; [done|].
    rewrite bool_decide_eq_true. intros Heq. apply Hqp. by rewrite <- Heq.
Qed.

Lemma adaptive_step_effect op d p :
  keyed csm_plant_id (db_care_schedules d) →
  let d' := adaptive_step d op in
  keyed csm_plant_id (db_care_schedules d') ∧
  ((times_rescheduled p d' = times_rescheduled p d ∧
    db_care_schedules d' !! uuid_value p = db_care_schedules d !! uuid_value p) ∨
   (times_rescheduled p d' = S (times_rescheduled p d) ∧
    ¬ near (uuid_value p) (env_now (to_env op)) (db_care_schedules d) ∧
    near (uuid_value p) (env_now (to_env op)) (db_care_schedules d'))).
Proof.
  intros Hk. destruct op as [g ctx env e]. unfold adaptive_step; cbn [to_group to_context to_env to_event].
  pose proof (AdaptiveWateringSaga_handler env e) as Hh.
  destruct (run_once g ctx (event_id e) (AdaptiveWateringSaga_handle env e) d) as [r d'] eqn:E.
  apply run_once_inv in E as [[-> _]|(s & _ & Hrun & Hc & _ & _ & Hp & Hd')]; [| |done].
  { cbn. split; [done|by left]. }
  cbn [snd]. assert (published (ss_view s) = published d) as Hpv.
  { apply (keeps_view published (AdaptiveWateringSaga_handle env e)
      (claimed_session d g (event_id e) (Some ctx) []) (Ok tt)); [|apply Hh|done..].
    unfold AdaptiveWateringSaga_handle. destruct (body e); stage. }
  destruct (adaptive_effect env e d g ctx s p Hk Hrun Hc) as [Hk' Heff].
  unfold times_rescheduled. rewrite Hp, Hpv, filter_app, length_app.
  rewrite Hd'. cbn [db_care_schedules set_outbox]. split; [done|].
  destruct Heff as [[-> ->]|(-> & ? & ?)]; [left; split; [cbn; lia|done]|right; split; [lia|done]].
Qed.

(** The clock of the deliveries never goes back. *)
Definition clock_order (a b : telemetry_op) : Prop := (env_now (to_env a) ≤ env_now (to_env b))%Z.

Lemma near_later p t t' rows : near p t rows → (t ≤ t')%Z → near p t' rows.
Proof. intros Hn Hle m Hm. specialize (Hn m Hm). lia. Qed.

Lemma adaptive_run_near p ops d t :
  keyed csm_plant_id (db_care_schedules d) → near (uuid_value p) t (db_care_schedules d) →
  Forall (λ op, (t ≤ env_now (to_env op))%Z) ops →
  times_rescheduled p (foldl adaptive_step d ops) = times_rescheduled p d.
Proof.
  intros Hk Hn Hops. revert d Hk Hn. induction Hops as [|op ops Hop _ IH]; intros d Hk Hn; [done|].
  cbn [foldl]. destruct (adaptive_step_effect op d p Hk) as [Hk' [[Ht Hrow]|(_ & Hfar & _)]].
  - rewrite IH; [done|done|]. intros m. rewrite Hrow. apply Hn.
  - destruct Hfar. by eapply near_later.
Qed.

Lemma adaptive_run p ops d :
  keyed csm_plant_id (db_care_schedules d) → StronglySorted clock_order ops →
  times_rescheduled p (foldl adaptive_step d ops) ≤ S (times_rescheduled p d).
Proof.
  intros Hk Hs. revert d Hk. induction Hs as [|op ops _ IH Hall]; intros d Hk; [cbn; lia|].
  cbn [foldl]. destruct (adaptive_step_effect op d p Hk) as [Hk' [[Ht _]|(Ht & _ & Hn)]].
  - rewrite <- Ht. by apply IH.
  - by rewrite (adaptive_run_near p ops _ _ Hk' Hn Hall), Ht.
Qed.

(** ** Theorems *)

(** A tick of the missed-care timer is all or nothing, and says what it did: it
    either raises and changes no row, or announces [WateringDue] once for each due schedule
    that has no pending window (the first 200, in the order they came due), opens its
    window, then announces [CareMissed] once for each window whose grace period is over and
    whose plant still has a schedule, moves that schedule by one interval and closes the
    window; unless the batch was full, the only expired windows left open belong to plants
    without a schedule. *)
Theorem missed_care_tick (now : datetime) (mint : nat → uuid) (d d' : Database) (r : result nat)
    (Hd : care_keyed d) (Hrun : run_request (escalate_overdue now mint) d = (r, d')) :
  let due := newly_due d now in
  let opened := opened_windows (db_plants d) now due (db_windows d) in
  let expired := expired_windows now opened in
  let missed := missed_of (db_care_schedules d) expired in
  ((∃ e, r = Raise e) ∧ d' = d) ∨
  (r = Ok (length expired) ∧
   published d' = published d ++ due_events now mint 0 due ++
     missed_events now mint (length due) missed ∧
   (∀ m, m ∈ due → (csm_next_watering_at m ≤ now)%Z ∧
      has_pending_window d (csm_plant_id m) = false ∧
      is_Some (db_windows d' !! csm_plant_id m)) ∧
   (∀ w m, (w, m) ∈ missed → (mcw_grace_deadline w ≤ now)%Z ∧
      db_windows d' !! mcw_plant_id w = Some (window_in MISSED now w) ∧
      db_care_schedules d' !! mcw_plant_id w = Some (shifted_row m)) ∧
   (length expired < TICK_BATCH_SIZE → ∀ k w, db_windows d' !! k = Some w →
      mcw_state w = PENDING → (mcw_grace_deadline w ≤ now)%Z → db_care_schedules d !! k = None)).
Proof.
  intros due opened expired missed.
  destruct (tick_run now mint d Hd) as [[e He]|(d1 & Hok & Ht)]; rewrite Hrun in *.
  { injection He as -> ->. left. eauto. }
  injection Hok as -> <-. right. destruct Ht as [opened' missed' Hev Hws Hss].
  change opened' with opened in *. change missed' with missed in *. clear opened' missed'.
  unfold missed_windows in Hws. unfold missed_schedules in Hss.
  assert (keyed mcw_plant_id opened) as Hko by (by apply upserts_keyed, Hd).
  assert (NoDup (mcw_plant_id <$> expired)) as Hnd by by apply NoDup_fmap_take, select_rows_NoDup.
  pose proof (missed_of_NoDup (db_care_schedules d) expired Hnd) as Hndm.
  assert (∀ w m, (w, m) ∈ missed → w ∈ expired ∧ csm_plant_id m = mcw_plant_id w) as Hin.
  { intros w m Hm. apply missed_of_spec in Hm as (? & _ & ?); [done|by apply Hd]. }
  split_and!; [done|done| | |].
  - intros m Hm. destruct (newly_due_spec d now m Hd Hm) as (_ & _ & ? & ?). split_and!; [done..|].
    rewrite Hws. apply upserts_is_Some. unfold opened, opened_windows.
    rewrite (upserts_elem csm_plant_id (opened_row (db_plants d) now) (db_windows d) due m); [done| |done].
    apply NoDup_fmap_take, select_rows_NoDup, Hd.
  - intros w m Hm. destruct (Hin w m Hm) as [Hw Heq].
    destruct (expired_spec now opened w Hko Hw) as (_ & _ & ?). split_and!; [done| |].
    + rewrite Hws. exact (upserts_elem (λ x, mcw_plant_id x.1) (λ x, window_in MISSED now x.1)
        opened missed (w, m) Hndm Hm).
    + rewrite Hss, <- Heq. refine (upserts_elem (λ x, csm_plant_id x.2) (λ x, shifted_row x.2)
        _ missed (w, m) _ Hm).
      enough ((λ x, csm_plant_id x.2) <$> missed = (λ x, mcw_plant_id x.1) <$> missed) as -> by done.
      apply list_fmap_ext. intros i [w' m'] Hi%list_elem_of_lookup_2. by apply Hin.
  - intros Hlen k w Hk Hp Hle. rewrite Hws in Hk.
    destruct (db_care_schedules d !! k) as [m|] eqn:Em; [|done]. exfalso.
    apply upserts_lookup in Hk as [(x & _ & _ & ->)|[Hk Hne]]; [done|].
    pose proof (Hko _ _ Hk) as <-.
    by apply (Hne (w, m)); [apply missed_of_elem; [by eapply elem_of_expired|done]|].
Qed.

(** A plant added at hour 10 whose schedule comes due at hour 188. *)
Definition demo_mint_from (k : N) : nat → uuid := λ i, (k + N.of_nat i)%N.

Lemma demo_care_keyed : care_keyed demo_database.
Proof. split; apply map_Forall_to_list; vm_compute; repeat constructor. Qed.

Lemma missed_care_tick_witness :
  let out := run_request (escalate_overdue (hours 212) (demo_mint_from 1000)) demo_database in
  out.1 = Ok 1 ∧
  published out.2 = published demo_database ++
    [mkEvent 1000 (hours 212) (WateringDue (Uuid 10) (hours 188));
     mkEvent 1001 (hours 212) (CareMissed (Uuid 10) (hours 188 + days 7))].
Proof.
  intros out. assert (out.1 = Ok 1) as Hout by (vm_compute; reflexivity). split; [exact Hout|].
  destruct (missed_care_tick (hours 212) (demo_mint_from 1000) demo_database out.2 out.1
    demo_care_keyed (surjective_pairing _)) as [[[e He] _]|(_ & Hp & _)].
  - rewrite Hout in He. discriminate He.
  - rewrite Hp. vm_compute. reflexivity.
Defined.

(** [C32] A watering inside the grace period is never reported as missed: once a delivery
    of [WateringCompleted] finds the plant's window waiting and not past its deadline, the
    window is satisfied, and however many ticks run before the plant is due again and
    whatever else is delivered — short of another [WateringDue] of the plant — it stays
    closed and no [CareMissed] is announced for the plant. *)
Theorem watering_in_grace_never_missed (g : string) (ctx : MessageContext) (env : Env)
    (e : DomainEvent) (p : PlantId) (completed_at next due_again : datetime)
    (w : MissedCareWindowModel) (d : Database) (ops : list care_op)
    (Hkeyed : care_keyed d)
    (Hevent : body e = WateringCompleted p completed_at next)
    (Hfresh : (g, event_id e) ∉ db_processed_events d)
    (Hwindow : db_windows d !! uuid_value p = Some w) (Hpending : mcw_state w = PENDING)
    (Hgrace : (completed_at ≤ mcw_grace_deadline w)%Z)
    (Hschedule : ∀ m, db_care_schedules d !! uuid_value p = Some m →
       (due_again ≤ csm_next_watering_at m)%Z)
    (Hops : Forall (leaves_alone p due_again) ops) :
  let d' := foldl care_step d (CareDelivery g ctx env e :: ops) in
  window_open d' (uuid_value p) = false ∧ times_missed p d' = times_missed p d.
Proof.
  destruct (watering_satisfies g ctx env e d p completed_at next w Hkeyed Hevent Hfresh Hwindow
    Hpending Hgrace) as (Hw & Hs & Hp). intros d'. subst d'. cbn [foldl].
  assert (cared_for p due_again (care_step d (CareDelivery g ctx env e))) as Hc.
  { split; [split; [rewrite Hs; apply Hkeyed|]| |by rewrite Hs].
    - rewrite Hw. intros k v. rewrite lookup_insert_Some.
      intros [[<- <-]|[_ H]]; [by apply Hkeyed in Hwindow|by apply Hkeyed].
    - unfold window_open. by rewrite Hw, lookup_insert_eq. }
  destruct (care_run_leaves_alone ops _ _ _ Hc Hops) as [Hc' Ht]. split; [apply Hc'|].
  rewrite Ht. unfold times_missed. by rewrite Hp.
Qed.

(** The plant comes due, the tick opens its window, the household waters it. *)
Definition demo_watered_late : Database :=
  serve (run_request (escalate_overdue (hours 190) (demo_mint_from 1000)) demo_database).2
    [(WaterPlant (Uuid 10) None, mkEnv (hours 200) (demo_mint_from 2000))].
Definition demo_watering : DomainEvent :=
  mkEvent 2000 (hours 200) (WateringCompleted (Uuid 10) (hours 200) (hours 200 + days 7)).

Lemma watering_in_grace_never_missed_witness :
  let d' := foldl care_step demo_watered_late
    [CareDelivery "missed-care" demo_ctx (mkEnv (hours 201) (demo_mint_from 3000)) demo_watering;
     CareTick (hours 230) (demo_mint_from 4000)] in
  window_open demo_watered_late 10 = true ∧ window_open d' 10 = false ∧
  times_missed (Uuid 10) d' = times_missed (Uuid 10) demo_watered_late.
Proof.
  intros d'. split; [vm_compute; reflexivity|].
  refine (watering_in_grace_never_missed "missed-care" demo_ctx
    (mkEnv (hours 201) (demo_mint_from 3000)) demo_watering (Uuid 10) (hours 200)
    (hours 200 + days 7) (hours 200 + days 7)
    (mkMissedCareWindowModel 10 1 (hours 188) (hours 212) PENDING (hours 190))
    demo_watered_late [CareTick (hours 230) (demo_mint_from 4000)] _ eq_refl _ _ eq_refl _ _ _).
  - split; apply map_Forall_to_list; vm_compute; repeat constructor.
  - apply (bool_decide_unpack _). vm_compute. exact I.
  - vm_compute. reflexivity.
  - vm_compute. discriminate.
  - intros m Hm. vm_compute in Hm. injection Hm as <-. vm_compute. discriminate.
  - repeat constructor.
Defined.

(** [C33] Dry soil cannot cause an event storm: whatever deliveries of telemetry reach the
    adaptive saga, in whatever groups and however often, as long as its clock does not go
    back a plant's watering is pulled forward at most once. *)
Theorem adaptive_watering_no_storm (p : PlantId) (d : Database) (ops : list telemetry_op)
    (Hkeyed : keyed csm_plant_id (db_care_schedules d))
    (Hclock : StronglySorted clock_order ops) :
  times_rescheduled p (foldl adaptive_step d ops) ≤ S (times_rescheduled p d).
Proof. by apply adaptive_run. Qed.

Definition demo_dry_reading (k : N) : DomainEvent :=
  mkEvent k 0 (TelemetryReceived (Uuid 5) (Uuid 10) 0 (MkMoisture (float_of_Z 12))
    (MkTemperature (float_of_Z 20)) (MkLightLevel (float_of_Z 100))).
Definition demo_dry_spell : list telemetry_op :=
  (λ k : N, mkTelemetryOp "adaptive-watering" demo_ctx
     (mkEnv (hours (30 + Z.of_N k)) (demo_mint_from (1000 * k))) (demo_dry_reading k)) <$>
  [101; 102; 103]%N.

Lemma adaptive_watering_no_storm_witness :
  times_rescheduled (Uuid 10) (foldl adaptive_step demo_database demo_dry_spell) = 1 ∧
  times_rescheduled (Uuid 10) (foldl adaptive_step demo_database demo_dry_spell) ≤ 1.
Proof.
  split; [vm_compute; reflexivity|].
  apply (adaptive_watering_no_storm (Uuid 10) demo_database demo_dry_spell).
  - apply demo_care_keyed.
  - repeat constructor; vm_compute; discriminate.
Defined.

(** Skipping a watering that is due does not close its grace window: the skipped watering is
    reported as missed a day later, and the schedule moves by a second interval. *)
Lemma skipped_watering_is_missed :
  let due := (run_request (escalate_overdue (hours 190) (demo_mint_from 1000)) demo_database).2 in
  let skipped := serve due [(SkipWatering (Uuid 10) None, mkEnv (hours 191) (demo_mint_from 2000))] in
  let ticked := (run_request (escalate_overdue (hours 212) (demo_mint_from 3000)) skipped).2 in
  published ticked = published demo_database ++
    [mkEvent 1000 (hours 190) (WateringDue (Uuid 10) (hours 188));
     mkEvent 2000 (hours 191) (CareSkipped (Uuid 10) (hours 191) (hours 188 + days 7));
     mkEvent 3000 (hours 212) (CareMissed (Uuid 10) (hours 188 + days 14))].
Proof. vm_compute. reflexivity. Qed.

(** A [WateringDue] delivered after its own miss reopens the window it opened, and the next
    tick reports the same due moment as missed again. *)
Lemma late_due_missed_twice :
  let tick k t d := (run_request (escalate_overdue (hours t) (demo_mint_from k)) d).2 in
  let due := tick 1000%N 190%Z demo_database in
  let missed := tick 2000%N 212%Z due in
  let late := care_step missed (CareDelivery "missed-care" demo_ctx
    (mkEnv (hours 213) (demo_mint_from 3000))
    (mkEvent 1000 (hours 190) (WateringDue (Uuid 10) (hours 188)))) in
  times_missed (Uuid 10) missed = 1 ∧ times_missed (Uuid 10) (tick 4000%N 214%Z late) = 2.
Proof. vm_compute. split; reflexivity. Qed.
