(* ===== verification/Relay.v ===== *)
(** The outbox relay: claiming publishable rows, publishing them, recording what happened
    ([infrastructure/messaging/relay.py], [persistence/repositories/outbox.py],
    [messaging/publisher.py]), with several relays running at once. *)

From S2P Require Import Prelude Domain Topics Rows.

(** ** Messages *)

Record OutboxMessage := mkOutboxMessage {
  om_outbox_id : Z;
  om_event_id : uuid;
  om_event_name : string;
  om_topic : string;
  om_partition_key : uuid;
  om_payload : DomainEvent;
  om_attempts : Z;
  om_schema_version : Z;
  om_raised_by : string;
  om_correlation_id : option uuid;
  om_causation_id : option uuid;
  om_traceparent : option string;
  om_observed_at : datetime;
  om_claimed_at : option datetime }.

Definition outbox_message_from_model (m : OutboxModel) : OutboxMessage :=
  mkOutboxMessage (ob_id m) (ob_event_id m) (ob_event_name m) (ob_topic m) (ob_partition_key m)
    (ob_payload m) (ob_attempts m) (ob_schema_version m) (ob_raised_by m) (ob_correlation_id m)
    (ob_causation_id m) (ob_traceparent m) (ob_created_at m) (ob_claimed_at m).

(** A record on a Kafka topic.  A header's text is kept as the value it spells. *)
Inductive header_value :=
  | HText (s : string) | HUuid (u : uuid) | HInt (z : Z) | HTime (t : datetime).

Record KafkaRecord := mkKafkaRecord {
  kr_topic : string;
  kr_key : uuid;
  kr_body : DomainEvent;
  kr_headers : list (string * header_value) }.

Definition DLQ_TOPIC : string := "plantkeeper.dlq.v1".

Definition headers_for (m : OutboxMessage) : list (string * header_value) :=
  [("event_name"%string, HText (om_event_name m)); ("event_id"%string, HUuid (om_event_id m));
   ("schema_version"%string, HInt (om_schema_version m))] ++
  match om_correlation_id m with Some u => [("correlation_id"%string, HUuid u)] | None => [] end ++
  match om_causation_id m with Some u => [("causation_id"%string, HUuid u)] | None => [] end ++
  [("raised_by"%string, HText (om_raised_by m))] ++
  match om_traceparent m with Some t => [("traceparent"%string, HText t)] | None => [] end ++
  [("occurred_at"%string, HTime (om_observed_at m))].

Definition record_of (m : OutboxMessage) : KafkaRecord :=
  mkKafkaRecord (om_topic m) (om_partition_key m) (om_payload m) (headers_for m).

Definition dead_letter_record (m : OutboxMessage) (error : string) : KafkaRecord :=
  mkKafkaRecord DLQ_TOPIC (om_partition_key m) (om_payload m)
    (headers_for m ++ [("original_topic"%string, HText (om_topic m)); ("error"%string, HText error)]).

(** ** The repository: statements on the outbox table, kept in the order of its ids *)

Definition still_pending (r : OutboxModel) : bool :=
  match ob_published_at r, ob_dead_lettered_at r with None, None => true | _, _ => false end.

Definition lease_expired (lease : timedelta) (now : datetime) (r : OutboxModel) : bool :=
  match ob_claimed_at r with
  | None => true
  | Some claimed_at => bool_decide (lease < now - claimed_at)%Z
  end.

(** An older row with the same key still needs publishing. *)
Definition blocked (rows : list OutboxModel) (r : OutboxModel) : bool :=
  existsb (λ p, bool_decide (ob_partition_key p = ob_partition_key r) &&
    bool_decide (ob_id p < ob_id r)%Z && still_pending p) rows.

Definition with_claim (at_ : option datetime) (r : OutboxModel) : OutboxModel :=
  mkOutboxModel (ob_id r) (ob_event_id r) (ob_event_name r) (ob_topic r) (ob_partition_key r)
    (ob_payload r) (ob_occurred_at r) (ob_created_at r) (ob_published_at r)
    (ob_dead_lettered_at r) (ob_attempts r) (ob_last_error r) (ob_schema_version r)
    (ob_raised_by r) (ob_correlation_id r) (ob_causation_id r) (ob_traceparent r) at_.

Definition with_outcome (published_at dead_lettered_at : option datetime) (attempts : Z)
    (last_error : option string) (r : OutboxModel) : OutboxModel :=
  mkOutboxModel (ob_id r) (ob_event_id r) (ob_event_name r) (ob_topic r) (ob_partition_key r)
    (ob_payload r) (ob_occurred_at r) (ob_created_at r) published_at dead_lettered_at attempts
    last_error (ob_schema_version r) (ob_raised_by r) (ob_correlation_id r) (ob_causation_id r)
    (ob_traceparent r) (ob_claimed_at r).

(** [UPDATE ... WHERE id = ...]. *)
Definition update_row (id : Z) (f : OutboxModel → OutboxModel) (rows : list OutboxModel) :
    list OutboxModel :=
  (λ r, if decide (ob_id r = id) then f r else r) <$> rows.

Definition mark_published (id : Z) (now : datetime) : list OutboxModel → list OutboxModel :=
  update_row id (λ r, with_outcome (Some now) (ob_dead_lettered_at r) (ob_attempts r) None r).
Definition outbox_record_failure (id : Z) (error : string) : list OutboxModel → list OutboxModel :=
  update_row id (λ r, with_outcome (ob_published_at r) (ob_dead_lettered_at r)
    (ob_attempts r + 1) (Some error) r).
Definition dead_letter (id : Z) (error : string) (now : datetime) :
    list OutboxModel → list OutboxModel :=
  update_row id (λ r, with_outcome (ob_published_at r) (Some now) (ob_attempts r) (Some error) r).
Definition release_claim (id : Z) : list OutboxModel → list OutboxModel :=
  update_row id (with_claim None).

(** The select: pending, not blocked, not leased, and not locked by another transaction
    at the moment ([SKIP LOCKED]); the oldest [limit] of them. *)
Definition claimable (limit : nat) (lease : timedelta) (now : datetime) (locked : list Z)
    (rows : list OutboxModel) : list OutboxModel :=
  take limit (filter (λ r, still_pending r && negb (blocked rows r) && lease_expired lease now r &&
    negb (bool_decide (ob_id r ∈ locked)) = true) rows).

(** The update: the rows with the lease marked, and the rows it returns — in the table's
    order here, in no stated order in SQL. *)
Definition fetch_unpublished (limit : nat) (lease : timedelta) (now : datetime)
    (locked : list Z) (rows : list OutboxModel) : list OutboxModel * list OutboxMessage :=
  let ids := ob_id <$> claimable limit lease now locked rows in
  let taken r := bool_decide (ob_id r ∈ ids) in
  ((λ r, if taken r then with_claim (Some now) r else r) <$> rows,
   (λ r, outbox_message_from_model (with_claim (Some now) r)) <$> filter (λ r, taken r = true) rows).

(** ** Delivering one message *)

Definition PUBLISH_ATTEMPTS_PER_CYCLE : nat := 3.

(** What the broker does with a record: takes it, refuses it, or takes it and loses the
    acknowledgement. *)
Inductive broker_fate := Accepts | Refuses (error : string) | AcceptsUnheard (error : string).

Definition arrived (f : broker_fate) : bool :=
  match f with Refuses _ => false | _ => true end.

(** [_publish_with_retry]: the error of the last attempt, or none, and how many copies of
    the record arrived. *)
Fixpoint publish_with_retry (attempts : nat) (fate : nat → broker_fate) : option string * nat :=
  match attempts with
  | O => (Some ""%string, 0)
  | S remaining =>
      match fate 0 with
      | Accepts => (None, 1)
      | Refuses e =>
          if decide (remaining = 0) then (Some e, 0) else publish_with_retry remaining (fate ∘ S)
      | AcceptsUnheard e =>
          if decide (remaining = 0) then (Some e, 1)
          else let '(r, n) := publish_with_retry remaining (fate ∘ S) in (r, S n)
      end
  end.

(** The world of the relays: the table and what is on the topics, each record with the id
    of the row it came from. *)
Record Topics := mkTopics {
  tp_log : list (Z * KafkaRecord);
  tp_dlq : list (Z * KafkaRecord) }.

(** [deliver], up to its commit: the table it would commit and whether it failed. *)
Definition OutboxRelay_deliver (max_attempts : Z) (now : datetime) (m : OutboxMessage)
    (fate : nat → broker_fate) (dlq_fate : broker_fate) (rows : list OutboxModel) (t : Topics) :
    bool * list OutboxModel * Topics :=
  let id := om_outbox_id m in
  let '(error, copies) := publish_with_retry PUBLISH_ATTEMPTS_PER_CYCLE fate in
  let t := mkTopics (tp_log t ++ replicate copies (id, record_of m)) (tp_dlq t) in
  match error with
  | None => (false, release_claim id (mark_published id now rows), t)
  | Some error =>
      if decide (om_attempts m + 1 < max_attempts)%Z
      then (true, release_claim id (outbox_record_failure id error rows), t)
      else
        let t := if arrived dlq_fate
          then mkTopics (tp_log t) (tp_dlq t ++ [(id, dead_letter_record m error)]) else t in
        match dlq_fate with
        | Accepts => (true, release_claim id (dead_letter id error now rows), t)
        | Refuses e | AcceptsUnheard e =>
            (true, release_claim id (outbox_record_failure id
               (error ++ "; dead-letter publish failed: " ++ e)%string rows), t)
        end
  end.

(** ** Relays side by side

    A relay holds the batch it claimed.  A row becomes visible when its writer commits,
    whatever its id, but after the older rows of its own partition key; a commit of a relay
    may fail, and a relay may stop at any moment: a claim not yet committed is then undone,
    which may put any earlier value back into [claimed_at]. *)
Record RelayWorld := mkRelayWorld {
  rw_rows : list OutboxModel;
  rw_topics : Topics;
  rw_batches : gmap N (list OutboxMessage) }.

Record RelaySettings := mkRelaySettings {
  outbox_batch_size : nat;
  outbox_claim_lease : timedelta;
  outbox_max_attempts : Z }.

Inductive relay_step (cfg : RelaySettings) : RelayWorld → RelayWorld → Prop :=
  | rs_append w before after row :
      rw_rows w = before ++ after →
      (∀ r, r ∈ before → (ob_id r < ob_id row)%Z) →
      (∀ r, r ∈ after → (ob_id row < ob_id r)%Z ∧ ob_partition_key r ≠ ob_partition_key row) →
      still_pending row = true →
      relay_step cfg w (mkRelayWorld (before ++ row :: after) (rw_topics w) (rw_batches w))
  | rs_claim w relay now locked rows messages batch :
      rw_batches w !! relay = None →
      fetch_unpublished (outbox_batch_size cfg) (outbox_claim_lease cfg) now locked (rw_rows w) =
        (rows, messages) →
      batch ≡ₚ messages →
      relay_step cfg w (mkRelayWorld rows (rw_topics w) (<[relay := batch]> (rw_batches w)))
  | rs_deliver w relay m batch now fate dlq_fate failed rows topics :
      rw_batches w !! relay = Some (m :: batch) →
      OutboxRelay_deliver (outbox_max_attempts cfg) now m fate dlq_fate (rw_rows w) (rw_topics w) =
        (failed, rows, topics) →
      relay_step cfg w (mkRelayWorld rows topics (<[relay := batch]> (rw_batches w)))
  | rs_deliver_uncommitted w relay m batch now fate dlq_fate failed rows topics :
      rw_batches w !! relay = Some (m :: batch) →
      OutboxRelay_deliver (outbox_max_attempts cfg) now m fate dlq_fate (rw_rows w) (rw_topics w) =
        (failed, rows, topics) →
      relay_step cfg w (mkRelayWorld (rw_rows w) topics (delete relay (rw_batches w)))
  | rs_stop w relay (earlier : Z → option datetime) (undone : list Z) :
      relay_step cfg w (mkRelayWorld
        ((λ r, if decide (ob_id r ∈ undone) then with_claim (earlier (ob_id r)) r else r) <$>
           rw_rows w) (rw_topics w) (delete relay (rw_batches w))).

(** The start: rows in the order of their ids, none published, nothing on the topics. *)
Definition relay_start (rows : list OutboxModel) : RelayWorld :=
  mkRelayWorld rows (mkTopics [] []) ∅.

(** ** One relay polling

    What a poll meets: the clock, the order [RETURNING] answers in, and the broker. *)
Record Poll := mkPoll {
  pl_now : datetime;
  pl_order : list OutboxMessage → list OutboxMessage;
  pl_fate : OutboxMessage → nat → broker_fate;
  pl_dlq_fate : OutboxMessage → broker_fate }.

Fixpoint deliver_batch (max_attempts : Z) (pl : Poll) (batch : list OutboxMessage)
    (rows : list OutboxModel) (t : Topics) : nat * list OutboxModel * Topics :=
  match batch with
  | [] => (0, rows, t)
  | m :: batch =>
      let '(failed, rows, t) :=
        OutboxRelay_deliver max_attempts (pl_now pl) m (pl_fate pl m) (pl_dlq_fate pl m) rows t in
      let '(n, rows, t) := deliver_batch max_attempts pl batch rows t in
      ((if failed then S n else n), rows, t)
  end.

(** [run_once]: claim a batch, then deliver its messages one by one. *)
Definition OutboxRelay_run_once (cfg : RelaySettings) (pl : Poll) (rows : list OutboxModel)
    (t : Topics) : nat * list OutboxModel * Topics :=
  let '(rows, messages) :=
    fetch_unpublished (outbox_batch_size cfg) (outbox_claim_lease cfg) (pl_now pl) [] rows in
  deliver_batch (outbox_max_attempts cfg) pl (pl_order pl messages) rows t.

Fixpoint run_polls (cfg : RelaySettings) (pls : list Poll) (rows : list OutboxModel)
    (t : Topics) : list OutboxModel * Topics :=
  match pls with
  | [] => (rows, t)
  | pl :: pls => let '(_, rows, t) := OutboxRelay_run_once cfg pl rows t in run_polls cfg pls rows t
  end.

(** The polls a table may still need: for each pending row, the attempts it has left. *)
Definition attempts_left (max_attempts : Z) (r : OutboxModel) : nat :=
  if still_pending r then Z.to_nat (max_attempts - ob_attempts r) `max` 1 else 0.
Definition polls_needed (max_attempts : Z) (rows : list OutboxModel) : nat :=
  sum_list (attempts_left max_attempts <$> rows).

(** ** Lemmas *)

(** What an update of a row may do: its event stays, and a settled row stays settled. *)
Record advances (r r' : OutboxModel) : Prop := {
  adv_id : ob_id r' = ob_id r;
  adv_key : ob_partition_key r' = ob_partition_key r;
  adv_topic : ob_topic r' = ob_topic r;
  adv_payload : ob_payload r' = ob_payload r;
  adv_published : is_Some (ob_published_at r) → is_Some (ob_published_at r');
  adv_dead : is_Some (ob_dead_lettered_at r) → is_Some (ob_dead_lettered_at r') }.

#[export] Instance advances_preorder : PreOrder advances.
Proof.
  split.
  - by intros r.
  - intros r1 r2 r3 [] []. split; first [congruence | auto].
Qed.

Definition rows_advance : relation (list OutboxModel) := Forall2 advances.

Lemma fmap_advance (f : OutboxModel → OutboxModel) rows :
  (∀ r, advances r (f r)) → rows_advance rows (f <$> rows).
Proof. intros Hf. apply Forall2_fmap_r, Forall_Forall2_diag, Forall_forall. auto. Qed.

Lemma advance_elem_1 rows rows' r :
  rows_advance rows rows' → r ∈ rows → ∃ r', r' ∈ rows' ∧ advances r r'.
Proof. intros Ha (i & Hi)%list_elem_of_lookup_1.
  destruct (Forall2_lookup_l _ _ _ _ _ Ha Hi) as (r' & ? & ?).
  exists r'. split; [by eapply list_elem_of_lookup_2 | done]. Qed.
Lemma advance_elem_2 rows rows' r' :
  rows_advance rows rows' → r' ∈ rows' → ∃ r, r ∈ rows ∧ advances r r'.
Proof. intros Ha (i & Hi)%list_elem_of_lookup_1.
  destruct (Forall2_lookup_r _ _ _ _ _ Ha Hi) as (r & ? & ?).
  exists r. split; [by eapply list_elem_of_lookup_2 | done]. Qed.
Lemma advance_ids rows rows' :
  rows_advance rows rows' → ob_id <$> rows' = ob_id <$> rows.
Proof. induction 1 as [|r r' rows rows' [] ? IH]; [done|]. csimpl. by f_equal. Qed.

Lemma settled_iff r :
  still_pending r = false ↔ is_Some (ob_published_at r) ∨ is_Some (ob_dead_lettered_at r).
Proof.
  unfold still_pending. destruct (ob_published_at r), (ob_dead_lettered_at r);
    naive_solver eauto.
Qed.
Lemma settled_advances r r' :
  advances r r' → still_pending r = false → still_pending r' = false.
Proof. intros [] H%settled_iff. apply settled_iff. naive_solver. Qed.

(** A message a relay holds for a row. *)
Record message_of (r : OutboxModel) (m : OutboxMessage) : Prop := {
  mof_id : om_outbox_id m = ob_id r;
  mof_key : om_partition_key m = ob_partition_key r;
  mof_topic : om_topic m = ob_topic r;
  mof_payload : om_payload m = ob_payload r }.

Lemma message_of_advances r r' m : advances r r' → message_of r m → message_of r' m.
Proof. intros [] []. split; congruence. Qed.

(** The older rows of a row's key. *)
Definition older_keymate (r p : OutboxModel) : Prop :=
  ob_partition_key p = ob_partition_key r ∧ (ob_id p < ob_id r)%Z.

Lemma older_keymate_advances r r' p p' :
  advances r r' → advances p p' → older_keymate r' p' → older_keymate r p.
Proof. intros [] [] [? ?]. split; congruence || lia. Qed.

(** The row is the record's, and every older row of the key was dead-lettered or is on the
    log before position [i]. *)
Record placed (rows : list OutboxModel) (log : list (Z * KafkaRecord)) (i : nat) (id : Z)
    (k : KafkaRecord) (r : OutboxModel) : Prop := {
  pl_row : r ∈ rows;
  pl_id : ob_id r = id;
  pl_topic : kr_topic k = ob_topic r;
  pl_key : kr_key k = ob_partition_key r;
  pl_body : kr_body k = ob_payload r;
  pl_ahead : ∀ p, p ∈ rows → older_keymate r p →
    is_Some (ob_dead_lettered_at p) ∨ ∃ j k', j < i ∧ log !! j = Some (ob_id p, k') }.

(** A copy on the dead-letter topic: the event of the row, under its key, and the topic the
    row was meant for in its headers. *)
Record copy_of (r : OutboxModel) (k : KafkaRecord) : Prop := {
  co_topic : kr_topic k = DLQ_TOPIC;
  co_key : kr_key k = ob_partition_key r;
  co_body : kr_body k = ob_payload r;
  co_origin : ("original_topic"%string, HText (ob_topic r)) ∈ kr_headers k }.

Lemma copy_of_advances r r' k : advances r r' → copy_of r k → copy_of r' k.
Proof. intros [] []. split; congruence. Qed.

Lemma message_copy r m error : message_of r m → copy_of r (dead_letter_record m error).
Proof.
  intros []. split; [done..|]. cbn [dead_letter_record kr_headers]. rewrite elem_of_app. right.
  rewrite mof_topic0. by left.
Qed.

(** The message is for a row none of whose older key-mates still needs publishing. *)
Definition deliverable (rows : list OutboxModel) (m : OutboxMessage) : Prop :=
  ∃ r, r ∈ rows ∧ message_of r m ∧ ∀ p, p ∈ rows → older_keymate r p → still_pending p = false.

Record relay_inv (w : RelayWorld) : Prop := {
  ri_sorted : StronglySorted Z.lt (ob_id <$> rw_rows w);
  ri_log : ∀ i id k, tp_log (rw_topics w) !! i = Some (id, k) →
    ∃ r, placed (rw_rows w) (tp_log (rw_topics w)) i id k r;
  ri_published : ∀ r, r ∈ rw_rows w → is_Some (ob_published_at r) →
    ob_id r ∈ (tp_log (rw_topics w)).*1;
  ri_dead : ∀ r, r ∈ rw_rows w → is_Some (ob_dead_lettered_at r) →
    ob_id r ∈ (tp_dlq (rw_topics w)).*1;
  ri_copies : ∀ id k, (id, k) ∈ tp_dlq (rw_topics w) →
    ∃ r, r ∈ rw_rows w ∧ ob_id r = id ∧ copy_of r k;
  ri_batches : ∀ relay batch m, rw_batches w !! relay = Some batch → m ∈ batch →
    deliverable (rw_rows w) m }.

Lemma deliverable_advance rows rows' m :
  rows_advance rows rows' → deliverable rows m → deliverable rows' m.
Proof.
  intros Ha (r & Hr & Hm & Hold). destruct (advance_elem_1 _ _ _ Ha Hr) as (r' & Hr' & Hadv).
  exists r'. split_and!; [done | by eapply message_of_advances |].
  intros p' Hp' Hk. destruct (advance_elem_2 _ _ _ Ha Hp') as (p & Hp & Hadvp).
  eapply settled_advances; [done|]. apply Hold; [done|]. by eapply older_keymate_advances.
Qed.

Lemma placed_advance rows rows' log log' i id k r :
  rows_advance rows rows' → placed rows log i id k r →
  ∃ r', placed rows' (log ++ log') i id k r'.
Proof.
  intros Ha [Hr Hid Ht Hk Hb Hahead].
  destruct (advance_elem_1 _ _ _ Ha Hr) as (r' & Hr' & Hadv).
  exists r'. split; try done; try (destruct Hadv; congruence).
  intros p' Hp' Hold. destruct (advance_elem_2 _ _ _ Ha Hp') as (p & Hp & Hadvp).
  destruct (Hahead p Hp) as [Hd | (j & k' & Hj & Hlog)].
  - by eapply older_keymate_advances.
  - left. by apply (adv_dead _ _ Hadvp).
  - right. exists j, k'. split; [done|].
    rewrite (adv_id _ _ Hadvp). by apply lookup_app_l_Some.
Qed.

(** The one step that matters: the rows advance, copies of one deliverable message reach
    the topics, and what a row newly says happened did happen. *)
Lemma relay_inv_advance w rows' new newd batches' :
  relay_inv w → rows_advance (rw_rows w) rows' →
  (∀ id k, (id, k) ∈ new → ∃ m, deliverable (rw_rows w) m ∧
     (id, k) = (om_outbox_id m, record_of m)) →
  (∀ id k, (id, k) ∈ newd → ∃ m error, deliverable (rw_rows w) m ∧
     (id, k) = (om_outbox_id m, dead_letter_record m error)) →
  (∀ r, r ∈ rows' → is_Some (ob_published_at r) →
     ob_id r ∈ (tp_log (rw_topics w) ++ new).*1) →
  (∀ r, r ∈ rows' → is_Some (ob_dead_lettered_at r) →
     ob_id r ∈ (tp_dlq (rw_topics w) ++ newd).*1) →
  (∀ relay batch m, batches' !! relay = Some batch → m ∈ batch →
     deliverable (rw_rows w) m ∨ deliverable rows' m) →
  relay_inv (mkRelayWorld rows'
    (mkTopics (tp_log (rw_topics w) ++ new) (tp_dlq (rw_topics w) ++ newd)) batches').
Proof.
  intros [Hs Hl Hp Hd Hco Hb] Ha Hnew Hnewd Hpub Hdead Hbat. split; cbn [rw_rows rw_topics rw_batches tp_log tp_dlq].
  - by rewrite (advance_ids _ _ Ha).
  - intros i id k [Hi | [Hlen Hi]]%lookup_app_Some.
    + destruct (Hl _ _ _ Hi) as [r Hpl]. by eapply placed_advance.
    + destruct (Hnew id k) as (m & (r & Hr & Hm & Hold) & [= -> ->]); [by eapply list_elem_of_lookup_2|].
      apply (placed_advance _ _ _ new _ _ _ r Ha). split; [done|by destruct Hm..|].
      intros p Hpr Hk. destruct (proj1 (settled_iff p) (Hold p Hpr Hk)) as [Hs'|]; [right|by left].
      apply (Hp _ Hpr), list_elem_of_fmap in Hs' as ([id' k'] & Heq & (j & Hj)%list_elem_of_lookup_1).
      cbn in Heq. exists j, k'. rewrite Heq. split; [|done]. apply lookup_lt_Some in Hj. lia.
  - done.
  - done.
  - intros id k [(r & Hr & Hid & Hk)%Hco | (m & error & (r & Hr & Hm & _) & [= -> ->])%Hnewd]%elem_of_app;
      destruct (advance_elem_1 _ _ _ Ha Hr) as (r' & Hr' & Hadv); exists r'.
    + split_and!; [done|by rewrite (adv_id _ _ Hadv)|by eapply copy_of_advances].
    + pose proof (message_of_advances _ _ _ Hadv Hm) as Hm'.
      split_and!; [done|by destruct Hm'|by apply message_copy].
  - intros relay batch m Hbm Hin. destruct (Hbat _ _ _ Hbm Hin); [by eapply deliverable_advance | done].
Qed.

Lemma update_row_advance id f rows :
  (∀ r, advances r (f r)) → rows_advance rows (update_row id f rows).
Proof. intros Hf. apply fmap_advance. intros r. by case_decide. Qed.

Lemma update_row_elem id f rows r' :
  r' ∈ update_row id f rows ↔
  (∃ r, r ∈ rows ∧ ob_id r ≠ id ∧ r' = r) ∨ (∃ r, r ∈ rows ∧ ob_id r = id ∧ r' = f r).
Proof.
  unfold update_row. rewrite list_elem_of_fmap. split.
  - intros (r & -> & Hr). case_decide; [right | left]; eauto.
  - intros [(r & Hr & Hid & ->) | (r & Hr & Hid & ->)]; exists r;
      [rewrite decide_False | rewrite decide_True]; done.
Qed.

Lemma update_row_cons id f r rows :
  update_row id f (r :: rows) =
    (if decide (ob_id r = id) then f r else r) :: update_row id f rows.
Proof. done. Qed.

Lemma update_row_update_row id f g rows :
  (∀ r, ob_id (f r) = ob_id r) →
  update_row id g (update_row id f rows) = update_row id (g ∘ f) rows.
Proof.
  intros Hf. unfold update_row. rewrite <- list_fmap_compose. apply list_fmap_ext.
  intros i r _. cbn. destruct (decide (ob_id r = id)) as [Hid|Hid].
  - by rewrite decide_True by (by rewrite Hf).
  - by rewrite decide_False.
Qed.

(** What happened to a message, in its row. *)
Inductive delivery_outcome (max_attempts : Z) (now : datetime) (m : OutboxMessage)
    (dlq_fate : broker_fate) :
    bool → (OutboxModel → OutboxModel) → nat → list (Z * KafkaRecord) → Prop :=
  | do_published n :
      delivery_outcome max_attempts now m dlq_fate false
        (λ r, with_claim None (with_outcome (Some now) (ob_dead_lettered_at r) (ob_attempts r) None r))
        (S n) []
  | do_failed n error dlq :
      (om_attempts m + 1 < max_attempts)%Z ∨ dlq_fate ≠ Accepts →
      delivery_outcome max_attempts now m dlq_fate true
        (λ r, with_claim None (with_outcome (ob_published_at r) (ob_dead_lettered_at r)
                (ob_attempts r + 1) (Some error) r)) n dlq
  | do_dead_lettered n error k :
      (max_attempts <= om_attempts m + 1)%Z →
      delivery_outcome max_attempts now m dlq_fate true
        (λ r, with_claim None (with_outcome (ob_published_at r) (Some now) (ob_attempts r)
                (Some error) r)) n [(om_outbox_id m, k)].

Lemma publish_with_retry_copies attempts fate :
  (publish_with_retry attempts fate).1 = None → ∃ n, (publish_with_retry attempts fate).2 = S n.
Proof.
  revert fate. induction attempts as [|n IH]; intros fate; cbn; [done|].
  destruct (fate 0); [eauto| |]; case_decide; try done.
  - apply IH.
  - specialize (IH (fate ∘ S)). destruct (publish_with_retry n _) as [r k]. cbn in *. eauto.
Qed.

Lemma claim_after id f rows :
  (∀ r, ob_id (f r) = ob_id r) →
  release_claim id (update_row id f rows) = update_row id (λ r, with_claim None (f r)) rows.
Proof. apply update_row_update_row. Qed.

Lemma deliver_outcome max_attempts now m fate dlq_fate rows t failed rows' t' :
  OutboxRelay_deliver max_attempts now m fate dlq_fate rows t = (failed, rows', t') →
  ∃ f n dlq, delivery_outcome max_attempts now m dlq_fate failed f n dlq ∧
    (∀ id k, (id, k) ∈ dlq → ∃ error, (id, k) = (om_outbox_id m, dead_letter_record m error)) ∧
    rows' = update_row (om_outbox_id m) f rows ∧
    t' = mkTopics (tp_log t ++ replicate n (om_outbox_id m, record_of m)) (tp_dlq t ++ dlq).
Proof.
  unfold OutboxRelay_deliver. pose proof (publish_with_retry_copies PUBLISH_ATTEMPTS_PER_CYCLE fate) as Hc.
  destruct (publish_with_retry _ fate) as [[error|] copies].
  - case_decide as Hmax.
    + intros [= <- <- <-]. eexists _, _, []. split; [by constructor; left|].
      split; [by intros ? ? ?%elem_of_nil|].
      split; [by apply claim_after | by rewrite app_nil_r].
    + assert (∀ id k, (id, k) ∈ [(om_outbox_id m, dead_letter_record m error)] →
        ∃ error, (id, k) = (om_outbox_id m, dead_letter_record m error)) as Hcopy.
      { intros id k Hin%list_elem_of_singleton. eauto. }
      destruct dlq_fate; intros [= <- <- <-].
      * eexists _, _, [_]. split; [apply do_dead_lettered; lia|]. split; [exact Hcopy|].
        split; [by apply claim_after | done].
      * eexists _, _, []. split; [by constructor; right|]. split; [by intros ? ? ?%elem_of_nil|].
        split; [by apply claim_after | by rewrite app_nil_r].
      * eexists _, _, [_]. split; [by constructor; right|]. split; [exact Hcopy|].
        split; [by apply claim_after | done].
  - destruct (Hc eq_refl) as [n [= ->]]. intros [= <- <- <-]. eexists _, (S n), [].
    split; [constructor|]. split; [by intros ? ? ?%elem_of_nil|].
    split; [by apply claim_after | by rewrite app_nil_r].
Qed.

Lemma delivery_outcome_advances max_attempts now m dlq_fate failed f n dlq r :
  delivery_outcome max_attempts now m dlq_fate failed f n dlq → advances r (f r).
Proof. by destruct 1; split; cbn. Qed.

(** Delivering a deliverable message, whoever holds it and whenever, keeps the invariant. *)
Lemma relay_inv_deliver w m f failed max_attempts now dlq_fate n dlq batches' :
  relay_inv w → deliverable (rw_rows w) m →
  delivery_outcome max_attempts now m dlq_fate failed f n dlq →
  (∀ id k, (id, k) ∈ dlq → ∃ error, (id, k) = (om_outbox_id m, dead_letter_record m error)) →
  (∀ relay batch m', batches' !! relay = Some batch → m' ∈ batch → deliverable (rw_rows w) m') →
  relay_inv (mkRelayWorld (update_row (om_outbox_id m) f (rw_rows w))
    (mkTopics (tp_log (rw_topics w) ++ replicate n (om_outbox_id m, record_of m))
       (tp_dlq (rw_topics w) ++ dlq)) batches').
Proof.
  intros Hinv Hm Ho Hcopy Hb. apply relay_inv_advance; [done|..].
  - apply update_row_advance. intros r. by eapply delivery_outcome_advances.
  - intros id k [Heq _]%elem_of_replicate. eauto.
  - intros id k [error Heq]%Hcopy. eauto.
  - intros r' [(r & Hr & _ & ->) | (r & Hr & Hid & ->)]%update_row_elem Hs;
      rewrite fmap_app, elem_of_app.
    + left. by apply (ri_published _ Hinv).
    + destruct Ho; cbn in *; [right; rewrite Hid; by left | left; by apply (ri_published _ Hinv)..].
  - intros r' [(r & Hr & _ & ->) | (r & Hr & Hid & ->)]%update_row_elem Hs;
      rewrite fmap_app, elem_of_app.
    + left. by apply (ri_dead _ Hinv).
    + destruct Ho; cbn in *; [left; by apply (ri_dead _ Hinv).. | right; rewrite Hid; by left].
  - intros relay batch m' ? ?. left. eauto.
Qed.

(** *** Claiming *)

Lemma ids_unique rows r r' :
  StronglySorted Z.lt (ob_id <$> rows) → r ∈ rows → r' ∈ rows → ob_id r = ob_id r' → r = r'.
Proof.
  induction rows as [|r0 rows IH]; csimpl; [by rewrite elem_of_nil|].
  intros [Hs Hlt]%StronglySorted_inv. rewrite Forall_fmap, Forall_forall in Hlt.
  rewrite !elem_of_cons. intros [->|Hr] [->|Hr'] Heq; [done| | | by apply IH];
    [specialize (Hlt _ Hr') | specialize (Hlt _ Hr)]; cbn in Hlt; lia.
Qed.

Lemma claimable_spec limit lease now locked rows r :
  r ∈ claimable limit lease now locked rows →
  r ∈ rows ∧ still_pending r = true ∧ blocked rows r = false ∧ lease_expired lease now r = true.
Proof.
  intros (i & [Hi _]%lookup_take_Some)%list_elem_of_lookup_1.
  apply list_elem_of_lookup_2, list_elem_of_filter in Hi as [Hb Hr].
  repeat setoid_rewrite andb_true_iff in Hb. rewrite negb_true_iff in Hb. naive_solver.
Qed.

Lemma blocked_false rows r p :
  blocked rows r = false → p ∈ rows → older_keymate r p → still_pending p = false.
Proof.
  intros Hb Hp [Hk Hid]. destruct (still_pending p) eqn:Hs; [|done].
  enough (blocked rows r = true) by congruence.
  apply existsb_exists. exists p. split; [by apply list_elem_of_In|].
  rewrite !bool_decide_true by done. by rewrite Hs.
Qed.

(** An update that touches nothing but leases. *)
Lemma claims_fmap (f : OutboxModel → OutboxModel) (rows : list OutboxModel) :
  (∀ r, f r = r ∨ ∃ c, f r = with_claim c r) →
  f <$> rows = (λ r, with_claim (ob_claimed_at (f r)) r) <$> rows.
Proof.
  intros Hf. apply list_fmap_ext. intros i r _. by destruct (Hf r) as [-> | [c ->]]; destruct r.
Qed.

Lemma claims_same (f : OutboxModel → OutboxModel) (rows : list OutboxModel) :
  (∀ r, f r = r) → (λ r, with_claim (ob_claimed_at (f r)) r) <$> rows = rows.
Proof.
  intros Hf. rewrite <- (list_fmap_id rows) at 2. apply list_fmap_ext. intros i r _.
  rewrite Hf. by destruct r.
Qed.

Lemma relay_inv_claims w c batches' :
  relay_inv w →
  (∀ relay batch m, batches' !! relay = Some batch → m ∈ batch → deliverable (rw_rows w) m) →
  relay_inv (mkRelayWorld ((λ r, with_claim (c r) r) <$> rw_rows w) (rw_topics w) batches').
Proof.
  intros Hinv Hb.
  pose proof (relay_inv_advance w ((λ r, with_claim (c r) r) <$> rw_rows w) [] [] batches' Hinv) as Hw.
  rewrite !app_nil_r in Hw. destruct (rw_topics w) as [log dlq] eqn:Ht. apply Hw.
  - by apply fmap_advance.
  - intros id k []%elem_of_nil.
  - intros id k []%elem_of_nil.
  - intros r' (r & -> & Hr)%list_elem_of_fmap Hx.
    replace log with (tp_log (rw_topics w)) by by rewrite Ht. by apply (ri_published _ Hinv r Hr).
  - intros r' (r & -> & Hr)%list_elem_of_fmap Hx.
    replace dlq with (tp_dlq (rw_topics w)) by by rewrite Ht. by apply (ri_dead _ Hinv r Hr).
  - intros relay batch m ? ?. left. eauto.
Qed.

Lemma fetch_spec limit lease now locked rows rows' messages :
  StronglySorted Z.lt (ob_id <$> rows) →
  fetch_unpublished limit lease now locked rows = (rows', messages) →
  (∃ c, rows' = (λ r, with_claim (c r) r) <$> rows) ∧ ∀ m, m ∈ messages → deliverable rows m.
Proof.
  intros Hs [= <- <-]. split.
  - eexists. apply claims_fmap. intros r. case_match; eauto.
  - intros m (r & -> & [Ht%bool_decide_eq_true Hr]%list_elem_of_filter)%list_elem_of_fmap.
    apply list_elem_of_fmap in Ht as (r' & Hid & Hc).
    destruct (claimable_spec _ _ _ _ _ _ Hc) as (Hr' & _ & Hb & _).
    rewrite (ids_unique _ _ _ Hs Hr Hr' Hid). exists r'. split; [done|]. split; [done|].
    intros p Hp Hk. by eapply blocked_false.
Qed.

(** *** A row becoming visible *)

Lemma relay_inv_append w before after row :
  rw_rows w = before ++ after → relay_inv w →
  (∀ r, r ∈ before → (ob_id r < ob_id row)%Z) →
  (∀ r, r ∈ after → (ob_id row < ob_id r)%Z ∧ ob_partition_key r ≠ ob_partition_key row) →
  still_pending row = true →
  relay_inv (mkRelayWorld (before ++ row :: after) (rw_topics w) (rw_batches w)).
Proof.
  intros Hrows [Hs Hl Hp Hd Hco Hb] Hbefore Hafter Hrow. rewrite Hrows in *.
  assert (∀ p, p ∈ before ++ row :: after → p = row ∨ p ∈ before ++ after) as Hin.
  { intros p. rewrite !elem_of_app, elem_of_cons. naive_solver. }
  assert (∀ p, p ∈ before ++ after → p ∈ before ++ row :: after) as Hin'.
  { intros p. rewrite !elem_of_app, elem_of_cons. naive_solver. }
  assert (∀ r, r ∈ before ++ after → ¬ older_keymate r row) as Hnew.
  { intros r [Hr|Hr]%elem_of_app [Hk Hlt]; [specialize (Hbefore r Hr); lia|].
    by destruct (Hafter r Hr). }
  split; cbn [rw_rows rw_topics rw_batches].
  - clear -Hs Hbefore Hafter. induction before as [|r before IH]; csimpl in *.
    + constructor; [done|]. apply Forall_fmap, Forall_forall. intros r Hr. by apply Hafter.
    + apply StronglySorted_inv in Hs as [Hs Hlt]. constructor.
      * apply IH; [done|]. intros r' Hr'. apply Hbefore. by right.
      * rewrite fmap_app, fmap_cons, Forall_app, Forall_cons in *.
        destruct Hlt. split_and!; [done | | done]. apply Hbefore. by left.
  - intros i id k Hi. destruct (Hl _ _ _ Hi) as (r & []). exists r. split; auto.
    intros p [->|Hpin]%Hin Hold; [by destruct (Hnew r) | auto].
  - intros r [->|Hr]%Hin Hx; [|auto].
    rewrite (proj2 (settled_iff row)) in Hrow by auto. done.
  - intros r [->|Hr]%Hin Hx; [|auto].
    rewrite (proj2 (settled_iff row)) in Hrow by auto. done.
  - intros id k (r & Hr & ?)%Hco. exists r. auto.
  - intros relay batch m Hbm Hm. destruct (Hb _ _ _ Hbm Hm) as (r & Hr & Hmr & Hold).
    exists r. split_and!; [auto | done |].
    intros p [->|Hpin]%Hin Hk; [by destruct (Hnew r) | auto].
Qed.


Lemma batches_delete w relay :
  relay_inv w → ∀ relay' batch m, delete relay (rw_batches w) !! relay' = Some batch → m ∈ batch →
  deliverable (rw_rows w) m.
Proof. intros Hinv relay' batch m [_ Hb]%lookup_delete_Some ?. by eapply ri_batches. Qed.

Lemma relay_inv_step cfg w w' : relay_step cfg w w' → relay_inv w → relay_inv w'.
Proof.
  intros Hstep Hinv. destruct Hstep as [|w relay now locked rows messages batch _ Hf Hbatch
    |w relay m batch now fate dlq_fate failed rows topics Hb Hd
    |w relay m batch now fate dlq_fate failed rows topics Hb Hd|w relay earlier undone].
  - by eapply relay_inv_append.
  - apply fetch_spec in Hf as [[c ->] Hm]; [|by apply Hinv].
    apply relay_inv_claims; [done|].
    intros relay' batch' m [[<- <-] | [_ Hb]]%lookup_insert_Some Hin;
      [apply Hm; by rewrite <- Hbatch | by eapply ri_batches].
  - apply deliver_outcome in Hd as (f & n & dlq & Ho & Hcopy & -> & ->).
    eapply relay_inv_deliver; [done| |done|exact Hcopy|].
    + eapply ri_batches; [done..|]. by left.
    + intros relay' batch' m' [[<- <-] | [_ Hb']]%lookup_insert_Some Hin;
        [eapply ri_batches; [done..|]; by right | by eapply ri_batches].
  - apply deliver_outcome in Hd as (f & n & dlq & Ho & Hcopy & -> & ->).
    pose proof (relay_inv_advance w (rw_rows w) (replicate n (om_outbox_id m, record_of m)) dlq
      (delete relay (rw_batches w)) Hinv) as Hw. apply Hw; clear Hw.
    + apply Forall_Forall2_diag, Forall_forall. done.
    + intros id k [Heq _]%elem_of_replicate. exists m. split; [|done].
      eapply ri_batches; [done..|]. by left.
    + intros id k [error Heq]%Hcopy. exists m, error. split; [|done].
      eapply ri_batches; [done..|]. by left.
    + intros r Hr Hx. rewrite fmap_app, elem_of_app. left. by apply (ri_published _ Hinv).
    + intros r Hr Hx. rewrite fmap_app, elem_of_app. left. by apply (ri_dead _ Hinv).
    + intros. left. by eapply batches_delete.
  - rewrite claims_fmap by (intros r; case_decide; eauto).
    apply relay_inv_claims; [done|]. by apply batches_delete.
Qed.

Lemma relay_inv_start rows :
  StronglySorted Z.lt (ob_id <$> rows) → (∀ r, r ∈ rows → still_pending r = true) →
  relay_inv (relay_start rows).
Proof.
  intros Hs Hp. split; cbn.
  - done.
  - intros i id k [=].
  - intros r Hr Hx. specialize (Hp r Hr). by rewrite (proj2 (settled_iff r)) in Hp by auto.
  - intros r Hr Hx. specialize (Hp r Hr). by rewrite (proj2 (settled_iff r)) in Hp by auto.
  - intros id k []%elem_of_nil.
  - intros relay batch m Hb. by rewrite lookup_empty in Hb.
Qed.

Lemma relay_inv_reachable cfg rows w :
  StronglySorted Z.lt (ob_id <$> rows) → (∀ r, r ∈ rows → still_pending r = true) →
  rtc (relay_step cfg) (relay_start rows) w → relay_inv w.
Proof.
  intros Hs Hp Hr. pose proof (relay_inv_start _ Hs Hp) as Hi.
  induction Hr; eauto using relay_inv_step.
Qed.

(** *** Progress of one relay *)

Lemma polls_needed_cons k r rows :
  polls_needed k (r :: rows) = attempts_left k r + polls_needed k rows.
Proof. done. Qed.

Lemma polls_needed_pos k rows r :
  r ∈ rows → still_pending r = true → 0 < polls_needed k rows.
Proof.
  intros Hr Hp. induction Hr as [rows|r r' rows Hr IH]; rewrite polls_needed_cons; [|by apply Nat.add_pos_r, IH].
  unfold attempts_left. rewrite Hp. lia.
Qed.

Lemma polls_needed_zero k rows r :
  polls_needed k rows = 0 → r ∈ rows → still_pending r = false.
Proof.
  intros Hz Hr. destruct (still_pending r) eqn:Hp; [|done].
  pose proof (polls_needed_pos k rows r Hr Hp). lia.
Qed.

Lemma polls_needed_fmap k (f : OutboxModel → OutboxModel) (rows : list OutboxModel) :
  (∀ r, r ∈ rows → attempts_left k (f r) = attempts_left k r) →
  polls_needed k (f <$> rows) = polls_needed k rows.
Proof.
  induction rows as [|r rows IH]; intros Hf; [done|].
  rewrite fmap_cons, !polls_needed_cons, Hf, IH by set_solver. done.
Qed.

Lemma polls_needed_update k f rows r :
  StronglySorted Z.lt (ob_id <$> rows) → r ∈ rows →
  attempts_left k (f r) < attempts_left k r →
  polls_needed k (update_row (ob_id r) f rows) < polls_needed k rows.
Proof.
  induction rows as [|r0 rows IH]; [by rewrite elem_of_nil|]. rewrite fmap_cons.
  intros [Hs Hlt]%StronglySorted_inv Hin Hf. rewrite Forall_fmap, Forall_forall in Hlt.
  rewrite update_row_cons, !polls_needed_cons. apply elem_of_cons in Hin as [<-|Hr].
  - rewrite decide_True by done. unfold update_row. rewrite polls_needed_fmap; [lia|].
    intros r' Hr'. rewrite decide_False; [done|]. specialize (Hlt r' Hr'). cbn in Hlt. lia.
  - specialize (IH Hs Hr Hf). specialize (Hlt r Hr). cbn in Hlt.
    rewrite decide_False by lia. lia.
Qed.

Lemma outcome_progress k now m failed f n dlq r :
  delivery_outcome k now m Accepts failed f n dlq → om_attempts m = ob_attempts r →
  still_pending r = true → attempts_left k (f r) < attempts_left k r.
Proof.
  intros Ho Ha Hp. unfold attempts_left at 2. rewrite Hp. destruct Ho as [|n error dlq Hk|].
  - unfold attempts_left. cbn. lia.
  - destruct Hk; [|done]. unfold attempts_left.
    replace (still_pending _) with (still_pending r) by done. rewrite Hp. cbn. lia.
  - unfold attempts_left. cbn [still_pending with_claim with_outcome ob_published_at].
    unfold still_pending. cbn. destruct (ob_published_at r); lia.
Qed.

Definition unleased (rows : list OutboxModel) : Prop := ∀ r, r ∈ rows → ob_claimed_at r = None.

(** A message as the relay read it: its row is still as it was. *)
Definition fresh_in (rows : list OutboxModel) (m : OutboxMessage) : Prop :=
  ∃ r, r ∈ rows ∧ om_outbox_id m = ob_id r ∧ om_attempts m = ob_attempts r ∧
    still_pending r = true.

Lemma fresh_in_update rows id f m :
  fresh_in rows m → om_outbox_id m ≠ id → fresh_in (update_row id f rows) m.
Proof.
  intros (r & Hr & Hid & ? & ?) Hne. exists r. split; [|done].
  apply update_row_elem. left. exists r. split_and!; congruence || done.
Qed.

Lemma deliver_batch_progress k pl batch rows t n rows' t' :
  deliver_batch k pl batch rows t = (n, rows', t') →
  (∀ m, pl_dlq_fate pl m = Accepts) →
  NoDup (om_outbox_id <$> batch) → StronglySorted Z.lt (ob_id <$> rows) →
  (∀ m, m ∈ batch → fresh_in rows m) →
  (∀ r, r ∈ rows → ob_claimed_at r = None ∨ ob_id r ∈ om_outbox_id <$> batch) →
  polls_needed k rows' + length batch ≤ polls_needed k rows ∧ unleased rows' ∧
  rows_advance rows rows'.
Proof.
  revert rows t n. induction batch as [|m batch IH]; intros rows t n Hd Hdlq Hnd Hs Hfresh Hcl.
  - injection Hd as <- <- <-. cbn. split_and!; [lia| |by apply Forall_Forall2_diag, Forall_forall].
    intros r Hr. destruct (Hcl r Hr) as [|[]%elem_of_nil]; done.
  - cbn [deliver_batch] in Hd.
    destruct (OutboxRelay_deliver k _ _ _ _ rows t) as [[failed rows1] t1] eqn:H1.
    destruct (deliver_batch k pl batch rows1 t1) as [[n2 rows2] t2] eqn:H2.
    injection Hd as <- <- <-.
    apply deliver_outcome in H1 as (f & n1 & dlq & Ho & _ & -> & ->). rewrite Hdlq in Ho.
    rewrite fmap_cons, NoDup_cons in Hnd. destruct Hnd as [Hnin Hnd].
    assert (rows_advance rows (update_row (om_outbox_id m) f rows)) as Ha.
    { apply update_row_advance. intros r. by eapply delivery_outcome_advances. }
    destruct (Hfresh m) as (r & Hr & Hid & Hatt & Hp); [by left|].
    destruct (IH _ _ _ H2) as (Hle & Hun & Ha2); [done|done| | | |].
    + by rewrite (advance_ids _ _ Ha).
    + intros m' Hm'. apply fresh_in_update; [by apply Hfresh; right|].
      intros Heq. apply Hnin. rewrite <- Heq. by apply list_elem_of_fmap_2.
    + intros r' [(r0 & Hr0 & Hne & ->) | (r0 & Hr0 & Heq & ->)]%update_row_elem.
      * destruct (Hcl r0 Hr0) as [|[|]%elem_of_cons]; [by left | done | by right].
      * left. by destruct Ho.
    + split_and!; [|done|by etrans]. pose proof (polls_needed_update k f rows r Hs Hr
        (outcome_progress _ _ _ _ _ _ _ _ Ho Hatt Hp)) as Hlt. rewrite <- Hid in Hlt. cbn. lia.
Qed.

(** With no row leased, a poll finds something to do as long as there is anything. *)
Lemma first_pending rows :
  Exists (λ r, still_pending r = true) rows →
  ∃ before r after, rows = before ++ r :: after ∧ still_pending r = true ∧
    ∀ p, p ∈ before → still_pending p = false.
Proof.
  induction 1 as [r rows Hp|r rows Hex IH].
  - exists [], r, rows. split_and!; [done..|]. by intros p ?%elem_of_nil.
  - destruct (still_pending r) eqn:Hp.
    + exists [], r, rows. split_and!; [done..|]. by intros p ?%elem_of_nil.
    + destruct IH as (before & r' & after & -> & ? & Hb). exists (r :: before), r', after.
      split_and!; [done..|]. intros p [->|?]%elem_of_cons; auto.
Qed.

Lemma claimable_nonempty limit lease now rows r :
  0 < limit → StronglySorted Z.lt (ob_id <$> rows) → unleased rows →
  r ∈ rows → still_pending r = true → claimable limit lease now [] rows ≠ [].
Proof.
  intros Hlim Hs Hun Hr Hp.
  destruct (first_pending rows) as (before & r0 & after & -> & Hp0 & Hb).
  { apply Exists_exists. by exists r. }
  unfold claimable. destruct limit as [|limit]; [lia|].
  set (P := λ r, _). enough (r0 ∈ filter P (before ++ r0 :: after)) as Hin.
  { destruct (filter P _); [by apply elem_of_nil in Hin | done]. }
  apply list_elem_of_filter. split; [|set_solver]. subst P. cbn beta.
  unfold lease_expired. rewrite Hp0, (Hun r0), bool_decide_false by set_solver.
  rewrite !andb_true_r. cbn. apply negb_true_iff.
  destruct (blocked _ r0) eqn:Hbl; [|done].
  apply existsb_exists in Hbl as (p & Hpin%list_elem_of_In & Hbl).
  rewrite !andb_true_iff, !bool_decide_eq_true in Hbl. destruct Hbl as [[_ Hlt] Hpp].
  apply elem_of_app in Hpin as [Hpin|[->|Hpin]%elem_of_cons]; [|lia|].
  - rewrite (Hb p Hpin) in Hpp. done.
  - rewrite fmap_app, fmap_cons in Hs. apply StronglySorted_app_1_r in Hs.
    apply StronglySorted_inv in Hs as [_ Hf]. rewrite Forall_fmap, Forall_forall in Hf.
    specialize (Hf p Hpin). cbn in Hf. lia.
Qed.

Lemma sorted_ids_unique (rows : list OutboxModel) :
  StronglySorted Z.lt (ob_id <$> rows) → NoDup (ob_id <$> rows).
Proof.
  induction rows as [|r rows IH]; [constructor|]. rewrite fmap_cons.
  intros [Hs Hlt]%StronglySorted_inv. rewrite Forall_fmap, Forall_forall in Hlt.
  rewrite NoDup_cons. split; [|auto]. intros (r' & Heq & Hr')%list_elem_of_fmap.
  specialize (Hlt r' Hr'). cbn in Hlt. lia.
Qed.

Lemma fetch_progress k limit lease now rows rows1 messages :
  0 < limit → StronglySorted Z.lt (ob_id <$> rows) → unleased rows →
  fetch_unpublished limit lease now [] rows = (rows1, messages) →
  polls_needed k rows1 = polls_needed k rows ∧ NoDup (om_outbox_id <$> messages) ∧
  (∀ m, m ∈ messages → fresh_in rows1 m) ∧
  (∀ r, r ∈ rows1 → ob_claimed_at r = None ∨ ob_id r ∈ om_outbox_id <$> messages) ∧
  (0 < polls_needed k rows → 0 < length messages).
Proof.
  intros Hlim Hs Hun [= <- <-].
  set (ids := ob_id <$> claimable limit lease now [] rows).
  set (P := λ r : OutboxModel, bool_decide (ob_id r ∈ ids) = true).
  assert (∀ r, r ∈ rows → P r → r ∈ claimable limit lease now [] rows) as HP.
  { intros r Hr (r' & Hid & Hc)%bool_decide_eq_true%list_elem_of_fmap.
    destruct (claimable_spec _ _ _ _ _ _ Hc) as (Hr' & _).
    by rewrite (ids_unique _ _ _ Hs Hr Hr' Hid). }
  split_and!.
  - apply polls_needed_fmap. intros r _. by case_match.
  - rewrite <- list_fmap_compose.
    by apply NoDup_fmap_filter, sorted_ids_unique.
  - intros m (r & -> & [Ht Hr]%list_elem_of_filter)%list_elem_of_fmap.
    destruct (claimable_spec _ _ _ _ _ _ (HP r Hr Ht)) as (_ & Hp & _).
    exists (with_claim (Some now) r). split_and!; [|done..].
    apply list_elem_of_fmap. exists r. cbv beta. unfold P in Ht. fold ids. rewrite Ht. done.
  - intros r' (r & -> & Hr)%list_elem_of_fmap. case_match eqn:Ht; [right|left; by apply Hun].
    rewrite <- list_fmap_compose. apply list_elem_of_fmap. exists r. split; [done|].
    by apply list_elem_of_filter.
  - intros Hpos. destruct (decide (Exists (λ r, still_pending r = true) rows)) as [Hex|Hex].
    + apply Exists_exists in Hex as (r & Hr & Hp).
      pose proof (claimable_nonempty limit lease now rows r Hlim Hs Hun Hr Hp) as Hne.
      destruct (claimable limit lease now [] rows) as [|r0 l] eqn:Hc; [done|].
      assert (r0 ∈ claimable limit lease now [] rows) as Hr0 by (rewrite Hc; left).
      destruct (claimable_spec _ _ _ _ _ _ Hr0) as (Hr0' & _).
      rewrite length_fmap. apply Nat.neq_0_lt_0. intros Hz%length_zero_iff_nil.
      apply (not_elem_of_nil r0). rewrite <- Hz. apply list_elem_of_filter. split; [|done].
      apply bool_decide_eq_true, list_elem_of_fmap. eauto using list_elem_of_here.
    + exfalso. enough (polls_needed k rows = 0) by lia. clear -Hex.
      induction rows as [|r rows IH]; [done|]. rewrite polls_needed_cons, IH.
      * unfold attempts_left. destruct (still_pending r) eqn:Hp; [|done]. exfalso. apply Hex. by left.
      * intros ?. apply Hex. by right.
Qed.

Lemma run_once_progress cfg pl rows t n rows' t' :
  OutboxRelay_run_once cfg pl rows t = (n, rows', t') →
  0 < outbox_batch_size cfg → (∀ l, pl_order pl l ≡ₚ l) → (∀ m, pl_dlq_fate pl m = Accepts) →
  StronglySorted Z.lt (ob_id <$> rows) → unleased rows →
  polls_needed (outbox_max_attempts cfg) rows' ≤
    pred (polls_needed (outbox_max_attempts cfg) rows) ∧
  unleased rows' ∧ rows_advance rows rows'.
Proof.
  unfold OutboxRelay_run_once. destruct (fetch_unpublished _ _ _ _ rows) as [rows1 messages] eqn:Hf.
  intros Hd Hlim Hord Hdlq Hs Hun.
  destruct (fetch_progress (outbox_max_attempts cfg) _ _ _ _ _ _ Hlim Hs Hun Hf)
    as (Hk & Hnd & Hfresh & Hcl & Hlen).
  pose proof Hf as Hf'. apply fetch_spec in Hf' as [[c Hc] _]; [|done].
  assert (rows_advance rows rows1) as Ha by (rewrite Hc; by apply fmap_advance).
  destruct (deliver_batch_progress _ _ _ _ _ _ _ _ Hd Hdlq) as (Hle & Hun' & Ha').
  - by rewrite Hord.
  - by rewrite (advance_ids _ _ Ha).
  - intros m. rewrite Hord. apply Hfresh.
  - intros r Hr. rewrite Hord. by apply Hcl.
  - split_and!; [|done|by etrans]. rewrite Hord in Hle. lia.
Qed.

Lemma run_polls_progress cfg pls rows t rows' t' :
  run_polls cfg pls rows t = (rows', t') →
  0 < outbox_batch_size cfg →
  (∀ pl, pl ∈ pls → (∀ l, pl_order pl l ≡ₚ l) ∧ ∀ m, pl_dlq_fate pl m = Accepts) →
  StronglySorted Z.lt (ob_id <$> rows) → unleased rows →
  polls_needed (outbox_max_attempts cfg) rows ≤ length pls →
  (∀ r, r ∈ rows' → still_pending r = false) ∧ rows_advance rows rows'.
Proof.
  intros Hrun Hlim. revert rows t Hrun. induction pls as [|pl pls IH]; intros rows t Hrun Hpls Hs Hun Hle.
  - injection Hrun as <- <-. split; [|by apply Forall_Forall2_diag, Forall_forall].
    intros r. apply (polls_needed_zero (outbox_max_attempts cfg)). cbn in Hle. lia.
  - cbn [run_polls] in Hrun. destruct (OutboxRelay_run_once cfg pl rows t) as [[n rows1] t1] eqn:H1.
    destruct (Hpls pl) as [Hord Hdlq]; [by left|].
    destruct (run_once_progress _ _ _ _ _ _ _ H1 Hlim Hord Hdlq Hs Hun) as (Hdec & Hun1 & Ha).
    destruct (IH _ _ Hrun) as [Hdone Ha']; [|by rewrite (advance_ids _ _ Ha)|done| |].
    + intros pl' Hpl'. apply Hpls. by right.
    + cbn in Hle. lia.
    + split; [done|by etrans].
Qed.

(** *** A relay on its own takes the steps of the relays' world *)

Lemma deliver_batch_steps cfg pl batch rows t n rows' t' relay b :
  deliver_batch (outbox_max_attempts cfg) pl batch rows t = (n, rows', t') →
  rtc (relay_step cfg) (mkRelayWorld rows t (<[relay := batch]> b))
    (mkRelayWorld rows' t' (<[relay := []]> b)).
Proof.
  revert rows t n. induction batch as [|m batch IH]; intros rows t n Hd.
  - by injection Hd as <- <- <-.
  - cbn [deliver_batch] in Hd.
    destruct (OutboxRelay_deliver _ _ _ _ _ rows t) as [[failed rows1] t1] eqn:H1.
    destruct (deliver_batch _ pl batch rows1 t1) as [[n2 rows2] t2] eqn:H2.
    injection Hd as <- <- <-. eapply rtc_l; [|by eapply IH].
    pose proof (rs_deliver cfg (mkRelayWorld rows t (<[relay:=m :: batch]> b)) relay m batch
      _ _ _ _ _ _ (lookup_insert_eq _ _ _) H1) as Hstep.
    cbn in Hstep. by rewrite insert_insert_eq in Hstep.
Qed.

Lemma run_once_steps cfg pl rows t n rows' t' b relay :
  OutboxRelay_run_once cfg pl rows t = (n, rows', t') →
  (∀ l, pl_order pl l ≡ₚ l) → b !! relay = None →
  rtc (relay_step cfg) (mkRelayWorld rows t b) (mkRelayWorld rows' t' b).
Proof.
  unfold OutboxRelay_run_once. destruct (fetch_unpublished _ _ _ _ rows) as [rows1 messages] eqn:Hf.
  intros Hd Hord Hb. eapply rtc_l.
  - by apply (rs_claim cfg (mkRelayWorld rows t b) relay _ _ _ _ _ Hb Hf (Hord messages)).
  - etrans; [by eapply deliver_batch_steps|].
    pose proof (rs_stop cfg (mkRelayWorld rows' t' (<[relay:=[]]> b)) relay (λ _, None) []) as Hstop.
    cbn in Hstop. rewrite delete_insert_id in Hstop by done.
    rewrite claims_fmap, claims_same in Hstop; [by apply rtc_once | |];
      intros r; rewrite decide_False by apply not_elem_of_nil; [done|by left].
Qed.

Lemma run_polls_steps cfg pls rows t rows' t' b relay :
  run_polls cfg pls rows t = (rows', t') →
  (∀ pl, pl ∈ pls → ∀ l, pl_order pl l ≡ₚ l) → b !! relay = None →
  rtc (relay_step cfg) (mkRelayWorld rows t b) (mkRelayWorld rows' t' b).
Proof.
  intros Hrun Hord Hb. revert rows t Hrun. induction pls as [|pl pls IH]; intros rows t Hrun.
  - by injection Hrun as <- <-.
  - cbn [run_polls] in Hrun. destruct (OutboxRelay_run_once cfg pl rows t) as [[n rows1] t1] eqn:H1.
    etrans; [eapply run_once_steps; [done|set_solver|done]|]. apply IH; [set_solver|done].
Qed.

(** ** Theorems *)

(** [C2] Start from any table of unpublished rows in the order of their identifiers, and let
    rows of one key become visible in that order (rows of different keys in any order).
    However many relays run, stop, fail to commit or publish a message whose lease another
    has taken over, and whatever the broker does with each record: every record on the
    topics is the event of an outbox row, under the row's topic and key, and no record
    overtakes its key — each older row of the key was dead-lettered, its copy being on the
    dead-letter topic, or has a record earlier on the log; every copy on the dead-letter
    topic is the event of an outbox row under its key and names the row's topic; and no
    event is lost — a row marked published has a record on the log, and a row marked
    dead-lettered has its copy on the dead-letter topic. *)
Theorem relays_keep_key_order (cfg : RelaySettings) (rows : list OutboxModel) (w : RelayWorld)
    (Hsorted : StronglySorted Z.lt (ob_id <$> rows))
    (Hpending : ∀ r, r ∈ rows → still_pending r = true)
    (Hreach : rtc (relay_step cfg) (relay_start rows) w) :
  let log := tp_log (rw_topics w) in
  let dlq := tp_dlq (rw_topics w) in
  (∀ i id k, log !! i = Some (id, k) → ∃ r, r ∈ rw_rows w ∧ ob_id r = id ∧
     kr_topic k = ob_topic r ∧ kr_key k = ob_partition_key r ∧ kr_body k = ob_payload r ∧
     ∀ p, p ∈ rw_rows w → ob_partition_key p = ob_partition_key r → (ob_id p < id)%Z →
       (is_Some (ob_dead_lettered_at p) ∧ ob_id p ∈ dlq.*1) ∨
       ∃ j k', j < i ∧ log !! j = Some (ob_id p, k')) ∧
  (∀ id k, (id, k) ∈ dlq → ∃ r, r ∈ rw_rows w ∧ ob_id r = id ∧ kr_topic k = DLQ_TOPIC ∧
     kr_key k = ob_partition_key r ∧ kr_body k = ob_payload r ∧
     ("original_topic"%string, HText (ob_topic r)) ∈ kr_headers k) ∧
  (∀ r, r ∈ rw_rows w → is_Some (ob_published_at r) → ob_id r ∈ log.*1) ∧
  (∀ r, r ∈ rw_rows w → is_Some (ob_dead_lettered_at r) → ob_id r ∈ dlq.*1).
Proof.
  destruct (relay_inv_reachable cfg rows w Hsorted Hpending Hreach) as [Hs Hl Hp Hd Hco _].
  split_and!; [| |exact Hp|exact Hd].
  - intros i id k Hi. destruct (Hl _ _ _ Hi) as (r & [Hr Hid Ht Hk Hb Hahead]).
    exists r. split_and!; [done..|]. intros p Hpr Hkey Hlt.
    destruct (Hahead p Hpr) as [Hx|Hx]; [by rewrite <- Hid in Hlt|left; auto|by right].
  - intros id k (r & Hr & Hid & [])%Hco. by exists r.
Qed.

(** [C3] As long as the dead-letter topic takes what is copied to it, polling drains the
    outbox whatever the broker does with the records themselves: after as many polls as the
    pending rows have attempts left, every row is settled and its event is on its topic or
    on the dead-letter topic; and the polls are steps of the relays' world, so the order
    of each key is kept. *)
Theorem polling_drains_the_outbox (cfg : RelaySettings) (pls : list Poll)
    (rows rows' : list OutboxModel) (t' : Topics)
    (Hlimit : 0 < outbox_batch_size cfg)
    (Hpolls : ∀ pl, pl ∈ pls → (∀ l, pl_order pl l ≡ₚ l) ∧ ∀ m, pl_dlq_fate pl m = Accepts)
    (Hsorted : StronglySorted Z.lt (ob_id <$> rows))
    (Hrows : ∀ r, r ∈ rows → still_pending r = true ∧ ob_claimed_at r = None)
    (Henough : polls_needed (outbox_max_attempts cfg) rows ≤ length pls)
    (Hrun : run_polls cfg pls rows (mkTopics [] []) = (rows', t')) :
  rtc (relay_step cfg) (relay_start rows) (mkRelayWorld rows' t' ∅) ∧
  (∀ r, r ∈ rows' → still_pending r = false) ∧
  (∀ r, r ∈ rows → ob_id r ∈ (tp_log t').*1 ∨ ob_id r ∈ (tp_dlq t').*1).
Proof.
  assert (rtc (relay_step cfg) (relay_start rows) (mkRelayWorld rows' t' ∅)) as Hsteps.
  { apply (run_polls_steps cfg pls _ _ _ _ ∅ 0%N Hrun); [|done]. intros pl Hpl. by apply Hpolls. }
  destruct (run_polls_progress cfg pls rows _ rows' t' Hrun Hlimit Hpolls Hsorted) as [Hdone Ha];
    [intros r Hr; by apply Hrows|done|]. split_and!; [done..|].
  destruct (relay_inv_reachable cfg rows _ Hsorted (λ r Hr, proj1 (Hrows r Hr)) Hsteps)
    as [_ _ Hp Hd _ _].
  intros r Hr. destruct (advance_elem_1 _ _ _ Ha Hr) as (r' & Hr' & [<- _ _ _ _ _]).
  destruct (proj1 (settled_iff r') (Hdone _ Hr')); [left; by apply Hp | right; by apply Hd].
Qed.

(** Three rows, two of them of one key. *)
Definition demo_row (id : Z) (key : uuid) : OutboxModel :=
  mkOutboxModel id (Z.to_N id) "PlantRemoved" "garden.events" key
    (mkEvent (Z.to_N id) 0 (PlantRemoved (Uuid key) 0)) 0 0 None None 0 None 1
    "user:1" None None None None.
Definition demo_outbox : list OutboxModel := [demo_row 1 7; demo_row 2 7; demo_row 3 8].
Definition demo_settings : RelaySettings := mkRelaySettings 10 60 2.

(** A broker that refuses the first row and takes the others. *)
Definition demo_poll (now : datetime) : Poll :=
  mkPoll now id (λ m _, if decide (om_outbox_id m = 1%Z) then Refuses "down" else Accepts)
    (λ _, Accepts).
Definition demo_polls : list Poll := demo_poll <$> [10; 20; 30; 40; 50; 60]%Z.

Lemma demo_outbox_sorted : StronglySorted Z.lt (ob_id <$> demo_outbox).
Proof. repeat constructor. Qed.
Lemma demo_outbox_pending r :
  r ∈ demo_outbox → still_pending r = true ∧ ob_claimed_at r = None.
Proof. intros Hr. repeat (apply elem_of_cons in Hr as [->|Hr]; [done|]). by apply elem_of_nil in Hr. Qed.

Lemma relays_keep_key_order_witness :
  ∃ w, rtc (relay_step demo_settings) (relay_start demo_outbox) w ∧
    (tp_log (rw_topics w)).*1 = [3; 2]%Z ∧ (tp_dlq (rw_topics w)).*1 = [1]%Z ∧
    (∀ r, r ∈ rw_rows w → is_Some (ob_published_at r) → ob_id r ∈ (tp_log (rw_topics w)).*1) ∧
    (∀ r, r ∈ rw_rows w → is_Some (ob_dead_lettered_at r) → ob_id r ∈ (tp_dlq (rw_topics w)).*1).
Proof.
  pose (out := run_polls demo_settings demo_polls demo_outbox (mkTopics [] [])).
  assert (rtc (relay_step demo_settings) (relay_start demo_outbox)
    (mkRelayWorld out.1 out.2 ∅)) as Hsteps.
  { apply (run_polls_steps _ demo_polls _ _ _ _ ∅ 0%N); [by vm_compute| |done].
    intros pl (t & -> & _)%list_elem_of_fmap l. done. }
  eexists. split; [exact Hsteps|]. split; [by vm_compute|]. split; [by vm_compute|].
  exact (proj2 (proj2 (relays_keep_key_order demo_settings demo_outbox _ demo_outbox_sorted
    (λ r Hr, proj1 (demo_outbox_pending r Hr)) Hsteps))).
Defined.

Lemma polling_drains_the_outbox_witness :
  polls_needed 2 demo_outbox = 6 ∧
  let out := run_polls demo_settings demo_polls demo_outbox (mkTopics [] []) in
  ∀ r, r ∈ out.1 → still_pending r = false.
Proof.
  split; [by vm_compute|]. intros out.
  apply (polling_drains_the_outbox demo_settings demo_polls demo_outbox out.1 out.2).
  - cbn. lia.
  - intros pl (t & -> & _)%list_elem_of_fmap. done.
  - exact demo_outbox_sorted.
  - exact demo_outbox_pending.
  - vm_compute. lia.
  - apply surjective_pairing.
Defined.
