(* ===== verification/Onboarding.v ===== *)
(** The onboarding process manager: its four steps, their compensations and the commands
    they delegate ([application/sagas/onboard.py]).

    A step works on a context the engine hands it and keeps mutating it up to the point
    where it raises, so a step is a computation over the context and the session. *)

From S2P Require Import Prelude Domain Catalog Topics Rows Views SagaRows Database UnitOfWork.
From S2P Require Import Repositories Idempotency Commands SagaIntents SagaDispatch.
From stdpp Require Import pretty.

(** ** Steps *)

Definition step (C A : Type) : Type := C → Session → result A * C * Session.

#[export] Instance step_ret {C} : MRet (step C) := fun A a c s => (Ok a, c, s).
#[export] Instance step_bind {C} : MBind (step C) := fun A B f m c s =>
  match m c s with
  | (Ok a, c', s') => f a c' s'
  | (Raise e, c', s') => (Raise e, c', s')
  end.

Definition step_tx {C A} (m : tx A) : step C A := fun c s =>
  let '(r, s') := m s in (r, c, s').
Definition step_get {C} : step C C := fun c s => (Ok c, c, s).
Definition step_put {C} (c : C) : step C unit := fun _ s => (Ok tt, c, s).

(** A step handler of a saga over contexts [C]. *)
Record SagaStepHandler (C : Type) := mkSagaStepHandler {
  step_name : string;
  step_act : Env → step C unit;
  step_compensate : Env → step C unit }.
Arguments mkSagaStepHandler {C}.
Arguments step_name {C}.
Arguments step_act {C}.
Arguments step_compensate {C}.

(** The steps one after the other, each with a clock reading and identifiers of its own. *)
Fixpoint run_acts {C} (steps : list (SagaStepHandler C)) (env : nat → Env) : step C unit :=
  match steps with
  | [] => mret tt
  | s :: steps => _ ← step_act s (env 0); run_acts steps (λ n, env (S n))
  end.

(** ** The onboarding steps *)

Definition STEP_CARE_SCHEDULE : Z := 2.
Definition STEP_NOTIFICATION : Z := 3.
Definition COMPENSATION_STEP_OFFSET : Z := 1000.
(** The namespace of the identifiers derived from a recorded command. *)
Definition INTENT_NAMESPACE : uuid := 0x6f9619ff8b86d011b42d00c04fc964ff%N.

Definition set_interval (d : timedelta) (c : OnboardPlantContext) : OnboardPlantContext :=
  mkOnboardPlantContext (oc_plant_id c) (oc_household_id c) (oc_species_id c) (oc_saga_id c) d
    (oc_care_schedule_created c) (oc_notification_id c) (oc_next_watering_at c).
Definition set_schedule_created (b : bool) (c : OnboardPlantContext) : OnboardPlantContext :=
  mkOnboardPlantContext (oc_plant_id c) (oc_household_id c) (oc_species_id c) (oc_saga_id c)
    (oc_watering_interval c) b (oc_notification_id c) (oc_next_watering_at c).
Definition set_notification_id (n : option uuid) (c : OnboardPlantContext) : OnboardPlantContext :=
  mkOnboardPlantContext (oc_plant_id c) (oc_household_id c) (oc_species_id c) (oc_saga_id c)
    (oc_watering_interval c) (oc_care_schedule_created c) n (oc_next_watering_at c).

(** [recorded_intent(command_name=type(command).__name__, payload=command.model_dump())]. *)
Definition intent_for (saga_id : uuid) (step_no : Z) (c : DelegatedCommand) : RecordedIntent :=
  recorded_intent saga_id step_no (delegated_name c) (model_dump c JNull).

Definition ResolveSpeciesStep_act (e : Env) : step OnboardPlantContext unit :=
  context ← step_get;
  species ← step_tx (species_repo_get (Uuid (oc_species_id context)));
  match species with
  | None => step_tx (tx_raise NotFoundError)
  | Some species => step_put (set_interval (interval_value (sp_watering_interval species)) context)
  end.

Definition CreateCareScheduleStep_act (e : Env) : step OnboardPlantContext unit :=
  context ← step_get;
  let command := CreateCareScheduleCommand (Uuid (oc_plant_id context))
    (oc_watering_interval context) in
  _ ← step_tx (intents_record (intent_for (oc_saga_id context) STEP_CARE_SCHEDULE command)
        (env_now e));
  _ ← step_put (set_schedule_created true context);
  step_tx uow_commit.

(** [withdraw]: cancel the recorded command, or record the one that undoes it. *)
Definition withdraw (saga_id : uuid) (step_no : Z) (undo : DelegatedCommand) (now : datetime) :
    tx unit :=
  cancelled ← intents_cancel_pending (rin_idempotency_key (recorded_intent saga_id step_no "" ∅));
  if (cancelled : bool) then uow_commit
  else
    _ ← intents_record (intent_for saga_id (step_no + COMPENSATION_STEP_OFFSET) undo) now;
    uow_commit.

Definition CreateCareScheduleStep_compensate (e : Env) : step OnboardPlantContext unit :=
  context ← step_get;
  if oc_care_schedule_created context then
    _ ← step_tx (withdraw (oc_saga_id context) STEP_CARE_SCHEDULE
          (DeleteCareScheduleCommand (Uuid (oc_plant_id context))) (env_now e));
    step_put (set_schedule_created false context)
  else mret tt.

Section identifiers.
(** [uuid.uuid5], from the standard library: a namespace and a name to an identifier. *)
Context (uuid5 : uuid → string → uuid).

Definition reminder_id (saga_id : uuid) (step_no : Z) : uuid :=
  uuid5 INTENT_NAMESPACE (uuid_str saga_id +:+ ":" +:+ pretty step_no)%string.

Definition CreateOnboardingNotificationStep_act (e : Env) : step OnboardPlantContext unit :=
  context ← step_get;
  let notification_id := reminder_id (oc_saga_id context) STEP_NOTIFICATION in
  next_watering_at ← step_tx (tx_lift (dt_add (env_now e) (oc_watering_interval context)));
  let command := CreateOnboardingNotificationCommand (Uuid (oc_household_id context))
    (Uuid (oc_plant_id context)) next_watering_at (Some (Uuid notification_id)) in
  _ ← step_tx (intents_record (intent_for (oc_saga_id context) STEP_NOTIFICATION command)
        (env_now e));
  _ ← step_put (set_notification_id (Some notification_id) context);
  step_tx uow_commit.

Definition CreateOnboardingNotificationStep_compensate (e : Env) : step OnboardPlantContext unit :=
  context ← step_get;
  match oc_notification_id context with
  | None => mret tt
  | Some n =>
      _ ← step_tx (withdraw (oc_saga_id context) STEP_NOTIFICATION
            (DeleteNotificationCommand (Uuid n)) (env_now e));
      step_put (set_notification_id None context)
  end.

Definition PublishPlantOnboardedStep_act (e : Env) : step OnboardPlantContext unit :=
  context ← step_get;
  if oc_care_schedule_created context then
    next_watering_at ← step_tx (tx_lift (dt_add (env_now e) (oc_watering_interval context)));
    _ ← step_tx (outbox_append (mkEvent (env_mint e 0) (env_now e)
          (PlantOnboarded (Uuid (oc_plant_id context)) (Uuid (oc_household_id context))
             (Uuid (oc_species_id context)) next_watering_at)));
    step_tx uow_commit
  else step_tx (tx_raise NotFoundError).

(** [OnboardPlantSaga.steps]. *)
Definition OnboardPlantSaga_steps : list (SagaStepHandler OnboardPlantContext) :=
  [mkSagaStepHandler "ResolveSpeciesStep" ResolveSpeciesStep_act (λ _, mret tt);
   mkSagaStepHandler "CreateCareScheduleStep" CreateCareScheduleStep_act
     CreateCareScheduleStep_compensate;
   mkSagaStepHandler "CreateOnboardingNotificationStep" CreateOnboardingNotificationStep_act
     CreateOnboardingNotificationStep_compensate;
   mkSagaStepHandler "PublishPlantOnboardedStep" PublishPlantOnboardedStep_act (λ _, mret tt)].
End identifiers.

(** [context_from_event]: the saga's identifier is filled in once it is derived. *)
Definition OnboardPlantSaga_context (e : DomainEvent) : result OnboardPlantContext :=
  match body e with
  | PlantAdded plant_id household_id species_id _ _ _ =>
      Ok (mkOnboardPlantContext (uuid_value plant_id) (uuid_value household_id)
        (uuid_value species_id) 0 0 false None None)
  | _ => Raise UnhandledSagaTriggerError
  end.

Definition set_onboard_saga_id (saga_id : uuid) (c : OnboardPlantContext) : OnboardPlantContext :=
  mkOnboardPlantContext (oc_plant_id c) (oc_household_id c) (oc_species_id c) saga_id
    (oc_watering_interval c) (oc_care_schedule_created c) (oc_notification_id c)
    (oc_next_watering_at c).

(** ** Lemmas *)

(** A session between two transactions of a process. *)
Definition resting (ctx : option MessageContext) (d : Database) (committed : bool) : Session :=
  mkSession d d [] false [] committed ctx id.

Lemma commit_resting s ctx d :
  ss_base s = d → ss_context s = ctx → ss_others s = id →
  uow_commit s =
  match replay_writes (ss_writes s ++ outbox_statements ctx (tracked_events s)) d with
  | Some d' => (Ok tt, resting ctx d' true)
  | None => (Raise ConcurrentWriteError, resting ctx d (ss_committed s))
  end.
Proof. intros Hb Hc Ho. rewrite uow_commit_run, Hb, Hc, Ho. done. Qed.

Lemma step_bind_Ok {C A B} (m : step C A) (f : A → step C B) c s a c' s' :
  m c s = (Ok a, c', s') → (m ≫= f) c s = f a c' s'.
Proof. intros H. unfold mbind, step_bind. by rewrite H. Qed.
Lemma step_bind_Raise {C A B} (m : step C A) (f : A → step C B) c s e c' s' :
  m c s = (Raise e, c', s') → (m ≫= f) c s = (Raise e, c', s').
Proof. intros H. unfold mbind, step_bind. by rewrite H. Qed.

Lemma commit_staged ws d v c b ctx :
  uow_commit (mkSession d v ws c [] b ctx id) =
  match replay_writes ws d with
  | Some d' => (Ok tt, resting ctx d' true)
  | None => (Raise ConcurrentWriteError, resting ctx d b)
  end.
Proof.
  rewrite (commit_resting _ ctx d) by done. cbn [ss_writes ss_committed].
  change (outbox_statements ctx (tracked_events _)) with ([] : list statement).
  by rewrite app_nil_r.
Qed.

Lemma execute_resting w ctx d b :
  execute w (resting ctx d b) =
  match w d with
  | Some v => (Ok tt, mkSession d v [w] false [] b ctx id)
  | None => (Ok tt, mkSession d d [w] true [] b ctx id)
  end.
Proof. done. Qed.

(** Recording in a transaction of its own. *)
Lemma record_and_commit i now ctx d b :
  (_ ← intents_record i now; uow_commit) (resting ctx d b) =
  match insert_intent i now d with
  | Some d' => (Ok tt, resting ctx d' true)
  | None => (Raise ConcurrentWriteError, resting ctx d b)
  end.
Proof.
  unfold intents_record, mbind, tx_bind. rewrite execute_resting.
  destruct (insert_intent i now d) as [d'|] eqn:E;
    rewrite commit_staged, replay_writes_cons, E; done.
Qed.

(** What a withdrawal does, on each branch. *)
Lemma withdraw_run saga_id step_no undo now ctx d b :
  withdraw saga_id step_no undo now (resting ctx d b) =
  let rows := db_saga_intents d in
  let pending := pending_with (intent_key saga_id step_no) in
  if existsb pending rows then
    (Ok tt, resting ctx (set_saga_intents d (update_where pending cancelled_row rows)) true)
  else
    match insert_intent (intent_for saga_id (step_no + COMPENSATION_STEP_OFFSET) undo) now d with
    | Some d' => (Ok tt, resting ctx d' true)
    | None => (Raise ConcurrentWriteError, resting ctx d b)
    end.
Proof.
  cbv zeta. unfold withdraw, intents_cancel_pending.
  set (key := intent_key saga_id step_no).
  change (rin_idempotency_key _) with key.
  set (w := λ d, Some (set_saga_intents d
    (update_where (pending_with key) cancelled_row (db_saga_intents d)))).
  rewrite (tx_bind_Ok _ _ _ (existsb (pending_with key) (db_saga_intents d))
    (execute w (resting ctx d b)).2) by done.
  destruct (existsb (pending_with key) (db_saga_intents d)) eqn:E.
  - by rewrite (commit_resting _ ctx d).
  - assert (w d = Some d) as Hw.
    { unfold w. rewrite update_where_none; [by rewrite set_saga_intents_id|].
      intros r Hr. apply not_true_is_false. intros Hp. apply eq_true_false_abs in E; [done|].
      apply existsb_exists. exists r. split; [by apply list_elem_of_In|done]. }
    rewrite execute_resting, Hw. cbn [snd].
    unfold intents_record, mbind, tx_bind, execute. cbn [ss_view].
    destruct (insert_intent _ now d) as [d'|] eqn:Ei; cbn [ss_base ss_writes ss_conflict ss_tracked
      ss_committed ss_context ss_others app];
      rewrite commit_staged, replay_writes_cons, Hw; cbn [mbind option_bind];
      rewrite replay_writes_cons, Ei; done.
Qed.

(** Appending one event in a transaction of its own. *)
Lemma append_and_commit e ctx d b :
  event_id e ∉ ob_event_id <$> db_outbox d →
  ∃ d', (_ ← outbox_append e; uow_commit) (resting ctx d b) = (Ok tt, resting ctx d' true) ∧
    published d' = published d ++ [e] ∧ d' = set_outbox d (db_outbox d').
Proof.
  intros Hfresh. destruct (outbox_statement_one ctx e d Hfresh) as (d' & Hd' & Hp).
  destruct (outbox_append_writes e (resting ctx d b)) as (w & Hw & Happ).
  cbn [ss_context resting] in Hw. rewrite Hw in Hd'. exists d'.
  pose proof Hd' as Hone. rewrite replay_writes_cons in Hone.
  destruct (w d) as [d1|] eqn:E; [|done]. injection Hone as ->. split.
  - unfold mbind, tx_bind. rewrite Happ, execute_resting, E. by rewrite commit_staged, Hd'.
  - apply outbox_statements_published with (ctx := ctx). by rewrite Hw.
Qed.

Lemma append_and_commit_ids e ctx d b d' b' :
  (_ ← outbox_append e; uow_commit) (resting ctx d b) = (Ok tt, resting ctx d' b') →
  ob_event_id <$> db_outbox d' = (ob_event_id <$> db_outbox d) ++ [event_id e].
Proof.
  destruct (outbox_append_writes e (resting ctx d b)) as (w & Hw & Happ).
  cbn [ss_context resting] in Hw. unfold mbind, tx_bind. rewrite Happ, execute_resting.
  destruct (w d) as [v|] eqn:E; rewrite commit_staged, replay_writes_cons, E; [|done].
  unfold replay_writes, resting. cbn. intros [= -> _ _]. apply (outbox_statements_ids ctx [e]).
  by rewrite Hw, replay_writes_cons, E.
Qed.

(** The two recording steps, on every session between two transactions. *)
Lemma create_schedule_step_run e c ctx d b :
  let command := CreateCareScheduleCommand (Uuid (oc_plant_id c)) (oc_watering_interval c) in
  CreateCareScheduleStep_act e c (resting ctx d b) =
  match insert_intent (intent_for (oc_saga_id c) STEP_CARE_SCHEDULE command) (env_now e) d with
  | Some d' => (Ok tt, set_schedule_created true c, resting ctx d' true)
  | None => (Raise ConcurrentWriteError, set_schedule_created true c, resting ctx d b)
  end.
Proof.
  cbv zeta. set (i := intent_for _ _ _).
  pose proof (record_and_commit i (env_now e) ctx d b) as H. revert H.
  unfold CreateCareScheduleStep_act, step_get, step_put, step_tx, mbind, step_bind, tx_bind.
  fold i. unfold intents_record. rewrite execute_resting.
  by destruct (insert_intent i (env_now e) d) as [d'|]; intros ->.
Qed.

Lemma create_notification_step_run uuid5 e c ctx d b next_watering_at :
  dt_add (env_now e) (oc_watering_interval c) = Ok next_watering_at →
  let n := reminder_id uuid5 (oc_saga_id c) STEP_NOTIFICATION in
  let command := CreateOnboardingNotificationCommand (Uuid (oc_household_id c))
    (Uuid (oc_plant_id c)) next_watering_at (Some (Uuid n)) in
  CreateOnboardingNotificationStep_act uuid5 e c (resting ctx d b) =
  match insert_intent (intent_for (oc_saga_id c) STEP_NOTIFICATION command) (env_now e) d with
  | Some d' => (Ok tt, set_notification_id (Some n) c, resting ctx d' true)
  | None => (Raise ConcurrentWriteError, set_notification_id (Some n) c, resting ctx d b)
  end.
Proof.
  intros Hat. cbv zeta. set (n := reminder_id _ _ _). set (i := intent_for _ _ _).
  pose proof (record_and_commit i (env_now e) ctx d b) as H. revert H.
  unfold CreateOnboardingNotificationStep_act, step_get, step_put, step_tx, tx_lift, mbind,
    step_bind, tx_bind. rewrite Hat. fold n. fold i. unfold intents_record.
  rewrite execute_resting.
  by destruct (insert_intent i (env_now e) d) as [d'|]; intros ->.
Qed.

Lemma publish_step_run e c ctx d b announce_at :
  let onboarded := mkEvent (env_mint e 0) (env_now e) (PlantOnboarded (Uuid (oc_plant_id c))
    (Uuid (oc_household_id c)) (Uuid (oc_species_id c)) announce_at) in
  oc_care_schedule_created c = true →
  dt_add (env_now e) (oc_watering_interval c) = Ok announce_at →
  event_id onboarded ∉ ob_event_id <$> db_outbox d →
  ∃ d', PublishPlantOnboardedStep_act e c (resting ctx d b) = (Ok tt, c, resting ctx d' true) ∧
    published d' = published d ++ [onboarded] ∧ d' = set_outbox d (db_outbox d').
Proof.
  intros onboarded Hc Hat Hnew.
  destruct (append_and_commit onboarded ctx d b Hnew) as (d' & E & Hp & Hd').
  exists d'. split; [|done]. revert E.
  unfold PublishPlantOnboardedStep_act, step_get, step_tx, tx_lift, mbind, step_bind, tx_bind.
  rewrite Hc, Hat. fold onboarded. destruct (outbox_append onboarded _) as [[u|x] s']; [|done].
  by intros ->.
Qed.

Lemma resolve_step_run e c ctx d b :
  ResolveSpeciesStep_act e c (resting ctx d b) =
  match db_species d !! oc_species_id c with
  | None => (Raise NotFoundError, c, resting ctx d b)
  | Some m =>
      match species_to_domain m with
      | Ok s => (Ok tt, set_interval (interval_value (sp_watering_interval s)) c, resting ctx d b)
      | Raise x => (Raise x, c, resting ctx d b)
      end
  end.
Proof.
  unfold ResolveSpeciesStep_act, step_get, step_tx, species_repo_get, query, mbind, step_bind,
    tx_bind. cbn.
  destruct (db_species d !! oc_species_id c) as [m|]; cbn; [|done].
  by destruct (species_to_domain m).
Qed.

Lemma insert_intent_fresh i now d :
  rin_idempotency_key i ∉ si_idempotency_key <$> db_saga_intents d →
  insert_intent i now d =
    Some (set_saga_intents d (db_saga_intents d ++ [new_intent (next_intent_id d) i now])).
Proof. intros H. unfold insert_intent. by rewrite decide_False. Qed.

Lemma insert_intent_taken i now d :
  rin_idempotency_key i ∈ si_idempotency_key <$> db_saga_intents d → insert_intent i now d = None.
Proof. intros H. unfold insert_intent. by rewrite decide_True. Qed.

(** ** Theorems *)

(** [C29] Onboarding a plant, on both branches of its first step.  A species the catalogue
    does not know stops the process before it has written anything.  Otherwise, with the
    keys and the event identifier fresh, the four steps end with exactly this committed:
    the care context's command and the notifications context's command, pending, in that
    order and under the keys of their steps, each carrying the plant and the species'
    cadence; and [PlantOnboarded] in the outbox.  No other table changes. *)
Theorem onboarding_outcome (uuid5 : uuid → string → uuid) (env : nat → Env)
    (c : OnboardPlantContext) (ctx : option MessageContext) (d : Database) (b : bool) :
  let run := run_acts (OnboardPlantSaga_steps uuid5) env c (resting ctx d b) in
  (db_species d !! oc_species_id c = None →
   run = (Raise NotFoundError, c, resting ctx d b)) ∧
  (∀ m species notify_at announce_at,
   db_species d !! oc_species_id c = Some m → species_to_domain m = Ok species →
   let interval := interval_value (sp_watering_interval species) in
   let key n := intent_key (oc_saga_id c) n in
   let n := reminder_id uuid5 (oc_saga_id c) STEP_NOTIFICATION in
   let onboarded := mkEvent (env_mint (env 3) 0) (env_now (env 3))
     (PlantOnboarded (Uuid (oc_plant_id c)) (Uuid (oc_household_id c)) (Uuid (oc_species_id c))
        announce_at) in
   dt_add (env_now (env 2)) interval = Ok notify_at →
   dt_add (env_now (env 3)) interval = Ok announce_at →
   key STEP_CARE_SCHEDULE ∉ si_idempotency_key <$> db_saga_intents d →
   key STEP_NOTIFICATION ∉ si_idempotency_key <$> db_saga_intents d →
   event_id onboarded ∉ ob_event_id <$> db_outbox d →
   ∃ d', run = (Ok tt, set_notification_id (Some n) (set_schedule_created true (set_interval interval c)),
       resting ctx d' true) ∧
     published d' = published d ++ [onboarded] ∧
     db_saga_intents d' = db_saga_intents d ++
       [new_intent (next_intent_id d) (intent_for (oc_saga_id c) STEP_CARE_SCHEDULE
          (CreateCareScheduleCommand (Uuid (oc_plant_id c)) interval)) (env_now (env 1));
        new_intent (next_intent_id d + 1) (intent_for (oc_saga_id c) STEP_NOTIFICATION
          (CreateOnboardingNotificationCommand (Uuid (oc_household_id c)) (Uuid (oc_plant_id c))
             notify_at (Some (Uuid n)))) (env_now (env 2))] ∧
     d' = set_outbox (set_saga_intents d (db_saga_intents d')) (db_outbox d')).
Proof.
  split.
  - intros Hnone. apply step_bind_Raise. cbn [step_act]. by rewrite resolve_step_run, Hnone.
  - intros m species notify_at announce_at Hm Hsp interval key n onboarded Hnotify Hannounce Hk1 Hk2 Hnew.
    unfold OnboardPlantSaga_steps. cbn [run_acts step_act].
    rewrite (step_bind_Ok _ _ _ _ tt (set_interval interval c) (resting ctx d b))
      by (by rewrite resolve_step_run, Hm, Hsp).
    set (c1 := set_interval interval c).
    set (i1 := intent_for (oc_saga_id c) STEP_CARE_SCHEDULE
      (CreateCareScheduleCommand (Uuid (oc_plant_id c)) interval)).
    set (i2 := intent_for (oc_saga_id c) STEP_NOTIFICATION (CreateOnboardingNotificationCommand
      (Uuid (oc_household_id c)) (Uuid (oc_plant_id c)) notify_at (Some (Uuid n)))).
    set (d1 := set_saga_intents d (db_saga_intents d ++
      [new_intent (next_intent_id d) i1 (env_now (env 1))])).
    set (d2 := set_saga_intents d1 (db_saga_intents d1 ++
      [new_intent (next_intent_id d1) i2 (env_now (env 2))])).
    assert (CreateCareScheduleStep_act (env 1) c1 (resting ctx d b) =
      (Ok tt, set_schedule_created true c1, resting ctx d1 true)) as E1.
    { rewrite create_schedule_step_run. cbv zeta. change (intent_for _ _ _) with i1.
      by rewrite insert_intent_fresh. }
    rewrite (step_bind_Ok _ _ _ _ _ _ _ E1).
    assert (CreateOnboardingNotificationStep_act uuid5 (env 2) (set_schedule_created true c1)
      (resting ctx d1 true) = (Ok tt, set_notification_id (Some n) (set_schedule_created true c1),
      resting ctx d2 true)) as E2.
    { rewrite (create_notification_step_run uuid5 (env 2) (set_schedule_created true c1) ctx d1 true
        notify_at Hnotify). cbv zeta. change (intent_for _ _ _) with i2.
      rewrite insert_intent_fresh; [done|]. cbn. rewrite fmap_app, elem_of_app.
      intros [?|Hx%list_elem_of_singleton]; [done|]. by apply intent_key_step_inj in Hx. }
    rewrite (step_bind_Ok _ _ _ _ _ _ _ E2).
    destruct (publish_step_run (env 3) (set_notification_id (Some n) (set_schedule_created true c1))
      ctx d2 true announce_at eq_refl Hannounce Hnew) as (d' & E3 & Hp & Hd').
    rewrite (step_bind_Ok _ _ _ _ _ _ _ E3). exists d'. rewrite Hd'.
    split; [done|]. split; [by rewrite <- Hd'|]. split; [|done].
    unfold d2, d1. cbn. rewrite <- app_assoc. cbn. do 4 f_equal. unfold next_intent_id. cbn.
    rewrite length_app. cbn. lia.
Qed.

Lemma compensate_schedule_run e c ctx d b :
  oc_care_schedule_created c = true →
  CreateCareScheduleStep_compensate e c (resting ctx d b) =
  match withdraw (oc_saga_id c) STEP_CARE_SCHEDULE
          (DeleteCareScheduleCommand (Uuid (oc_plant_id c))) (env_now e) (resting ctx d b) with
  | (Ok _, s) => (Ok tt, set_schedule_created false c, s)
  | (Raise x, s) => (Raise x, c, s)
  end.
Proof.
  intros Hc. unfold CreateCareScheduleStep_compensate, step_get, step_tx, step_put, mbind, step_bind.
  rewrite Hc. by destruct (withdraw _ _ _ _ _) as [[[]|] s].
Qed.

Lemma no_pending_existsb key rows :
  (∀ r, r ∈ rows → si_idempotency_key r = key → si_status r ≠ IntentPending) →
  existsb (pending_with key) rows = false.
Proof.
  intros H. apply not_true_is_false. intros (r & Hr & Hp)%existsb_exists.
  apply list_elem_of_In in Hr. unfold pending_with in Hp.
  apply andb_true_iff in Hp as [Hk%bool_decide_eq_true Hs%bool_decide_eq_true]. by apply (H r).
Qed.

(** Repeating a delegation is refused, not absorbed.  Undoing a command that is no
    longer pending records the delete command; the same compensation delivered a second
    time — by an engine that resumes from the context it had before — raises and leaves
    every row alone, and so does the step itself if it is acted again.  The documentation
    of the key's offset says the second compensation deduplicates against the first. *)
Theorem repeated_delegation_refused (e1 e2 : Env) (c : OnboardPlantContext)
    (ctx : option MessageContext) (d : Database) (b : bool) :
  let key n := intent_key (oc_saga_id c) n in
  oc_care_schedule_created c = true →
  key STEP_CARE_SCHEDULE ∈ si_idempotency_key <$> db_saga_intents d →
  (∀ r, r ∈ db_saga_intents d → si_idempotency_key r = key STEP_CARE_SCHEDULE →
     si_status r ≠ IntentPending) →
  key (STEP_CARE_SCHEDULE + COMPENSATION_STEP_OFFSET)%Z ∉ si_idempotency_key <$> db_saga_intents d →
  ∃ d1,
    CreateCareScheduleStep_compensate e1 c (resting ctx d b) =
      (Ok tt, set_schedule_created false c, resting ctx d1 true) ∧
    d1 = set_saga_intents d (db_saga_intents d ++ [new_intent (next_intent_id d)
      (intent_for (oc_saga_id c) (STEP_CARE_SCHEDULE + COMPENSATION_STEP_OFFSET)
         (DeleteCareScheduleCommand (Uuid (oc_plant_id c)))) (env_now e1)]) ∧
    CreateCareScheduleStep_compensate e2 c (resting ctx d1 true) =
      (Raise ConcurrentWriteError, c, resting ctx d1 true) ∧
    CreateCareScheduleStep_act e2 c (resting ctx d1 true) =
      (Raise ConcurrentWriteError, set_schedule_created true c, resting ctx d1 true).
Proof.
  intros key Hc Hin Hno Hfresh. eexists. split; [|split; [reflexivity|split]].
  - rewrite compensate_schedule_run, withdraw_run by done. cbv zeta.
    by rewrite no_pending_existsb, insert_intent_fresh.
  - rewrite compensate_schedule_run, withdraw_run by done. cbv zeta.
    rewrite no_pending_existsb, insert_intent_taken; [done| |].
    + cbn. rewrite fmap_app, elem_of_app. right. by left.
    + cbn. intros r [Hr|Hr%list_elem_of_singleton]%elem_of_app Hk; [by apply Hno|].
      subst r. by apply intent_key_step_inj in Hk.
  - rewrite create_schedule_step_run. cbv zeta. rewrite insert_intent_taken; [done|].
    cbn. rewrite fmap_app, elem_of_app. by left.
Qed.

(** A compensation can leave the effect it is meant to undo.  While the row of the
    delegated command is still pending — which it is between the handler's commit and the
    dispatcher's, and stays if the dispatcher stops there — the compensation cancels the
    row, reports success and records no delete command: whatever rows the command has
    already created stay, in every table. *)
Theorem compensation_keeps_committed_effect (e : Env) (c : OnboardPlantContext)
    (ctx : option MessageContext) (d : Database) (b : bool) :
  let key := intent_key (oc_saga_id c) STEP_CARE_SCHEDULE in
  oc_care_schedule_created c = true →
  (∃ r, r ∈ db_saga_intents d ∧ si_idempotency_key r = key ∧ si_status r = IntentPending) →
  ∃ rows, CreateCareScheduleStep_compensate e c (resting ctx d b) =
      (Ok tt, set_schedule_created false c, resting ctx (set_saga_intents d rows) true) ∧
    identity <$> rows = identity <$> db_saga_intents d ∧
    ∀ r, r ∈ rows → si_idempotency_key r = key → si_status r ≠ IntentPending.
Proof.
  intros key Hc (r & Hr & Hk & Hs). eexists. split; [|split].
  - rewrite compensate_schedule_run, withdraw_run by done. cbv zeta. fold key.
    assert (existsb (pending_with key) (db_saga_intents d) = true) as ->; [|done].
    apply existsb_exists. exists r. split; [by apply list_elem_of_In|].
    unfold pending_with. by rewrite !bool_decide_true.
  - by apply update_where_identity.
  - intros r' (r0 & Hr0 & ->)%elem_of_update_where Hk0. unfold pending_with in *.
    case_bool_decide as E; [|done]. case_bool_decide; [|done]. done.
Qed.

(** ** Onboarding a plant *)

Definition demo_uuid5 (namespace : uuid) (name : string) : uuid :=
  (namespace + N.of_nat (String.length name))%N.
Definition demo_species : SpeciesModel :=
  mkSpeciesModel 9 "Ficus lyrata" "Fiddle-leaf fig" (days 3) "medium" 1.
Definition demo_ficus : Species :=
  mkSpecies (Uuid 9) "Ficus lyrata" "Fiddle-leaf fig" (MkCareInterval (days 3)) MEDIUM 1 [].
Definition demo_catalogue : Database := set_species empty_database {[9%N := demo_species]}.
Definition demo_context : OnboardPlantContext :=
  mkOnboardPlantContext 7 4 9 5 0 false None None.

Definition demo_onboarded : Database :=
  ss_base (run_acts (OnboardPlantSaga_steps demo_uuid5) (λ n, demo_env (Z.of_nat n)) demo_context
    (resting None demo_catalogue false)).2.

(** The whole way: the process, then two ticks of the dispatcher, leave the schedule and
    the reminder. *)
Definition demo_settled : Database :=
  CommandDispatcher_run demo_fingerprint demo_cfg
    [(demo_at 60, λ n, demo_env (61 + Z.of_nat n))] demo_onboarded.

Lemma demo_settled_rows :
  si_status <$> db_saga_intents demo_settled = [IntentExecuted; IntentExecuted] ∧
  is_Some (db_care_schedules demo_settled !! 7%N) ∧
  is_Some (db_notifications demo_settled !! reminder_id demo_uuid5 5 STEP_NOTIFICATION).
Proof. split_and!; [by vm_compute|eexists; vm_compute; reflexivity..]. Qed.

Lemma demo_fresh n (d : Database) :
  db_saga_intents d = [] → intent_key 5 n ∉ si_idempotency_key <$> db_saga_intents d.
Proof. intros ->. apply not_elem_of_nil. Qed.

Lemma onboarding_outcome_witness :
  (run_acts (OnboardPlantSaga_steps demo_uuid5) (λ n, demo_env (Z.of_nat n)) demo_context
     (resting None empty_database false) =
   (Raise NotFoundError, demo_context, resting None empty_database false)) ∧
  ∃ d' c', run_acts (OnboardPlantSaga_steps demo_uuid5) (λ n, demo_env (Z.of_nat n)) demo_context
      (resting None demo_catalogue false) = (Ok tt, c', resting None d' true) ∧
    length (published d') = 1 ∧ length (db_saga_intents d') = 2.
Proof.
  split.
  - apply (onboarding_outcome demo_uuid5 (λ n, demo_env (Z.of_nat n)) demo_context None
      empty_database false). done.
  - destruct (onboarding_outcome demo_uuid5 (λ n, demo_env (Z.of_nat n)) demo_context None
      demo_catalogue false) as [_ H].
    edestruct (H demo_species demo_ficus (demo_at 2 + days 3)%Z (demo_at 3 + days 3)%Z)
      as (d' & Hrun & Hp & Hi & _).
    + done.
    + by vm_compute.
    + by vm_compute.
    + by vm_compute.
    + by apply demo_fresh.
    + by apply demo_fresh.
    + apply not_elem_of_nil.
    + eexists d', _. split; [exact Hrun|]. rewrite Hp, Hi, !length_app. split; reflexivity.
Defined.

(** The context of a process that has delegated its schedule. *)
Definition demo_delegated : OnboardPlantContext :=
  set_schedule_created true (set_interval (days 3) demo_context).

Lemma repeated_delegation_refused_witness :
  ∃ d1, CreateCareScheduleStep_compensate (demo_env 100) demo_delegated
      (resting None demo_executed false) =
      (Ok tt, set_schedule_created false demo_delegated, resting None d1 true) ∧
    CreateCareScheduleStep_compensate (demo_env 101) demo_delegated (resting None d1 true) =
      (Raise ConcurrentWriteError, demo_delegated, resting None d1 true).
Proof.
  destruct (repeated_delegation_refused (demo_env 100) (demo_env 101) demo_delegated None
    demo_executed false) as (d1 & H1 & _ & H2 & _).
  - done.
  - apply (bool_decide_unpack _). vm_compute. exact I.
  - intros r Hr. vm_compute in Hr. apply list_elem_of_singleton in Hr as ->. done.
  - apply (bool_decide_unpack _). vm_compute. exact I.
  - exists d1. split; [exact H1|exact H2].
Defined.

(** After the crash of [demo_created]: the schedule is there, the row is pending, and the
    compensation leaves the schedule where it is. *)
Lemma compensation_keeps_committed_effect_witness :
  reachable (hand_off_step demo_fingerprint demo_cfg) (mkHandOff empty_database [] [])
    (mkHandOff demo_created [] [demo_claim]) ∧
  is_Some (db_care_schedules demo_created !! 7%N) ∧
  ∃ rows, CreateCareScheduleStep_compensate (demo_env 100) demo_delegated
      (resting None demo_created false) =
    (Ok tt, set_schedule_created false demo_delegated,
     resting None (set_saga_intents demo_created rows) true) ∧ length rows = 1.
Proof.
  split; [exact demo_after_crash|]. split; [eexists; vm_compute; reflexivity|].
  destruct (compensation_keeps_committed_effect (demo_env 100) demo_delegated None demo_created
    false) as (rows & H & Hid & _).
  - done.
  - eexists. split; [vm_compute; by left|]. by vm_compute.
  - exists rows. split; [exact H|]. rewrite <- (length_fmap identity rows), Hid, length_fmap.
    by vm_compute.
Defined.
