(* ===== verification/SagaStorage.v ===== *)
(** Where an execution of an orchestration saga is kept: the statements on
    [write_shared.saga_state] and [saga_log], the checkpointed run over a session, and the
    entry points that commit on their own ([infrastructure/persistence/saga_storage.py],
    [persistence/repositories/sagas.py]). *)

From S2P Require Import Prelude Domain Topics Rows SagaRows Database UnitOfWork Repositories.
From S2P Require Import SagaIntents Onboarding.

(** ** Statements *)

Definition CRASHED_STATUSES : list SagaStatus := [SagaRunning; SagaCompensating].
Definition RETRYABLE_STATUSES : list SagaStatus := [SagaFailing].

(** A row after an [UPDATE]: every one bumps the version and touches [updated_at]. *)
Definition saga_row (status : SagaStatus) (context : SagaContext) (attempts : Z) (now : datetime)
    (m : SagaStateModel) : SagaStateModel :=
  mkSagaStateModel (sgm_id m) (sgm_name m) status context (sgm_version m + 1) attempts
    (sgm_created_at m) now.

(** [UPDATE ... WHERE id = ... RETURNING id]. *)
Definition update_saga (saga_id : uuid) (f : SagaStateModel → SagaStateModel) : statement :=
  fun d => Some (set_saga_states d (alter f saga_id (db_saga_states d))).

Definition update_returning (saga_id : uuid) (f : SagaStateModel → SagaStateModel) :
    tx (option uuid) :=
  found ← query (λ d, sgm_id <$> db_saga_states d !! saga_id);
  _ ← execute (update_saga saga_id f);
  mret found.

Definition create_saga (saga_id : uuid) (name : string) (context : SagaContext)
    (now : datetime) : tx unit :=
  execute (insert_row db_saga_states set_saga_states saga_id
    (mkSagaStateModel saga_id name SagaPending context 1 0 now now)).

(** With a version the update only matches the row at that version. *)
Definition update_context (saga_id : uuid) (context : SagaContext)
    (current_version : option Z) (now : datetime) : tx unit :=
  let at_version m :=
    match current_version with None => true | Some v => bool_decide (sgm_version m = v) end in
  updated ← query (λ d, match db_saga_states d !! saga_id with
    | Some m => at_version m | None => false end);
  _ ← execute (update_saga saga_id (λ m, if at_version m
        then saga_row (sgm_status m) context (sgm_recovery_attempts m) now m else m));
  if negb updated && bool_decide (is_Some current_version) then tx_raise ValueError else mret tt.

Definition raise_if_none {A} (found : option A) : tx unit :=
  match found with None => tx_raise ValueError | Some _ => mret tt end.

Definition update_status (saga_id : uuid) (status : SagaStatus) (now : datetime) : tx unit :=
  found ← update_returning saga_id (λ m,
    saga_row status (sgm_context m) (sgm_recovery_attempts m) now m);
  raise_if_none found.

Definition next_log_id (d : Database) : Z := (1 + Z.of_nat (length (db_saga_log d)))%Z.

(** [ForeignKey(saga_state.id)]: a log row needs its execution's row. *)
Definition insert_log (saga_id : uuid) (step_name : string) (action : StepAction)
    (status : SagaStepStatus) (details : option string) (now : datetime) : statement := fun d =>
  match db_saga_states d !! saga_id with
  | None => None
  | Some _ => Some (set_saga_log d (db_saga_log d ++
      [mkSagaLogModel (next_log_id d) saga_id step_name action status details now]))
  end.

Definition log_step (saga_id : uuid) (step_name : string) (action : StepAction)
    (status : SagaStepStatus) (details : option string) (now : datetime) : tx unit :=
  execute (insert_log saga_id step_name action status details now).

Definition load_saga_state (saga_id : uuid) : tx (SagaStatus * SagaContext * Z) :=
  row ← query (λ d, db_saga_states d !! saga_id);
  match row with
  | None => tx_raise ValueError
  | Some m => mret (sgm_status m, sgm_context m, sgm_version m)
  end.

(** [ORDER BY created_at, id]. *)
Definition log_before (a b : SagaLogModel) : Prop :=
  lex_le (sl_created_at a, sl_id a) (sl_created_at b, sl_id b).
#[export] Instance log_before_dec a b : Decision (log_before a b).
Proof. unfold log_before. apply _. Defined.

Definition step_history (saga_id : uuid) (d : Database) : list SagaLogModel :=
  merge_sort log_before (filter (λ l, sl_saga_id l = saga_id) (db_saga_log d)).

Definition get_step_history (saga_id : uuid) : tx (list SagaLogModel) :=
  query (step_history saga_id).

(** Crashed and failed executions with budget left, least recently touched first. *)
Definition recoverable (max_recovery_attempts : Z) (stale_before : option datetime)
    (saga_name : option string) (m : SagaStateModel) : bool :=
  bool_decide (sgm_status m ∈ CRASHED_STATUSES ++ RETRYABLE_STATUSES) &&
  bool_decide (sgm_recovery_attempts m < max_recovery_attempts)%Z &&
  match saga_name with None => true | Some n => bool_decide (sgm_name m = n) end &&
  match stale_before with None => true | Some t => bool_decide (sgm_updated_at m < t)%Z end.

Definition sagas_for_recovery (limit : nat) (max_recovery_attempts : Z)
    (stale_before : option datetime) (saga_name : option string) (d : Database) : list uuid :=
  sgm_id <$> take limit (select_rows (db_saga_states d)
    (recoverable max_recovery_attempts stale_before saga_name)
    (λ m, (sgm_updated_at m, Z.of_N (sgm_id m)))).

Definition get_sagas_for_recovery (limit : nat) (max_recovery_attempts : Z)
    (stale_after : option timedelta) (saga_name : option string) (now : datetime) :
    tx (list uuid) :=
  query (sagas_for_recovery limit max_recovery_attempts
    ((λ s, (now - s)%Z) <$> stale_after) saga_name).

Definition increment_recovery_attempts (saga_id : uuid) (new_status : option SagaStatus)
    (now : datetime) : tx unit :=
  found ← update_returning saga_id (λ m,
    saga_row (default (sgm_status m) new_status) (sgm_context m) (sgm_recovery_attempts m + 1) now m);
  raise_if_none found.

Definition reset_for_retry (saga_id : uuid) (now : datetime) : tx unit :=
  found ← update_returning saga_id (λ m, saga_row SagaRunning (sgm_context m) 0 now m);
  raise_if_none found.

Definition set_recovery_attempts (saga_id : uuid) (attempts : Z) (now : datetime) : tx unit :=
  found ← update_returning saga_id (λ m, saga_row (sgm_status m) (sgm_context m) attempts now m);
  raise_if_none found.

(** ** The repository that reads executions back *)

Definition saga_states_get (saga_id : uuid) : tx (option SagaState) :=
  query (λ d, saga_state_to_domain <$> db_saga_states d !! saga_id).

Definition saga_states_list_recoverable (limit : nat) (max_attempts : Z)
    (stale_before : option datetime) : tx (list SagaState) :=
  query (λ d, saga_state_to_domain <$> take limit (select_rows (db_saga_states d)
    (λ m, bool_decide (sgm_status m ∈ [SagaRunning; SagaCompensating]) &&
          bool_decide (sgm_recovery_attempts m < max_attempts)%Z &&
          match stale_before with None => true | Some t => bool_decide (sgm_updated_at m < t)%Z end)
    (λ m, (sgm_updated_at m, Z.of_N (sgm_id m))))).

(** ** The checkpointed run

    [_SagaStorageRun] over a unit of work: the flag remembers that the step that just
    ran failed, and makes the next checkpoint discard instead of commit. *)
Definition run_log_step (saga_id : uuid) (step_name : string) (action : StepAction)
    (status : SagaStepStatus) (details : option string) (now : datetime) : step bool unit :=
  failed_step ← step_get;
  _ ← (if bool_decide (action = Act) && bool_decide (status = StepFailed)
       then step_put true else mret tt);
  step_tx (log_step saga_id step_name action status details now).

Definition run_commit : step bool unit :=
  failed_step ← step_get;
  if (failed_step : bool) then _ ← step_put false; step_tx uow_rollback
  else step_tx uow_commit.

Definition run_rollback : step bool unit :=
  _ ← step_put false; step_tx uow_rollback.

(** ** Entry points of their own

    A call on the storage itself opens a session, commits it and closes it: what the
    caller's transaction has staged is neither seen nor committed. *)
Definition own_session {A} (m : tx A) (d : Database) : result A * Database :=
  match (v ← m; _ ← session_commit; mret v) (open_session d None id) with
  | (r, s) => (r, ss_base s)
  end.

(** The same from inside a process that rests between two of its own transactions. *)
Definition aside {A} (m : tx A) : tx A := fun s =>
  let '(r, d) := own_session m (ss_base s) in
  (r, mkSession d (default d (replay_writes (ss_writes s) d)) (ss_writes s) (ss_conflict s)
     (ss_tracked s) (ss_committed s) (ss_context s) (ss_others s)).

(** ** Calls on the storage, each with a session of its own *)

Inductive storage_call :=
  | CallCreate (saga_id : uuid) (name : string) (context : SagaContext)
  | CallContext (saga_id : uuid) (context : SagaContext) (current_version : option Z)
  | CallStatus (saga_id : uuid) (status : SagaStatus)
  | CallLog (saga_id : uuid) (step_name : string) (action : StepAction)
      (status : SagaStepStatus) (details : option string)
  | CallIncrement (saga_id : uuid) (new_status : option SagaStatus)
  | CallAttempts (saga_id : uuid) (attempts : Z)
  | CallReset (saga_id : uuid).

Definition call_tx (c : storage_call) (now : datetime) : tx unit :=
  match c with
  | CallCreate saga_id name context => create_saga saga_id name context now
  | CallContext saga_id context v => update_context saga_id context v now
  | CallStatus saga_id status => update_status saga_id status now
  | CallLog saga_id step_name action status details =>
      log_step saga_id step_name action status details now
  | CallIncrement saga_id new_status => increment_recovery_attempts saga_id new_status now
  | CallAttempts saga_id attempts => set_recovery_attempts saga_id attempts now
  | CallReset saga_id => reset_for_retry saga_id now
  end.

Definition storage_runs (calls : list (storage_call * datetime)) (d : Database) : Database :=
  foldl (λ d '(c, now), (own_session (call_tx c now) d).2) d calls.

(** ** Lemmas *)

(** An [UPDATE] by identifier, committed on its own. *)
Lemma update_alone saga_id f d :
  own_session (found ← update_returning saga_id f; raise_if_none found) d =
  match db_saga_states d !! saga_id with
  | None => (Raise ValueError, d)
  | Some _ => (Ok tt, set_saga_states d (alter f saga_id (db_saga_states d)))
  end.
Proof.
  unfold own_session, update_returning, query, execute, mbind, tx_bind. cbn.
  by destruct (db_saga_states d !! saga_id) as [m|].
Qed.

(** The versioned form: it changes the row at that version and no other. *)
Lemma update_context_alone saga_id context v now d :
  own_session (update_context saga_id context (Some v) now) d =
  match db_saga_states d !! saga_id with
  | None => (Raise ValueError, d)
  | Some m => if bool_decide (sgm_version m = v)
      then (Ok tt, set_saga_states d (alter (λ m, saga_row (sgm_status m) context
             (sgm_recovery_attempts m) now m) saga_id (db_saga_states d)))
      else (Raise ValueError, d)
  end.
Proof.
  unfold own_session, update_context, query, execute, mbind, tx_bind. cbn.
  destruct (db_saga_states d !! saga_id) as [m|] eqn:E; [|done].
  case_bool_decide as Hv; [|done]. unfold session_commit, replay_writes, update_saga. cbn.
  rewrite (alter_ext _ (λ m, saga_row (sgm_status m) context (sgm_recovery_attempts m) now m));
    [done|]. intros m'. rewrite E. intros [= <-]. by rewrite bool_decide_true.
Qed.

(** Calls that neither reset a process nor set its counter. *)
Definition leaves_counter (saga_id : uuid) (c : storage_call) : bool :=
  match c with
  | CallReset i | CallAttempts i _ => negb (bool_decide (i = saga_id))
  | _ => true
  end.

(** An update of the execution [u] by the call [c]. *)
Definition call_update (c : storage_call) (now : datetime) (u : uuid)
    (f : SagaStateModel → SagaStateModel) : Prop :=
  ∀ m, ∃ status context attempts, f m = saga_row status context attempts now m ∧
    (leaves_counter u c = true → sgm_recovery_attempts m ≤ attempts)%Z.

(** Every call leaves the executions alone, adds one, or changes one and bumps its version. *)
Inductive states_step (c : storage_call) (now : datetime) (T : gmap uuid SagaStateModel) :
    gmap uuid SagaStateModel → Prop :=
  | states_kept : states_step c now T T
  | states_added u m : T !! u = None → sgm_id m = u → states_step c now T (<[u := m]> T)
  | states_updated u f : call_update c now u f → states_step c now T (alter f u T).

Lemma update_alone_step c now saga_id f d :
  call_update c now saga_id f →
  states_step c now (db_saga_states d)
    (db_saga_states (own_session (found ← update_returning saga_id f; raise_if_none found) d).2).
Proof.
  intros Hf. rewrite update_alone. destruct (db_saga_states d !! saga_id); [|constructor].
  by apply (states_updated _ _ _ saga_id f).
Qed.

Lemma insert_alone_step c now u m d :
  sgm_id m = u →
  states_step c now (db_saga_states d) (db_saga_states
    (own_session (execute (insert_row db_saga_states set_saga_states u m)) d).2).
Proof.
  intros Hid. unfold own_session, execute, insert_row, mbind, tx_bind. cbn [ss_view open_session].
  destruct (db_saga_states d !! u) as [m0|] eqn:E; unfold session_commit, replay_writes;
    cbn [ss_others ss_base ss_writes app foldl mbind option_bind open_session id]; rewrite E.
  - constructor.
  - by apply (states_added _ _ _ u m).
Qed.

Lemma log_alone_step c now u sn act status details d :
  states_step c now (db_saga_states d) (db_saga_states
    (own_session (log_step u sn act status details now) d).2).
Proof.
  unfold own_session, log_step, execute, insert_log, mbind, tx_bind. cbn [ss_view open_session].
  destruct (db_saga_states d !! u) as [m0|] eqn:E; unfold session_commit, replay_writes;
    cbn [ss_others ss_base ss_writes app foldl mbind option_bind open_session id]; rewrite E;
    constructor.
Qed.

Lemma call_states_step c now d :
  states_step c now (db_saga_states d) (db_saga_states (own_session (call_tx c now) d).2).
Proof.
  assert (∀ u status context attempts,
    (leaves_counter u c = true → ∀ m, sgm_recovery_attempts m ≤ attempts m)%Z →
    call_update c now u (λ m, saga_row (status m) (context m) (attempts m) now m)) as Hupd.
  { intros u status context attempts Hn m. do 3 eexists. split; [done|]. intros Hl. by apply Hn. }
  destruct c as [i name context|i context [v|]|i status|i sn act status details|i ns|i n|i];
    cbn [call_tx].
  - by apply insert_alone_step.
  - rewrite update_context_alone. destruct (db_saga_states d !! i); [|constructor].
    case_bool_decide; [|constructor]. apply states_updated, Hupd. lia.
  - unfold own_session, update_context, query, execute, mbind, tx_bind, session_commit,
      replay_writes, update_saga. rewrite bool_decide_false by (by intros []).
    cbn. rewrite andb_false_r. cbn. apply states_updated, Hupd. lia.
  - apply update_alone_step, Hupd. lia.
  - apply log_alone_step.
  - apply update_alone_step, Hupd. lia.
  - apply update_alone_step, Hupd. cbn. by rewrite bool_decide_true.
  - apply update_alone_step, Hupd. cbn. by rewrite bool_decide_true.
Qed.

Lemma states_step_row c now T T' u m :
  states_step c now T T' → T !! u = Some m →
  ∃ m', T' !! u = Some m' ∧ (sgm_version m ≤ sgm_version m')%Z ∧
    (leaves_counter u c = true → sgm_recovery_attempts m ≤ sgm_recovery_attempts m')%Z.
Proof.
  intros [|u' m' Hnone _|u' f Hf] Hm; [by exists m| |].
  - exists m. by rewrite lookup_insert_ne by congruence.
  - destruct (decide (u' = u)) as [->|Hne].
    + exists (f m). rewrite lookup_alter_eq, Hm. split; [done|].
      destruct (Hf m) as (status & context & n & -> & Hn). cbn. split; [lia|done].
    + exists m. by rewrite lookup_alter_ne.
Qed.

Lemma storage_runs_version calls u : ∀ d m,
  db_saga_states d !! u = Some m →
  ∃ m', db_saga_states (storage_runs calls d) !! u = Some m' ∧ (sgm_version m ≤ sgm_version m')%Z.
Proof.
  induction calls as [|[c now] calls IH]; intros d m Hm; [by exists m|].
  destruct (states_step_row _ _ _ _ u m (call_states_step c now d) Hm) as (m1 & Hm1 & Hv & _).
  destruct (IH _ _ Hm1) as (m2 & Hm2 & Hv2). exists m2. split; [exact Hm2|lia].
Qed.

(** ** Theorems *)

(** A stored context is never lost to a writer that read an older one.  A context
    written at the version it was read at raises the version by one; after it, and after
    whatever further calls on the storage, a write at the old version is refused with a
    [ValueError] and changes nothing. *)
Theorem saga_context_no_lost_update (saga_id : uuid) (context stale : SagaContext) (v : Z)
    (now later : datetime) (calls : list (storage_call * datetime)) (d : Database)
    (m : SagaStateModel) :
  db_saga_states d !! saga_id = Some m → sgm_version m = v →
  let '(r1, d1) := own_session (update_context saga_id context (Some v) now) d in
  let d2 := storage_runs calls d1 in
  r1 = Ok tt ∧
  db_saga_states d1 !! saga_id =
    Some (saga_row (sgm_status m) context (sgm_recovery_attempts m) now m) ∧
  own_session (update_context saga_id stale (Some v) later) d2 = (Raise ValueError, d2).
Proof.
  intros Hm Hv. rewrite update_context_alone, Hm, bool_decide_true by done.
  set (f := λ m, saga_row _ _ _ _ m). set (d1 := set_saga_states _ _).
  assert (db_saga_states d1 !! saga_id = Some (f m)) as Hm1.
  { unfold d1. cbn. by rewrite lookup_alter_eq, Hm. }
  split; [done|]. split; [done|].
  destruct (storage_runs_version calls saga_id d1 _ Hm1) as (m2 & Hm2 & Hle).
  rewrite update_context_alone, Hm2, bool_decide_false; [done|].
  cbn in Hle. lia.
Qed.

(** ** An execution two writers have read *)
Definition demo_sync_context (updated : list SpeciesSnapshot) : SagaContext :=
  SyncContext (mkSpeciesSyncContext 5 0 3 [] updated []).
Definition demo_execution : Database :=
  (own_session (create_saga 5 "SpeciesSyncSaga" (demo_sync_context []) 1) empty_database).2.

Lemma saga_context_no_lost_update_witness :
  let d1 := (own_session (update_context 5 (demo_sync_context
    [mkSpeciesSnapshot 9 "Ficus" "Fig" 3 "high" 1]) (Some 1%Z) 2) demo_execution).2 in
  let d2 := storage_runs [(CallStatus 5 SagaRunning, 3%Z)] d1 in
  sgm_version <$> db_saga_states d1 !! 5%N = Some 2%Z ∧
  own_session (update_context 5 (demo_sync_context []) (Some 1%Z) 4) d2 = (Raise ValueError, d2).
Proof.
  destruct (saga_context_no_lost_update 5 (demo_sync_context
      [mkSpeciesSnapshot 9 "Ficus" "Fig" 3 "high" 1]) (demo_sync_context []) 1 2 4
      [(CallStatus 5 SagaRunning, 3%Z)] demo_execution
      (mkSagaStateModel 5 "SpeciesSyncSaga" SagaPending (demo_sync_context []) 1 0 1 1))
    as (_ & H1 & H2).
  - reflexivity.
  - reflexivity.
  - split; [|exact H2]. reflexivity.
Defined.
