(* ===== verification/SagaBase.v ===== *)
(** The base of the orchestration sagas: from a trigger event to a context, an identity, the
    run of the engine and the lifecycle events ([application/sagas/base.py]), the two
    triggers ([sagas/onboard.py], [sagas/species_sync.py]) and their registry
    ([sagas/registry.py]).

    The engine that runs the steps is the library's ([cqrs.saga]); it is a parameter, a
    computation over the context and the session. *)

From S2P Require Import Prelude Domain Topics Rows SagaRows Database UnitOfWork Repositories.
From S2P Require Import Commands Delivery SagaIntents SagaDispatch Onboarding SagaStorage.

(** ** A process manager *)

Record Saga (C : Type) := mkSaga {
  saga_name : string;
  trigger_events : list string;
  saga_steps : list (SagaStepHandler C);
  context_from_event : DomainEvent → result C;
  correlation_id : C → uuid;
  set_saga_id : uuid → C → C }.
Arguments mkSaga {C}.
Arguments saga_name {C}.
Arguments trigger_events {C}.
Arguments saga_steps {C}.
Arguments context_from_event {C}.
Arguments correlation_id {C}.
Arguments set_saga_id {C}.

Definition Saga_handles {C} (saga : Saga C) (e : DomainEvent) : bool :=
  bool_decide (event_name (body e) ∈ trigger_events saga).

(** [uuid.NAMESPACE_URL]. *)
Definition NAMESPACE_URL : uuid := 0x6ba7b8119dad11d180b400c04fd430c8%N.

Definition saga_id_for {C} (uuid5 : uuid → string → uuid) (saga : Saga C) (context : C) : uuid :=
  uuid5 NAMESPACE_URL
    (saga_name saga +:+ ":" +:+ uuid_str (correlation_id saga context))%string.

(** [acting_as]: what is raised inside is attributed to [raised_by]. *)
Definition in_context (ctx : option MessageContext) (s : Session) : Session :=
  mkSession (ss_base s) (ss_view s) (ss_writes s) (ss_conflict s) (ss_tracked s)
    (ss_committed s) ctx (ss_others s).

Definition acting_as {A} (raised_by : string) (now : datetime) (m : tx A) : tx A := fun s =>
  let '(r, s') := m (in_context (Some (as_raiser raised_by None (ss_context s) now)) s) in
  (r, in_context (ss_context s) s').

(** [_existing_status]: the status in the storage, in a session of its own. *)
Definition existing_status (saga_id : uuid) : tx (option SagaStatus) :=
  aside (tx_except ('(status, _, _) ← load_saga_state saga_id; mret (Some status))
    (λ x, bool_decide (x = ValueError)) (λ _, mret None)).

(** The first half of [_dispatch]: [SagaStarted] is committed before the engine runs. *)
Definition announce_start (saga_id : uuid) (name : string) (status : option SagaStatus)
    (e : Env) : tx unit :=
  match status with
  | None =>
      _ ← outbox_append (mkEvent (env_mint e 0) (env_now e) (SagaStarted saga_id name));
      uow_commit
  | Some _ => mret tt
  end.

Definition any_compensated (history : list SagaLogModel) : bool :=
  existsb (λ l, bool_decide (sl_action l = Compensate) && bool_decide (sl_status l = StepCompleted))
    history.

(** [_record_failure]. *)
Definition saga_record_failure (saga_id : uuid) (name : string) (error : exn) (e : Env) : tx unit :=
  _ ← outbox_append (mkEvent (env_mint e 1) (env_now e) (SagaFailed saga_id name error));
  history ← aside (get_step_history saga_id);
  _ ← (if any_compensated history
       then outbox_append (mkEvent (env_mint e 2) (env_now e) (SagaCompensated saga_id name))
       else mret tt);
  uow_commit.

(** [_dispatch]. *)
Definition saga_dispatch (saga_id : uuid) (name : string) (engine : tx unit) (e : Env) : tx bool :=
  status ← existing_status saga_id;
  if bool_decide (status = Some SagaDone) then mret false
  else
    _ ← announce_start saga_id name status e;
    _ ← tx_except engine (λ _, true)
          (λ error, _ ← saga_record_failure saga_id name error e; tx_raise error);
    _ ← outbox_append (mkEvent (env_mint e 1) (env_now e) (SagaCompleted saga_id name));
    _ ← uow_commit;
    mret true.

(** [handle_event].  [engine id c] is the library's dispatch of the context [c]. *)
Definition Saga_handle_event {C} (uuid5 : uuid → string → uuid) (saga : Saga C)
    (engine : uuid → C → tx unit) (event : DomainEvent) (e : Env) : tx bool :=
  if negb (Saga_handles saga event) then mret false
  else
    context ← tx_lift (context_from_event saga event);
    let saga_id := saga_id_for uuid5 saga context in
    let context := set_saga_id saga saga_id context in
    acting_as ("saga:" +:+ uuid_str saga_id)%string (env_now e)
      (saga_dispatch saga_id (saga_name saga) (engine saga_id context) e).

(** ** The onboarding saga and its trigger *)

Definition OnboardPlantSaga (uuid5 : uuid → string → uuid) : Saga OnboardPlantContext :=
  mkSaga "OnboardPlantSaga" ["PlantAdded"%string] (OnboardPlantSaga_steps uuid5)
    OnboardPlantSaga_context oc_plant_id set_onboard_saga_id.

Definition trigger_handle {C} (uuid5 : uuid → string → uuid) (saga : Saga C)
    (engine : uuid → C → tx unit) (e : Env) (event : DomainEvent) : tx unit :=
  _ ← Saga_handle_event uuid5 saga engine event e; mret tt.

Definition OnboardPlantTrigger (uuid5 : uuid → string → uuid)
    (engine : uuid → OnboardPlantContext → tx unit) (e : Env) : Consumer :=
  mkConsumer "onboard-plant" ["PlantAdded"%string]
    (trigger_handle uuid5 (OnboardPlantSaga uuid5) engine e).

(** ** Lemmas *)

(** Staged events, committed together. *)
Lemma append_all_and_commit es ctx d b :
  NoDup (event_id <$> es) →
  (∀ e, e ∈ es → event_id e ∉ ob_event_id <$> db_outbox d) →
  ∃ d', (_ ← tx_iter outbox_append es; uow_commit) (resting ctx d b) =
      (Ok tt, resting ctx d' true) ∧
    published d' = published d ++ es ∧ d' = set_outbox d (db_outbox d').
Proof.
  intros Hnd Hnew. destruct (outbox_statements_fresh ctx es d Hnd Hnew) as [d' Hd'].
  destruct (outbox_iter es (resting ctx d b)) as (s' & E & Hw & Hb & Hc & Ho & Hm & Ht).
  exists d'. split; [|by apply outbox_statements_published in Hd'].
  rewrite (tx_bind_Ok _ _ _ _ _ E), (commit_resting _ ctx d) by done.
  unfold tracked_events. rewrite Ht, Hw. cbn [ss_tracked ss_writes resting concat fmap list_fmap app].
  change (ss_context (resting ctx d b)) with ctx. change (outbox_statements ctx []) with ([] : list statement). rewrite app_nil_r, Hd'. done.
Qed.

(** Reading beside the transaction sees the committed rows and changes nothing. *)
Lemma aside_query {A} (f : Database → A) s :
  replay_writes (ss_writes s) (ss_base s) = Some (ss_view s) →
  aside (query f) s = (Ok (f (ss_base s)), s).
Proof.
  intros H. assert (own_session (query f) (ss_base s) = (Ok (f (ss_base s)), ss_base s)) as E
    by done.
  unfold aside. rewrite E, H. by destruct s.
Qed.

Lemma existing_status_staged saga_id s :
  replay_writes (ss_writes s) (ss_base s) = Some (ss_view s) →
  existing_status saga_id s = (Ok (sgm_status <$> db_saga_states (ss_base s) !! saga_id), s).
Proof.
  intros H. unfold existing_status, aside.
  assert (own_session (tx_except ('(status, _, _) ← load_saga_state saga_id; mret (Some status))
    (λ x, bool_decide (x = ValueError)) (λ _, mret None)) (ss_base s) =
    (Ok (sgm_status <$> db_saga_states (ss_base s) !! saga_id), ss_base s)) as ->.
  { unfold own_session, tx_except, load_saga_state, query, mbind, tx_bind. cbn.
    by destruct (db_saga_states (ss_base s) !! saga_id) as [m|]. }
  rewrite H. by destruct s.
Qed.

Lemma existing_status_run saga_id ctx d b :
  existing_status saga_id (resting ctx d b) =
  (Ok (sgm_status <$> db_saga_states d !! saga_id), resting ctx d b).
Proof. by apply existing_status_staged. Qed.

Lemma outbox_append_staged e ctx d b :
  event_id e ∉ ob_event_id <$> db_outbox d →
  ∃ w v, w d = Some v ∧ outbox_statements ctx [e] = [w] ∧
    outbox_append e (resting ctx d b) = (Ok tt, mkSession d v [w] false [] b ctx id).
Proof.
  intros Hnew. destruct (outbox_statement_one ctx e d Hnew) as (d' & Hd' & _).
  destruct (outbox_append_writes e (resting ctx d b)) as (w & Hw & Happ).
  cbn [ss_context resting] in Hw. rewrite Hw, replay_writes_cons in Hd'.
  destruct (w d) as [v|] eqn:E; [|done]. exists w, v. by rewrite Happ, execute_resting, E.
Qed.

(** What a run announces when the engine is done with it. *)
Definition lifecycle_end {A} (saga_id : uuid) (name : string) (e : Env) (r : result A)
    (history : list SagaLogModel) : list DomainEvent :=
  match r with
  | Ok _ => [mkEvent (env_mint e 1) (env_now e) (SagaCompleted saga_id name)]
  | Raise x => mkEvent (env_mint e 1) (env_now e) (SagaFailed saga_id name x) ::
      (if any_compensated history
       then [mkEvent (env_mint e 2) (env_now e) (SagaCompensated saga_id name)] else [])
  end.

Definition lifecycle_start (saga_id : uuid) (name : string) (e : Env)
    (status : option SagaStatus) : list DomainEvent :=
  match status with
  | None => [mkEvent (env_mint e 0) (env_now e) (SagaStarted saga_id name)]
  | Some _ => []
  end.

Lemma iter_one {A} (f : A → tx unit) a (k : unit → tx unit) s :
  (_ ← tx_iter f [a]; k tt) s = (_ ← f a; k tt) s.
Proof. unfold tx_iter, mbind, tx_bind. by destruct (f a s) as [[[]|] s']. Qed.

Lemma record_failure_run saga_id name x e ctx d b :
  NoDup (event_id <$> lifecycle_end (A := unit) saga_id name e (Raise x) (step_history saga_id d)) →
  (∀ ev, ev ∈ lifecycle_end (A := unit) saga_id name e (Raise x) (step_history saga_id d) →
     event_id ev ∉ ob_event_id <$> db_outbox d) →
  ∃ d', saga_record_failure saga_id name x e (resting ctx d b) = (Ok tt, resting ctx d' true) ∧
    published d' = published d ++
      lifecycle_end (A := unit) saga_id name e (Raise x) (step_history saga_id d) ∧
    d' = set_outbox d (db_outbox d').
Proof.
  intros Hnd Hnew. destruct (append_all_and_commit _ ctx d b Hnd Hnew) as (d' & E & Hp & Hd').
  exists d'. split; [|done]. revert E. unfold saga_record_failure.
  cbn [lifecycle_end tx_iter] in *.
  destruct (outbox_append_staged (mkEvent (env_mint e 1) (env_now e) (SagaFailed saga_id name x))
    ctx d b) as (w & v & Hw & _ & Happ); [apply Hnew; by left|].
  rewrite (tx_bind_Ok _ _ _ _ _ Happ), (tx_bind_Ok _ _ _ (step_history saga_id d)
    (mkSession d v [w] false [] b ctx id)).
  2: { unfold get_step_history. apply (aside_query (step_history saga_id)).
       cbn [ss_writes ss_base ss_view]. by rewrite replay_writes_cons, Hw. }
  intros E. rewrite <- E. symmetry. unfold mbind at 1, tx_bind at 1. unfold mbind at 1, tx_bind at 1.
  rewrite Happ. destruct (any_compensated (step_history saga_id d)); [|done].
  unfold tx_iter, mbind, tx_bind. cbn [tx_iter].
  match goal with |- context [outbox_append ?ev ?s] => destruct (outbox_append ev s) as [[[]|] s'] end;
  done.
Qed.

(** ** Theorems *)

(** The lifecycle of a process.  A trigger for a process that is already done changes
    nothing and says so.  Otherwise [SagaStarted] is committed before the engine runs —
    for a new process only — and when the engine is done exactly one outcome is: with
    [SagaCompleted], or with the engine's own exception raised again and [SagaFailed]
    committed, followed by [SagaCompensated] when the log shows a step that was rolled
    back, provided the engine's last act was to commit or to roll back.  Nothing else is published but what the engine's steps published themselves. *)
Theorem saga_lifecycle {C} (uuid5 : uuid → string → uuid) (saga : Saga C)
    (engine : uuid → C → tx unit) (event : DomainEvent) (e : Env) (context : C)
    (ctx : option MessageContext) (d : Database) (b : bool) :
  Saga_handles saga event = true → context_from_event saga event = Ok context →
  let id_ := saga_id_for uuid5 saga context in
  let name := saga_name saga in
  let raiser := Some (as_raiser ("saga:" +:+ uuid_str id_) None ctx (env_now e)) in
  let status := sgm_status <$> db_saga_states d !! id_ in
  let process := engine id_ (set_saga_id saga id_ context) in
  let run := Saga_handle_event uuid5 saga engine event e (resting ctx d b) in
  (status = Some SagaDone → run = (Ok false, resting ctx d b)) ∧
  (status ≠ Some SagaDone → env_mint e 0 ∉ ob_event_id <$> db_outbox d →
   ∃ d1 b1, published d1 = published d ++ lifecycle_start id_ name e status ∧
     d1 = set_outbox d (db_outbox d1) ∧
     ob_event_id <$> db_outbox d1 =
       (ob_event_id <$> db_outbox d) ++ (event_id <$> lifecycle_start id_ name e status) ∧
     ∀ r d2 b2, process (resting raiser d1 b1) = (r, resting raiser d2 b2) →
     let ending := lifecycle_end id_ name e r (step_history id_ d2) in
     NoDup (event_id <$> ending) →
     (∀ ev, ev ∈ ending → event_id ev ∉ ob_event_id <$> db_outbox d2) →
     ∃ d3, run = (match r with Ok _ => Ok true | Raise x => Raise x end, resting ctx d3 true) ∧
       published d3 = published d2 ++ ending ∧ d3 = set_outbox d2 (db_outbox d3)).
Proof.
  intros Hh Hctx id_ name raiser status process run.
  assert (run = acting_as ("saga:" +:+ uuid_str id_) (env_now e)
    (saga_dispatch id_ name process e) (resting ctx d b)) as ->.
  { unfold run, Saga_handle_event. rewrite Hh. cbn [negb].
    by rewrite (tx_bind_Ok _ _ _ context (resting ctx d b)) by (by rewrite Hctx). }
  unfold acting_as, saga_dispatch. change (in_context _ (resting ctx d b)) with (resting raiser d b).
  rewrite (tx_bind_Ok _ _ _ _ _ (existing_status_run id_ raiser d b)). fold status.
  split; intros Hst; [by rewrite bool_decide_true|intros Hnew].
  rewrite bool_decide_false by done.
  assert (∃ d1 b1, announce_start id_ name status e (resting raiser d b) =
    (Ok tt, resting raiser d1 b1) ∧ published d1 = published d ++ lifecycle_start id_ name e status ∧
    d1 = set_outbox d (db_outbox d1) ∧ ob_event_id <$> db_outbox d1 =
      (ob_event_id <$> db_outbox d) ++ (event_id <$> lifecycle_start id_ name e status))
    as (d1 & b1 & E1 & Hp1 & Hd1 & Hids).
  { destruct status; cbn [announce_start lifecycle_start].
    - exists d, b. rewrite !app_nil_r. split_and!; [done..|by destruct d|done].
    - destruct (append_and_commit (mkEvent (env_mint e 0) (env_now e) (SagaStarted id_ name))
        raiser d b Hnew) as (d1 & E & Hp & Hd). exists d1, true.
      split_and!; [done..|]. by apply append_and_commit_ids in E. }
  exists d1, b1. do 3 (split; [done|]). intros r d2 b2 Hrun Hnd Hfresh.
  rewrite (tx_bind_Ok _ _ _ _ _ E1).
  destruct r as [u|x].
  - destruct (append_and_commit (mkEvent (env_mint e 1) (env_now e) (SagaCompleted id_ name))
      raiser d2 b2) as (d3 & E3 & Hp3 & Hd3); [apply Hfresh; by left|].
    exists d3. split; [|done]. unfold tx_except. unfold mbind at 1, tx_bind at 1. rewrite Hrun.
    revert E3. unfold mbind, tx_bind.
    match goal with |- context [outbox_append ?ev ?s] =>
      destruct (outbox_append ev s) as [[[]|] s'] end; [|done]. by intros ->.
  - destruct (record_failure_run id_ name x e raiser d2 b2 Hnd Hfresh) as (d3 & E3 & Hp3).
    exists d3. split; [|done]. unfold tx_except. unfold mbind at 1, tx_bind at 1. rewrite Hrun.
    rewrite (tx_bind_Ok _ _ _ _ _ E3). done.
Qed.

(** The claim of a delivery and [SagaStarted], committed together. *)
Lemma start_commits_claim g eid id_ name e d ctx :
  env_mint e 0 ∉ ob_event_id <$> db_outbox d →
  ∃ d1, announce_start id_ name None e (in_context ctx (claimed_session d g eid None [])) =
      (Ok tt, resting ctx d1 true) ∧
    published d1 = published d ++ lifecycle_start id_ name e None ∧
    d1 = set_outbox (set_processed_events d ({[(g, eid)]} ∪ db_processed_events d)) (db_outbox d1).
Proof.
  intros Hnew. set (started := mkEvent (env_mint e 0) (env_now e) (SagaStarted id_ name)).
  set (d0 := set_processed_events d ({[(g, eid)]} ∪ db_processed_events d)).
  destruct (outbox_statement_one ctx started d0 Hnew) as (d1 & Hd1 & Hp1 & Hset).
  destruct (outbox_append_writes started (in_context ctx (claimed_session d g eid None [])))
    as (w & Hw & Happ).
  cbn [ss_context in_context] in Hw. exists d1. split; [|done].
  unfold announce_start. fold started. unfold mbind, tx_bind. rewrite Happ.
  rewrite Hw in Hd1. pose proof Hd1 as Hone. rewrite replay_writes_cons in Hone.
  destruct (w d0) as [v|] eqn:E; [|done].
  unfold execute. cbn [ss_view ss_base ss_writes ss_conflict ss_tracked ss_committed ss_context
    ss_others in_context claimed_session]. fold d0. rewrite E. cbn [app].
  rewrite commit_staged, replay_writes_cons. unfold claim_statement. cbn [mbind option_bind].
  fold d0. by rewrite Hd1.
Qed.

Lemma tx_bind_cong {A B} (m m' : tx A) (f : A → tx B) s : m s = m' s → (m ≫= f) s = (m' ≫= f) s.
Proof. unfold mbind, tx_bind. by intros ->. Qed.

(** The delivery of a trigger event to its consumer group. *)
Definition deliver_trigger {C} (uuid5 : uuid → string → uuid) (saga : Saga C) (g : string)
    (event : DomainEvent) (e : Env) (ctx : MessageContext) (d : Database)
    (engine : uuid → C → tx unit) : result bool * Session :=
  consume_once uow_commit g (event_id event) (trigger_handle uuid5 saga engine e event)
    (open_session d (Some ctx) id).

(** A delivery already claimed is acknowledged without a change, whatever its handler. *)
Lemma claimed_delivery g eid handler d ctx :
  (g, eid) ∈ db_processed_events d → run_once g ctx eid handler d = (Ok false, d).
Proof.
  intros Hin. unfold run_once, consume_once. rewrite with_uow_open.
  rewrite (tx_bind_Ok _ _ _ _ _ (claim_open g eid d (Some ctx))).
  by rewrite bool_decide_true.
Qed.

Lemma recovery_needs_row d limit max stale nm id_ :
  map_Forall (λ k m, sgm_id m = k) (db_saga_states d) → db_saga_states d !! id_ = None →
  id_ ∉ sagas_for_recovery limit max stale nm d.
Proof.
  intros Hk Hnone (m & -> & Hm)%list_elem_of_fmap.
  apply elem_of_take in Hm as (i & Hm & _). apply list_elem_of_lookup_2 in Hm. apply elem_of_select_rows in Hm as (_ & k & Hk').
  pose proof (Hk _ _ Hk') as E. cbn in E. by rewrite E, Hk' in Hnone.
Qed.

(** A process can be lost for good right after it announced that it started.  The
    commit of [SagaStarted] carries the delivery's claim, and the engine stores the
    execution only afterwards: by the time the engine is entered, the committed rows hold
    the claim and the event but no execution.  If the worker stops there, the redelivery
    is answered from the claim and changes nothing, whatever its handler would do, and no
    recovery query ever finds the process. *)
Theorem crash_after_start_loses_process {C} (uuid5 : uuid → string → uuid) (saga : Saga C)
    (g : string) (event : DomainEvent) (e : Env) (context : C) (ctx : MessageContext)
    (d : Database) :
  let id_ := saga_id_for uuid5 saga context in
  let raiser := Some (as_raiser ("saga:" +:+ uuid_str id_) None (Some ctx) (env_now e)) in
  Saga_handles saga event = true → context_from_event saga event = Ok context →
  (g, event_id event) ∉ db_processed_events d →
  db_saga_states d !! id_ = None → map_Forall (λ k m, sgm_id m = k) (db_saga_states d) →
  env_mint e 0 ∉ ob_event_id <$> db_outbox d →
  ∃ d1,
    (∀ engine, deliver_trigger uuid5 saga g event e ctx d engine =
       deliver_trigger uuid5 saga g event e ctx d
         (λ _ _ _, engine id_ (set_saga_id saga id_ context) (resting raiser d1 true))) ∧
    published d1 = published d ++ lifecycle_start id_ (saga_name saga) e None ∧
    (∀ handler ctx', run_once g ctx' (event_id event) handler d1 = (Ok false, d1)) ∧
    (∀ limit max stale nm, id_ ∉ sagas_for_recovery limit max stale nm d1).
Proof.
  intros id_ raiser Hh Hctx Hclaim Hnone Hkeyed Hnew.
  destruct (start_commits_claim g (event_id event) id_ (saga_name saga) e d raiser Hnew)
    as (d1 & E1 & Hp & Hd1).
  exists d1. split; [|split; [done|split]].
  - assert (∀ engine, Saga_handle_event uuid5 saga engine event e
      (claimed_session d g (event_id event) (Some ctx) []) =
      let '(r, s') := (_ ← tx_except (engine id_ (set_saga_id saga id_ context)) (λ _, true)
          (λ error, _ ← saga_record_failure id_ (saga_name saga) error e; tx_raise error);
        _ ← outbox_append (mkEvent (env_mint e 1) (env_now e) (SagaCompleted id_ (saga_name saga)));
        _ ← uow_commit; (mret true : tx bool)) (resting raiser d1 true) in
      (r, in_context (Some ctx) s')) as Hrun.
    { intros engine. unfold Saga_handle_event. rewrite Hh. cbn [negb].
      rewrite (tx_bind_Ok _ _ _ context _) by (by rewrite Hctx). fold id_.
      unfold acting_as, saga_dispatch.
      rewrite (tx_bind_Ok _ _ _ (sgm_status <$> db_saga_states d !! id_) _)
        by (by apply existing_status_staged).
      rewrite Hnone. cbn [fmap option_fmap option_map].
      rewrite bool_decide_false by done.
      change (in_context _ (claimed_session d g (event_id event) (Some ctx) [])) with
        (in_context raiser (claimed_session d g (event_id event) None [])).
      by rewrite (tx_bind_Ok _ _ _ _ _ E1). }
    intros engine. unfold deliver_trigger, consume_once. rewrite !with_uow_open.
    rewrite !(tx_bind_Ok _ _ _ _ _ (claim_open g (event_id event) d (Some ctx))).
    rewrite bool_decide_false by done. cbn [negb].
    rewrite (tx_bind_cong _ (trigger_handle uuid5 saga (λ _ _ _,
      engine id_ (set_saga_id saga id_ context) (resting raiser d1 true)) e event)); [done|].
    apply tx_bind_cong. by rewrite !Hrun.
  - intros handler ctx'. apply claimed_delivery. rewrite Hd1. cbn. set_solver.
  - intros. apply recovery_needs_row; by rewrite Hd1.
Qed.

(** ** A delivery of [PlantAdded], with an engine that runs the steps forward *)
Definition forward_engine {C} (saga : Saga C) (env : nat → Env) (_ : uuid) (c : C) : tx unit :=
  fun s => let '(r, _, s') := run_acts (saga_steps saga) env c s in (r, s').

Definition demo_saga : Saga OnboardPlantContext := OnboardPlantSaga demo_uuid5.
Definition demo_added : DomainEvent :=
  mkEvent 900 (demo_at 0) (PlantAdded (Uuid 7) (Uuid 4) (Uuid 9) "Fig" (MkLocation "Hall") (demo_at 0)).
Definition demo_new_context : OnboardPlantContext :=
  mkOnboardPlantContext 7 4 9 0 0 false None None.
Definition demo_engine : uuid → OnboardPlantContext → tx unit :=
  forward_engine demo_saga (λ n, demo_env (10 + Z.of_nat n)).
Definition demo_ctx : MessageContext := mkMessageContext "onboard-plant" (Some 3%N) (Some 900%N) None 0.

Definition demo_id : uuid := saga_id_for demo_uuid5 demo_saga demo_new_context.
Definition demo_raiser : option MessageContext :=
  Some (as_raiser ("saga:" +:+ uuid_str demo_id) None None (demo_at 5)).

Lemma saga_lifecycle_witness :
  ∃ d3, Saga_handle_event demo_uuid5 demo_saga demo_engine demo_added (demo_env 5)
      (resting None empty_database false) = (Raise NotFoundError, resting None d3 true) ∧
    published d3 = [mkEvent (env_mint (demo_env 5) 0) (demo_at 5)
        (SagaStarted demo_id "OnboardPlantSaga");
      mkEvent (env_mint (demo_env 5) 1) (demo_at 5)
        (SagaFailed demo_id "OnboardPlantSaga" NotFoundError)].
Proof.
  destruct (saga_lifecycle demo_uuid5 demo_saga demo_engine demo_added (demo_env 5)
    demo_new_context None empty_database false eq_refl eq_refl) as [_ H].
  destruct H as (d1 & b1 & Hp & Hd1 & Hids & H); [done|apply not_elem_of_nil|].
  assert (demo_engine demo_id (set_onboard_saga_id demo_id demo_new_context)
    (resting demo_raiser d1 b1) = (Raise NotFoundError, resting demo_raiser d1 b1)) as Hrun.
  { unfold demo_engine, forward_engine. cbn [saga_steps demo_saga OnboardPlantSaga run_acts
      OnboardPlantSaga_steps step_act].
    rewrite (step_bind_Raise _ _ _ _ NotFoundError (set_onboard_saga_id demo_id demo_new_context)
      (resting demo_raiser d1 b1)); [done|]. by rewrite resolve_step_run, Hd1. }
  destruct (H _ _ _ Hrun) as (d3 & H3 & Hp3 & _).
  - rewrite Hd1. apply NoDup_singleton.
  - intros ev Hev. rewrite Hd1 in Hev. rewrite Hids.
    assert (ev = mkEvent (env_mint (demo_env 5) 1) (demo_at 5)
      (SagaFailed demo_id "OnboardPlantSaga" NotFoundError)) as ->.
    { by apply list_elem_of_singleton in Hev. }
    apply (bool_decide_unpack _). vm_compute. exact I.
  - exists d3. split; [exact H3|]. rewrite Hp3, Hp, Hd1. reflexivity.
Defined.

Lemma crash_after_start_loses_process_witness :
  ∃ d1, published d1 = [mkEvent (env_mint (demo_env 5) 0) (demo_at 5)
      (SagaStarted demo_id "OnboardPlantSaga")] ∧
    (∀ handler ctx', run_once "onboard-plant" ctx' 900 handler d1 = (Ok false, d1)) ∧
    (∀ limit max stale nm, demo_id ∉ sagas_for_recovery limit max stale nm d1).
Proof.
  destruct (crash_after_start_loses_process demo_uuid5 demo_saga "onboard-plant" demo_added
    (demo_env 5) demo_new_context demo_ctx empty_database) as (d1 & _ & Hp & H1 & H2).
  - done.
  - done.
  - set_solver.
  - done.
  - apply map_Forall_empty.
  - apply not_elem_of_nil.
  - exists d1. split; [exact Hp|]. split; [exact H1|exact H2].
Defined.
