(* ===== verification/SpeciesSync.v ===== *)
(** The synchronisation of the catalogue: the steps that fetch an upstream snapshot, apply
    the differences and announce what became stale, and the compensation that restores the
    catalogue ([application/sagas/species_sync.py], [application/ports/catalog.py]). *)

From S2P Require Import Prelude Domain Catalog Topics Rows Views SagaRows Database UnitOfWork.
From S2P Require Import Repositories Commands Delivery SagaIntents SagaDispatch Onboarding.
From S2P Require Import SagaStorage SagaBase.

(** ** Snapshots *)

Record SpeciesRecord := mkSpeciesRecord {
  spr_species_id : SpeciesId;
  spr_scientific_name : string;
  spr_common_name : string;
  spr_watering_interval : WateringInterval;
  spr_light_requirement : LightRequirement }.

Definition snapshot_of (s : Species) : SpeciesSnapshot :=
  mkSpeciesSnapshot (uuid_value (sp_id s)) (sp_scientific_name s) (sp_common_name s)
    (interval_value (sp_watering_interval s)) (LightRequirement_value (sp_light_requirement s))
    (sp_version s).

Definition fetched_snapshot (r : SpeciesRecord) : SpeciesSnapshot :=
  mkSpeciesSnapshot (uuid_value (spr_species_id r)) (spr_scientific_name r) (spr_common_name r)
    (interval_value (spr_watering_interval r)) (LightRequirement_value (spr_light_requirement r)) 0.

Definition set_sync (fetched updated : list SpeciesSnapshot) (created : list uuid)
    (c : SpeciesSyncContext) : SpeciesSyncContext :=
  mkSpeciesSyncContext (sc_saga_id c) (sc_requested_at c) (sc_requested_by c) fetched updated created.

(** ** The steps *)

(** [fetch_all] is the upstream's answer. *)
Definition FetchSpeciesStep_act (fetch_all : result (list SpeciesRecord)) (e : Env) :
    step SpeciesSyncContext unit :=
  context ← step_get;
  records ← step_tx (tx_lift fetch_all);
  step_put (set_sync (fetched_snapshot <$> records) (sc_updated context) (sc_created context) context).

(** [save] and [add] of the object the [n]-th turn of a loop holds. *)
Definition species_save_nth (n : nat) (s : Species) : tx unit :=
  let m := species_to_model s in
  _ ← execute (merge_row db_species set_species (spm_id m) m);
  track (ELoaded n, spm_id m) (sp_events s).
Definition species_add_nth (n : nat) (s : Species) : tx unit :=
  let m := species_to_model s in
  _ ← execute (insert_row db_species set_species (spm_id m) m);
  track (ELoaded n, spm_id m) (sp_events s).

(** [species.update(...)] with the values of a snapshot. *)
Definition update_from (species : Species) (s : SpeciesSnapshot) (now : datetime) (eid : uuid) :
    result (bool * Species) :=
  interval ← CareInterval_validate (snap_watering_interval s);
  light ← LightRequirement_parse (snap_light_requirement s);
  Species_update species (snap_scientific_name s) (snap_common_name s) interval light now
    (sp_version species) eid.

(** [_create]. *)
Definition create_from (n : nat) (s : SpeciesSnapshot) (now : datetime) (eid : uuid) : tx uuid :=
  interval ← tx_lift (CareInterval_validate (snap_watering_interval s));
  light ← tx_lift (LightRequirement_parse (snap_light_requirement s));
  species ← tx_lift (Species_add (snap_scientific_name s) (snap_common_name s) interval light now
    (Some (Uuid (snap_species_id s))) 0 eid);
  _ ← species_add_nth n species;
  mret (snap_species_id s).

Definition note_created (u : uuid) : step SpeciesSyncContext unit :=
  context ← step_get;
  step_put (set_sync (sc_fetched context) (sc_updated context) (sc_created context ++ [u]) context).
Definition note_updated (before : SpeciesSnapshot) : step SpeciesSyncContext unit :=
  context ← step_get;
  step_put (set_sync (sc_fetched context) (sc_updated context ++ [before]) (sc_created context)
    context).

(** One turn of the loop of [ApplySpeciesUpdatesStep.act]. *)
Definition apply_record (n : nat) (record : SpeciesSnapshot) (e : Env) :
    step SpeciesSyncContext unit :=
  species ← step_tx (species_repo_get_for_update (Uuid (snap_species_id record)));
  match species with
  | None =>
      created ← step_tx (create_from n record (env_now e) (env_mint e n));
      note_created created
  | Some species =>
      changed ← step_tx (tx_lift (update_from species record (env_now e) (env_mint e n)));
      if (changed.1 : bool) then
        _ ← step_tx (species_save_nth n changed.2);
        note_updated (snapshot_of species)
      else mret tt
  end.

Fixpoint apply_records (n : nat) (records : list SpeciesSnapshot) (e : Env) :
    step SpeciesSyncContext unit :=
  match records with
  | [] => mret tt
  | r :: records => _ ← apply_record n r e; apply_records (S n) records e
  end.

Definition ApplySpeciesUpdatesStep_act (e : Env) : step SpeciesSyncContext unit :=
  context ← step_get;
  _ ← apply_records 0 (sc_fetched context) e;
  step_tx uow_commit.

(** One turn of the loop that restores. *)
Definition restore_snapshot (n : nat) (before : SpeciesSnapshot) (e : Env) : tx unit :=
  species ← species_repo_get_for_update (Uuid (snap_species_id before));
  match species with
  | None => mret tt
  | Some species =>
      changed ← tx_lift (update_from species before (env_now e) (env_mint e n));
      species_save_nth n changed.2
  end.

Fixpoint restore_snapshots (n : nat) (updated : list SpeciesSnapshot) (e : Env) : tx unit :=
  match updated with
  | [] => mret tt
  | s :: updated => _ ← restore_snapshot n s e; restore_snapshots (S n) updated e
  end.

Definition ApplySpeciesUpdatesStep_compensate (e : Env) : step SpeciesSyncContext unit :=
  context ← step_get;
  _ ← step_tx (tx_iter (λ u, species_repo_delete (Uuid u)) (sc_created context));
  _ ← step_tx (restore_snapshots 0 (sc_updated context) e);
  _ ← step_tx uow_commit;
  step_put (set_sync (sc_fetched context) [] [] context).

(** The invalidator of the worker announces staleness through the outbox. *)
Definition invalidate_species (ids : list uuid) (e : Env) : tx unit :=
  tx_iter (λ '(n, u), outbox_append (mkEvent (env_mint e n) (env_now e)
    (SpeciesCacheInvalidated (Uuid u)))) (imap pair ids).

Definition InvalidateSpeciesCacheStep_act (e : Env) : step SpeciesSyncContext unit :=
  context ← step_get;
  _ ← step_tx (invalidate_species (snap_species_id <$> sc_updated context) e);
  step_tx uow_commit.

Definition SpeciesSyncSaga_steps (fetch_all : result (list SpeciesRecord)) :
    list (SagaStepHandler SpeciesSyncContext) :=
  [mkSagaStepHandler "FetchSpeciesStep" (FetchSpeciesStep_act fetch_all) (λ _, mret tt);
   mkSagaStepHandler "ApplySpeciesUpdatesStep" ApplySpeciesUpdatesStep_act
     ApplySpeciesUpdatesStep_compensate;
   mkSagaStepHandler "InvalidateSpeciesCacheStep" InvalidateSpeciesCacheStep_act (λ _, mret tt)].

(** [context_from_event] and [correlation_id]: one process per request. *)
Definition SpeciesSyncSaga_context (e : DomainEvent) : result SpeciesSyncContext :=
  match body e with
  | SpeciesSyncRequested => Ok (mkSpeciesSyncContext 0 (occurred_at e) (event_id e) [] [] [])
  | _ => Raise UnhandledSagaTriggerError
  end.
Definition set_sync_saga_id (saga_id : uuid) (c : SpeciesSyncContext) : SpeciesSyncContext :=
  mkSpeciesSyncContext saga_id (sc_requested_at c) (sc_requested_by c) (sc_fetched c)
    (sc_updated c) (sc_created c).

Definition SpeciesSyncSaga (fetch_all : result (list SpeciesRecord)) : Saga SpeciesSyncContext :=
  mkSaga "SpeciesSyncSaga" ["SpeciesSyncRequested"%string] (SpeciesSyncSaga_steps fetch_all)
    SpeciesSyncSaga_context sc_requested_by set_sync_saga_id.

Definition SpeciesSyncTrigger (uuid5 : uuid → string → uuid)
    (fetch_all : result (list SpeciesRecord)) (engine : uuid → SpeciesSyncContext → tx unit)
    (e : Env) : Consumer :=
  mkConsumer "species-sync" ["SpeciesSyncRequested"%string]
    (trigger_handle uuid5 (SpeciesSyncSaga fetch_all) engine e).

(** [request_sync]: what the daily timer publishes. *)
Definition request_sync (e : Env) : tx unit :=
  with_uow (
    _ ← outbox_append (mkEvent (env_mint e 0) (env_now e) SpeciesSyncRequested);
    uow_commit).

(** ** What the compensation has to restore *)

(** Two entries that say the same, whatever their versions. *)
Definition same_entry (m m' : SpeciesModel) : Prop :=
  spm_id m = spm_id m' ∧ spm_scientific_name m = spm_scientific_name m' ∧
  spm_common_name m = spm_common_name m' ∧
  spm_watering_interval m = spm_watering_interval m' ∧
  spm_light_requirement m = spm_light_requirement m'.

Definition same_catalogue (T T' : gmap uuid SpeciesModel) : Prop :=
  ∀ u, option_Forall2 same_entry (T !! u) (T' !! u).

(** A row under its own key that its mapper accepts and writes back. *)
Definition entry_ok (u : uuid) (m : SpeciesModel) : Prop :=
  spm_id m = u ∧ ∃ s, species_to_domain m = Ok s ∧ species_to_model s = m.
Definition catalogue_ok (T : gmap uuid SpeciesModel) : Prop := map_Forall entry_ok T.

Definition row_snapshot (m : SpeciesModel) : SpeciesSnapshot :=
  mkSpeciesSnapshot (spm_id m) (spm_scientific_name m) (spm_common_name m)
    (spm_watering_interval m) (spm_light_requirement m) (spm_version m).

(** The same entry [by_] changes later. *)
Definition moved_on (by_ : Z) (m m' : SpeciesModel) : Prop :=
  same_entry m m' ∧ spm_version m' = (spm_version m + by_)%Z.

(** The rollback of a run that changed the entries [changed] of [T]: those say the same
    again, two versions on; every other entry, or none, is the one there was. *)
Definition restored_from (changed : list uuid) (T T' : gmap uuid SpeciesModel) : Prop :=
  ∀ u, if bool_decide (u ∈ changed) then option_Forall2 (moved_on 2) (T !! u) (T' !! u)
       else T' !! u = T !! u.

(** The event says the entry has the values of the snapshot again, two versions on. *)
Definition announces (b : SpeciesSnapshot) (ev : DomainEvent) : Prop :=
  ∃ i l, body ev = SpeciesUpdated (Uuid (snap_species_id b)) (snap_scientific_name b)
      (snap_common_name b) i l (snap_version b + 2) ∧
    interval_value i = snap_watering_interval b ∧
    LightRequirement_value l = snap_light_requirement b.

(** ** Running a transaction

    A session over committed rows [d] whose staged statements have produced [v]. *)
Record running (ctx : option MessageContext) (d v : Database) (s : Session) : Prop := mkRunning {
  rn_base : ss_base s = d;
  rn_context : ss_context s = ctx;
  rn_others : ss_others s = id;
  rn_clean : ss_conflict s = false;
  rn_view : ss_view s = v;
  rn_replay : replay_writes (ss_writes s) d = Some v }.

Lemma running_resting ctx d b : running ctx d d (resting ctx d b).
Proof. done. Qed.

Lemma running_query {A} (f : Database → A) ctx d v s :
  running ctx d v s → query f s = (Ok (f v), s).
Proof. intros [? ? ? Hc Hv ?]. unfold query. by rewrite Hc, Hv. Qed.

Lemma running_execute w ctx d v v' s :
  running ctx d v s → w v = Some v' →
  ∃ s', execute w s = (Ok tt, s') ∧ running ctx d v' s' ∧ ss_tracked s' = ss_tracked s.
Proof.
  intros [Hb Hx Ho Hc Hv Hr] Hw. unfold execute. rewrite Hv, Hw. eexists. split; [done|].
  split; [|done]. split; cbn; try done. rewrite replay_writes_app, Hr. cbn.
  by rewrite replay_writes_cons, Hw.
Qed.

Lemma running_track r es ctx d v s :
  running ctx d v s → r ∉ (ss_tracked s).*1 →
  ∃ s', track r es s = (Ok tt, s') ∧ running ctx d v s' ∧
    ss_tracked s' = ss_tracked s ++ [(r, es)].
Proof.
  intros [Hb Hx Ho Hc Hv Hr] Hnew. eexists. split; [done|]. split; [done|]. cbn.
  induction (ss_tracked s) as [|[r' es'] l IH]; [done|]. cbn in *.
  rewrite not_elem_of_cons in Hnew. destruct Hnew as [Hne Hnew].
  rewrite decide_False by done. by rewrite IH.
Qed.

Lemma running_commit ctx d v s :
  running ctx d v s → NoDup (event_id <$> tracked_events s) →
  (∀ e, e ∈ tracked_events s → event_id e ∉ ob_event_id <$> db_outbox v) →
  ∃ d', uow_commit s = (Ok tt, resting ctx d' true) ∧
    published d' = published v ++ tracked_events s ∧ d' = set_outbox v (db_outbox d').
Proof.
  intros [Hb Hx Ho Hc Hv Hr] Hnd Hnew.
  destruct (outbox_statements_fresh ctx _ v Hnd Hnew) as [d' Hd'].
  exists d'. split; [|by apply outbox_statements_published in Hd'].
  rewrite (commit_resting s ctx d), replay_writes_app, Hr by done.
  cbn [mbind option_bind]. by rewrite Hd'.
Qed.

Lemma running_commit_Ok ctx d v s u s' :
  running ctx d v s → uow_commit s = (Ok u, s') →
  ∃ d', s' = resting ctx d' true ∧ d' = set_outbox v (db_outbox d').
Proof.
  intros [Hb Hx Ho Hc Hv Hr]. rewrite (commit_resting s ctx d), replay_writes_app, Hr by done.
  cbn [mbind option_bind]. destruct (replay_writes (outbox_statements ctx (tracked_events s)) v) as [d'|] eqn:E;
    [|done].
  intros H. exists d'. split; [exact (eq_sym (f_equal snd H))|].
  by apply outbox_statements_published in E as [_ ?].
Qed.

(** ** Lemmas *)

Lemma species_to_domain_Ok m s :
  species_to_domain m = Ok s →
  species_wf s ∧ (0 < interval_value (sp_watering_interval s))%Z ∧ sp_id s = Uuid (spm_id m) ∧
  sp_version s = spm_version m ∧ sp_events s = [].
Proof.
  unfold species_to_domain. intros H.
  apply bind_Ok in H as (i & [Hi Hp]%CareInterval_validate_Ok & H).
  apply bind_Ok in H as (l & _ & H). apply Species_new_wf in H as [Hwf ->]. cbn.
  by rewrite Hi.
Qed.

(** A species in good order is stored as a row in good order. *)
Lemma stored_entry_ok s :
  species_wf s → (0 < interval_value (sp_watering_interval s))%Z →
  entry_ok (uuid_value (sp_id s)) (species_to_model s).
Proof.
  intros Hwf Hp. split; [done|]. unfold species_to_domain, species_to_model. cbn.
  unfold CareInterval_validate. rewrite decide_True by done. cbn.
  rewrite LightRequirement_roundtrip. cbn. rewrite Uuid_eta.
  assert (MkCareInterval (interval_value (sp_watering_interval s)) = sp_watering_interval s) as ->
    by (by destruct (sp_watering_interval s)).
  eexists. split; [by apply Species_new_roundtrip|]. done.
Qed.

(** What the values of a snapshot make of a species. *)
Lemma update_from_Ok s b now eid c s' :
  update_from s b now eid = Ok (c, s') → sp_events s = [] →
  species_wf s' ∧ (0 < interval_value (sp_watering_interval s'))%Z ∧ sp_id s' = sp_id s ∧
  (c = false → s' = s) ∧
  (c = true → ¬ same_entry (species_to_model s) (species_to_model s') ∧
    sp_version s' = (sp_version s + 1)%Z ∧
    ∃ ev, sp_events s' = [ev] ∧ event_id ev = eid ∧ body ev =
      SpeciesUpdated (sp_id s) (sp_scientific_name s') (sp_common_name s')
        (sp_watering_interval s') (sp_light_requirement s') (sp_version s')).
Proof.
  unfold update_from. intros H Hev.
  apply bind_Ok in H as (i & [Hi Hp]%CareInterval_validate_Ok & H).
  apply bind_Ok in H as (l & _ & H). pose proof H as Hu. unfold Species_update in Hu.
  apply Species_update_Ok in H as (_ & Hvals & Hf & Ht & Hwf).
  unfold species_values in Hvals. injection Hvals as Hid Hsn Hcn Hwi Hlr.
  split_and!; [done|by rewrite Hwi, Hi|done|done|]. intros ->.
  destruct (Ht eq_refl) as (Hver & Hne & _). split; [|split; [exact Hver|]].
  - intros (_ & H1 & H2 & H3 & H4). apply Hne. unfold species_values. cbn in *.
    assert (sp_watering_interval s' = sp_watering_interval s) as E3.
    { by destruct (sp_watering_interval s'), (sp_watering_interval s); cbn in *; subst. }
    assert (sp_light_requirement s' = sp_light_requirement s) as E4.
    { by destruct (sp_light_requirement s'), (sp_light_requirement s). }
    by rewrite Hid, E3, E4, H1, H2.
  - rewrite decide_False in Hu by (by intros []).
    apply bind_Ok in Hu as (n1 & _ & Hu). apply bind_Ok in Hu as (n2 & _ & Hu).
    case_decide; [|done]. injection Hu as <-. cbn. rewrite Hev. by eexists.
Qed.

(** *** The forward direction *)

(** What the step keeps true of the catalogue [T] it started from, of the catalogue [T']
    it has made of it and of its context, whose feed it has read up to [read]. *)
Record applied (T T' : gmap uuid SpeciesModel) (c : SpeciesSyncContext) (read : list uuid) :
    Prop := mkApplied {
  ap_ok : catalogue_ok T';
  ap_rest : ∀ u, u ∉ sc_created c → u ∉ snap_species_id <$> sc_updated c → T' !! u = T !! u;
  ap_created : ∀ u, u ∈ sc_created c → T !! u = None;
  ap_updated : Forall (λ b, ∃ m m', T !! spm_id m = Some m ∧ b = row_snapshot m ∧
    T' !! spm_id m = Some m' ∧ ¬ same_entry m m' ∧ spm_version m' = (spm_version m + 1)%Z)
    (sc_updated c);
  ap_once : NoDup (sc_created c ++ (snap_species_id <$> sc_updated c));
  ap_read : sc_created c ++ (snap_species_id <$> sc_updated c) ⊆ read }.

Lemma applied_start T c read :
  catalogue_ok T → sc_updated c = [] → sc_created c = [] → applied T T c read.
Proof.
  intros Hok Hu Hc. split; rewrite ?Hu, ?Hc; cbn; try done; try constructor;
    intros u Hin; by apply not_elem_of_nil in Hin.
Qed.

Lemma applied_weaken T T' c read read' :
  applied T T' c read → read ⊆ read' → applied T T' c read'.
Proof. intros [] ?. split; try done. set_solver. Qed.

Lemma applied_create T T' c read u m :
  applied T T' c read → u ∉ read → T' !! u = None → entry_ok u m →
  applied T (<[u := m]> T')
    (set_sync (sc_fetched c) (sc_updated c) (sc_created c ++ [u]) c) (u :: read).
Proof.
  intros [Hok Hrest Hcr Hup Honce Hread] Hnew Hnone Hm.
  assert (u ∉ sc_created c ++ (snap_species_id <$> sc_updated c)) as Hout by set_solver.
  rewrite not_elem_of_app in Hout. destruct Hout as [Hc Hu]. split; cbn.
  - apply map_Forall_insert_2; done.
  - intros v Hv1 Hv2. rewrite lookup_insert_ne by set_solver. apply Hrest; set_solver.
  - intros v. rewrite elem_of_app, list_elem_of_singleton. intros [Hin| ->]; [by apply Hcr|].
    by rewrite <- Hrest.
  - apply Forall_forall. intros b Hb. rewrite Forall_forall in Hup.
    destruct (Hup b Hb) as (m1 & m2 & H1 & -> & H2 & Hne). exists m1, m2.
    rewrite lookup_insert_ne; [done|]. intros ->. apply Hu.
    by apply (list_elem_of_fmap_2 snap_species_id _ (row_snapshot m1)).
  - rewrite <- app_assoc. cbn. rewrite <- Permutation_middle.
    constructor; [|done]. by rewrite not_elem_of_app.
  - set_solver.
Qed.

Lemma applied_update T T' c read m m' :
  applied T T' c read → spm_id m ∉ read → T' !! spm_id m = Some m → entry_ok (spm_id m) m' →
  ¬ same_entry m m' → spm_version m' = (spm_version m + 1)%Z →
  applied T (<[spm_id m := m']> T')
    (set_sync (sc_fetched c) (sc_updated c ++ [row_snapshot m]) (sc_created c) c)
    (spm_id m :: read).
Proof.
  intros [Hok Hrest Hcr Hup Honce Hread] Hnew Hat Hm Hne Hver.
  assert (spm_id m ∉ sc_created c ++ (snap_species_id <$> sc_updated c)) as Hout by set_solver.
  rewrite not_elem_of_app in Hout. destruct Hout as [Hc Hu]. split; cbn.
  - apply map_Forall_insert_2; done.
  - intros v Hv1 Hv2. rewrite fmap_app, elem_of_app in Hv2. cbn in Hv2.
    rewrite lookup_insert_ne by set_solver. apply Hrest; set_solver.
  - done.
  - apply Forall_app. split.
    + apply Forall_forall. intros b Hb. rewrite Forall_forall in Hup.
      destruct (Hup b Hb) as (m1 & m2 & H1 & -> & H2 & Hne'). exists m1, m2.
      rewrite lookup_insert_ne; [done|]. intros Heq. apply Hu. rewrite Heq.
      by apply (list_elem_of_fmap_2 snap_species_id _ (row_snapshot m1)).
    + constructor; [|constructor]. exists m, m'. rewrite lookup_insert_eq, <- Hrest by done. done.
  - rewrite fmap_app, app_assoc. apply NoDup_app. split_and!; [done| |apply NoDup_singleton].
    intros v Hv ->%list_elem_of_singleton. cbn in Hv. set_solver.
  - rewrite fmap_app. cbn. set_solver.
Qed.

(** *** The repository, inside a running transaction *)

Lemma species_loaded ctx d v s u :
  running ctx d v s → catalogue_ok (db_species v) →
  match db_species v !! u with
  | None => species_repo_get_for_update (Uuid u) s = (Ok None, s)
  | Some m => ∃ species, species_repo_get_for_update (Uuid u) s = (Ok (Some species), s) ∧
      species_to_model species = m ∧ species_to_domain m = Ok species ∧ spm_id m = u
  end.
Proof.
  intros Hr Hok. unfold species_repo_get_for_update, species_repo_get.
  rewrite (tx_bind_Ok _ _ _ _ _ (running_query _ _ _ _ _ Hr)). cbn [uuid_value].
  destruct (db_species v !! u) as [m|] eqn:E; [|done].
  destruct (Hok _ _ E) as (Hid & species & Hd & Hm). exists species.
  unfold tx_lift, opt_to_domain. by rewrite Hd.
Qed.

Lemma running_tracked r es ctx d v s :
  running ctx d v s → ∃ s', track r es s = (Ok tt, s') ∧ running ctx d v s'.
Proof. intros []. by eexists. Qed.

Lemma species_save_run n species ctx d v s :
  running ctx d v s →
  let m := species_to_model species in
  ∃ s', species_save_nth n species s = (Ok tt, s') ∧
    running ctx d (set_species v (<[spm_id m := m]> (db_species v))) s'.
Proof.
  intros Hr m. unfold species_save_nth. fold m.
  destruct (running_execute (merge_row db_species set_species (spm_id m) m) _ _ _ _ _ Hr eq_refl)
    as (s1 & E1 & Hr1 & _).
  destruct (running_tracked (ELoaded n, spm_id m) (sp_events species) _ _ _ _ Hr1)
    as (s2 & E2 & Hr2).
  exists s2. by rewrite (tx_bind_Ok _ _ _ _ _ E1).
Qed.

Lemma species_insert_run n species ctx d v s :
  running ctx d v s →
  let m := species_to_model species in
  db_species v !! spm_id m = None →
  ∃ s', species_add_nth n species s = (Ok tt, s') ∧
    running ctx d (set_species v (<[spm_id m := m]> (db_species v))) s'.
Proof.
  intros Hr m Hnone. unfold species_add_nth. fold m.
  destruct (running_execute (insert_row db_species set_species (spm_id m) m) _ _ _
    (set_species v (<[spm_id m := m]> (db_species v))) _ Hr) as (s1 & E1 & Hr1 & _).
  { unfold insert_row. by rewrite Hnone. }
  destruct (running_tracked (ELoaded n, spm_id m) (sp_events species) _ _ _ _ Hr1)
    as (s2 & E2 & Hr2).
  exists s2. by rewrite (tx_bind_Ok _ _ _ _ _ E1).
Qed.

(** One record of the feed, whenever the step gets past it. *)
Lemma apply_record_run n r e ctx d v s T c read u c' s' :
  running ctx d v s → applied T (db_species v) c read → snap_species_id r ∉ read →
  apply_record n r e c s = (Ok u, c', s') →
  ∃ v', running ctx d v' s' ∧ applied T (db_species v') c' (snap_species_id r :: read) ∧
    sc_fetched c' = sc_fetched c.
Proof.
  intros Hr Hap Hnew. unfold apply_record.
  pose proof (species_loaded _ _ _ _ (snap_species_id r) Hr (ap_ok _ _ _ _ Hap)) as Hload.
  destruct (db_species v !! snap_species_id r) as [m|] eqn:Em.
  - destruct Hload as (species & Hget & Hm & Hd & Hid).
    apply species_to_domain_Ok in Hd as (Hwf & Hp & Hsid & _ & Hev).
    unfold step_tx, mbind, step_bind. rewrite Hget. unfold tx_lift.
    destruct (update_from species r (env_now e) (env_mint e n)) as [[b species']|] eqn:Eu; [|done].
    apply update_from_Ok in Eu as (Hwf' & Hp' & Hid' & Hf & Ht); [|done]. cbn [fst snd].
    destruct b; [|intros [= <- <- <-]; exists v; split; [done|]; split; [|done];
      eapply applied_weaken; [done|set_solver]].
    destruct (Ht eq_refl) as (Hne & Hver & _).
    destruct (species_save_run n species' _ _ _ _ Hr) as (s1 & E1 & Hr1). rewrite E1.
    unfold note_updated, step_get, step_put, mbind, step_bind.
    intros [= <- <- <-]. eexists. split; [exact Hr1|]. split; [|done]. cbn [db_species set_species].
    assert (snapshot_of species = row_snapshot m) as -> by (by subst m).
    assert (spm_id (species_to_model species') = spm_id m) as Hkey.
    { cbn. by rewrite Hid', Hsid, Hid. }
    rewrite Hkey, <- Hid. apply applied_update; rewrite ?Hid; try done.
    + rewrite <- Hkey in Hid. rewrite <- Hid. by apply stored_entry_ok.
    + by rewrite <- Hm.
    + by rewrite <- Hm.
  - unfold step_tx, mbind at 1, step_bind at 1. rewrite Hload.
    unfold create_from, mbind, step_bind, tx_bind, tx_lift.
    destruct (CareInterval_validate (snap_watering_interval r)) as [i|] eqn:Ei; [|done].
    destruct (LightRequirement_parse (snap_light_requirement r)) as [l|] eqn:El; [|done].
    destruct (Species_add _ _ _ _ _ _ _ _) as [species|] eqn:Ea; [|done].
    apply bind_Ok in Ea as (sp & Hsp & [= <-]). apply Species_new_wf in Hsp as [Hwf Hsp].
    assert (snap_species_id r = uuid_value (sp_id sp)) as Hkey by (by rewrite Hsp).
    set (species := Species_record _ _).
    destruct (species_insert_run n species _ _ _ _ Hr) as (s1 & E1 & Hr1).
    { cbn. by rewrite <- Hkey. }
    rewrite E1. unfold note_created, step_get, step_put, mbind, step_bind. cbn [mret tx_ret].
    intros [= <- <- <-]. eexists. split; [exact Hr1|]. split; [|done]. cbn [db_species set_species].
    change (spm_id (species_to_model species)) with (uuid_value (sp_id sp)). rewrite <- Hkey.
    apply applied_create; try done. rewrite Hkey. apply (stored_entry_ok species); [done|].
    cbn. rewrite Hsp. cbn. apply CareInterval_validate_Ok in Ei as [-> ?]. done.
Qed.

Lemma apply_records_run rs e ctx d T : ∀ n v s c read u c' s',
  running ctx d v s → applied T (db_species v) c read →
  NoDup (snap_species_id <$> rs) → (∀ r, r ∈ rs → snap_species_id r ∉ read) →
  apply_records n rs e c s = (Ok u, c', s') →
  ∃ v' read', running ctx d v' s' ∧ applied T (db_species v') c' read' ∧
    sc_fetched c' = sc_fetched c.
Proof.
  induction rs as [|r rs IH]; intros n v s c read u c' s' Hr Hap Hnd Hnew.
  { cbn. intros [= _ <- <-]. by exists v, read. }
  rewrite fmap_cons, NoDup_cons in Hnd. destruct Hnd as [Hnot Hnd]. cbn [apply_records].
  destruct (apply_record n r e c s) as [[[u1|x] c1] s1] eqn:E;
    unfold mbind, step_bind; rewrite E; [|done]. intros Hrest.
  apply (apply_record_run n r e _ _ _ _ _ _ _ _ _ _ Hr Hap) in E as (v1 & Hr1 & Hap1 & Hf);
    [|apply Hnew; by left].
  rewrite <- Hf. refine (IH _ _ _ _ _ _ _ _ Hr1 Hap1 Hnd _ Hrest). intros r' Hin.
  rewrite not_elem_of_cons. split; [|apply Hnew; by right]. intros Heq. apply Hnot.
  rewrite <- Heq. by apply list_elem_of_fmap_2.
Qed.

(** The whole step, whenever it commits. *)
Lemma apply_step_run e c ctx d b c' s' :
  catalogue_ok (db_species d) → sc_updated c = [] → sc_created c = [] →
  NoDup (snap_species_id <$> sc_fetched c) →
  ApplySpeciesUpdatesStep_act e c (resting ctx d b) = (Ok tt, c', s') →
  ∃ d' read, s' = resting ctx d' true ∧ applied (db_species d) (db_species d') c' read ∧
    sc_fetched c' = sc_fetched c.
Proof.
  intros Hok Hu Hc Hnd. unfold ApplySpeciesUpdatesStep_act, step_get.
  unfold mbind, step_bind, step_tx.
  destruct (apply_records 0 (sc_fetched c) e c (resting ctx d b)) as [[[u|x] c1] s1] eqn:E; [|done].
  apply (apply_records_run _ _ ctx d (db_species d) _ d _ _ []) in E as (v & read & Hr & Hap & Hf);
    [|done|by apply applied_start|done|intros r _; apply not_elem_of_nil].
  destruct (uow_commit s1) as [r2 s2] eqn:Ec. intros [= -> <- <-].
  apply (running_commit_Ok _ _ _ _ _ _ Hr) in Ec as (d' & -> & Hd').
  exists d', read. by rewrite Hd'.
Qed.

(** *** The way back *)

Lemma species_deletes_run us ctx d : ∀ v s,
  running ctx d v s → catalogue_ok (db_species v) →
  ∃ T s', tx_iter (λ u, species_repo_delete (Uuid u)) us s = (Ok tt, s') ∧
    running ctx d (set_species v T) s' ∧ ss_tracked s' = ss_tracked s ∧ catalogue_ok T ∧
    ∀ u, T !! u = if bool_decide (u ∈ us) then None else db_species v !! u.
Proof.
  induction us as [|u us IH]; intros v s Hr Hok.
  { exists (db_species v), s. split_and!; [done|by destruct v|done|done|]. intros u.
    rewrite bool_decide_false by apply not_elem_of_nil. done. }
  assert (∃ s1, species_repo_delete (Uuid u) s = (Ok tt, s1) ∧
    running ctx d (set_species v (delete u (db_species v))) s1 ∧ ss_tracked s1 = ss_tracked s)
    as (s1 & E1 & Hr1 & Ht1).
  { unfold species_repo_delete. rewrite (tx_bind_Ok _ _ _ _ _ (running_query _ _ _ _ _ Hr)).
    cbn [uuid_value]. destruct (db_species v !! u) as [m|] eqn:Em.
    - destruct (Hok _ _ Em) as [-> _]. by eapply running_execute.
    - exists s. rewrite delete_id by done. by destruct v. }
  destruct (IH _ _ Hr1) as (T & s2 & E2 & Hr2 & Ht2 & HT & Hlook).
  { cbn. by apply map_Forall_delete. }
  exists T, s2. cbn [tx_iter]. rewrite (tx_bind_Ok _ _ _ _ _ E1).
  split_and!; [done|by destruct v|by rewrite Ht2|done|]. intros u'. rewrite Hlook. cbn.
  destruct (decide (u' = u)) as [->|Hne].
  - rewrite lookup_delete_eq. rewrite (bool_decide_true (u ∈ u :: us)) by (by left).
    by case_bool_decide.
  - rewrite lookup_delete_ne by done.
    by rewrite (bool_decide_ext (u' ∈ us) (u' ∈ u :: us)) by (rewrite elem_of_cons; tauto).
Qed.

(** One image of the feed's old values, when the entry has others by now. *)
Lemma restore_run n m m' e ctx d v s :
  running ctx d v s → catalogue_ok (db_species v) → db_species v !! spm_id m = Some m' →
  entry_ok (spm_id m) m → ¬ same_entry m m' → spm_version m' = (spm_version m + 1)%Z →
  (ELoaded n, spm_id m) ∉ (ss_tracked s).*1 →
  ∃ s' m'' ev, restore_snapshot n (row_snapshot m) e s = (Ok tt, s') ∧
    running ctx d (set_species v (<[spm_id m := m'']> (db_species v))) s' ∧
    moved_on 2 m m'' ∧ entry_ok (spm_id m) m'' ∧
    ss_tracked s' = ss_tracked s ++ [((ELoaded n, spm_id m), [ev])] ∧
    event_id ev = env_mint e n ∧ announces (row_snapshot m) ev.
Proof.
  intros Hr Hok Hat (_ & old & Hold & Hm) Hne Hver Hnew.
  pose proof (species_loaded _ _ _ _ (spm_id m) Hr Hok) as Hload. rewrite Hat in Hload.
  destruct Hload as (species & Hget & Hm' & Hd & Hid).
  apply species_to_domain_Ok in Hd as (Hwf & Hp & Hsid & Hsv & Hev).
  apply species_to_domain_Ok in Hold as ((Hsn & Hcn) & Hpo & Hoid & _ & _).
  assert (∃ c species', update_from species (row_snapshot m) (env_now e) (env_mint e n) =
    Ok (c, species') ∧ sp_scientific_name species' = sp_scientific_name old ∧
    sp_common_name species' = sp_common_name old ∧
    sp_watering_interval species' = sp_watering_interval old ∧
    sp_light_requirement species' = sp_light_requirement old) as (c & species' & Eu & Hvals).
  { unfold update_from. rewrite <- Hm. cbn. unfold CareInterval_validate.
    rewrite decide_True by done. cbn. rewrite LightRequirement_roundtrip. cbn.
    assert (MkCareInterval (interval_value (sp_watering_interval old)) =
      sp_watering_interval old) as -> by (by destruct (sp_watering_interval old)).
    unfold Species_update. rewrite decide_False by tauto. rewrite Hsn. cbn. rewrite Hcn. cbn.
    case_decide as Hc; [by do 2 eexists|]. do 2 eexists. split; [done|].
    split_and!; symmetry; apply dec_stable; tauto. }
  destruct Hvals as (Hv1 & Hv2 & Hv3 & Hv4).
  destruct (update_from_Ok _ _ _ _ _ _ Eu Hev) as (Hwf' & Hp' & Hid' & Hf & Ht).
  assert (same_entry m (species_to_model species')) as Hsame.
  { unfold same_entry. rewrite <- Hm. cbn. rewrite Hv1, Hv2, Hv3, Hv4, Hid', Hsid, Hid, Hoid.
    rewrite <- Hm. cbn. by rewrite Hoid. }
  destruct c; [|by rewrite (Hf eq_refl), Hm' in Hsame].
  destruct (Ht eq_refl) as (_ & Hver' & ev & Hevs & Heid & Hbody).
  assert (sp_version species' = (spm_version m + 2)%Z) as Hver'' by (rewrite Hver', Hsv, Hver; lia).
  set (m'' := species_to_model species') in *.
  assert (spm_id m'' = spm_id m) as Hkey by (symmetry; apply Hsame).
  destruct (running_execute (merge_row db_species set_species (spm_id m'') m'') _ _ _ _ _ Hr
    eq_refl) as (s1 & E1 & Hr1 & Ht1).
  destruct (running_track (ELoaded n, spm_id m'') (sp_events species') _ _ _ _ Hr1)
    as (s2 & E2 & Hr2 & Ht2); [by rewrite Ht1, Hkey|].
  exists s2, m'', ev. rewrite Hkey, Ht1, Hevs in Ht2. rewrite Hkey in Hr2.
  split_and!; try done.
  - unfold restore_snapshot. cbn [row_snapshot snap_species_id].
    rewrite (tx_bind_Ok _ _ _ _ _ Hget), (tx_bind_Ok _ _ s (true, species') s).
    2: { unfold tx_lift. by rewrite Eu. }
    cbn [snd]. unfold species_save_nth. fold m''. by rewrite (tx_bind_Ok _ _ _ _ _ E1).
  - rewrite <- Hkey. by apply stored_entry_ok.
  - exists (sp_watering_interval species'), (sp_light_requirement species').
    rewrite Hbody, Hsid, Hid, Hv1, Hv2, Hv3, Hv4, Hver''. rewrite <- Hm. cbn. by rewrite Hoid.
Qed.

(** What is still to be restored of [T] in [T']: the images [todo], each of an entry that
    has other values by now; of the other entries, those [changed] are as they were two
    versions ago, and the rest as they were. *)
Record restoring (changed : list uuid) (T T' : gmap uuid SpeciesModel)
    (todo : list SpeciesSnapshot) : Prop := mkRestoring {
  rs_ok : catalogue_ok T';
  rs_todo : Forall (λ b, ∃ m m', T !! spm_id m = Some m ∧ b = row_snapshot m ∧
    T' !! spm_id m = Some m' ∧ ¬ same_entry m m' ∧ spm_version m' = (spm_version m + 1)%Z) todo;
  rs_once : NoDup (snap_species_id <$> todo);
  rs_changed : (snap_species_id <$> todo) ⊆ changed;
  rs_rest : ∀ u, u ∉ snap_species_id <$> todo →
    if bool_decide (u ∈ changed) then option_Forall2 (moved_on 2) (T !! u) (T' !! u)
    else T' !! u = T !! u }.

Lemma restores_run e ctx d changed T : catalogue_ok T → ∀ todo n v s,
  running ctx d v s → restoring changed T (db_species v) todo →
  (∀ k, k ∈ (ss_tracked s).*1 → ∃ j, j < n ∧ k.1 = ELoaded j) →
  ∃ s' T' evs, restore_snapshots n todo e s = (Ok tt, s') ∧
    running ctx d (set_species v T') s' ∧ restored_from changed T T' ∧
    tracked_events s' = tracked_events s ++ evs ∧ Forall2 announces todo evs ∧
    event_id <$> evs = env_mint e <$> seq n (length todo).
Proof.
  intros HT. induction todo as [|b todo IH]; intros n v s Hr Hto Hkeys.
  { exists s, (db_species v), []. split_and!; [done|by destruct v| |by rewrite app_nil_r|done|done].
    intros u. by apply (rs_rest _ _ _ _ Hto), not_elem_of_nil. }
  destruct Hto as [Hok Htodo Honce Hin Hrest].
  apply Forall_cons in Htodo as [(m & m' & Hm & -> & Hm' & Hne & Hver) Htodo].
  rewrite fmap_cons, NoDup_cons in Honce. destruct Honce as [Hnot Honce].
  destruct (restore_run n m m' e _ _ _ _ Hr Hok Hm' (HT _ _ Hm) Hne Hver)
    as (s1 & m'' & ev & E1 & Hr1 & Hsame & Hok'' & Ht1 & Heid & Hann).
  { intros Hk. destruct (Hkeys _ Hk) as (j & Hj & [= ->]). lia. }
  destruct (IH (S n) _ _ Hr1) as (s2 & T' & evs & E2 & Hr2 & HT' & Ht2 & Hanns & Heids).
  - rewrite fmap_cons in Hin. split; cbn; [by apply map_Forall_insert_2| |done|set_solver|].
    + apply Forall_forall. intros b Hb. rewrite Forall_forall in Htodo.
      destruct (Htodo b Hb) as (m1 & m2 & H1 & -> & H2 & H3). exists m1, m2.
      rewrite lookup_insert_ne; [done|]. intros Heq. apply Hnot. cbn. rewrite Heq.
      by apply (list_elem_of_fmap_2 snap_species_id _ (row_snapshot m1)).
    + intros u Hu. destruct (decide (u = spm_id m)) as [->|Hd].
      * rewrite lookup_insert_eq, Hm, bool_decide_true; [by constructor|].
        apply Hin. by left.
      * rewrite lookup_insert_ne by done. apply Hrest. rewrite fmap_cons. cbn.
        by rewrite not_elem_of_cons.
  - intros k. rewrite Ht1, fmap_app, elem_of_app. intros [Hk|Hk].
    + destruct (Hkeys _ Hk) as (j & ? & ?). exists j. split; [lia|done].
    + apply list_elem_of_singleton in Hk. subst k. exists n. split; [lia|done].
  - exists s2, T', (ev :: evs). cbn [restore_snapshots]. rewrite (tx_bind_Ok _ _ _ _ _ E1).
    split_and!; [done|by destruct v|done| |by constructor|].
    + rewrite Ht2. unfold tracked_events. rewrite Ht1, fmap_app, concat_app. cbn.
      by rewrite <- app_assoc.
    + cbn. by rewrite Heid, Heids.
Qed.

(** *** A step that fails half-way *)

Lemma running_append ev ctx d v s :
  running ctx d v s → event_id ev ∉ ob_event_id <$> db_outbox v →
  ∃ v' s', outbox_append ev s = (Ok tt, s') ∧ running ctx d v' s' ∧
    ss_tracked s' = ss_tracked s ∧ published v' = published v ++ [ev] ∧
    v' = set_outbox v (db_outbox v') ∧
    ob_event_id <$> db_outbox v' = (ob_event_id <$> db_outbox v) ++ [event_id ev].
Proof.
  intros Hr Hnew. destruct (outbox_statement_one ctx ev v Hnew) as (v' & Hv' & Hp & Hset).
  pose proof (outbox_statements_ids _ _ _ _ Hv') as Hids.
  destruct (outbox_append_writes ev s) as (w & Hw & Happ). rewrite (rn_context _ _ _ _ Hr) in Hw.
  rewrite Hw, replay_writes_cons in Hv'. destruct (w v) as [v1|] eqn:E; [|done].
  injection Hv' as ->. destruct (running_execute w _ _ _ _ _ Hr E) as (s' & E' & Hr' & Ht).
  exists v', s'. by rewrite Happ.
Qed.

(** Recording a failure publishes what the tracker still holds as well. *)
Lemma record_failure_stale saga_id name x e ctx d s :
  running ctx d d s → ss_writes s = [] →
  let failure := lifecycle_end (A := unit) saga_id name e (Raise x) (step_history saga_id d) in
  NoDup (event_id <$> failure ++ tracked_events s) →
  (∀ ev, ev ∈ failure ++ tracked_events s → event_id ev ∉ ob_event_id <$> db_outbox d) →
  ∃ d', saga_record_failure saga_id name x e s = (Ok tt, resting ctx d' true) ∧
    published d' = published d ++ failure ++ tracked_events s ∧ d' = set_outbox d (db_outbox d').
Proof.
  intros Hr Hw failure Hnd Hnew. unfold saga_record_failure. subst failure. cbn [lifecycle_end] in *.
  rewrite fmap_app in Hnd. cbn in Hnd. apply NoDup_cons in Hnd as [Hn1 Hnd].
  destruct (running_append (mkEvent (env_mint e 1) (env_now e) (SagaFailed saga_id name x)) _ _ _ _
    Hr) as (v1 & s1 & E1 & Hr1 & Ht1 & Hp1 & Hv1 & Hi1); [apply Hnew; by left|].
  rewrite (tx_bind_Ok _ _ _ _ _ E1), (tx_bind_Ok _ _ _ (step_history saga_id d) s1).
  2: { rewrite <- (rn_base _ _ _ _ Hr1). apply (aside_query (step_history saga_id)).
       by rewrite (rn_base _ _ _ _ Hr1), (rn_view _ _ _ _ Hr1), (rn_replay _ _ _ _ Hr1). }
  assert (∀ s2 v2 fs, running ctx d v2 s2 → ss_tracked s2 = ss_tracked s →
    published v2 = published d ++ fs → v2 = set_outbox d (db_outbox v2) →
    NoDup (event_id <$> tracked_events s) →
    (∀ ev, ev ∈ tracked_events s → event_id ev ∉ ob_event_id <$> db_outbox v2) →
    ∃ d', uow_commit s2 = (Ok tt, resting ctx d' true) ∧
      published d' = published d ++ fs ++ tracked_events s ∧ d' = set_outbox d (db_outbox d'))
    as Hcommit.
  { intros s2 v2 fs Hr2 Ht2 Hp2 Hv2 Hnd2 Hnew2.
    assert (tracked_events s2 = tracked_events s) as Ht by (unfold tracked_events; by rewrite Ht2).
    destruct (running_commit _ _ _ _ Hr2) as (d' & E & Hp & Hd'); [by rewrite Ht..|].
    exists d'. split; [done|]. rewrite Hp, Hp2, Ht, <- app_assoc. split; [done|].
    by rewrite Hd', Hv2. }
  destruct (any_compensated (step_history saga_id d)).
  - cbn in Hnd, Hn1, Hnew. apply NoDup_cons in Hnd as [Hn2 Hnd].
    destruct (running_append (mkEvent (env_mint e 2) (env_now e) (SagaCompensated saga_id name))
      _ _ _ _ Hr1) as (v2 & s2 & E2 & Hr2 & Ht2 & Hp2 & Hv2 & Hi2).
    { rewrite Hi1, not_elem_of_app. split; [apply Hnew; by right; left|]. cbn. set_solver. }
    rewrite (tx_bind_Ok _ _ _ _ _ E2).
    apply (Hcommit s2 v2); [done|congruence| | |done|].
    + by rewrite Hp2, Hp1, <- app_assoc.
    + by rewrite Hv2, Hv1.
    + intros ev Hev. rewrite Hi2, Hi1, !not_elem_of_app.
      pose proof (list_elem_of_fmap_2 event_id _ _ Hev). split; [split|]; [|set_solver..].
      apply Hnew. by do 2 right.
  - cbn in Hnd, Hn1, Hnew.
    apply (Hcommit s1 v1); [done|done|done|done|done|].
    intros ev Hev. rewrite Hi1, not_elem_of_app.
    pose proof (list_elem_of_fmap_2 event_id _ _ Hev). split; [|set_solver].
    apply Hnew. by right.
Qed.

(** Up to its commit the step only stages, also when it raises. *)
Lemma step_tx_frame {C A} (m : tx A) `{!Staging any_write m} (c : C) s :
  stages_to any_write s (step_tx m c s).2.
Proof.
  unfold step_tx. pose proof (staging s) as H. by destruct (m s) as [r s'].
Qed.

Lemma step_bind_frame {C A B} (m : step C A) (f : A → step C B) c s :
  stages_to any_write s (m c s).2 → (∀ a c s, stages_to any_write s (f a c s).2) →
  stages_to any_write s ((m ≫= f) c s).2.
Proof.
  intros Hm Hf. unfold mbind, step_bind. destruct (m c s) as [[[a|x] c'] s']; [|done].
  etrans; [exact Hm|apply Hf].
Qed.

#[export] Instance species_get_staging u : Staging any_write (species_repo_get_for_update u).
Proof. unfold species_repo_get_for_update, species_repo_get. apply _. Qed.
#[export] Instance species_save_staging n species : Staging any_write (species_save_nth n species).
Proof. unfold species_save_nth. apply _. Qed.
#[export] Instance create_from_staging n r now eid : Staging any_write (create_from n r now eid).
Proof. unfold create_from, species_add_nth. apply _. Qed.

Lemma apply_record_frame n r e c s : stages_to any_write s (apply_record n r e c s).2.
Proof.
  unfold apply_record. apply step_bind_frame; [apply step_tx_frame, _|]. intros [species|] c1 s1.
  - apply step_bind_frame; [apply step_tx_frame, _|]. intros [[] species'] c2 s2; [|reflexivity].
    apply step_bind_frame; [apply step_tx_frame, _|]. intros _ c3 s3. reflexivity.
  - apply step_bind_frame; [apply step_tx_frame, _|]. intros created c2 s2. reflexivity.
Qed.

Lemma apply_records_frame rs e : ∀ n c s, stages_to any_write s (apply_records n rs e c s).2.
Proof.
  induction rs as [|r rs IH]; intros n c s; cbn [apply_records]; [reflexivity|].
  apply step_bind_frame; [apply apply_record_frame|]. intros _ c1 s1. apply IH.
Qed.

Lemma apply_step_raises e c ctx d b x c' s :
  ApplySpeciesUpdatesStep_act e c (resting ctx d b) = (Raise x, c', s) →
  ss_base s = d ∧ ss_context s = ctx ∧ ss_others s = id.
Proof.
  unfold ApplySpeciesUpdatesStep_act, step_get, step_tx, mbind, step_bind.
  pose proof (apply_records_frame (sc_fetched c) e 0 c (resting ctx d b)) as Hf.
  destruct (apply_records 0 (sc_fetched c) e c (resting ctx d b)) as [[[u|y] c1] s1].
  - destruct Hf as [Hb _ Hx Ho _]. cbn in Hb, Hx, Ho.
    rewrite (commit_resting s1 ctx d) by done.
    destruct (replay_writes _ d); intros H; [discriminate H|].
    pose proof (f_equal snd H) as E. cbn [snd] in E. by subst s.
  - destruct Hf as [Hb _ Hx Ho _]. intros H. pose proof (f_equal snd H) as E. cbn [snd] in *.
    by subst s.
Qed.

(** ** Theorems *)

(** [C30] A synchronisation that is rolled back leaves the catalogue as it found it.
    Take a catalogue whose rows their mapper accepts, a feed without repetitions, and a run
    of the second step that commits: species created, species changed, species left alone.
    If nobody else has written to the catalogue when its compensation runs, and the
    identifiers of the events it records are new, then the compensation commits too.  Every
    species the run changed has its old values again, under a version two above the one it
    had (one for the change, one for the restoration); every other entry is the very row it
    was, and what the run created is gone; no other table but the outbox is touched; and the
    events published are one [SpeciesUpdated] with the old values and that version per
    restored species, in the order of the updates. *)
Theorem sync_compensation_restores (e e' : Env) (c c' : SpeciesSyncContext)
    (ctx : option MessageContext) (d d1 d2 : Database) (b b1 b2 : bool) :
  catalogue_ok (db_species d) → sc_updated c = [] → sc_created c = [] →
  NoDup (snap_species_id <$> sc_fetched c) →
  ApplySpeciesUpdatesStep_act e c (resting ctx d b) = (Ok tt, c', resting ctx d1 b1) →
  db_species d2 = db_species d1 →
  let minted := env_mint e' <$> seq 0 (length (sc_updated c')) in
  NoDup minted → (∀ i, i ∈ minted → i ∉ ob_event_id <$> db_outbox d2) →
  ∃ d3 evs,
    ApplySpeciesUpdatesStep_compensate e' c' (resting ctx d2 b2) =
      (Ok tt, set_sync (sc_fetched c) [] [] c', resting ctx d3 true) ∧
    restored_from (snap_species_id <$> sc_updated c') (db_species d) (db_species d3) ∧
    d3 = set_outbox (set_species d2 (db_species d3)) (db_outbox d3) ∧
    published d3 = published d2 ++ evs ∧ Forall2 announces (sc_updated c') evs.
Proof.
  intros Hok Hu Hc Hnd Hact Hsame minted Hfresh Hnew.
  apply apply_step_run in Hact as (d1' & read & Hd1 & Hap & Hf); [|done..].
  assert (db_species d2 = db_species d1') as Hd2.
  { rewrite Hsame. exact (f_equal (λ s, db_species (ss_base s)) Hd1). }
  clear Hd1. destruct Hap as [Hok' Hrest Hcr Hup Honce _]. apply NoDup_app in Honce as (_ & Hsep & Hon).
  destruct (species_deletes_run (sc_created c') ctx d2 _ _ (running_resting ctx d2 b2))
    as (T & s1 & E1 & Hr1 & Ht1 & HT & Hlook); [by rewrite Hd2|]. rewrite Hd2 in Hlook.
  destruct (restores_run e' ctx d2 (snap_species_id <$> sc_updated c') (db_species d) Hok (sc_updated c') 0 _ _ Hr1)
    as (s2 & T' & evs & E2 & Hr2 & HT' & Ht2 & Hanns & Heids).
  - split; [done| |done|done|].
    + apply Forall_forall. intros bb Hb. rewrite Forall_forall in Hup.
      destruct (Hup bb Hb) as (m & m' & H1 & -> & H2 & H3 & H4). exists m, m'. split_and!; try done.
      cbn. rewrite Hlook, bool_decide_false; [done|]. intros Hin. apply (Hsep _ Hin).
      by apply (list_elem_of_fmap_2 snap_species_id _ (row_snapshot m)).
    + intros u Hnot. rewrite (bool_decide_false _ Hnot). cbn. rewrite Hlook. case_bool_decide as Hin.
      * symmetry. by apply Hcr.
      * by apply Hrest.
  - intros k. rewrite Ht1. intros Hin. by apply not_elem_of_nil in Hin.
  - unfold tracked_events in Ht2. rewrite Ht1 in Ht2. cbn in Ht2.
    destruct (running_commit _ _ _ _ Hr2) as (d3 & E3 & Hp3 & Hd3).
    + unfold tracked_events. rewrite Ht2, Heids. done.
    + intros ev Hev. cbn. apply Hnew. unfold minted. rewrite <- Heids.
      apply list_elem_of_fmap_2. unfold tracked_events in Hev. by rewrite Ht2 in Hev.
    + exists d3, evs. split_and!; [|by rewrite Hd3|by rewrite Hd3| |done].
      * unfold ApplySpeciesUpdatesStep_compensate, step_get, step_tx, step_put, mbind, step_bind.
        rewrite E1, E2, E3, Hf. done.
      * rewrite Hp3. unfold tracked_events. by rewrite Ht2.
Qed.

(** A synchronisation that fails half-way announces changes it did not make.  When
    the second step raises — whatever the reason — the engine logs the failure and its next
    checkpoint rolls the transaction back, so the catalogue is as it was; but the tracker
    keeps the events of the records the step had already applied, and the commit that
    records the failure publishes them right after [SagaFailed]. *)
Theorem failed_sync_announces_changes (e e' : Env) (c c' : SpeciesSyncContext) (x : exn)
    (ctx : option MessageContext) (d : Database) (b : bool) (s : Session) (saga_id : uuid)
    (name : string) (details : option string) (now : datetime) :
  ApplySpeciesUpdatesStep_act e c (resting ctx d b) = (Raise x, c', s) →
  let changes := tracked_events s in
  let failure := lifecycle_end (A := unit) saga_id name e' (Raise x) (step_history saga_id d) in
  NoDup (event_id <$> failure ++ changes) →
  (∀ ev, ev ∈ failure ++ changes → event_id ev ∉ ob_event_id <$> db_outbox d) →
  ∃ d', (_ ← run_log_step saga_id "ApplySpeciesUpdatesStep" Act StepFailed details now;
         _ ← run_commit;
         step_tx (saga_record_failure saga_id name x e')) false s =
      (Ok tt, false, resting ctx d' true) ∧
    published d' = published d ++ failure ++ changes ∧ d' = set_outbox d (db_outbox d').
Proof.
  intros Hact changes failure Hnd Hnew.
  apply apply_step_raises in Hact as (Hb & Hx & Ho).
  set (s1 := mkSession d d [] false (stale_tracked (ss_tracked s)) false ctx id).
  assert (tracked_events s1 = tracked_events s) as Ht.
  { unfold tracked_events, s1. cbn [ss_tracked]. destruct (ss_tracked s); [done|]. cbn.
    by rewrite app_nil_r. }
  destruct (record_failure_stale saga_id name x e' ctx d s1) as (d' & E & Hp & Hd');
    [done|done|by rewrite Ht..|].
  exists d'. split; [|by rewrite Hp, Ht]. unfold run_log_step, run_commit.
  pose proof (execute_writes (insert_log saga_id "ApplySpeciesUpdatesStep" Act StepFailed details now)
    s) as (Hok & _ & Hb' & Hx' & Ho' & _ & Ht').
  unfold log_step, step_get, step_put, step_tx, mbind, step_bind.
  change (bool_decide (Act = Act) && bool_decide (StepFailed = StepFailed)) with true.
  cbv beta iota. destruct (execute _ s) as [r s2]. cbn [fst snd] in *. subst r.
  unfold uow_rollback. cbv beta iota. rewrite Hb', Hx', Ho', Ht', Hb, Hx, Ho. fold s1.
  by rewrite E.
Qed.

(** ** A feed that changes one species and adds another *)

Definition demo_feed : list SpeciesSnapshot :=
  [mkSpeciesSnapshot 9 "Ficus lyrata" "Fiddle fig" (days 5) "high" 0;
   mkSpeciesSnapshot 12 "Monstera deliciosa" "Monstera" (days 7) "medium" 0].
Definition demo_sync (feed : list SpeciesSnapshot) : SpeciesSyncContext :=
  mkSpeciesSyncContext 1 0 2 feed [] [].
Definition demo_apply (feed : list SpeciesSnapshot) : result unit * SpeciesSyncContext * Session :=
  ApplySpeciesUpdatesStep_act (demo_env 5) (demo_sync feed) (resting None demo_catalogue false).
Definition demo_synced (feed : list SpeciesSnapshot) : Database := ss_base (demo_apply feed).2.
Definition demo_rolled_back (feed : list SpeciesSnapshot) : Database :=
  ss_base (ApplySpeciesUpdatesStep_compensate (demo_env 9) (demo_apply feed).1.2
    (demo_apply feed).2).2.

Lemma demo_catalogue_ok : catalogue_ok (db_species demo_catalogue).
Proof.
  unfold demo_catalogue. cbn. apply map_Forall_singleton. split; [reflexivity|].
  eexists. split; reflexivity.
Qed.

Lemma sync_compensation_restores_witness :
  (demo_apply demo_feed).1.1 = Ok tt ∧
  (∃ d3 evs, ApplySpeciesUpdatesStep_compensate (demo_env 9) (demo_apply demo_feed).1.2
      (resting None (demo_synced demo_feed) true) =
      (Ok tt, set_sync demo_feed [] [] (demo_apply demo_feed).1.2, resting None d3 true) ∧
    restored_from [9%N] (db_species demo_catalogue) (db_species d3) ∧
    published d3 = published (demo_synced demo_feed) ++ evs ∧ length evs = 1).
Proof.
  split; [reflexivity|].
  destruct (sync_compensation_restores (demo_env 5) (demo_env 9) (demo_sync demo_feed)
    (demo_apply demo_feed).1.2 None demo_catalogue (demo_synced demo_feed)
    (demo_synced demo_feed) false true true) as (d3 & evs & E & Hs & _ & Hp & Hf).
  - exact demo_catalogue_ok.
  - reflexivity.
  - reflexivity.
  - apply (bool_decide_unpack _). vm_compute. exact I.
  - vm_compute. reflexivity.
  - reflexivity.
  - apply (bool_decide_unpack _). vm_compute. exact I.
  - intros i Hi. assert (i = 190%N) as ->.
    { revert Hi. vm_compute. intros Hi. by apply list_elem_of_singleton in Hi. }
    apply (bool_decide_unpack _). vm_compute. exact I.
  - exists d3, evs. split; [exact E|]. split; [exact Hs|]. split; [exact Hp|].
    apply Forall2_length in Hf. rewrite <- Hf. vm_compute. reflexivity.
Defined.

(** A feed that holds a species twice is not rolled back: the image of the second update
    is restored last, and it is what the first update wrote. *)
Lemma repeated_feed_not_restored :
  let feed := [mkSpeciesSnapshot 9 "Ficus lyrata" "Fig" (days 5) "high" 0;
    mkSpeciesSnapshot 9 "Ficus lyrata" "Fiddle fig" (days 5) "high" 0] in
  (demo_apply feed).1.1 = Ok tt ∧
  ¬ same_catalogue (db_species demo_catalogue) (db_species (demo_rolled_back feed)).
Proof.
  split; [vm_compute; reflexivity|]. intros H. specialize (H 9%N).
  assert (db_species (demo_rolled_back [mkSpeciesSnapshot 9 "Ficus lyrata" "Fig" (days 5) "high" 0;
    mkSpeciesSnapshot 9 "Ficus lyrata" "Fiddle fig" (days 5) "high" 0]) !! 9%N =
    Some (mkSpeciesModel 9 "Ficus lyrata" "Fig" (days 5) "high" 5)) as E
    by (vm_compute; reflexivity).
  assert (db_species demo_catalogue !! 9%N = Some demo_species) as E0 by reflexivity.
  rewrite E0, E in H. inversion H as [? ? (_ & _ & Hn & _)|]. discriminate Hn.
Qed.

(** The second record of this feed has a blank name. *)
Definition demo_broken_feed : list SpeciesSnapshot :=
  [mkSpeciesSnapshot 9 "Ficus lyrata" "Fiddle fig" (days 5) "high" 0;
   mkSpeciesSnapshot 12 "Monstera deliciosa" " " (days 7) "medium" 0].

Lemma failed_sync_announces_changes_witness :
  (demo_apply demo_broken_feed).1.1 = Raise SpeciesNameEmptyError ∧
  ∃ d', (_ ← run_log_step 1 "ApplySpeciesUpdatesStep" Act StepFailed None (demo_at 6);
         _ ← run_commit;
         step_tx (saga_record_failure 1 "SpeciesSyncSaga" SpeciesNameEmptyError (demo_env 7)))
        false (demo_apply demo_broken_feed).2 = (Ok tt, false, resting None d' true) ∧
    body <$> published d' = [SagaFailed 1 "SpeciesSyncSaga" SpeciesNameEmptyError;
      SpeciesUpdated (Uuid 9) "Ficus lyrata" "Fiddle fig" (MkCareInterval (days 5)) HIGH 2] ∧
    db_species d' !! 9%N = Some demo_species.
Proof.
  split; [vm_compute; reflexivity|].
  destruct (failed_sync_announces_changes (demo_env 5) (demo_env 7) (demo_sync demo_broken_feed)
    (demo_apply demo_broken_feed).1.2 SpeciesNameEmptyError None demo_catalogue false
    (demo_apply demo_broken_feed).2 1 "SpeciesSyncSaga" None (demo_at 6)) as (d' & E & Hp & Hd').
  - vm_compute. reflexivity.
  - apply (bool_decide_unpack _). vm_compute. exact I.
  - intros ev _. apply not_elem_of_nil.
  - exists d'. split; [exact E|]. split; [rewrite Hp; vm_compute; reflexivity|].
    rewrite Hd'. reflexivity.
Defined.
