(* ===== verification/SagaRecovery.v ===== *)
(** The job that brings back processes a crash or a failure left behind
    ([infrastructure/scheduling/saga_recovery.py]): what one tick selects, when a failed
    process is retried and when it is parked.

    The engine that resumes a process ([cqrs.saga.recovery]) is a parameter: a computation
    over the session of the request scope the job opens for the process. *)

From S2P Require Import Prelude Domain Topics Rows SagaRows Database UnitOfWork Repositories.
From S2P Require Import Commands SagaIntents SagaDispatch Onboarding SagaStorage SagaBase.
From stdpp Require Import pretty.

(** ** One process *)

Definition PARK_MARGIN : Z := 1.
Definition RECOVERY_BATCH_SIZE : nat := 50.

Record RecoverySettings := mkRecoverySettings {
  rc_max_attempts : Z;
  rc_stale_after : timedelta }.

Definition park_error (cfg : RecoverySettings) : string :=
  ("recovery budget of " +:+ pretty (rc_max_attempts cfg) +:+ " spent")%string.

(** [_park]: the counter first, by the storage, then the announcement, by the unit of work. *)
Definition park (cfg : RecoverySettings) (name : string) (saga_id : uuid) (attempts : Z)
    (e : Env) : tx unit :=
  _ ← aside (set_recovery_attempts saga_id (attempts + PARK_MARGIN) (env_now e));
  _ ← outbox_append (mkEvent (env_mint e 0) (env_now e)
        (SagaParked saga_id name attempts (park_error cfg)));
  uow_commit.

(** [_announce_retry]. *)
Definition announce_retry (name : string) (saga_id : uuid) (attempt : Z) (error : string)
    (e : Env) : tx unit :=
  _ ← outbox_append (mkEvent (env_mint e 0) (env_now e)
        (SagaRetrying saga_id name (attempt + 1) error));
  uow_commit.

(** [_prepare_retry]. *)
Definition prepare_retry (cfg : RecoverySettings) (name : string) (saga_id : uuid) (e : Env) :
    tx bool :=
  status ← existing_status saga_id;
  if bool_decide (status = Some SagaFailing) then
    state ← saga_states_get saga_id;
    let attempts := match state with Some st => ste_recovery_attempts st | None => 0%Z end in
    if bool_decide (rc_max_attempts cfg ≤ attempts)%Z then
      _ ← park cfg name saga_id attempts e; mret false
    else
      _ ← announce_retry name saga_id attempts "the recorded failure is being retried" e;
      _ ← aside (update_status saga_id SagaRunning (env_now e));
      mret true
  else mret true.

(** [_recover_one]: in a request scope of its own; whatever the engine raises is logged. *)
Definition recover_one (cfg : RecoverySettings) (engine : string → uuid → tx unit)
    (name : string) (saga_id : uuid) (e : Env) (d : Database) : result bool * Database :=
  run_request (ready ← prepare_retry cfg name saga_id e;
    if (ready : bool) then
      tx_except (_ ← engine name saga_id; mret true) (λ _, true) (λ _, mret false)
    else mret false) d.

(** ** One tick *)

Definition SAGA_TYPES : list string := ["OnboardPlantSaga"; "SpeciesSyncSaga"]%string.

Definition selected (cfg : RecoverySettings) (name : string) (now : datetime) (d : Database) :
    list uuid :=
  sagas_for_recovery RECOVERY_BATCH_SIZE (rc_max_attempts cfg + PARK_MARGIN)
    (Some (now - rc_stale_after cfg)%Z) (Some name) d.

Fixpoint recover_all (cfg : RecoverySettings) (engine : string → uuid → tx unit)
    (name : string) (ids : list uuid) (env : nat → Env) (d : Database) : result nat * Database :=
  match ids with
  | [] => (Ok 0, d)
  | i :: ids =>
      match recover_one cfg engine name i (env 0) d with
      | (Raise x, d1) => (Raise x, d1)
      | (Ok got_further, d1) =>
          match recover_all cfg engine name ids (λ n, env (S n)) d1 with
          | (Ok n, d2) => (Ok ((if got_further then 1 else 0) + n), d2)
          | r => r
          end
      end
  end.

(** [run_once]; [nows] and [env] are the clock readings of the queries and of the processes. *)
Fixpoint recovery_run_once (cfg : RecoverySettings) (engine : string → uuid → tx unit)
    (names : list string) (nows : nat → datetime) (env : nat → nat → Env) (d : Database) :
    result nat * Database :=
  match names with
  | [] => (Ok 0, d)
  | name :: names =>
      match recover_all cfg engine name (selected cfg name (nows 0) d) (env 0) d with
      | (Raise x, d1) => (Raise x, d1)
      | (Ok n, d1) =>
          match recovery_run_once cfg engine names (λ k, nows (S k)) (λ k, env (S k)) d1 with
          | (Ok n', d2) => (Ok (n + n'), d2)
          | r => r
          end
      end
  end.

(** An operator's reset. *)
Definition operator_reset (saga_id : uuid) (now : datetime) (d : Database) : result unit * Database :=
  own_session (reset_for_retry saga_id now) d.

(** ** Lemmas *)

Lemma aside_resting {A} (m : tx A) ctx d b :
  aside m (resting ctx d b) = let '(r, d') := own_session m d in (r, resting ctx d' b).
Proof. unfold aside. cbn [ss_base ss_writes resting]. by destruct (own_session m d). Qed.

Lemma aside_update saga_id f ctx d b m :
  db_saga_states d !! saga_id = Some m →
  aside (found ← update_returning saga_id f; raise_if_none found) (resting ctx d b) =
  (Ok tt, resting ctx (set_saga_states d (<[saga_id := f m]> (db_saga_states d))) b).
Proof.
  intros Hm. rewrite aside_resting, update_alone, Hm. do 3 f_equal.
  apply map_eq. intros u. destruct (decide (u = saga_id)) as [->|Hne].
  - by rewrite lookup_alter_eq, lookup_insert_eq, Hm.
  - by rewrite lookup_alter_ne, lookup_insert_ne by done.
Qed.

Definition retrying_event (name : string) (saga_id : uuid) (attempt : Z) (e : Env) : DomainEvent :=
  mkEvent (env_mint e 0) (env_now e)
    (SagaRetrying saga_id name attempt "the recorded failure is being retried").
Definition parked_event (cfg : RecoverySettings) (name : string) (saga_id : uuid) (attempts : Z)
    (e : Env) : DomainEvent :=
  mkEvent (env_mint e 0) (env_now e) (SagaParked saga_id name attempts (park_error cfg)).

(** The row after a park and the row after a retry was prepared. *)
Definition parked_state (m : SagaStateModel) (e : Env) : SagaStateModel :=
  saga_row (sgm_status m) (sgm_context m) (sgm_recovery_attempts m + PARK_MARGIN) (env_now e) m.
Definition retried_state (m : SagaStateModel) (e : Env) : SagaStateModel :=
  saga_row SagaRunning (sgm_context m) (sgm_recovery_attempts m) (env_now e) m.

Definition with_state (saga_id : uuid) (m : SagaStateModel) (d : Database) : Database :=
  set_saga_states d (<[saga_id := m]> (db_saga_states d)).

(** A failed process at the start of its preparation: the status and the attempts read. *)
Lemma prepare_failed cfg name saga_id e d m :
  db_saga_states d !! saga_id = Some m → sgm_status m = SagaFailing →
  prepare_retry cfg name saga_id e (resting None d false) =
  (if bool_decide (rc_max_attempts cfg ≤ sgm_recovery_attempts m)%Z then
      _ ← park cfg name saga_id (sgm_recovery_attempts m) e; mret false
    else
      _ ← announce_retry name saga_id (sgm_recovery_attempts m)
            "the recorded failure is being retried" e;
      _ ← aside (update_status saga_id SagaRunning (env_now e));
      mret true) (resting None d false).
Proof.
  intros Hm Hst. unfold prepare_retry.
  rewrite (tx_bind_Ok _ _ _ _ _ (existing_status_run saga_id None d false)), Hm. cbn [fmap option_fmap option_map].
  rewrite Hst, bool_decide_true by done.
  rewrite (tx_bind_Ok _ _ _ (Some (saga_state_to_domain m)) (resting None d false)).
  2: { unfold saga_states_get, query. cbn. by rewrite Hm. }
  reflexivity.
Qed.

Lemma prepare_parks cfg name saga_id e d m :
  db_saga_states d !! saga_id = Some m → sgm_status m = SagaFailing →
  (rc_max_attempts cfg ≤ sgm_recovery_attempts m)%Z →
  env_mint e 0 ∉ ob_event_id <$> db_outbox d →
  ∃ d', prepare_retry cfg name saga_id e (resting None d false) =
      (Ok false, resting None d' true) ∧
    published d' = published d ++ [parked_event cfg name saga_id (sgm_recovery_attempts m) e] ∧
    ob_event_id <$> db_outbox d' = (ob_event_id <$> db_outbox d) ++ [env_mint e 0] ∧
    d' = set_outbox (with_state saga_id (parked_state m e) d) (db_outbox d').
Proof.
  intros Hm Hst Hmax Hnew. rewrite (prepare_failed _ _ _ _ _ m), bool_decide_true by done.
  unfold park, set_recovery_attempts.
  pose proof (aside_update saga_id (λ m', saga_row (sgm_status m') (sgm_context m')
    (sgm_recovery_attempts m + PARK_MARGIN) (env_now e) m') None d false m Hm) as E.
  fold (parked_state m e) in E. fold (with_state saga_id (parked_state m e) d) in E.
  destruct (append_and_commit (parked_event cfg name saga_id (sgm_recovery_attempts m) e) None
    (with_state saga_id (parked_state m e) d) false Hnew) as (d' & E' & Hp & Hd').
  exists d'. split; [|split; [exact Hp|split; [|exact Hd']]].
  - erewrite tx_bind_Ok; [reflexivity|]. by rewrite (tx_bind_Ok _ _ _ _ _ E).
  - by apply append_and_commit_ids in E'.
Qed.

Lemma prepare_retries cfg name saga_id e d m :
  db_saga_states d !! saga_id = Some m → sgm_status m = SagaFailing →
  (sgm_recovery_attempts m < rc_max_attempts cfg)%Z →
  env_mint e 0 ∉ ob_event_id <$> db_outbox d →
  ∃ d', prepare_retry cfg name saga_id e (resting None d false) =
      (Ok true, resting None d' true) ∧
    published d' = published d ++ [retrying_event name saga_id (sgm_recovery_attempts m + 1) e] ∧
    ob_event_id <$> db_outbox d' = (ob_event_id <$> db_outbox d) ++ [env_mint e 0] ∧
    d' = set_outbox (with_state saga_id (retried_state m e) d) (db_outbox d').
Proof.
  intros Hm Hst Hmax Hnew. rewrite (prepare_failed _ _ _ _ _ m), bool_decide_false by (done || lia).
  destruct (append_and_commit (retrying_event name saga_id (sgm_recovery_attempts m + 1) e) None d
    false Hnew) as (d1 & E1 & Hp & Hd1).
  assert (db_saga_states d1 !! saga_id = Some m) as Hm1 by (by rewrite Hd1).
  pose proof (aside_update saga_id (λ m', saga_row SagaRunning (sgm_context m')
    (sgm_recovery_attempts m') (env_now e) m') None d1 true m Hm1) as E2.
  fold (retried_state m e) in E2. fold (with_state saga_id (retried_state m e) d1) in E2.
  exists (with_state saga_id (retried_state m e) d1).
  split; [|split; [exact Hp|split; [by apply append_and_commit_ids in E1|by rewrite Hd1]]].
  unfold announce_retry. unfold retrying_event in E1. rewrite (tx_bind_Ok _ _ _ _ _ E1).
  unfold update_status. by rewrite (tx_bind_Ok _ _ _ _ _ E2).
Qed.

Lemma recover_one_run cfg engine name saga_id e d ready d1 b1 :
  prepare_retry cfg name saga_id e (resting None d false) = (Ok ready, resting None d1 b1) →
  recover_one cfg engine name saga_id e d =
  if (ready : bool) then
    (Ok (match (engine name saga_id (resting None d1 b1)).1 with Ok _ => true | Raise _ => false end),
     ss_base (engine name saga_id (resting None d1 b1)).2)
  else (Ok false, d1).
Proof.
  intros E. unfold recover_one, run_request. change (open_session d None id) with (resting None d false).
  rewrite (tx_bind_Ok _ _ _ _ _ E). destruct ready; [|done].
  unfold tx_except, mbind, tx_bind. by destruct (engine name saga_id (resting None d1 b1)) as [[[]|x] s].
Qed.

Definition saga_rows_keyed (d : Database) : Prop :=
  map_Forall (λ k m, sgm_id m = k) (db_saga_states d).

(** What the query returns are identifiers of rows that pass its test. *)
Lemma selected_recoverable cfg name now d saga_id :
  saga_rows_keyed d → saga_id ∈ selected cfg name now d →
  ∃ m, db_saga_states d !! saga_id = Some m ∧
    recoverable (rc_max_attempts cfg + PARK_MARGIN) (Some (now - rc_stale_after cfg)%Z) (Some name) m
      = true.
Proof.
  intros Hk (m & -> & Hm)%list_elem_of_fmap.
  apply elem_of_take in Hm as (i & Hm & _). apply list_elem_of_lookup_2 in Hm.
  apply elem_of_select_rows in Hm as (Hrec & k & Hk'). exists m.
  by rewrite (Hk _ _ Hk').
Qed.

Lemma spent_not_selected cfg name now d saga_id m :
  saga_rows_keyed d → db_saga_states d !! saga_id = Some m →
  (rc_max_attempts cfg < sgm_recovery_attempts m)%Z → saga_id ∉ selected cfg name now d.
Proof.
  intros Hk Hm Hmax (m' & Hm' & Hrec)%selected_recoverable; [|done].
  rewrite Hm in Hm'. injection Hm' as <-. unfold recoverable in Hrec.
  rewrite (bool_decide_false (sgm_recovery_attempts m < _)%Z) in Hrec by (unfold PARK_MARGIN; lia).
  by rewrite andb_false_r in Hrec.
Qed.

(** ** Theorems *)

(** What a tick does to a process that recorded a failure.  Within its budget the
    retry is announced with its number, the status is cleared, and the engine runs on
    exactly that; its answer says whether it got through.  With the budget spent the
    engine does not run, whatever it is: one [SagaParked] is published, the counter moves
    past what the query asks for, and no later tick selects the process. *)
Theorem failed_process_retried_or_parked (cfg : RecoverySettings)
    (engine : string → uuid → tx unit) (name : string) (saga_id : uuid) (e : Env) (d : Database)
    (m : SagaStateModel) :
  db_saga_states d !! saga_id = Some m → sgm_status m = SagaFailing →
  saga_rows_keyed d → env_mint e 0 ∉ ob_event_id <$> db_outbox d →
  if decide (sgm_recovery_attempts m < rc_max_attempts cfg)%Z then
    ∃ d1, published d1 = published d ++ [retrying_event name saga_id (sgm_recovery_attempts m + 1) e] ∧
      d1 = set_outbox (with_state saga_id (retried_state m e) d) (db_outbox d1) ∧
      recover_one cfg engine name saga_id e d =
        (Ok (match (engine name saga_id (resting None d1 true)).1 with
             | Ok _ => true | Raise _ => false end),
         ss_base (engine name saga_id (resting None d1 true)).2)
  else
    ∃ d1, recover_one cfg engine name saga_id e d = (Ok false, d1) ∧
      published d1 = published d ++ [parked_event cfg name saga_id (sgm_recovery_attempts m) e] ∧
      d1 = set_outbox (with_state saga_id (parked_state m e) d) (db_outbox d1) ∧
      ∀ name' now, saga_id ∉ selected cfg name' now d1.
Proof.
  intros Hm Hst Hk Hnew. case_decide as Hmax.
  - destruct (prepare_retries cfg name saga_id e d m Hm Hst Hmax Hnew) as (d1 & E & Hp & _ & Hd1).
    exists d1. split; [done|]. split; [done|]. by rewrite (recover_one_run _ _ _ _ _ _ _ _ _ E).
  - destruct (prepare_parks cfg name saga_id e d m) as (d1 & E & Hp & _ & Hd1); [done..|lia|done|].
    exists d1. split; [by rewrite (recover_one_run _ _ _ _ _ _ _ _ _ E)|].
    split; [done|]. split; [done|]. intros name' now.
    apply (spent_not_selected _ _ _ _ _ (parked_state m e)).
    + rewrite Hd1. apply map_Forall_insert_2; [|done]. cbn. by apply Hk in Hm.
    + rewrite Hd1. cbn. by rewrite lookup_insert_eq.
    + cbn. unfold PARK_MARGIN. lia.
Qed.

Lemma storage_runs_keyed calls : ∀ d, saga_rows_keyed d → saga_rows_keyed (storage_runs calls d).
Proof.
  induction calls as [|[c now] calls IH]; intros d Hk; [done|]. apply IH.
  unfold saga_rows_keyed in *. destruct (call_states_step c now d) as [|u m Hnone Hid|u f Hf].
  - done.
  - by apply map_Forall_insert_2.
  - intros k m Hm. destruct (decide (u = k)) as [->|Hne].
    + rewrite lookup_alter_eq in Hm. apply fmap_Some in Hm as (m0 & Hm0 & ->).
      destruct (Hf m0) as (? & ? & ? & -> & _). by apply Hk in Hm0.
    + rewrite lookup_alter_ne in Hm by done. by apply Hk.
Qed.

Lemma storage_runs_spent calls u : ∀ d m,
  forallb (λ c, leaves_counter u c.1) calls = true → db_saga_states d !! u = Some m →
  ∃ m', db_saga_states (storage_runs calls d) !! u = Some m' ∧
    (sgm_recovery_attempts m ≤ sgm_recovery_attempts m')%Z.
Proof.
  induction calls as [|[c now] calls IH]; intros d m Hc Hm; [by exists m|].
  cbn in Hc. apply andb_true_iff in Hc as [Hc Hcs].
  destruct (states_step_row _ _ _ _ u m (call_states_step c now d) Hm) as (m1 & Hm1 & _ & Hn).
  destruct (IH _ _ Hcs Hm1) as (m2 & Hm2 & Hn2). exists m2. split; [exact Hm2|].
  specialize (Hn Hc). lia.
Qed.

(** Parked means parked.  Whatever else is written to the stored executions, a
    process whose counter is past the budget is selected by no tick, until its counter is
    touched on purpose; an operator's reset makes it runnable again, with its whole
    budget, once it has been untouched for the stale interval. *)
Theorem parked_until_reset (cfg : RecoverySettings) (saga_id : uuid) (d : Database)
    (m : SagaStateModel) (calls : list (storage_call * datetime)) (at_ : datetime) :
  saga_rows_keyed d → db_saga_states d !! saga_id = Some m →
  (rc_max_attempts cfg < sgm_recovery_attempts m)%Z → (0 ≤ rc_max_attempts cfg)%Z →
  forallb (λ c, leaves_counter saga_id c.1) calls = true →
  let d1 := storage_runs calls d in
  (∀ name now, saga_id ∉ selected cfg name now d1) ∧
  ∃ d2 m2, operator_reset saga_id at_ d1 = (Ok tt, d2) ∧ db_saga_states d2 !! saga_id = Some m2 ∧
    sgm_status m2 = SagaRunning ∧ sgm_recovery_attempts m2 = 0%Z ∧
    ∀ now, (at_ + rc_stale_after cfg < now)%Z →
      recoverable (rc_max_attempts cfg + PARK_MARGIN) (Some (now - rc_stale_after cfg)%Z)
        (Some (sgm_name m2)) m2 = true.
Proof.
  intros Hk Hm Hmax Hpos Hc d1.
  destruct (storage_runs_spent calls saga_id d m Hc Hm) as (m1 & Hm1 & Hn). split.
  - intros name now. apply (spent_not_selected _ _ _ _ _ m1); [by apply storage_runs_keyed|done|lia].
  - unfold operator_reset, reset_for_retry, d1. rewrite update_alone, Hm1. do 2 eexists.
    split; [done|]. cbn [db_saga_states set_saga_states].
    rewrite lookup_alter_eq, Hm1. do 3 (split; [done|]).
    intros now Hnow. unfold recoverable. cbn. unfold PARK_MARGIN.
    rewrite !bool_decide_true by first [lia|done|set_solver]. done.
Qed.

(** *** One process, tick after tick *)

(** A tick of the job: the engine it calls, what its clocks read, and by when the engine has
    recorded a failure, if it does. *)
Record recovery_tick := mkRecoveryTick {
  tk_engine : string → uuid → tx unit;
  tk_nows : nat → datetime;
  tk_env : nat → nat → Env;
  tk_done : datetime }.

Definition run_tick (cfg : RecoverySettings) (d : Database) (t : recovery_tick) : Database :=
  (recovery_run_once cfg (tk_engine t) SAGA_TYPES (tk_nows t) (tk_env t) d).2.
Definition recovery_ticks (cfg : RecoverySettings) (ticks : list recovery_tick) (d : Database) :
    Database := foldl (run_tick cfg) d ticks.

(** The events of the job about one process, among those published. *)
Definition is_recovery_event (saga_id : uuid) (b : event_body) : bool :=
  match b with
  | SagaRetrying i _ _ _ | SagaParked i _ _ _ => bool_decide (i = saga_id)
  | _ => false
  end.
Definition recovery_events (saga_id : uuid) (d : Database) : list event_body :=
  filter (λ b, is_recovery_event saga_id b = true) (body <$> published d).

(** The engine fails on the process: it raises and leaves the failure counted by [tk_done].
    It may publish what it likes, but not in the job's name nor under its identifiers. *)
Definition engine_fails (name : string) (saga_id : uuid) (minted : list uuid)
    (t : recovery_tick) : Prop :=
  ∀ d b m, saga_rows_keyed d → db_saga_states d !! saga_id = Some m → sgm_status m = SagaRunning →
    ∃ x s m' rows, tk_engine t name saga_id (resting None d b) = (Raise x, s) ∧
      db_saga_states (ss_base s) = <[saga_id := m']> (db_saga_states d) ∧
      db_outbox (ss_base s) = db_outbox d ++ rows ∧
      Forall (λ r, is_recovery_event saga_id (body (ob_payload r)) = false ∧
        ob_event_id r ∉ minted) rows ∧
      sgm_id m' = saga_id ∧ sgm_name m' = sgm_name m ∧ sgm_status m' = SagaFailing ∧
      sgm_recovery_attempts m' = (sgm_recovery_attempts m + 1)%Z ∧
      (sgm_updated_at m' ≤ tk_done t)%Z.

(** A tick begins later than the stale interval after what the one before it recorded. *)
Fixpoint spaced (cfg : RecoverySettings) (since : datetime) (ticks : list recovery_tick) : Prop :=
  match ticks with
  | [] => True
  | t :: ticks =>
      (∀ j, (since + rc_stale_after cfg < tk_nows t j)%Z) ∧ spaced cfg (tk_done t) ticks
  end.

(** Every other process is finished or parked. *)
Definition alone (cfg : RecoverySettings) (saga_id : uuid) (d : Database) : Prop :=
  ∀ u m, db_saga_states d !! u = Some m → u ≠ saga_id →
    sgm_status m ∉ CRASHED_STATUSES ++ RETRYABLE_STATUSES ∨
    (rc_max_attempts cfg < sgm_recovery_attempts m)%Z.

Lemma alone_insert cfg saga_id m d d' :
  alone cfg saga_id d → db_saga_states d' = <[saga_id := m]> (db_saga_states d) →
  alone cfg saga_id d'.
Proof. intros H E u m' Hu Hne. rewrite E, lookup_insert_ne in Hu by done. by eapply H. Qed.

Lemma keyed_insert saga_id m d d' :
  saga_rows_keyed d → sgm_id m = saga_id → db_saga_states d' = <[saga_id := m]> (db_saga_states d) →
  saga_rows_keyed d'.
Proof. intros Hk Hm E. unfold saga_rows_keyed. rewrite E. by apply map_Forall_insert_2. Qed.

Lemma out_of_reach_unrecoverable cfg stale name m :
  sgm_status m ∉ CRASHED_STATUSES ++ RETRYABLE_STATUSES ∨
    (rc_max_attempts cfg < sgm_recovery_attempts m)%Z →
  recoverable (rc_max_attempts cfg + PARK_MARGIN) stale name m = false.
Proof.
  unfold recoverable, PARK_MARGIN. intros [H|H].
  - by rewrite (bool_decide_false (_ ∈ _)).
  - by rewrite (bool_decide_false (_ < _)%Z), andb_false_r by lia.
Qed.

(** What the query returns then: the process, if it is due. *)
Lemma selected_alone cfg name now d saga_id m :
  saga_rows_keyed d → db_saga_states d !! saga_id = Some m → alone cfg saga_id d →
  selected cfg name now d =
  if recoverable (rc_max_attempts cfg + PARK_MARGIN) (Some (now - rc_stale_after cfg)%Z) (Some name) m
  then [saga_id] else [].
Proof.
  intros Hk Hm Halone. unfold selected, sagas_for_recovery, select_rows.
  set (P := recoverable _ _ _). set (order := λ a b : SagaStateModel, lex_le _ _).
  assert (filter (λ v, P v = true) (map_to_list (db_saga_states d)).*2 ≡ₚ
    if P m then [m] else []) as Hp.
  { rewrite <- (insert_delete_id _ _ _ Hm) at 1. rewrite map_to_list_insert by apply lookup_delete_eq.
    rewrite fmap_cons, filter_cons. cbn [snd].
    assert (filter (λ v, P v = true) (map_to_list (delete saga_id (db_saga_states d))).*2 = []) as ->.
    { apply filter_none, Forall_forall. intros v Hv.
      apply list_elem_of_fmap in Hv as ([u v'] & -> & Hv%elem_of_map_to_list). cbn.
      apply lookup_delete_Some in Hv as [Hne Hv].
      unfold P. rewrite out_of_reach_unrecoverable; [done|]. by eapply Halone. }
    destruct (P m) eqn:E; case_decide; done. }
  rewrite <- (merge_sort_Permutation order) in Hp. destruct (P m).
  - apply Permutation_singleton_r in Hp as ->. cbn. by rewrite (Hk _ _ Hm).
  - by apply Permutation_nil_r in Hp as ->.
Qed.

Lemma tick_idle cfg engine d saga_id m names : ∀ nows env,
  saga_rows_keyed d → db_saga_states d !! saga_id = Some m → alone cfg saga_id d →
  sgm_name m ∉ names ∨ (rc_max_attempts cfg < sgm_recovery_attempts m)%Z →
  recovery_run_once cfg engine names nows env d = (Ok 0, d).
Proof.
  induction names as [|name names IH]; intros nows env Hk Hm Halone Hout; [done|].
  cbn [recovery_run_once]. rewrite (selected_alone _ _ _ _ _ _ Hk Hm Halone).
  assert (recoverable (rc_max_attempts cfg + PARK_MARGIN) (Some (nows 0%nat - rc_stale_after cfg)%Z)
    (Some name) m = false) as ->.
  { destruct Hout as [Hn|Hn]; [|by apply out_of_reach_unrecoverable; right].
    unfold recoverable. rewrite (bool_decide_false (sgm_name m = name)) by set_solver.
    by rewrite andb_false_r. }
  cbn [recover_all]. rewrite IH; [done..|]. destruct Hout; [left; set_solver|by right].
Qed.

(** A tick that finds the process due is the recovery of the process. *)
Lemma tick_due cfg engine d saga_id m d1 m1 got names : ∀ j nows env,
  NoDup names → saga_rows_keyed d → db_saga_states d !! saga_id = Some m → alone cfg saga_id d →
  names !! j = Some (sgm_name m) →
  recoverable (rc_max_attempts cfg + PARK_MARGIN) (Some (nows j - rc_stale_after cfg)%Z)
    (Some (sgm_name m)) m = true →
  recover_one cfg engine (sgm_name m) saga_id (env j 0) d = (Ok got, d1) →
  db_saga_states d1 = <[saga_id := m1]> (db_saga_states d) → sgm_id m1 = saga_id →
  sgm_name m1 = sgm_name m →
  recovery_run_once cfg engine names nows env d = (Ok (if (got : bool) then 1 else 0), d1).
Proof.
  induction names as [|name names IH]; intros j nows env Hnd Hk Hm Halone Hj Hrec Hone Hd1 Hid Hname;
    [done|].
  apply NoDup_cons in Hnd as [Hnot Hnd]. cbn [recovery_run_once].
  rewrite (selected_alone _ _ _ _ _ _ Hk Hm Halone). destruct j as [|j].
  - injection Hj as ->. rewrite Hrec. cbn [recover_all]. rewrite Hone.
    assert (db_saga_states d1 !! saga_id = Some m1) as Hm1 by (by rewrite Hd1, lookup_insert_eq).
    rewrite (tick_idle _ _ _ saga_id m1); [f_equal; f_equal; lia|by eapply keyed_insert|done|
      by eapply alone_insert|left; by rewrite Hname].
  - assert (sgm_name m ≠ name) as Hne.
    { intros <-. apply Hnot. by apply (list_elem_of_lookup_2 _ j). }
    assert (recoverable (rc_max_attempts cfg + PARK_MARGIN) (Some (nows 0%nat - rc_stale_after cfg)%Z)
      (Some name) m = false) as ->.
    { unfold recoverable. by rewrite (bool_decide_false (sgm_name m = name)), andb_false_r. }
    cbn [recover_all]. rewrite (IH j (λ k, nows (S k)) (λ k, env (S k))); done.
Qed.

(** What the failing process announces: a numbered retry per attempt left, then the park. *)
Definition announced (cfg : RecoverySettings) (name : string) (saga_id : uuid) (attempts : Z)
    (n : nat) : list event_body :=
  ((λ k, SagaRetrying saga_id name (attempts + 1 + Z.of_nat k)
      "the recorded failure is being retried") <$> seq 0 n) ++
  [SagaParked saga_id name (attempts + Z.of_nat n) (park_error cfg)].

Lemma announced_S cfg name saga_id a n :
  announced cfg name saga_id a (S n) =
  SagaRetrying saga_id name (a + 1) "the recorded failure is being retried" ::
  announced cfg name saga_id (a + 1) n.
Proof.
  unfold announced. change (seq 0 (S n)) with (0 :: seq 1 n).
  rewrite <- fmap_S_seq, fmap_cons, <- list_fmap_compose. cbn [app].
  f_equal; [f_equal; lia|]. f_equal.
  - apply list_fmap_ext. intros i k _. cbn. f_equal. lia.
  - do 2 f_equal. lia.
Qed.

Lemma recovery_events_app saga_id d d' evs :
  published d' = published d ++ evs →
  recovery_events saga_id d' = recovery_events saga_id d ++
    filter (λ b, is_recovery_event saga_id b = true) (body <$> evs).
Proof. intros E. unfold recovery_events. by rewrite E, fmap_app, filter_app. Qed.

(** What the engine published in between is not the job's. *)
Lemma recovery_events_rows saga_id d d' rows :
  db_outbox d' = db_outbox d ++ rows →
  Forall (λ r, is_recovery_event saga_id (body (ob_payload r)) = false) rows →
  recovery_events saga_id d' = recovery_events saga_id d.
Proof.
  intros E Hrows. rewrite (recovery_events_app _ d d' (ob_payload <$> rows)).
  2: { unfold published. by rewrite E, fmap_app. }
  rewrite filter_none, app_nil_r; [done|].
  rewrite !Forall_fmap. eapply Forall_impl; [exact Hrows|]. cbn. congruence.
Qed.

(** One tick on a failed process that is due, with the budget spent and with some left. *)
Lemma tick_parks cfg t d saga_id m j :
  saga_rows_keyed d → db_saga_states d !! saga_id = Some m → alone cfg saga_id d →
  SAGA_TYPES !! j = Some (sgm_name m) → sgm_status m = SagaFailing →
  sgm_recovery_attempts m = rc_max_attempts cfg →
  (sgm_updated_at m + rc_stale_after cfg < tk_nows t j)%Z →
  env_mint (tk_env t j 0) 0 ∉ ob_event_id <$> db_outbox d →
  let d1 := run_tick cfg d t in
  published d1 = published d ++
    [parked_event cfg (sgm_name m) saga_id (sgm_recovery_attempts m) (tk_env t j 0)] ∧
  db_saga_states d1 = <[saga_id := parked_state m (tk_env t j 0)]> (db_saga_states d).
Proof.
  intros Hk Hm Halone Hj Hst Hmax Hstale Hnew.
  destruct (prepare_parks cfg (sgm_name m) saga_id (tk_env t j 0) d m Hm Hst)
    as (d1 & E & Hp & _ & Hd1); [lia|done|].
  pose proof (recover_one_run _ (tk_engine t) _ _ _ _ _ _ _ E) as Hone. cbn beta iota in Hone.
  cbn zeta. unfold run_tick.
  rewrite (tick_due cfg (tk_engine t) d saga_id m d1 (parked_state m (tk_env t j 0)) false
    SAGA_TYPES j); try done.
  - cbn [snd]. split; [done|by rewrite Hd1].
  - apply (bool_decide_unpack _). vm_compute. exact I.
  - unfold recoverable, PARK_MARGIN. rewrite !bool_decide_true; [done|lia|done|lia|].
    rewrite Hst. apply (bool_decide_unpack _). vm_compute. exact I.
  - by rewrite Hd1.
  - cbn. by apply Hk in Hm.
Qed.

Lemma tick_retries cfg t d saga_id m j minted :
  engine_fails (sgm_name m) saga_id minted t →
  saga_rows_keyed d → db_saga_states d !! saga_id = Some m → alone cfg saga_id d →
  SAGA_TYPES !! j = Some (sgm_name m) → sgm_status m = SagaFailing →
  (sgm_recovery_attempts m < rc_max_attempts cfg)%Z →
  (sgm_updated_at m + rc_stale_after cfg < tk_nows t j)%Z →
  env_mint (tk_env t j 0) 0 ∉ ob_event_id <$> db_outbox d →
  let d1 := run_tick cfg d t in
  ∃ m1 ids, recovery_events saga_id d1 = recovery_events saga_id d ++
      [SagaRetrying saga_id (sgm_name m) (sgm_recovery_attempts m + 1)
        "the recorded failure is being retried"] ∧
    db_saga_states d1 = <[saga_id := m1]> (db_saga_states d) ∧
    ob_event_id <$> db_outbox d1 = (ob_event_id <$> db_outbox d) ++ env_mint (tk_env t j 0) 0 :: ids ∧
    Forall (λ i, i ∉ minted) ids ∧
    sgm_id m1 = saga_id ∧ sgm_name m1 = sgm_name m ∧ sgm_status m1 = SagaFailing ∧
    sgm_recovery_attempts m1 = (sgm_recovery_attempts m + 1)%Z ∧ (sgm_updated_at m1 ≤ tk_done t)%Z.
Proof.
  intros Hfail Hk Hm Halone Hj Hst Hmax Hstale Hnew.
  destruct (prepare_retries cfg (sgm_name m) saga_id (tk_env t j 0) d m Hm Hst)
    as (d0 & E & Hp & Hids & Hd0); [lia|done|].
  assert (db_saga_states d0 = <[saga_id := retried_state m (tk_env t j 0)]> (db_saga_states d)) as Hs0
    by (by rewrite Hd0).
  destruct (Hfail d0 true (retried_state m (tk_env t j 0)))
    as (x & s & m1 & rows & Er & Hs & Ho & Hrows & Hi & Hn & Hst' & Ha & Hu);
    [|by rewrite Hs0, lookup_insert_eq|done|].
  { eapply keyed_insert; [exact Hk| |exact Hs0]. cbn. by apply Hk in Hm. }
  rewrite Hs0, insert_insert_eq in Hs.
  pose proof (recover_one_run _ (tk_engine t) _ _ _ _ _ _ _ E) as Hone. cbn beta iota in Hone.
  rewrite Er in Hone. cbn [fst snd] in Hone. cbn zeta. unfold run_tick.
  rewrite (tick_due cfg (tk_engine t) d saga_id m (ss_base s) m1 false SAGA_TYPES j); try done.
  - cbn [snd]. exists m1, (ob_event_id <$> rows). split_and!; try done.
    + rewrite (recovery_events_rows saga_id d0 _ rows); [|done|by eapply Forall_impl; [exact Hrows|]; cbn; intros ? []].
      rewrite (recovery_events_app _ d d0 _ Hp). cbn [fmap list_fmap]. rewrite filter_cons, filter_nil, decide_True; [done|].
      cbn. by rewrite bool_decide_true.
    + by rewrite Ho, fmap_app, Hids, <- app_assoc.
    + apply Forall_fmap. eapply Forall_impl; [exact Hrows|]. by intros r [].
  - apply (bool_decide_unpack _). vm_compute. exact I.
  - unfold recoverable, PARK_MARGIN. rewrite !bool_decide_true; [done|lia|done|lia|].
    rewrite Hst. apply (bool_decide_unpack _). vm_compute. exact I.
Qed.

(** [C31] A process that keeps failing cannot run for ever.  Take a failed process with [n]
    attempts of its budget left, and [n + 1] ticks of the whole job — the query for each
    kind of process, then what it selects.  Assume that every other process is finished or
    parked (so the batch has room), that each tick begins later than the stale interval
    after the last write to the process, that the job's event identifiers are new, and that
    in every tick the engine fails on the process: it raises, counts the failure, writes no
    other stored execution, and publishes nothing that passes for the job's own events.
    Then the job selects the process each time: [n] retries are announced with their
    numbers, and the last tick publishes [SagaParked], once.  From then on no query of the
    job returns the process and further ticks change nothing. *)
Theorem failing_process_is_parked (cfg : RecoverySettings) (saga_id : uuid) (j : nat) :
  ∀ (ticks : list recovery_tick) (n : nat) (d : Database) (m : SagaStateModel),
  let minted := (λ t, env_mint (tk_env t j 0) 0) <$> ticks in
  length ticks = S n →
  Forall (engine_fails (sgm_name m) saga_id minted) ticks →
  saga_rows_keyed d → alone cfg saga_id d →
  db_saga_states d !! saga_id = Some m → sgm_status m = SagaFailing →
  SAGA_TYPES !! j = Some (sgm_name m) →
  (sgm_recovery_attempts m + Z.of_nat n = rc_max_attempts cfg)%Z →
  spaced cfg (sgm_updated_at m) ticks →
  NoDup minted → (∀ i, i ∈ minted → i ∉ ob_event_id <$> db_outbox d) →
  let d' := recovery_ticks cfg ticks d in
  recovery_events saga_id d' =
    recovery_events saga_id d ++ announced cfg (sgm_name m) saga_id (sgm_recovery_attempts m) n ∧
  (∀ name' now, saga_id ∉ selected cfg name' now d') ∧
  (∀ t, run_tick cfg d' t = d').
Proof.
  induction ticks as [|t ticks IH]; intros n d m minted Hlen Hfails Hk Halone Hm Hst Hj Hn Hspaced Hnd Hnew;
    [done|].
  apply Forall_cons in Hfails as [Hfail Hfails]. destruct Hspaced as [Hstale Hspaced].
  subst minted. rewrite fmap_cons in *. set (minted := (λ t, env_mint (tk_env t j 0) 0) <$> ticks) in *.
  apply NoDup_cons in Hnd as [Hnot Hnd]. unfold recovery_ticks. cbn [foldl].
  destruct n as [|n].
  - destruct ticks; [|done]. cbn [foldl].
    destruct (tick_parks cfg t d saga_id m j) as [Hp Hs]; try done; [lia|apply Hnew; by left|].
    set (d1 := run_tick cfg d t) in *.
    assert (saga_rows_keyed d1) as Hk1 by (eapply keyed_insert; [exact Hk| |exact Hs]; by apply Hk in Hm).
    assert (db_saga_states d1 !! saga_id = Some (parked_state m (tk_env t j 0))) as Hm1
      by (by rewrite Hs, lookup_insert_eq).
    assert (rc_max_attempts cfg < sgm_recovery_attempts (parked_state m (tk_env t j 0)))%Z as Hspent
      by (cbn; unfold PARK_MARGIN; lia).
    split_and!.
    + rewrite (recovery_events_app _ _ _ _ Hp). cbn [fmap list_fmap]. rewrite filter_cons, filter_nil, decide_True.
      * unfold announced. cbn. by rewrite Z.add_0_r.
      * cbn. by rewrite bool_decide_true.
    + intros name' now. by apply (spent_not_selected _ _ _ _ _ (parked_state m (tk_env t j 0))).
    + intros t'. unfold run_tick.
      rewrite (tick_idle cfg _ d1 saga_id (parked_state m (tk_env t j 0))); try done; [|by right].
      by eapply alone_insert.
  - destruct (tick_retries cfg t d saga_id m j _ Hfail) as
      (m1 & ids & Hev & Hs & Hids & Hfresh & Hi & Hname & Hst1 & Ha & Hu);
      try done; [lia|apply Hnew; by left|].
    set (d1 := run_tick cfg d t) in *.
    destruct (IH n d1 m1) as (Hpub & Hsel & Hrest).
    + cbn in Hlen. lia.
    + rewrite Hname. eapply Forall_impl; [exact Hfails|]. fold minted. intros t' Hf d0 b0 m0 Hk0 Hm0 Hst0.
      destruct (Hf d0 b0 m0 Hk0 Hm0 Hst0) as (x & s & m' & rows & H1 & H2 & H3 & H4 & H5).
      exists x, s, m', rows. split_and!; try done; try apply H5.
      eapply Forall_impl; [exact H4|]. cbn. intros r [? Hr]. split; [done|]. set_solver.
    + by eapply keyed_insert.
    + by eapply alone_insert.
    + by rewrite Hs, lookup_insert_eq.
    + done.
    + by rewrite Hname.
    + lia.
    + revert Hspaced. destruct ticks as [|t' ticks]; [done|]. intros [H1 H2]. split; [|done].
      intros k. specialize (H1 k). lia.
    + done.
    + fold minted. intros i Hin. rewrite Hids, not_elem_of_app, not_elem_of_cons.
      split; [apply Hnew; by right|]. split; [by intros ->|]. intros Hi'.
      rewrite Forall_forall in Hfresh. apply (Hfresh _ Hi'). by right.
    + split; [|by split]. rewrite Hname in Hpub.
      change (foldl (run_tick cfg) d1 ticks) with (recovery_ticks cfg ticks d1).
      rewrite Hpub, Hev, <- app_assoc, announced_S, Ha. done.
Qed.

(** The counter moves in a transaction of its own, before the announcement is staged: a
    worker that stops between the two leaves a process that no tick selects and that
    nobody was told about. *)
Lemma park_counts_before_announcing cfg name saga_id e d m :
  db_saga_states d !! saga_id = Some m → saga_rows_keyed d →
  (rc_max_attempts cfg ≤ sgm_recovery_attempts m)%Z →
  let d1 := with_state saga_id (parked_state m e) d in
  park cfg name saga_id (sgm_recovery_attempts m) e (resting None d false) =
    (_ ← outbox_append (parked_event cfg name saga_id (sgm_recovery_attempts m) e); uow_commit)
      (resting None d1 false) ∧
  published d1 = published d ∧ ∀ name' now, saga_id ∉ selected cfg name' now d1.
Proof.
  intros Hm Hk Hmax d1. split; [|split; [done|]].
  - unfold park, set_recovery_attempts.
    by rewrite (tx_bind_Ok _ _ _ _ _ (aside_update saga_id (λ m', saga_row (sgm_status m')
      (sgm_context m') (sgm_recovery_attempts m + PARK_MARGIN) (env_now e) m') None d false m Hm)).
  - intros name' now. apply (spent_not_selected _ _ _ _ _ (parked_state m e)).
    + apply map_Forall_insert_2; [|done]. cbn. by apply Hk in Hm.
    + cbn. by rewrite lookup_insert_eq.
    + cbn. unfold PARK_MARGIN. lia.
Qed.

(** ** A process that fails every time *)

Definition demo_recovery : RecoverySettings := mkRecoverySettings 2 (seconds 60).
Definition demo_failing_at (now : datetime) (name : string) (saga_id : uuid) : tx unit :=
  _ ← aside (increment_recovery_attempts saga_id (Some SagaFailing) now);
  tx_raise NotFoundError.
Definition demo_failing_engine : string → uuid → tx unit := demo_failing_at (demo_at 30).
Definition demo_failed : Database :=
  (own_session (update_status 5 SagaFailing 2) demo_execution).2.
Definition demo_failed_row : SagaStateModel :=
  mkSagaStateModel 5 "SpeciesSyncSaga" SagaFailing (demo_sync_context []) 2 0 1 2.

Lemma demo_failed_keyed : saga_rows_keyed demo_failed.
Proof.
  apply (storage_runs_keyed [(CallCreate 5 "SpeciesSyncSaga" (demo_sync_context []), 1%Z);
    (CallStatus 5 SagaFailing, 2%Z)] empty_database), map_Forall_empty.
Qed.

Lemma failed_process_retried_or_parked_witness :
  (∃ d1, published d1 = [retrying_event "SpeciesSyncSaga" 5 1 (demo_env 70)] ∧
    recover_one demo_recovery demo_failing_engine "SpeciesSyncSaga" 5 (demo_env 70) demo_failed =
      (Ok (match (demo_failing_engine "SpeciesSyncSaga" 5 (resting None d1 true)).1 with
           | Ok _ => true | Raise _ => false end),
       ss_base (demo_failing_engine "SpeciesSyncSaga" 5 (resting None d1 true)).2)) ∧
  db_saga_states demo_failed !! 5%N = Some demo_failed_row.
Proof.
  split; [|reflexivity].
  pose proof (failed_process_retried_or_parked demo_recovery demo_failing_engine "SpeciesSyncSaga" 5
    (demo_env 70) demo_failed demo_failed_row eq_refl eq_refl demo_failed_keyed) as H.
  rewrite decide_True in H by (cbn; lia).
  destruct H as (d1 & Hp & _ & E); [apply not_elem_of_nil|].
  exists d1. split; [exact Hp|exact E].
Defined.

Definition demo_parked_row : SagaStateModel := parked_state
  (mkSagaStateModel 5 "SpeciesSyncSaga" SagaFailing (demo_sync_context []) 2 2 1 2) (demo_env 90).

Lemma parked_until_reset_witness :
  let d := with_state 5 demo_parked_row demo_failed in
  let d1 := storage_runs [(CallContext 5 (demo_sync_context []) None, 8%Z)] d in
  (∀ name now, 5%N ∉ selected demo_recovery name now d1) ∧
  ∃ d2 m2, operator_reset 5 (demo_at 100) d1 = (Ok tt, d2) ∧
    db_saga_states d2 !! 5%N = Some m2 ∧ sgm_recovery_attempts m2 = 0%Z.
Proof.
  destruct (parked_until_reset demo_recovery 5 (with_state 5 demo_parked_row demo_failed)
    demo_parked_row [(CallContext 5 (demo_sync_context []) None, 8%Z)] (demo_at 100))
    as (Hsel & d2 & m2 & E & Hm2 & _ & Hn & _).
  - apply map_Forall_insert_2; [reflexivity|exact demo_failed_keyed].
  - reflexivity.
  - cbn. unfold PARK_MARGIN. lia.
  - cbn. lia.
  - reflexivity.
  - split; [exact Hsel|]. exists d2, m2. split; [exact E|]. split; [exact Hm2|exact Hn].
Defined.

(** Three ticks, five minutes apart, each of which fails after ten seconds. *)
Definition demo_tick (k : Z) : recovery_tick :=
  mkRecoveryTick (demo_failing_at (demo_at (300 * k + 10))) (λ _, demo_at (300 * k))
    (λ j _, demo_env (300 * k + Z.of_nat j)) (demo_at (300 * k + 10)).
Definition demo_ticks : list recovery_tick := [demo_tick 1; demo_tick 2; demo_tick 3].

Lemma demo_engine_fails k minted : engine_fails "SpeciesSyncSaga" 5 minted (demo_tick k).
Proof.
  intros d b m Hk Hm Hst. cbn [tk_engine demo_tick]. unfold demo_failing_at, increment_recovery_attempts.
  erewrite tx_bind_Ok by (by apply aside_update). unfold tx_raise.
  do 3 eexists. exists []. split; [reflexivity|]. cbn [ss_base resting db_saga_states set_saga_states].
  split; [reflexivity|]. split; [by rewrite app_nil_r|]. split; [done|]. cbn.
  split; [by apply Hk in Hm|]. done.
Qed.

Lemma demo_alone : alone demo_recovery 5 demo_failed.
Proof.
  intros u m Hu Hne.
  assert (db_saga_states demo_failed = {[5%N := demo_failed_row]}) as E by (vm_compute; reflexivity).
  rewrite E in Hu. apply lookup_singleton_Some in Hu as [<- _]. done.
Qed.

Lemma failing_process_is_parked_witness :
  recovery_events 5 (recovery_ticks demo_recovery demo_ticks demo_failed) =
    [SagaRetrying 5 "SpeciesSyncSaga" 1 "the recorded failure is being retried";
     SagaRetrying 5 "SpeciesSyncSaga" 2 "the recorded failure is being retried";
     SagaParked 5 "SpeciesSyncSaga" 2 "recovery budget of 2 spent"].
Proof.
  destruct (failing_process_is_parked demo_recovery 5 1 demo_ticks 2 demo_failed demo_failed_row)
    as [H _].
  - reflexivity.
  - repeat constructor; apply demo_engine_fails.
  - exact demo_failed_keyed.
  - exact demo_alone.
  - reflexivity.
  - reflexivity.
  - reflexivity.
  - reflexivity.
  - cbn. split_and!; try done; intros _; vm_compute; reflexivity.
  - apply (bool_decide_unpack _). vm_compute. exact I.
  - intros i _. apply not_elem_of_nil.
  - exact H.
Defined.
