(* ===== verification/Partitions.v ===== *)
(** The monthly partitions of the sensor readings: the arithmetic of months, the names and
    statements of partitions, and the job that creates the ones ahead and drops the expired
    ones ([infrastructure/persistence/partitions.py],
    [infrastructure/scheduling/telemetry_partitions.py]). *)

From S2P Require Import Prelude Domain.
From Stdlib Require Import String Ascii.
From stdpp Require Import sorting.

Local Open Scope Z_scope.

(** ** Dates

    [datetime.date]: the constructor refuses what is not a day of the years 1 to 9999;
    dates are compared field by field. *)
Record date := mkDate { year : Z; month : Z; day : Z }.

#[export] Instance date_eq_dec : EqDecision date.
Proof. solve_decision. Defined.

Definition is_leap (y : Z) : bool :=
  bool_decide (y mod 4 = 0) && (negb (bool_decide (y mod 100 = 0)) || bool_decide (y mod 400 = 0)).

Definition days_in_month (y m : Z) : Z :=
  if bool_decide (m = 2) then (if is_leap y then 29 else 28)
  else if bool_decide (m = 4 ∨ m = 6 ∨ m = 9 ∨ m = 11) then 30 else 31.

Definition new_date (y m d : Z) : result date :=
  if bool_decide (1 ≤ y ≤ 9999 ∧ 1 ≤ m ≤ 12 ∧ 1 ≤ d ≤ days_in_month y m) then Ok (mkDate y m d)
  else Raise ValueError.

Definition date_ltb (a b : date) : bool :=
  bool_decide (year a < year b) || (bool_decide (year a = year b) &&
    (bool_decide (month a < month b) || (bool_decide (month a = month b) &&
      bool_decide (day a < day b)))).

(** [toordinal]: the days before the year, before the month, and of the month. *)
Definition days_before_year (y : Z) : Z := (y - 1) * 365 + (y - 1) / 4 - (y - 1) / 100 + (y - 1) / 400.
Definition days_before_month (y m : Z) : Z :=
  foldl (λ n k, n + days_in_month y k) 0 (seqZ 1 (m - 1)).
Definition toordinal (d : date) : Z := days_before_year (year d) + days_before_month (year d) (month d) + day d.

(** The instant a date literal stands for in a partition bound. *)
Definition midnight (d : date) : datetime := days (toordinal d - 1).

(** ** Months *)

Definition MONTHS_AHEAD : Z := 3.
Definition RETENTION_MONTHS : Z := 12.
Definition MONTHS_PER_YEAR : Z := 12.

Definition month_of (d : date) : date := mkDate (year d) (month d) 1.

Definition next_month (m : date) : result date :=
  if bool_decide (month m = MONTHS_PER_YEAR) then new_date (year m + 1) 1 1
  else new_date (year m) (month m + 1) 1.

Definition previous_month (m : date) : result date :=
  if bool_decide (month m = 1) then new_date (year m - 1) MONTHS_PER_YEAR 1
  else new_date (year m) (month m - 1) 1.

Fixpoint iterate_month (step : date → result date) (n : nat) (m : date) : result date :=
  match n with
  | O => Ok m
  | S n => m' ← step m; iterate_month step n m'
  end.

Definition add_months (m : date) (count : Z) : result date :=
  iterate_month (if bool_decide (0 ≤ count) then next_month else previous_month)
    (Z.to_nat (Z.abs count)) (month_of m).

Definition mapM_months {A B} (f : A → result B) : list A → result (list B) :=
  fix go l := match l with
  | [] => Ok []
  | a :: l => b ← f a; bs ← go l; Ok (b :: bs)
  end.

Definition months_to_create (today : date) (months_ahead : Z) : result (list date) :=
  if bool_decide (months_ahead < 0) then Raise ValueError
  else mapM_months (add_months (month_of today)) (seqZ 0 (months_ahead + 1)).

Definition retention_cutoff (today : date) (retention_months : Z) : result date :=
  if bool_decide (retention_months < 0) then Raise ValueError
  else add_months (month_of today) (- retention_months).

(** ** Names *)

Definition digit_of (n : Z) : ascii := ascii_of_N (48 + Z.to_N n).
(** A number in decimal, padded to a width. *)
Fixpoint padded (width : nat) (n : Z) : string :=
  match width with
  | O => EmptyString
  | S width => (padded width (n / 10) +:+ String (digit_of (n mod 10)) EmptyString)%string
  end.

Definition TELEMETRY_PARTITIONED_TABLE : string := "write_telemetry.sensor_readings".
Definition DEFAULT_PARTITION_SUFFIX : string := "default".
Definition PARTITION_SUFFIX_LENGTH : nat := 6.

Definition partition_name (m : date) : string :=
  (TELEMETRY_PARTITIONED_TABLE +:+ "_" +:+ padded 4 (year m) +:+ padded 2 (month m))%string.
Definition default_partition_name : string :=
  (TELEMETRY_PARTITIONED_TABLE +:+ "_" +:+ DEFAULT_PARTITION_SUFFIX)%string.

(** [s.rpartition(".")[2]]. *)
Fixpoint after_last_dot (read s : string) : string :=
  match s with
  | EmptyString => read
  | String c s => if bool_decide (c = "."%char) then after_last_dot EmptyString s
                  else after_last_dot (read +:+ String c EmptyString)%string s
  end.
Definition unqualified (name : string) : string := after_last_dot EmptyString name.

(** [s.removeprefix(p)], [None] when [s] does not start with [p]. *)
Fixpoint without_prefix (p s : string) : option string :=
  match p, s with
  | EmptyString, _ => Some s
  | String a p, String b s => if bool_decide (a = b) then without_prefix p s else None
  | String _ _, EmptyString => None
  end.

Definition is_decimal (c : ascii) : bool := bool_decide (48 ≤ N_of_ascii c ≤ 57)%N.
(** [str.isdigit] also accepts the superscripts, which [int] then refuses. *)
Definition is_digit (c : ascii) : bool :=
  is_decimal c || bool_decide (N_of_ascii c ∈ [178; 179; 185])%N.
Fixpoint read_digits (n : Z) (l : list ascii) : result Z :=
  match l with
  | [] => Ok n
  | c :: l => if is_decimal c then read_digits (10 * n + (Z.of_N (N_of_ascii c) - 48)) l
              else Raise ValueError
  end.

(** [month_from_partition_name]: [None] for a table the job does not own. *)
Definition month_from_partition_name (relname : string) : result (option date) :=
  match without_prefix (unqualified TELEMETRY_PARTITIONED_TABLE +:+ "_")%string relname with
  | None => Ok None
  | Some suffix =>
      let l := list_ascii_of_string suffix in
      if bool_decide (length l = PARTITION_SUFFIX_LENGTH) && forallb is_digit l then
        y ← read_digits 0 (take 4 l);
        m ← read_digits 0 (drop 4 l);
        Some <$> new_date y m 1
      else Ok None
  end.

(** ** The table and its partitions

    What PostgreSQL keeps of [write_telemetry.sensor_readings]: whether it exists, the
    bounds of each partition ([None] for the catch-all), and which partition holds a
    reading of which instant. *)
Record PartitionedTable := mkPartitionedTable {
  pt_exists : bool;
  pt_parts : gmap string (option (datetime * datetime));
  pt_rows : list (string * datetime) }.

Inductive Ddl :=
  | CreatePartition (name : string) (from to : date)
  | CreateDefaultPartition (name : string)
  | DropPartition (name : string).

Definition within (x : datetime) (b : datetime * datetime) : bool :=
  bool_decide (b.1 ≤ x) && bool_decide (x < b.2).
Definition overlaps (a b : datetime * datetime) : bool :=
  bool_decide (a.1 < b.2) && bool_decide (b.1 < a.2).

Definition is_default (t : PartitionedTable) (name : string) : bool :=
  bool_decide (pt_parts t !! name = Some None).

(** [CREATE TABLE IF NOT EXISTS ... PARTITION OF] is refused when the bounds overlap
    another partition's, and when the catch-all already holds a row they cover. *)
Definition create_partition (name : string) (b : datetime * datetime) (t : PartitionedTable) :
    result PartitionedTable :=
  match pt_parts t !! name with
  | Some _ => Ok t
  | None =>
      if existsb (λ o, match o with Some b' => overlaps b b' | None => false end)
          (map_to_list (pt_parts t)).*2 then Raise (OperationError 1)
      else if existsb (λ r, is_default t r.1 && within r.2 b) (pt_rows t) then Raise IntegrityError
      else Ok (mkPartitionedTable (pt_exists t) (<[name := Some b]> (pt_parts t)) (pt_rows t))
  end.

Definition run_ddl (s : Ddl) (t : PartitionedTable) : result PartitionedTable :=
  match s with
  | CreatePartition name from to => create_partition (unqualified name) (midnight from, midnight to) t
  | CreateDefaultPartition name =>
      match pt_parts t !! unqualified name with
      | Some _ => Ok t
      | None => if existsb (λ o, bool_decide (o = None)) (map_to_list (pt_parts t)).*2
                then Raise (OperationError 1)
                else Ok (mkPartitionedTable (pt_exists t) (<[unqualified name := None]> (pt_parts t))
                       (pt_rows t))
      end
  | DropPartition name =>
      Ok (mkPartitionedTable (pt_exists t) (delete (unqualified name) (pt_parts t))
        (filter (λ r, r.1 ≠ unqualified name) (pt_rows t)))
  end.

Definition covers (x : datetime) (o : option (datetime * datetime)) : bool :=
  match o with Some b => within x b | None => false end.

(** A reading goes to the partition whose bounds it is within, or to the catch-all. *)
Definition route (x : datetime) (t : PartitionedTable) : option string :=
  match filter (λ p, covers x p.2 = true) (map_to_list (pt_parts t)) with
  | (name, _) :: _ => Some name
  | [] => fst <$> head (filter (λ p, p.2 = None) (map_to_list (pt_parts t)))
  end.

Definition insert_reading (x : datetime) (t : PartitionedTable) : result PartitionedTable :=
  match route x t with
  | Some name => Ok (mkPartitionedTable (pt_exists t) (pt_parts t) (pt_rows t ++ [(name, x)]))
  | None => Raise IntegrityError
  end.

(** ** The job *)

Definition partition_statement (m : date) : result Ddl :=
  next ← next_month m; Ok (CreatePartition (partition_name m) m next).

Definition statements_for (today : date) (months_ahead : Z) : result (list (string * Ddl)) :=
  months ← months_to_create today months_ahead;
  statements ← mapM_months (λ m, s ← partition_statement m; Ok (partition_name m, s)) months;
  Ok ((default_partition_name, CreateDefaultPartition default_partition_name) :: statements).

Definition existing_partitions (t : PartitionedTable) : list string := (map_to_list (pt_parts t)).*1.

(** The loop over the statements; [present] was read before it. *)
Fixpoint create_missing (present : list string) (statements : list (string * Ddl))
    (t : PartitionedTable) : result (list string * PartitionedTable) :=
  match statements with
  | [] => Ok ([], t)
  | (name, s) :: statements =>
      if bool_decide (unqualified name ∈ present) then create_missing present statements t
      else
        t1 ← run_ddl s t;
        rest ← create_missing present statements t1;
        Ok (name :: rest.1, rest.2)
  end.

Definition ensure_telemetry_partitions (today : date) (months_ahead : Z) (t : PartitionedTable) :
    result (list string * PartitionedTable) :=
  if pt_exists t then
    statements ← statements_for today months_ahead;
    create_missing (existing_partitions t) statements t
  else Ok ([], t).

Definition string_le (a b : string) : Prop := String.leb a b = true.
#[export] Instance string_le_dec a b : Decision (string_le a b).
Proof. unfold string_le. apply _. Defined.

(** The month of an expired partition, [None] for one to keep. *)
Definition expired_month (cutoff : date) (relname : string) : result (option date) :=
  month ← month_from_partition_name relname;
  match month with
  | None => Ok None
  | Some m => next ← next_month m; Ok (if date_ltb cutoff next then None else Some m)
  end.

Definition named_months (months : list (option date)) : list (date * string) :=
  (λ m, (m, partition_name m)) <$> omap (M := list) id months.

Definition expired_partitions (present : list string) (today : date) (retention_months : Z) :
    result (list (date * string)) :=
  cutoff ← retention_cutoff today retention_months;
  months ← mapM_months (expired_month cutoff) (merge_sort string_le present);
  Ok (named_months months).

Definition drop_expired_partitions (today : date) (retention_months : Z) (t : PartitionedTable) :
    result (list string * PartitionedTable) :=
  if pt_exists t then
    expired ← expired_partitions (existing_partitions t) today retention_months;
    t1 ← foldM (λ t e, run_ddl (DropPartition (partition_name e.1)) t) t expired;
    Ok (expired.*2, t1)
  else Ok ([], t).

(** [run_once]: the two clock readings are arguments; nothing is committed when it raises. *)
Definition TelemetryPartitionJob_run_once (months_ahead retention_months : Z)
    (today today' : date) (t : PartitionedTable) : result (list string) * PartitionedTable :=
  match (created ← ensure_telemetry_partitions today months_ahead t;
         dropped ← drop_expired_partitions today' retention_months created.2;
         Ok (created.1, dropped.2)) with
  | Ok (created, t1) => (Ok created, t1)
  | Raise e => (Raise e, t)
  end.

(** ** Lemmas: months as numbers

    The first day of the month with index [i], counted from January of the year 0. *)
Definition month_at (i : Z) : date := mkDate (i / 12) (i mod 12 + 1) 1.
Definition month_index (d : date) : Z := 12 * year d + (month d - 1).
(** The months of the years 1 to 9999. *)
Definition valid_month (i : Z) : Prop := 12 ≤ i ≤ 119999.

Ltac month_lia := unfold month_index, month_at, MONTHS_PER_YEAR, valid_month in *;
  cbn [year month day] in *; Z.div_mod_to_equations; lia.

Lemma days_in_month_bounds y m : 28 ≤ days_in_month y m ≤ 31.
Proof. unfold days_in_month. repeat case_match; lia. Qed.

Lemma new_month_Ok y m :
  1 ≤ y ≤ 9999 → 1 ≤ m ≤ 12 → new_date y m 1 = Ok (mkDate y m 1).
Proof.
  intros Hy Hm. unfold new_date. rewrite bool_decide_true; [done|].
  pose proof (days_in_month_bounds y m). lia.
Qed.

Lemma month_of_at d : 1 ≤ month d ≤ 12 → month_of d = month_at (month_index d).
Proof.
  intros H. unfold month_of, month_at, month_index. f_equal; Z.div_mod_to_equations; lia.
Qed.

Lemma next_month_at i : 12 ≤ i → valid_month (i + 1) → next_month (month_at i) = Ok (month_at (i + 1)).
Proof.
  intros Hi Hv. unfold next_month. case_bool_decide as H.
  - rewrite new_month_Ok by month_lia. f_equal. unfold month_at. f_equal; month_lia.
  - rewrite new_month_Ok by month_lia. f_equal. unfold month_at. f_equal; month_lia.
Qed.

Lemma previous_month_at i :
  valid_month (i - 1) → i ≤ 119999 → previous_month (month_at i) = Ok (month_at (i - 1)).
Proof.
  intros Hv Hi. unfold previous_month. case_bool_decide as H.
  - rewrite new_month_Ok by month_lia. f_equal. unfold month_at. f_equal; month_lia.
  - rewrite new_month_Ok by month_lia. f_equal. unfold month_at. f_equal; month_lia.
Qed.

Lemma iterate_next n i :
  12 ≤ i → i + Z.of_nat n ≤ 119999 →
  iterate_month next_month n (month_at i) = Ok (month_at (i + Z.of_nat n)).
Proof.
  revert i. induction n as [|n IH]; intros i Hi Hn; [by rewrite Z.add_0_r|].
  cbn [iterate_month]. rewrite next_month_at by (unfold valid_month; lia). cbn [mbind result_bind].
  rewrite IH by lia. do 2 f_equal. lia.
Qed.

Lemma iterate_previous n i :
  12 ≤ i - Z.of_nat n → i ≤ 119999 →
  iterate_month previous_month n (month_at i) = Ok (month_at (i - Z.of_nat n)).
Proof.
  revert i. induction n as [|n IH]; intros i Hi Hn; [by rewrite Z.sub_0_r|].
  cbn [iterate_month]. rewrite previous_month_at by (unfold valid_month; lia).
  cbn [mbind result_bind]. rewrite IH by lia. do 2 f_equal. lia.
Qed.

(** Adding months is adding to the index, inside the years Python has. *)
Lemma add_months_at d count :
  1 ≤ month d ≤ 12 → valid_month (month_index d) → valid_month (month_index d + count) →
  add_months d count = Ok (month_at (month_index d + count)).
Proof.
  intros Hm Hi Hc. unfold add_months, valid_month in *. rewrite month_of_at by done.
  case_bool_decide.
  - rewrite iterate_next by lia. do 2 f_equal. lia.
  - rewrite iterate_previous by lia. do 2 f_equal. lia.
Qed.

Lemma month_index_at i : month_index (month_at i) = i.
Proof. month_lia. Qed.
Lemma month_at_month i : 1 ≤ month (month_at i) ≤ 12.
Proof. month_lia. Qed.
Lemma month_at_inj i j : month_at i = month_at j → i = j.
Proof. intros H. by rewrite <- (month_index_at i), <- (month_index_at j), H. Qed.

Lemma date_ltb_at i j : date_ltb (month_at i) (month_at j) = bool_decide (i < j).
Proof.
  unfold date_ltb. cbn [year month day month_at].
  repeat case_bool_decide; cbn; try done; exfalso; month_lia.
Qed.

(** *** The instants of a month *)

Lemma days_before_month_S y m : 1 ≤ m →
  days_before_month y (m + 1) = days_before_month y m + days_in_month y m.
Proof.
  intros H. unfold days_before_month. replace (m + 1 - 1) with (Z.succ (m - 1)) by lia.
  rewrite <- (Z2Nat.id (m - 1)), <- Nat2Z.inj_succ, seqZ_S, foldl_app by lia. cbn.
  do 2 f_equal. lia.
Qed.

Lemma days_before_year_S y :
  days_before_year (y + 1) = days_before_year y + if is_leap y then 366 else 365.
Proof.
  unfold days_before_year, is_leap. replace (y + 1 - 1) with y by lia.
  repeat case_bool_decide; cbn; Z.div_mod_to_equations; lia.
Qed.

Lemma days_before_month_13 y : days_before_month y 13 = if is_leap y then 366 else 365.
Proof. unfold days_before_month, days_in_month. cbn. by destruct (is_leap y). Qed.

(** A month begins when the one before it is over. *)
Lemma midnight_S i :
  midnight (month_at (i + 1)) =
  midnight (month_at i) + days (days_in_month (year (month_at i)) (month (month_at i))).
Proof.
  unfold midnight, toordinal. cbn [year month day month_at].
  assert (days_before_year ((i + 1) / 12) + days_before_month ((i + 1) / 12) ((i + 1) mod 12 + 1) =
    days_before_year (i / 12) + days_before_month (i / 12) (i mod 12 + 1) +
    days_in_month (i / 12) (i mod 12 + 1)) as E.
  { destruct (decide (i mod 12 = 11)) as [H|H].
    - assert ((i + 1) / 12 = i / 12 + 1) as -> by (Z.div_mod_to_equations; lia).
      assert ((i + 1) mod 12 = 0) as -> by (Z.div_mod_to_equations; lia).
      rewrite H, days_before_year_S, <- days_before_month_13.
      change (11 + 1) with 12. rewrite (days_before_month_S _ 12) by lia.
      change (days_before_month (i / 12 + 1) (0 + 1)) with 0. lia.
    - assert ((i + 1) / 12 = i / 12) as -> by (Z.div_mod_to_equations; lia).
      assert ((i + 1) mod 12 = i mod 12 + 1) as -> by (Z.div_mod_to_equations; lia).
      rewrite days_before_month_S by (Z.div_mod_to_equations; lia). lia. }
  unfold days, hours, minutes, seconds, MICROSECONDS_PER_SECOND. lia.
Qed.

Lemma midnight_lt i j : i < j → midnight (month_at i) < midnight (month_at j).
Proof.
  intros H. assert (∀ n : nat, midnight (month_at i) < midnight (month_at (i + 1 + Z.of_nat n))) as Hn.
  { induction n as [|n IH].
    - rewrite Z.add_0_r, midnight_S. pose proof (days_in_month_bounds (year (month_at i))
        (month (month_at i))). unfold days, hours, minutes, seconds, MICROSECONDS_PER_SECOND. lia.
    - replace (i + 1 + Z.of_nat (S n)) with (i + 1 + Z.of_nat n + 1) by lia. rewrite midnight_S.
      pose proof (days_in_month_bounds (year (month_at (i + 1 + Z.of_nat n)))
        (month (month_at (i + 1 + Z.of_nat n)))).
      unfold days, hours, minutes, seconds, MICROSECONDS_PER_SECOND in *. lia. }
  specialize (Hn (Z.to_nat (j - i - 1))). by replace (i + 1 + Z.of_nat (Z.to_nat (j - i - 1)))
    with j in Hn by lia.
Qed.

Lemma midnight_le i j : i ≤ j → midnight (month_at i) ≤ midnight (month_at j).
Proof.
  intros H. destruct (decide (i = j)) as [->|]; [done|].
  pose proof (midnight_lt i j). lia.
Qed.

(** The bounds of the partition of a month; different months have disjoint ones. *)
Definition month_bounds (i : Z) : datetime * datetime :=
  (midnight (month_at i), midnight (month_at (i + 1))).

Lemma month_bounds_disjoint i j : i ≠ j → overlaps (month_bounds i) (month_bounds j) = false.
Proof.
  intros H. unfold overlaps, month_bounds. cbn.
  destruct (decide (i < j)).
  - rewrite andb_comm, bool_decide_false; [done|]. pose proof (midnight_le (i + 1) j). lia.
  - rewrite bool_decide_false; [done|]. pose proof (midnight_le (j + 1) i). lia.
Qed.

Lemma within_unique x i j :
  within x (month_bounds i) = true → within x (month_bounds j) = true → i = j.
Proof.
  unfold within, month_bounds. cbn. rewrite !andb_true_iff, !bool_decide_eq_true.
  intros [H1 H2] [H3 H4]. destruct (Z.lt_trichotomy i j) as [H|[H|H]]; [|done|].
  - pose proof (midnight_le (i + 1) j). lia.
  - pose proof (midnight_le (j + 1) i). lia.
Qed.

(** *** Names *)

(** The digits of a number, as a list. *)
Fixpoint digits (w : nat) (n : Z) : list ascii :=
  match w with O => [] | S w => digits w (n / 10) ++ [digit_of (n mod 10)] end.

Lemma padded_digits w n : list_ascii_of_string (padded w n) = digits w n.
Proof.
  revert n. induction w as [|w IH]; intros n; [done|]. cbn [padded digits].
  by rewrite string_app_list, IH.
Qed.

Lemma digits_length w n : length (digits w n) = w.
Proof. revert n. induction w as [|w IH]; intros n; [done|]. cbn. rewrite length_app, IH. cbn. lia. Qed.

Lemma digit_of_spec d : 0 ≤ d < 10 →
  is_decimal (digit_of d) = true ∧ Z.of_N (N_of_ascii (digit_of d)) - 48 = d ∧
  digit_of d ≠ "."%char.
Proof.
  intros H. assert (d ∈ seqZ 0 10) as Hd by (apply elem_of_seqZ; lia).
  revert d Hd H. apply (Forall_forall (λ d, 0 ≤ d < 10 → _)). cbn.
  repeat constructor; vm_compute; done.
Qed.

Lemma digits_decimal w n c : c ∈ digits w n → is_decimal c = true ∧ c ≠ "."%char.
Proof.
  revert n. induction w as [|w IH]; intros n; cbn; [by intros ?%not_elem_of_nil|].
  rewrite elem_of_app, list_elem_of_singleton. intros [H| ->]; [by apply (IH _ H)|].
  destruct (digit_of_spec (n mod 10)) as (H1 & _ & H2); [apply Z.mod_pos_bound; lia|done].
Qed.

Lemma read_digits_app l1 l2 n :
  read_digits n (l1 ++ l2) = (n' ← read_digits n l1; read_digits n' l2).
Proof. revert n. induction l1 as [|c l1 IH]; intros n; cbn; [done|]. by destruct (is_decimal c). Qed.

Lemma read_digits_digits w n : 0 ≤ n < 10 ^ Z.of_nat w → read_digits 0 (digits w n) = Ok n.
Proof.
  revert n. induction w as [|w IH]; intros n Hn; [cbn in *; f_equal; lia|].
  rewrite Nat2Z.inj_succ, Z.pow_succ_r in Hn by lia. cbn [digits].
  rewrite read_digits_app, IH by (Z.div_mod_to_equations; lia). cbn.
  destruct (digit_of_spec (n mod 10)) as (H1 & H2 & _); [apply Z.mod_pos_bound; lia|].
  rewrite H1, H2. f_equal. Z.div_mod_to_equations; lia.
Qed.

Lemma without_prefix_app p s : without_prefix p (p +:+ s) = Some s.
Proof.
  induction p as [|c p IH]; [done|]. cbn [without_prefix].
  change (String c p +:+ s)%string with (String c (p +:+ s))%string. cbn [without_prefix].
  by rewrite bool_decide_true.
Qed.

(** Characters other than a dot are kept. *)
Lemma after_last_dot_app read a b :
  (∀ c, c ∈ list_ascii_of_string b → c ≠ "."%char) →
  after_last_dot read (a +:+ b) = (after_last_dot read a +:+ b)%string.
Proof.
  intros Hb. revert read. induction a as [|c a IH]; intros read.
  - change (EmptyString +:+ b)%string with b. cbn [after_last_dot].
    revert read. induction b as [|c b IHb]; intros read; cbn [after_last_dot].
    + by rewrite string_app_nil_r.
    + rewrite bool_decide_false by (apply Hb; cbn; by left).
      rewrite IHb by (intros c' Hc'; apply Hb; cbn; by right). by rewrite string_app_assoc.
  - change (String c a +:+ b)%string with (String c (a +:+ b))%string. cbn [after_last_dot].
    case_bool_decide; by rewrite IH.
Qed.

Definition RELATION_PREFIX : string := "sensor_readings_".
(** The name the catalogue keeps for the partition of a month, and for the catch-all. *)
Definition relname (i : Z) : string := unqualified (partition_name (month_at i)).
Definition DEFAULT_RELATION : string := unqualified default_partition_name.

Lemma unqualified_prefix : (unqualified TELEMETRY_PARTITIONED_TABLE +:+ "_")%string = RELATION_PREFIX.
Proof. reflexivity. Qed.

Lemma relname_eq i :
  relname i = (RELATION_PREFIX +:+ padded 4 (year (month_at i)) +:+ padded 2 (month (month_at i)))%string.
Proof.
  unfold relname, partition_name, unqualified. rewrite <- string_app_assoc.
  rewrite after_last_dot_app; [done|]. intros c. rewrite string_app_list, !padded_digits, elem_of_app.
  by intros [H|H]; apply digits_decimal in H as [_ ?].
Qed.

(** A partition's name says its month. *)
Lemma month_of_relname i :
  valid_month i → month_from_partition_name (relname i) = Ok (Some (month_at i)).
Proof.
  intros Hv. unfold month_from_partition_name. rewrite unqualified_prefix, relname_eq.
  rewrite without_prefix_app, string_app_list, !padded_digits.
  set (y := year (month_at i)). set (m := month (month_at i)).
  assert (1 ≤ y ≤ 9999 ∧ 1 ≤ m ≤ 12) as [Hy Hm] by (unfold y, m; split; month_lia).
  rewrite bool_decide_true by (by rewrite length_app, !digits_length).
  rewrite (proj2 (forallb_forall _ _)).
  - rewrite take_app_length', drop_app_length' by (by rewrite digits_length).
    rewrite !read_digits_digits by lia. cbn [andb mbind result_bind].
    by rewrite new_month_Ok.
  - intros c Hc%list_elem_of_In. unfold is_digit. rewrite orb_true_iff. left.
    apply elem_of_app in Hc as [Hc|Hc]; by apply digits_decimal in Hc as [? _].
Qed.

Lemma relname_inj i j : valid_month i → valid_month j → relname i = relname j → i = j.
Proof.
  intros Hi Hj H. apply month_at_inj. apply month_of_relname in Hi, Hj. congruence.
Qed.

Lemma default_not_month i : valid_month i → relname i ≠ DEFAULT_RELATION.
Proof.
  intros Hv H. apply month_of_relname in Hv. rewrite H in Hv. by vm_compute in Hv.
Qed.

(** ** The table the job keeps

    Every partition is the catch-all or a month's, under its name and with its bounds,
    and every reading is in a partition it belongs to. *)
Record table_ok (t : PartitionedTable) : Prop := mkTableOk {
  tb_parts : ∀ n o, pt_parts t !! n = Some o →
    (n = DEFAULT_RELATION ∧ o = None) ∨
    ∃ i, valid_month i ∧ valid_month (i + 1) ∧ n = relname i ∧ o = Some (month_bounds i);
  tb_rows : ∀ n x, (n, x) ∈ pt_rows t → ∃ o, pt_parts t !! n = Some o ∧
    ∀ b, o = Some b → within x b = true }.

Lemma table_month t i o :
  table_ok t → valid_month i → pt_parts t !! relname i = Some o → o = Some (month_bounds i).
Proof.
  intros Hok Hv H. destruct (tb_parts _ Hok _ _ H) as [[H1 _]|(j & Hj & _ & H1 & ->)].
  - by apply default_not_month in H1.
  - by apply relname_inj in H1 as ->.
Qed.

Lemma table_default t o : table_ok t → pt_parts t !! DEFAULT_RELATION = Some o → o = None.
Proof.
  intros Hok H. destruct (tb_parts _ Hok _ _ H) as [[_ ->]|(j & Hj & _ & H1 & ->)]; [done|].
  symmetry in H1. by apply default_not_month in H1.
Qed.

Lemma elem_of_existing t n : n ∈ existing_partitions t ↔ is_Some (pt_parts t !! n).
Proof.
  unfold existing_partitions. rewrite list_elem_of_fmap. split.
  - intros ([n' o] & -> & H%elem_of_map_to_list). by exists o.
  - intros [o H]. exists (n, o). split; [done|]. by apply elem_of_map_to_list.
Qed.

(** The readings in the catch-all that a month's bounds cover. *)
Definition late_row (t : PartitionedTable) (i : Z) (r : string * datetime) : bool :=
  is_default t r.1 && within r.2 (month_bounds i).

(** Creating the partition of a month that has none. *)
Lemma create_month_run t i :
  table_ok t → valid_month i → pt_parts t !! relname i = None →
  create_partition (relname i) (month_bounds i) t =
  if existsb (late_row t i) (pt_rows t) then Raise IntegrityError
  else Ok (mkPartitionedTable (pt_exists t)
         (<[relname i := Some (month_bounds i)]> (pt_parts t)) (pt_rows t)).
Proof.
  intros Hok Hv Hnone. unfold create_partition. rewrite Hnone.
  assert (existsb (λ o, match o with Some b' => overlaps (month_bounds i) b' | None => false end)
    (map_to_list (pt_parts t)).*2 = false) as ->; [|done].
  apply not_true_iff_false. intros H. apply existsb_exists in H as (o & Hin & Ho).
  apply list_elem_of_In, list_elem_of_fmap in Hin as ([n o'] & -> & Hin%elem_of_map_to_list). cbn in Ho.
  destruct (tb_parts _ Hok _ _ Hin) as [[_ ->]|(j & Hj & _ & -> & ->)]; [done|].
  rewrite month_bounds_disjoint in Ho; [done|]. intros ->. by rewrite Hin in Hnone.
Qed.

Lemma table_ok_create t i :
  table_ok t → valid_month i → valid_month (i + 1) → pt_parts t !! relname i = None →
  table_ok (mkPartitionedTable (pt_exists t)
    (<[relname i := Some (month_bounds i)]> (pt_parts t)) (pt_rows t)).
Proof.
  intros Hok Hv Hv' Hnone. split; cbn.
  - intros n o. destruct (decide (n = relname i)) as [->|Hne].
    + rewrite lookup_insert_eq. intros [= <-]. right. by exists i.
    + rewrite lookup_insert_ne by done. apply (tb_parts _ Hok).
  - intros n x Hin. destruct (tb_rows _ Hok _ _ Hin) as (o & Ho & Hb). exists o.
    by rewrite lookup_insert_ne by congruence.
Qed.

(** *** Creating *)

Definition month_statement (k : Z) : string * Ddl :=
  (partition_name (month_at k),
   CreatePartition (partition_name (month_at k)) (month_at k) (month_at (k + 1))).

Definition creatable (k : Z) : Prop := valid_month k ∧ valid_month (k + 1).

Lemma mapM_months_Ok {A B} (f : A → result B) (g : A → B) l :
  (∀ a, a ∈ l → f a = Ok (g a)) → mapM_months f l = Ok (g <$> l).
Proof.
  induction l as [|a l IH]; intros H; [done|]. cbn. rewrite H by (by left). cbn.
  by rewrite IH by (intros; apply H; by right).
Qed.

(** The window of a job that looks [ahead] months ahead of the month [T]. *)
Definition window (T ahead : Z) : list Z := seqZ T (ahead + 1).

Lemma elem_of_window T ahead k : k ∈ window T ahead ↔ T ≤ k ≤ T + ahead.
Proof. unfold window. rewrite elem_of_seqZ. lia. Qed.

Lemma statements_for_run today ahead :
  1 ≤ month today ≤ 12 → 0 ≤ ahead → valid_month (month_index today) →
  valid_month (month_index today + ahead + 1) →
  statements_for today ahead =
  Ok ((default_partition_name, CreateDefaultPartition default_partition_name) ::
      (month_statement <$> window (month_index today) ahead)).
Proof.
  intros Hm Ha Hv Hv'. unfold statements_for, months_to_create. rewrite bool_decide_false by lia.
  set (T := month_index today) in *.
  assert (month_of today = month_at T) as -> by (by apply month_of_at).
  rewrite (mapM_months_Ok _ (λ c, month_at (T + c))).
  2: { intros c Hc%elem_of_seqZ. rewrite <- (month_index_at T) at 2.
       apply add_months_at; rewrite ?month_index_at; [apply month_at_month|done|].
       unfold valid_month in *. lia. }
  cbn [mbind result_bind]. rewrite (mapM_months_Ok _ (λ m, month_statement (month_index m))).
  2: { intros m (c & -> & Hc%elem_of_seqZ)%list_elem_of_fmap. unfold partition_statement.
       rewrite next_month_at by (unfold valid_month in *; lia). cbn.
       by rewrite month_index_at. }
  cbn [mbind result_bind]. do 2 f_equal. rewrite <- list_fmap_compose. unfold window.
  replace (seqZ T (ahead + 1)) with (Z.add T <$> seqZ 0 (ahead + 1))
    by (by rewrite fmap_add_seqZ, Z.add_0_r).
  rewrite <- list_fmap_compose.
  apply list_fmap_ext. intros i c _. cbn. by rewrite month_index_at.
Qed.

Definition add_parts (ks : list Z) (parts : gmap string (option (datetime * datetime))) :
    gmap string (option (datetime * datetime)) :=
  foldl (λ m k, <[relname k := Some (month_bounds k)]> m) parts ks.

(** Whether the catch-all holds a reading of one of the months. *)
Definition late_rows (t : PartitionedTable) (ks : list Z) : bool :=
  existsb (λ k, existsb (late_row t k) (pt_rows t)) ks.

Lemma late_rows_create t i ks : pt_parts t !! relname i = None →
  late_rows (mkPartitionedTable (pt_exists t)
    (<[relname i := Some (month_bounds i)]> (pt_parts t)) (pt_rows t)) ks = late_rows t ks.
Proof.
  intros Hnone. set (t1 := mkPartitionedTable _ _ _).
  assert (∀ k r, late_row t1 k r = late_row t k r) as H.
  { intros k [n x]. unfold late_row, is_default, t1. cbn. f_equal. apply bool_decide_ext.
    destruct (decide (n = relname i)) as [->|Hne].
    - by rewrite lookup_insert_eq, Hnone.
    - by rewrite lookup_insert_ne. }
  assert (∀ k rows, existsb (late_row t1 k) rows = existsb (late_row t k) rows) as Hrows.
  { intros k rows. induction rows as [|r rows IHr]; [done|]. cbn [existsb]. by rewrite H, IHr. }
  unfold late_rows. change (pt_rows t1) with (pt_rows t).
  induction ks as [|k ks IH]; [done|]. cbn [existsb]. by rewrite IH, Hrows.
Qed.

Lemma create_months_run P ks : ∀ t,
  table_ok t → Forall creatable ks → NoDup ks →
  (∀ k, k ∈ ks → relname k ∈ P ∨ pt_parts t !! relname k = None) →
  let new := filter (λ k, relname k ∉ P) ks in
  create_missing P (month_statement <$> ks) t =
  if late_rows t new then Raise IntegrityError
  else Ok ((λ k, partition_name (month_at k)) <$> new,
           mkPartitionedTable (pt_exists t) (add_parts new (pt_parts t)) (pt_rows t)).
Proof.
  induction ks as [|k ks IH]; intros t Hok Hks Hnd Hp; [by destruct t|].
  apply Forall_cons in Hks as [[Hk Hk'] Hks]. apply NoDup_cons in Hnd as [Hnot Hnd].
  cbn [fmap list_fmap create_missing month_statement]. fold (relname k).
  case_bool_decide as Hin.
  - rewrite filter_cons_False by (intros H; by apply H).
    apply IH; [done|done|done|]. intros k' Hk''. apply Hp. by right.
  - rewrite filter_cons_True by done. destruct (Hp k) as [|Hnone]; [by left|done|].
    cbn [run_ddl]. fold (relname k). fold (month_bounds k).
    rewrite create_month_run by done. cbn [late_rows existsb].
    destruct (existsb (late_row t k) (pt_rows t)); [done|]. cbn [mbind result_bind orb].
    set (t1 := mkPartitionedTable _ _ _).
    rewrite (IH t1); [|by apply table_ok_create|done|done|].
    + cbn zeta. unfold t1. rewrite late_rows_create by done. fold (late_rows t (filter (λ k, relname k ∉ P) ks)).
      by destruct (late_rows t (filter (λ k, relname k ∉ P) ks)).
    + intros k' Hk''. destruct (Hp k') as [|Hn]; [by right|by left|]. right. unfold t1. cbn.
      rewrite lookup_insert_ne; [done|]. intros Heq. apply Hnot.
      rewrite Forall_forall in Hks. destruct (Hks _ Hk'') as [? _].
      by apply relname_inj in Heq as ->.
Qed.

(** The whole of [ensure_telemetry_partitions], on every branch. *)
Definition missing (t : PartitionedTable) (T ahead : Z) : list Z :=
  filter (λ k, relname k ∉ existing_partitions t) (window T ahead).
Definition with_default (t : PartitionedTable) : PartitionedTable :=
  mkPartitionedTable (pt_exists t) (match pt_parts t !! DEFAULT_RELATION with
    | Some _ => pt_parts t | None => <[DEFAULT_RELATION := None]> (pt_parts t) end) (pt_rows t).
Definition created_names (t : PartitionedTable) (T ahead : Z) : list string :=
  match pt_parts t !! DEFAULT_RELATION with Some _ => [] | None => [default_partition_name] end ++
  ((λ k, partition_name (month_at k)) <$> missing t T ahead).
Definition ensured (t : PartitionedTable) (T ahead : Z) : PartitionedTable :=
  mkPartitionedTable (pt_exists t) (add_parts (missing t T ahead) (pt_parts (with_default t)))
    (pt_rows t).

Lemma with_default_ok t : table_ok t → table_ok (with_default t).
Proof.
  intros Hok. unfold with_default. destruct (pt_parts t !! DEFAULT_RELATION) eqn:E; [by destruct t|].
  split; cbn.
  - intros n o. destruct (decide (n = DEFAULT_RELATION)) as [->|Hne].
    + rewrite lookup_insert_eq. intros [= <-]. by left.
    + rewrite lookup_insert_ne by done. apply (tb_parts _ Hok).
  - intros n x Hin. destruct (tb_rows _ Hok _ _ Hin) as (o & Ho & Hb). exists o.
    by rewrite lookup_insert_ne by congruence.
Qed.

(** A catch-all that was just created is empty. *)
Lemma late_rows_default t ks : table_ok t → late_rows (with_default t) ks = late_rows t ks.
Proof.
  intros Hok. unfold with_default. destruct (pt_parts t !! DEFAULT_RELATION) eqn:E; [by destruct t|].
  set (t1 := mkPartitionedTable _ _ _).
  assert (∀ k rows, (∀ n x, (n, x) ∈ rows → (n, x) ∈ pt_rows t) →
    existsb (late_row t1 k) rows = existsb (late_row t k) rows) as Hrows.
  { intros k rows. induction rows as [|[n x] rows IH]; intros Hin; [done|]. cbn [existsb].
    rewrite IH by (intros; apply Hin; by right). f_equal.
    unfold late_row, is_default, t1. cbn. f_equal. apply bool_decide_ext.
    destruct (tb_rows _ Hok n x) as (o & Ho & _); [apply Hin; by left|].
    by rewrite lookup_insert_ne by congruence. }
  unfold late_rows. change (pt_rows t1) with (pt_rows t).
  induction ks as [|k ks IH]; [done|]. cbn [existsb]. by rewrite IH, Hrows.
Qed.

Definition clock_ok (today : date) : Prop := 1 ≤ month today ≤ 12 ∧ valid_month (month_index today).

Lemma window_creatable T ahead : 0 ≤ ahead → valid_month T → valid_month (T + ahead + 1) →
  Forall creatable (window T ahead).
Proof. intros Ha HT HT'. apply Forall_forall. intros k Hk%elem_of_window. unfold creatable, valid_month in *. lia. Qed.

Lemma ensure_run t today ahead :
  table_ok t → pt_exists t = true → clock_ok today → 0 ≤ ahead →
  valid_month (month_index today + ahead + 1) →
  ensure_telemetry_partitions today ahead t =
  if late_rows t (missing t (month_index today) ahead) then Raise IntegrityError
  else Ok (created_names t (month_index today) ahead, ensured t (month_index today) ahead).
Proof.
  intros Hok He [Hm Hv] Ha Hv'. unfold ensure_telemetry_partitions.
  rewrite He, statements_for_run by done. cbn [mbind result_bind].
  set (T := month_index today) in *.
  assert (create_missing (existing_partitions t) (month_statement <$> window T ahead) (with_default t) =
    if late_rows t (missing t T ahead) then Raise IntegrityError
    else Ok ((λ k, partition_name (month_at k)) <$> missing t T ahead, ensured t T ahead)) as Hrun.
  { rewrite create_months_run; [|by apply with_default_ok|by apply window_creatable|apply NoDup_seqZ|].
    - cbn zeta. fold (missing t T ahead). by rewrite late_rows_default.
    - intros k Hk%elem_of_window. rewrite elem_of_existing.
      destruct (pt_parts t !! relname k) as [o|] eqn:E; [left; by exists o|right].
      unfold with_default. cbn. destruct (pt_parts t !! DEFAULT_RELATION) eqn:Ed; [done|].
      rewrite lookup_insert_ne; [done|]. intros Heq. symmetry in Heq.
      apply default_not_month in Heq; [done|]. unfold valid_month in *. lia. }
  cbn [create_missing]. fold DEFAULT_RELATION. unfold created_names.
  destruct (pt_parts t !! DEFAULT_RELATION) as [o|] eqn:Ed.
  - rewrite bool_decide_true by (rewrite elem_of_existing, Ed; by eexists).
    assert (with_default t = t) as Hw by (unfold with_default; rewrite Ed; by destruct t).
    by rewrite Hw in Hrun.
  - rewrite bool_decide_false by (rewrite elem_of_existing, Ed; by intros []).
    cbn [run_ddl]. fold DEFAULT_RELATION. rewrite Ed.
    assert (existsb (λ o, bool_decide (o = None)) (map_to_list (pt_parts t)).*2 = false) as ->.
    { apply not_true_iff_false. intros H. apply existsb_exists in H as (o & Hin & Ho).
      apply bool_decide_eq_true in Ho as ->.
      apply list_elem_of_In, list_elem_of_fmap in Hin as ([n o'] & Heq & Hin%elem_of_map_to_list).
      cbn in Heq. subst o'. destruct (tb_parts _ Hok _ _ Hin) as [[-> _]|(j & _ & _ & _ & ?)]; congruence. }
    cbn [mbind result_bind].
    assert (with_default t = mkPartitionedTable (pt_exists t)
      (<[DEFAULT_RELATION := None]> (pt_parts t)) (pt_rows t)) as Hw
      by (unfold with_default; by rewrite Ed).
    rewrite <- Hw, Hrun. by destruct (late_rows t (missing t T ahead)).
Qed.

Lemma add_parts_other ks n : ∀ parts,
  (∀ k, k ∈ ks → n ≠ relname k) → add_parts ks parts !! n = parts !! n.
Proof.
  induction ks as [|k ks IH]; intros parts H; [done|]. cbn [add_parts foldl].
  fold (add_parts ks (<[relname k := Some (month_bounds k)]> parts)).
  rewrite IH by (intros k' Hk'; apply H; by right).
  rewrite lookup_insert_ne; [done|]. intros Heq. by apply (H k); [left|].
Qed.

Lemma add_parts_month ks k : Forall creatable ks → k ∈ ks → ∀ parts,
  add_parts ks parts !! relname k = Some (Some (month_bounds k)).
Proof.
  induction ks as [|k' ks IH]; intros Hks Hin parts; [by apply not_elem_of_nil in Hin|].
  apply Forall_cons in Hks as [[Hk' _] Hks]. cbn [add_parts foldl].
  fold (add_parts ks (<[relname k' := Some (month_bounds k')]> parts)).
  destruct (decide (k ∈ ks)) as [Hk|Hk]; [by apply IH|].
  apply elem_of_cons in Hin as [->|]; [|done]. rewrite add_parts_other.
  - by rewrite lookup_insert_eq.
  - intros j Hj Heq. rewrite Forall_forall in Hks. destruct (Hks _ Hj) as [Hv _].
    apply relname_inj in Heq as ->; done.
Qed.

Lemma missing_creatable t T ahead :
  0 ≤ ahead → valid_month T → valid_month (T + ahead + 1) → Forall creatable (missing t T ahead).
Proof.
  intros Ha HT HT'. pose proof (window_creatable T ahead Ha HT HT') as H.
  rewrite Forall_forall in *. intros k [_ Hk]%list_elem_of_filter. by apply H.
Qed.

Lemma add_parts_ok ks : ∀ t, table_ok t → Forall creatable ks → NoDup ks →
  (∀ k, k ∈ ks → pt_parts t !! relname k = None) →
  table_ok (mkPartitionedTable (pt_exists t) (add_parts ks (pt_parts t)) (pt_rows t)).
Proof.
  induction ks as [|k ks IH]; intros t Hok Hks Hnd Hnone; [by destruct t|].
  apply Forall_cons in Hks as [[Hk Hk'] Hks]. apply NoDup_cons in Hnd as [Hnot Hnd].
  apply (IH (mkPartitionedTable (pt_exists t) (<[relname k := Some (month_bounds k)]> (pt_parts t))
    (pt_rows t))); [|done|done|].
  - apply table_ok_create; try done. apply Hnone. by left.
  - intros j Hj. cbn. rewrite lookup_insert_ne; [apply Hnone; by right|].
    intros Heq. rewrite Forall_forall in Hks. destruct (Hks _ Hj) as [Hv _].
    apply relname_inj in Heq as ->; done.
Qed.

Lemma missing_absent t T ahead k :
  0 ≤ ahead → valid_month T → valid_month (T + ahead + 1) →
  k ∈ missing t T ahead → pt_parts (with_default t) !! relname k = None.
Proof.
  intros Ha HT HT' [Hnot Hk%elem_of_window]%list_elem_of_filter. rewrite elem_of_existing in Hnot.
  assert (pt_parts t !! relname k = None) as Hn by (by apply eq_None_not_Some).
  unfold with_default. cbn. destruct (pt_parts t !! DEFAULT_RELATION); [done|].
  rewrite lookup_insert_ne; [done|]. intros Heq. symmetry in Heq.
  apply default_not_month in Heq; [done|]. unfold valid_month in *. lia.
Qed.

Lemma ensured_ok t T ahead :
  table_ok t → 0 ≤ ahead → valid_month T → valid_month (T + ahead + 1) →
  table_ok (ensured t T ahead).
Proof.
  intros Hok Ha HT HT'. apply (add_parts_ok _ (with_default t)).
  - by apply with_default_ok.
  - by apply missing_creatable.
  - apply NoDup_filter, NoDup_seqZ.
  - intros k Hk. exact (missing_absent t T ahead k Ha HT HT' Hk).
Qed.

(** After it the catch-all and every month of the window have their partition. *)
Lemma ensured_window t T ahead k :
  table_ok t → 0 ≤ ahead → valid_month T → valid_month (T + ahead + 1) → k ∈ window T ahead →
  pt_parts (ensured t T ahead) !! relname k = Some (Some (month_bounds k)).
Proof.
  intros Hok Ha HT HT' Hk. pose proof (missing_creatable t T ahead Ha HT HT') as Hc.
  pose proof (ensured_ok t T ahead Hok Ha HT HT') as Hok'.
  destruct (decide (k ∈ missing t T ahead)) as [Hm|Hm]; [by apply add_parts_month|].
  assert (valid_month k) as Hv by (apply elem_of_window in Hk; unfold valid_month in *; lia).
  assert (is_Some (pt_parts t !! relname k)) as [o Ho].
  { rewrite <- elem_of_existing. apply dec_stable. intros Hnot. apply Hm.
    by apply list_elem_of_filter. }
  rewrite (table_month _ _ _ Hok Hv Ho) in Ho. cbn. rewrite add_parts_other.
  - unfold with_default. cbn. destruct (pt_parts t !! DEFAULT_RELATION); [done|].
    rewrite lookup_insert_ne; [done|]. intros Heq. symmetry in Heq.
    by apply default_not_month in Heq.
  - intros j Hj Heq. rewrite Forall_forall in Hc. destruct (Hc _ Hj) as [Hvj _].
    apply relname_inj in Heq as ->; done.
Qed.

Lemma ensured_default t T ahead :
  table_ok t → 0 ≤ ahead → valid_month T → valid_month (T + ahead + 1) →
  pt_parts (ensured t T ahead) !! DEFAULT_RELATION = Some None.
Proof.
  intros Hok Ha HT HT'. cbn. rewrite add_parts_other.
  - unfold with_default. cbn. destruct (pt_parts t !! DEFAULT_RELATION) as [o|] eqn:E.
    + by rewrite E, (table_default _ _ Hok E).
    + by rewrite lookup_insert_eq.
  - intros j Hj Heq. pose proof (missing_creatable t T ahead Ha HT HT') as Hc.
    rewrite Forall_forall in Hc. destruct (Hc _ Hj) as [Hvj _].
    symmetry in Heq. by apply default_not_month in Heq.
Qed.

(** *** Dropping *)

(** The partition of a month before the cutoff [C]. *)
Definition expired (C : Z) (n : string) : bool :=
  match month_from_partition_name n with
  | Ok (Some m) => bool_decide (month_index m < C)
  | _ => false
  end.

Lemma expired_relname C i : valid_month i → expired C (relname i) = bool_decide (i < C).
Proof. intros H. unfold expired. by rewrite month_of_relname, month_index_at. Qed.

Definition dropped (C : Z) (t : PartitionedTable) : PartitionedTable :=
  mkPartitionedTable (pt_exists t) (filter (λ p, expired C p.1 = false) (pt_parts t))
    (filter (λ r, expired C r.1 = false) (pt_rows t)).

Definition drop_relations (ns : list string) (t : PartitionedTable) : PartitionedTable :=
  mkPartitionedTable (pt_exists t) (filter (λ p, p.1 ∉ ns) (pt_parts t))
    (filter (λ r, r.1 ∉ ns) (pt_rows t)).

Lemma filter_all {A} (P : A → Prop) `{!∀ x, Decision (P x)} (l : list A) :
  (∀ x, x ∈ l → P x) → filter P l = l.
Proof.
  induction l as [|x l IH]; intros Hl; [done|].
  rewrite filter_cons_True by (apply Hl; by left). by rewrite IH by (intros; apply Hl; by right).
Qed.

Lemma filter_ext_in {A} (P Q : A → Prop) `{!∀ x, Decision (P x), !∀ x, Decision (Q x)}
    (l : list A) :
  (∀ x, x ∈ l → P x ↔ Q x) → filter P l = filter Q l.
Proof.
  induction l as [|x l IH]; intros Hl; [done|]. pose proof (Hl x ltac:(by left)) as Hx.
  rewrite !filter_cons, IH by (intros; apply Hl; by right). repeat case_decide; tauto.
Qed.

Lemma drops_run (es : list (date * string)) : ∀ t,
  foldM (λ t e, run_ddl (DropPartition (partition_name e.1)) t) t es =
  Ok (drop_relations ((λ e, unqualified (partition_name e.1)) <$> es) t).
Proof.
  induction es as [|e es IH]; intros t.
  - cbn. unfold drop_relations. destruct t. cbn. do 2 f_equal.
    + symmetry. apply map_filter_id. intros ? ? _. apply not_elem_of_nil.
    + symmetry. apply filter_all. intros x _. apply not_elem_of_nil.
  - cbn [foldM run_ddl mbind result_bind]. rewrite IH. f_equal. unfold drop_relations. cbn. f_equal.
    + apply map_eq. intros n. rewrite !map_lookup_filter.
      destruct (decide (n = unqualified (partition_name e.1))) as [->|Hne].
      * rewrite lookup_delete_eq. cbn. destruct (pt_parts t !! _) as [o|]; [|done]. cbn.
        rewrite option_guard_False; [done|]. intros H. apply H. by left.
      * rewrite lookup_delete_ne by done. destruct (pt_parts t !! n) as [o|]; [|done]. cbn.
        apply option_guard_iff. cbn. rewrite not_elem_of_cons. tauto.
    + rewrite list_filter_filter. apply list_filter_iff. intros [n x]. cbn.
      rewrite not_elem_of_cons. tauto.
Qed.

(** What the names say: every month's partition, and nothing of the catch-all. *)
Lemma expired_month_run t C n :
  table_ok t → valid_month C → n ∈ existing_partitions t →
  ∃ o, expired_month (month_at C) n = Ok o ∧
    (expired C n = true → ∃ m, o = Some m ∧ unqualified (partition_name m) = n) ∧
    (expired C n = false → o = None).
Proof.
  intros Hok HC Hn. apply elem_of_existing in Hn as [b Hb].
  destruct (tb_parts _ Hok _ _ Hb) as [[-> _]|(i & Hi & Hi' & -> & _)].
  - exists None. split; [reflexivity|]. split; [|done]. by vm_compute.
  - rewrite expired_relname by done. unfold expired_month. rewrite month_of_relname by done.
    cbn [mbind result_bind]. rewrite next_month_at by (unfold valid_month in *; lia).
    cbn [mbind result_bind]. rewrite date_ltb_at. eexists. split; [done|].
    rewrite !bool_decide_eq_true, bool_decide_eq_false. split.
    + intros Hlt. rewrite bool_decide_false by lia. by exists (month_at i).
    + intros Hlt. by rewrite bool_decide_true by lia.
Qed.

Lemma expired_months_run t C l :
  table_ok t → valid_month C → (∀ n, n ∈ l → n ∈ existing_partitions t) →
  ∃ months, mapM_months (expired_month (month_at C)) l = Ok months ∧
    ∀ n, n ∈ (λ e : date * string, unqualified (partition_name e.1)) <$> named_months months ↔
      n ∈ l ∧ expired C n = true.
Proof.
  intros Hok HC. induction l as [|n l IH]; intros Hl.
  { exists []. split; [done|]. intros n. cbn. rewrite !elem_of_nil. tauto. }
  destruct (expired_month_run t C n Hok HC) as (o & Ho & Ht & Hf); [apply Hl; by left|].
  destruct IH as (months & Hm & Hin); [intros; apply Hl; by right|].
  exists (o :: months). cbn. rewrite Ho. cbn. rewrite Hm. split; [done|]. intros n'.
  destruct (expired C n) eqn:E.
  - destruct (Ht eq_refl) as (m & -> & Hname). unfold named_months. cbn.
    rewrite !elem_of_cons, Hname. unfold named_months in Hin. rewrite Hin. naive_solver.
  - rewrite (Hf eq_refl). unfold named_months in *. cbn. rewrite Hin, elem_of_cons. naive_solver congruence.
Qed.

(** The whole of [drop_expired_partitions]. *)
Lemma drop_run t today retention :
  table_ok t → pt_exists t = true → clock_ok today → 0 ≤ retention →
  valid_month (month_index today - retention) →
  ∃ names, drop_expired_partitions today retention t =
    Ok (names, dropped (month_index today - retention) t).
Proof.
  intros Hok He [Hm Hv] Hr HC. set (C := month_index today - retention) in *.
  unfold drop_expired_partitions, expired_partitions, retention_cutoff.
  rewrite He, bool_decide_false by lia. rewrite month_of_at by done.
  rewrite add_months_at; rewrite ?month_index_at; [|apply month_at_month|done|done].
  fold C. cbn [mbind result_bind].
  replace (month_index today + - retention) with C by lia.
  destruct (expired_months_run t C (merge_sort string_le (existing_partitions t)) Hok HC)
    as (months & Hmonths & Hin).
  { intros n Hn. by rewrite merge_sort_Permutation in Hn. }
  rewrite Hmonths. cbn [mbind result_bind]. rewrite drops_run. cbn [mbind result_bind].
  eexists. do 2 f_equal. unfold drop_relations, dropped.
  assert (∀ n, n ∈ existing_partitions t →
    n ∉ (λ e : date * string, unqualified (partition_name e.1)) <$> named_months months ↔
    expired C n = false) as Hex.
  { intros n Hn. rewrite Hin, merge_sort_Permutation. destruct (expired C n); naive_solver. }
  f_equal.
  - apply map_eq. intros n. rewrite !map_lookup_filter.
    destruct (pt_parts t !! n) as [o|] eqn:E; [|done]. cbn. apply option_guard_iff. cbn.
    apply Hex. rewrite elem_of_existing, E. by eexists.
  - apply filter_ext_in. intros [n x] Hin'. cbn. apply Hex. rewrite elem_of_existing.
    destruct (tb_rows _ Hok _ _ Hin') as (o & Ho & _). by exists o.
Qed.

Lemma dropped_ok C t : table_ok t → table_ok (dropped C t).
Proof.
  intros Hok. split; cbn.
  - intros n o [H _]%map_lookup_filter_Some. by apply (tb_parts _ Hok).
  - intros n x [He Hin]%list_elem_of_filter. destruct (tb_rows _ Hok _ _ Hin) as (o & Ho & Hb).
    exists o. split; [|done]. by apply map_lookup_filter_Some.
Qed.

(** One tick, on the branch where nothing stands in the way. *)
Lemma partition_job_run t ahead retention today today' :
  table_ok t → pt_exists t = true → clock_ok today → clock_ok today' → 0 ≤ ahead → 0 ≤ retention →
  valid_month (month_index today + ahead + 1) → valid_month (month_index today' - retention) →
  TelemetryPartitionJob_run_once ahead retention today today' t =
  if late_rows t (missing t (month_index today) ahead) then (Raise IntegrityError, t)
  else (Ok (created_names t (month_index today) ahead),
        dropped (month_index today' - retention) (ensured t (month_index today) ahead)).
Proof.
  intros Hok He Hc Hc' Ha Hr Hlast Hfirst. unfold TelemetryPartitionJob_run_once.
  rewrite ensure_run by done. destruct (late_rows _ _); [done|]. cbn [mbind result_bind].
  destruct (drop_run (ensured t (month_index today) ahead) today' retention) as [names E];
    [apply ensured_ok; try done; apply Hc|done|done|done|done|].
  cbn [snd]. rewrite E. done.
Qed.

Lemma existing_dropped C t T ahead k :
  C ≤ T → k ∈ window T ahead → valid_month k →
  pt_parts t !! relname k = Some (Some (month_bounds k)) →
  pt_parts (dropped C t) !! relname k = Some (Some (month_bounds k)).
Proof.
  intros HC Hk%elem_of_window Hv Hp. cbn. apply map_lookup_filter_Some. split; [done|]. cbn.
  rewrite expired_relname by done. apply bool_decide_eq_false. lia.
Qed.

Lemma tick_ok t ahead retention today today' :
  table_ok t → pt_exists t = true → clock_ok today → clock_ok today' → 0 ≤ ahead → 0 ≤ retention →
  valid_month (month_index today + ahead + 1) → valid_month (month_index today' - retention) →
  table_ok (TelemetryPartitionJob_run_once ahead retention today today' t).2.
Proof.
  intros Hok He Hc Hc' Ha Hr Hlast Hfirst. rewrite partition_job_run by done.
  destruct (late_rows _ _); [done|]. apply dropped_ok, ensured_ok; try done. apply Hc.
Qed.

Lemma route_part x t n :
  route x t = Some n → ∃ o, pt_parts t !! n = Some o ∧ ∀ b, o = Some b → within x b = true.
Proof.
  unfold route. destruct (filter _ (map_to_list (pt_parts t))) as [|[n' o] l] eqn:E.
  - destruct (filter (λ p, p.2 = None) _) as [|[n' o] l] eqn:E'; [done|]. intros [= <-].
    assert ((n', o) ∈ filter (λ p, p.2 = None) (map_to_list (pt_parts t))) as Hin
      by (rewrite E'; by left).
    apply list_elem_of_filter in Hin as [Ho Hin%elem_of_map_to_list]. cbn in Ho. subst o.
    by exists None.
  - intros [= <-].
    assert ((n', o) ∈ filter (λ p, covers x p.2 = true) (map_to_list (pt_parts t))) as Hin
      by (rewrite E; by left).
    apply list_elem_of_filter in Hin as [Ho Hin%elem_of_map_to_list]. cbn in Ho.
    exists o. split; [done|]. by intros b ->.
Qed.

Lemma insert_reading_ok x t t' : table_ok t → insert_reading x t = Ok t' → table_ok t'.
Proof.
  intros Hok. unfold insert_reading. destruct (route x t) as [n|] eqn:E; [|done]. intros [= <-].
  split; [apply (tb_parts _ Hok)|]. cbn. intros n' x'.
  rewrite elem_of_app, list_elem_of_singleton. intros [H|[= -> ->]]; [by apply (tb_rows _ Hok)|].
  by apply route_part.
Qed.

(** A tick over a table that has what it needs creates nothing and drops what expired. *)
Lemma nothing_missing t T ahead :
  (∀ k, k ∈ window T ahead → is_Some (pt_parts t !! relname k)) → missing t T ahead = [].
Proof.
  intros H. unfold missing. generalize (elem_of_window T ahead). intros _.
  assert (∀ l, (∀ k, k ∈ l → is_Some (pt_parts t !! relname k)) →
    filter (λ k, relname k ∉ existing_partitions t) l = []) as Hl; [|by apply Hl].
  induction l as [|k l IH]; intros Hk; [done|]. rewrite filter_cons_False.
  - apply IH. intros; apply Hk; by right.
  - rewrite elem_of_existing. intros Hn. apply Hn, Hk. by left.
Qed.

Lemma dropped_twice C t : dropped C (dropped C t) = dropped C t.
Proof.
  unfold dropped. cbn. f_equal.
  - apply map_filter_id. by intros n o [_ H]%map_lookup_filter_Some.
  - apply filter_all. by intros r [H _]%list_elem_of_filter.
Qed.

(** ** Theorems *)

(** A tick of the partition job.  When no reading of a month to create sits in the
    catch-all, the tick commits: it creates exactly the catch-all and the months of its
    window that were missing, drops exactly the months wholly before the retention
    window, with their readings, and leaves a table in good order.  As long as the
    retention window reaches back to the current month, the catch-all and every month from
    the current one to the last one ahead then have their partition, and another tick on
    the same day creates nothing and changes nothing. *)
Theorem partition_tick (t : PartitionedTable) (ahead retention : Z) (today today' : date) :
  table_ok t → pt_exists t = true → clock_ok today → clock_ok today' → 0 ≤ ahead → 0 ≤ retention →
  let T := month_index today in
  let C := month_index today' - retention in
  valid_month (T + ahead + 1) → valid_month C → late_rows t (missing t T ahead) = false →
  let t' := dropped C (ensured t T ahead) in
  TelemetryPartitionJob_run_once ahead retention today today' t = (Ok (created_names t T ahead), t') ∧
  table_ok t' ∧
  (C ≤ T →
    (∀ k, k ∈ window T ahead → pt_parts t' !! relname k = Some (Some (month_bounds k))) ∧
    pt_parts t' !! DEFAULT_RELATION = Some None ∧
    TelemetryPartitionJob_run_once ahead retention today today' t' = (Ok [], t')).
Proof.
  intros Hok He Hc Hc' Ha Hr T C Hlast Hfirst Hlate t'.
  assert (valid_month T) as HT by apply Hc.
  assert (table_ok t') as Hok' by (by apply dropped_ok, ensured_ok).
  split; [rewrite partition_job_run by done; by fold T C; rewrite Hlate|]. split; [done|]. intros HC.
  assert (∀ k, k ∈ window T ahead → pt_parts t' !! relname k = Some (Some (month_bounds k))) as Hw.
  { intros k Hk. apply (existing_dropped _ _ T ahead); [done|done| |by apply ensured_window].
    apply elem_of_window in Hk. unfold valid_month in *. lia. }
  assert (pt_parts t' !! DEFAULT_RELATION = Some None) as Hd.
  { apply map_lookup_filter_Some. split; [by apply ensured_default|]. by vm_compute. }
  split; [done|]. split; [done|].
  assert (missing t' T ahead = []) as Hm
    by (apply nothing_missing; intros k Hk; rewrite (Hw k Hk); by eexists).
  assert (ensured t' T ahead = t') as Hen.
  { unfold ensured, with_default. rewrite Hm, Hd. by destruct t'. }
  rewrite partition_job_run by done. fold T C. rewrite Hm. cbn [late_rows existsb].
  rewrite Hen. unfold created_names. rewrite Hd, Hm.
  f_equal. apply dropped_twice.
Qed.

(** What retention deletes.  After a tick that commits, a reading is gone exactly
    when it was in the partition of a month wholly before the retention window: every
    reading of an instant inside the window is kept, and so is every reading in the
    catch-all, whatever its age. *)
Theorem retention_keeps_the_window (t : PartitionedTable) (ahead retention : Z)
    (today today' : date) (n : string) (x : datetime) :
  table_ok t → pt_exists t = true → clock_ok today → clock_ok today' → 0 ≤ ahead → 0 ≤ retention →
  let C := month_index today' - retention in
  valid_month (month_index today + ahead + 1) → valid_month C →
  late_rows t (missing t (month_index today) ahead) = false →
  (n, x) ∈ pt_rows t →
  (n, x) ∈ pt_rows (TelemetryPartitionJob_run_once ahead retention today today' t).2 ↔
  n = DEFAULT_RELATION ∨ midnight (month_at C) ≤ x.
Proof.
  intros Hok He Hc Hc' Ha Hr C Hlast Hfirst Hlate Hin.
  rewrite partition_job_run by done. fold C. rewrite Hlate. cbn. rewrite list_elem_of_filter. cbn.
  assert (expired C n = false ↔ n = DEFAULT_RELATION ∨ midnight (month_at C) ≤ x) as ->; [|tauto].
  destruct (tb_rows _ Hok _ _ Hin) as (o & Ho & Hb).
  destruct (tb_parts _ Hok _ _ Ho) as [[-> _]|(i & Hi & _ & -> & ->)].
  { split; [by left|]. intros _. by vm_compute. }
  specialize (Hb _ eq_refl). unfold within in Hb. cbn in Hb.
  rewrite andb_true_iff, !bool_decide_eq_true in Hb. destruct Hb as [Hlo Hhi].
  rewrite expired_relname, bool_decide_eq_false by done. split.
  - intros H. right. pose proof (midnight_le C i). lia.
  - intros [H|H]; [by apply default_not_month in H|]. intros Hlt.
    pose proof (midnight_le (i + 1) C). lia.
Qed.

(** A reading lands in its own month.  After a tick that commits, a reading of any
    instant from the start of the current month to the end of the last month ahead goes to
    the partition of the month whose bounds it is within, and to no other. *)
Theorem reading_lands_in_its_month (t : PartitionedTable) (ahead retention : Z)
    (today today' : date) (x : datetime) :
  table_ok t → pt_exists t = true → clock_ok today → clock_ok today' → 0 ≤ ahead → 0 ≤ retention →
  let T := month_index today in
  let C := month_index today' - retention in
  valid_month (T + ahead + 1) → valid_month C → C ≤ T →
  late_rows t (missing t T ahead) = false →
  midnight (month_at T) ≤ x < midnight (month_at (T + ahead + 1)) →
  let t' := (TelemetryPartitionJob_run_once ahead retention today today' t).2 in
  ∃ k, k ∈ window T ahead ∧ within x (month_bounds k) = true ∧ route x t' = Some (relname k) ∧
    ∀ n b, pt_parts t' !! n = Some (Some b) → within x b = true → n = relname k.
Proof.
  intros Hok He Hc Hc' Ha Hr T C Hlast Hfirst HC Hlate Hx t'.
  assert (valid_month T) as HT by apply Hc.
  assert (∃ k, T ≤ k ≤ T + ahead ∧ within x (month_bounds k) = true) as (k & Hk & Hin).
  { assert (∀ m : nat, Z.of_nat m ≤ ahead + 1 → midnight (month_at T) ≤ x < midnight (month_at (T + Z.of_nat m)) →
      ∃ k, T ≤ k ≤ T + ahead ∧ within x (month_bounds k) = true) as H.
    { induction m as [|m IH]; intros Hm Hxm; [rewrite Z.add_0_r in Hxm; lia|].
      destruct (decide (x < midnight (month_at (T + Z.of_nat m)))); [apply IH; lia|].
      exists (T + Z.of_nat m). split; [lia|]. unfold within, month_bounds. cbn.
      rewrite andb_true_iff, !bool_decide_eq_true. split; [lia|].
      replace (T + Z.of_nat m + 1) with (T + Z.of_nat (S m)) by lia. lia. }
    apply (H (Z.to_nat (ahead + 1))); [lia|]. replace (T + Z.of_nat (Z.to_nat (ahead + 1)))
      with (T + ahead + 1) by lia. done. }
  assert (k ∈ window T ahead) as Hkw by (by apply elem_of_window).
  assert (valid_month k) as Hkv by (unfold valid_month in *; lia).
  assert (t' = dropped C (ensured t T ahead)) as Ht'.
  { unfold t'. rewrite partition_job_run by done. fold T C. by rewrite Hlate. }
  assert (table_ok t') as Hok' by (rewrite Ht'; by apply dropped_ok, ensured_ok).
  assert (pt_parts t' !! relname k = Some (Some (month_bounds k))) as Hp.
  { rewrite Ht'. apply (existing_dropped _ _ T ahead); [done..|by apply ensured_window]. }
  assert (∀ n b, pt_parts t' !! n = Some (Some b) → within x b = true → n = relname k) as Hone.
  { intros n b Hn Hb. destruct (tb_parts _ Hok' _ _ Hn) as [[_ ?]|(j & _ & _ & -> & [= ->])]; [done|].
    by rewrite (within_unique x j k). }
  exists k. do 2 (split; [done|]). split; [|done]. unfold route.
  destruct (filter _ (map_to_list (pt_parts t'))) as [|[n o] l] eqn:E.
  - exfalso. assert ((relname k, Some (month_bounds k)) ∈ ([] : list (string * option (datetime * datetime))))
      as Hbad; [|by apply not_elem_of_nil in Hbad].
    rewrite <- E. apply list_elem_of_filter. split; [done|]. by apply elem_of_map_to_list.
  - assert ((n, o) ∈ filter (λ p, covers x p.2 = true) (map_to_list (pt_parts t'))) as Hno
      by (rewrite E; by left).
    apply list_elem_of_filter in Hno as [Hcov Hno%elem_of_map_to_list]. cbn in Hcov.
    destruct o as [b|]; [|done]. f_equal. by apply (Hone n b).
Qed.

(** One reading in the catch-all can stop the job for good.  When the catch-all holds
    a reading of a month of the window that has no partition yet — the job was stopped past
    the months it had created, or a sensor's clock was ahead — creating that month's
    partition is refused, the tick raises and commits nothing: neither the other months
    are created nor any expired one is dropped, at this tick and at every later one whose
    window still has the month. *)
Theorem late_reading_blocks_the_job (t : PartitionedTable) (ahead retention : Z)
    (today today' : date) (x : datetime) (k : Z) :
  table_ok t → pt_exists t = true → clock_ok today → clock_ok today' → 0 ≤ ahead → 0 ≤ retention →
  valid_month (month_index today + ahead + 1) → valid_month (month_index today' - retention) →
  (DEFAULT_RELATION, x) ∈ pt_rows t → within x (month_bounds k) = true →
  k ∈ window (month_index today) ahead → pt_parts t !! relname k = None →
  TelemetryPartitionJob_run_once ahead retention today today' t = (Raise IntegrityError, t).
Proof.
  intros Hok He Hc Hc' Ha Hr Hlast Hfirst Hin Hx Hk Hnone. rewrite partition_job_run by done.
  assert (late_rows t (missing t (month_index today) ahead) = true) as ->; [|done].
  unfold late_rows. apply existsb_exists. exists k. split.
  - apply list_elem_of_In, list_elem_of_filter. split; [|done].
    rewrite elem_of_existing, Hnone. by intros [].
  - apply existsb_exists. exists (DEFAULT_RELATION, x). split; [by apply list_elem_of_In|].
    unfold late_row, is_default. cbn. destruct (tb_rows _ Hok _ _ Hin) as (o & Ho & _).
    rewrite (table_default _ _ Hok Ho) in Ho. by rewrite bool_decide_true.
Qed.

(** A name with six digits that are no month is not skipped: reading it raises, and with
    it every tick. *)
Lemma six_digits_are_read_as_a_month :
  month_from_partition_name "sensor_readings_202613" = Raise ValueError.
Proof. reflexivity. Qed.

(** ** A table over a few months *)

Definition demo_table : PartitionedTable := mkPartitionedTable true ∅ [].
Definition demo_tick (d : date) (t : PartitionedTable) : PartitionedTable :=
  (TelemetryPartitionJob_run_once 1 2 d d t).2.
Definition demo_insert (d : date) (t : PartitionedTable) : PartitionedTable :=
  match insert_reading (midnight d) t with Ok t' => t' | Raise _ => t end.
(** Two readings of January 2026 and one of a year before, after a tick in January. *)
Definition demo_readings : PartitionedTable :=
  demo_insert (mkDate 2025 1 3) (demo_insert (mkDate 2026 1 20) (demo_insert (mkDate 2026 1 5)
    (demo_tick (mkDate 2026 1 15) demo_table))).

Lemma demo_table_ok : table_ok demo_table.
Proof. split; [by intros n o|]. cbn. intros n x H. by apply not_elem_of_nil in H. Qed.

Lemma demo_insert_ok d t : table_ok t → table_ok (demo_insert d t).
Proof.
  intros H. unfold demo_insert. destruct (insert_reading (midnight d) t) eqn:E; [|done].
  by apply insert_reading_ok in E.
Qed.

Ltac clock := unfold clock_ok, valid_month, month_index; cbn; lia.

Lemma demo_readings_ok : table_ok demo_readings.
Proof. do 3 apply demo_insert_ok. apply tick_ok; [apply demo_table_ok|done|clock..]. Qed.

Lemma partition_tick_witness :
  TelemetryPartitionJob_run_once 1 2 (mkDate 2026 12 31) (mkDate 2026 12 31) demo_table =
    (Ok ["write_telemetry.sensor_readings_default"; "write_telemetry.sensor_readings_202612";
         "write_telemetry.sensor_readings_202701"]%string, demo_tick (mkDate 2026 12 31) demo_table) ∧
  TelemetryPartitionJob_run_once 1 2 (mkDate 2026 12 31) (mkDate 2026 12 31)
    (demo_tick (mkDate 2026 12 31) demo_table) = (Ok [], demo_tick (mkDate 2026 12 31) demo_table).
Proof.
  destruct (partition_tick demo_table 1 2 (mkDate 2026 12 31) (mkDate 2026 12 31)) as (E & _ & H).
  - exact demo_table_ok.
  - reflexivity.
  - clock.
  - clock.
  - lia.
  - lia.
  - clock.
  - clock.
  - reflexivity.
  - destruct H as (_ & _ & H); [clock|].
    unfold demo_tick at 1 2 3. rewrite !E. split; [vm_compute; reflexivity|exact H].
Defined.

Lemma retention_keeps_the_window_witness :
  let t' := (TelemetryPartitionJob_run_once 1 2 (mkDate 2026 4 10) (mkDate 2026 4 10)
    demo_readings).2 in
  pt_rows t' = [(DEFAULT_RELATION, midnight (mkDate 2025 1 3))] ∧
  (relname 24312, midnight (mkDate 2026 1 5)) ∉ pt_rows t' ∧
  (DEFAULT_RELATION, midnight (mkDate 2025 1 3)) ∈ pt_rows t'.
Proof.
  assert (∀ n x, (n, x) ∈ pt_rows demo_readings →
    (n, x) ∈ pt_rows (TelemetryPartitionJob_run_once 1 2 (mkDate 2026 4 10) (mkDate 2026 4 10)
      demo_readings).2 ↔ n = DEFAULT_RELATION ∨ (midnight (month_at 24313) ≤ x)) as H.
  { intros n x Hin. apply (retention_keeps_the_window demo_readings 1 2 (mkDate 2026 4 10)
      (mkDate 2026 4 10) n x); [exact demo_readings_ok|reflexivity|clock|clock|lia|lia|clock|clock| |exact Hin].
    vm_compute. reflexivity. }
  split; [vm_compute; reflexivity|]. split.
  - rewrite H by (apply (bool_decide_unpack _); vm_compute; exact I).
    intros [Hn|Hx]; [by apply default_not_month in Hn|]. vm_compute in Hx. by apply Hx.
  - apply H; [|by left]. apply (bool_decide_unpack _). vm_compute. exact I.
Defined.

Lemma reading_lands_in_its_month_witness :
  route (midnight (mkDate 2026 2 14)) (demo_tick (mkDate 2026 1 15) demo_table) =
    Some "sensor_readings_202602"%string.
Proof.
  destruct (reading_lands_in_its_month demo_table 1 2 (mkDate 2026 1 15) (mkDate 2026 1 15)
    (midnight (mkDate 2026 2 14))) as (k & Hk & Hin & Hroute & _).
  - exact demo_table_ok.
  - reflexivity.
  - clock.
  - clock.
  - lia.
  - lia.
  - clock.
  - clock.
  - clock.
  - reflexivity.
  - split; [vm_compute; discriminate|vm_compute; reflexivity].
  - assert (k = 24313) as ->.
    { apply (within_unique (midnight (mkDate 2026 2 14))); [exact Hin|vm_compute; reflexivity]. }
    exact Hroute.
Defined.

(** The job slept from January to the end of February while March readings came in. *)
Lemma late_reading_blocks_the_job_witness :
  let t := demo_insert (mkDate 2026 3 5) (demo_tick (mkDate 2026 1 15) demo_table) in
  TelemetryPartitionJob_run_once 1 2 (mkDate 2026 2 20) (mkDate 2026 2 20) t =
    (Raise IntegrityError, t).
Proof.
  apply (late_reading_blocks_the_job _ 1 2 (mkDate 2026 2 20) (mkDate 2026 2 20)
    (midnight (mkDate 2026 3 5)) 24314).
  - apply demo_insert_ok, tick_ok; [exact demo_table_ok|reflexivity|clock..].
  - reflexivity.
  - clock.
  - clock.
  - lia.
  - lia.
  - clock.
  - clock.
  - apply (bool_decide_unpack _). vm_compute. exact I.
  - vm_compute. reflexivity.
  - apply elem_of_window. clock.
  - vm_compute. reflexivity.
Defined.
