(* ===== verification/ReadModels.v ===== *)
(** The tables of the read side and what a projection is: the models of
    [apps/admin/read_models/models.py] and [apps/admin/read_telemetry/models.py], the few
    ORM calls the projections make on them, and [apps/admin/projections/base.py]. *)

From S2P Require Import Prelude Domain Topics Rows Delivery.

(** ** The models

    Rows are kept by primary key.  The columns of [plants] are grouped by the projection
    that owns them, as the model marks them. *)
Record GardenColumns := mkGardenColumns {
  gc_household_id : option uuid;
  gc_species_id : option uuid;
  gc_name : option string;
  gc_location : option string;
  gc_added_at : option datetime;
  gc_removed : bool;
  gc_onboarded_at : option datetime }.

Record PlantReadModel := mkPlantReadModel {
  pr_garden : GardenColumns;
  pr_species_name : option string;
  pr_next_watering_at : option datetime;
  pr_updated_at : datetime }.

Record CareReadModel := mkCareReadModel {
  cr_watering_interval : timedelta;
  cr_next_watering_at : datetime;
  cr_last_watered_at : option datetime;
  cr_version : Z;
  cr_updated_at : datetime }.

Record SpeciesReadModel := mkSpeciesReadModel {
  sr_scientific_name : string;
  sr_common_name : string;
  sr_watering_interval : timedelta;
  sr_light_requirement : string;
  sr_version : Z;
  sr_updated_at : datetime }.

Record NotificationReadModel := mkNotificationReadModel {
  nr_household_id : uuid;
  nr_notification_type : string;
  nr_payload : gmap string JsonValue;
  nr_created_at : datetime;
  nr_read_at : option datetime }.

Record JournalReadModel := mkJournalReadModel {
  jr_plant : uuid;
  jr_entry_type : string;
  jr_note : option string;
  jr_occurred_at : datetime;
  jr_recorded_at : datetime }.

(** [ROLLUP_WINDOW]: the width of one window. *)
Definition ROLLUP_WINDOW : timedelta := hours 1.

Record TelemetryRollup := mkTelemetryRollup {
  tr_plant_id : uuid;
  tr_moisture_min : float;
  tr_moisture_max : float;
  tr_moisture_avg : float;
  tr_temperature_min : float;
  tr_temperature_max : float;
  tr_temperature_avg : float;
  tr_sample_count : Z }.

Record SensorLatest := mkSensorLatest {
  sl_plant_id : uuid;
  sl_recorded_at : datetime;
  sl_moisture : float;
  sl_temperature : float;
  sl_light : float;
  sl_offline_at : option datetime;
  sl_last_alert_at : option datetime;
  sl_last_alert_type : option string }.

(** [rd_processed_events] is the ledger, keyed by its unique constraint. *)
Record ReadDatabase := mkReadDatabase {
  rd_plants : gmap uuid PlantReadModel;
  rd_care : gmap uuid CareReadModel;
  rd_species : gmap uuid SpeciesReadModel;
  rd_notifications : gmap uuid NotificationReadModel;
  rd_journal : gmap uuid JournalReadModel;
  rd_rollups : gmap (uuid * datetime) TelemetryRollup;
  rd_latest : gmap uuid SensorLatest;
  rd_processed_events : gset (string * uuid) }.

Definition ReadDatabase_empty : ReadDatabase := mkReadDatabase ∅ ∅ ∅ ∅ ∅ ∅ ∅ ∅.

Definition put_plants (d : ReadDatabase) t : ReadDatabase :=
  mkReadDatabase t (rd_care d) (rd_species d) (rd_notifications d) (rd_journal d)
    (rd_rollups d) (rd_latest d) (rd_processed_events d).
Definition put_care (d : ReadDatabase) t : ReadDatabase :=
  mkReadDatabase (rd_plants d) t (rd_species d) (rd_notifications d) (rd_journal d)
    (rd_rollups d) (rd_latest d) (rd_processed_events d).
Definition put_species (d : ReadDatabase) t : ReadDatabase :=
  mkReadDatabase (rd_plants d) (rd_care d) t (rd_notifications d) (rd_journal d)
    (rd_rollups d) (rd_latest d) (rd_processed_events d).
Definition put_notifications (d : ReadDatabase) t : ReadDatabase :=
  mkReadDatabase (rd_plants d) (rd_care d) (rd_species d) t (rd_journal d)
    (rd_rollups d) (rd_latest d) (rd_processed_events d).
Definition put_journal (d : ReadDatabase) t : ReadDatabase :=
  mkReadDatabase (rd_plants d) (rd_care d) (rd_species d) (rd_notifications d) t
    (rd_rollups d) (rd_latest d) (rd_processed_events d).
Definition put_telemetry (d : ReadDatabase) rollups latest : ReadDatabase :=
  mkReadDatabase (rd_plants d) (rd_care d) (rd_species d) (rd_notifications d) (rd_journal d)
    rollups latest (rd_processed_events d).
Definition put_ledger (d : ReadDatabase) t : ReadDatabase :=
  mkReadDatabase (rd_plants d) (rd_care d) (rd_species d) (rd_notifications d) (rd_journal d)
    (rd_rollups d) (rd_latest d) t.

(** A row created from its primary key alone: every other column has its default. *)
Definition no_garden_columns : GardenColumns := mkGardenColumns None None None None None false None.
Definition PlantReadModel_new (now : datetime) : PlantReadModel :=
  mkPlantReadModel no_garden_columns None None now.

(** ** What the ORM does

    A value longer than its [varchar] column is refused (SQLSTATE 22001). *)
Definition string_data_right_truncation : exn := OperationError 22001.
Definition varchar (n : nat) (s : string) : result string :=
  if bool_decide (String.length s ≤ n) then Ok s else Raise string_data_right_truncation.

(** [objects.get_or_create(pk=k, defaults=...)]: the table and whether a row was made. *)
Definition get_or_create {K V} `{Countable K} (k : K) (fresh : V) (t : gmap K V) : gmap K V * bool :=
  match t !! k with Some _ => (t, false) | None => (<[k := fresh]> t, true) end.

(** [objects.update_or_create(pk=k, defaults=...)]: [assign] writes the columns of
    [defaults] on the row, or on one with every column at its default. *)
Definition update_or_create {K V} `{Countable K} (k : K) (fresh : V) (assign : V → result V)
    (t : gmap K V) : result (gmap K V) :=
  row ← assign (default fresh (t !! k)); Ok (<[k := row]> t).

(** [objects.filter(pk=k).update(...)]: nothing when there is no such row. *)
Definition filter_update {K V} `{Countable K} (k : K) (assign : V → result V) (t : gmap K V) :
    result (gmap K V) :=
  match t !! k with
  | Some row => row' ← assign row; Ok (<[k := row']> t)
  | None => Ok t
  end.

(** ** Projections *)

(** A handler, past the dispatch on the event's class: the instant [auto_now] reads and
    the rows of the transaction. *)
Abbreviation projection_handler := (datetime → ReadDatabase → result ReadDatabase) (only parsing).

Record Projection := mkProjection {
  pj_name : string;
  pj_topics : list string;
  (** [handlers.get(type(event))]. *)
  pj_handler : DomainEvent → option projection_handler }.

Definition Projection_handles (p : Projection) (e : DomainEvent) : bool :=
  match pj_handler p e with Some _ => true | None => false end.

(** [ProcessedEvent.objects.get_or_create]: whether this call made the row. *)
Definition claim_event (consumer_group : string) (event_id : uuid) (d : ReadDatabase) :
    bool * ReadDatabase :=
  let key := (consumer_group, event_id) in
  (bool_decide (key ∉ rd_processed_events d), put_ledger d ({[key]} ∪ rd_processed_events d)).

(** [with transaction.atomic()]: the block's writes on the rows when it returned and the
    commit took them. *)
Definition atomic {A} (fate : commit_fate) (block : ReadDatabase → result (A * ReadDatabase))
    (d : ReadDatabase) : result A * ReadDatabase :=
  match block d with
  | Raise e => (Raise e, d)
  | Ok (a, d') =>
      match fate with
      | Acknowledged => (Ok a, d')
      | Refused e => (Raise e, d)
      | Unacknowledged e => (Raise e, d')
      end
  end.

Definition Projection_apply (p : Projection) (consumer_group : string) (now : datetime)
    (fate : commit_fate) (e : DomainEvent) (d : ReadDatabase) : result bool * ReadDatabase :=
  match pj_handler p e with
  | None => (Ok false, d)
  | Some handler =>
      atomic fate (λ d,
        let '(created, d1) := claim_event consumer_group (event_id e) d in
        if negb created then Ok (false, d1)
        else d2 ← handler now d1; Ok (true, d2)) d
  end.

Definition record_move_aside (event_id : uuid) (consumer_group : string) (fate : commit_fate)
    (d : ReadDatabase) : result bool * ReadDatabase :=
  atomic fate (λ d, Ok (claim_event consumer_group event_id d)) d.

(** ** Lemmas *)

Lemma varchar_Ok n s s' : varchar n s = Ok s' ↔ s' = s ∧ String.length s ≤ n.
Proof. unfold varchar. case_bool_decide; naive_solver. Qed.

(** A text that was stored is the one given. *)
Ltac inv_varchar :=
  repeat match goal with H : varchar _ _ = Ok _ |- _ => apply varchar_Ok in H as [-> _] end.

Lemma varchar_fits n s : String.length s ≤ n → varchar n s = Ok s.
Proof. intros. by apply varchar_Ok. Qed.

Lemma update_or_create_Ok {K V} `{Countable K} (k : K) (fresh : V) assign t t' :
  update_or_create k fresh assign t = Ok t' ↔
  ∃ row, assign (default fresh (t !! k)) = Ok row ∧ t' = <[k := row]> t.
Proof. unfold update_or_create. rewrite bind_Ok. naive_solver. Qed.

Lemma filter_update_Ok {K V} `{Countable K} (k : K) (assign : V → result V) t t' :
  filter_update k assign t = Ok t' ↔
  match t !! k with
  | Some row => ∃ row', assign row = Ok row' ∧ t' = <[k := row']> t
  | None => t' = t
  end.
Proof. unfold filter_update. destruct (t !! k); [rewrite bind_Ok|]; naive_solver. Qed.

(** The rows an ORM call writes are those of its key. *)
Lemma filter_update_lookup {K V} `{Countable K} (k j : K) (assign : V → result V) t t' :
  filter_update k assign t = Ok t' →
  if decide (k = j) then match t !! j with
                         | Some row => ∃ row', assign row = Ok row' ∧ t' !! j = Some row'
                         | None => t' !! j = None
                         end
  else t' !! j = t !! j.
Proof.
  intros Hu%filter_update_Ok. case_decide as Hkj.
  - subst j. destruct (t !! k) eqn:E; [|by subst].
    destruct Hu as (row' & ? & ->). exists row'. by rewrite lookup_insert_eq.
  - destruct (t !! k); [|by subst]. destruct Hu as (row' & _ & ->). by rewrite lookup_insert_ne.
Qed.

Lemma update_or_create_lookup {K V} `{Countable K} (k j : K) (fresh : V) assign t t' :
  update_or_create k fresh assign t = Ok t' →
  if decide (k = j) then ∃ row, assign (default fresh (t !! j)) = Ok row ∧ t' !! j = Some row
  else t' !! j = t !! j.
Proof.
  intros (row & Hrow & ->)%update_or_create_Ok. case_decide as Hkj.
  - subst j. exists row. by rewrite lookup_insert_eq.
  - by rewrite lookup_insert_ne.
Qed.

Lemma get_or_create_lookup {K V} `{Countable K} (k j : K) (fresh : V) t :
  (get_or_create k fresh t).1 !! j =
  if decide (k = j) then Some (default fresh (t !! j)) else t !! j.
Proof.
  unfold get_or_create. case_decide as Hkj; [subst j|]; destruct (t !! k) eqn:E; cbn;
    rewrite ?lookup_insert_eq, ?lookup_insert_ne by done; by rewrite ?E.
Qed.

Lemma atomic_cases {A} fate (block : ReadDatabase → result (A * ReadDatabase)) d :
  (∃ e, atomic fate block d = (Raise e, d)) ∨
  ∃ a d', block d = Ok (a, d') ∧ (atomic fate block d).2 = d' ∧
    ((atomic fate block d).1 = Ok a ∨ ∃ e, (atomic fate block d).1 = Raise e).
Proof. unfold atomic. destruct (block d) as [[a d']|e]; [destruct fate|]; eauto 10. Qed.

(** What a fold makes of an observation, when only some elements change it. *)
Lemma foldM_observed {A B C} (obs : B → C) (P : A → bool) (f : C → A → C)
    (step : B → A → result B) (b b' : B) (l : list A) :
  (∀ b a b', step b a = Ok b' → obs b' = if P a then f (obs b) a else obs b) →
  foldM step b l = Ok b' → obs b' = foldl f (obs b) (filter (λ a, P a = true) l).
Proof.
  intros Hstep. revert b. induction l as [|a l IH]; cbn [foldM]; intros b Hb.
  { by injection Hb as <-. }
  apply bind_Ok in Hb as (b1 & Hb1 & Hb). rewrite (IH _ Hb), (Hstep _ _ _ Hb1), filter_cons.
  destruct (P a); [by rewrite decide_True|by rewrite decide_False].
Qed.

(** Writes that no column refuses. *)
Lemma filter_update_total {K V} `{Countable K} (k : K) (f : V → V) (t : gmap K V) :
  filter_update k (λ r, Ok (f r)) t = Ok (alter f k t).
Proof.
  unfold filter_update. destruct (t !! k) as [row|] eqn:E; cbn; f_equal.
  - apply map_eq. intros j. destruct (decide (j = k)) as [->|?].
    + by rewrite lookup_insert_eq, lookup_alter_eq, E.
    + by rewrite lookup_insert_ne, lookup_alter_ne by done.
  - symmetry. by apply alter_id; rewrite E.
Qed.

Lemma update_or_create_total {K V} `{Countable K} (k : K) (fresh : V) (f : V → V) t :
  update_or_create k fresh (λ r, Ok (f r)) t = Ok (<[k := f (default fresh (t !! k))]> t).
Proof. done. Qed.

Lemma lookup_insert_by {V} (k j : uuid) (v : V) (t : gmap uuid V) :
  <[k := v]> t !! j = if decide (k = j) then Some v else t !! j.
Proof. case_decide as E; [subst; by rewrite lookup_insert_eq|by rewrite lookup_insert_ne]. Qed.

Lemma lookup_alter_by {V} (k j : uuid) (f : V → V) (t : gmap uuid V) :
  alter f k t !! j = if decide (k = j) then f <$> t !! j else t !! j.
Proof. case_decide as E; [subst; by rewrite lookup_alter_eq|by rewrite lookup_alter_ne]. Qed.
