(* ===== verification/Rollups.v ===== *)
(** The telemetry read side: [TelemetryRollupProjection] of
    [apps/admin/projections/telemetry.py], which folds readings into hourly windows and
    keeps the newest facts of each sensor. *)

From S2P Require Import Prelude Domain Topics Rows Delivery ReadModels.
From Stdlib Require Import SpecFloat.

(** ** [double precision]

    The columns are PostgreSQL's 64-bit floats.  Its order puts NaN last and its operators
    refuse a result that left the range of their operands (SQLSTATE 22003). *)
Definition is_inf (a : float) : bool := match a with S754_infinity _ => true | _ => false end.
Definition is_zero (a : float) : bool := match a with S754_zero _ => true | _ => false end.

Definition float8_lt (a b : float) : bool := negb (is_nan a) && (is_nan b || float_lt a b).

(** [LEAST(a, b)] and [GREATEST(a, b)]: a tie keeps the first. *)
Definition least (a b : float) : float := if float8_lt b a then b else a.
Definition greatest (a b : float) : float := if float8_lt a b then b else a.

Definition numeric_value_out_of_range : exn := OperationError 22003.
Definition division_by_zero : exn := OperationError 22012.

Definition float8_mul (a b : float) : result float :=
  let r := SFmul 53 1024 a b in
  if is_inf r && negb (is_inf a) && negb (is_inf b) then Raise numeric_value_out_of_range
  else if is_zero r && negb (is_zero a) && negb (is_zero b) then Raise numeric_value_out_of_range
  else Ok r.
Definition float8_pl (a b : float) : result float :=
  let r := SFadd 53 1024 a b in
  if is_inf r && negb (is_inf a) && negb (is_inf b) then Raise numeric_value_out_of_range
  else Ok r.
Definition float8_div (a b : float) : result float :=
  if is_zero b && negb (is_nan a) then Raise division_by_zero
  else
    let r := SFdiv 53 1024 a b in
    if is_inf r && negb (is_inf a) then Raise numeric_value_out_of_range
    else if is_zero r && negb (is_zero a) && negb (is_inf b) then Raise numeric_value_out_of_range
    else Ok r.

(** [integer + 1]. *)
Definition INT4_MAX : Z := 2 ^ 31 - 1.
Definition int4_succ (n : Z) : result Z :=
  if decide (n + 1 ≤ INT4_MAX)%Z then Ok (n + 1)%Z else Raise numeric_value_out_of_range.

(** ** The statements *)

(** [(avg * sample_count + x) / (sample_count + 1)]. *)
Definition next_mean (avg : float) (count : Z) (x : float) : result float :=
  total ← float8_mul avg (float_of_Z count);
  total ← float8_pl total x;
  float8_div total (float_of_Z (count + 1)).

Definition first_sample (plant_id : uuid) (moisture temperature : float) : TelemetryRollup :=
  mkTelemetryRollup plant_id moisture moisture moisture temperature temperature temperature 1.

Definition fold_sample (plant_id : uuid) (moisture temperature : float) (r : TelemetryRollup) :
    result TelemetryRollup :=
  moisture_avg ← next_mean (tr_moisture_avg r) (tr_sample_count r) moisture;
  temperature_avg ← next_mean (tr_temperature_avg r) (tr_sample_count r) temperature;
  count ← int4_succ (tr_sample_count r);
  Ok (mkTelemetryRollup plant_id
    (least (tr_moisture_min r) moisture) (greatest (tr_moisture_max r) moisture) moisture_avg
    (least (tr_temperature_min r) temperature) (greatest (tr_temperature_max r) temperature)
    temperature_avg count).

Definition UPSERT_ROLLUP (sensor_id : uuid) (bucket_start : datetime) (plant_id : uuid)
    (moisture temperature : float) (t : gmap (uuid * datetime) TelemetryRollup) :
    result (gmap (uuid * datetime) TelemetryRollup) :=
  row ← match t !! (sensor_id, bucket_start) with
        | None => Ok (first_sample plant_id moisture temperature)
        | Some r => fold_sample plant_id moisture temperature r
        end;
  Ok (<[(sensor_id, bucket_start) := row]> t).

Definition UPSERT_LATEST (sensor_id plant_id : uuid) (recorded_at : datetime)
    (moisture temperature light : float) (t : gmap uuid SensorLatest) : gmap uuid SensorLatest :=
  match t !! sensor_id with
  | None => <[sensor_id := mkSensorLatest plant_id recorded_at moisture temperature light
      None None None]> t
  | Some r =>
      if bool_decide (sl_recorded_at r < recorded_at)%Z then
        <[sensor_id := mkSensorLatest plant_id recorded_at moisture temperature light None
          (sl_last_alert_at r) (sl_last_alert_type r)]> t
      else t
  end.

Definition ANNOUNCE_OFFLINE (at_ : datetime) (sensor_id : uuid) (t : gmap uuid SensorLatest) :
    gmap uuid SensorLatest :=
  alter (λ r, mkSensorLatest (sl_plant_id r) (sl_recorded_at r) (sl_moisture r)
    (sl_temperature r) (sl_light r) (Some at_) (sl_last_alert_at r) (sl_last_alert_type r))
    sensor_id t.

Definition RECORD_ALERT (at_ : datetime) (alert_type : string) (sensor_id : uuid)
    (t : gmap uuid SensorLatest) : gmap uuid SensorLatest :=
  alter (λ r,
    if match sl_last_alert_at r with None => true | Some last => bool_decide (last ≤ at_)%Z end
    then mkSensorLatest (sl_plant_id r) (sl_recorded_at r) (sl_moisture r) (sl_temperature r)
      (sl_light r) (sl_offline_at r) (Some at_) (Some alert_type)
    else r) sensor_id t.

(** ** The projection *)

(** [recorded_at.replace(minute=0, second=0, microsecond=0)]. *)
Definition window_start (recorded_at : datetime) : datetime :=
  (recorded_at - recorded_at mod hours 1)%Z.

Definition TelemetryRollupProjection_on_telemetry_received (sensor_id : SensorId) (plant_id : PlantId)
    (recorded_at : datetime) (moisture : Moisture) (temperature : Temperature)
    (light : LightLevel) (now : datetime) (d : ReadDatabase) : result ReadDatabase :=
  rollups ← UPSERT_ROLLUP (uuid_value sensor_id) (window_start recorded_at)
    (uuid_value plant_id) (moisture_value moisture) (temperature_value temperature)
    (rd_rollups d);
  Ok (put_telemetry d rollups
    (UPSERT_LATEST (uuid_value sensor_id) (uuid_value plant_id) recorded_at
      (moisture_value moisture) (temperature_value temperature) (light_value light)
      (rd_latest d))).

Definition on_sensor_offline (sensor_id : SensorId) (occurred_at now : datetime)
    (d : ReadDatabase) : result ReadDatabase :=
  Ok (put_telemetry d (rd_rollups d)
    (ANNOUNCE_OFFLINE occurred_at (uuid_value sensor_id) (rd_latest d))).

(** [ALERT_TYPE_NAMES[type(event)]]. *)
Definition alert_type_name (b : event_body) : option string :=
  match b with
  | SoilMoistureLow _ _ _ _ => Some "soil_moisture_low"%string
  | SoilMoistureHigh _ _ _ _ => Some "soil_moisture_high"%string
  | TemperatureAnomaly _ _ _ _ _ => Some "temperature_anomaly"%string
  | _ => None
  end.

Definition on_alert (sensor_id : SensorId) (alert_type : string) (occurred_at now : datetime)
    (d : ReadDatabase) : result ReadDatabase :=
  alert_type ← varchar 40 alert_type;
  Ok (put_telemetry d (rd_rollups d)
    (RECORD_ALERT occurred_at alert_type (uuid_value sensor_id) (rd_latest d))).

Definition TelemetryRollupProjection : Projection :=
  mkProjection "telemetry-rollup" [TELEMETRY_EVENTS] (λ e,
    match body e with
    | TelemetryReceived s p recorded_at moisture temperature light =>
        Some (TelemetryRollupProjection_on_telemetry_received s p recorded_at moisture temperature light)
    | SensorOffline s _ _ _ => Some (on_sensor_offline s (occurred_at e))
    | SoilMoistureLow s _ _ _ | SoilMoistureHigh s _ _ _ | TemperatureAnomaly s _ _ _ _ =>
        match alert_type_name (body e) with
        | Some alert_type => Some (on_alert s alert_type (occurred_at e))
        | None => None
        end
    | _ => None
    end).

(** ** Lemmas *)

(** What the projection of an event does, when it has a handler. *)
Definition project_telemetry (d : ReadDatabase) (x : datetime * DomainEvent) :
    result ReadDatabase :=
  match pj_handler TelemetryRollupProjection x.2 with
  | Some handler => handler x.1 d
  | None => Ok d
  end.

Lemma project_telemetry_put d x d' :
  project_telemetry d x = Ok d' → d' = put_telemetry d (rd_rollups d') (rd_latest d').
Proof.
  unfold project_telemetry. destruct x as [now [i t b]]. destruct b; cbn; intros Hh;
    try (injection Hh as <-; by destruct d).
  unfold TelemetryRollupProjection_on_telemetry_received in Hh. by inv_result.
Qed.
