(* ===== verification/Rounding.v ===== *)
(** The rounding of binary64 arithmetic: the value of a float as a rational, and how far the
    result of [SFmul], [SFadd] and [SFdiv] can be from the exact one.  The bounds are the
    ones a mean needs; they say three units in the last place where the standard's rounding
    guarantees half of one. *)

From S2P Require Import Prelude.
From Stdlib Require Import SpecFloat QArith Qabs Qpower Lqa Qfield.

(** ** Values *)

Local Open Scope Q_scope.

Definition pw (e : Z) : Q := Qpower 2 e.
Definition sign (s : bool) : Q := if s then -1 else 1.
Definition value (x : float) : Q :=
  match x with S754_finite s m e => sign s * (inject_Z (Zpos m) * pw e) | _ => 0 end.
Definition is_finite (x : float) : bool :=
  match x with S754_finite _ _ _ | S754_zero _ => true | _ => false end.

(** The relative error of an operation, and the absolute one near zero. *)
Definition EPS : Q := 3 * pw (-52).
Definition ETA : Q := 3 * pw (-1074).

Notation fexp64 := (fexp 53 1024).

(** ** Powers of two *)

Lemma pw_pos e : 0 < pw e.
Proof. apply Qpower_0_lt. reflexivity. Qed.
Lemma pw_plus a b : pw (a + b) == pw a * pw b.
Proof. apply Qpower_plus. discriminate. Qed.
Lemma pw_le a b : (a ≤ b)%Z → pw a <= pw b.
Proof. intros H. apply Qpower_le_compat_l; [done|discriminate]. Qed.
Lemma pw_Z n : (0 ≤ n)%Z → inject_Z (2 ^ n) == pw n.
Proof. intros H. by apply Zpower_Qpower. Qed.

Lemma inject_le a b : (a ≤ b)%Z → inject_Z a <= inject_Z b.
Proof. by rewrite <- Zle_Qle. Qed.

(** An integer scaled to a smaller exponent. *)
Lemma scale_Z m e n : (0 ≤ n)%Z → inject_Z (m * 2 ^ n) * pw e == inject_Z m * pw (e + n).
Proof. intros Hn. rewrite inject_Z_mult, (pw_Z n Hn), pw_plus. ring. Qed.

Lemma scale_le a b e : (a ≤ b)%Z → inject_Z a * pw e <= inject_Z b * pw e.
Proof. intros H. apply Qmult_le_compat_r; [by apply inject_le|]. apply Qlt_le_weak, pw_pos. Qed.

(** ** Digits *)

Lemma digits2_pos_bounds p : (2 ^ (Zpos (digits2_pos p) - 1) ≤ Zpos p < 2 ^ Zpos (digits2_pos p))%Z.
Proof.
  induction p as [p IH|p IH|]; [| |by cbn].
  all: cbn [digits2_pos]; rewrite Pos2Z.inj_succ;
    replace (Z.succ (Zpos (digits2_pos p)) - 1)%Z with (Z.succ (Zpos (digits2_pos p) - 1)) by lia;
    rewrite !Z.pow_succ_r by lia; lia.
Qed.

Lemma Zdigits2_bounds m : (0 < m → 2 ^ (Zdigits2 m - 1) ≤ m < 2 ^ Zdigits2 m)%Z.
Proof. destruct m as [|p|p]; [lia| |lia]. intros _. apply digits2_pos_bounds. Qed.

Lemma Zdigits2_nonneg m : (0 ≤ Zdigits2 m)%Z.
Proof. destruct m; cbn; lia. Qed.

Lemma Zdigits2_le m d : (0 ≤ d → 0 ≤ m < 2 ^ d → Zdigits2 m ≤ d)%Z.
Proof.
  intros Hd Hm. destruct (decide (m = 0%Z)) as [->|Hz]; [cbn; lia|].
  pose proof (Zdigits2_bounds m ltac:(lia)) as H.
  assert (2 ^ (Zdigits2 m - 1) < 2 ^ d)%Z as Hlt by lia.
  apply Z.pow_lt_mono_r_iff in Hlt; lia.
Qed.

Lemma Zdigits2_ge m d : (0 ≤ d → 2 ^ d ≤ m → d + 1 ≤ Zdigits2 m)%Z.
Proof.
  intros Hd Hm. pose proof (Z.pow_pos_nonneg 2 d ltac:(lia) Hd).
  pose proof (Zdigits2_bounds m ltac:(lia)) as H1.
  assert (2 ^ d < 2 ^ Zdigits2 m)%Z as Hlt by lia.
  pose proof (Zdigits2_nonneg m). apply Z.pow_lt_mono_r_iff in Hlt; lia.
Qed.

Lemma Zdigits2_scale m n : (0 < m → 0 ≤ n → Zdigits2 (m * 2 ^ n) = Zdigits2 m + n)%Z.
Proof.
  intros Hm Hn. pose proof (Zdigits2_bounds m Hm) as H.
  pose proof (Z.pow_pos_nonneg 2 n ltac:(lia) Hn). pose proof (Zdigits2_nonneg m).
  assert (Zdigits2 m ≠ 0)%Z. { intros E. rewrite E in H. cbn in H. lia. }
  apply Z.le_antisymm.
  - apply Zdigits2_le; [lia|]. rewrite Z.pow_add_r by lia. nia.
  - replace (Zdigits2 m + n)%Z with ((Zdigits2 m - 1 + n) + 1)%Z by lia.
    apply Zdigits2_ge; [lia|]. rewrite Z.pow_add_r by lia. nia.
Qed.

(** ** Shifting right *)

Lemma shr_1_half r : (0 ≤ shr_m r)%Z → shr_m (shr_1 r) = (shr_m r / 2)%Z.
Proof.
  destruct r as [[|[p|p|]|p] ? ?]; cbn; try done; intros _.
  - apply Z.div_unique with 1%Z; lia.
  - apply Z.div_unique with 0%Z; lia.
Qed.

Lemma shr_iter p r :
  (0 ≤ shr_m r)%Z → shr_m (SpecFloat.iter_pos shr_1 p r) = (shr_m r / 2 ^ Zpos p)%Z.
Proof.
  revert r. induction p as [p IH|p IH|]; intros r Hr; cbn [SpecFloat.iter_pos].
  - assert (0 ≤ shr_m (shr_1 r))%Z by (rewrite shr_1_half by done; by apply Z.div_pos).
    rewrite (IH (SpecFloat.iter_pos shr_1 p (shr_1 r))) by (rewrite IH by done; apply Z.div_pos; [done|lia]).
    rewrite IH, shr_1_half, !Z.div_div by lia. f_equal.
    replace (Zpos p~1)%Z with (1 + (Zpos p + Zpos p))%Z by lia. rewrite !Z.pow_add_r by lia. lia.
  - rewrite IH by (rewrite IH by done; apply Z.div_pos; [done|lia]).
    rewrite IH, Z.div_div by lia. f_equal.
    replace (Zpos p~0)%Z with (Zpos p + Zpos p)%Z by lia. rewrite !Z.pow_add_r by lia. lia.
  - by rewrite shr_1_half.
Qed.

Lemma shr_fexp_run m e l :
  (0 ≤ m)%Z →
  let e' := Z.max e (fexp64 (Zdigits2 m + e)) in
  ∃ r, shr_fexp 53 1024 m e l = (r, e') ∧ shr_m r = (m / 2 ^ (e' - e))%Z ∧
    (e' = e → loc_of_shr_record r = l).
Proof.
  intros Hm e'. unfold shr_fexp, shr.
  assert (shr_m (shr_record_of_loc m l) = m) as Hl by (by destruct l as [|[]]).
  assert (loc_of_shr_record (shr_record_of_loc m l) = l) as Hl' by (by destruct l as [|[]]).
  destruct (fexp64 (Zdigits2 m + e) - e)%Z as [|p|p] eqn:E; eexists; (split; [reflexivity + (f_equal; lia)|]).
  - replace e' with e by lia. split; [|done]. by rewrite Hl, Z.sub_diag, Z.div_1_r.
  - split; [|lia]. rewrite shr_iter by lia. rewrite Hl. do 2 f_equal. lia.
  - split; [|done]. replace e' with e by lia. by rewrite Hl, Z.sub_diag, Z.div_1_r.
Qed.

(** ** One rounding *)

Lemma rne_bounds m l : (m ≤ round_nearest_even m l ≤ m + 1)%Z.
Proof. unfold round_nearest_even. destruct l as [|[]]; [lia| |lia|lia]. destruct (Z.even m); lia. Qed.

(** Dropping [n] digits. *)
Lemma div_scaled m e n :
  (0 ≤ n)%Z →
  inject_Z (m / 2 ^ n) * pw (e + n) <= inject_Z m * pw e ∧
  inject_Z (m + 1) * pw e <= inject_Z (m / 2 ^ n + 1) * pw (e + n).
Proof.
  intros Hn. pose proof (Z.pow_pos_nonneg 2 n ltac:(lia) Hn) as Hp.
  pose proof (Z.div_mod m (2 ^ n) ltac:(lia)) as Hm.
  pose proof (Z.mod_pos_bound m (2 ^ n) Hp) as Hr.
  rewrite <- !scale_Z by done. split; apply scale_le; nia.
Qed.

Lemma fexp_succ d e : (d ≤ e + 1 → fexp64 d ≤ fexp64 e + 1)%Z.
Proof. unfold fexp, emin. lia. Qed.

(** The digits kept after the first shift leave the exponent within one of its place. *)
Lemma second_shift m e (e' := Z.max e (fexp64 (Zdigits2 m + e))) m1 :
  (0 ≤ m → m / 2 ^ (e' - e) ≤ m1 ≤ m / 2 ^ (e' - e) + 1 → fexp64 (Zdigits2 m1 + e') ≤ e' + 1)%Z.
Proof.
  intros Hm Hm1. set (k := (e' - e)%Z) in *. assert (0 ≤ k)%Z as Hk by (subst k e'; lia).
  pose proof (Z.pow_pos_nonneg 2 k ltac:(lia) Hk) as Hp. pose proof (Zdigits2_nonneg m) as Hd0.
  assert (0 ≤ m / 2 ^ k)%Z as H0 by (apply Z.div_pos; lia).
  assert (Zdigits2 m1 ≤ Z.max 0 (Zdigits2 m - k) + 1)%Z as Hd.
  { apply Zdigits2_le; [lia|]. split; [lia|].
    assert (m / 2 ^ k + 1 ≤ 2 ^ Z.max 0 (Zdigits2 m - k))%Z as Hle.
    { destruct (decide (m = 0%Z)) as [->|Hz]; [rewrite Z.div_0_l by lia; cbn [Z.add];
        pose proof (Z.pow_pos_nonneg 2 (Z.max 0 (Zdigits2 0 - k))); lia|].
      pose proof (Zdigits2_bounds m ltac:(lia)) as Hb.
      assert (m / 2 ^ k < 2 ^ Z.max 0 (Zdigits2 m - k))%Z; [|lia].
      apply Z.div_lt_upper_bound; [done|].
      rewrite <- Z.pow_add_r by lia. eapply Z.lt_le_trans; [apply Hb|].
      apply Z.pow_le_mono_r; lia. }
    rewrite Z.pow_add_r by lia. lia. }
  assert (k = e' - e)%Z as Ek by done. clearbody k. unfold fexp, emin in *. lia.
Qed.

Definition signed (s : bool) (x : Q) (y : float) (err : Q) : Prop :=
  is_nan y = false ∧ (is_finite y = true → Qabs (value y - sign s * x) <= err).

Lemma Qabs_sign s x : Qabs (sign s * x) == Qabs x.
Proof. destruct s; unfold sign; [rewrite <- (Qabs_opp x)|]; apply Qabs_wd; ring. Qed.

(** A mantissa [m] that is below [x] by less than one unit, rounded to a float. *)
Lemma round_aux_error s m e l x :
  (0 ≤ m)%Z → inject_Z m * pw e <= x <= inject_Z (m + 1) * pw e →
  signed s x (binary_round_aux 53 1024 s m e l) (3 * pw (Z.max e (fexp64 (Zdigits2 m + e)))).
Proof.
  intros Hm [Hlo Hhi]. unfold signed, binary_round_aux.
  destruct (shr_fexp_run m e l Hm) as (r & -> & Hr & _).
  set (e' := Z.max e (fexp64 (Zdigits2 m + e))) in *. rewrite Hr.
  assert (0 ≤ e' - e)%Z as Hk by (subst e'; lia).
  assert (0 ≤ m / 2 ^ (e' - e))%Z as Hq by (apply Z.div_pos; [done|apply Z.pow_pos_nonneg; lia]).
  pose proof (rne_bounds (m / 2 ^ (e' - e)) (loc_of_shr_record r)) as Hm1.
  set (m1 := round_nearest_even _ _) in *.
  pose proof (second_shift m e m1 Hm Hm1) as Hsec. fold e' in Hsec.
  destruct (shr_fexp_run m1 e' loc_Exact ltac:(lia)) as (r2 & -> & Hr2 & _).
  set (e2 := Z.max e' (fexp64 (Zdigits2 m1 + e'))) in *.
  assert (0 ≤ e2 - e' ≤ 1)%Z as Hk2 by (subst e2; lia). rewrite Hr2.
  destruct (div_scaled m e (e' - e) Hk) as [Ha Hb].
  destruct (div_scaled m1 e' (e2 - e') ltac:(lia)) as [Hc Hd].
  replace (e + (e' - e))%Z with e' in * by lia. replace (e' + (e2 - e'))%Z with e2 in * by lia.
  assert (0 ≤ m1 / 2 ^ (e2 - e'))%Z as Hq2 by (apply Z.div_pos; [lia|apply Z.pow_pos_nonneg; lia]).
  set (q := (m / 2 ^ (e' - e))%Z) in *. set (q2 := (m1 / 2 ^ (e2 - e'))%Z) in *.
  assert (pw e2 <= 2 * pw e') as Hpw.
  { eapply Qle_trans; [apply (pw_le _ (e' + 1)); lia|]. rewrite pw_plus.
    change (pw 1) with 2. lra. }
  pose proof (scale_le q m1 e' ltac:(lia)) as H1. pose proof (scale_le m1 (q + 1) e' ltac:(lia)) as H2.
  rewrite (inject_Z_plus q 1) in *. rewrite (inject_Z_plus q2 1), (inject_Z_plus m1 1) in *.
  change (inject_Z 1) with 1 in *.
  pose proof (pw_pos e') as Hpos.
  assert (Qabs (inject_Z q2 * pw e2 - x) <= 3 * pw e') as Herr.
  { apply Qabs_Qle_condition. split; lra. }
  assert (∀ v, value v == sign s * (inject_Z q2 * pw e2) → Qabs (value v - sign s * x) <= 3 * pw e') as Hfin.
  { intros v Ev. assert (value v - sign s * x == sign s * (inject_Z q2 * pw e2 - x)) as ->
      by (rewrite Ev; ring). by rewrite Qabs_sign. }
  destruct q2 as [|p|p] eqn:Eq; [| |lia].
  - split; [done|]. intros _. apply Hfin. unfold value. change (inject_Z 0) with 0. ring.
  - destruct (Z.leb e2 (1024 - 53)); [|done]. split; [done|]. intros _. by apply Hfin.
Qed.

(** A mantissa whose digits fit is not rounded. *)
Lemma round_aux_exact s p e :
  (fexp64 (Zdigits2 (Zpos p) + e) ≤ e)%Z →
  binary_round_aux 53 1024 s (Zpos p) e loc_Exact =
  if (e <=? 971)%Z then S754_finite s p e else S754_infinity s.
Proof.
  intros Hf. unfold binary_round_aux.
  destruct (shr_fexp_run (Zpos p) e loc_Exact ltac:(lia)) as (r & -> & Hr & Hl).
  rewrite Z.max_l in * by done. rewrite Hr, Hl by done. rewrite Z.sub_diag, Z.div_1_r. cbn [round_nearest_even].
  destruct (shr_fexp_run (Zpos p) e loc_Exact ltac:(lia)) as (r2 & -> & Hr2 & _).
  rewrite Z.max_l in * by done. by rewrite Hr2, Z.sub_diag, Z.div_1_r.
Qed.

(** The error in units of the result. *)
Lemma fexp_error m e x :
  (0 < m)%Z → inject_Z m * pw e <= x → 3 * pw (fexp64 (Zdigits2 m + e)) <= EPS * x + ETA.
Proof.
  intros Hm Hx. pose proof (Zdigits2_bounds m Hm) as [Hd _]. pose proof (Zdigits2_nonneg m) as H0.
  assert (Zdigits2 m ≠ 0%Z) by (destruct m; [lia|cbn; lia|lia]).
  assert (pw (Zdigits2 m - 1 + e) <= x) as Hp.
  { eapply Qle_trans; [|exact Hx]. rewrite pw_plus, <- pw_Z by lia. by apply scale_le. }
  assert (pw (fexp64 (Zdigits2 m + e)) <= pw (Zdigits2 m - 1 + e) * pw (-52) + pw (-1074)) as Hf.
  { rewrite <- pw_plus. pose proof (pw_pos (-1074)). pose proof (pw_pos (Zdigits2 m - 1 + e + -52)).
    unfold fexp, emin. destruct (Z.max_spec (Zdigits2 m + e - 53) (3 - 1024 - 53)) as [[_ ->]|[_ ->]].
    - change (3 - 1024 - 53)%Z with (-1074)%Z. lra.
    - replace (Zdigits2 m + e - 53)%Z with (Zdigits2 m - 1 + e + -52)%Z by lia. lra. }
  unfold EPS, ETA. pose proof (pw_pos (-52)). nra.
Qed.

Lemma signed_weaken s x y err err' : err <= err' → signed s x y err → signed s x y err'.
Proof. intros Hle [Hn H]. split; [done|]. intros Hy. eapply Qle_trans; [by apply H|done]. Qed.

Lemma round_exact_error s p e (x := inject_Z (Zpos p) * pw e) :
  signed s x (binary_round_aux 53 1024 s (Zpos p) e loc_Exact) (EPS * x + ETA).
Proof.
  pose proof (fexp_error (Zpos p) e x ltac:(lia) (Qle_refl _)) as Herr.
  destruct (Z.le_ge_cases (fexp64 (Zdigits2 (Zpos p) + e)) e) as [Hf|Hf].
  - rewrite round_aux_exact by done. destruct (e <=? 971)%Z; [|done]. split; [done|]. intros _.
    unfold value. fold x. assert (sign s * x - sign s * x == 0) as -> by ring.
    eapply Qle_trans; [|exact Herr]. pose proof (pw_pos (fexp64 (Zdigits2 (Zpos p) + e))).
    change (Qabs 0) with 0. lra.
  - eapply signed_weaken; [exact Herr|]. rewrite <- (Z.max_r _ _ Hf).
    apply round_aux_error; [lia|]. split; [apply Qle_refl|apply scale_le; lia].
Qed.

(** ** Aligning *)

Lemma iter_xO p d : Zpos (Pos.iter xO p d) = (Zpos p * 2 ^ Zpos d)%Z.
Proof.
  induction d as [|d IH] using Pos.peano_ind; [cbn; lia|].
  rewrite Pos.iter_succ, (Pos2Z.inj_xO (Pos.iter _ _ _)), IH, Pos2Z.inj_succ, Z.pow_succ_r; lia.
Qed.

Lemma shl_align_run p e e' :
  let '(q, e1) := shl_align p e e' in
  (e1 = Z.min e e' ∧ Zpos q = Zpos p * 2 ^ (e - e1))%Z.
Proof.
  unfold shl_align. destruct (e' - e)%Z as [|d|d] eqn:E.
  1,2: split; [lia|rewrite Z.sub_diag; lia].
  split; [lia|]. rewrite iter_xO. do 2 f_equal. lia.
Qed.

Lemma shl_align_value p e e' :
  inject_Z (Zpos (shl_align p e e').1) * pw (shl_align p e e').2 == inject_Z (Zpos p) * pw e.
Proof.
  pose proof (shl_align_run p e e') as H. destruct (shl_align p e e') as [q e1]. destruct H as [He Hq].
  cbn [fst snd]. rewrite Hq, scale_Z by lia. by replace (e1 + (e - e1))%Z with e by lia.
Qed.

Lemma binary_round_error s p e (x := inject_Z (Zpos p) * pw e) :
  signed s x (binary_round 53 1024 s p e) (EPS * x + ETA).
Proof.
  unfold binary_round. pose proof (shl_align_value p e (fexp64 (Zpos (digits2_pos p) + e))) as Hv.
  destruct (shl_align _ _ _) as [q e1]. cbn [fst snd] in Hv. fold x in Hv.
  pose proof (round_exact_error s q e1) as H. unfold signed in *. rewrite Hv in H. exact H.
Qed.

(** An integer below [2 ^ 53] is its float. *)
Lemma float_of_Z_exact z :
  (Z.abs z < 2 ^ 53)%Z → is_finite (float_of_Z z) = true ∧ value (float_of_Z z) == inject_Z z.
Proof.
  intros Hz. unfold float_of_Z.
  assert (∀ s p, (Zpos p < 2 ^ 53)%Z → is_finite (binary_round 53 1024 s p 0) = true ∧
    value (binary_round 53 1024 s p 0) == sign s * inject_Z (Zpos p)) as Hround.
  { intros s p Hp. unfold binary_round.
    pose proof (shl_align_value p 0 (fexp64 (Zpos (digits2_pos p) + 0))) as Hv.
    pose proof (shl_align_run p 0 (fexp64 (Zpos (digits2_pos p) + 0))) as Ha.
    destruct (shl_align _ _ _) as [q e1]. cbn [fst snd] in Hv. destruct Ha as [He Hq].
    pose proof (Zdigits2_le (Zpos p) 53 ltac:(lia) ltac:(lia)) as Hd. cbn [Zdigits2] in Hd.
    assert (fexp64 (Zpos (digits2_pos p) + 0) ≤ 0)%Z as Hf by (unfold fexp, emin; lia).
    rewrite round_aux_exact.
    - destruct (Z.leb_spec e1 971); [|lia]. split; [done|]. unfold value. rewrite Hv.
      change (pw 0) with 1. ring.
    - rewrite Hq, Zdigits2_scale by lia. cbn [Zdigits2]. 
      replace (Zpos (digits2_pos p) + (0 - e1) + e1)%Z with (Zpos (digits2_pos p) + 0)%Z by lia. lia. }
  destruct z as [|p|p]; cbn [binary_normalize]; [done|..]; (destruct (Hround false p ltac:(lia)) as [? H]
    || destruct (Hround true p ltac:(lia)) as [? H]).
  - split; [done|]. rewrite H. unfold sign. ring.
  - destruct (Hround true p ltac:(lia)) as [? H']. split; [done|]. rewrite H'. unfold sign.
    change (Zneg p) with (- Zpos p)%Z. rewrite inject_Z_opp. ring.
Qed.

(** ** The operations *)

(** [y] is what an operation whose exact result is [x] returned. *)
Definition rounds_to (x : Q) (y : float) : Prop :=
  is_nan y = false ∧ (is_finite y = true → Qabs (value y - x) <= EPS * Qabs x + ETA).

#[export] Instance rounds_to_Proper : Proper (Qeq ==> eq ==> iff) rounds_to.
Proof. intros x x' Hx y _ <-. unfold rounds_to. by rewrite Hx. Qed.

Lemma EPS_pos : 0 < EPS.
Proof. unfold EPS. pose proof (pw_pos (-52)). lra. Qed.
Lemma ETA_pos : 0 < ETA.
Proof. unfold ETA. pose proof (pw_pos (-1074)). lra. Qed.

Lemma sign_xorb s t : sign (xorb s t) == sign s * sign t.
Proof. by destruct s, t. Qed.

Lemma signed_rounds s x y z :
  0 <= x → z == sign s * x → signed s x y (EPS * x + ETA) → rounds_to z y.
Proof.
  intros Hx Hz [Hn H]. split; [done|]. intros Hy. specialize (H Hy). rewrite Hz, Qabs_sign, (Qabs_pos x Hx). exact H.
Qed.

Lemma rounds_to_self x y : is_nan y = false → value y == x → rounds_to x y.
Proof.
  intros Hn Hy. split; [done|]. intros _. assert (value y - x == 0) as -> by (rewrite Hy; ring). change (Qabs 0) with 0.
  pose proof EPS_pos. pose proof ETA_pos. pose proof (Qabs_nonneg x). nra.
Qed.

Lemma scaled_nonneg p e : 0 <= inject_Z (Zpos p) * pw e.
Proof. pose proof (pw_pos e). apply Qmult_le_0_compat; [done|lra]. Qed.

Lemma SFmul_rounds x y :
  is_finite x = true → is_finite y = true → rounds_to (value x * value y) (SFmul 53 1024 x y).
Proof.
  destruct x as [s1| | |s1 m1 e1], y as [s2| | |s2 m2 e2]; try done; intros _ _;
    try (apply rounds_to_self; [done|cbn [SFmul value]; ring]).
  cbn [SFmul]. eapply signed_rounds; [| |apply round_exact_error]; [apply scaled_nonneg|].
  cbn [value]. rewrite sign_xorb, pw_plus, Pos2Z.inj_mul, inject_Z_mult. ring.
Qed.

Lemma SFadd_rounds x y :
  is_finite x = true → is_finite y = true → rounds_to (value x + value y) (SFadd 53 1024 x y).
Proof.
  destruct x as [s1| | |s1 m1 e1], y as [s2| | |s2 m2 e2]; try done; intros _ _;
    try (destruct s1; try destruct s2; (apply rounds_to_self; [done|cbn [SFadd value]; ring])).
  cbn [SFadd]. set (ez := Z.min e1 e2).
  assert (∀ p e, (ez ≤ e)%Z → inject_Z (Zpos (shl_align p e ez).1) * pw ez == inject_Z (Zpos p) * pw e) as Hal.
  { intros p e He. pose proof (shl_align_value p e ez) as H. pose proof (shl_align_run p e ez) as Hr.
    destruct (shl_align p e ez) as [q e']. destruct Hr as [-> _]. cbn [fst snd] in *.
    by rewrite Z.min_r in H. }
  set (z := (_ + _)%Z).
  assert (value (S754_finite s1 m1 e1) + value (S754_finite s2 m2 e2) == inject_Z z * pw ez) as Hz.
  { cbn [value]. rewrite <- (Hal m1 e1), <- (Hal m2 e2) by (subst ez; lia). subst z.
    rewrite inject_Z_plus. unfold cond_Zopp, sign. destruct s1, s2; rewrite ?inject_Z_opp; ring. }
  clearbody z. destruct z as [|p|p]; cbn [binary_normalize].
  - apply rounds_to_self; [done|]. rewrite Hz. cbn [value]. change (inject_Z 0) with 0. ring.
  - eapply signed_rounds; [| |apply binary_round_error]; [apply scaled_nonneg|].
    rewrite Hz. unfold sign. ring.
  - eapply signed_rounds; [| |apply binary_round_error]; [apply scaled_nonneg|].
    rewrite Hz. change (Zneg p) with (- Zpos p)%Z. rewrite inject_Z_opp. unfold sign. ring.
Qed.

(** The quotient of two mantissas, cut below its last unit. *)
Lemma div_core m1 e1 m2 e2 :
  let '(q, e, _) := SFdiv_core_binary 53 1024 (Zpos m1) e1 (Zpos m2) e2 in
  let x := (inject_Z (Zpos m1) * pw e1) / (inject_Z (Zpos m2) * pw e2) in
  (0 ≤ q)%Z ∧ inject_Z q * pw e <= x <= inject_Z (q + 1) * pw e ∧
  (e ≤ fexp64 (Zdigits2 q + e) ∧ (q = 0 → fexp64 (Zdigits2 q + e) = -1074))%Z.
Proof.
  unfold SFdiv_core_binary. set (D := (Zdigits2 (Zpos m1) + e1 - (Zdigits2 (Zpos m2) + e2))%Z).
  set (e := Z.min (fexp64 D) (e1 - e2)). set (n := (e1 - e2 - e)%Z).
  assert (0 ≤ n)%Z as Hn by (subst n e; lia).
  assert ((match n with Z0 => Zpos m1 | Zpos _ => Z.shiftl (Zpos m1) n | Zneg _ => 0 end)%Z
    = (Zpos m1 * 2 ^ n)%Z) as ->.
  { destruct n; [lia|by rewrite Z.shiftl_mul_pow2|lia]. }
  pose proof (Z_div_mod (Zpos m1 * 2 ^ n) (Zpos m2) ltac:(lia)) as Hdiv.
  destruct (Z.div_eucl _ _) as [q r]. destruct Hdiv as [Hm Hr].
  pose proof (Z.pow_pos_nonneg 2 n ltac:(lia) Hn) as Hp.
  assert (0 ≤ q)%Z as Hq by nia. cbn zeta.
  set (x := _ / _). set (y := inject_Z (Zpos m2) * pw e2).
  assert (0 < y) as Hy by (pose proof (pw_pos e2); apply Qmult_lt_0_compat; done).
  assert (x * y == inject_Z (Zpos m1 * 2 ^ n) * pw (e2 + e)) as Hx.
  { rewrite scale_Z by done. replace (e2 + e + n)%Z with e1 by (subst n; lia).
    subst x. unfold Qdiv. fold y. field. lra. }
  split; [done|]. split.
  - split; apply (Qmult_le_r _ _ y Hy); rewrite Hx; subst y; rewrite pw_plus.
    + assert (inject_Z q * pw e * (inject_Z (Zpos m2) * pw e2) == inject_Z (q * Zpos m2) * (pw e2 * pw e)) as ->
        by (rewrite inject_Z_mult; ring).
      rewrite <- pw_plus. apply scale_le. lia.
    + assert (inject_Z (q + 1) * pw e * (inject_Z (Zpos m2) * pw e2) == inject_Z ((q + 1) * Zpos m2) * (pw e2 * pw e)) as ->
        by (rewrite inject_Z_mult; ring).
      rewrite <- pw_plus. apply scale_le. lia.
  - pose proof (digits2_pos_bounds m1) as H1. pose proof (digits2_pos_bounds m2) as H2. cbn [Zdigits2] in D.
    set (d1 := Zpos (digits2_pos m1)) in *. set (d2 := Zpos (digits2_pos m2)) in *.
    assert (1 ≤ d1)%Z by lia. pose proof (Zdigits2_nonneg q) as Hdq.
    assert (d1 - d2 + n ≤ Zdigits2 q)%Z as Hdig.
    { destruct (Z.le_gt_cases (d1 - d2 + n) 0) as [|Hpos]; [lia|].
      replace (d1 - d2 + n)%Z with ((d1 - 1 - d2 + n) + 1)%Z by lia. apply Zdigits2_ge; [lia|].
      assert (2 ^ (d1 - 1) * 2 ^ n ≤ Zpos m1 * 2 ^ n)%Z as Hle by nia.
      rewrite <- Z.pow_add_r in Hle by lia.
      replace (d1 - 1 + n)%Z with ((d1 - 1 - d2 + n) + d2)%Z in Hle by lia.
      rewrite Z.pow_add_r in Hle by lia. nia. }
    split.
    + subst n. unfold fexp, emin in *. lia.
    + intros ->. cbn [Zdigits2] in *. subst n. unfold fexp, emin in *. lia.
Qed.

Lemma SFdiv_rounds x s m e :
  is_finite x = true → let y := S754_finite s m e in rounds_to (value x / value y) (SFdiv 53 1024 x y).
Proof.
  intros Hx y. destruct x as [s1| | |s1 m1 e1]; try done.
  subst y. cbn [SFdiv]. pose proof (div_core m1 e1 m e) as H.
  destruct (SFdiv_core_binary _ _ _ _ _ _) as [[q e'] l]. cbn zeta in H.
  set (z := _ / _) in H. destruct H as (Hq & Hz & He & H0).
  assert (0 <= z) as Hpos.
  { eapply Qle_trans; [|apply Hz]. pose proof (pw_pos e').
    apply Qmult_le_0_compat; [by apply (inject_le 0)|lra]. }
  apply (signed_rounds (xorb s1 s) z); [exact Hpos| |].
  - cbn [value]. rewrite sign_xorb. subst z. pose proof (pw_pos e).
    assert (~ inject_Z (Zpos m) == 0) by done.
    destruct s; unfold sign; field; split; lra || done.
  - eapply signed_weaken; [|apply (round_aux_error _ q e' l z Hq Hz)].
    rewrite Z.max_r by done. destruct (decide (q = 0%Z)) as [Hq0|Hq0].
    + rewrite H0 by done. pose proof EPS_pos. fold ETA. nra.
    + apply (fexp_error q e' z); [lia|apply Hz].
Qed.
