(* ===== verification/Means.v ===== *)
(** The mean a window keeps, against the arithmetic mean of its samples.  PostgreSQL folds a
    sample into the mean of those before it with four rounded operations; the exact mean is
    a rational. *)

From S2P Require Import Prelude Domain ReadModels Rollups Rounding.
From Stdlib Require Import SpecFloat QArith Qabs Lqa Qfield.

Local Open Scope Q_scope.

(** The exact sum and mean. *)
Definition total (l : list float) : Q := foldr (λ x s, value x + s) 0 l.
Definition mean (l : list float) : Q := total l / inject_Z (Z.of_nat (length l)).

(** How far one more sample can take the mean of a window from the exact one. *)
Definition STEP : Q := 1 # 2 ^ 40.

(** A double whose magnitude is at most 128: every moisture and every temperature. *)
Definition sample (x : float) : Prop := is_finite x = true ∧ Qabs (value x) <= 128.

(** ** Lemmas *)

Lemma EPS_value : EPS == 3 # 4503599627370496.
Proof. reflexivity. Qed.
Lemma ETA_small : ETA <= 1 # 1152921504606846976.
Proof. vm_compute. discriminate. Qed.

Lemma finite_result (y : float) : is_nan y = false → is_inf y = false → is_finite y = true.
Proof. by destruct y. Qed.

Lemma finite_not_inf (y : float) : is_finite y = true → is_inf y = false.
Proof. by destruct y. Qed.

(** A guard that lets an infinite result of finite operands pass is not passed. *)
Lemma guard_finite r a b :
  is_inf r && negb (is_inf a) && negb (is_inf b) = false → is_finite a = true → is_finite b = true →
  is_inf r = false.
Proof.
  intros H Ha%finite_not_inf Hb%finite_not_inf. rewrite Ha, Hb in H. by destruct (is_inf r).
Qed.

(** The bound on the result of an operation, split. *)
Lemma rounds_bound x y c :
  rounds_to x y → is_finite y = true → - c <= x <= c →
  - ((3 # 4503599627370496) * c + (1 # 1152921504606846976)) <= value y - x <= (3 # 4503599627370496) * c + (1 # 1152921504606846976).
Proof.
  intros [_ H] Hy Hx. specialize (H Hy). apply Qabs_Qle_condition in Hx.
  rewrite EPS_value in H. pose proof ETA_small.
  apply Qabs_Qle_condition. lra.
Qed.

Ltac float8_inv H :=
  repeat (match type of H with (if ?b then _ else _) = Ok _ => destruct b eqn:?; [discriminate H|] end);
  injection H as <-.

Lemma float8_mul_near a b r :
  is_finite a = true → is_finite b = true → float8_mul a b = Ok r →
  is_finite r = true ∧ rounds_to (value a * value b) r.
Proof.
  intros Ha Hb H. pose proof (SFmul_rounds a b Ha Hb) as Hr. unfold float8_mul in H. float8_inv H.
  split; [|done]. apply finite_result; [apply Hr|].
  by eapply guard_finite.
Qed.

Lemma float8_pl_near a b r :
  is_finite a = true → is_finite b = true → float8_pl a b = Ok r →
  is_finite r = true ∧ rounds_to (value a + value b) r.
Proof.
  intros Ha Hb H. pose proof (SFadd_rounds a b Ha Hb) as Hr. unfold float8_pl in H. float8_inv H.
  split; [|done]. apply finite_result; [apply Hr|].
  by eapply guard_finite.
Qed.

Lemma float8_div_near a b r :
  is_finite a = true → is_finite b = true → ~ value b == 0 → float8_div a b = Ok r →
  is_finite r = true ∧ rounds_to (value a / value b) r.
Proof.
  intros Ha Hb Hb0 H. destruct b as [sb| | |s m e]; try done.
  pose proof (SFdiv_rounds a s m e Ha) as Hr. unfold float8_div in H. cbn [is_zero andb] in H. float8_inv H.
  split; [|done]. apply finite_result; [apply Hr|].
  rewrite (finite_not_inf a Ha), andb_true_r in *. done.
Qed.

(** Dividing a bounded quantity. *)
Lemma div_bound N c q : 1 <= N → - (c * (N + 1)) <= q <= c * (N + 1) → - c <= q / (N + 1) <= c.
Proof.
  intros HN [Hlo Hhi].
  assert (q / (N + 1) * (N + 1) == q) as E.
  { unfold Qdiv. rewrite <- Qmult_assoc, (Qmult_comm (/ _)), Qmult_inv_r; lra. }
  split; apply (Qmult_le_r _ _ (N + 1)); lra.
Qed.

(** One more sample. *)
Lemma next_mean_near avg n x avg' :
  is_finite avg = true → Qabs (value avg) <= 256 → (1 ≤ n < 2 ^ 31)%Z → sample x →
  next_mean avg n x = Ok avg' →
  is_finite avg' = true ∧
  Qabs (value avg' - (value avg * inject_Z n + value x) / inject_Z (n + 1)) <= STEP.
Proof.
  intros Hfin Havg Hn [Hx Hx'] H. unfold next_mean in H.
  apply bind_Ok in H as (p & Hp & H). apply bind_Ok in H as (t & Ht & H).
  destruct (float_of_Z_exact n ltac:(lia)) as [Fn Vn].
  destruct (float_of_Z_exact (n + 1) ltac:(lia)) as [Fn1 Vn1].
  assert (1 <= inject_Z n) as Hn1 by (apply (inject_le 1); lia).
  assert (inject_Z (n + 1) == inject_Z n + 1) as En by (by rewrite inject_Z_plus).
  apply Qabs_Qle_condition in Havg, Hx'.
  apply float8_mul_near in Hp as [Fp Rp]; [|done..]. rewrite Vn in Rp.
  apply float8_pl_near in Ht as [Ft Rt]; [|done..].
  apply float8_div_near in H as [Fr Rr]; [|done..|rewrite Vn1, En; lra]. split; [done|].
  rewrite Vn1, En in Rr. rewrite En.
  generalize dependent (inject_Z n). intros N Rp Rr Vn HN En.
  assert (- (256 * N) <= value avg * N <= 256 * N) as Han by (split; nra).
  pose proof (rounds_bound _ _ _ Rp Fp Han) as Bp.
  pose proof (rounds_bound _ _ (257 * (N + 1)) Rt Ft) as Bt.
  pose proof (rounds_bound _ _ 258 Rr Fr) as Br.
  clear Rp Rt Rr. revert Bp Bt Br Havg Hx' Han.
  generalize (value avg * N) (value p) (value x) (value t) (value avg'). clear -HN.
  intros q P X T R Bp Bt Br _ HX Hq. specialize (Bt ltac:(split; lra)).
  pose proof (div_bound N 258 T HN ltac:(split; lra)) as HT. specialize (Br HT).
  pose proof (div_bound N (1600 # 4503599627370496) (T - (q + X)) HN ltac:(split; lra)) as Bd.
  unfold Qdiv in *. change STEP with (1 # 1099511627776). apply Qabs_Qle_condition.
  assert ((T - (q + X)) * / (N + 1) == T * / (N + 1) - (q + X) * / (N + 1)) as E by ring.
  rewrite E in Bd. split; lra.
Qed.

(** *** The samples of a window *)

(** The mean a window keeps is the arithmetic mean, but for the rounding: at most [STEP]
    for each sample. *)
Definition near_mean (l : list float) (avg : float) : Prop :=
  is_finite avg = true ∧
  Qabs (value avg - mean l) <= inject_Z (Z.of_nat (length l)) * STEP.

Lemma total_cons x l : total (x :: l) = value x + total l.
Proof. done. Qed.

Lemma total_app l k : total (l ++ k) == total l + total k.
Proof.
  induction l as [|x l IH]; [change (total []) with 0; cbn [app]; ring|].
  cbn [app]. rewrite !total_cons, IH. ring.
Qed.

Lemma total_bound l :
  Forall sample l → let n := inject_Z (Z.of_nat (length l)) in - (128 * n) <= total l <= 128 * n.
Proof.
  induction 1 as [|x l [_ Hx] _ IH]; [split; discriminate|]. cbn zeta in *. cbn [length].
  rewrite total_cons. apply Qabs_Qle_condition in Hx.
  rewrite Nat2Z.inj_succ, <- Z.add_1_r, inject_Z_plus. change (inject_Z 1) with 1. split; lra.
Qed.

Lemma length_pos {A} (l : list A) : l ≠ [] → 1 <= inject_Z (Z.of_nat (length l)).
Proof. destruct l; [done|]. intros _. apply (inject_le 1). cbn. lia. Qed.

Lemma mean_total l : l ≠ [] → mean l * inject_Z (Z.of_nat (length l)) == total l.
Proof.
  intros Hl. pose proof (length_pos l Hl). unfold mean, Qdiv.
  rewrite <- Qmult_assoc, (Qmult_comm (/ _)), Qmult_inv_r; lra.
Qed.

Lemma near_mean_one x : sample x → near_mean [x] x.
Proof.
  intros [Hx _]. split; [done|].
  assert (value x - mean [x] == 0) as -> by (unfold mean; cbn [total foldr length]; change (inject_Z (Z.of_nat 1)) with 1; field).
  discriminate.
Qed.

Lemma near_mean_snoc l avg x avg' :
  l ≠ [] → (Z.of_nat (length l) < 2 ^ 31)%Z → Forall sample l → sample x → near_mean l avg →
  next_mean avg (Z.of_nat (length l)) x = Ok avg' → near_mean (l ++ [x]) avg'.
Proof.
  intros Hl Hlen Hs Hx [Hfin Hnear] Hnext. pose proof (length_pos l Hl) as HN.
  pose proof (mean_total l Hl) as Hm. pose proof (total_bound l Hs) as Hb. cbn zeta in Hb.
  assert (1 ≤ Z.of_nat (length l))%Z as Hn by (destruct l; [done|cbn; lia]).
  assert (inject_Z (Z.of_nat (length l)) <= inject_Z (2 ^ 31)) as HN' by (apply inject_le; lia).
  assert (- (128) <= mean l <= 128) as Hmean by (split; apply (Qmult_le_r _ _ (inject_Z (Z.of_nat (length l)))); lra).
  apply Qabs_Qle_condition in Hnear. change STEP with (1 # 1099511627776) in *.
  change (inject_Z (2 ^ 31)) with 2147483648 in HN'.
  assert (Qabs (value avg) <= 256) as Havg by (apply Qabs_Qle_condition; split; lra).
  destruct (next_mean_near avg _ x avg' Hfin Havg (conj Hn Hlen) Hx Hnext) as [Hfin' Herr].
  split; [done|]. change STEP with (1 # 1099511627776) in *.
  assert (mean (l ++ [x]) == (mean l * inject_Z (Z.of_nat (length l)) + value x) / (inject_Z (Z.of_nat (length l)) + 1)) as Emean.
  { unfold mean at 1. rewrite total_app, length_app, Nat2Z.inj_add, inject_Z_plus, Hm.
    cbn [total foldr length]. change (inject_Z (Z.of_nat 1)) with 1. rewrite Qplus_0_r. reflexivity. }
  rewrite Emean, length_app, Nat2Z.inj_add. change (Z.of_nat (length [x])) with 1%Z.
  rewrite inject_Z_plus in *. change (inject_Z 1) with 1 in *.
  revert Hnear Herr HN. generalize (inject_Z (Z.of_nat (length l))) (mean l) (value avg) (value avg') (value x).
  clear. intros N m a R X Hnear Herr HN. apply Qabs_Qle_condition in Herr.
  assert ((a - m) * N <= N * (1 # 1099511627776) * N) as H1 by (apply Qmult_le_compat_r; lra).
  assert (- (N * (1 # 1099511627776)) * N <= (a - m) * N) as H2 by (apply Qmult_le_compat_r; lra).
  pose proof (div_bound N (N * (1 # 1099511627776)) ((a - m) * N) HN ltac:(split; lra)) as Bd.
  assert ((a - m) * N / (N + 1) == (a * N + X) / (N + 1) - (m * N + X) / (N + 1)) as E by (field; lra).
  rewrite E in Bd. apply Qabs_Qle_condition. split; lra.
Qed.

(** *** What the value objects admit *)

(** A double, which is what a Python float is, that the value objects admit. *)
Definition moisture_read (x : float) : Prop :=
  valid_binary 53 1024 x = true ∧ is_ok (Moisture_validate x) = true.
Definition temperature_read (x : float) : Prop :=
  valid_binary 53 1024 x = true ∧ is_ok (Temperature_validate x) = true.

Lemma small_sample s m e :
  valid_binary 53 1024 (S754_finite s m e) = true → (e ≤ -46)%Z → sample (S754_finite s m e).
Proof.
  intros Hv He. apply andb_true_iff in Hv as [Hc%Z.eqb_eq _]. split; [done|].
  assert (Zpos (digits2_pos m) ≤ 53)%Z as Hd by (unfold fexp, emin in Hc; lia).
  unfold value. rewrite Qabs_sign, Qabs_pos by apply scaled_nonneg.
  pose proof (digits2_pos_bounds m) as [_ Hm].
  assert (2 ^ Zpos (digits2_pos m) ≤ 2 ^ 53)%Z by (apply Z.pow_le_mono_r; lia).
  eapply Qle_trans; [apply (scale_le _ (2 ^ 53)); lia|].
  assert (128 == inject_Z (2 ^ 53) * pw (-46)) as -> by done. rewrite !(Qmult_comm (inject_Z _)).
  apply Qmult_le_compat_r; [by apply pw_le|discriminate].
Qed.

(** Between two constants of the code, both below 128. *)
Lemma between_sample x b1 m1 m2 e1 e2 :
  valid_binary 53 1024 x = true → (e1 ≤ -46)%Z → (e2 ≤ -46)%Z →
  float_le (S754_finite b1 m1 e1) x = true ∨ float_le (S754_zero false) x = true ∧ b1 = true →
  float_le x (S754_finite false m2 e2) = true → sample x.
Proof.
  intros Hv He1 He2 Hlo Hhi. unfold float_le, SFleb in *.
  destruct x as [s|[]| |[] m e]; try done; try (by destruct Hlo as [Hlo|[Hlo _]]; try destruct b1).
  - apply small_sample; [done|]. destruct Hlo as [Hlo|[Hlo _]]; [|done]. destruct b1; [|done]. cbn in Hlo.
    destruct (Z.compare_spec e1 e); [lia|done|lia].
  - apply small_sample; [done|]. cbn in Hhi. destruct (Z.compare_spec e e2); [lia|lia|done].
Qed.

Lemma moisture_sample x : moisture_read x → sample x.
Proof.
  intros [Hv Hok]. unfold Moisture_validate in Hok.
  destruct (float_le (float_of_Z 0) x && float_le x (float_of_Z 100)) eqn:E; [|done].
  apply andb_true_iff in E as [Hlo Hhi].
  by eapply (between_sample x true 1 _ (-50)); [| | |right|exact Hhi].
Qed.

Lemma temperature_sample x : temperature_read x → sample x.
Proof.
  intros [Hv Hok]. unfold Temperature_validate in Hok.
  destruct (float_le (float_of_Z (-50)) x && float_le x (float_of_Z 60)) eqn:E; [|done].
  apply andb_true_iff in E as [Hlo Hhi].
  by eapply between_sample; [| | |left; exact Hlo|exact Hhi].
Qed.
