(* ===== verification/Projections.v ===== *)
(** The projections of the domain events: [apps/admin/projections/garden.py], [care.py],
    [catalog.py], [journal.py] and [notifications.py], and what the tables they write are
    in terms of the events that reached them. *)

From S2P Require Import Prelude Domain Topics Rows Delivery ReadModels Rollups.

(** ** [GardenProjection] *)

Definition set_garden (g : GardenColumns) (r : PlantReadModel) : PlantReadModel :=
  mkPlantReadModel g (pr_species_name r) (pr_next_watering_at r) (pr_updated_at r).
Definition touch_plant (now : datetime) (r : PlantReadModel) : PlantReadModel :=
  mkPlantReadModel (pr_garden r) (pr_species_name r) (pr_next_watering_at r) now.

Definition added_columns (household_id : HouseholdId) (species_id : SpeciesId)
    (name location : string) (added_at : datetime) (g : GardenColumns) : GardenColumns :=
  mkGardenColumns (Some (uuid_value household_id)) (Some (uuid_value species_id)) (Some name)
    (Some location) (Some added_at) false (gc_onboarded_at g).
Definition moved_columns (location : string) (g : GardenColumns) : GardenColumns :=
  mkGardenColumns (gc_household_id g) (gc_species_id g) (gc_name g) (Some location)
    (gc_added_at g) (gc_removed g) (gc_onboarded_at g).
Definition removed_columns (g : GardenColumns) : GardenColumns :=
  mkGardenColumns (gc_household_id g) (gc_species_id g) (gc_name g) (gc_location g)
    (gc_added_at g) true (gc_onboarded_at g).
Definition onboarded_columns (at_ : datetime) (g : GardenColumns) : GardenColumns :=
  mkGardenColumns (gc_household_id g) (gc_species_id g) (gc_name g) (gc_location g)
    (gc_added_at g) (gc_removed g) (Some at_).

Definition on_plant_added (plant_id : PlantId) (household_id : HouseholdId)
    (species_id : SpeciesId) (name : string) (location : Location) (added_at now : datetime)
    (d : ReadDatabase) : result ReadDatabase :=
  put_plants d <$> update_or_create (uuid_value plant_id) (PlantReadModel_new now)
    (λ r, name ← varchar 200 name;
          location ← varchar 100 (location_value location);
          Ok (touch_plant now
            (set_garden (added_columns household_id species_id name location added_at
              (pr_garden r)) r)))
    (rd_plants d).

(** [filter(...).update(...)] does not write [updated_at]. *)
Definition update_garden (plant_id : PlantId) (columns : GardenColumns → result GardenColumns)
    (d : ReadDatabase) : result ReadDatabase :=
  put_plants d <$> filter_update (uuid_value plant_id)
    (λ r, g ← columns (pr_garden r); Ok (set_garden g r)) (rd_plants d).

Definition on_plant_moved (plant_id : PlantId) (location : Location) (now : datetime) :
    ReadDatabase → result ReadDatabase :=
  update_garden plant_id
    (λ g, location ← varchar 100 (location_value location); Ok (moved_columns location g)).

Definition on_plant_removed (plant_id : PlantId) (now : datetime) :
    ReadDatabase → result ReadDatabase :=
  update_garden plant_id (λ g, Ok (removed_columns g)).

Definition on_plant_onboarded (plant_id : PlantId) (occurred_at now : datetime) :
    ReadDatabase → result ReadDatabase :=
  update_garden plant_id (λ g, Ok (onboarded_columns occurred_at g)).

Definition GardenProjection : Projection := mkProjection "garden" [GARDEN_EVENTS] (λ e,
  match body e with
  | PlantAdded p h s name location added_at => Some (on_plant_added p h s name location added_at)
  | PlantMoved p _ location => Some (on_plant_moved p location)
  | PlantRemoved p _ => Some (on_plant_removed p)
  | PlantOnboarded p _ _ _ => Some (on_plant_onboarded p (occurred_at e))
  | _ => None
  end).

(** ** [CareProjection] *)

Definition set_next_watering_at (at_ : datetime) (r : CareReadModel) : CareReadModel :=
  mkCareReadModel (cr_watering_interval r) at_ (cr_last_watered_at r) (cr_version r)
    (cr_updated_at r).
Definition set_last_watered_at (at_ : datetime) (r : CareReadModel) : CareReadModel :=
  mkCareReadModel (cr_watering_interval r) (cr_next_watering_at r) (Some at_) (cr_version r)
    (cr_updated_at r).
Definition set_schedule (interval : timedelta) (at_ : datetime) (r : CareReadModel) :
    CareReadModel :=
  mkCareReadModel interval at_ (cr_last_watered_at r) (cr_version r) (cr_updated_at r).
Definition set_plant_watering (at_ now : datetime) (r : PlantReadModel) : PlantReadModel :=
  mkPlantReadModel (pr_garden r) (pr_species_name r) (Some at_) now.

(** [_set_next_watering]. *)
Definition set_next_watering (plant_id : PlantId) (at_ now : datetime) (d : ReadDatabase) :
    result ReadDatabase :=
  care ← filter_update (uuid_value plant_id) (λ r, Ok (set_next_watering_at at_ r)) (rd_care d);
  plants ← update_or_create (uuid_value plant_id) (PlantReadModel_new now)
    (λ r, Ok (set_plant_watering at_ now r)) (rd_plants d);
  Ok (put_care (put_plants d plants) care).

Definition on_care_schedule_created (plant_id : PlantId) (interval : WateringInterval)
    (at_ now : datetime) (d : ReadDatabase) : result ReadDatabase :=
  d ← set_next_watering plant_id at_ now d;
  let '(care, created) := get_or_create (uuid_value plant_id)
    (mkCareReadModel (interval_value interval) at_ None 1 now) (rd_care d) in
  if created then Ok (put_care d care)
  else put_care d <$> filter_update (uuid_value plant_id)
    (λ r, Ok (set_schedule (interval_value interval) at_ r)) care.

Definition CareProjection_on_watering_completed (plant_id : PlantId) (completed_at at_ now : datetime)
    (d : ReadDatabase) : result ReadDatabase :=
  care ← filter_update (uuid_value plant_id) (λ r, Ok (set_last_watered_at completed_at r))
    (rd_care d);
  set_next_watering plant_id at_ now (put_care d care).

Definition CareProjection : Projection := mkProjection "care" [CARE_EVENTS] (λ e,
  match body e with
  | CareScheduleCreated p interval at_ => Some (on_care_schedule_created p interval at_)
  | WateringCompleted p completed_at at_ => Some (CareProjection_on_watering_completed p completed_at at_)
  | WateringRescheduled p _ at_ _ => Some (set_next_watering p at_)
  | CareSkipped p _ at_ => Some (set_next_watering p at_)
  | CareMissed p at_ => Some (set_next_watering p at_)
  | _ => None
  end).

(** ** [SpeciesProjection] *)

Definition set_species_name (species_id : SpeciesId) (common_name : string)
    (r : PlantReadModel) : PlantReadModel :=
  if bool_decide (gc_species_id (pr_garden r) = Some (uuid_value species_id)) then
    mkPlantReadModel (pr_garden r) (Some common_name) (pr_next_watering_at r) (pr_updated_at r)
  else r.

(** [_upsert]: a row that is created gets every column, so what it starts from is
    overwritten. *)
Definition upsert_species (species_id : SpeciesId) (scientific_name common_name : string)
    (interval : WateringInterval) (light : LightRequirement) (version : Z) (now : datetime)
    (d : ReadDatabase) : result ReadDatabase :=
  scientific_name ← varchar 200 scientific_name;
  common_name ← varchar 200 common_name;
  light ← varchar 20 (LightRequirement_value light);
  let row := mkSpeciesReadModel scientific_name common_name (interval_value interval) light
    version now in
  species ← update_or_create (uuid_value species_id) row (λ _, Ok row) (rd_species d);
  Ok (put_plants (put_species d species)
    (set_species_name species_id common_name <$> rd_plants d)).

Definition SpeciesProjection : Projection := mkProjection "catalog" [CATALOG_EVENTS] (λ e,
  match body e with
  | SpeciesAdded s scientific common interval light version =>
      Some (upsert_species s scientific common interval light version)
  | SpeciesUpdated s scientific common interval light version =>
      Some (upsert_species s scientific common interval light version)
  | _ => None
  end).

(** ** [JournalProjection] *)

Definition on_journal_entry_added (entry_id : JournalEntryId) (plant_id : PlantId)
    (entry_type : JournalEntryType) (note : option string)
    (entry_occurred_at occurred_at now : datetime) (d : ReadDatabase) : result ReadDatabase :=
  let plants := (get_or_create (uuid_value plant_id) (PlantReadModel_new now) (rd_plants d)).1 in
  entry_type ← varchar 20 (JournalEntryType_value entry_type);
  let row := mkJournalReadModel (uuid_value plant_id) entry_type note entry_occurred_at
    occurred_at in
  journal ← update_or_create (uuid_value entry_id) row (λ _, Ok row) (rd_journal d);
  Ok (put_journal (put_plants d plants) journal).

Definition JournalProjection : Projection := mkProjection "journal" [JOURNAL_EVENTS] (λ e,
  match body e with
  | JournalEntryAdded entry_id p entry_type note entry_occurred_at =>
      Some (on_journal_entry_added entry_id p entry_type note entry_occurred_at (occurred_at e))
  | _ => None
  end).

(** ** [NotificationProjection] *)

Definition on_notification_created (notification_id : NotificationId)
    (household_id : HouseholdId) (notification_type : NotificationType)
    (payload : gmap string JsonValue) (created_at now : datetime) (d : ReadDatabase) :
    result ReadDatabase :=
  notification_type ← varchar 40 (NotificationType_value notification_type);
  let row read_at := mkNotificationReadModel (uuid_value household_id) notification_type payload
    created_at read_at in
  put_notifications d <$> update_or_create (uuid_value notification_id) (row None)
    (λ r, Ok (row (nr_read_at r))) (rd_notifications d).

Definition set_read_at (at_ : datetime) (r : NotificationReadModel) : NotificationReadModel :=
  mkNotificationReadModel (nr_household_id r) (nr_notification_type r) (nr_payload r)
    (nr_created_at r) (Some at_).

Definition on_notification_read (notification_id : NotificationId) (read_at now : datetime)
    (d : ReadDatabase) : result ReadDatabase :=
  put_notifications d <$> filter_update (uuid_value notification_id)
    (λ r, Ok (set_read_at read_at r)) (rd_notifications d).

Definition NotificationProjection : Projection :=
  mkProjection "notifications" [NOTIFICATIONS_EVENTS] (λ e,
    match body e with
    | NotificationCreated n h notification_type payload created_at =>
        Some (on_notification_created n h notification_type payload created_at)
    | NotificationRead n _ read_at => Some (on_notification_read n read_at)
    | _ => None
    end).

Definition ALL_PROJECTIONS : list Projection :=
  [GardenProjection; CareProjection; SpeciesProjection; NotificationProjection;
   JournalProjection; TelemetryRollupProjection].

(** ** Streams of projected events *)

(** The handler of an event, whichever projection has one. *)
Definition read_handler (e : DomainEvent) : option projection_handler :=
  head (omap (λ p, pj_handler p e) ALL_PROJECTIONS).

(** Events projected one after the other, each with the instant its handler read. *)
Definition project_event (d : ReadDatabase) (x : datetime * DomainEvent) : result ReadDatabase :=
  match read_handler x.2 with Some handler => handler x.1 d | None => Ok d end.
Definition project_events : ReadDatabase → list (datetime * DomainEvent) → result ReadDatabase :=
  foldM project_event.

(** *** What a row is, in terms of the events *)

(** The columns [GardenProjection] owns, on the row of a plant or on a missing one. *)
Definition garden_columns (p : uuid) (d : ReadDatabase) : GardenColumns :=
  default no_garden_columns (pr_garden <$> rd_plants d !! p).

Definition is_garden_event (p : uuid) (e : DomainEvent) : bool :=
  match body e with
  | PlantAdded q _ _ _ _ _ | PlantMoved q _ _ | PlantRemoved q _ | PlantOnboarded q _ _ _ =>
      bool_decide (uuid_value q = p)
  | _ => false
  end.

Definition garden_step (g : GardenColumns) (e : DomainEvent) : GardenColumns :=
  match body e with
  | PlantAdded _ h s name location added_at =>
      added_columns h s name (location_value location) added_at g
  | PlantMoved _ _ location => moved_columns (location_value location) g
  | PlantRemoved _ _ => removed_columns g
  | PlantOnboarded _ _ _ _ => onboarded_columns (occurred_at e) g
  | _ => g
  end.

(** The instant a care event moves the schedule of the plant to. *)
Definition next_watering_of (p : uuid) (e : DomainEvent) : option datetime :=
  match body e with
  | CareScheduleCreated q _ at_ | WateringCompleted q _ at_ | WateringRescheduled q _ at_ _
  | CareSkipped q _ at_ | CareMissed q at_ => if decide (uuid_value q = p) then Some at_ else None
  | _ => None
  end.

(** A schedule's row without the instant it was written. *)
Definition care_view (r : CareReadModel) : timedelta * datetime * option datetime * Z :=
  (cr_watering_interval r, cr_next_watering_at r, cr_last_watered_at r, cr_version r).

Definition care_step (c : option (timedelta * datetime * option datetime * Z)) (e : DomainEvent) :
    option (timedelta * datetime * option datetime * Z) :=
  match body e with
  | CareScheduleCreated _ interval at_ =>
      match c with
      | Some (_, _, last, version) => Some (interval_value interval, at_, last, version)
      | None => Some (interval_value interval, at_, None, 1%Z)
      end
  | WateringCompleted _ completed_at at_ =>
      '(interval, _, _, version) ← c; Some (interval, at_, Some completed_at, version)
  | WateringRescheduled _ _ at_ _ | CareSkipped _ _ at_ | CareMissed _ at_ =>
      '(interval, _, last, version) ← c; Some (interval, at_, last, version)
  | _ => c
  end.

(** A catalogue row without the instant it was written. *)
Definition species_view (r : SpeciesReadModel) : string * string * timedelta * string * Z :=
  (sr_scientific_name r, sr_common_name r, sr_watering_interval r, sr_light_requirement r,
   sr_version r).

Definition is_species_event (s : uuid) (e : DomainEvent) : bool :=
  match body e with
  | SpeciesAdded q _ _ _ _ _ | SpeciesUpdated q _ _ _ _ _ => bool_decide (uuid_value q = s)
  | _ => false
  end.

Definition species_step (c : option (string * string * timedelta * string * Z))
    (e : DomainEvent) : option (string * string * timedelta * string * Z) :=
  match body e with
  | SpeciesAdded _ scientific common interval light version
  | SpeciesUpdated _ scientific common interval light version =>
      Some (scientific, common, interval_value interval, LightRequirement_value light, version)
  | _ => c
  end.

Definition is_notification_event (n : uuid) (e : DomainEvent) : bool :=
  match body e with
  | NotificationCreated q _ _ _ _ | NotificationRead q _ _ => bool_decide (uuid_value q = n)
  | _ => false
  end.

Definition notification_step (c : option NotificationReadModel) (e : DomainEvent) :
    option NotificationReadModel :=
  match body e with
  | NotificationCreated _ h notification_type payload created_at =>
      Some (mkNotificationReadModel (uuid_value h) (NotificationType_value notification_type)
        payload created_at (c ≫= nr_read_at))
  | NotificationRead _ _ read_at => set_read_at read_at <$> c
  | _ => c
  end.

Definition is_journal_event (n : uuid) (e : DomainEvent) : bool :=
  match body e with JournalEntryAdded q _ _ _ _ => bool_decide (uuid_value q = n) | _ => false end.

Definition journal_step (c : option JournalReadModel) (e : DomainEvent) :
    option JournalReadModel :=
  match body e with
  | JournalEntryAdded _ p entry_type note at_ =>
      Some (mkJournalReadModel (uuid_value p) (JournalEntryType_value entry_type) note at_
        (occurred_at e))
  | _ => c
  end.

(** Whether an event leaves the plant with a row. *)
Definition makes_plant (p : uuid) (e : DomainEvent) : bool :=
  match body e with
  | PlantAdded q _ _ _ _ _ | JournalEntryAdded _ q _ _ _ => bool_decide (uuid_value q = p)
  | _ => match next_watering_of p e with Some _ => true | None => false end
  end.

(** ** Lemmas *)

Lemma read_handler_eq e :
  read_handler e =
  match body e with
  | PlantAdded p h s name location added_at => Some (on_plant_added p h s name location added_at)
  | PlantMoved p _ location => Some (on_plant_moved p location)
  | PlantRemoved p _ => Some (on_plant_removed p)
  | PlantOnboarded p _ _ _ => Some (on_plant_onboarded p (occurred_at e))
  | CareScheduleCreated p interval at_ => Some (on_care_schedule_created p interval at_)
  | WateringCompleted p completed_at at_ => Some (CareProjection_on_watering_completed p completed_at at_)
  | WateringRescheduled p _ at_ _ | CareSkipped p _ at_ | CareMissed p at_ =>
      Some (set_next_watering p at_)
  | SpeciesAdded s scientific common interval light version
  | SpeciesUpdated s scientific common interval light version =>
      Some (upsert_species s scientific common interval light version)
  | JournalEntryAdded entry_id p entry_type note at_ =>
      Some (on_journal_entry_added entry_id p entry_type note at_ (occurred_at e))
  | NotificationCreated n h notification_type payload created_at =>
      Some (on_notification_created n h notification_type payload created_at)
  | NotificationRead n _ read_at => Some (on_notification_read n read_at)
  | _ => pj_handler TelemetryRollupProjection e
  end.
Proof. unfold read_handler. destruct e as [i t []]; reflexivity. Qed.

(** The projection that handles an event is the one whose handler runs. *)
Lemma read_handler_of p e h :
  p ∈ ALL_PROJECTIONS → pj_handler p e = Some h → read_handler e = Some h.
Proof.
  enough (Forall (λ p, ∀ e h, pj_handler p e = Some h → read_handler e = Some h)
    ALL_PROJECTIONS) as H by (rewrite Forall_forall in H; eauto).
  unfold ALL_PROJECTIONS. repeat constructor; intros e' h'; rewrite read_handler_eq;
    destruct e' as [i t []]; cbn; congruence.
Qed.

Lemma fmap_Ok {A B} (f : A → B) (m : result A) (b : B) :
  f <$> m = Ok b ↔ ∃ a, m = Ok a ∧ b = f a.
Proof. destruct m; cbn; naive_solver. Qed.

(** *** The row of a plant *)

(** The row of the plant [p] after an event, from the one before it. *)
Definition plant_row (p : uuid) (now : datetime) (e : DomainEvent) (r : option PlantReadModel) :
    option PlantReadModel :=
  let fresh := default (PlantReadModel_new now) r in
  match body e with
  | PlantAdded q h s name location added_at =>
      if decide (uuid_value q = p) then
        Some (touch_plant now (set_garden (garden_step (pr_garden fresh) e) fresh)) else r
  | PlantMoved q _ _ | PlantRemoved q _ | PlantOnboarded q _ _ _ =>
      if decide (uuid_value q = p) then (λ r, set_garden (garden_step (pr_garden r) e) r) <$> r
      else r
  | SpeciesAdded s _ common _ _ _ | SpeciesUpdated s _ common _ _ _ =>
      set_species_name s common <$> r
  | JournalEntryAdded _ q _ _ _ => if decide (uuid_value q = p) then Some fresh else r
  | _ => match next_watering_of p e with
         | Some at_ => Some (set_plant_watering at_ now fresh)
         | None => r
         end
  end.

Lemma set_next_watering_run p at_ now d :
  set_next_watering p at_ now d = Ok (put_care
    (put_plants d (<[uuid_value p := set_plant_watering at_ now
      (default (PlantReadModel_new now) (rd_plants d !! uuid_value p))]> (rd_plants d)))
    (alter (set_next_watering_at at_) (uuid_value p) (rd_care d))).
Proof. unfold set_next_watering. by rewrite filter_update_total. Qed.

Lemma update_garden_run p f d :
  update_garden p (λ g, Ok (f g)) d =
  Ok (put_plants d (alter (λ r, set_garden (f (pr_garden r)) r) (uuid_value p) (rd_plants d))).
Proof. unfold update_garden. cbn. by rewrite filter_update_total. Qed.

Lemma on_plant_moved_Ok p location now d d' :
  on_plant_moved p location now d = Ok d' →
  d' = put_plants d (alter (λ r, set_garden (moved_columns (location_value location)
    (pr_garden r)) r) (uuid_value p) (rd_plants d)).
Proof.
  unfold on_plant_moved, update_garden. intros (t & Ht & ->)%fmap_Ok. f_equal.
  apply filter_update_Ok in Ht. destruct (rd_plants d !! uuid_value p) as [r|] eqn:E.
  - destruct Ht as (row & Hrow & ->). inv_result. apply varchar_Ok in H0 as [-> _].
    apply map_eq. intros j. rewrite lookup_insert_by, lookup_alter_by.
    case_decide; [subst; by rewrite E|done].
  - subst. symmetry. by apply alter_id; rewrite E.
Qed.

Lemma on_plant_added_Ok p h s name location added_at now d d' :
  on_plant_added p h s name location added_at now d = Ok d' →
  let r := default (PlantReadModel_new now) (rd_plants d !! uuid_value p) in
  d' = put_plants d (<[uuid_value p := touch_plant now (set_garden
    (added_columns h s name (location_value location) added_at (pr_garden r)) r)]> (rd_plants d)).
Proof.
  unfold on_plant_added. intros (t & Ht & ->)%fmap_Ok.
  apply update_or_create_Ok in Ht as (row & Hrow & ->). inv_result.
  inv_varchar.
  done.
Qed.

Lemma upsert_species_Ok s scientific common interval light version now d d' :
  upsert_species s scientific common interval light version now d = Ok d' →
  d' = put_plants (put_species d (<[uuid_value s := mkSpeciesReadModel scientific common
      (interval_value interval) (LightRequirement_value light) version now]> (rd_species d)))
    (set_species_name s common <$> rd_plants d).
Proof.
  unfold upsert_species. intros Hh. inv_result.
  inv_varchar.
  rewrite (update_or_create_total _ _ (λ _, _)) in *. inv_result. done.
Qed.

Lemma on_journal_entry_added_Ok n p entry_type note at_ recorded_at now d d' :
  on_journal_entry_added n p entry_type note at_ recorded_at now d = Ok d' →
  d' = put_journal (put_plants d (get_or_create (uuid_value p) (PlantReadModel_new now)
      (rd_plants d)).1)
    (<[uuid_value n := mkJournalReadModel (uuid_value p) (JournalEntryType_value entry_type)
      note at_ recorded_at]> (rd_journal d)).
Proof.
  unfold on_journal_entry_added. intros Hh. inv_result.
  inv_varchar.
  rewrite (update_or_create_total _ _ (λ _, _)) in *. inv_result. done.
Qed.

Lemma on_notification_created_Ok n h notification_type payload created_at now d d' :
  on_notification_created n h notification_type payload created_at now d = Ok d' →
  d' = put_notifications d (<[uuid_value n := mkNotificationReadModel (uuid_value h)
    (NotificationType_value notification_type) payload created_at
    (rd_notifications d !! uuid_value n ≫= nr_read_at)]> (rd_notifications d)).
Proof.
  unfold on_notification_created. intros Hh. inv_result.
  apply fmap_Ok in Hh as (t & Ht & ->). apply update_or_create_Ok in Ht as (row & [= <-] & ->).
  inv_varchar.
  do 3 f_equal. by destruct (rd_notifications d !! uuid_value n).
Qed.

Lemma on_notification_read_run n at_ now d :
  on_notification_read n at_ now d =
  Ok (put_notifications d (alter (set_read_at at_) (uuid_value n) (rd_notifications d))).
Proof. unfold on_notification_read. by rewrite filter_update_total. Qed.

Lemma on_watering_completed_run p completed_at at_ now d :
  CareProjection_on_watering_completed p completed_at at_ now d =
  set_next_watering p at_ now
    (put_care d (alter (set_last_watered_at completed_at) (uuid_value p) (rd_care d))).
Proof. unfold CareProjection_on_watering_completed. by rewrite filter_update_total. Qed.

Lemma on_care_schedule_created_Ok p interval at_ now d d' :
  on_care_schedule_created p interval at_ now d = Ok d' →
  ∃ care, d' = put_care (put_plants d (<[uuid_value p := set_plant_watering at_ now
      (default (PlantReadModel_new now) (rd_plants d !! uuid_value p))]> (rd_plants d))) care ∧
    ∀ j, care !! j = if decide (uuid_value p = j)
      then Some (match rd_care d !! j with
                 | Some r => set_schedule (interval_value interval) at_ (set_next_watering_at at_ r)
                 | None => mkCareReadModel (interval_value interval) at_ None 1 now
                 end)
      else rd_care d !! j.
Proof.
  unfold on_care_schedule_created. rewrite set_next_watering_run. cbn [mbind result_bind].
  unfold get_or_create. cbn [rd_care put_care]. rewrite lookup_alter_by, decide_True by done.
  destruct (rd_care d !! uuid_value p) as [r|] eqn:E; cbn [fmap option_fmap option_map].
  - rewrite filter_update_total. intros [= <-]. eexists. split; [reflexivity|]. intros j.
    rewrite !lookup_alter_by. case_decide as Ej; [subst; by rewrite E|done].
  - intros [= <-]. eexists. split; [reflexivity|]. intros j.
    rewrite lookup_insert_by. case_decide as Ej; [by subst; rewrite E|].
    by rewrite lookup_alter_ne.
Qed.

Definition is_care_event (p : uuid) (e : DomainEvent) : bool :=
  match next_watering_of p e with Some _ => true | None => false end.

(** Compare two rows of a table after a write, key by key. *)
Ltac row_case :=
  rewrite ?lookup_insert_by, ?lookup_alter_by, ?lookup_fmap;
  first [progress case_decide; subst; rewrite ?bool_decide_true, ?bool_decide_false by done
        |idtac];
  try done; try (match goal with |- context [?t !! ?k] => destruct (t !! k) end; done).
Ltac row_cases_by tac := split_and!; intros ?; cbn; try done; tac; row_case.
Ltac row_cases := row_cases_by idtac.

(** Every projected event, by the row: each table's row is a function of the same row and
    the event. *)
Lemma project_event_rows d x d' :
  project_event d x = Ok d' →
  (∀ p, rd_plants d' !! p = plant_row p x.1 x.2 (rd_plants d !! p)) ∧
  (∀ p, care_view <$> rd_care d' !! p =
    if is_care_event p x.2 then care_step (care_view <$> rd_care d !! p) x.2
    else care_view <$> rd_care d !! p) ∧
  (∀ s, species_view <$> rd_species d' !! s =
    if is_species_event s x.2 then species_step (species_view <$> rd_species d !! s) x.2
    else species_view <$> rd_species d !! s) ∧
  (∀ n, rd_notifications d' !! n =
    if is_notification_event n x.2 then notification_step (rd_notifications d !! n) x.2
    else rd_notifications d !! n) ∧
  (∀ n, rd_journal d' !! n =
    if is_journal_event n x.2 then journal_step (rd_journal d !! n) x.2
    else rd_journal d !! n).
Proof.
  unfold project_event. rewrite read_handler_eq.
  unfold plant_row, is_care_event, next_watering_of, is_species_event, is_notification_event,
    is_journal_event, care_step, species_step, notification_step, journal_step.
  destruct x as [now [eid at_ b]]. cbn [body fst snd occurred_at].
  destruct b; try (intros [= <-]; done); try (intros Ht; apply (project_telemetry_put d (now, _)) in Ht; rewrite Ht; done).
  - intros ->%on_plant_added_Ok. row_cases.
  - unfold on_plant_removed. rewrite update_garden_run. intros [= <-]. row_cases.
  - intros ->%on_plant_moved_Ok. row_cases.
  - unfold on_plant_onboarded. rewrite update_garden_run. intros [= <-]. row_cases.
  - intros (care & -> & Hcare)%on_care_schedule_created_Ok. row_cases_by ltac:(rewrite ?Hcare).
  - rewrite on_watering_completed_run, set_next_watering_run. intros [= <-]. row_cases.
  - rewrite set_next_watering_run. intros [= <-]. row_cases.
  - rewrite set_next_watering_run. intros [= <-]. row_cases.
  - rewrite set_next_watering_run. intros [= <-]. row_cases.
  - intros ->%upsert_species_Ok. row_cases.
  - intros ->%upsert_species_Ok. row_cases.
  - intros ->%on_journal_entry_added_Ok. row_cases_by ltac:(rewrite ?get_or_create_lookup).
  - intros ->%on_notification_created_Ok. row_cases.
  - rewrite on_notification_read_run. intros [= <-]. row_cases.
Qed.

(** *** Tables as folds of the events *)

Lemma foldl_snd_filter {A B C} (f : C → B → C) (P : B → bool) (c : C) (l : list (A * B)) :
  foldl (λ c a, f c a.2) c (filter (λ a, P a.2 = true) l) =
  foldl f c (filter (λ b, P b = true) l.*2).
Proof.
  revert c. induction l as [|[a b] l IH]; intros c; [done|]. rewrite fmap_cons, !filter_cons.
  cbn [snd]. case_decide; cbn [foldl]; apply IH.
Qed.

(** A part of the read side that some events change and the others leave alone is the fold
    of those events. *)
Lemma projected {C} (obs : ReadDatabase → C) (P : DomainEvent → bool) (f : C → DomainEvent → C)
    d l d' :
  (∀ d x d', project_event d x = Ok d' →
     obs d' = if P x.2 then f (obs d) x.2 else obs d) →
  project_events d l = Ok d' → obs d' = foldl f (obs d) (filter (λ e, P e = true) l.*2).
Proof.
  intros Hstep Hl. rewrite <- foldl_snd_filter.
  apply (foldM_observed obs (λ x, P x.2) (λ c x, f c x.2) project_event); done.
Qed.

Lemma projected_care p d l d' :
  project_events d l = Ok d' →
  care_view <$> rd_care d' !! p =
  foldl care_step (care_view <$> rd_care d !! p) (filter (λ e, is_care_event p e = true) l.*2).
Proof.
  apply (projected (λ d, care_view <$> rd_care d !! p)). intros d1 x d2 H.
  by apply project_event_rows.
Qed.

Lemma projected_species s d l d' :
  project_events d l = Ok d' →
  species_view <$> rd_species d' !! s =
  foldl species_step (species_view <$> rd_species d !! s)
    (filter (λ e, is_species_event s e = true) l.*2).
Proof.
  apply (projected (λ d, species_view <$> rd_species d !! s)). intros d1 x d2 H.
  by apply project_event_rows.
Qed.

Lemma projected_notification n d l d' :
  project_events d l = Ok d' →
  rd_notifications d' !! n =
  foldl notification_step (rd_notifications d !! n)
    (filter (λ e, is_notification_event n e = true) l.*2).
Proof.
  apply (projected (λ d, rd_notifications d !! n)). intros d1 x d2 H.
  by apply project_event_rows.
Qed.

Lemma projected_journal n d l d' :
  project_events d l = Ok d' →
  rd_journal d' !! n =
  foldl journal_step (rd_journal d !! n) (filter (λ e, is_journal_event n e = true) l.*2).
Proof.
  apply (projected (λ d, rd_journal d !! n)). intros d1 x d2 H.
  by apply project_event_rows.
Qed.

(** The row of a plant: whether there is one, and the columns of each owner. *)
Lemma plant_row_exists p now e r :
  bool_decide (is_Some (plant_row p now e r)) =
  if makes_plant p e then true else bool_decide (is_Some r).
Proof.
  unfold plant_row, makes_plant, next_watering_of.
  destruct (body e); repeat case_decide; repeat case_bool_decide; try done;
    destruct r; cbn in *; try done;
    exfalso; match goal with H : ¬ is_Some _ |- _ => apply H; eauto | H : is_Some None |- _ => by destruct H end.
Qed.

Lemma plant_row_next p now e r :
  (plant_row p now e r ≫= pr_next_watering_at) =
  if is_care_event p e then next_watering_of p e else r ≫= pr_next_watering_at.
Proof.
  unfold plant_row, is_care_event, next_watering_of.
  destruct (body e); repeat case_decide; try done; destruct r as [r|]; try done; cbn;
    unfold set_species_name; by case_bool_decide.
Qed.

Lemma plant_row_garden p now e r :
  let cols r := default no_garden_columns (pr_garden <$> r) in
  cols (plant_row p now e r) =
  if is_garden_event p e && (makes_plant p e || bool_decide (is_Some r))
  then garden_step (cols r) e else cols r.
Proof.
  unfold plant_row, is_garden_event, makes_plant, next_watering_of.
  destruct (body e) eqn:E; repeat case_decide; repeat case_bool_decide; try done;
    destruct r as [r|]; try done; cbn; unfold garden_step; rewrite ?E; try done;
    unfold set_species_name; try (by case_bool_decide);
    exfalso; match goal with H : ¬ is_Some _ |- _ => apply H; eauto | H : is_Some None |- _ => by destruct H end.
Qed.

Lemma projected_next p d l d' :
  project_events d l = Ok d' →
  (rd_plants d' !! p ≫= pr_next_watering_at) =
  foldl (λ _ e, next_watering_of p e) (rd_plants d !! p ≫= pr_next_watering_at)
    (filter (λ e, is_care_event p e = true) l.*2).
Proof.
  apply (projected (λ d, rd_plants d !! p ≫= pr_next_watering_at)). intros d1 x d2 H.
  destruct (project_event_rows _ _ _ H) as [-> _]. apply plant_row_next.
Qed.

Lemma projected_exists p d l d' :
  project_events d l = Ok d' →
  bool_decide (is_Some (rd_plants d' !! p)) =
  foldl (λ _ _, true) (bool_decide (is_Some (rd_plants d !! p)))
    (filter (λ e, makes_plant p e = true) l.*2).
Proof.
  refine (projected (λ d, bool_decide (is_Some (rd_plants d !! p))) (makes_plant p)
    (λ _ _, true) d l d' _). intros d1 x d2 H.
  destruct (project_event_rows _ _ _ H) as [-> _]. apply plant_row_exists.
Qed.

(** The garden's stream of a plant begins with its addition, as its aggregate records it. *)
Definition is_plant_added (e : DomainEvent) : bool :=
  match body e with PlantAdded _ _ _ _ _ _ => true | _ => false end.
Definition added_first (p : uuid) (l : list DomainEvent) : Prop :=
  match filter (λ e, is_garden_event p e = true) l with
  | [] => True
  | e :: _ => is_plant_added e = true
  end.

Lemma added_first_app p l1 l2 : added_first p (l1 ++ l2) → added_first p l1.
Proof. unfold added_first. rewrite filter_app. by destruct (filter _ l1). Qed.

Lemma added_makes_plant p e :
  is_garden_event p e = true → is_plant_added e = true → makes_plant p e = true.
Proof. unfold is_garden_event, is_plant_added, makes_plant. by destruct (body e). Qed.

(** Its columns are then the fold of that stream, whoever else makes rows in between. *)
Lemma projected_garden p d l d' :
  rd_plants d = ∅ → added_first p l.*2 → project_events d l = Ok d' →
  let own := filter (λ e, is_garden_event p e = true) l.*2 in
  garden_columns p d' = foldl garden_step no_garden_columns own ∧
  (own ≠ [] → is_Some (rd_plants d' !! p)).
Proof.
  intros Hd. revert d'. induction l as [|x l IH] using rev_ind; intros d' Hl Hp.
  { injection Hp as <-. unfold garden_columns. rewrite Hd, lookup_empty. done. }
  unfold project_events in Hp. rewrite foldM_app in Hp. apply bind_Ok in Hp as (d1 & H1 & Hp).
  cbn [foldM] in Hp. apply bind_Ok in Hp as (d2 & H2 & [= <-]).
  rewrite fmap_app in Hl |- *. pose proof (added_first_app _ _ _ Hl) as Hl1.
  destruct (IH d1 Hl1 H1) as [Hcols Hrow]. rewrite filter_app. cbn [fmap list_fmap].
  destruct (project_event_rows _ _ _ H2) as [Hx _].
  pose proof (plant_row_garden p x.1 x.2 (rd_plants d1 !! p)) as Hg.
  pose proof (plant_row_exists p x.1 x.2 (rd_plants d1 !! p)) as He.
  rewrite <- Hx in Hg, He. unfold garden_columns in *. cbn beta zeta in Hg. rewrite Hg, filter_cons, filter_nil.
  assert (is_Some (rd_plants d1 !! p) → is_Some (rd_plants d2 !! p)) as Hkeep.
  { intros H. rewrite (bool_decide_true _ H) in He. apply (bool_decide_unpack _).
    rewrite He. by destruct (makes_plant p x.2). }
  destruct (is_garden_event p x.2) eqn:Eg; cbn [andb].
  2: { rewrite decide_False by done. rewrite app_nil_r. split; [done|]. intros. by apply Hkeep, Hrow. }
  rewrite decide_True by done. rewrite foldl_app. cbn [foldl].
  destruct (filter _ l.*2) as [|e own] eqn:Eown.
  - unfold added_first in Hl. rewrite filter_app, Eown in Hl. cbn [fmap list_fmap app] in Hl.
    rewrite filter_cons, decide_True in Hl by done.
    pose proof (added_makes_plant p x.2 Eg Hl) as Hm. rewrite Hm in He |- *. cbn [orb].
    rewrite Hcols. split; [done|]. intros _. apply (bool_decide_unpack _). by rewrite He.
  - assert (is_Some (rd_plants d1 !! p)) as Hsome by (by apply Hrow).
    rewrite (bool_decide_true _ Hsome), orb_true_r, Hcols. split; [done|].
    intros _. by apply Hkeep.
Qed.

(** *** What Kafka keeps of the order

    Two orders in which the read side may see the same events: within a partition of a
    topic the same, across partitions any. *)
Definition same_partitions (l1 l2 : list DomainEvent) : Prop :=
  ∀ topic key,
    filter (λ e, topic_for e = Ok topic ∧ partition_key_for e = key) l1 =
    filter (λ e, topic_for e = Ok topic ∧ partition_key_for e = key) l2.

Lemma same_partitions_sym l1 l2 : same_partitions l1 l2 → same_partitions l2 l1.
Proof. intros H topic key. by rewrite H. Qed.

Lemma topic_of e : ∃ topic, topic_for e = Ok topic.
Proof. destruct e as [i t []]; eexists; reflexivity. Qed.

Lemma same_partitions_elem l1 l2 e : same_partitions l1 l2 → e ∈ l1 → e ∈ l2.
Proof.
  intros H He. destruct (topic_of e) as [topic Ht].
  enough (e ∈ filter (λ x, topic_for x = Ok topic ∧ partition_key_for x = partition_key_for e) l2)
    as [_ ?]%list_elem_of_filter by done.
  rewrite <- H. by apply list_elem_of_filter.
Qed.

Lemma filter_under {A} (P Q : A → Prop) `{∀ x, Decision (P x)} `{∀ x, Decision (Q x)} (l : list A) :
  (∀ x, x ∈ l → P x → Q x) → filter P (filter Q l) = filter P l.
Proof.
  induction l as [|x l IH]; intros HPQ; [done|]. rewrite !filter_cons.
  destruct (decide (Q x)) as [Hq|Hq]; [rewrite filter_cons|]; destruct (decide (P x)) as [Hp|Hp].
  1: f_equal. 1,2,4: apply IH; intros; apply HPQ; [by right|done].
  exfalso. apply Hq, HPQ; [by left|done].
Qed.

(** Events of one topic and one key arrive in the same order. *)
Lemma same_partitions_filter (P : DomainEvent → bool) topic l1 l2 :
  same_partitions l1 l2 →
  (∀ e, P e = true → topic_for e = Ok topic) →
  (∀ e e', e ∈ l1 → e' ∈ l1 → P e = true → P e' = true →
     partition_key_for e = partition_key_for e') →
  filter (λ e, P e = true) l1 = filter (λ e, P e = true) l2.
Proof.
  intros Hsame Htopic Hkey.
  destruct (filter (λ e, P e = true) (l1 ++ l2)) as [|e0 rest] eqn:E0.
  { rewrite filter_app in E0. apply app_eq_nil in E0 as [-> ->]. done. }
  assert (e0 ∈ filter (λ e, P e = true) (l1 ++ l2)) as He0 by (rewrite E0; by left).
  apply list_elem_of_filter in He0 as [Hp0 He0].
  assert (e0 ∈ l1) as Hin0.
  { apply elem_of_app in He0 as [?|He0]; [done|].
    apply (same_partitions_elem _ _ _ (same_partitions_sym _ _ Hsame) He0). }
  rewrite <- (filter_under _ (λ e, topic_for e = Ok topic ∧ partition_key_for e = partition_key_for e0) l1),
    <- (filter_under _ (λ e, topic_for e = Ok topic ∧ partition_key_for e = partition_key_for e0) l2).
  - by rewrite Hsame.
  - intros e He Hp. split; [by apply Htopic|]. apply Hkey; [|done..].
    by apply (same_partitions_elem _ _ _ (same_partitions_sym _ _ Hsame)).
  - intros e He Hp. split; [by apply Htopic|]. by apply Hkey.
Qed.

(** What the read models show: a plant without the catalogue's column, which depends on
    more than the order within a partition, and without the instants of the writes. *)
Definition plant_view (r : PlantReadModel) : GardenColumns * option datetime :=
  (pr_garden r, pr_next_watering_at r).

(** The events of the journal entry [n] name one plant, those of the notification [n] one
    household: they share a partition. *)
Definition one_plant (n : uuid) (l : list DomainEvent) : Prop :=
  ∀ e e', e ∈ l → e' ∈ l → is_journal_event n e = true → is_journal_event n e' = true →
    plant_id_of (body e) = plant_id_of (body e').
Definition one_household (n : uuid) (l : list DomainEvent) : Prop :=
  ∀ e e', e ∈ l → e' ∈ l → is_notification_event n e = true →
    is_notification_event n e' = true → household_id_of (body e) = household_id_of (body e').

Lemma partition_key_plant e p : plant_id_of (body e) = Some p → partition_key_for e = uuid_value p.
Proof.
  intros H. unfold partition_key_for, PARTITION_KEY_FIELDS. cbn [first_present].
  change (payload_get (body e) "plant_id") with (uuid_value <$> plant_id_of (body e)). by rewrite H.
Qed.

Lemma partition_key_household e h :
  plant_id_of (body e) = None → household_id_of (body e) = Some h →
  partition_key_for e = uuid_value h.
Proof.
  intros H1 H2. unfold partition_key_for, PARTITION_KEY_FIELDS. cbn [first_present].
  change (payload_get (body e) "plant_id") with (uuid_value <$> plant_id_of (body e)).
  change (payload_get (body e) "household_id") with (uuid_value <$> household_id_of (body e)).
  by rewrite H1, H2.
Qed.

(** The topic and the key of the events that write a row. *)
Lemma garden_event_partition p e :
  is_garden_event p e = true → topic_for e = Ok GARDEN_EVENTS ∧ partition_key_for e = p.
Proof.
  destruct e as [i t b]. unfold is_garden_event. cbn. destruct b; try done;
    intros <-%bool_decide_eq_true; split; reflexivity.
Qed.

Lemma care_event_partition p e :
  is_care_event p e = true → topic_for e = Ok CARE_EVENTS ∧ partition_key_for e = p.
Proof.
  destruct e as [i t b]. unfold is_care_event, next_watering_of. cbn. destruct b; try done;
    case_decide as Hp; try done; subst; split; reflexivity.
Qed.

Lemma species_event_partition s e :
  is_species_event s e = true → topic_for e = Ok CATALOG_EVENTS ∧ partition_key_for e = s.
Proof.
  destruct e as [i t b]. unfold is_species_event. cbn. destruct b; try done;
    intros <-%bool_decide_eq_true; split; reflexivity.
Qed.

Lemma notification_event_partition n e :
  is_notification_event n e = true → topic_for e = Ok NOTIFICATIONS_EVENTS ∧
    plant_id_of (body e) = None ∧ ∃ h, household_id_of (body e) = Some h.
Proof.
  destruct e as [i t b]. unfold is_notification_event. cbn. destruct b; try done;
    intros _; split_and!; try reflexivity; by eexists.
Qed.

Lemma journal_event_partition n e :
  is_journal_event n e = true → topic_for e = Ok JOURNAL_EVENTS ∧ ∃ p, plant_id_of (body e) = Some p.
Proof.
  destruct e as [i t b]. unfold is_journal_event. cbn. destruct b; try done;
    intros _; split; [reflexivity|]. by eexists.
Qed.

Lemma foldl_true {A} (b : bool) (l : list A) :
  foldl (λ _ _, true) b l = match l with [] => b | _ => true end.
Proof. revert b. induction l as [|x l IH]; intros b; [done|]. cbn. rewrite IH. by destruct l. Qed.

(** Whether some event of a stream passes a test is a matter of its elements. *)
Lemma foldl_true_elem {A} (P : A → bool) (l1 l2 : list A) :
  (∀ x, x ∈ l1 → x ∈ l2) → foldl (λ _ _, true) false (filter (λ x, P x = true) l1) = true →
  foldl (λ _ _, true) false (filter (λ x, P x = true) l2) = true.
Proof.
  rewrite !foldl_true. intros Hsub. destruct (filter _ l1) as [|x k] eqn:E; [done|]. intros _.
  assert (x ∈ filter (λ x, P x = true) l1) as [Hx Hin]%list_elem_of_filter by (rewrite E; by left).
  destruct (filter (λ x, P x = true) l2) eqn:E2; [|done].
  assert (x ∈ filter (λ x, P x = true) l2) as H by (apply list_elem_of_filter; auto).
  rewrite E2 in H. by apply not_elem_of_nil in H.
Qed.

Lemma projected_same_plants p l1 l2 d1 d2 :
  project_events ReadDatabase_empty l1 = Ok d1 → project_events ReadDatabase_empty l2 = Ok d2 →
  (∀ e, e ∈ l1.*2 → e ∈ l2.*2) → is_Some (rd_plants d1 !! p) → is_Some (rd_plants d2 !! p).
Proof.
  intros H1 H2 Hsub Hp. apply (bool_decide_unpack _). rewrite (projected_exists p _ _ _ H2).
  pose proof (bool_decide_true _ Hp) as Hb. rewrite (projected_exists p _ _ _ H1) in Hb.
  by eapply Is_true_true, foldl_true_elem.
Qed.

Section Converge.
Context (l1 l2 : list (datetime * DomainEvent)) (d1 d2 : ReadDatabase)
  (H1 : project_events ReadDatabase_empty l1 = Ok d1)
  (H2 : project_events ReadDatabase_empty l2 = Ok d2)
  (Hsame : same_partitions l1.*2 l2.*2).

(** The events of one partition are the same list in both. *)
Lemma same_stream (P : DomainEvent → bool) topic key :
  (∀ e, P e = true → topic_for e = Ok topic ∧ partition_key_for e = key) →
  filter (λ e, P e = true) l1.*2 = filter (λ e, P e = true) l2.*2.
Proof using Hsame.
  intros HP. apply (same_partitions_filter _ topic); [done|intros e He; by apply HP in He as []|].
  intros e e' _ _ He He'. apply HP in He as [_ ->]. by apply HP in He' as [_ ->].
Qed.

Lemma converge_care p : care_view <$> rd_care d1 !! p = care_view <$> rd_care d2 !! p.
Proof using H1 H2 Hsame.
  rewrite (projected_care p _ _ _ H1), (projected_care p _ _ _ H2).
  f_equal. eapply same_stream, care_event_partition.
Qed.

Lemma converge_species s : species_view <$> rd_species d1 !! s = species_view <$> rd_species d2 !! s.
Proof using H1 H2 Hsame.
  rewrite (projected_species s _ _ _ H1), (projected_species s _ _ _ H2).
  f_equal. eapply same_stream, species_event_partition.
Qed.

Lemma converge_exists p : is_Some (rd_plants d1 !! p) ↔ is_Some (rd_plants d2 !! p).
Proof using H1 H2 Hsame.
  split.
  - apply (projected_same_plants p _ _ _ _ H1 H2 (λ e, same_partitions_elem _ _ e Hsame)).
  - apply (projected_same_plants p _ _ _ _ H2 H1
      (λ e, same_partitions_elem _ _ e (same_partitions_sym _ _ Hsame))).
Qed.

Lemma converge_next p :
  (rd_plants d1 !! p ≫= pr_next_watering_at) = (rd_plants d2 !! p ≫= pr_next_watering_at).
Proof using H1 H2 Hsame.
  rewrite (projected_next p _ _ _ H1), (projected_next p _ _ _ H2).
  f_equal. eapply same_stream, care_event_partition.
Qed.

Lemma converge_garden p : added_first p l1.*2 → garden_columns p d1 = garden_columns p d2.
Proof using H1 H2 Hsame.
  intros Hadded.
  assert (filter (λ e, is_garden_event p e = true) l1.*2 =
    filter (λ e, is_garden_event p e = true) l2.*2) as Hg
    by (by eapply same_stream, garden_event_partition).
  assert (added_first p l2.*2) as Hadded2 by (unfold added_first; by rewrite <- Hg).
  destruct (projected_garden p ReadDatabase_empty _ _ eq_refl Hadded H1) as [-> _].
  destruct (projected_garden p ReadDatabase_empty _ _ eq_refl Hadded2 H2) as [-> _].
  by rewrite Hg.
Qed.

Lemma converge_plant p :
  added_first p l1.*2 → plant_view <$> rd_plants d1 !! p = plant_view <$> rd_plants d2 !! p.
Proof using H1 H2 Hsame.
  intros Hadded. pose proof (converge_garden p Hadded) as Hg. unfold garden_columns in Hg.
  pose proof (converge_next p) as Hn. pose proof (converge_exists p) as Hex.
  destruct (rd_plants d1 !! p) as [r1|] eqn:E1, (rd_plants d2 !! p) as [r2|] eqn:E2; cbn in *.
  - unfold plant_view. congruence.
  - destruct (proj1 Hex ltac:(eauto)). congruence.
  - destruct (proj2 Hex ltac:(eauto)). congruence.
  - done.
Qed.

Lemma converge_notification n :
  one_household n l1.*2 → rd_notifications d1 !! n = rd_notifications d2 !! n.
Proof using H1 H2 Hsame.
  intros Hnote.
  rewrite (projected_notification n _ _ _ H1), (projected_notification n _ _ _ H2).
  f_equal. apply (same_partitions_filter _ NOTIFICATIONS_EVENTS); [done| |].
  - intros e He. by apply notification_event_partition in He as [? _].
  - intros e e' Hin Hin' He He'. pose proof (Hnote e e' Hin Hin' He He') as Hh.
    apply notification_event_partition in He as (_ & Hp & h & E).
    apply notification_event_partition in He' as (_ & Hp' & h' & E').
    rewrite (partition_key_household _ _ Hp E), (partition_key_household _ _ Hp' E'). congruence.
Qed.

Lemma converge_entry n : one_plant n l1.*2 → rd_journal d1 !! n = rd_journal d2 !! n.
Proof using H1 H2 Hsame.
  intros Hentry.
  rewrite (projected_journal n _ _ _ H1), (projected_journal n _ _ _ H2).
  f_equal. apply (same_partitions_filter _ JOURNAL_EVENTS); [done| |].
  - intros e He. by apply journal_event_partition in He as [? _].
  - intros e e' Hin Hin' He He'. pose proof (Hentry e e' Hin Hin' He He') as Hp.
    apply journal_event_partition in He as (_ & p & E).
    apply journal_event_partition in He' as (_ & p' & E').
    rewrite (partition_key_plant _ _ E), (partition_key_plant _ _ E'). congruence.
Qed.
End Converge.

(** *** What the columns can hold *)

Definition event_fits (e : DomainEvent) : Prop :=
  match body e with
  | PlantAdded _ _ _ name location _ =>
      String.length name ≤ 200 ∧ String.length (location_value location) ≤ 100
  | PlantMoved _ _ location => String.length (location_value location) ≤ 100
  | SpeciesAdded _ scientific common _ _ _ | SpeciesUpdated _ scientific common _ _ _ =>
      String.length scientific ≤ 200 ∧ String.length common ≤ 200
  | TelemetryReceived _ _ _ _ _ _ => False
  | _ => True
  end.

Lemma LightRequirement_fits light :
  varchar 20 (LightRequirement_value light) = Ok (LightRequirement_value light).
Proof. by destruct light. Qed.
Lemma JournalEntryType_fits t :
  varchar 20 (JournalEntryType_value t) = Ok (JournalEntryType_value t).
Proof. by destruct t. Qed.
Lemma NotificationType_fits t :
  varchar 40 (NotificationType_value t) = Ok (NotificationType_value t).
Proof. by destruct t. Qed.

(** An event whose texts fit their columns is projected, whatever the rows are.  A reading
    is left out: the arithmetic of its window can leave the range of a float. *)
Lemma project_event_total now e d : event_fits e → ∃ d', project_event d (now, e) = Ok d'.
Proof.
  unfold project_event, event_fits. cbn [fst snd]. rewrite read_handler_eq.
  destruct e as [i t b]. cbn [body occurred_at]. destruct b; intros Hfit; try done; try (by eexists);
    unfold on_plant_removed, on_plant_onboarded;
    rewrite ?update_garden_run, ?on_watering_completed_run, ?set_next_watering_run,
      ?on_notification_read_run; try (by eexists).
  - destruct Hfit as [Hn Hl]. unfold on_plant_added, update_or_create.
    rewrite !varchar_fits by done. by eexists.
  - unfold on_plant_moved, update_garden, filter_update. rewrite varchar_fits by exact Hfit.
    destruct (rd_plants d !! _); by eexists.
  - unfold on_care_schedule_created. rewrite set_next_watering_run. cbn [mbind result_bind].
    destruct (get_or_create _ _ _) as [care []]; rewrite ?filter_update_total; by eexists.
  - destruct Hfit as [Hn Hl]. unfold upsert_species.
    rewrite LightRequirement_fits, !varchar_fits by done. by eexists.
  - destruct Hfit as [Hn Hl]. unfold upsert_species.
    rewrite LightRequirement_fits, !varchar_fits by done. by eexists.
  - unfold on_journal_entry_added. rewrite JournalEntryType_fits. by eexists.
  - unfold on_notification_created. rewrite NotificationType_fits. by eexists.
Qed.

(** *** The column that depends on the order across topics *)

Definition is_species_of (s : SpeciesId) (e : DomainEvent) : bool :=
  is_species_event (uuid_value s) e.

(** An event that neither adds the plant nor is about its species leaves the column. *)
Lemma plant_row_species_name p s now e r r' :
  pr_species_name r = None → gc_species_id (pr_garden r) = Some (uuid_value s) →
  is_species_of s e = false → (is_garden_event p e && is_plant_added e) = false →
  plant_row p now e (Some r) = Some r' →
  pr_species_name r' = None ∧ gc_species_id (pr_garden r') = Some (uuid_value s).
Proof.
  intros Hn Hs. unfold plant_row, is_species_of, is_species_event, is_garden_event, is_plant_added,
    next_watering_of.
  destruct (body e) eqn:E; repeat case_decide; try case_bool_decide as Hb; try done;
    intros _ _ [= <-]; cbn; unfold garden_step; rewrite ?E; try done.
  all: unfold set_species_name; rewrite bool_decide_false by (rewrite Hs; congruence); done.
Qed.

Definition unnamed (p : PlantId) (s : SpeciesId) (common : string) (d : ReadDatabase) : Prop :=
  (∃ r, rd_plants d !! uuid_value p = Some r ∧ pr_species_name r = None ∧
     gc_species_id (pr_garden r) = Some (uuid_value s)) ∧
  sr_common_name <$> rd_species d !! uuid_value s = Some common.

Lemma common_name_of_view (c : option SpeciesReadModel) :
  sr_common_name <$> c = (λ v, v.1.1.1.2) <$> (species_view <$> c).
Proof. by destruct c. Qed.

Lemma unnamed_kept p s common d l d' :
  unnamed p s common d → project_events d l = Ok d' →
  Forall (λ x, is_species_of s x.2 = false ∧
    is_garden_event (uuid_value p) x.2 && is_plant_added x.2 = false) l →
  unnamed p s common d'.
Proof.
  intros Hd Hl Hout. apply (foldM_invariant (unnamed p s common) project_event d l d'); [|done..].
  intros d1 x d2 Hx [(r & Hr & Hn & Hs) Hname] Hp. rewrite Forall_forall in Hout.
  destruct (Hout x Hx) as [Hspecies Hadd].
  destruct (project_event_rows _ _ _ Hp) as (Hrow & _ & Hsp & _). split.
  - specialize (Hrow (uuid_value p)). rewrite Hr in Hrow.
    assert (is_Some (plant_row (uuid_value p) x.1 x.2 (Some r))) as [r' Hr'].
    { pose proof (plant_row_exists (uuid_value p) x.1 x.2 (Some r)) as He.
      rewrite (bool_decide_true (is_Some (Some r))) in He by eauto.
      apply (bool_decide_unpack _). rewrite He. by destruct (makes_plant _ _). }
    exists r'. split; [congruence|]. by eapply plant_row_species_name.
  - rewrite common_name_of_view, Hsp. unfold is_species_of in Hspecies. rewrite Hspecies.
    by rewrite <- common_name_of_view.
Qed.

(** Read sides whose plants and schedules show the same.  The instants of the writes and
    the species' name on a plant's row are left out. *)
Definition same_gardens (d1 d2 : ReadDatabase) : Prop :=
  (∀ p, plant_view <$> rd_plants d1 !! p = plant_view <$> rd_plants d2 !! p) ∧
  (∀ p, care_view <$> rd_care d1 !! p = care_view <$> rd_care d2 !! p).

#[export] Instance same_gardens_equivalence : Equivalence same_gardens.
Proof.
  split.
  - done.
  - intros d1 d2 (? & ?). by split_and!.
  - intros d1 d2 d3 (H1 & H2) (G1 & G2). split; intros x; [by rewrite H1|by rewrite H2].
Qed.

Lemma gardens_agree (l1 l2 : list (datetime * DomainEvent)) (d1 d2 : ReadDatabase) :
  project_events ReadDatabase_empty l1 = Ok d1 →
  project_events ReadDatabase_empty l2 = Ok d2 →
  same_partitions l1.*2 l2.*2 → (∀ p, added_first p l1.*2) → same_gardens d1 d2.
Proof.
  intros H1 H2 Hsame Hadded. split; intros p; [by eapply converge_plant|by eapply converge_care].
Qed.

(** ** Theorems *)

(** [C19] What of the read models does not depend on how the topics interleave.  The same
    events are projected into an empty read side in two orders that agree within every
    partition — the events of one topic under one key — and only there, and every one of
    them is projected both times.  Then every schedule and every catalogue row is the same;
    the same plants have a row, with the same next watering; the garden's columns of a
    plant (household, species, name, location, dates, removed) are the same provided the
    first event of its garden stream is its addition; a journal entry is the same provided
    the events under its identifier name one plant, a notification provided they name one
    household, for otherwise they are not in one partition.  Not covered: the instants of
    the writes, and the species' name on a plant's row, which does depend on the order
    across topics.  The proviso on additions can fail — an addition that was moved aside
    leaves a stream that begins with something else — and then the garden's columns do
    depend on the order, because the row the later events look for is made, if at all, by
    another topic's. *)
Theorem read_models_converge (l1 l2 : list (datetime * DomainEvent)) (d1 d2 : ReadDatabase) :
  project_events ReadDatabase_empty l1 = Ok d1 →
  project_events ReadDatabase_empty l2 = Ok d2 →
  same_partitions l1.*2 l2.*2 →
  (∀ p, care_view <$> rd_care d1 !! p = care_view <$> rd_care d2 !! p) ∧
  (∀ s, species_view <$> rd_species d1 !! s = species_view <$> rd_species d2 !! s) ∧
  (∀ p, (is_Some (rd_plants d1 !! p) ↔ is_Some (rd_plants d2 !! p)) ∧
     (rd_plants d1 !! p ≫= pr_next_watering_at) = (rd_plants d2 !! p ≫= pr_next_watering_at) ∧
     (added_first p l1.*2 → garden_columns p d1 = garden_columns p d2)) ∧
  (∀ n, one_household n l1.*2 → rd_notifications d1 !! n = rd_notifications d2 !! n) ∧
  (∀ n, one_plant n l1.*2 → rd_journal d1 !! n = rd_journal d2 !! n).
Proof.
  intros H1 H2 Hsame. split_and!; [by eapply converge_care|by eapply converge_species| | |].
  - intros p. split_and!; [by eapply converge_exists|by eapply converge_next|by eapply converge_garden].
  - intros n. by eapply converge_notification.
  - intros n. by eapply converge_entry.
Qed.

(** The order across topics can lose a fact.  A species event projected after the
    plant writes the species' name on the plant's row.  Projected before it — the usual
    order, for a species is in the catalogue before a plant of it — the name is nowhere
    written: the plant's row has no species name, although the catalogue's read model has
    it, until the next event about that species. *)
Theorem species_name_depends_on_order (d : ReadDatabase) (plant species : DomainEvent)
    (p : PlantId) (h : HouseholdId) (s : SpeciesId) (name scientific common : string)
    (location : Location) (added_at : datetime) (interval : WateringInterval)
    (light : LightRequirement) (version : Z) :
  body plant = PlantAdded p h s name location added_at →
  body species = SpeciesAdded s scientific common interval light version →
  String.length name ≤ 200 → String.length (location_value location) ≤ 100 →
  String.length scientific ≤ 200 → String.length common ≤ 200 →
  rd_plants d !! uuid_value p = None →
  (∀ now now', ∃ d' r, project_events d [(now, plant); (now', species)] = Ok d' ∧
     rd_plants d' !! uuid_value p = Some r ∧ pr_species_name r = Some common) ∧
  (∀ now now' l d', project_events d ((now, species) :: (now', plant) :: l) = Ok d' →
     Forall (λ x, is_species_of s x.2 = false ∧
       is_garden_event (uuid_value p) x.2 && is_plant_added x.2 = false) l →
     (∃ r, rd_plants d' !! uuid_value p = Some r ∧ pr_species_name r = None ∧
        gc_species_id (pr_garden r) = Some (uuid_value s)) ∧
     sr_common_name <$> rd_species d' !! uuid_value s = Some common).
Proof.
  intros Hplant Hspecies Hl1 Hl2 Hl3 Hl4 Hnone. split.
  - intros now now'. destruct (project_event_total now plant d) as [d1 H1].
    { unfold event_fits. by rewrite Hplant. }
    destruct (project_event_total now' species d1) as [d2 H2].
    { unfold event_fits. by rewrite Hspecies. }
    destruct (project_event_rows _ _ _ H1) as [Hr1 _].
    destruct (project_event_rows _ _ _ H2) as [Hr2 _].
    specialize (Hr1 (uuid_value p)). specialize (Hr2 (uuid_value p)).
    rewrite Hr1, Hnone in Hr2. unfold plant_row in Hr2. cbn [fst snd] in Hr2.
    rewrite Hplant, Hspecies, decide_True in Hr2 by done. cbn in Hr2.
    unfold set_species_name in Hr2. rewrite bool_decide_true in Hr2
      by (cbn; unfold garden_step; by rewrite Hplant).
    exists d2. eexists. unfold project_events. cbn [foldM]. rewrite H1. cbn [mbind result_bind].
    rewrite H2. split_and!; [done|exact Hr2|done].
  - intros now now' l d' Hrun Hout. unfold project_events in Hrun. cbn [foldM] in Hrun.
    apply bind_Ok in Hrun as (d1 & H1 & Hrun). apply bind_Ok in Hrun as (d2 & H2 & Hrun).
    apply (unnamed_kept p s common d2 l d'); [|done..].
    destruct (project_event_rows _ _ _ H1) as (Hr1 & _ & Hs1 & _).
    destruct (project_event_rows _ _ _ H2) as (Hr2 & _ & Hs2 & _).
    specialize (Hr1 (uuid_value p)). specialize (Hr2 (uuid_value p)).
    specialize (Hs1 (uuid_value s)). specialize (Hs2 (uuid_value s)).
    unfold plant_row in Hr1, Hr2. cbn [fst snd] in *.
    rewrite Hspecies, Hnone in Hr1. rewrite Hplant, decide_True, Hr1 in Hr2 by done.
    split.
    + eexists. split_and!; [exact Hr2|done|]. cbn. unfold garden_step. by rewrite Hplant.
    + rewrite common_name_of_view, Hs2. unfold is_species_event at 1. rewrite Hplant, Hs1.
      unfold is_species_event. rewrite Hspecies, bool_decide_true by done.
      unfold species_step. by rewrite Hspecies.
Qed.

(** *** Witnesses *)

Definition demo_plant_added : DomainEvent :=
  mkEvent 1 10 (PlantAdded (Uuid 7) (Uuid 3) (Uuid 5) "Fern" (MkLocation "Kitchen") 10).
Definition demo_species_added : DomainEvent :=
  mkEvent 2 5 (SpeciesAdded (Uuid 5) "Nephrolepis exaltata" "Boston fern"
    (MkCareInterval (days 3)) MEDIUM 1).
Definition demo_schedule_created : DomainEvent :=
  mkEvent 3 11 (CareScheduleCreated (Uuid 7) (MkCareInterval (days 3)) (days 3)).
Definition demo_entry : DomainEvent :=
  mkEvent 4 12 (JournalEntryAdded (Uuid 8) (Uuid 7) NOTE (Some "New fern"%string) 12).

(** The garden first, or the journal and the schedule before the plant they are about. *)
Definition demo_log : list (datetime * DomainEvent) :=
  [(1%Z, demo_plant_added); (2%Z, demo_schedule_created); (3%Z, demo_entry)].
Definition demo_log_across : list (datetime * DomainEvent) :=
  [(4%Z, demo_entry); (5%Z, demo_schedule_created); (6%Z, demo_plant_added)].

Lemma demo_logs_agree :
  same_partitions demo_log.*2 demo_log_across.*2 ∧ (∀ p, added_first p demo_log.*2) ∧
  (∀ n, one_plant n demo_log.*2) ∧ (∀ n, one_household n demo_log.*2).
Proof.
  unfold demo_log, demo_log_across. split_and!; cbn [fmap list_fmap snd].
  - intros topic key. rewrite !filter_cons, !filter_nil.
    repeat case_decide; try reflexivity;
      repeat match goal with H : _ ∧ _ |- _ => destruct H end; vm_compute in *; congruence.
  - intros p. unfold added_first. rewrite !filter_cons, filter_nil.
    repeat case_decide; try exact I; try reflexivity; exfalso; vm_compute in *; congruence.
  - intros n e e' He He' Hn Hn'.
    repeat (apply elem_of_cons in He as [->|He]; [try discriminate Hn|]); [|by apply not_elem_of_nil in He].
    repeat (apply elem_of_cons in He' as [->|He']; [try discriminate Hn'|]); [|by apply not_elem_of_nil in He'].
    reflexivity.
  - intros n e e' He He' Hn Hn'.
    repeat (apply elem_of_cons in He as [->|He]; [try discriminate Hn|]). by apply not_elem_of_nil in He.
Qed.

Lemma demo_logs_projected :
  ∃ d1 d2, project_events ReadDatabase_empty demo_log = Ok d1 ∧
    project_events ReadDatabase_empty demo_log_across = Ok d2.
Proof. do 2 eexists. split; vm_compute; reflexivity. Qed.

Lemma read_models_converge_witness :
  ∃ d1 d2, project_events ReadDatabase_empty demo_log = Ok d1 ∧
    project_events ReadDatabase_empty demo_log_across = Ok d2 ∧
    rd_care d1 !! 7%N ≠ None ∧ rd_journal d1 !! 8%N ≠ None ∧
    (∀ p, care_view <$> rd_care d1 !! p = care_view <$> rd_care d2 !! p) ∧
    (∀ p, garden_columns p d1 = garden_columns p d2) ∧
    (∀ n, rd_journal d1 !! n = rd_journal d2 !! n).
Proof.
  destruct demo_logs_projected as (d1 & d2 & H1 & H2). destruct demo_logs_agree as (Hsame & Hadd & Hone & _).
  exists d1, d2. split; [exact H1|]. split; [exact H2|].
  destruct (read_models_converge demo_log demo_log_across d1 d2 H1 H2 Hsame)
    as (Hcare & _ & Hplants & _ & Hjournal).
  assert (project_events ReadDatabase_empty demo_log = Ok d1) as E by exact H1.
  vm_compute in E. injection E as <-.
  split; [discriminate|]. split; [discriminate|]. split; [exact Hcare|].
  split; [intros p; apply Hplants, Hadd|intros n; apply Hjournal, Hone].
Defined.

(** A plant whose addition was moved aside: its move finds the row only when the care
    topic's event came first. *)
Definition demo_plant_moved : DomainEvent :=
  mkEvent 5 13 (PlantMoved (Uuid 7) (MkLocation "Kitchen") (MkLocation "Balcony")).

Example unadded_plant_depends_on_order :
  let l1 := [(1%Z, demo_plant_moved); (2%Z, demo_schedule_created)] in
  let l2 := [(1%Z, demo_schedule_created); (2%Z, demo_plant_moved)] in
  ∃ d1 d2, project_events ReadDatabase_empty l1 = Ok d1 ∧
    project_events ReadDatabase_empty l2 = Ok d2 ∧
    gc_location (garden_columns 7 d1) = None ∧
    gc_location (garden_columns 7 d2) = Some "Balcony"%string.
Proof. do 2 eexists. split_and!; vm_compute; reflexivity. Qed.

Lemma species_name_depends_on_order_witness :
  (∃ d r, project_events ReadDatabase_empty [(1%Z, demo_plant_added); (2%Z, demo_species_added)] = Ok d ∧
     rd_plants d !! 7%N = Some r ∧ pr_species_name r = Some "Boston fern"%string) ∧
  (∃ d r, project_events ReadDatabase_empty
       [(1%Z, demo_species_added); (2%Z, demo_plant_added); (3%Z, demo_schedule_created)] = Ok d ∧
     rd_plants d !! 7%N = Some r ∧ pr_species_name r = None).
Proof.
  destruct (species_name_depends_on_order ReadDatabase_empty demo_plant_added demo_species_added
    (Uuid 7) (Uuid 3) (Uuid 5) "Fern" "Nephrolepis exaltata" "Boston fern" (MkLocation "Kitchen")
    10 (MkCareInterval (days 3)) MEDIUM 1 eq_refl eq_refl
    ltac:(cbn; lia) ltac:(cbn; lia) ltac:(cbn; lia) ltac:(cbn; lia) eq_refl) as [Hafter Hbefore].
  split; [apply Hafter|].
  assert (∃ d, project_events ReadDatabase_empty
    [(1%Z, demo_species_added); (2%Z, demo_plant_added); (3%Z, demo_schedule_created)] = Ok d)
    as [d H] by (eexists; vm_compute; reflexivity).
  destruct (Hbefore _ _ _ _ H) as [(r & Hr & Hn & _) _].
  { repeat constructor. }
  exists d, r. split; [exact H|]. split; [exact Hr|exact Hn].
Defined.
