(* ===== verification/TelemetryViews.v ===== *)
(** What the telemetry read models say about the readings, alerts and silences that were
    projected into them ([apps/admin/projections/telemetry.py]): a window summarises its
    samples, and the latest row of a sensor is its newest. *)

From S2P Require Import Prelude Domain Topics Rows Delivery ReadModels Rollups Means Projections.
From Stdlib Require Import SpecFloat.

(** *** The order of the columns

    A float compares like its sign, exponent and mantissa do in turn. *)
Definition float_key (a : float) : Z * Z * Z :=
  match a with
  | S754_infinity true => (-2, 0, 0)
  | S754_finite true m e => (-1, - e, - Zpos m)
  | S754_zero _ => (0, 0, 0)
  | S754_finite false m e => (1, e, Zpos m)
  | S754_infinity false => (2, 0, 0)
  | S754_nan => (3, 0, 0)
  end%Z.

Definition lex3_lt (a b : Z * Z * Z) : Prop :=
  (a.1.1 < b.1.1 ∨ a.1.1 = b.1.1 ∧ (a.1.2 < b.1.2 ∨ a.1.2 = b.1.2 ∧ a.2 < b.2))%Z.

Lemma float8_lt_key a b : float8_lt a b = true ↔ lex3_lt (float_key a) (float_key b).
Proof.
  unfold float8_lt, float_lt, SFltb, lex3_lt.
  destruct a as [sa|[]| |[] ma ea], b as [sb|[]| |[] mb eb]; cbn; try (split; [done|lia]); try (split; [lia|done]).
  all: destruct (Z.compare_spec ea eb); cbn; try (split; [done|lia]); try (split; [lia|done]).
  all: change (Pos.compare_cont Eq ma mb) with (ma ?= mb)%positive;
    destruct (Pos.compare_spec ma mb); cbn; try (split; [done|lia]); try (split; [lia|done]).
Qed.

Definition float8_le (a b : float) : bool := negb (float8_lt b a).

Lemma float8_le_key a b : float8_le a b = true ↔ ¬ lex3_lt (float_key b) (float_key a).
Proof.
  unfold float8_le. rewrite negb_true_iff, <- float8_lt_key. by destruct (float8_lt b a).
Qed.

Lemma float8_le_refl a : float8_le a a = true.
Proof. rewrite float8_le_key. unfold lex3_lt. lia. Qed.

Lemma float8_le_trans a b c : float8_le a b = true → float8_le b c = true → float8_le a c = true.
Proof. rewrite !float8_le_key. unfold lex3_lt. lia. Qed.

Lemma float8_le_total a b : float8_le a b = true ∨ float8_le b a = true.
Proof. rewrite !float8_le_key. unfold lex3_lt. lia. Qed.

(** *** Extremes *)

Definition least_of (x : float) (l : list float) : Prop :=
  x ∈ l ∧ Forall (λ y, float8_le x y = true) l.
Definition greatest_of (x : float) (l : list float) : Prop :=
  x ∈ l ∧ Forall (λ y, float8_le y x = true) l.

Lemma least_of_snoc x l y : least_of x l → least_of (least x y) (l ++ [y]).
Proof.
  intros [Hin Hall]. unfold least. destruct (float8_lt y x) eqn:E.
  - assert (float8_le y x = true) as Hyx.
    { rewrite float8_le_key. apply float8_lt_key in E. unfold lex3_lt in *. lia. }
    split; [set_solver|]. apply Forall_app. split; [|by repeat constructor; apply float8_le_refl].
    eapply Forall_impl; [exact Hall|]. cbn. intros z Hz. by apply (float8_le_trans _ x).
  - split; [set_solver|]. apply Forall_app. split; [done|]. repeat constructor.
    unfold float8_le. by rewrite E.
Qed.

Lemma greatest_of_snoc x l y : greatest_of x l → greatest_of (greatest x y) (l ++ [y]).
Proof.
  intros [Hin Hall]. unfold greatest. destruct (float8_lt x y) eqn:E.
  - assert (float8_le x y = true) as Hyx.
    { rewrite float8_le_key. apply float8_lt_key in E. unfold lex3_lt in *. lia. }
    split; [set_solver|]. apply Forall_app. split; [|by repeat constructor; apply float8_le_refl].
    eapply Forall_impl; [exact Hall|]. cbn. intros z Hz. by apply (float8_le_trans _ x).
  - split; [set_solver|]. apply Forall_app. split; [done|]. repeat constructor.
    unfold float8_le. by rewrite E.
Qed.

Lemma least_of_singleton x : least_of x [x].
Proof. split; [by left|]. repeat constructor. apply float8_le_refl. Qed.
Lemma greatest_of_singleton x : greatest_of x [x].
Proof. split; [by left|]. repeat constructor. apply float8_le_refl. Qed.

(** ** The tables as folds of the events *)

Lemma project_event_telemetry d x d' :
  project_event d x = Ok d' →
  match pj_handler TelemetryRollupProjection x.2 with
  | Some handler => handler x.1 d = Ok d'
  | None => rd_rollups d' = rd_rollups d ∧ rd_latest d' = rd_latest d
  end.
Proof.
  unfold project_event. rewrite read_handler_eq. destruct x as [now [eid at_ b]].
  cbn [body fst snd occurred_at].
  destruct b; try (by intros [= <-]); try done; cbn match; cbn [pj_handler TelemetryRollupProjection body].
  - by intros ->%on_plant_added_Ok.
  - unfold on_plant_removed. rewrite update_garden_run. by intros [= <-].
  - by intros ->%on_plant_moved_Ok.
  - unfold on_plant_onboarded. rewrite update_garden_run. by intros [= <-].
  - by intros (care & -> & _)%on_care_schedule_created_Ok.
  - rewrite on_watering_completed_run, set_next_watering_run. by intros [= <-].
  - rewrite set_next_watering_run. by intros [= <-].
  - rewrite set_next_watering_run. by intros [= <-].
  - rewrite set_next_watering_run. by intros [= <-].
  - by intros ->%upsert_species_Ok.
  - by intros ->%upsert_species_Ok.
  - by intros ->%on_journal_entry_added_Ok.
  - by intros ->%on_notification_created_Ok.
  - rewrite on_notification_read_run. by intros [= <-].
Qed.

(** *** Windows *)

(** The plant, the moisture and the temperature of a reading of the window. *)
Definition sample_in (s : uuid) (b : datetime) (e : DomainEvent) : option (uuid * float * float) :=
  match body e with
  | TelemetryReceived q p t m te _ =>
      if decide (uuid_value q = s ∧ window_start t = b)
      then Some (uuid_value p, moisture_value m, temperature_value te) else None
  | _ => None
  end.
Definition samples (s : uuid) (b : datetime) (l : list DomainEvent) : list (uuid * float * float) :=
  omap (sample_in s b) l.

Lemma project_event_rollup s b d x d' :
  project_event d x = Ok d' →
  match sample_in s b x.2 with
  | None => rd_rollups d' !! (s, b) = rd_rollups d !! (s, b)
  | Some (p, m, te) =>
      ∃ r', rd_rollups d' !! (s, b) = Some r' ∧
        match rd_rollups d !! (s, b) with
        | None => r' = first_sample p m te
        | Some r => fold_sample p m te r = Ok r'
        end
  end.
Proof.
  intros H%project_event_telemetry. unfold sample_in. destruct x as [now [eid at_ []]];
    cbn [pj_handler TelemetryRollupProjection body snd fst] in H |- *;
    try (by destruct H as [-> _]).
  - unfold TelemetryRollupProjection_on_telemetry_received, UPSERT_ROLLUP in H. apply bind_Ok in H as (t & Ht & [= <-]).
    apply bind_Ok in Ht as (row & Hrow & [= <-]). cbn.
    case_decide as Hk.
    + destruct Hk as [<- <-]. exists row. rewrite lookup_insert_eq. split; [done|].
      destruct (rd_rollups d !! _); [done|by injection Hrow].
    + rewrite lookup_insert_ne; [done|]. intros [= <- <-]. by apply Hk.
  - unfold on_alert in H. cbn in H. by inv_result.
  - unfold on_alert in H. cbn in H. by inv_result.
  - unfold on_alert in H. cbn in H. by inv_result.
  - unfold on_sensor_offline in H. by inv_result.
Qed.

(** The row of a window is the summary of its samples: the count, the plant of the last, the
    extremes, and the arithmetic mean within the rounding. *)
Record summary_of (l : list (uuid * float * float)) (r : TelemetryRollup) : Prop := mkSummaryOf {
  so_count : tr_sample_count r = Z.of_nat (length l);
  so_plant : (λ x, x.1.1) <$> last l = Some (tr_plant_id r);
  so_moisture_min : least_of (tr_moisture_min r) ((λ x, x.1.2) <$> l);
  so_moisture_max : greatest_of (tr_moisture_max r) ((λ x, x.1.2) <$> l);
  so_moisture_avg : Forall moisture_read ((λ x, x.1.2) <$> l) →
    near_mean ((λ x, x.1.2) <$> l) (tr_moisture_avg r);
  so_temperature_min : least_of (tr_temperature_min r) (snd <$> l);
  so_temperature_max : greatest_of (tr_temperature_max r) (snd <$> l);
  so_temperature_avg : Forall temperature_read (snd <$> l) →
    near_mean (snd <$> l) (tr_temperature_avg r) }.

Lemma summary_nonempty l r : summary_of l r → l ≠ [].
Proof. intros [_ Hp _ _ _ _ _ _] ->. done. Qed.

Lemma first_sample_summary p m te : summary_of [(p, m, te)] (first_sample p m te).
Proof.
  constructor; try done; try (apply least_of_singleton || apply greatest_of_singleton);
    cbn; intros [Hx _]%Forall_cons.
  - by apply near_mean_one, moisture_sample.
  - by apply near_mean_one, temperature_sample.
Qed.

(** One of the two columns of a sample: its mean, one sample later. *)
Lemma mean_step {A} (f : A → float) (read : float → Prop) l x avg avg' n :
  (∀ y, read y → sample y) → l ≠ [] → n = Z.of_nat (length l) → (n < 2 ^ 31)%Z →
  (Forall read (f <$> l) → near_mean (f <$> l) avg) → next_mean avg n (f x) = Ok avg' →
  Forall read ((f <$> l) ++ [f x]) → near_mean ((f <$> l) ++ [f x]) avg'.
Proof.
  intros Hread Hl -> Hn Hnear Hnext [Hl' [Hx _]%Forall_cons]%Forall_app.
  apply (near_mean_snoc _ avg); rewrite ?length_fmap; try done.
  - by intros ?%fmap_nil_inv.
  - by eapply Forall_impl.
  - by apply Hread.
  - by apply Hnear.
Qed.

Lemma fold_sample_summary l p m te r r' :
  summary_of l r → fold_sample p m te r = Ok r' → summary_of (l ++ [(p, m, te)]) r'.
Proof.
  intros Hs Hf. pose proof (summary_nonempty _ _ Hs) as Hl.
  destruct Hs as [Hn _ Hm1 Hm2 Hm3 Ht1 Ht2 Ht3]. unfold fold_sample in Hf.
  apply bind_Ok in Hf as (mavg & Hmavg & Hf). apply bind_Ok in Hf as (tavg & Htavg & Hf).
  apply bind_Ok in Hf as (n & Hn' & [= <-]).
  assert (n = tr_sample_count r + 1 ∧ tr_sample_count r < 2 ^ 31)%Z as [-> Hlt].
  { unfold int4_succ, INT4_MAX in Hn'. case_decide; [|done]. injection Hn' as <-. lia. }
  constructor; cbn; rewrite ?fmap_app; cbn [fmap list_fmap fst snd].
  - rewrite length_app, Hn. cbn. lia.
  - by rewrite last_snoc.
  - by apply least_of_snoc.
  - by apply greatest_of_snoc.
  - by apply (mean_step (λ x, x.1.2) _ l (p, m, te) _ _ _ moisture_sample Hl Hn Hlt Hm3).
  - by apply least_of_snoc.
  - by apply greatest_of_snoc.
  - by apply (mean_step snd _ l (p, m, te) _ _ _ temperature_sample Hl Hn Hlt Ht3).
Qed.

Lemma window_bounds t : (window_start t ≤ t < window_start t + ROLLUP_WINDOW)%Z.
Proof. unfold window_start, ROLLUP_WINDOW, hours, minutes, seconds, MICROSECONDS_PER_SECOND. Z.div_mod_to_equations. lia. Qed.

Lemma window_start_unique t b :
  (b mod ROLLUP_WINDOW = 0 → b ≤ t < b + ROLLUP_WINDOW → window_start t = b)%Z.
Proof.
  unfold window_start, ROLLUP_WINDOW, hours, minutes, seconds, MICROSECONDS_PER_SECOND.
  intros. Z.div_mod_to_equations. lia.
Qed.

(** *** The latest row *)

Definition is_sensor_event (s : uuid) (e : DomainEvent) : bool :=
  bool_decide (uuid_value <$> sensor_id_of (body e) = Some s).

Definition record_alert (at_ : datetime) (name : string) (r : SensorLatest) : SensorLatest :=
  if match sl_last_alert_at r with None => true | Some last => bool_decide (last ≤ at_)%Z end
  then mkSensorLatest (sl_plant_id r) (sl_recorded_at r) (sl_moisture r) (sl_temperature r)
    (sl_light r) (sl_offline_at r) (Some at_) (Some name)
  else r.

(** The latest row of a sensor after one of its events. *)
Definition latest_step (c : option SensorLatest) (e : DomainEvent) : option SensorLatest :=
  match body e with
  | TelemetryReceived _ p t m te li =>
      match c with
      | None => Some (mkSensorLatest (uuid_value p) t (moisture_value m) (temperature_value te)
          (light_value li) None None None)
      | Some r =>
          if bool_decide (sl_recorded_at r < t)%Z
          then Some (mkSensorLatest (uuid_value p) t (moisture_value m) (temperature_value te)
            (light_value li) None (sl_last_alert_at r) (sl_last_alert_type r))
          else Some r
      end
  | SensorOffline _ _ _ _ =>
      (λ r, mkSensorLatest (sl_plant_id r) (sl_recorded_at r) (sl_moisture r)
        (sl_temperature r) (sl_light r) (Some (occurred_at e)) (sl_last_alert_at r)
        (sl_last_alert_type r)) <$> c
  | b => match alert_type_name b with
         | Some name => record_alert (occurred_at e) name <$> c
         | None => c
         end
  end.

Lemma on_alert_Ok s name at_ now d d' :
  on_alert s name at_ now d = Ok d' →
  d' = put_telemetry d (rd_rollups d) (RECORD_ALERT at_ name (uuid_value s) (rd_latest d)).
Proof.
  unfold on_alert. intros Hh. inv_result.
  by inv_varchar.
Qed.

Lemma projected_latest s d l d' :
  project_events d l = Ok d' →
  rd_latest d' !! s =
  foldl latest_step (rd_latest d !! s) (filter (λ e, is_sensor_event s e = true) l.*2).
Proof.
  apply (projected (λ d, rd_latest d !! s)). intros d1 x d2 H%project_event_telemetry.
  unfold is_sensor_event, latest_step. destruct x as [now [eid at_ b]]. cbn [snd fst body occurred_at] in *.
  destruct b; cbn [pj_handler TelemetryRollupProjection body occurred_at sensor_id_of fmap option_fmap option_map alert_type_name] in H |- *;
    try (destruct H as [_ ->]; by rewrite bool_decide_false).
  - unfold TelemetryRollupProjection_on_telemetry_received in H. apply bind_Ok in H as (t & _ & [= <-]). cbn. unfold UPSERT_LATEST.
    case_bool_decide as Hs.
    + injection Hs as <-. destruct (rd_latest d1 !! uuid_value sensor_id) as [r|] eqn:E.
      * case_bool_decide; [by rewrite lookup_insert_eq|done].
      * by rewrite lookup_insert_eq.
    + assert (uuid_value sensor_id ≠ s) by congruence.
      repeat case_match; rewrite ?lookup_insert_ne by done; done.
  - apply on_alert_Ok in H as ->. cbn. unfold RECORD_ALERT. rewrite lookup_alter_by.
    repeat case_decide; case_bool_decide; try congruence; done.
  - apply on_alert_Ok in H as ->. cbn. unfold RECORD_ALERT. rewrite lookup_alter_by.
    repeat case_decide; case_bool_decide; try congruence; done.
  - apply on_alert_Ok in H as ->. cbn. unfold RECORD_ALERT. rewrite lookup_alter_by.
    repeat case_decide; case_bool_decide; try congruence; done.
  - injection H as <-. cbn. unfold ANNOUNCE_OFFLINE. rewrite lookup_alter_by.
    repeat case_decide; case_bool_decide; try congruence; done.
Qed.

(** *** The newest of a sensor's events *)

Definition reading_of (e : DomainEvent) : option (datetime * (uuid * float * float * float)) :=
  match body e with
  | TelemetryReceived _ p t m te li =>
      Some (t, (uuid_value p, moisture_value m, temperature_value te, light_value li))
  | _ => None
  end.
Definition alert_of (e : DomainEvent) : option (datetime * string) :=
  (λ name, (occurred_at e, name)) <$> alert_type_name (body e).
Definition offline_of (e : DomainEvent) : option datetime :=
  match body e with SensorOffline _ _ _ _ => Some (occurred_at e) | _ => None end.

Definition readings (es : list DomainEvent) := omap reading_of es.
Definition alerts (es : list DomainEvent) := omap alert_of es.

Definition reading_values (r : SensorLatest) : datetime * (uuid * float * float * float) :=
  (sl_recorded_at r, (sl_plant_id r, sl_moisture r, sl_temperature r, sl_light r)).

(** What the row says of the silence: an announcement stands until a newer reading than
    those before it. *)
Definition silence_of (es : list DomainEvent) (r : SensorLatest) : Prop :=
  match sl_offline_at r with
  | Some t => ∃ es0 e es1, es = es0 ++ e :: es1 ∧ offline_of e = Some t ∧
      omap offline_of es1 = [] ∧ reading_values r ∈ readings es0
  | None => ∀ es0 e es1 t, es = es0 ++ e :: es1 → offline_of e = Some t →
      Forall (λ x, x.1 < sl_recorded_at r)%Z (readings es0)
  end.

Record newest_of (es : list DomainEvent) (r : SensorLatest) : Prop := mkNewestOf {
  nw_reading : reading_values r ∈ readings es;
  nw_newest : Forall (λ x, x.1 ≤ sl_recorded_at r)%Z (readings es);
  nw_alert : match sl_last_alert_at r with
             | None => alerts es = []
             | Some a => ∃ name, sl_last_alert_type r = Some name ∧ (a, name) ∈ alerts es ∧
                 Forall (λ x, x.1 ≤ a)%Z (alerts es)
             end;
  nw_silence : silence_of es r }.

(** A sensor's stream begins with a reading: the ingress announces it before anything the
    reading crossed, and long before a silence. *)
Definition begins_with_reading (es : list DomainEvent) : Prop :=
  match es with [] => True | e :: _ => is_Some (reading_of e) end.

Lemma omap_snoc {A B} (f : A → option B) l x :
  omap f (l ++ [x]) = omap f l ++ match f x with Some y => [y] | None => [] end.
Proof. rewrite omap_app. cbn. by destruct (f x). Qed.

Lemma snoc_split {A} (l l0 l1 : list A) (x y : A) :
  l ++ [x] = l0 ++ y :: l1 → (l1 = [] ∧ y = x ∧ l0 = l) ∨ ∃ l1', l1 = l1' ++ [x] ∧ l = l0 ++ y :: l1'.
Proof.
  destruct l1 as [|z l1 _] using rev_ind; intros H.
  - apply app_inj_tail in H as [-> ->]. by left.
  - right. exists l1. rewrite app_comm_cons, app_assoc in H. by apply app_inj_tail in H as [-> ->].
Qed.

(** Appending an event that leaves the reading and the silence of the row alone. *)
Lemma silence_of_snoc es e r r' :
  sl_offline_at r' = sl_offline_at r → reading_values r' = reading_values r →
  offline_of e = None → silence_of es r → silence_of (es ++ [e]) r'.
Proof.
  unfold silence_of. intros -> Hv He. assert (sl_recorded_at r' = sl_recorded_at r) as ->
    by (unfold reading_values in Hv; congruence).
  destruct (sl_offline_at r) as [t|].
  - intros (es0 & x & es1 & -> & Hx & Hno & Hin). exists es0, x, (es1 ++ [e]).
    rewrite <- app_assoc, omap_snoc, Hno, He, Hv. done.
  - intros H es0 x es1 t Hsplit Hx. apply snoc_split in Hsplit as [(-> & -> & ->)|(es1' & -> & ->)].
    + congruence.
    + by eapply H.
Qed.

Lemma newest_of_reading es e r p t m te li :
  newest_of es r →
  reading_of e = Some (t, (p, m, te, li)) → alert_of e = None → offline_of e = None →
  newest_of (es ++ [e])
    (if bool_decide (sl_recorded_at r < t)%Z
     then mkSensorLatest p t m te li None (sl_last_alert_at r) (sl_last_alert_type r) else r).
Proof.
  intros [Hin Hall Halert Hsil] Hr Ha Ho. case_bool_decide as Hlt.
  - constructor; unfold readings, alerts; rewrite ?omap_snoc, ?Hr, ?Ha, ?app_nil_r.
    + apply elem_of_app. right. by apply list_elem_of_singleton.
    + apply Forall_app. split; [|by repeat constructor].
      eapply Forall_impl; [exact Hall|]. cbn. intros; lia.
    + exact Halert.
    + intros es0 x es1 u Hsplit Hx. cbn.
      apply snoc_split in Hsplit as [(-> & -> & ->)|(es1' & -> & ->)]; [congruence|].
      unfold readings in Hall. rewrite omap_app in Hall. apply Forall_app in Hall as [Hall _].
      eapply Forall_impl; [exact Hall|]. cbn. intros; lia.
  - constructor; unfold readings, alerts; rewrite ?omap_snoc, ?Hr, ?Ha, ?app_nil_r; try done.
    + apply elem_of_app. by left.
    + apply Forall_app. split; [done|]. repeat constructor. cbn. lia.
    + by apply (silence_of_snoc es e r r).
Qed.

Lemma newest_of_alert es e r name :
  newest_of es r →
  reading_of e = None → alert_of e = Some (occurred_at e, name) → offline_of e = None →
  newest_of (es ++ [e]) (record_alert (occurred_at e) name r).
Proof.
  intros [Hin Hall Halert Hsil] Hr Ha Ho.
  assert (reading_values (record_alert (occurred_at e) name r) = reading_values r ∧
    sl_offline_at (record_alert (occurred_at e) name r) = sl_offline_at r) as [Hv Hoff]
    by (unfold record_alert; by repeat case_match).
  constructor; unfold readings, alerts; rewrite ?omap_snoc, ?Hr, ?Ha, ?app_nil_r.
  - by rewrite Hv.
  - unfold reading_values in Hv. by injection Hv as -> _ _ _ _.
  - unfold record_alert. destruct (sl_last_alert_at r) as [last|] eqn:El.
    + destruct Halert as (nm & Hnm & Hlast & Hle). case_bool_decide as Hb; cbn; rewrite ?El.
      * exists name. split_and!; [done|apply elem_of_app; right; by apply list_elem_of_singleton|].
        apply Forall_app. split; [|by repeat constructor].
        eapply Forall_impl; [exact Hle|]. cbn. intros; lia.
      * exists nm. split_and!; [done|apply elem_of_app; by left|].
        apply Forall_app. split; [done|]. repeat constructor. cbn. lia.
    + cbn. unfold alerts in Halert. rewrite Halert. exists name.
      split_and!; [done|by apply list_elem_of_singleton|by repeat constructor].
  - by apply (silence_of_snoc es e r).
Qed.

Lemma newest_of_offline es e r :
  newest_of es r → offline_of e = Some (occurred_at e) →
  reading_of e = None → alert_of e = None →
  newest_of (es ++ [e])
    (mkSensorLatest (sl_plant_id r) (sl_recorded_at r) (sl_moisture r) (sl_temperature r)
      (sl_light r) (Some (occurred_at e)) (sl_last_alert_at r) (sl_last_alert_type r)).
Proof.
  intros [Hin Hall Halert Hsil] Ho Hr Ha.
  constructor; unfold readings, alerts; rewrite ?omap_snoc, ?Hr, ?Ha, ?app_nil_r; try done.
  exists es, e, []. done.
Qed.

(** The row of a sensor's events is their newest. *)
Lemma latest_newest es :
  Forall (λ e, is_Some (sensor_id_of (body e))) es → begins_with_reading es →
  match foldl latest_step None es with Some r => newest_of es r | None => es = [] end.
Proof.
  induction es as [|e es IH] using rev_ind; intros Hs Hb; [done|].
  apply Forall_app in Hs as [Hs He]. apply Forall_cons in He as [He _].
  rewrite foldl_app. cbn [foldl].
  assert (begins_with_reading es) as Hb' by (by destruct es).
  specialize (IH Hs Hb'). destruct (foldl latest_step None es) as [r|].
  - destruct e as [eid at_ b]. unfold latest_step. cbn [body occurred_at fmap option_fmap option_map] in *.
    destruct b; try (by destruct He); cbn match; cbn [alert_type_name fmap option_fmap option_map].
    + pose proof (newest_of_reading es (mkEvent eid at_ (TelemetryReceived sensor_id plant_id
        recorded_at moisture temperature light)) r _ _ _ _ _ IH eq_refl eq_refl eq_refl) as H.
      by case_bool_decide.
    + by apply (newest_of_alert es (mkEvent eid at_ _)).
    + by apply (newest_of_alert es (mkEvent eid at_ _)).
    + by apply (newest_of_alert es (mkEvent eid at_ _)).
    + by apply (newest_of_offline es (mkEvent eid at_ _)).
  - subst es. cbn in Hb. destruct e as [eid at_ b]. destruct Hb as [x Hx].
    destruct b; try done. cbn in Hx. injection Hx as <-. unfold latest_step. cbn.
    constructor; cbn.
    + by left.
    + by repeat constructor.
    + done.
    + intros es0 x es1 t Hsplit Hx. destruct es0 as [|y es0]; cbn in Hsplit.
      * injection Hsplit as <- <-. done.
      * injection Hsplit as _ H. by destruct es0.
Qed.

(** Samples in another order: the same count, and extremes that compare equal. *)
Lemma summary_permutation l1 l2 r1 r2 :
  l1 ≡ₚ l2 → summary_of l1 r1 → summary_of l2 r2 →
  tr_sample_count r1 = tr_sample_count r2 ∧
  (float8_le (tr_moisture_min r1) (tr_moisture_min r2) = true ∧
   float8_le (tr_moisture_max r1) (tr_moisture_max r2) = true) ∧
  (float8_le (tr_temperature_min r1) (tr_temperature_min r2) = true ∧
   float8_le (tr_temperature_max r1) (tr_temperature_max r2) = true).
Proof.
  assert (∀ A (f : A → float) (k1 k2 : list A) x y, k1 ≡ₚ k2 →
    least_of x (f <$> k1) → least_of y (f <$> k2) → float8_le x y = true) as Hmin.
  { intros A f k1 k2 x y Hp [_ Hx] [Hy _]. rewrite Forall_forall in Hx. apply Hx. by rewrite Hp. }
  assert (∀ A (f : A → float) (k1 k2 : list A) x y, k1 ≡ₚ k2 →
    greatest_of x (f <$> k1) → greatest_of y (f <$> k2) → float8_le x y = true) as Hmax.
  { intros A f k1 k2 x y Hp [Hx _] [_ Hy]. rewrite Forall_forall in Hy. apply Hy. by rewrite <- Hp. }
  intros Hp [] []. split_and!; [|by eapply Hmin|by eapply Hmax|by eapply Hmin|by eapply Hmax].
  rewrite so_count0, so_count1. by rewrite Hp.
Qed.

Definition demo_reading (eid : uuid) (t : datetime) (moisture : float) : DomainEvent :=
  mkEvent eid t (TelemetryReceived (Uuid 9) (Uuid 7) t (MkMoisture moisture)
    (MkTemperature (float_of_Z 20)) (MkLightLevel (float_of_Z 500))).
Definition tenths (n : Z) : float := SFdiv 53 1024 (float_of_Z n) (float_of_Z 10).
Definition mean_of_window (es : list DomainEvent) : result (option float) :=
  d ← project_events ReadDatabase_empty ((λ e, (0%Z, e)) <$> es);
  Ok (tr_moisture_avg <$> rd_rollups d !! (9%N, 0%Z)).

(** The mean of a window does depend on the order of its samples, and can lie outside
    them: 30.1, 40.2 and 50.3 in one order and the other, and three times 0.1. *)
Lemma mean_depends_on_order :
  let a := demo_reading 1 10 (tenths 301) in
  let b := demo_reading 2 20 (tenths 402) in
  let c := demo_reading 3 30 (tenths 503) in
  let low n := demo_reading n 10 (tenths 1) in
  is_ok (mean_of_window [a; b; c]) = true ∧ is_ok (mean_of_window [c; b; a]) = true ∧
  mean_of_window [a; b; c] ≠ mean_of_window [c; b; a] ∧
  ∃ m, mean_of_window [low 4%N; low 5%N; low 6%N] = Ok (Some m) ∧ float8_lt (tenths 1) m = true.
Proof.
  intros a b c low. split_and!; [vm_compute; reflexivity..| |].
  - vm_compute. discriminate.
  - eexists. split; vm_compute; reflexivity.
Qed.

(** ** Theorems *)

(** [C22] A window is the summary of its readings.  Whatever has been projected, a sensor
    has a row for an hour exactly when a reading of that hour was projected; the row counts
    those readings, names the plant of the last projected, and its extremes are the least
    and the greatest of them, in whatever order they came.  Its mean is the arithmetic mean
    of those readings, a rational, up to the rounding of the database's floats: it is off by
    at most 2^-40 for each reading of the window, provided every one of them is a double
    that its value object admits (a moisture in 0..100, a temperature in -50..60).  A
    reading belongs to the one hour, cut in UTC, that contains its instant. *)
Theorem windows_summarise_readings (l : list (datetime * DomainEvent)) (d : ReadDatabase)
    (s : uuid) (b : datetime) :
  project_events ReadDatabase_empty l = Ok d →
  match rd_rollups d !! (s, b) with
  | None => samples s b l.*2 = []
  | Some r => summary_of (samples s b l.*2) r
  end ∧
  (∀ t, (window_start t ≤ t < window_start t + ROLLUP_WINDOW)%Z ∧
     ∀ b', (b' mod ROLLUP_WINDOW = 0 → b' ≤ t < b' + ROLLUP_WINDOW → window_start t = b')%Z).
Proof.
  intros Hp. split; [|intros t; split; [apply window_bounds|apply window_start_unique]].
  revert d Hp. induction l as [|x l IH] using rev_ind; intros d Hp; [by injection Hp as <-|].
  unfold project_events in Hp. rewrite foldM_app in Hp. apply bind_Ok in Hp as (d1 & H1 & Hp).
  cbn [foldM] in Hp. apply bind_Ok in Hp as (d2 & H2 & [= <-]).
  specialize (IH d1 H1). apply (project_event_rollup s b) in H2.
  unfold samples in *. rewrite fmap_app, omap_app. cbn [fmap list_fmap omap list_omap].
  destruct (sample_in s b x.2) as [[[p m] te]|].
  - destruct H2 as (r' & -> & H2). destruct (rd_rollups d1 !! (s, b)) as [r|].
    + by eapply fold_sample_summary.
    + subst r'. rewrite IH. apply first_sample_summary.
  - by rewrite H2, app_nil_r.
Qed.

(** The latest row of a sensor is its newest.  Whatever has been projected, when the
    sensor's events begin with a reading: the row holds the values of a projected reading
    no other is newer than; its last alert is a projected alert no other is later than;
    and it says the sensor is silent exactly when the last announced silence was not
    followed by a reading newer than those before it. *)
Theorem latest_row_is_newest (l : list (datetime * DomainEvent)) (d : ReadDatabase) (s : uuid) :
  project_events ReadDatabase_empty l = Ok d →
  let es := filter (λ e, is_sensor_event s e = true) l.*2 in
  begins_with_reading es →
  match rd_latest d !! s with Some r => newest_of es r | None => es = [] end.
Proof.
  intros Hp es Hb. rewrite (projected_latest s _ _ _ Hp). apply latest_newest; [|done].
  apply Forall_forall. intros e [He _]%list_elem_of_filter. unfold is_sensor_event in He.
  apply bool_decide_eq_true in He. destruct (sensor_id_of (body e)); [by eexists|done].
Qed.

(** *** Witnesses *)

Definition demo_stream : list (datetime * DomainEvent) :=
  [(1%Z, demo_reading 1 (hours 5 + 10) (float_of_Z 20));
   (2%Z, mkEvent 2 (hours 5 + 11) (SoilMoistureLow (Uuid 9) (Uuid 7) (MkMoisture (float_of_Z 20))
           (float_of_Z 30)));
   (3%Z, demo_reading 3 (hours 5 + 40) (float_of_Z 25));
   (4%Z, mkEvent 4 (hours 6) (SensorOffline (Uuid 9) (Uuid 7) (hours 5 + 40) (minutes 15)));
   (5%Z, demo_reading 5 (hours 5 + 30) (float_of_Z 22))].

(** Three readings: 20, 25 and 22, all at 20 degrees. *)
Lemma windows_summarise_readings_witness :
  ∃ d r, project_events ReadDatabase_empty demo_stream = Ok d ∧
    rd_rollups d !! (9%N, hours 5) = Some r ∧
    tr_sample_count r = 3%Z ∧ near_mean (float_of_Z <$> [20; 25; 22]%Z) (tr_moisture_avg r) ∧
    summary_of (samples 9 (hours 5) demo_stream.*2) r.
Proof.
  assert (∃ d, project_events ReadDatabase_empty demo_stream = Ok d ∧
    ∃ r, rd_rollups d !! (9%N, hours 5) = Some r ∧ tr_sample_count r = 3%Z)
    as (d & Hd & r & Hr & Hn).
  { eexists. split; [vm_compute; reflexivity|]. eexists. split; vm_compute; reflexivity. }
  exists d, r. split; [exact Hd|]. split; [exact Hr|]. split; [exact Hn|].
  pose proof (windows_summarise_readings demo_stream d 9 (hours 5) Hd) as [H _].
  rewrite Hr in H. split; [|exact H]. apply H.
  repeat constructor; vm_compute; reflexivity.
Defined.

Lemma latest_row_is_newest_witness :
  ∃ d r, project_events ReadDatabase_empty demo_stream = Ok d ∧
    rd_latest d !! 9%N = Some r ∧
    newest_of (filter (λ e, is_sensor_event 9 e = true) demo_stream.*2) r ∧
    sl_recorded_at r = (hours 5 + 40)%Z ∧ sl_offline_at r = Some (hours 6).
Proof.
  assert (∃ d, project_events ReadDatabase_empty demo_stream = Ok d ∧
    ∃ r, rd_latest d !! 9%N = Some r ∧ sl_recorded_at r = (hours 5 + 40)%Z ∧
      sl_offline_at r = Some (hours 6)) as (d & Hd & r & Hr & Hn).
  { eexists. split; [vm_compute; reflexivity|]. eexists. split; [|split]; vm_compute; reflexivity. }
  exists d, r. split; [exact Hd|]. split; [exact Hr|]. split; [|exact Hn].
  pose proof (latest_row_is_newest demo_stream d 9 Hd) as H.
  rewrite Hr in H. apply H. eexists. reflexivity.
Defined.
