(* ===== verification/ReadSide.v ===== *)
(** The Kafka side of the read side: the subscriber of
    [apps/admin/projections/subscriber.py], which runs a projection under the failure policy
    and moves aside what it cannot project, and what a read side fed by it contains. *)

From S2P Require Import Prelude Domain Topics Rows Delivery ReadModels Rollups Projections.

(** ** The subscriber *)

(** What one attempt meets: a connection that fails before the commit, the instant its
    writes read, and the commit. *)
Record projection_attempt := mkProjectionAttempt {
  pa_failure : option exn;
  pa_now : datetime;
  pa_commit : commit_fate }.

(** What moving aside meets: the broker, then the transaction of the claim. *)
Record projection_aside := mkProjectionAside {
  px_broker : commit_fate;
  px_failure : option exn;
  px_commit : commit_fate }.

(** The read side between two deliveries: its rows and the dead-letter topic. *)
Record ReadSide := mkReadSide {
  rs_rows : ReadDatabase;
  rs_copies : list DeliveryDeadLetter }.

Section Subscriber.
Context (projection : Projection) (consumer_group : string) (message : KafkaMessage)
  (event : DomainEvent) (attempts : nat → projection_attempt) (aside : projection_aside)
  (policy : FailurePolicy).

(** [apply_event]; the state counts the attempts made. *)
Definition apply_event (s : ReadSide * nat) : result bool * (ReadSide * nat) :=
  let '(rs, k) := s in
  let env := attempts k in
  match pa_failure env with
  | Some e => (Raise e, (rs, S k))
  | None =>
      let '(r, d) := Projection_apply projection consumer_group (pa_now env) (pa_commit env) event
        (rs_rows rs) in
      (r, (mkReadSide d (rs_copies rs), S k))
  end.

(** [projection_move_aside]: copy, then claim. *)
Definition projection_move_aside (error : exn) (s : ReadSide * nat) : result unit * (ReadSide * nat) :=
  let '(rs, k) := s in
  let copies := rs_copies rs ++ [dead_letter_for message consumer_group error] in
  match px_broker aside with
  | Refused e => (Raise e, (rs, k))
  | Unacknowledged e => (Raise e, (mkReadSide (rs_rows rs) copies, k))
  | Acknowledged =>
      match px_failure aside with
      | Some e => (Raise e, (mkReadSide (rs_rows rs) copies, k))
      | None =>
          let '(r, d) := record_move_aside (event_id event) consumer_group (px_commit aside)
            (rs_rows rs) in
          (_ ← r; Ok tt, (mkReadSide d copies, k))
      end
  end.

Definition handle_event (rs : ReadSide) : option (result bool * ReadSide) :=
  '(r, (rs, _), _) ← run_with_failure_policy apply_event projection_move_aside policy (rs, 0);
  Some (r, rs).
End Subscriber.

(** [build_handler]: what the decoder cannot read and what the projection does not handle
    is acknowledged. *)
Definition projection_handle (projection : Projection) (consumer_group : string)
    (message : KafkaMessage) (decoded : option DomainEvent)
    (attempts : nat → projection_attempt) (aside : projection_aside) (policy : FailurePolicy)
    (rs : ReadSide) : option (result bool * ReadSide) :=
  match decoded with
  | None => Some (Ok false, rs)
  | Some event =>
      if negb (Projection_handles projection event) then Some (Ok false, rs)
      else handle_event projection consumer_group message event attempts aside policy rs
  end.

(** [register_projections]: the consumer group of a projection. *)
Definition projection_group (prefix : string) (p : Projection) : string :=
  (prefix +:+ "-" +:+ pj_name p)%string.

(** A delivery to one of the groups, what it decodes to, and what handling it meets. *)
Record projection_delivery := mkProjectionDelivery {
  dv_projection : Projection;
  dv_message : KafkaMessage;
  dv_event : option DomainEvent;
  dv_attempts : nat → projection_attempt;
  dv_aside : projection_aside }.

(** Any number of deliveries and redeliveries, with the answer to each. *)
Definition receive (prefix : string) (policy : FailurePolicy)
    (s : list (result bool) * ReadSide) (v : projection_delivery) :
    option (list (result bool) * ReadSide) :=
  '(r, rs) ← projection_handle (dv_projection v) (projection_group prefix (dv_projection v))
    (dv_message v) (dv_event v) (dv_attempts v) (dv_aside v) policy s.2;
  Some (s.1 ++ [r], rs).
Definition receive_all (prefix : string) (policy : FailurePolicy) (vs : list projection_delivery)
    (rs : ReadSide) : option (list (result bool) * ReadSide) :=
  foldl (λ s v, s ← s; receive prefix policy s v) (Some ([], rs)) vs.

(** ** Lemmas *)

(** *** Projecting does not look at the ledger *)

Definition with_ledger (L : gset (string * uuid)) (r : result ReadDatabase) : result ReadDatabase :=
  (λ d, put_ledger d L) <$> r.

Lemma fmap_with_ledger {T} (put : ReadDatabase → T → ReadDatabase) d L (m : result T) :
  (∀ t, put (put_ledger d L) t = put_ledger (put d t) L) →
  put (put_ledger d L) <$> m = with_ledger L (put d <$> m).
Proof. intros H. destruct m; cbn; by rewrite ?H. Qed.

Lemma upsert_species_ledger s scientific common interval light version now d L :
  upsert_species s scientific common interval light version now (put_ledger d L) =
  with_ledger L (upsert_species s scientific common interval light version now d).
Proof.
  unfold upsert_species. destruct (varchar 200 scientific); [|reflexivity].
  destruct (varchar 200 common); [|reflexivity]. cbn [mbind result_bind].
  by destruct (varchar 20 (LightRequirement_value light)).
Qed.

Lemma project_event_ledger d L x :
  project_event (put_ledger d L) x = with_ledger L (project_event d x).
Proof.
  unfold project_event. destruct x as [now [eid at_ b]]. rewrite !read_handler_eq.
  cbn [fst snd body occurred_at]. unfold on_plant_removed, on_plant_onboarded.
  destruct b; try reflexivity;
    rewrite ?update_garden_run, ?on_watering_completed_run, ?set_next_watering_run,
      ?on_notification_read_run; try reflexivity.
  - by apply fmap_with_ledger.
  - by apply fmap_with_ledger.
  - unfold on_care_schedule_created. rewrite !set_next_watering_run. cbn [mbind result_bind].
    change (rd_care (put_care ?d ?t)) with t. destruct (get_or_create _ _ _) as [care []];
      rewrite ?filter_update_total; reflexivity.
  - apply upsert_species_ledger.
  - apply upsert_species_ledger.
  - unfold on_journal_entry_added. destruct (varchar _ _); reflexivity.
  - cbn. unfold TelemetryRollupProjection_on_telemetry_received. cbn. destruct (UPSERT_ROLLUP _ _ _ _ _ _); reflexivity.
  - unfold on_notification_created. destruct (varchar _ _); [by apply fmap_with_ledger|reflexivity].
Qed.

(** *** One delivery *)

Section Delivery.
Context (projection : Projection) (consumer_group : string) (message : KafkaMessage)
  (event : DomainEvent) (attempts : nat → projection_attempt) (aside : projection_aside)
  (policy : FailurePolicy) (Hin : projection ∈ ALL_PROJECTIONS)
  (Hhandles : Projection_handles projection event = true).

Let key := (consumer_group, event_id event).

(** The event's effect and its claim, together. *)
Definition projects (d d' : ReadDatabase) : Prop :=
  key ∉ rd_processed_events d ∧ ∃ now d1, project_event d (now, event) = Ok d1 ∧
    d' = put_ledger d1 ({[key]} ∪ rd_processed_events d).

Lemma put_ledger_id d L : L = rd_processed_events d → put_ledger d L = d.
Proof. intros ->. by destruct d. Qed.

Lemma claim_again d : key ∈ rd_processed_events d → claim_event consumer_group (event_id event) d = (false, d).
Proof using.
  clear Hin Hhandles.
  intros H. unfold claim_event. fold key. rewrite bool_decide_false by auto.
  rewrite put_ledger_id; [done|]. set_solver.
Qed.

Lemma apply_cases fate now d :
  let '(r, d') := Projection_apply projection consumer_group now fate event d in
  (d' = d ∧ ∀ b, r = Ok b → key ∈ rd_processed_events d) ∨ projects d d'.
Proof using Hin Hhandles.
  unfold Projection_apply. unfold Projection_handles in Hhandles.
  destruct (pj_handler projection event) as [h|] eqn:Eh; [|done].
  unfold atomic. destruct (decide (key ∈ rd_processed_events d)) as [Hk|Hk].
  { rewrite claim_again by done. cbn. destruct fate; by left. }
  unfold claim_event. fold key. rewrite bool_decide_true by done. cbn [negb].
  assert (h now (put_ledger d ({[key]} ∪ rd_processed_events d)) =
    with_ledger ({[key]} ∪ rd_processed_events d) (project_event d (now, event))) as ->.
  { rewrite <- project_event_ledger. unfold project_event. cbn [snd fst].
    by rewrite (read_handler_of _ _ _ Hin Eh). }
  destruct (project_event d (now, event)) as [d1|x] eqn:E; [|by left]. cbn.
  destruct fate; [right|by left|right]; split; eauto.
Qed.

(** The copy of the delivery, as it appears on the dead-letter topic. *)
Definition is_copy (c : DeliveryDeadLetter) : Prop :=
  ∃ error, c = dead_letter_for message consumer_group error.

(** What a delivery leaves: nothing new; the event projected; or a claim for a copy. *)
Definition delivered_to (rs rs' : ReadSide) : Prop :=
  (∃ new, rs_copies rs' = rs_copies rs ++ new ∧ Forall is_copy new) ∧
  (rs_rows rs' = rs_rows rs ∨ projects (rs_rows rs) (rs_rows rs') ∨
   key ∉ rd_processed_events (rs_rows rs) ∧
     rs_rows rs' = put_ledger (rs_rows rs) ({[key]} ∪ rd_processed_events (rs_rows rs)) ∧
     ∃ c, is_copy c ∧ c ∈ rs_copies rs').

(** Between two attempts. *)
Definition attempted (rs rs' : ReadSide) : Prop :=
  rs_copies rs' = rs_copies rs ∧
  (rs_rows rs' = rs_rows rs ∨ projects (rs_rows rs) (rs_rows rs')).

Lemma projects_claims d d' : projects d d' → key ∈ rd_processed_events d'.
Proof using. clear Hin Hhandles. intros (_ & now & d1 & _ & ->). cbn. set_solver. Qed.

Lemma attempt_again rs s :
  attempted rs s.1 →
  let '(r, s') := apply_event projection consumer_group event attempts s in
  attempted rs s'.1 ∧ ∀ b, r = Ok b → key ∈ rd_processed_events (rs_rows s'.1).
Proof using Hin Hhandles.
  destruct s as [rs1 k]. intros [Hc Hd]. unfold apply_event. cbn [fst].
  destruct (pa_failure (attempts k)); [done|].
  pose proof (apply_cases (pa_commit (attempts k)) (pa_now (attempts k)) (rs_rows rs1)) as H.
  destruct (Projection_apply _ _ _ _ _ _) as [r d']. cbn.
  destruct H as [[-> Hr]|Hp].
  - split; [by split|done].
  - split; [|intros _ _; by apply (projects_claims _ _ Hp)]. split; [done|]. right.
    destruct Hd as [Hd|Hd]; [by rewrite <- Hd|].
    destruct Hp as [Hn _]. by destruct (Hn (projects_claims _ _ Hd)).
Qed.

Lemma attempted_after rs k s :
  attempted rs s.1 →
  attempted rs (state_after (apply_event projection consumer_group event attempts) k s).1.
Proof using Hin Hhandles.
  revert s. induction k as [|k IH]; intros s Hs; [done|]. rewrite state_after_S. apply IH.
  pose proof (attempt_again rs s Hs) as H. destruct (apply_event _ _ _ _ s). by destruct H.
Qed.

Lemma attempted_delivered rs rs' new :
  Forall is_copy new → attempted rs rs' →
  delivered_to rs (mkReadSide (rs_rows rs') (rs_copies rs' ++ new)).
Proof using.
  clear Hin Hhandles.
  intros Hnew [Hc Hd]. split; [exists new; by rewrite <- Hc|]. cbn. tauto.
Qed.

Lemma move_aside_delivered rs s error :
  attempted rs s.1 →
  let '(r, s') := projection_move_aside consumer_group message event aside error s in
  delivered_to rs s'.1 ∧ ∀ u, r = Ok u → key ∈ rd_processed_events (rs_rows s'.1).
Proof using.
  clear Hin Hhandles attempts policy.
  destruct s as [rs1 k]. intros Ha. cbn [fst] in Ha. unfold projection_move_aside.
  set (copy := dead_letter_for message consumer_group error).
  assert (is_copy copy) as Hcopy by (by eexists).
  pose proof (attempted_delivered rs rs1 [copy] ltac:(by repeat constructor) Ha) as H1.
  destruct (px_broker aside); [|split; [|done]|split; [exact H1|done]].
  2: { cbn. pose proof (attempted_delivered rs rs1 [] ltac:(done) Ha) as H0.
       rewrite app_nil_r in H0. by destruct rs1. }
  destruct (px_failure aside); [split; [exact H1|done]|].
  unfold record_move_aside, atomic.
  destruct (decide (key ∈ rd_processed_events (rs_rows rs1))) as [Hk|Hk].
  { rewrite claim_again by done. cbn [fst snd]. destruct (px_commit aside); cbn; (split; [exact H1|done]). }
  destruct Ha as [Hc [Hd|Hd]]; [|by destruct (Hk (projects_claims _ _ Hd))].
  unfold claim_event. fold key.
  assert (delivered_to rs (mkReadSide (put_ledger (rs_rows rs1) ({[key]} ∪ rd_processed_events (rs_rows rs1)))
    (rs_copies rs1 ++ [copy]))) as H2.
  { split; [apply H1|]. cbn. right. right. rewrite <- Hd. split_and!; [done..|].
    exists copy. split; [done|]. apply elem_of_app. right. by apply list_elem_of_singleton. }
  destruct (px_commit aside); cbn; (split; [first [exact H2|exact H1]|]); [|done..].
  intros _ _. set_solver.
Qed.

Lemma handle_event_delivered rs :
  (1 ≤ max_attempts policy ≤ 1025)%Z →
  ∃ r rs', handle_event projection consumer_group message event attempts aside policy rs =
    Some (r, rs') ∧ delivered_to rs rs' ∧
    ∀ b, r = Ok b → key ∈ rd_processed_events (rs_rows rs').
Proof using Hin Hhandles.
  intros Hp. unfold handle_event.
  destruct (policy_loop_outcome (apply_event projection consumer_group event attempts)
    (projection_move_aside consumer_group message event aside) policy (Z.to_nat (max_attempts policy)) 0
    (rs, 0)) as (n & waits & _ & _ & _ & _ & H); [lia..|].
  assert (attempted rs rs) as H0 by (by split; [|left]).
  pose proof (attempted_after rs n (rs, 0) H0) as Hn.
  pose proof (attempt_again rs _ Hn) as Hlast.
  destruct (apply_event _ _ _ _ (state_after _ n (rs, 0))) as [r [rs1 k]].
  destruct H as [Hrun _]. destruct Hlast as [Ha Hok]. cbn [fst] in Ha, Hok.
  unfold run_with_failure_policy. rewrite Hrun. cbn [mbind option_bind].
  destruct r as [b|e]; cbn.
  - exists (Ok b), rs1. split; [done|]. split; [|done].
    pose proof (attempted_delivered rs rs1 [] ltac:(done) Ha) as Hd.
    rewrite app_nil_r in Hd. by destruct rs1.
  - unfold moved_aside. pose proof (move_aside_delivered rs (rs1, k) e Ha) as Hm.
    destruct (projection_move_aside _ _ _ _ e (rs1, k)) as [[u|e'] [rs2 k']]; destruct Hm as [Hm1 Hm2].
    + exists (Ok true), rs2. split; [done|]. split; [done|]. intros _ _. by apply (Hm2 u).
    + by exists (Raise e'), rs2.
Qed.
End Delivery.

(** *** Any number of deliveries *)

(** The key a delivery is claimed under, when its projection handles it. *)
Definition delivery_key (prefix : string) (v : projection_delivery) : option (string * uuid) :=
  match dv_event v with
  | Some e => if Projection_handles (dv_projection v) e
              then Some (projection_group prefix (dv_projection v), event_id e) else None
  | None => None
  end.

(** An event, the group it was projected for and the instant its handler read. *)
Abbreviation projected_event := (string * (datetime * DomainEvent))%type (only parsing).
Definition projected_key (x : projected_event) : string * uuid := (x.1, event_id x.2.2).

(** A copy of the delivery is on the dead-letter topic, under its group. *)
Definition set_aside (prefix : string) (v : projection_delivery) (rs : ReadSide) : Prop :=
  ∃ error, dead_letter_for (dv_message v) (projection_group prefix (dv_projection v)) error
    ∈ rs_copies rs.

(** What the read side holds after the deliveries [vs]: the projection of [done]. *)
Record history (prefix : string) (rs0 : ReadSide) (vs : list projection_delivery)
    (answers : list (result bool)) (rs : ReadSide) (done : list projected_event) : Prop :=
  mkHistory {
  hi_rows : project_events (rs_rows rs0) done.*2 =
    Ok (put_ledger (rs_rows rs) (rd_processed_events (rs_rows rs0)));
  hi_once : NoDup (projected_key <$> done);
  hi_from : ∀ x, x ∈ done → projected_key x ∉ rd_processed_events (rs_rows rs0) ∧
    ∃ v, v ∈ vs ∧ dv_event v = Some x.2.2 ∧ delivery_key prefix v = Some (projected_key x);
  hi_claimed : ∀ x, x ∈ done → projected_key x ∈ rd_processed_events (rs_rows rs);
  hi_kept : rd_processed_events (rs_rows rs0) ⊆ rd_processed_events (rs_rows rs);
  hi_claims : ∀ k, k ∈ rd_processed_events (rs_rows rs) →
    k ∈ rd_processed_events (rs_rows rs0) ∨ k ∈ projected_key <$> done ∨
    ∃ v, v ∈ vs ∧ delivery_key prefix v = Some k ∧ set_aside prefix v rs;
  hi_answers : length answers = length vs;
  hi_acknowledged : ∀ i v k b, vs !! i = Some v → delivery_key prefix v = Some k →
    answers !! i = Some (Ok b) → k ∈ rd_processed_events (rs_rows rs) }.

Lemma history_start prefix rs : history prefix rs [] [] rs [].
Proof.
  constructor; try done; try (by intros ? ?%not_elem_of_nil).
  - cbn. by rewrite put_ledger_id.
  - apply NoDup_nil_2.
  - intros k Hk. by left.
Qed.

Lemma project_events_snoc d l x d1 d2 :
  project_events d l = Ok d1 → project_event d1 x = Ok d2 → project_events d (l ++ [x]) = Ok d2.
Proof. intros H1 H2. unfold project_events in *. rewrite foldM_app, H1. cbn. by rewrite H2. Qed.

Lemma put_ledger_twice d L1 L2 : put_ledger (put_ledger d L1) L2 = put_ledger d L2.
Proof. done. Qed.

Lemma delivered_copies prefix v e rs rs' w :
  delivered_to (projection_group prefix (dv_projection v)) (dv_message v) e rs rs' →
  set_aside prefix w rs → set_aside prefix w rs'.
Proof.
  intros [(new & Hnew & _) _] [error H]. exists error. rewrite Hnew. apply elem_of_app. by left.
Qed.

(** A delivery whose event its projection handles extends the history. *)
Lemma history_delivered prefix rs0 vs answers rs done v e r rs' :
  history prefix rs0 vs answers rs done →
  dv_event v = Some e → Projection_handles (dv_projection v) e = true →
  delivered_to (projection_group prefix (dv_projection v)) (dv_message v) e rs rs' →
  (∀ b, r = Ok b → (projection_group prefix (dv_projection v), event_id e)
     ∈ rd_processed_events (rs_rows rs')) →
  ∃ done', history prefix rs0 (vs ++ [v]) (answers ++ [r]) rs' done'.
Proof.
  intros [Hrows Honce Hfrom Hclaimed Hkept Hclaims Hlen Hack] Hev Hh Hdel Hr.
  set (key := (projection_group prefix (dv_projection v), event_id e)) in *.
  assert (delivery_key prefix v = Some key) as Hkey by (unfold delivery_key; by rewrite Hev, Hh).
  pose proof (delivered_copies prefix v e rs rs') as Hcopies.
  assert (∀ k, k ∈ rd_processed_events (rs_rows rs) → k ∈ rd_processed_events (rs_rows rs')) as Hmono.
  { destruct Hdel as [_ [->|[(_ & now & d1 & _ & ->)|(_ & -> & _)]]]; cbn; set_solver. }
  assert (∀ i w k b, (vs ++ [v]) !! i = Some w → delivery_key prefix w = Some k →
    (answers ++ [r]) !! i = Some (Ok b) → k ∈ rd_processed_events (rs_rows rs')) as Hack'.
  { intros i w k b Hw Hk Hb. destruct (decide (i < length vs)) as [Hi|Hi].
    - rewrite lookup_app_l in Hw by lia. rewrite lookup_app_l in Hb by lia.
      apply Hmono. by eapply Hack.
    - apply lookup_snoc_Some in Hw as [[? _]|[-> <-]]; [lia|].
      apply lookup_snoc_Some in Hb as [[? _]|[_ ->]]; [lia|].
      rewrite Hkey in Hk. injection Hk as <-. by eapply Hr. }
  assert (∀ k, (∃ w, w ∈ vs ∧ delivery_key prefix w = Some k ∧ set_aside prefix w rs) →
    ∃ w, w ∈ vs ++ [v] ∧ delivery_key prefix w = Some k ∧ set_aside prefix w rs') as Haside.
  { intros k (w & Hw & Hk & Hs). exists w. split_and!; [set_solver|done|by apply Hcopies]. }
  destruct Hdel as [Hnew [Heq|[(Hfresh & now & d1 & Hp & Heq)|(Hfresh & Heq & c & [err ->] & Hc)]]].
  - exists done. constructor; rewrite ?Heq, ?length_app; try done.
    + intros x Hx. destruct (Hfrom x Hx) as (? & w & ? & ? & ?). split; [done|]. exists w. set_solver.
    + intros k Hk. destruct (Hclaims k Hk) as [?|[?|H]]; [by left|by right; left|]. right. right.
      by apply Haside.
    + cbn. lia.
    + rewrite <- Heq. exact Hack'.
  - exists (done ++ [(key.1, (now, e))]).
    constructor; rewrite ?Heq; cbn [rs_rows rd_processed_events put_ledger].
    + rewrite fmap_app. cbn [fmap list_fmap snd].
      eapply project_events_snoc; [exact Hrows|]. rewrite project_event_ledger, Hp. done.
    + rewrite fmap_app. apply NoDup_app. split_and!; [done| |apply NoDup_singleton].
      intros k (x & -> & Hx)%list_elem_of_fmap Hk%list_elem_of_singleton.
      change (projected_key (key.1, (now, e))) with key in Hk.
      apply Hfresh. change (key ∈ rd_processed_events (rs_rows rs)). rewrite <- Hk.
      by apply Hclaimed.
    + intros x [Hx| ->%list_elem_of_singleton]%elem_of_app.
      * destruct (Hfrom x Hx) as (? & w & ? & ? & ?). split; [done|]. exists w. set_solver.
      * split; [intros Hin; by apply Hfresh, Hkept|]. exists v. split; [set_solver|]. done.
    + intros x [Hx| ->%list_elem_of_singleton]%elem_of_app; [specialize (Hclaimed x Hx)|]; set_solver.
    + set_solver.
    + intros k [->%elem_of_singleton|Hk]%elem_of_union.
      * right. left. rewrite fmap_app. apply elem_of_app. right. by apply list_elem_of_singleton.
      * destruct (Hclaims k Hk) as [?|[?|H]]; [by left|right; left|].
        -- rewrite fmap_app. apply elem_of_app. by left.
        -- right. right. by apply Haside.
    + rewrite !length_app. cbn. lia.
    + rewrite Heq in Hack'. exact Hack'.
  - exists done. constructor; rewrite ?Heq; cbn [rs_rows rd_processed_events put_ledger]; try done.
    + intros x Hx. destruct (Hfrom x Hx) as (? & w & ? & ? & ?). split; [done|]. exists w. set_solver.
    + intros x Hx. specialize (Hclaimed x Hx). set_solver.
    + set_solver.
    + intros k [->%elem_of_singleton|Hk]%elem_of_union.
      * right. right. exists v. split_and!; [set_solver|done|]. by exists err.
      * destruct (Hclaims k Hk) as [?|[?|H]]; [by left|by right; left|]. right. right. by apply Haside.
    + rewrite !length_app. cbn. lia.
    + rewrite Heq in Hack'. exact Hack'.
Qed.

(** A delivery nobody handles is acknowledged and changes nothing. *)
Lemma history_unhandled prefix rs0 vs answers rs done v r :
  history prefix rs0 vs answers rs done → delivery_key prefix v = None →
  history prefix rs0 (vs ++ [v]) (answers ++ [r]) rs done.
Proof.
  intros [Hrows Honce Hfrom Hclaimed Hkept Hclaims Hlen Hack] Hkey. constructor; try done.
  - intros x Hx. destruct (Hfrom x Hx) as (? & w & ? & ? & ?). split; [done|]. exists w. set_solver.
  - intros k Hk. destruct (Hclaims k Hk) as [?|[?|(w & Hw & Hs)]]; [by left|by right; left|].
    right. right. exists w. set_solver.
  - rewrite !length_app. cbn. lia.
  - intros i w k b Hw Hk Hb. apply lookup_snoc_Some in Hw as [[Hi Hw]|[-> <-]]; [|congruence].
    rewrite lookup_app_l in Hb by lia. by eapply Hack.
Qed.

Lemma receive_all_snoc prefix policy vs v rs :
  receive_all prefix policy (vs ++ [v]) rs =
  s ← receive_all prefix policy vs rs; receive prefix policy s v.
Proof. unfold receive_all. by rewrite foldl_app. Qed.

(** ** Theorems *)

(** [C21] Every event reaches the read side once, and none is dropped silently.  Whatever
    is delivered, to whichever of the projections, in whatever order, however often, and
    whatever the attempts and the moving aside run into: the subscriber answers every
    delivery, and the rows are those of projecting each event at most once per group, in
    the order of the first success — [history].  A claim in the ledger means that the event
    was projected or that a copy of its delivery is on the dead-letter topic under the
    group's name; an acknowledged delivery that a projection handles is claimed. *)
Theorem read_side_exactly_once (prefix : string) (policy : FailurePolicy)
    (vs : list projection_delivery) (rs0 : ReadSide) :
  (1 ≤ max_attempts policy ≤ 1025)%Z →
  Forall (λ v, dv_projection v ∈ ALL_PROJECTIONS) vs →
  ∃ answers rs done, receive_all prefix policy vs rs0 = Some (answers, rs) ∧
    history prefix rs0 vs answers rs done.
Proof.
  intros Hp. induction vs as [|v vs IH] using rev_ind; intros Hall.
  { exists [], rs0, []. split; [done|apply history_start]. }
  apply Forall_app in Hall as [Hall [Hv _]%Forall_cons].
  destruct (IH Hall) as (answers & rs & done & Hrun & Hhist).
  rewrite receive_all_snoc, Hrun. unfold receive, projection_handle. cbn [mbind option_bind snd fst].
  destruct (dv_event v) as [e|] eqn:Hev.
  2: { exists (answers ++ [Ok false]), rs, done. split; [done|]. apply history_unhandled; [done|].
       unfold delivery_key. by rewrite Hev. }
  destruct (Projection_handles (dv_projection v) e) eqn:Hh; cbn [negb].
  2: { exists (answers ++ [Ok false]), rs, done. split; [done|]. apply history_unhandled; [done|].
       unfold delivery_key. by rewrite Hev, Hh. }
  destruct (handle_event_delivered (dv_projection v) (projection_group prefix (dv_projection v))
    (dv_message v) e (dv_attempts v) (dv_aside v) policy Hv Hh rs Hp)
    as (r & rs' & Hrun' & Hdel & Hr).
  rewrite Hrun'. cbn [mbind option_bind].
  destruct (history_delivered prefix rs0 vs answers rs done v e r rs' Hhist Hev Hh Hdel Hr)
    as [done' Hhist'].
  by exists (answers ++ [r]), rs', done'.
Qed.

(** *** Witness

    The plant is added twice, the first time over a commit whose acknowledgement is lost;
    an event too long for its column is moved aside. *)
Definition demo_projection_message : KafkaMessage :=
  mkKafkaMessage "garden.events" (Some "7"%string) "{}" ∅.
Definition demo_projection_policy : FailurePolicy :=
  mkFailurePolicy 2 (float_of_Z 1) (float_of_Z 30).
Definition demo_too_long : DomainEvent :=
  mkEvent 11 10 (PlantMoved (Uuid 7) (MkLocation "Kitchen") (MkLocation
    (String.string_of_list_ascii (replicate 101 (Ascii.ascii_of_nat 120))))).
Definition demo_projection_delivery (e : DomainEvent) (fate : commit_fate) : projection_delivery :=
  mkProjectionDelivery GardenProjection demo_projection_message (Some e)
    (λ k, mkProjectionAttempt None 20 (match k with O => fate | S _ => Acknowledged end)) (mkProjectionAside Acknowledged None Acknowledged).
Definition demo_deliveries : list projection_delivery :=
  [demo_projection_delivery demo_plant_added (Unacknowledged (OperationError 9));
   demo_projection_delivery demo_plant_added Acknowledged;
   demo_projection_delivery demo_too_long Acknowledged].

Lemma read_side_exactly_once_witness :
  ∃ answers rs done,
    receive_all "read" demo_projection_policy demo_deliveries (mkReadSide ReadDatabase_empty []) =
      Some (answers, rs) ∧
    history "read" (mkReadSide ReadDatabase_empty []) demo_deliveries answers rs done ∧
    answers = [Ok false; Ok false; Ok true] ∧ length (rs_copies rs) = 1.
Proof.
  destruct (read_side_exactly_once "read" demo_projection_policy demo_deliveries
    (mkReadSide ReadDatabase_empty [])) as (answers & rs & done & Hrun & Hhist).
  - split; vm_compute; discriminate.
  - repeat constructor; cbn [dv_projection demo_projection_delivery]; apply list_elem_of_here.
  - exists answers, rs, done. split; [exact Hrun|]. split; [exact Hhist|].
    assert ((λ x, (x.1, length (rs_copies x.2))) <$> receive_all "read" demo_projection_policy
      demo_deliveries (mkReadSide ReadDatabase_empty []) =
      Some ([Ok false; Ok false; Ok true], 1)) as E by (vm_compute; reflexivity).
    rewrite Hrun in E. injection E as -> ->. split; reflexivity.
Defined.
