(* ===== verification/NotificationStream.v ===== *)
(** How a household's notifications are delivered: the query behind every form
    ([application/queries/notifications.py], [infrastructure/notifications/reader.py]), the
    stream and its cursor ([application/notifications/stream.py]), the request that waits
    ([apps/api/rest/routers/notifications.py]) and the consumer that signals a household
    ([application/notifications/pusher.py]). *)

From S2P Require Import Prelude Domain Topics Notification Rows Views Database UnitOfWork.
From S2P Require Import Repositories Delivery.

(** ** The read *)

(** [ListPendingNotificationsHandler]. *)
Definition ListPendingNotifications_handle (household_id : HouseholdId)
    (since : option NotificationId) : tx (list View) :=
  notifications ← notifications_list_pending household_id since;
  mret (NotificationView_from_domain <$> notifications).

(** [SqlAlchemyPendingNotificationReader.pending_since]: on a session of its own. *)
Definition pending_since (d : Database) (household_id : HouseholdId)
    (since : option NotificationId) : result (list View) :=
  (ListPendingNotifications_handle household_id since (open_session d None id)).1.

(** ** The stream *)

(** What a wait on the household's signal ended as. *)
Inductive HouseholdSignalState := NUDGED | IDLE | LOST.

Inductive NotificationStreamEvent :=
  | StreamOpened (degraded : bool)
  | NotificationArrival (notification : View)
  | StreamKeepAlive.

Definition notification_view_id (v : View) : option NotificationId :=
  match v with NotificationView i _ _ _ _ _ => Some i | _ => None end.

(** The cursor after the arrivals were yielded one by one. *)
Definition cursor_after (cursor : option NotificationId) (arrivals : list View) :
    option NotificationId :=
  match last (omap notification_view_id arrivals) with Some i => Some i | None => cursor end.

(** [_drain]: one read, past the cursor. *)
Definition drain (household_id : HouseholdId) (d : Database) (cursor : option NotificationId) :
    result (list View) :=
  pending_since d household_id cursor.

(** One turn of the loop: the rows its read finds, how the wait ends, and the rows the last
    read finds when the signal is lost. *)
Record stream_round := mkStreamRound {
  sr_read : Database;
  sr_wait : HouseholdSignalState;
  sr_final : Database }.

(** Whether the stream is still open after the rounds it was given. *)
Inductive stream_end := StreamOpen | StreamClosed | StreamFailed (e : exn).

Fixpoint stream_rounds (household_id : HouseholdId) (cursor : option NotificationId)
    (rounds : list stream_round) : list NotificationStreamEvent * stream_end :=
  match rounds with
  | [] => ([], StreamOpen)
  | r :: rounds =>
      match drain household_id (sr_read r) cursor with
      | Raise e => ([], StreamFailed e)
      | Ok arrivals =>
          let cursor := cursor_after cursor arrivals in
          let sent := NotificationArrival <$> arrivals in
          match sr_wait r with
          | NUDGED =>
              let '(rest, fin) := stream_rounds household_id cursor rounds in (sent ++ rest, fin)
          | IDLE =>
              let '(rest, fin) := stream_rounds household_id cursor rounds in
              (sent ++ StreamKeepAlive :: rest, fin)
          | LOST =>
              match drain household_id (sr_final r) cursor with
              | Raise e => (sent, StreamFailed e)
              | Ok arrivals => (sent ++ (NotificationArrival <$> arrivals), StreamClosed)
              end
          end
      end
  end.

(** Whether the signal could be attached; when not, the rows the plain read finds. *)
Inductive attach_outcome := Attached | Unavailable (d : Database).

Definition NotificationStreamService_stream (household_id : HouseholdId)
    (since : option NotificationId) (attach : attach_outcome) (rounds : list stream_round) :
    list NotificationStreamEvent * stream_end :=
  match attach with
  | Unavailable d =>
      match drain household_id d since with
      | Raise e => ([StreamOpened true], StreamFailed e)
      | Ok arrivals => (StreamOpened true :: (NotificationArrival <$> arrivals), StreamClosed)
      end
  | Attached =>
      let '(events, fin) := stream_rounds household_id since rounds in
      (StreamOpened false :: events, fin)
  end.

(** [_cursor]: an explicit [since] wins over the header of a reconnecting client. *)
Definition stream_cursor (since last_event_id : option uuid) : option NotificationId :=
  match since with
  | Some raw => Some (Uuid raw)
  | None => Uuid <$> last_event_id
  end.

(** ** Request and wait

    The handler of [/pending]: each read is given the rows it finds.  [subscribe] and
    [wait] raise [NotificationChannelError] as the port does; a wait that signals is
    followed by a read. *)
Inductive wait_step := Signalled (d : Database) | TimedOut | ChannelLost.

Inductive pending_answer := Answer (items : list View) | NoContent.

Definition answer_if_any (items : list View) (otherwise : result pending_answer) :
    result pending_answer :=
  match items with [] => otherwise | _ => Ok (Answer items) end.

(** The last read of the handler. *)
Definition answer_at_last (household_id : HouseholdId) (d : Database) : result pending_answer :=
  items ← pending_since d household_id None; answer_if_any items (Ok NoContent).

(** The loop of waits until the deadline; a loop that was given no more waits has reached
    it. *)
Fixpoint wait_rounds (household_id : HouseholdId) (waits : list wait_step) (last_read : Database) :
    result pending_answer :=
  match waits with
  | Signalled d :: waits =>
      items ← pending_since d household_id None;
      answer_if_any items (wait_rounds household_id waits last_read)
  | TimedOut :: _ | ChannelLost :: _ | [] => answer_at_last household_id last_read
  end.

Definition list_pending (household_id : HouseholdId) (positive_timeout : bool)
    (first_read : Database) (subscribed : option Database) (waits : list wait_step)
    (last_read : Database) : result pending_answer :=
  items ← pending_since first_read household_id None;
  answer_if_any items
    (if negb positive_timeout then Ok NoContent
     else match subscribed with
          | None => answer_at_last household_id last_read
          | Some d =>
              items ← pending_since d household_id None;
              answer_if_any items (wait_rounds household_id waits last_read)
          end).

(** ** The pusher *)

Definition is_channel_error (e : exn) : bool :=
  match e with NotificationChannelError => true | _ => false end.

(** [channel] is [NotificationChannel.publish]. *)
Definition NotificationPusher_handle (channel : HouseholdId → result unit) (e : DomainEvent) :
    tx unit :=
  match body e with
  | NotificationCreated _ household_id _ _ _ =>
      tx_except (tx_lift (channel household_id)) is_channel_error (λ _, mret tt)
  | _ => mret tt
  end.

Definition NotificationPusher (channel : HouseholdId → result unit) : Consumer :=
  mkConsumer "notification-push" ["NotificationCreated"] (NotificationPusher_handle channel).

(** ** Lemmas *)

(** What a stream relies on in one database: rows under their own identifier, of a known
    type, with identifiers in the order of creation. *)
Record orderly (h : HouseholdId) (d : Database) : Prop := mkOrderly {
  od_keyed : ∀ k m, db_notifications d !! k = Some m → nm_id m = k;
  od_readable : ∀ k m, db_notifications d !! k = Some m → is_ok (notification_to_domain m) = true;
  od_ordered : ∀ k1 m1 k2 m2,
    db_notifications d !! k1 = Some m1 → db_notifications d !! k2 = Some m2 →
    nm_household_id m1 = uuid_value h → nm_household_id m2 = uuid_value h →
    (nm_created_at m1 < nm_created_at m2)%Z → (k1 < k2)%N }.

(** How the household's rows change between two reads: a row keeps its household and is
    not unread again, and a row that appears has a greater identifier than those before. *)
Definition evolves (h : HouseholdId) (d d' : Database) : Prop :=
  ∀ k m', db_notifications d' !! k = Some m' → nm_household_id m' = uuid_value h →
    match db_notifications d !! k with
    | Some m => nm_household_id m = uuid_value h ∧ (nm_read_at m' = None → nm_read_at m = None)
    | None => ∀ k0 m0, db_notifications d !! k0 = Some m0 → nm_household_id m0 = uuid_value h →
        (k0 < k)%N
    end.

Lemma mapM_result_total {A B} (f : A → result B) (l : list A) :
  (∀ a, a ∈ l → is_ok (f a) = true) → ∃ l', mapM_result f l = Ok l'.
Proof.
  induction l as [|a l IH]; intros H; [by eexists|]. cbn.
  pose proof (H a ltac:(by left)) as Ha. destruct (f a); [|done]. cbn.
  destruct IH as [l' ->]; [intros; apply H; by right|]. by eexists.
Qed.

Lemma length_mapM_result {A B} (f : A → result B) l l' :
  mapM_result f l = Ok l' → length l' = length l.
Proof.
  revert l'. induction l as [|a l IH]; cbn; intros l' H; [by injection H as <-|].
  apply bind_Ok in H as (b & _ & H). apply bind_Ok in H as (bs & Hbs & [= <-]). cbn.
  by rewrite (IH _ Hbs).
Qed.

Lemma mapM_result_fmap {A B C} (f : A → result B) (g : B → C) (g' : A → C) l l' :
  (∀ a b, f a = Ok b → g b = g' a) → mapM_result f l = Ok l' → g <$> l' = g' <$> l.
Proof.
  intros Hg. revert l'. induction l as [|a l IH]; cbn; intros l' H; [by injection H as <-|].
  apply bind_Ok in H as (b & Hb & H). apply bind_Ok in H as (bs & Hbs & [= <-]). cbn.
  by rewrite (Hg _ _ Hb), (IH _ Hbs).
Qed.

Lemma notification_to_domain_id m n : notification_to_domain m = Ok n → nt_id n = Uuid (nm_id m).
Proof. unfold notification_to_domain. intros H. inv_result. done. Qed.

Definition arrival_ids (vs : list View) : list uuid := uuid_value <$> omap notification_view_id vs.

Lemma pending_since_eq d h c :
  pending_since d h c =
  mbind (M := result) (λ ns, Ok (fmap (M := list) NotificationView_from_domain ns))
    (mapM_result notification_to_domain (pending_rows d h c)).
Proof.
  unfold pending_since, ListPendingNotifications_handle, notifications_list_pending.
  unfold mbind, tx_bind, query, tx_lift. cbn [open_session ss_conflict ss_view].
  destruct (mapM_result notification_to_domain (pending_rows d h c)); reflexivity.
Qed.

(** A read finds the rows it asks for, as views. *)
Lemma pending_since_ids d h c vs :
  pending_since d h c = Ok vs → arrival_ids vs = nm_id <$> pending_rows d h c.
Proof.
  rewrite pending_since_eq. intros (ns & Hns & [= <-])%bind_Ok. unfold arrival_ids.
  rewrite <- (mapM_result_fmap _ (λ n, uuid_value (nt_id n)) nm_id _ _
    (λ m n H, f_equal uuid_value (notification_to_domain_id m n H)) Hns).
  clear. induction ns as [|n ns IH]; [done|]. cbn. by f_equal.
Qed.

Lemma elem_of_pending d h c m :
  m ∈ pending_rows d h c ↔
  (∃ k, db_notifications d !! k = Some m) ∧ nm_household_id m = uuid_value h ∧
  nm_read_at m = None ∧ match c with Some i => (uuid_value i < nm_id m)%N | None => True end.
Proof.
  unfold pending_rows. rewrite elem_of_select_rows, !andb_true_iff, !bool_decide_eq_true.
  destruct c; [rewrite bool_decide_eq_true|]; naive_solver.
Qed.

Lemma pending_since_total d h c : orderly h d → ∃ vs, pending_since d h c = Ok vs.
Proof.
  intros Hd. rewrite pending_since_eq.
  destruct (mapM_result_total notification_to_domain (pending_rows d h c)) as [ns ->].
  - intros m [[k Hk] _]%elem_of_pending. by apply (od_readable _ _ Hd k).
  - by eexists.
Qed.

Lemma pending_rows_NoDup d h c :
  map_Forall (λ k m, nm_id m = k) (db_notifications d) → NoDup (nm_id <$> pending_rows d h c).
Proof.
  intros Hk. unfold pending_rows, select_rows. rewrite merge_sort_Permutation.
  apply NoDup_fmap_filter. rewrite <- list_fmap_compose.
  assert ((nm_id ∘ snd) <$> map_to_list (db_notifications d) = (map_to_list (db_notifications d)).*1)
    as ->; [|apply NoDup_fst_map_to_list].
  apply list_fmap_ext. intros i [k v] Hi%list_elem_of_lookup_2%elem_of_map_to_list.
  cbn. by apply Hk.
Qed.

(** In an orderly database a read is in the order of the identifiers. *)
Lemma pending_rows_sorted d h c :
  orderly h d → StronglySorted N.lt (nm_id <$> pending_rows d h c).
Proof.
  intros Hd. set (l := pending_rows d h c).
  assert (NoDup (nm_id <$> l)) as Hnd
    by (apply pending_rows_NoDup; intros ? ?; apply (od_keyed _ _ Hd)).
  assert (Sorted (λ a b, lex_le (nm_created_at a, Z.of_N (nm_id a)) (nm_created_at b, Z.of_N (nm_id b))) l)
    as Hs.
  { unfold l, pending_rows, select_rows. apply Sorted_merge_sort.
    intros a b. destruct (total lex_le (nm_created_at a, Z.of_N (nm_id a)) (nm_created_at b, Z.of_N (nm_id b))); auto. }
  apply Sorted_StronglySorted in Hs.
  2: { intros a b c' H1 H2. by etrans. }
  apply StronglySorted_lookup_2. intros i j x y Hij Hi Hj.
  apply list_lookup_fmap_Some in Hi as (m1 & -> & Hi). apply list_lookup_fmap_Some in Hj as (m2 & -> & Hj).
  pose proof (StronglySorted_lookup_1 _ _ _ _ _ _ Hs Hi Hj Hij) as Hle.
  assert (nm_id m1 ≠ nm_id m2) as Hne.
  { intros E. assert (i = j); [|lia]. apply (NoDup_lookup _ i j (nm_id m1) Hnd);
      rewrite list_lookup_fmap, ?Hi, ?Hj; cbn; congruence. }
  destruct (proj1 (elem_of_pending d h c m1) (list_elem_of_lookup_2 _ _ _ Hi)) as ([k1 Hk1] & Hh1 & _).
  destruct (proj1 (elem_of_pending d h c m2) (list_elem_of_lookup_2 _ _ _ Hj)) as ([k2 Hk2] & Hh2 & _).
  pose proof (od_keyed _ _ Hd _ _ Hk1). pose proof (od_keyed _ _ Hd _ _ Hk2).
  destruct Hle as [Hlt|[_ Hle]]; cbn in *; [|lia].
  pose proof (od_ordered _ _ Hd _ _ _ _ Hk1 Hk2 Hh1 Hh2 Hlt). lia.
Qed.

(** *** Reads past a cursor *)

(** The rows the stream's reads find, in turn. *)
Fixpoint reads_of (rounds : list stream_round) : list Database :=
  match rounds with
  | [] => []
  | r :: rounds =>
      sr_read r :: match sr_wait r with LOST => [sr_final r] | _ => reads_of rounds end
  end.

(** What successive reads deliver, each past the last one delivered. *)
Fixpoint delivered (h : HouseholdId) (c : option NotificationId) (ds : list Database) :
    list uuid :=
  match ds with
  | [] => []
  | d :: ds =>
      match pending_since d h c with
      | Ok vs => arrival_ids vs ++ delivered h (cursor_after c vs) ds
      | Raise _ => []
      end
  end.

(** The notifications a stream yielded. *)
Definition arrivals (events : list NotificationStreamEvent) : list uuid :=
  arrival_ids (omap (λ e, match e with NotificationArrival v => Some v | _ => None end) events).

Lemma arrivals_app es1 es2 : arrivals (es1 ++ es2) = arrivals es1 ++ arrivals es2.
Proof. unfold arrivals, arrival_ids. by rewrite !omap_app, fmap_app. Qed.

Lemma arrivals_sent vs : arrivals (NotificationArrival <$> vs) = arrival_ids vs.
Proof.
  unfold arrivals. f_equal. induction vs as [|v vs IH]; [done|]. cbn. by rewrite IH.
Qed.

Lemma stream_rounds_arrivals h c rounds :
  arrivals (stream_rounds h c rounds).1 = delivered h c (reads_of rounds).
Proof.
  revert c. induction rounds as [|r rounds IH]; intros c; [done|].
  cbn [stream_rounds reads_of delivered]. unfold drain.
  destruct (pending_since (sr_read r) h c) as [vs|e]; [|done].
  specialize (IH (cursor_after c vs)). destruct (sr_wait r).
  - destruct (stream_rounds h (cursor_after c vs) rounds) as [rest fin]. cbn [fst] in *.
    by rewrite arrivals_app, arrivals_sent, IH.
  - destruct (stream_rounds h (cursor_after c vs) rounds) as [rest fin]. cbn [fst] in *.
    rewrite arrivals_app, arrivals_sent. f_equal. exact IH.
  - cbn [delivered]. destruct (pending_since (sr_final r) h (cursor_after c vs)) as [vs'|e]; cbn [fst].
    + by rewrite arrivals_app, !arrivals_sent, app_nil_r.
    + by rewrite arrivals_sent, app_nil_r.
Qed.

(** Whether the signal is lost in some round. *)
Definition signal_lost (rounds : list stream_round) : bool :=
  existsb (λ r, match sr_wait r with LOST => true | _ => false end) rounds.

Lemma stream_rounds_end h c rounds :
  Forall (orderly h) (reads_of rounds) →
  (stream_rounds h c rounds).2 = if signal_lost rounds then StreamClosed else StreamOpen.
Proof.
  revert c. induction rounds as [|r rounds IH]; intros c Hd; [done|].
  cbn [stream_rounds reads_of] in *. apply Forall_cons in Hd as [Hd Hds]. unfold drain.
  destruct (pending_since_total (sr_read r) h c Hd) as [vs ->]. unfold signal_lost. cbn [existsb].
  destruct (sr_wait r) eqn:Ew; cbn [orb].
  1,2: specialize (IH (cursor_after c vs) Hds); by destruct (stream_rounds _ _ rounds).
  apply Forall_cons in Hds as [Hf _].
  by destruct (pending_since_total (sr_final r) h (cursor_after c vs) Hf) as [vs' ->].
Qed.

(** The position of a cursor, and what it has passed. *)
Definition beyond (c : option NotificationId) (i : uuid) : Prop :=
  match c with Some x => (uuid_value x < i)%N | None => True end.

Lemma cursor_after_last c vs :
  cursor_after c vs =
  match last (arrival_ids vs) with Some i => Some (Uuid i) | None => c end.
Proof.
  unfold cursor_after, arrival_ids. rewrite fmap_last.
  destruct (last (omap notification_view_id vs)) as [[i]|]; done.
Qed.

Lemma sorted_last l (i j : uuid) :
  StronglySorted N.lt l → last l = Some i → j ∈ l → (j ≤ i)%N.
Proof.
  intros Hs Hl Hj. destruct (last_Some l i) as [H _]. destruct (H Hl) as [l' ->].
  apply elem_of_app in Hj as [Hj|Hj%list_elem_of_singleton]; [|subst; lia].
  assert (j < i)%N; [|lia]. apply (StronglySorted_app_1_elem_of N.lt l' [i]); [done..|by left].
Qed.

Lemma StronglySorted_app_lt l1 l2 (c : option NotificationId) :
  StronglySorted N.lt l1 → StronglySorted N.lt l2 →
  (∀ i, i ∈ l2 → match last l1 with Some x => (x < i)%N | None => True end) →
  StronglySorted N.lt (l1 ++ l2).
Proof.
  intros H1 H2 Hb. apply StronglySorted_app_2; [|done..]. intros i j Hi Hj.
  specialize (Hb j Hj). destruct (last l1) as [x|] eqn:E.
  - pose proof (sorted_last _ _ _ H1 E Hi). lia.
  - apply last_None in E. subst. by apply not_elem_of_nil in Hi.
Qed.

(** The reads of one stream deliver past the cursor, in order and without repetition, and
    deliver whatever any of them finds pending. *)
Lemma delivered_complete h c ds :
  Forall (orderly h) ds → ForallOrdPairs (evolves h) ds →
  StronglySorted N.lt (delivered h c ds) ∧ Forall (beyond c) (delivered h c ds) ∧
  (∀ d m, d ∈ ds → m ∈ pending_rows d h c → nm_id m ∈ delivered h c ds).
Proof.
  revert c. induction ds as [|d ds IH]; intros c Hds Hev.
  { split_and!; [constructor|constructor|by intros ? ? ?%not_elem_of_nil]. }
  apply Forall_cons in Hds as [Hd Hds]. inversion Hev as [|? ? Hnext Hev']; subst.
  cbn [delivered]. destruct (pending_since_total d h c Hd) as [vs Hvs]. rewrite Hvs.
  pose proof (pending_since_ids _ _ _ _ Hvs) as Hids.
  pose proof (pending_rows_sorted d h c Hd) as Hsorted. rewrite <- Hids in Hsorted.
  destruct (IH (cursor_after c vs) Hds Hev') as (Hs & Hb & Hall). clear IH.
  assert (Forall (beyond c) (arrival_ids vs)) as Hbeyond.
  { rewrite Hids. apply Forall_forall. intros i (m & -> & Hm)%list_elem_of_fmap.
    by apply elem_of_pending in Hm as (_ & _ & _ & ?). }
  rewrite cursor_after_last in Hb.
  assert (Forall (beyond c) (delivered h (cursor_after c vs) ds)) as Hbeyond'.
  { rewrite cursor_after_last. destruct (last (arrival_ids vs)) as [x|] eqn:El; [|done].
    eapply Forall_impl; [exact Hb|]. cbn. intros i Hi. apply last_Some_elem_of in El.
    rewrite Forall_forall in Hbeyond. specialize (Hbeyond _ El). destruct c; cbn in *; [lia|done]. }
  split_and!.
  - apply StronglySorted_app_lt; [exact c|done..|]. intros i Hi. rewrite Forall_forall in Hb.
    specialize (Hb i). rewrite cursor_after_last in Hi. specialize (Hb Hi).
    by destruct (last (arrival_ids vs)).
  - by apply Forall_app.
  - intros d' m Hin Hm. apply elem_of_app. apply elem_of_cons in Hin as [->|Hin].
    { left. rewrite Hids. by apply list_elem_of_fmap_2. }
    pose proof Hm as ([k Hk] & Hh & Hr & Hc)%elem_of_pending.
    assert (nm_id m = k) as Hmk by (rewrite Forall_forall in Hds; by apply (od_keyed _ _ (Hds _ Hin))).
    destruct (last (arrival_ids vs)) as [x|] eqn:El.
    2: { right. apply (Hall d'); [done|]. rewrite cursor_after_last, El. done. }
    destruct (decide (x < k)%N) as [Hlt|Hge].
    { right. apply (Hall d'); [done|]. rewrite cursor_after_last, El.
      apply elem_of_pending. split_and!; [by exists k|done..|]. cbn. lia. }
    left. rewrite Forall_forall in Hnext. pose proof (Hnext _ Hin k m Hk Hh) as He.
    apply last_Some_elem_of in El. rewrite Hids in El.
    apply list_elem_of_fmap in El as (m0 & -> & Hm0).
    pose proof Hm0 as ([k0 Hk0] & Hh0 & _)%elem_of_pending.
    pose proof (od_keyed _ _ Hd _ _ Hk0) as Hk0'.
    destruct (db_notifications d !! k) as [m1|] eqn:Ek; [|specialize (He _ _ Hk0 Hh0); lia].
    destruct He as [Hh1 Hr1]. rewrite Hids. apply list_elem_of_fmap.
    exists m1. pose proof (od_keyed _ _ Hd _ _ Ek). split; [congruence|].
    apply elem_of_pending. split_and!; [by exists k|done|by apply Hr1|].
    destruct c; [|done]. cbn in *. lia.
Qed.

(** ** A client across its connections *)

(** The reads one connection makes. *)
Definition connection_reads (attach : attach_outcome) (rounds : list stream_round) :
    list Database :=
  match attach with Attached => reads_of rounds | Unavailable d => [d] end.

Record connection := mkConnection { cn_attach : attach_outcome; cn_rounds : list stream_round }.

Definition connection_stream (h : HouseholdId) (c : option NotificationId) (cn : connection) :
    list NotificationStreamEvent * stream_end :=
  NotificationStreamService_stream h c (cn_attach cn) (cn_rounds cn).

(** A client of server-sent events: it asks for the same [since] every time it connects and
    sends the identifier of the last event it received. *)
Fixpoint client_streams (h : HouseholdId) (since last_event_id : option uuid)
    (connections : list connection) : list (list NotificationStreamEvent * stream_end) :=
  match connections with
  | [] => []
  | cn :: connections =>
      let stream := connection_stream h (stream_cursor since last_event_id) cn in
      let received :=
        match last (arrivals stream.1) with Some i => Some i | None => last_event_id end in
      stream :: client_streams h since received connections
  end.

Definition received (streams : list (list NotificationStreamEvent * stream_end)) : list uuid :=
  streams ≫= λ s, arrivals s.1.

Definition client_reads (connections : list connection) : list Database :=
  connections ≫= λ cn, connection_reads (cn_attach cn) (cn_rounds cn).

(** How a connection opens and how it is left. *)
Definition opens_and_ends (cn : connection) (s : list NotificationStreamEvent * stream_end) : Prop :=
  match cn_attach cn with
  | Unavailable _ => head s.1 = Some (StreamOpened true) ∧ s.2 = StreamClosed
  | Attached => head s.1 = Some (StreamOpened false) ∧
      s.2 = if signal_lost (cn_rounds cn) then StreamClosed else StreamOpen
  end.

Lemma connection_arrivals h c cn :
  arrivals (connection_stream h c cn).1 =
  delivered h c (connection_reads (cn_attach cn) (cn_rounds cn)).
Proof.
  destruct cn as [[|d] rounds]; unfold connection_stream; cbn [cn_attach cn_rounds connection_reads].
  - cbn [NotificationStreamService_stream]. rewrite <- stream_rounds_arrivals.
    by destruct (stream_rounds h c rounds).
  - cbn [NotificationStreamService_stream delivered]. unfold drain.
    destruct (pending_since d h c); [|done]. cbn [fst]. rewrite app_nil_r. apply arrivals_sent.
Qed.

Lemma connection_ends h c cn :
  Forall (orderly h) (connection_reads (cn_attach cn) (cn_rounds cn)) →
  opens_and_ends cn (connection_stream h c cn).
Proof.
  destruct cn as [[|d] rounds]; unfold connection_stream, opens_and_ends;
    cbn [cn_attach cn_rounds connection_reads]; intros Hd.
  - cbn [NotificationStreamService_stream]. pose proof (stream_rounds_end h c rounds Hd) as He.
    by destruct (stream_rounds h c rounds).
  - rewrite Forall_singleton in Hd. cbn [NotificationStreamService_stream]. unfold drain.
    by destruct (pending_since_total d h c Hd) as [vs ->].
Qed.

(** Successive reads resume where the ones before left. *)
Lemma delivered_app h c ds1 ds2 :
  Forall (orderly h) ds1 →
  delivered h c (ds1 ++ ds2) =
  delivered h c ds1 ++
  delivered h (match last (delivered h c ds1) with Some i => Some (Uuid i) | None => c end) ds2.
Proof.
  revert c. induction ds1 as [|d ds1 IH]; intros c Hds; [done|].
  apply Forall_cons in Hds as [Hd Hds]. cbn [delivered app].
  destruct (pending_since_total d h c Hd) as [vs ->]. rewrite IH by done.
  rewrite <- app_assoc. do 2 f_equal. rewrite last_app, cursor_after_last.
  by destruct (last (delivered h _ ds1)), (last (arrival_ids vs)).
Qed.

Lemma client_received h last_event_id connections :
  Forall (orderly h) (client_reads connections) →
  received (client_streams h None last_event_id connections) =
  delivered h (Uuid <$> last_event_id) (client_reads connections).
Proof.
  revert last_event_id. induction connections as [|cn connections IH]; intros i Hd; [done|].
  unfold client_reads in *. cbn [mbind list_bind] in *. apply Forall_app in Hd as [Hd Hds].
  rewrite delivered_app by done. cbn [client_streams stream_cursor].
  unfold received in *. cbn [mbind list_bind]. rewrite IH, connection_arrivals by done.
  do 2 f_equal. by destruct (last (delivered h _ _)).
Qed.

Lemma client_ends h since i connections :
  Forall (orderly h) (client_reads connections) →
  Forall2 opens_and_ends connections (client_streams h since i connections).
Proof.
  revert i. induction connections as [|cn connections IH]; intros i Hd; [constructor|].
  unfold client_reads in *. cbn [mbind list_bind] in *. apply Forall_app in Hd as [Hd Hds].
  constructor; [by apply connection_ends|by apply IH].
Qed.

(** ** Theorems *)

(** [C25] Over any number of connections, each resumed by the identifier of the last
    notification received, a client receives the household's notifications once each and in
    the order of their identifiers, none at or before its cursor, and every notification
    that is unread at any of the reads; each connection says whether the signal was reached
    and ends, without failing, exactly when it was not or was lost.  The reads must find
    identifiers in the order of creation, and a notification that appears between two reads
    must have a greater identifier than those before it. *)
Theorem stream_delivers_once (h : HouseholdId) (last_event_id : option uuid)
    (connections : list connection)
    (Horderly : Forall (orderly h) (client_reads connections))
    (Hevolves : ForallOrdPairs (evolves h) (client_reads connections)) :
  let streams := client_streams h None last_event_id connections in
  StronglySorted N.lt (received streams) ∧
  Forall (beyond (Uuid <$> last_event_id)) (received streams) ∧
  (∀ d m, d ∈ client_reads connections →
    m ∈ pending_rows d h (Uuid <$> last_event_id) → nm_id m ∈ received streams) ∧
  Forall2 opens_and_ends connections streams.
Proof.
  cbn zeta. rewrite client_received by done.
  destruct (delivered_complete h (Uuid <$> last_event_id) _ Horderly Hevolves) as (? & ? & ?).
  split_and!; [done..|by apply client_ends].
Qed.

(** *** A cursor that is not an order

    [NotificationConsumer] gives a reminder the UUIDv5 of what it reminds of, so the
    identifiers of a household need not follow the order of creation. *)

Lemma pending_rows_past d h c (ms ms' : list NotificationModel) :
  map_Forall (λ k m, nm_id m = k) (db_notifications d) →
  pending_rows d h None = ms → filter (λ m, uuid_value c < nm_id m)%N ms = ms' →
  (length ms' ≤ 1)%nat → pending_rows d h (Some c) = ms'.
Proof.
  intros Hk Hms Hms' Hlen.
  assert (NoDup (nm_id <$> pending_rows d h (Some c))) as Hnd by by apply pending_rows_NoDup.
  assert (NoDup (nm_id <$> ms)) as Hnd' by (subst ms; by apply pending_rows_NoDup).
  assert (pending_rows d h (Some c) ≡ₚ ms') as Hp.
  { apply NoDup_Permutation; [by apply NoDup_fmap_1 in Hnd| |].
    - subst ms'. apply NoDup_filter. by apply NoDup_fmap_1 in Hnd'.
    - intros m. subst ms' ms. rewrite list_elem_of_filter, !elem_of_pending. naive_solver. }
  destruct ms' as [|m [|]]; [by apply Permutation_nil_r in Hp|by apply Permutation_singleton_r in Hp|cbn in Hlen; lia].
Qed.

(** When the earlier of two unread notifications has the greater identifier, a stream
    that is woken once more delivers it twice, and a client that reconnects naming it as the
    last one it received is never given the other: it is unread, and behind the cursor. *)
Theorem cursor_skips_and_repeats (h : HouseholdId) (d : Database) (ma mb : NotificationModel)
    (Hkeyed : map_Forall (λ k m, nm_id m = k) (db_notifications d))
    (Hreadable : map_Forall (λ _ m, is_ok (notification_to_domain m) = true) (db_notifications d))
    (Hpending : pending_rows d h None = [ma; mb])
    (Hbehind : (nm_id mb < nm_id ma)%N) :
  let woken := mkConnection Attached [mkStreamRound d NUDGED d; mkStreamRound d IDLE d] in
  received (client_streams h None None [woken]) = [nm_id ma; nm_id mb; nm_id ma] ∧
  received (client_streams h None (Some (nm_id ma)) [woken]) = [].
Proof.
  cbn zeta.
  assert (∀ c, ∃ vs, pending_since d h c = Ok vs) as Htotal.
  { intros c. rewrite pending_since_eq.
    destruct (mapM_result_total notification_to_domain (pending_rows d h c)) as [ns ->]; [|by eexists].
    intros m [[k Hk] _]%elem_of_pending. by apply (Hreadable k). }
  unfold received. cbn [client_streams mbind list_bind]. rewrite !app_nil_r, !connection_arrivals.
  cbn [cn_attach cn_rounds connection_reads reads_of sr_read sr_wait stream_cursor fmap option_fmap option_map].
  assert (pending_rows d h (Some (Uuid (nm_id mb))) = [ma]) as Hb.
  { apply (pending_rows_past d h _ [ma; mb]); [done..| |cbn; lia].
    rewrite filter_cons_True by (cbn; lia). rewrite filter_cons_False by (cbn; lia). done. }
  assert (pending_rows d h (Some (Uuid (nm_id ma))) = []) as Ha.
  { apply (pending_rows_past d h _ [ma; mb]); [done..| |cbn; lia].
    rewrite !filter_cons_False by (cbn; lia). done. }
  assert (∀ c ms, pending_rows d h c = ms → ∃ vs, pending_since d h c = Ok vs ∧
    arrival_ids vs = nm_id <$> ms ∧
    cursor_after c vs = match last (nm_id <$> ms) with Some i => Some (Uuid i) | None => c end) as Hread.
  { intros c ms <-. destruct (Htotal c) as [vs Hvs]. exists vs.
    rewrite cursor_after_last, (pending_since_ids _ _ _ _ Hvs). done. }
  cbn [delivered].
  destruct (Hread None _ Hpending) as (vs0 & -> & -> & ->). cbn [last fmap list_fmap].
  destruct (Hread _ _ Hb) as (vs1 & -> & -> & _).
  destruct (Hread _ _ Ha) as (vs2 & -> & -> & ->). cbn [last fmap list_fmap].
  destruct (Hread _ _ Ha) as (vs3 & -> & -> & _). done.
Qed.

(** A client that asks for an explicit [since] is given again, on every connection, what it
    had received since then: its [Last-Event-ID] is ignored. *)
Lemma explicit_since_repeats h s i d :
  let l := arrivals (connection_stream h (Some (Uuid s)) (mkConnection (Unavailable d) [])).1 in
  received (client_streams h (Some s) i
    [mkConnection (Unavailable d) []; mkConnection (Unavailable d) []]) = l ++ l.
Proof. cbn zeta. unfold received. cbn [client_streams mbind list_bind]. by rewrite app_nil_r. Qed.

(** *** The request that waits *)

(** The reads the handler makes when none finds anything. *)
Definition request_reads (positive_timeout : bool) (first_read : Database)
    (subscribed : option Database) (waits : list wait_step) (last_read : Database) :
    list Database :=
  first_read ::
  if negb positive_timeout then [] else
  match subscribed with
  | None => [last_read]
  | Some d => d :: (fix signalled ws :=
      match ws with Signalled d :: ws => d :: signalled ws | _ => [last_read] end) waits
  end.

(** The answer comes from the first read that finds something. *)
Definition answered_by (h : HouseholdId) (reads : list Database) (r : result pending_answer) : Prop :=
  match r with
  | Ok NoContent => Forall (λ d, pending_rows d h None = []) reads
  | Ok (Answer vs) => ∃ before d after, reads = before ++ d :: after ∧
      Forall (λ d, pending_rows d h None = []) before ∧ pending_rows d h None ≠ [] ∧
      pending_since d h None = Ok vs
  | Raise _ => False
  end.

Lemma answered_step h d reads otherwise :
  orderly h d → answered_by h reads otherwise →
  answered_by h (d :: reads)
    (mbind (M := result) (λ vs, answer_if_any vs otherwise) (pending_since d h None)).
Proof.
  intros Hd Hr. destruct (pending_since_total d h None Hd) as [vs Hvs].
  rewrite Hvs. unfold mbind, result_bind.
  pose proof Hvs as Hns. rewrite pending_since_eq in Hns. apply bind_Ok in Hns as (ns & Hns & [= <-]).
  pose proof (length_mapM_result _ _ _ Hns) as Hl.
  destruct (pending_rows d h None) as [|m ms] eqn:Ep; destruct ns as [|n ns]; try done.
  - cbn [answer_if_any fmap list_fmap]. destruct otherwise as [[vs|]|]; cbn [answered_by] in *; [|by constructor|done].
    destruct Hr as (before & d' & after & -> & Hb & ?). exists (d :: before), d', after. split_and!; [done|by constructor|tauto..].
  - cbn -[pending_rows]. exists [], d, reads. rewrite Ep, Hvs. done.
Qed.

(** The request that waits answers with the notifications of the first of its reads
    that finds any, and with no content only when every read, the last one included, found
    none; it never fails for the channel, whether it could not be subscribed or was lost. *)
Theorem waiting_request_outcome (h : HouseholdId) (positive_timeout : bool)
    (first_read : Database) (subscribed : option Database) (waits : list wait_step)
    (last_read : Database)
    (Horderly : Forall (orderly h)
      (request_reads positive_timeout first_read subscribed waits last_read)) :
  answered_by h (request_reads positive_timeout first_read subscribed waits last_read)
    (list_pending h positive_timeout first_read subscribed waits last_read).
Proof.
  unfold request_reads, list_pending in *. apply Forall_cons in Horderly as [Hfirst Hrest].
  apply answered_step; [done|]. destruct positive_timeout; cbn [negb] in *; [|constructor].
  assert (Hlast : orderly h last_read → answered_by h [last_read] (answer_at_last h last_read)).
  { intros Hd. apply (answered_step h last_read [] (Ok NoContent)); [done|constructor]. }
  destruct subscribed as [d|].
  2: { apply Hlast. by inversion Hrest. }
  apply Forall_cons in Hrest as [Hd Hrest]. apply answered_step; [done|]. clear Hfirst Hd.
  induction waits as [|[d'| |] waits IH]; cbn [wait_rounds] in *.
  1,3,4: apply Hlast; by inversion Hrest.
  apply Forall_cons in Hrest as [Hd' Hrest]. apply answered_step; [done|by apply IH].
Qed.

(** The pusher never fails a delivery for the channel. *)
Lemma pusher_survives_channel channel e s :
  (∀ h, is_ok (channel h) = true ∨ channel h = Raise NotificationChannelError) →
  NotificationPusher_handle channel e s = (Ok tt, s).
Proof.
  intros Hc. unfold NotificationPusher_handle. destruct (body e); try done.
  unfold tx_except, tx_lift. destruct (Hc household_id) as [Hok|Herr]; [|by rewrite Herr].
  by destruct (channel household_id) as [[]|].
Qed.

(** ** Witnesses *)

Definition orderly_table (h : HouseholdId) (d : Database) : Prop :=
  map_Forall (λ k m, nm_id m = k ∧ is_ok (notification_to_domain m) = true ∧
    (nm_household_id m = uuid_value h →
     map_Forall (λ k2 m2, nm_household_id m2 = uuid_value h →
       (nm_created_at m < nm_created_at m2)%Z → (k < k2)%N) (db_notifications d)))
    (db_notifications d).

#[export] Instance orderly_table_dec h d : Decision (orderly_table h d).
Proof. apply map_Forall_dec. intros. apply _. Defined.

Lemma orderly_checked h d : orderly_table h d ↔ orderly h d.
Proof.
  split.
  - intros Hc. split.
    + intros k m Hm. by destruct (Hc k m Hm).
    + intros k m Hm. by destruct (Hc k m Hm) as (_ & ? & _).
    + intros k1 m1 k2 m2 H1 H2 Hh1 Hh2. destruct (Hc k1 m1 H1) as (_ & _ & Ho). by apply (Ho Hh1 k2 m2).
  - intros [Hk Hr Ho] k m Hm. split_and!; [by apply Hk|by eapply Hr|].
    intros ? k2 m2 Hm2 ??. by eapply (Ho k m k2 m2).
Qed.

#[export] Instance orderly_dec h d : Decision (orderly h d).
Proof.
  destruct (decide (orderly_table h d)); [left|right]; by rewrite <- orderly_checked.
Defined.

#[export] Instance evolves_dec h d d' : Decision (evolves h d d').
Proof.
  assert (∀ k m', Decision (nm_household_id m' = uuid_value h →
    match db_notifications d !! k with
    | Some m => nm_household_id m = uuid_value h ∧ (nm_read_at m' = None → nm_read_at m = None)
    | None => map_Forall (λ k0 m0, nm_household_id m0 = uuid_value h → (k0 < k)%N)
        (db_notifications d)
    end)) as Hdec by (intros k m'; destruct (db_notifications d !! k); apply _).
  exact (map_Forall_dec _ (db_notifications d')).
Defined.

Definition demo_notification (i : uuid) (at_ : datetime) (read_at : option datetime) :
    uuid * NotificationModel :=
  (i, mkNotificationModel i 7 "watering_due" ∅ at_ read_at).

Definition demo_rows (rows : list (uuid * NotificationModel)) : Database :=
  set_notifications empty_database (list_to_map rows).

(** A notification, a second one while the stream is idle, the first one read, and a third
    one after the signal was lost. *)
Definition demo_connections : list connection :=
  let d0 := demo_rows [demo_notification 1 10 None] in
  let d1 := demo_rows [demo_notification 1 10 None; demo_notification 2 20 None] in
  let d2 := demo_rows [demo_notification 1 10 (Some 25%Z); demo_notification 2 20 None] in
  let d3 := demo_rows [demo_notification 1 10 (Some 25%Z); demo_notification 2 20 None;
    demo_notification 3 30 None] in
  [mkConnection Attached [mkStreamRound d0 IDLE d0; mkStreamRound d1 LOST d2];
   mkConnection (Unavailable d3) []].

Lemma stream_delivers_once_witness :
  let streams := client_streams (Uuid 7) None None demo_connections in
  received streams = [1; 2; 3]%N ∧
  (StronglySorted N.lt (received streams) ∧
   Forall (beyond None) (received streams) ∧
   (∀ d m, d ∈ client_reads demo_connections →
     m ∈ pending_rows d (Uuid 7) None → nm_id m ∈ received streams) ∧
   Forall2 opens_and_ends demo_connections streams).
Proof.
  split; [vm_compute; reflexivity|].
  apply (stream_delivers_once (Uuid 7) None demo_connections).
  - apply (bool_decide_unpack _). vm_compute. exact I.
  - cbn [client_reads demo_connections mbind list_bind connection_reads reads_of cn_attach cn_rounds
      sr_read sr_wait sr_final app].
    repeat (apply FOP_cons; [apply (bool_decide_unpack _); vm_compute; exact I|]). constructor.
Defined.

Lemma cursor_skips_and_repeats_witness :
  let d := demo_rows [demo_notification 9 10 None; demo_notification 2 20 None] in
  let woken := mkConnection Attached [mkStreamRound d NUDGED d; mkStreamRound d IDLE d] in
  received (client_streams (Uuid 7) None None [woken]) = [9; 2; 9]%N ∧
  received (client_streams (Uuid 7) None (Some 9%N) [woken]) = [].
Proof.
  apply (cursor_skips_and_repeats (Uuid 7)
    (demo_rows [demo_notification 9 10 None; demo_notification 2 20 None])
    (demo_notification 9 10 None).2 (demo_notification 2 20 None).2).
  - apply (bool_decide_unpack _). vm_compute. exact I.
  - apply (bool_decide_unpack _). vm_compute. exact I.
  - vm_compute. reflexivity.
  - cbn. lia.
Defined.

Lemma waiting_request_outcome_witness :
  let d := demo_rows [demo_notification 1 10 None] in
  let answer := list_pending (Uuid 7) true empty_database (Some empty_database)
    [Signalled empty_database; ChannelLost] d in
  is_ok answer = true ∧
  answered_by (Uuid 7) (request_reads true empty_database (Some empty_database)
    [Signalled empty_database; ChannelLost] d) answer.
Proof.
  split; [vm_compute; reflexivity|].
  apply (waiting_request_outcome (Uuid 7) true empty_database (Some empty_database)
    [Signalled empty_database; ChannelLost] (demo_rows [demo_notification 1 10 None])).
  apply (bool_decide_unpack _). vm_compute. exact I.
Defined.
