(* ===== verification/Fanout.v ===== *)
(** One subscription per household, however many streams: [HouseholdSignal],
    [_HouseholdFanout] and [HouseholdSignalFanout] of
    [application/notifications/stream.py], as a machine over the objects of one process.

    A step is what the event loop runs between two awaits.  The objects are a heap: a
    fan-out, a signal and a pump (the task a fan-out creates) are named by numbers. *)

From S2P Require Import Prelude Domain NotificationStream.

(** ** The objects *)

Record HouseholdSignal := mkHouseholdSignal {
  sg_fanout : nat;
  sg_wakeup : bool;
  sg_lost : bool;
  sg_released : bool }.

Record HouseholdFanout := mkHouseholdFanout {
  fo_household : HouseholdId;
  fo_signals : gset nat;
  fo_task : option nat;
  fo_ready : bool;
  fo_failure : bool }.

(** A pump: subscribing, reading nudges, cancelled and leaving the subscription, over. *)
Inductive PumpState := Opening | Listening | Cancelled | Ended.

#[export] Instance PumpState_eq_dec : EqDecision PumpState.
Proof. solve_decision. Defined.

Record Pump := mkPump { pm_fanout : nat; pm_state : PumpState }.

(** [fs_awaiting]: the fan-outs whose [detach] awaits the pump it cancelled. *)
Record FanoutState := mkFanoutState {
  fs_households : gmap uuid nat;
  fs_fanouts : gmap nat HouseholdFanout;
  fs_signals : gmap nat HouseholdSignal;
  fs_pumps : gmap nat Pump;
  fs_awaiting : gset (nat * nat) }.

Definition no_streams : FanoutState := mkFanoutState ∅ ∅ ∅ ∅ ∅.

Definition put_fanout (f : nat) (fo : HouseholdFanout) (st : FanoutState) : FanoutState :=
  mkFanoutState (fs_households st) (<[f := fo]> (fs_fanouts st)) (fs_signals st) (fs_pumps st)
    (fs_awaiting st).
Definition put_signals (v : gmap nat HouseholdSignal) (st : FanoutState) : FanoutState :=
  mkFanoutState (fs_households st) (fs_fanouts st) v (fs_pumps st) (fs_awaiting st).
Definition put_pump (p : nat) (pm : Pump) (st : FanoutState) : FanoutState :=
  mkFanoutState (fs_households st) (fs_fanouts st) (fs_signals st) (<[p := pm]> (fs_pumps st))
    (fs_awaiting st).
Definition put_registry (v : gmap uuid nat) (st : FanoutState) : FanoutState :=
  mkFanoutState v (fs_fanouts st) (fs_signals st) (fs_pumps st) (fs_awaiting st).
Definition put_awaiting (v : gset (nat * nat)) (st : FanoutState) : FanoutState :=
  mkFanoutState (fs_households st) (fs_fanouts st) (fs_signals st) (fs_pumps st) v.

(** ** [HouseholdSignal] *)

Definition HouseholdSignal_nudge (s : HouseholdSignal) : HouseholdSignal :=
  mkHouseholdSignal (sg_fanout s) true (sg_lost s) (sg_released s).
Definition HouseholdSignal_lose (s : HouseholdSignal) : HouseholdSignal :=
  mkHouseholdSignal (sg_fanout s) true true (sg_released s).

(** [wait]: [before] is the signal when it is called, [after] when it ends, by its deadline
    or by the event; it does not end while there is neither. *)
Definition HouseholdSignal_wait (deadline : bool) (before after : HouseholdSignal) :
    option (HouseholdSignalState * HouseholdSignal) :=
  if sg_lost before then Some (LOST, before)
  else if deadline then Some (IDLE, after)
  else if sg_wakeup after then
    Some (if sg_lost after then LOST else NUDGED,
      mkHouseholdSignal (sg_fanout after) false (sg_lost after) (sg_released after))
  else None.

(** ** [_HouseholdFanout] *)

Definition HouseholdFanout_new (h : HouseholdId) : HouseholdFanout :=
  mkHouseholdFanout h ∅ None false false.

(** [attach]: [s] and [p] name the signal and the task it creates. *)
Definition HouseholdFanout_attach (f s p : nat) (fo : HouseholdFanout) (st : FanoutState) :
    FanoutState :=
  let st := put_signals (<[s := mkHouseholdSignal f false false false]> (fs_signals st)) st in
  let signals := {[s]} ∪ fo_signals fo in
  match fo_task fo with
  | Some task =>
      put_fanout f (mkHouseholdFanout (fo_household fo) signals (Some task) (fo_ready fo)
        (fo_failure fo)) st
  | None =>
      put_pump p (mkPump f Opening)
        (put_fanout f (mkHouseholdFanout (fo_household fo) signals (Some p) (fo_ready fo)
          (fo_failure fo)) st)
  end.

(** [ready]: blocked, open, or why it is not. *)
Definition HouseholdFanout_ready (fo : HouseholdFanout) : option (result unit) :=
  if fo_ready fo then
    Some (if fo_failure fo then Raise NotificationChannelError else Ok tt)
  else None.

Definition with_task (task : option nat) (fo : HouseholdFanout) : HouseholdFanout :=
  mkHouseholdFanout (fo_household fo) (fo_signals fo) task (fo_ready fo) (fo_failure fo).

(** What [detach] does up to its await; a task that is over is not waited for. *)
Definition HouseholdFanout_detach (f s : nat) (fo : HouseholdFanout) (st : FanoutState) :
    FanoutState :=
  let fo := mkHouseholdFanout (fo_household fo) (fo_signals fo ∖ {[s]}) (fo_task fo)
    (fo_ready fo) (fo_failure fo) in
  let st := put_fanout f fo st in
  match fo_task fo with
  | Some p =>
      if bool_decide (fo_signals fo ≠ ∅) then st
      else match pm_state <$> fs_pumps st !! p with
           | Some Ended | None => put_fanout f (with_task None fo) st
           | Some _ =>
               put_awaiting ({[(f, p)]} ∪ fs_awaiting st) (put_pump p (mkPump f Cancelled) st)
           end
  | None => st
  end.

(** A statement over the signals of a fan-out. *)
Definition for_signals (g : HouseholdSignal → HouseholdSignal) (fo : HouseholdFanout)
    (st : FanoutState) : FanoutState :=
  put_signals (map_imap (λ s sg, Some (if bool_decide (s ∈ fo_signals fo) then g sg else sg))
    (fs_signals st)) st.

(** [_forget]. *)
Definition HouseholdSignalFanout_forget (h : HouseholdId) (f : nat) (st : FanoutState) :
    FanoutState :=
  if bool_decide (fs_households st !! uuid_value h = Some f) then
    put_registry (delete (uuid_value h) (fs_households st)) st
  else st.

(** ** The steps *)

Inductive fanout_event :=
  | EAttach (h : HouseholdId) (f s p : nat) (* a stream attaches; fresh names *)
  | EOpened (p : nat) (* the channel is subscribed *)
  | ENudge (p : nat) (* the subscription's wait answered *)
  | EFailed (p : nat) (* subscribing or waiting raised [NotificationChannelError] *)
  | ERelease (s : nat) (* a stream lets go *)
  | EEnded (p : nat) (* the cancelled task is over *)
  | EResumed (f p : nat) (* the detachments that awaited it go on *)
  | EClose (f : nat) (* [close] tells the streams of a fan-out *)
  | EClear (* [aclose] empties the registry *).

Definition fresh_names (f s p : nat) (st : FanoutState) : bool :=
  bool_decide (fs_fanouts st !! f = None ∧ fs_signals st !! s = None ∧ fs_pumps st !! p = None).

(** [HouseholdSignalFanout.attach] up to the await of [ready]: nothing is awaited inside the
    lock. *)
Definition HouseholdSignalFanout_attach (h : HouseholdId) (f s p : nat) (st : FanoutState) :
    option FanoutState :=
  match fs_households st !! uuid_value h with
  | Some f => fo ← fs_fanouts st !! f; Some (HouseholdFanout_attach f s p fo st)
  | None =>
      let fo := HouseholdFanout_new h in
      Some (HouseholdFanout_attach f s p fo
        (put_registry (<[uuid_value h := f]> (fs_households st)) (put_fanout f fo st)))
  end.

Definition HouseholdSignal_release (s : nat) (st : FanoutState) : option FanoutState :=
  sg ← fs_signals st !! s;
  if sg_released sg then Some st
  else
    fo ← fs_fanouts st !! sg_fanout sg;
    Some (HouseholdFanout_detach (sg_fanout sg) s fo
      (put_signals (<[s := mkHouseholdSignal (sg_fanout sg) (sg_wakeup sg) (sg_lost sg) true]>
        (fs_signals st)) st)).

(** [_pump], by where it is when the loop resumes it. *)
Definition pump_opened (p : nat) (st : FanoutState) : option FanoutState :=
  pm ← fs_pumps st !! p;
  match pm_state pm with
  | Opening =>
      fo ← fs_fanouts st !! pm_fanout pm;
      Some (put_pump p (mkPump (pm_fanout pm) Listening)
        (put_fanout (pm_fanout pm)
          (mkHouseholdFanout (fo_household fo) (fo_signals fo) (fo_task fo) true (fo_failure fo)) st))
  | _ => None
  end.

Definition pump_nudge (p : nat) (st : FanoutState) : option FanoutState :=
  pm ← fs_pumps st !! p;
  match pm_state pm with
  | Listening =>
      fo ← fs_fanouts st !! pm_fanout pm; Some (for_signals HouseholdSignal_nudge fo st)
  | _ => None
  end.

Definition pump_failed (p : nat) (st : FanoutState) : option FanoutState :=
  pm ← fs_pumps st !! p;
  match pm_state pm with
  | Opening | Listening =>
      fo ← fs_fanouts st !! pm_fanout pm;
      let st := put_fanout (pm_fanout pm)
        (mkHouseholdFanout (fo_household fo) (fo_signals fo) (fo_task fo) true true) st in
      Some (put_pump p (mkPump (pm_fanout pm) Ended)
        (HouseholdSignalFanout_forget (fo_household fo) (pm_fanout pm)
          (for_signals HouseholdSignal_lose fo st)))
  | _ => None
  end.

Definition pump_ended (p : nat) (st : FanoutState) : option FanoutState :=
  pm ← fs_pumps st !! p;
  match pm_state pm with
  | Cancelled => Some (put_pump p (mkPump (pm_fanout pm) Ended) st)
  | _ => None
  end.

(** The rest of [detach], after its await. *)
Definition detach_resumed (f p : nat) (st : FanoutState) : option FanoutState :=
  if bool_decide ((f, p) ∈ fs_awaiting st ∧ pm_state <$> fs_pumps st !! p = Some Ended) then
    fo ← fs_fanouts st !! f;
    Some (put_awaiting (fs_awaiting st ∖ {[(f, p)]}) (put_fanout f (with_task None fo) st))
  else None.

Definition fanout_step (e : fanout_event) (st : FanoutState) : option FanoutState :=
  match e with
  | EAttach h f s p =>
      if fresh_names f s p st then HouseholdSignalFanout_attach h f s p st else None
  | EOpened p => pump_opened p st
  | ENudge p => pump_nudge p st
  | EFailed p => pump_failed p st
  | ERelease s => HouseholdSignal_release s st
  | EEnded p => pump_ended p st
  | EResumed f p => detach_resumed f p st
  | EClose f => fo ← fs_fanouts st !! f; Some (for_signals HouseholdSignal_lose fo st)
  | EClear => Some (put_registry ∅ st)
  end.

Fixpoint fanout_run (es : list fanout_event) (st : FanoutState) : option FanoutState :=
  match es with
  | [] => Some st
  | e :: es => st ← fanout_step e st; fanout_run es st
  end.

(** How the rest of [attach] ends: [ready] returned, it raised, or the client went away
    while it waited.  Only [NotificationChannelError] is caught. *)
Inductive attach_end := AttachReady | AttachFailed | AttachCancelled.

Definition attach_cleanup (s : nat) (o : attach_end) : list fanout_event :=
  match o with AttachFailed => [ERelease s] | AttachReady | AttachCancelled => [] end.

(** ** Lemmas *)

(** A pump that still holds, or is about to hold, its subscription. *)
Definition is_live (s : PumpState) : bool :=
  match s with Opening | Listening => true | Cancelled | Ended => false end.

(** No stream attaches to a household while the departure of its last stream awaits the
    cancelled pump, and the registry is emptied when the fan-outs in it are closed. *)
Definition calm (e : fanout_event) (st : FanoutState) : Prop :=
  match e with
  | EAttach h _ _ _ =>
      ∀ f p, fs_households st !! uuid_value h = Some f → (f, p) ∉ fs_awaiting st
  | EClear => ∀ h f fo, fs_households st !! h = Some f → fs_fanouts st !! f = Some fo →
      fo_task fo = None
  | _ => True
  end.

Inductive calm_run : list fanout_event → FanoutState → Prop :=
  | calm_start : calm_run [] no_streams
  | calm_next es e st st' : calm_run es st → calm e st → fanout_step e st = Some st' →
      calm_run (es ++ [e]) st'.

(** What the task of a fan-out is doing. *)
Definition task_ok (st : FanoutState) (f : nat) (fo : HouseholdFanout) : Prop :=
  match fo_task fo with
  | None => fo_signals fo = ∅
  | Some p => ∃ pm, fs_pumps st !! p = Some pm ∧ pm_fanout pm = f ∧
      match pm_state pm with
      | Opening | Listening =>
          fo_signals fo ≠ ∅ ∧ fs_households st !! uuid_value (fo_household fo) = Some f
      | Cancelled => fo_signals fo = ∅ ∧ (f, p) ∈ fs_awaiting st
      | Ended => fo_signals fo = ∅ ∧ (f, p) ∈ fs_awaiting st ∨
          fs_households st !! uuid_value (fo_household fo) ≠ Some f ∧
          ∀ s sg, s ∈ fo_signals fo → fs_signals st !! s = Some sg → sg_lost sg = true
      end
  end.

Record served (st : FanoutState) : Prop := mkServed {
  sv_signals : ∀ s sg, fs_signals st !! s = Some sg →
    ∃ fo, fs_fanouts st !! sg_fanout sg = Some fo ∧ (s ∈ fo_signals fo ↔ sg_released sg = false);
  sv_members : ∀ f fo s, fs_fanouts st !! f = Some fo → s ∈ fo_signals fo →
    ∃ sg, fs_signals st !! s = Some sg ∧ sg_fanout sg = f;
  sv_registry : ∀ h f, fs_households st !! h = Some f →
    ∃ fo, fs_fanouts st !! f = Some fo ∧ uuid_value (fo_household fo) = h;
  sv_pumps : ∀ p pm, fs_pumps st !! p = Some pm →
    ∃ fo, fs_fanouts st !! pm_fanout pm = Some fo ∧
      (pm_state pm ≠ Ended → fo_task fo = Some p);
  sv_awaiting : ∀ f p, (f, p) ∈ fs_awaiting st → ∃ fo, fs_fanouts st !! f = Some fo ∧
    fo_task fo = Some p ∧ fo_signals fo = ∅;
  sv_task : ∀ f fo, fs_fanouts st !! f = Some fo → task_ok st f fo }.

Lemma no_streams_served : served no_streams.
Proof. by split; intros *; cbn; rewrite ?lookup_empty; set_solver. Qed.

Lemma for_signals_lookup g fo st s :
  fs_signals (for_signals g fo st) !! s =
  (λ sg, if bool_decide (s ∈ fo_signals fo) then g sg else sg) <$> fs_signals st !! s.
Proof.
  unfold for_signals, put_signals. cbn [fs_signals]. rewrite map_lookup_imap.
  by destruct (fs_signals st !! s).
Qed.

(** What a statement over signals may change. *)
Definition keeps_signal (g : HouseholdSignal → HouseholdSignal) : Prop :=
  ∀ sg, sg_fanout (g sg) = sg_fanout sg ∧ sg_released (g sg) = sg_released sg ∧
    (sg_lost sg = true → sg_lost (g sg) = true).

Lemma for_signals_served g fo st : keeps_signal g → served st → served (for_signals g fo st).
Proof.
  intros Hg [Hs Hm Hr Hp Ha Ht]. split.
  - intros s sg. rewrite for_signals_lookup. intros (sg0 & H0 & ->)%fmap_Some.
    destruct (Hs _ _ H0) as (fo0 & Hf & Hi). exists fo0.
    case_bool_decide; [destruct (Hg sg0) as (-> & -> & _)|]; done.
  - intros f fo0 s Hf Hin. destruct (Hm _ _ _ Hf Hin) as (sg & H0 & <-). rewrite for_signals_lookup, H0.
    eexists. split; [done|]. case_bool_decide; [by apply Hg|done].
  - exact Hr.
  - exact Hp.
  - exact Ha.
  - intros f fo0 Hf. specialize (Ht f fo0 Hf). unfold task_ok in *.
    destruct (fo_task fo0) as [p|]; [|done]. destruct Ht as (pm & Hpm & Hfp & Hst).
    exists pm. split_and!; [done..|]. destruct (pm_state pm); try done.
    destruct Hst as [?|[Hh Hl]]; [by left|right]. split; [done|]. intros s sg Hin.
    rewrite for_signals_lookup. intros (sg0 & H0 & ->)%fmap_Some.
    specialize (Hl s sg0 Hin H0). case_bool_decide; [by apply Hg|done].
Qed.

(** Only the flags of a fan-out change. *)
Lemma put_flags_served f fo fo' st :
  fs_fanouts st !! f = Some fo → fo_household fo' = fo_household fo →
  fo_signals fo' = fo_signals fo → fo_task fo' = fo_task fo →
  served st → served (put_fanout f fo' st).
Proof.
  intros Hfo Eh Es Et [Hs Hm Hr Hp Ha Ht].
  assert (Hsame : ∀ g go, fs_fanouts st !! g = Some go → ∃ go', fs_fanouts (put_fanout f fo' st) !! g = Some go'
    ∧ fo_household go' = fo_household go ∧ fo_signals go' = fo_signals go ∧ fo_task go' = fo_task go).
  { intros g go Hg. cbn. destruct (decide (f = g)) as [<-|Hne].
    - rewrite lookup_insert_eq. exists fo'. replace go with fo by congruence. done.
    - rewrite lookup_insert_ne by done. by exists go. }
  split.
  - intros s sg H0. destruct (Hs _ _ H0) as (go & Hg & Hi).
    destruct (Hsame _ _ Hg) as (go' & ? & _ & E & _). exists go'. by rewrite E.
  - intros g go s Hg. cbn in Hg. apply lookup_insert_Some in Hg as [[<- <-]|[_ Hg]]; [rewrite Es|]; by apply Hm.
  - intros h g H0. destruct (Hr _ _ H0) as (go & Hg & Hi).
    destruct (Hsame _ _ Hg) as (go' & ? & E & _). exists go'. by rewrite E.
  - intros p pm H0. destruct (Hp _ _ H0) as (go & Hg & Hi).
    destruct (Hsame _ _ Hg) as (go' & ? & _ & _ & E). exists go'. by rewrite E.
  - intros g p H0. destruct (Ha _ _ H0) as (go & Hg & Hi).
    destruct (Hsame _ _ Hg) as (go' & ? & _ & E1 & E2). exists go'. by rewrite E1, E2.
  - intros g go Hg. cbn in Hg. apply lookup_insert_Some in Hg as [[<- <-]|[_ Hg]]; [|by apply Ht].
    specialize (Ht f fo Hfo). unfold task_ok in *. by rewrite Et, Es, Eh.
Qed.

Lemma opened_served p st st' : served st → pump_opened p st = Some st' → served st'.
Proof.
  intros Hst. unfold pump_opened. intros (pm & Hpm & H)%bind_Some.
  destruct (pm_state pm) eqn:Epm; try done. apply bind_Some in H as (fo & Hfo & [= <-]).
  pose proof (put_flags_served (pm_fanout pm) fo (mkHouseholdFanout (fo_household fo)
    (fo_signals fo) (fo_task fo) true (fo_failure fo)) st Hfo eq_refl eq_refl eq_refl Hst) as Hst1.
  set (st1 := put_fanout _ _ st) in *. assert (fs_pumps st1 !! p = Some pm) as Hpm1 by done.
  destruct Hst1 as [Hs Hm Hr Hp Ha Ht]. split; try done.
  - intros q qm. cbn. intros [[<- <-]|[_ Hq]]%lookup_insert_Some; [|by apply Hp]. cbn.
    destruct (Hp _ _ Hpm1) as (go & ? & Hgo). exists go. split; [done|]. intros _. apply Hgo. congruence.
  - intros g go Hg. specialize (Ht g go Hg). unfold task_ok in *. destruct (fo_task go) as [q|]; [|done].
    destruct Ht as (qm & Hqm & Hf & Hq). cbn. destruct (decide (p = q)) as [<-|Hne].
    + rewrite lookup_insert_eq. eexists. split; [done|]. assert (qm = pm) as -> by congruence.
      rewrite Epm in Hq. done.
    + rewrite lookup_insert_ne by done. by exists qm.
Qed.

Lemma nudge_served p st st' : served st → pump_nudge p st = Some st' → served st'.
Proof.
  intros Hst. unfold pump_nudge. intros (pm & Hpm & H)%bind_Some.
  destruct (pm_state pm); try done. apply bind_Some in H as (fo & Hfo & [= <-]).
  apply for_signals_served; [|done]. intros sg. by split_and!.
Qed.

Lemma lose_keeps : keeps_signal HouseholdSignal_lose.
Proof. intros sg. by split_and!. Qed.

(** The task of a live pump's fan-out, and that the fan-out is registered. *)
Lemma live_pump st p pm :
  served st → fs_pumps st !! p = Some pm → is_live (pm_state pm) = true →
  ∃ fo, fs_fanouts st !! pm_fanout pm = Some fo ∧ fo_task fo = Some p ∧ fo_signals fo ≠ ∅ ∧
    fs_households st !! uuid_value (fo_household fo) = Some (pm_fanout pm).
Proof.
  intros Hst Hpm Hl. destruct (sv_pumps _ Hst _ _ Hpm) as (fo & Hfo & Htask).
  assert (fo_task fo = Some p) as Et by (apply Htask; by intros E; rewrite E in Hl).
  exists fo. pose proof (sv_task _ Hst _ _ Hfo) as Ht. unfold task_ok in Ht. rewrite Et in Ht.
  destruct Ht as (pm' & Hpm' & _ & Hc). assert (pm' = pm) as -> by congruence.
  destruct (pm_state pm); try done; destruct Hc; by split_and!.
Qed.

Lemma failed_served p st st' : served st → pump_failed p st = Some st' → served st'.
Proof.
  intros Hst. unfold pump_failed. intros (pm & Hpm & H)%bind_Some.
  assert (is_live (pm_state pm) = true) as Hlive by by destruct (pm_state pm).
  destruct (live_pump _ _ _ Hst Hpm Hlive) as (fo & Hfo & Htask & Hne & Hreg).
  assert (H' : Some st' = Some (put_pump p (mkPump (pm_fanout pm) Ended)
    (HouseholdSignalFanout_forget (fo_household fo) (pm_fanout pm)
      (for_signals HouseholdSignal_lose fo (put_fanout (pm_fanout pm)
        (mkHouseholdFanout (fo_household fo) (fo_signals fo) (fo_task fo) true true) st))))).
  { destruct (pm_state pm); try done; by rewrite Hfo in H. }
  injection H' as ->. clear H.
  pose proof (put_flags_served (pm_fanout pm) fo (mkHouseholdFanout (fo_household fo)
    (fo_signals fo) (fo_task fo) true true) st Hfo eq_refl eq_refl eq_refl Hst) as Hst1.
  apply (for_signals_served _ fo _ lose_keeps) in Hst1.
  assert (Hfo1 : fs_fanouts (for_signals HouseholdSignal_lose fo (put_fanout (pm_fanout pm)
    (mkHouseholdFanout (fo_household fo) (fo_signals fo) (fo_task fo) true true) st)) !! pm_fanout pm
    = Some (mkHouseholdFanout (fo_household fo) (fo_signals fo) (fo_task fo) true true))
    by apply lookup_insert_eq.
  assert (Hlost : ∀ s sg, s ∈ fo_signals fo → fs_signals (for_signals HouseholdSignal_lose fo
    (put_fanout (pm_fanout pm) (mkHouseholdFanout (fo_household fo) (fo_signals fo) (fo_task fo)
      true true) st)) !! s = Some sg → sg_lost sg = true).
  { intros s sg Hs. rewrite for_signals_lookup, bool_decide_true by done. by intros (? & _ & ->)%fmap_Some. }
  set (st1 := for_signals _ _ _) in *.
  assert (fs_households st1 = fs_households st) as Eh by done.
  assert (fs_pumps st1 = fs_pumps st) as Ep by done. clearbody st1.
  unfold HouseholdSignalFanout_forget. rewrite Eh, bool_decide_true by done.
  destruct Hst1 as [Hs Hm Hr Hp Ha Ht]. split; try done.
  - intros h f. cbn. intros [_ Hh]%lookup_delete_Some. rewrite <- Eh in Hh. by apply Hr.
  - intros q qm. cbn. intros [[<- <-]|[_ Hq]]%lookup_insert_Some; [|by apply Hp].
    eexists. split; [exact Hfo1|done].
  - intros g go Hg. change (fs_fanouts st1 !! g = Some go) in Hg. specialize (Ht g go Hg).
    unfold task_ok in *. destruct (fo_task go) as [q|] eqn:Eq; [|done].
    destruct Ht as (qm & Hqm & Hf & Hq). cbn. destruct (decide (p = q)) as [<-|Hneq].
    + rewrite lookup_insert_eq. eexists. split; [done|]. assert (qm = pm) as -> by congruence.
      subst g. assert (go = mkHouseholdFanout (fo_household fo) (fo_signals fo) (fo_task fo) true true)
        as -> by congruence. split; [done|]. right. cbn. rewrite lookup_delete_eq. by split.
    + rewrite lookup_insert_ne by done. exists qm. split_and!; [done..|].
      assert (g ≠ pm_fanout pm) as Hg' by (intros ->; rewrite Hfo1 in Hg; injection Hg as <-; cbn in *; congruence).
      rewrite Eh in Hq.
      destruct (decide (uuid_value (fo_household go) = uuid_value (fo_household fo))) as [E|E].
      * rewrite E, lookup_delete_eq in *. rewrite Hreg in Hq.
        destruct (pm_state qm); [destruct Hq; congruence|destruct Hq; congruence|done|].
        destruct Hq as [?|[_ ?]]; [by left|right]. by split.
      * rewrite lookup_delete_ne by done. done.
Qed.

Lemma ended_served p st st' : served st → pump_ended p st = Some st' → served st'.
Proof.
  intros [Hs Hm Hr Hp Ha Ht]. unfold pump_ended. intros (pm & Hpm & H)%bind_Some.
  destruct (pm_state pm) eqn:Epm; try done. injection H as <-. split; try done.
  - intros q qm. cbn. intros [[<- <-]|[_ Hq]]%lookup_insert_Some; [|by apply Hp].
    destruct (Hp _ _ Hpm) as (fo & ? & _). by exists fo.
  - intros f fo Hf. specialize (Ht f fo Hf). unfold task_ok in *. destruct (fo_task fo) as [q|]; [|done].
    destruct Ht as (qm & Hqm & Hfq & Hq). cbn. destruct (decide (p = q)) as [<-|Hne].
    + rewrite lookup_insert_eq. eexists. split; [done|]. assert (qm = pm) as -> by congruence.
      rewrite Epm in Hq. split; [done|]. by left.
    + rewrite lookup_insert_ne by done. by exists qm.
Qed.

Lemma resumed_served f p st st' : served st → detach_resumed f p st = Some st' → served st'.
Proof.
  intros Hst. unfold detach_resumed. case_bool_decide as Hcond; [|done].
  destruct Hcond as [Hin Hend]. intros (fo & Hfo & [= <-])%bind_Some.
  destruct (sv_awaiting _ Hst _ _ Hin) as (fo' & Hfo' & Htask & Hempty).
  assert (fo' = fo) as -> by congruence. clear Hfo'. destruct Hst as [Hs Hm Hr Hp Ha Ht].
  assert (Hsame : ∀ g go, fs_fanouts st !! g = Some go →
    ∃ go', <[f := with_task None fo]> (fs_fanouts st) !! g = Some go' ∧
      fo_household go' = fo_household go ∧ fo_signals go' = fo_signals go ∧
      (g ≠ f → fo_task go' = fo_task go)).
  { intros g go Hg. destruct (decide (f = g)) as [<-|Hne].
    - rewrite lookup_insert_eq. eexists. split; [done|]. assert (go = fo) as -> by congruence. done.
    - rewrite lookup_insert_ne by done. by exists go. }
  split.
  - intros s sg H0. destruct (Hs _ _ H0) as (go & Hg & Hi).
    destruct (Hsame _ _ Hg) as (go' & ? & _ & E & _). exists go'. by rewrite E.
  - intros g go s Hg. cbn in Hg. apply lookup_insert_Some in Hg as [[<- <-]|[_ Hg]];
      [by apply (Hm f fo)|by apply (Hm g go)].
  - intros h g H0. destruct (Hr _ _ H0) as (go & Hg & Hi).
    destruct (Hsame _ _ Hg) as (go' & ? & E & _). exists go'. by rewrite E.
  - intros q qm H0. destruct (Hp _ _ H0) as (go & Hg & Hi).
    destruct (Hsame _ _ Hg) as (go' & ? & _ & _ & E). exists go'. split; [done|]. intros Hne.
    rewrite E; [by apply Hi|]. intros Ef. rewrite Ef in Hg. assert (go = fo) as -> by congruence.
    specialize (Hi Hne). assert (q = p) as -> by congruence. cbn in H0.
    rewrite H0 in Hend. cbn in Hend. congruence.
  - intros g q. cbn. intros [H0 Hne]%elem_of_difference. destruct (Ha _ _ H0) as (go & Hg & Hi).
    destruct (Hsame _ _ Hg) as (go' & ? & _ & E1 & E2). exists go'. rewrite E1.
    split; [done|]. destruct Hi as [Hi ?]. split; [|done]. rewrite E2; [done|]. intros ->.
    assert (go = fo) as -> by congruence. apply Hne. assert (q = p) as -> by congruence. by apply elem_of_singleton.
  - intros g go Hg. cbn in Hg. apply lookup_insert_Some in Hg as [[<- <-]|[Hne Hg]]; [done|].
    specialize (Ht g go Hg). unfold task_ok in *. destruct (fo_task go) as [q|]; [|done].
    destruct Ht as (qm & ? & ? & Hq). exists qm. split_and!; [done..|].
    assert ((g, q) ≠ (f, p)) as Hpair by congruence.
    destruct (pm_state qm); [done|done|cbn; set_solver|cbn].
    destruct Hq as [[? ?]|?]; [left; set_solver|by right].
Qed.

(** A fan-out that is new, or whose departure is not awaited, takes a signal. *)
Lemma attach_fanout_served f s p fo st :
  served st → fs_fanouts st !! f = Some fo →
  fs_households st !! uuid_value (fo_household fo) = Some f →
  fs_signals st !! s = None → fs_pumps st !! p = None → (∀ q, (f, q) ∉ fs_awaiting st) →
  served (HouseholdFanout_attach f s p fo st).
Proof.
  intros Hst Hfo Hreg Hs0 Hp0 Hcalm. pose proof (sv_task _ Hst _ _ Hfo) as Hok.
  assert (Hlive : match fo_task fo with
    | Some q => ∃ pm, fs_pumps st !! q = Some pm ∧ pm_fanout pm = f ∧ is_live (pm_state pm) = true
    | None => True end).
  { unfold task_ok in Hok. destruct (fo_task fo) as [q|]; [|done].
    destruct Hok as (pm & ? & ? & Hok). exists pm. split_and!; [done..|].
    destruct (pm_state pm); try done; [by destruct Hok as [_ []%Hcalm]|].
    destruct Hok as [[_ []%Hcalm]|[[] _]]. done. }
  destruct Hst as [Hs Hm Hr Hp Ha Ht].
  assert (∀ g go s', fs_fanouts st !! g = Some go → s' ∈ fo_signals go → s' ≠ s) as Hfresh.
  { intros g go s' Hg Hin ->. destruct (Hm _ _ _ Hg Hin) as (sg & ? & _). congruence. }
  assert (Hother : ∀ g go t, g ≠ f → fs_fanouts st !! g = Some go →
    (∀ q qm, fs_pumps st !! q = Some qm → fs_pumps t !! q = Some qm) →
    fs_households t = fs_households st → fs_awaiting t = fs_awaiting st →
    fs_signals t = <[s := mkHouseholdSignal f false false false]> (fs_signals st) → task_ok t g go).
  { intros g go t Hne Hg Hpt Eh Ea Es. specialize (Ht g go Hg). unfold task_ok in *.
    destruct (fo_task go) as [q|]; [|done]. destruct Ht as (qm & ? & ? & Hq). exists qm.
    split_and!; [by apply Hpt|done|]. rewrite Eh, Ea, Es. destruct (pm_state qm); try done.
    destruct Hq as [?|[? Hl]]; [by left|right]. split; [done|]. intros s' sg Hin.
    rewrite lookup_insert_ne; [by apply Hl|]. intros <-. by apply (Hfresh g go s Hg Hin). }
  assert (∃ task pumps, HouseholdFanout_attach f s p fo st = mkFanoutState (fs_households st)
      (<[f := mkHouseholdFanout (fo_household fo) ({[s]} ∪ fo_signals fo) (Some task)
        (fo_ready fo) (fo_failure fo)]> (fs_fanouts st))
      (<[s := mkHouseholdSignal f false false false]> (fs_signals st)) pumps (fs_awaiting st) ∧
    (∃ pm, pumps !! task = Some pm ∧ pm_fanout pm = f ∧ is_live (pm_state pm) = true) ∧
    (∀ q qm, fs_pumps st !! q = Some qm → pumps !! q = Some qm) ∧
    (∀ q qm, pumps !! q = Some qm → q = task ∧ pm_fanout qm = f ∨ fs_pumps st !! q = Some qm) ∧
    (∀ q, fo_task fo = Some q → q = task))
    as (task & pumps & -> & (pm & Hpm & Hpf & Hl) & Hkept & Hnew & Htask).
  { unfold HouseholdFanout_attach. destruct (fo_task fo) as [task|] eqn:Etask.
    - exists task, (fs_pumps st). split_and!; [done|exact Hlive|done|by right|by intros ? [= ->]].
    - exists p, (<[p := mkPump f Opening]> (fs_pumps st)). split_and!; [done| | | |done].
      + rewrite lookup_insert_eq. by eexists.
      + intros q qm Hq. rewrite lookup_insert_ne; congruence.
      + intros q qm [[<- <-]|[_ ?]]%lookup_insert_Some; [by left|by right]. }
  split; cbn.
  - intros s' sg [[<- <-]|[Hne H0]]%lookup_insert_Some; cbn.
    + rewrite lookup_insert_eq. eexists. split; [done|]. cbn. set_solver.
    + destruct (Hs _ _ H0) as (go & Hg & Hi). destruct (decide (f = sg_fanout sg)) as [E|E].
      * rewrite <- E, lookup_insert_eq. eexists. split; [done|]. cbn.
        assert (go = fo) as -> by congruence. set_solver.
      * rewrite lookup_insert_ne by done. by exists go.
  - intros g go s' [[<- <-]|[_ Hg]]%lookup_insert_Some; cbn.
    + intros [->%elem_of_singleton|Hin]%elem_of_union; [rewrite lookup_insert_eq; by eexists|].
      rewrite lookup_insert_ne by (intros E; by apply (Hfresh f fo s' Hfo Hin)). by apply (Hm f fo).
    + intros Hin. rewrite lookup_insert_ne by (intros E; by apply (Hfresh g go s' Hg Hin)). by apply (Hm g go).
  - intros h g H0. destruct (Hr _ _ H0) as (go & Hg & Hi). destruct (decide (f = g)) as [<-|E].
    + rewrite lookup_insert_eq. eexists. split; [done|]. cbn. congruence.
    + rewrite lookup_insert_ne by done. by exists go.
  - intros q qm [[-> ->]|H0]%Hnew; [rewrite lookup_insert_eq; by eexists|].
    destruct (Hp _ _ H0) as (go & Hg & Hi). destruct (decide (f = pm_fanout qm)) as [E|E].
    + rewrite <- E, lookup_insert_eq. eexists. split; [done|]. intros Hne. cbn.
      assert (go = fo) as -> by congruence. f_equal. symmetry. by apply Htask, Hi.
    + rewrite lookup_insert_ne by done. by exists go.
  - intros g q H0. destruct (Ha _ _ H0) as (go & Hg & Hi). destruct (decide (f = g)) as [<-|E].
    + by destruct (Hcalm q).
    + rewrite lookup_insert_ne by done. by exists go.
  - intros g go [[<- <-]|[Hne Hg]]%lookup_insert_Some; [|by apply (Hother g go)].
    exists pm. split_and!; [done..|]. destruct (pm_state pm); try done; (split; [cbn; set_solver|done]).
Qed.

Lemma attach_served h f s p st st' :
  served st → calm (EAttach h f s p) st → fanout_step (EAttach h f s p) st = Some st' → served st'.
Proof.
  intros Hst Hcalm. cbn. unfold fresh_names. case_bool_decide as Hnames; [|done].
  destruct Hnames as (Hf0 & Hs0 & Hp0). unfold HouseholdSignalFanout_attach.
  destruct (fs_households st !! uuid_value h) as [g|] eqn:Eh.
  - intros (fo & Hfo & [= <-])%bind_Some. destruct (sv_registry _ Hst _ _ Eh) as (fo' & Hfo' & Ehh).
    assert (fo' = fo) as -> by congruence. apply attach_fanout_served; try done; [by rewrite Ehh|].
    intros q. by apply Hcalm.
  - intros [= <-]. apply attach_fanout_served; try done; cbn.
    2: by rewrite lookup_insert_eq.
    2: by rewrite lookup_insert_eq.
    2: { intros q Hq. destruct (sv_awaiting _ Hst _ _ Hq) as (? & ? & _). congruence. }
    destruct Hst as [Hs Hm Hr Hp Ha Ht].
    assert (Hkeep : ∀ g go, fs_fanouts st !! g = Some go →
      <[f := HouseholdFanout_new h]> (fs_fanouts st) !! g = Some go).
    { intros g go Hg. rewrite lookup_insert_ne; congruence. }
    split; cbn.
    + intros s' sg H0. destruct (Hs _ _ H0) as (go & ? & ?). exists go. split; [by apply Hkeep|done].
    + intros g go s' [[<- <-]|[_ Hg]]%lookup_insert_Some; [cbn; set_solver|by apply Hm].
    + intros h' g [[<- <-]|[_ H0]]%lookup_insert_Some; [rewrite lookup_insert_eq; by eexists|].
      destruct (Hr _ _ H0) as (go & ? & ?). exists go. split; [by apply Hkeep|done].
    + intros q qm H0. destruct (Hp _ _ H0) as (go & ? & ?). exists go. split; [by apply Hkeep|done].
    + intros g q H0. destruct (Ha _ _ H0) as (go & ? & ?). exists go. split; [by apply Hkeep|done].
    + intros g go [[<- <-]|[Hne Hg]]%lookup_insert_Some; [done|]. specialize (Ht g go Hg).
      unfold task_ok in *. destruct (fo_task go) as [q|]; [|done].
      destruct Ht as (qm & ? & ? & Hq). exists qm. split_and!; [done..|]. cbn.
      destruct (decide (uuid_value h = uuid_value (fo_household go))) as [E|E].
      * rewrite E in *. rewrite lookup_insert_eq. rewrite Eh in Hq.
        destruct (pm_state qm); [by destruct Hq|by destruct Hq|done|].
        destruct Hq as [?|[_ ?]]; [by left|right]. split; [by intros [= ->]|done].
      * rewrite lookup_insert_ne by done. done.
Qed.

Lemma release_served s st st' : served st → HouseholdSignal_release s st = Some st' → served st'.
Proof.
  intros Hst. unfold HouseholdSignal_release. intros (sg & Hsg & H)%bind_Some.
  destruct (sg_released sg) eqn:Erel; [by injection H as <-|].
  apply bind_Some in H as (fo & Hfo & [= <-]). remember (sg_fanout sg) as f eqn:Ef.
  pose proof (sv_task _ Hst _ _ Hfo) as Hok. destruct Hst as [Hs Hm Hr Hp Ha Ht].
  set (sg' := mkHouseholdSignal f (sg_wakeup sg) (sg_lost sg) true).
  assert (s ∈ fo_signals fo) as Hin.
  { destruct (Hs _ _ Hsg) as (go & Hg & Hi). assert (go = fo) as -> by congruence. by apply Hi. }
  assert (∀ q, (f, q) ∉ fs_awaiting st) as Hnot.
  { intros q Hq. destruct (Ha _ _ Hq) as (go & ? & _ & He). assert (go = fo) as -> by congruence. set_solver. }
  assert (∀ q qm, fo_task fo = Some q → fs_pumps st !! q = Some qm → pm_fanout qm = f) as Hfp.
  { intros q qm Hq Hqm. unfold task_ok in Hok. rewrite Hq in Hok. destruct Hok as (? & ? & ? & _). congruence. }
  assert (∃ task pumps awaiting,
    HouseholdFanout_detach f s fo (put_signals (<[s := sg']> (fs_signals st)) st) =
      mkFanoutState (fs_households st)
        (<[f := mkHouseholdFanout (fo_household fo) (fo_signals fo ∖ {[s]}) task (fo_ready fo)
          (fo_failure fo)]> (fs_fanouts st)) (<[s := sg']> (fs_signals st)) pumps awaiting ∧
    (task = None ∧ pumps = fs_pumps st ∧
       (∀ q qm, fo_task fo = Some q → fs_pumps st !! q = Some qm → pm_state qm = Ended)
       ∨ task = fo_task fo) ∧
    (∀ q, fo_task fo ≠ Some q → pumps !! q = fs_pumps st !! q) ∧
    (∀ q, fo_task fo = Some q → ∃ qm, pumps !! q = Some qm ∧ pm_fanout qm = f) ∧
    (∀ g q, (g, q) ∈ awaiting → (g, q) ∈ fs_awaiting st ∨ g = f ∧ task = Some q ∧ fo_signals fo ∖ {[s]} = ∅) ∧
    (∀ g q, (g, q) ∈ fs_awaiting st → (g, q) ∈ awaiting) ∧
    task_ok (mkFanoutState (fs_households st) (fs_fanouts st) (<[s := sg']> (fs_signals st)) pumps awaiting) f
      (mkHouseholdFanout (fo_household fo) (fo_signals fo ∖ {[s]}) task (fo_ready fo)
          (fo_failure fo)))
    as (task & pumps & awaiting & -> & Htask & Hpumps & Hown & Hawait & Hkept & Hok').
  { clear Hfp. unfold HouseholdFanout_detach. cbn [fo_task fo_signals fo_household fo_ready fo_failure].
    unfold task_ok in Hok. destruct (fo_task fo) as [p|]; [|set_solver].
    destruct Hok as (pm & Hpm & Hpf & Hc). case_bool_decide as Hlast.
    - exists (Some p), (fs_pumps st), (fs_awaiting st). split_and!; try done; [by right| |by left|].
      { intros q [= <-]. by exists pm. }
      exists pm. split_and!; [done..|]. cbn. destruct (pm_state pm); try (by split; [|apply Hc]).
      + by destruct Hc as [_ []%Hnot].
      + right. destruct Hc as [[_ []%Hnot]|[Hreg Hl]]. split; [done|]. intros s' sg0 Hs'.
        rewrite lookup_insert_ne by set_solver. apply Hl. set_solver.
    - cbn. rewrite Hpm. cbn [fmap option_fmap option_map].
      destruct (pm_state pm) eqn:Epm; cycle 2.
      { by destruct Hc as [_ []%Hnot]. }
      { exists None, (fs_pumps st), (fs_awaiting st). split_and!.
        - unfold put_fanout, with_task. cbn. by rewrite insert_insert_eq.
        - left. split_and!; [done..|]. intros q qm [= <-] Hqm. congruence.
        - done.
        - intros q [= <-]. by exists pm.
        - by left.
        - done.
        - done. }
      all: exists (Some p), (<[p := mkPump f Cancelled]> (fs_pumps st)), ({[(f, p)]} ∪ fs_awaiting st);
        split_and!; [done|by right| | | | |].
      all: try (intros q Hq; rewrite lookup_insert_ne; congruence).
      all: try (intros q [= <-]; rewrite lookup_insert_eq; by eexists).
      all: try (intros g q [[= -> ->]%elem_of_singleton|?]%elem_of_union; [by right|by left]).
      all: try (intros g q ?; by apply elem_of_union_r).
      all: exists (mkPump f Cancelled); cbn; rewrite lookup_insert_eq; split_and!; [done..|set_solver]. }
  clear Hok. split; cbn.
  - intros s' sg0 [[<- <-]|[Hne H0]]%lookup_insert_Some.
    + cbn. rewrite lookup_insert_eq. eexists. split; [done|]. cbn. set_solver.
    + destruct (Hs _ _ H0) as (go & Hg & Hi). destruct (decide (f = sg_fanout sg0)) as [E|E].
      * rewrite <- E, lookup_insert_eq. eexists. split; [done|]. cbn.
        assert (go = fo) as -> by congruence. set_solver.
      * rewrite lookup_insert_ne by done. by exists go.
  - intros g go s' Hg Hs'. assert (∃ go0, fs_fanouts st !! g = Some go0 ∧ s' ∈ fo_signals go0) as (go0 & Hg0 & Hi).
    { apply lookup_insert_Some in Hg as [[<- <-]|[_ Hg]]; [|by exists go]. exists fo. cbn in Hs'. set_solver. }
    destruct (Hm _ _ _ Hg0 Hi) as (sg0 & H0 & Hf0). destruct (decide (s = s')) as [<-|Hne].
    + rewrite lookup_insert_eq. eexists. split; [done|]. cbn. congruence.
    + rewrite lookup_insert_ne by done. by exists sg0.
  - intros h g H0. destruct (Hr _ _ H0) as (go & Hg & Hi). destruct (decide (f = g)) as [<-|E].
    + rewrite lookup_insert_eq. eexists. split; [done|]. cbn. congruence.
    + rewrite lookup_insert_ne by done. by exists go.
  - intros q qm Hq. destruct (decide (fo_task fo = Some q)) as [Eq|Eq].
    + destruct (Hown _ Eq) as (qm' & Hqm' & Hf'). assert (qm' = qm) as -> by congruence.
      rewrite Hf', lookup_insert_eq. eexists. split; [done|]. cbn. intros Hne.
      destruct Htask as [(-> & -> & Hend)| ->]; [|done].
      by rewrite (Hend _ _ Eq Hq) in Hne.
    + rewrite Hpumps in Hq by done. destruct (Hp _ _ Hq) as (go & Hg & Hi).
      destruct (decide (f = pm_fanout qm)) as [E|E].
      * rewrite <- E, lookup_insert_eq. eexists. split; [done|]. intros Hne.
        assert (go = fo) as -> by congruence. by destruct Eq; apply Hi.
      * rewrite lookup_insert_ne by done. by exists go.
  - intros g q [H0|(-> & -> & He)]%Hawait.
    + destruct (Ha _ _ H0) as (go & Hg & Hi). destruct (decide (f = g)) as [<-|E]; [by destruct (Hnot q)|].
      rewrite lookup_insert_ne by done. by exists go.
    + rewrite lookup_insert_eq. by eexists.
  - intros g go [[<- <-]|[Hne Hg]]%lookup_insert_Some; [done|].
    specialize (Ht g go Hg). unfold task_ok in *. destruct (fo_task go) as [q|] eqn:Eq; [|done].
    destruct Ht as (qm & Hqm & Hf & Hq). exists qm. cbn. split_and!; [|done|].
    + rewrite Hpumps; [done|]. intros Et. apply Hne. by rewrite <- (Hfp _ _ Et Hqm).
    + destruct (pm_state qm); try done.
      * split; [apply Hq|]. by apply Hkept, Hq.
      * destruct Hq as [[? ?]|[? Hl]]; [left; split; [done|by apply Hkept]|right]. split; [done|].
        intros s' sg0 Hs'. rewrite lookup_insert_ne; [by apply Hl|]. intros <-.
        destruct (Hm _ _ _ Hg Hs') as (sg1 & ? & ?). apply Hne. congruence.
Qed.

Lemma calm_run_served es st : calm_run es st → served st.
Proof.
  induction 1 as [|es e st st' _ IH Hcalm Hstep]; [apply no_streams_served|].
  destruct e as [h f s p|p|p|p|s|p|f p|f|].
  - by eapply attach_served.
  - by eapply opened_served.
  - by eapply nudge_served.
  - by eapply failed_served.
  - by eapply release_served.
  - by eapply ended_served.
  - by eapply resumed_served.
  - cbn in Hstep. apply bind_Some in Hstep as (fo & _ & [= <-]).
    apply for_signals_served; [apply lose_keeps|done].
  - cbn in Hstep. injection Hstep as <-. destruct IH as [Hs Hm Hr Hp Ha Ht]. split; try done.
    intros f fo Hf. change (fs_fanouts st !! f = Some fo) in Hf. specialize (Ht f fo Hf).
    unfold task_ok in *. destruct (fo_task fo) as [q|] eqn:Eq; [|done].
    destruct Ht as (qm & ? & ? & Hq). exists qm. split_and!; [done..|]. cbn.
    destruct (pm_state qm); [| |done|destruct Hq as [?|[_ ?]]; [by left|by right]].
    all: destruct Hq as [_ Hreg]; pose proof (Hcalm _ _ _ Hreg Hf); congruence.
Qed.

(** A stream that was not told of a loss is served by a live pump. *)
Lemma served_stream st s sg :
  served st → fs_signals st !! s = Some sg → sg_released sg = false → sg_lost sg = false →
  ∃ p pm fo, fs_pumps st !! p = Some pm ∧ pm_fanout pm = sg_fanout sg ∧
    is_live (pm_state pm) = true ∧ fs_fanouts st !! sg_fanout sg = Some fo ∧ s ∈ fo_signals fo.
Proof.
  intros Hst Hsg Hrel Hlost. destruct (sv_signals _ Hst _ _ Hsg) as (fo & Hfo & Hin).
  apply Hin in Hrel. pose proof (sv_task _ Hst _ _ Hfo) as Ht. unfold task_ok in Ht.
  destruct (fo_task fo) as [p|]; [|set_solver]. destruct Ht as (pm & Hpm & Hf & Hc).
  exists p, pm, fo. split_and!; try done. destruct (pm_state pm); [done|done|set_solver|].
  destruct Hc as [[? _]|[_ Hl]]; [set_solver|]. specialize (Hl _ _ Hrel Hsg). congruence.
Qed.

(** Releasing a handle changes no other, and the handle is then released. *)
Lemma released_only s sg st st' s' sg' :
  fs_signals st !! s = Some sg → sg_released sg = false → HouseholdSignal_release s st = Some st' →
  fs_signals st' !! s' = Some sg' → sg_released sg' = false → s' ≠ s ∧ fs_signals st !! s' = Some sg'.
Proof.
  intros Hsg Hrel E. unfold HouseholdSignal_release in E. rewrite Hsg in E. cbn [mbind option_bind] in E.
  rewrite Hrel in E. apply bind_Some in E as (fo & _ & [= <-]).
  assert (∀ f fo st0, fs_signals (HouseholdFanout_detach f s fo st0) = fs_signals st0) as ->.
  { intros f fo0 st0. unfold HouseholdFanout_detach. cbn. destruct (fo_task fo0); [|done].
    case_bool_decide; [done|]. by destruct (pm_state <$> _) as [[]|]. }
  cbn. intros [[<- <-]|[Hne H]]%lookup_insert_Some; [done|]. by split.
Qed.

(** ** Theorems *)

(** [C28] One subscription per household, however many streams.  Of every run in which (1)
    no stream attaches to a household while the release of its last handle still awaits the
    pump it cancelled, and (2) the registry is emptied, at shutdown, only when no fan-out in
    it has a pump task left:

    a household has at most one live pump; every handle that is not released and was not
    told of a loss has one, whose next nudge ends its wait as a nudge and whose failure ends
    it as a loss; a live pump has a handle that is not released, and releasing the only such
    handle of a fan-out leaves it no live pump.  What counts is handles, not open streams:
    a client that goes away while [attach] still waits for the subscription leaves a handle
    nobody releases, and it keeps the subscription open. *)
Theorem one_subscription_per_household (es : list fanout_event) (st : FanoutState)
    (Hrun : calm_run es st) :
  (∀ p1 p2 pm1 pm2 fo1 fo2,
    fs_pumps st !! p1 = Some pm1 → is_live (pm_state pm1) = true →
    fs_pumps st !! p2 = Some pm2 → is_live (pm_state pm2) = true →
    fs_fanouts st !! pm_fanout pm1 = Some fo1 → fs_fanouts st !! pm_fanout pm2 = Some fo2 →
    uuid_value (fo_household fo1) = uuid_value (fo_household fo2) → p1 = p2) ∧
  (∀ s sg, fs_signals st !! s = Some sg → sg_released sg = false → sg_lost sg = false →
    ∃ p pm, fs_pumps st !! p = Some pm ∧ pm_fanout pm = sg_fanout sg ∧
      is_live (pm_state pm) = true ∧
      (pm_state pm = Listening → ∃ st' sg', fanout_step (ENudge p) st = Some st' ∧
         fs_signals st' !! s = Some sg' ∧
         fst <$> HouseholdSignal_wait false sg sg' = Some NUDGED) ∧
      (∃ st' sg', fanout_step (EFailed p) st = Some st' ∧ fs_signals st' !! s = Some sg' ∧
         fst <$> HouseholdSignal_wait false sg sg' = Some LOST)) ∧
  (∀ p pm, fs_pumps st !! p = Some pm → is_live (pm_state pm) = true →
    ∃ s sg, fs_signals st !! s = Some sg ∧ sg_released sg = false ∧ sg_fanout sg = pm_fanout pm) ∧
  (∀ s sg, fs_signals st !! s = Some sg → sg_released sg = false →
    (∀ s' sg', fs_signals st !! s' = Some sg' → sg_fanout sg' = sg_fanout sg →
       sg_released sg' = false → s' = s) →
    ∃ st', fanout_step (ERelease s) st = Some st' ∧
      ∀ p pm, fs_pumps st' !! p = Some pm → pm_fanout pm = sg_fanout sg →
        is_live (pm_state pm) = false).
Proof.
  pose proof (calm_run_served _ _ Hrun) as Hst. split_and!.
  - intros p1 p2 pm1 pm2 fo1 fo2 H1 Hl1 H2 Hl2 Hf1 Hf2 Eh.
    destruct (live_pump _ _ _ Hst H1 Hl1) as (g1 & Hg1 & Ht1 & _ & Hr1).
    destruct (live_pump _ _ _ Hst H2 Hl2) as (g2 & Hg2 & Ht2 & _ & Hr2).
    assert (g1 = fo1) as -> by congruence. assert (g2 = fo2) as -> by congruence.
    rewrite Eh in Hr1. assert (pm_fanout pm1 = pm_fanout pm2) as E by congruence.
    rewrite E in Hg1. congruence.
  - intros s sg Hsg Hrel Hlost.
    destruct (served_stream _ _ _ Hst Hsg Hrel Hlost) as (p & pm & fo & Hpm & Hf & Hl & Hfo & Hin).
    exists p, pm. split_and!; [done..| |].
    + intros Hlisten. eexists _, _. cbn [fanout_step]. unfold pump_nudge. rewrite Hpm. cbn [mbind option_bind].
      rewrite Hlisten, Hf, Hfo. split; [done|]. rewrite for_signals_lookup, Hsg, bool_decide_true by done.
      split; [done|]. unfold HouseholdSignal_wait. cbn. by rewrite Hlost.
    + eexists _, _. cbn [fanout_step]. unfold pump_failed. rewrite Hpm. cbn [mbind option_bind].
      assert (H : ∀ (a : option FanoutState), match pm_state pm with Opening | Listening => a | _ => None end = a)
        by by destruct (pm_state pm).
      rewrite H, Hf, Hfo. split; [done|]. unfold HouseholdSignalFanout_forget.
      assert (Hs : ∀ t, fs_signals t = fs_signals (for_signals HouseholdSignal_lose fo st) →
        fs_signals t !! s = Some (HouseholdSignal_lose sg)).
      { intros t ->. by rewrite for_signals_lookup, Hsg, bool_decide_true. }
      split; [apply Hs; cbn; by case_bool_decide|]. unfold HouseholdSignal_wait. cbn. by rewrite Hlost.
  - intros p pm Hpm Hl. destruct (live_pump _ _ _ Hst Hpm Hl) as (fo & Hfo & _ & Hne & _).
    apply set_choose_L in Hne as [s Hs]. destruct (sv_members _ Hst _ _ _ Hfo Hs) as (sg & Hsg & Hf).
    exists s, sg. split_and!; [done| |done]. destruct (sv_signals _ Hst _ _ Hsg) as (go & Hg & Hi).
    rewrite Hf in Hg. assert (go = fo) as -> by congruence. by apply Hi.
  - intros s sg Hsg Hrel Honly. destruct (sv_signals _ Hst _ _ Hsg) as (fo & Hfo & _).
    cbn [fanout_step]. destruct (HouseholdSignal_release s st) as [st'|] eqn:E.
    + exists st'. split; [done|]. intros p pm Hpm Hf. apply not_true_iff_false. intros Hl.
      pose proof (release_served _ _ _ Hst E) as Hst'.
      destruct (live_pump _ _ _ Hst' Hpm Hl) as (go & Hgo & _ & Hne & _).
      apply set_choose_L in Hne as [s' Hs']. destruct (sv_members _ Hst' _ _ _ Hgo Hs') as (sg' & Hsg' & Hf').
      destruct (sv_signals _ Hst' _ _ Hsg') as (go' & Hgo' & Hi). rewrite Hf' in Hgo'.
      assert (go' = go) as -> by congruence. apply Hi in Hs' as Hrel'.
      destruct (released_only _ _ _ _ _ _ Hsg Hrel E Hsg' Hrel') as [Hne Hold].
      apply Hne, (Honly s' sg'); congruence.
    + unfold HouseholdSignal_release in E. rewrite Hsg in E. cbn [mbind option_bind] in E.
      by rewrite Hrel, Hfo in E.
Qed.

(** ** Witnesses *)

Lemma calm_run_intro es : ∀ es0 st0 st,
  calm_run es0 st0 →
  (∀ l1 e l2 t, es = l1 ++ e :: l2 → fanout_run l1 st0 = Some t → calm e t) →
  fanout_run es st0 = Some st → calm_run (es0 ++ es) st.
Proof.
  induction es as [|e es IH]; intros es0 st0 st H0 Hcalm H.
  { injection H as <-. by rewrite app_nil_r. }
  cbn [fanout_run] in H. apply bind_Some in H as (st1 & H1 & H).
  change (e :: es) with ([e] ++ es). rewrite app_assoc. apply (IH _ st1); [| |done].
  - apply (calm_next _ _ st0); [done| |done]. by apply (Hcalm [] e es).
  - intros l1 e' l2 t -> Ht. apply (Hcalm (e :: l1) e' l2); [done|]. cbn [fanout_run]. by rewrite H1.
Qed.

Definition demo_attach : list fanout_event := [EAttach (Uuid 7) 0 0 0; EOpened 0].

Lemma demo_attach_calm st : fanout_run demo_attach no_streams = Some st → calm_run demo_attach st.
Proof.
  intros H. apply (calm_run_intro demo_attach [] no_streams); [constructor| |done].
  intros l1 e l2 t E Ht. destruct l1 as [|? [|? l1]].
  - injection E as <- <-. injection Ht as <-. intros f p. cbn. by rewrite lookup_empty.
  - by injection E as <- <- <-.
  - injection E as <- <- E. by destruct l1.
Qed.

Lemma one_subscription_per_household_witness :
  ∃ st, fanout_run demo_attach no_streams = Some st ∧
    (∃ p pm, fs_pumps st !! p = Some pm ∧ is_live (pm_state pm) = true) ∧
    ∃ st', fanout_step (ERelease 0) st = Some st' ∧
      ∀ p pm, fs_pumps st' !! p = Some pm → pm_fanout pm = 0 → is_live (pm_state pm) = false.
Proof.
  assert (∃ st, fanout_run demo_attach no_streams = Some st) as [st H]
    by (eexists; vm_compute; reflexivity).
  exists st. split; [exact H|].
  destruct (one_subscription_per_household demo_attach st (demo_attach_calm st H)) as (_ & Hs & _ & Hr).
  assert (fs_signals st !! 0 = Some (mkHouseholdSignal 0 false false false)) as Hsg
    by (vm_compute in H; injection H as <-; vm_compute; reflexivity).
  split.
  - destruct (Hs 0 _ Hsg) as (p & pm & Hp & _ & Hl & _); [reflexivity..|].
    exists p, pm. split; [exact Hp|exact Hl].
  - apply (Hr 0 _ Hsg); [reflexivity|]. intros s' sg' Hs' _ _.
    assert (fs_signals st = {[0 := mkHouseholdSignal 0 false false false]}) as E
      by (vm_compute in H; injection H as <-; vm_compute; reflexivity).
    rewrite E in Hs'. by apply lookup_singleton_Some in Hs' as [<- _].
Defined.
