(* ===== verification/FanoutFaults.v ===== *)
(** Two ways in which the fan-out of [Fanout] misses what it promises: a stream that is
    abandoned while its household's subscription opens keeps it open, and a stream that
    attaches while the last one is leaving is not served. *)

From S2P Require Import Prelude Domain NotificationStream Fanout.

(** *** A stream whose client leaves while the subscription opens *)

(** What keeps a pump open: a signal among those of its fan-out that is never released. *)
Record held (f s p : nat) (st : FanoutState) : Prop := mkHeld {
  hd_fanout : ∃ fo, fs_fanouts st !! f = Some fo ∧ s ∈ fo_signals fo ∧ fo_task fo = Some p;
  hd_pump : ∃ pm, fs_pumps st !! p = Some pm ∧ pm_fanout pm = f ∧ is_live (pm_state pm) = true;
  hd_signal : ∃ sg, fs_signals st !! s = Some sg;
  hd_own : ∀ g go, fs_fanouts st !! g = Some go → fo_task go = Some p → g = f;
  hd_waits : ∀ q, (f, q) ∉ fs_awaiting st }.

Definition leaves_held (s p : nat) (e : fanout_event) : bool :=
  match e with
  | ERelease s' => bool_decide (s' ≠ s)
  | EFailed p' => bool_decide (p' ≠ p)
  | _ => true
  end.

(** Replacing a fan-out by one with at least the signal and the same task. *)
Lemma held_put_fanout f s p g go go' st :
  held f s p st → fs_fanouts st !! g = Some go → fo_task go' = fo_task go →
  (g = f → s ∈ fo_signals go') → held f s p (put_fanout g go' st).
Proof.
  intros [(fo & Hfo & Hin & Ht) Hp Hs Ho Hw] Hg Et Hin'. split; try done.
  - cbn. destruct (decide (g = f)) as [->|Hne].
    + rewrite lookup_insert_eq. exists go'. split_and!; [done|by apply Hin'|congruence].
    + rewrite lookup_insert_ne by done. by exists fo.
  - intros g' go0. cbn. intros [[<- <-]|[_ Hg']]%lookup_insert_Some; [|by apply Ho].
    rewrite Et. by apply Ho.
Qed.

Lemma held_put_pump f s p q qm st :
  held f s p st → q ≠ p ∨ pm_fanout qm = f ∧ is_live (pm_state qm) = true →
  held f s p (put_pump q qm st).
Proof.
  intros [Hf (pm & Hpm & ?) Hs Ho Hw] Hq. split; try done. cbn.
  destruct (decide (q = p)) as [->|Hne].
  - rewrite lookup_insert_eq. exists qm. destruct Hq; [done|by split].
  - rewrite lookup_insert_ne by done. by exists pm.
Qed.

Lemma held_put_signals f s p v st :
  held f s p st → is_Some (v !! s) → held f s p (put_signals v st).
Proof. intros [Hf Hp Hs Ho Hw] [sg Hv]. split; try done. by exists sg. Qed.

Lemma held_put_registry f s p v st : held f s p st → held f s p (put_registry v st).
Proof. by intros [? ? ? ? ?]. Qed.

Lemma held_for_signals f s p g fo st : held f s p st → held f s p (for_signals g fo st).
Proof.
  intros Hd. apply held_put_signals; [done|]. destruct (hd_signal _ _ _ _ Hd) as [sg Hsg].
  rewrite map_lookup_imap, Hsg. by eexists.
Qed.

Lemma held_attach f s p g s' p' go st :
  held f s p st → fs_fanouts st !! g = Some go → s' ≠ s → p' ≠ p →
  held f s p (HouseholdFanout_attach g s' p' go st).
Proof.
  intros Hd Hg Hs Hp. unfold HouseholdFanout_attach.
  assert (Hd1 : held f s p (put_signals (<[s':=mkHouseholdSignal g false false false]> (fs_signals st)) st)).
  { apply held_put_signals; [done|]. rewrite lookup_insert_ne by done. apply Hd. }
  assert (Hsig : g = f → s ∈ fo_signals go ∧ fo_task go = Some p).
  { intros ->. destruct (hd_fanout _ _ _ _ Hd) as (fo & ? & ? & ?). assert (go = fo) as -> by congruence. done. }
  destruct (fo_task go) as [task|] eqn:Et.
  - apply (held_put_fanout _ _ _ _ go); [done..|]. cbn. intros E%Hsig. set_solver.
  - apply held_put_pump; [|by left]. assert (g ≠ f) as Hne by (intros E; by destruct (Hsig E)).
    destruct Hd1 as [(fo & ? & ? & ?) Hp1 Hs1 Ho Hw]. split; try done.
    + exists fo. cbn. by rewrite lookup_insert_ne.
    + intros g' go0. cbn. intros [[<- <-]|[_ Hg']]%lookup_insert_Some; [|by apply Ho]. cbn. congruence.
Qed.

Lemma held_detach f s p g s' go st :
  held f s p st → fs_fanouts st !! g = Some go → s' ≠ s →
  held f s p (HouseholdFanout_detach g s' go st).
Proof.
  intros Hd Hg Hs.
  assert (Hsig : g = f → s ∈ fo_signals go ∖ {[s']}).
  { intros ->. destruct (hd_fanout _ _ _ _ Hd) as (fo & ? & ? & _).
    assert (go = fo) as -> by congruence. set_solver. }
  unfold HouseholdFanout_detach. cbn [fo_task fo_signals fo_household fo_ready fo_failure].
  set (go' := mkHouseholdFanout (fo_household go) (fo_signals go ∖ {[s']}) (fo_task go)
    (fo_ready go) (fo_failure go)).
  assert (Hd' : held f s p (put_fanout g go' st)) by by apply (held_put_fanout _ _ _ _ go).
  destruct (fo_task go) as [q|] eqn:Et; [|done]. case_bool_decide as Hne; [done|].
  assert (g ≠ f) as Hgf by (intros E; apply Hsig in E; set_solver).
  assert (q ≠ p) as Hqp by (intros ->; by apply Hgf, (hd_own _ _ _ _ Hd _ go)).
  assert (Hnone : held f s p (put_fanout g (with_task None go') (put_fanout g go' st))).
  { destruct Hd' as [(fo & Hfo & ? & ?) Hp1 Hs1 Ho Hw]. split; try done.
    - exists fo. cbn in *. by rewrite lookup_insert_ne.
    - intros g' go0. cbn. intros [[<- <-]|[_ Hg']]%lookup_insert_Some; [done|by apply Ho]. }
  assert (Hcanc : held f s p (put_awaiting ({[(g, q)]} ∪ fs_awaiting st)
    (put_pump q (mkPump g Cancelled) (put_fanout g go' st)))).
  { destruct (held_put_pump _ _ _ q (mkPump g Cancelled) _ Hd' (or_introl Hqp)) as [? ? ? ? Hw].
    split; try done. intros q'. cbn in *. specialize (Hw q'). set_solver. }
  destruct (pm_state <$> _) as [[]|]; done.
Qed.

Lemma held_step f s p e st st' :
  leaves_held s p e = true → held f s p st → fanout_step e st = Some st' → held f s p st'.
Proof.
  intros Hl Hd. destruct (hd_pump _ _ _ _ Hd) as (pm & Hpm & Hpf & Hlive).
  destruct (hd_signal _ _ _ _ Hd) as [sg Hsg].
  destruct e as [h g s' p'|q|q|q|s'|q|g q|g|]; cbn [fanout_step leaves_held] in *.
  - unfold fresh_names. case_bool_decide as Hn; [|done]. destruct Hn as (Hf0 & Hs0 & Hp0).
    assert (s' ≠ s) by congruence. assert (p' ≠ p) by congruence. unfold HouseholdSignalFanout_attach.
    destruct (fs_households st !! uuid_value h) as [g'|].
    + intros (go & Hg & [= <-])%bind_Some. by apply held_attach.
    + intros [= <-]. apply held_attach; [|cbn; by rewrite lookup_insert_eq|done..].
      apply held_put_registry. destruct Hd as [(fo & ? & ? & ?) Hp1 Hs1 Ho Hw]. split; try done.
      * exists fo. cbn. rewrite lookup_insert_ne; [done|congruence].
      * intros g' go0. cbn. intros [[<- <-]|[_ Hg']]%lookup_insert_Some; [done|by apply Ho].
  - intros (qm & Hqm & H)%bind_Some. destruct (pm_state qm) eqn:Eq; try done.
    apply bind_Some in H as (go & Hg & [= <-]). apply held_put_pump.
    + apply (held_put_fanout _ _ _ _ go); [done..|]. cbn. intros E. rewrite E in Hg.
      destruct (hd_fanout _ _ _ _ Hd) as (fo & ? & ? & _). by assert (go = fo) as -> by congruence.
    + destruct (decide (q = p)) as [->|]; [right|by left]. cbn. split; congruence.
  - intros (qm & Hqm & H)%bind_Some. destruct (pm_state qm) eqn:Eq; try done.
    apply bind_Some in H as (go & Hg & [= <-]). by apply held_for_signals.
  - apply bool_decide_eq_true in Hl. intros (qm & Hqm & H)%bind_Some.
    assert (∃ go, fs_fanouts st !! pm_fanout qm = Some go ∧ Some st' =
      Some (put_pump q (mkPump (pm_fanout qm) Ended)
        (HouseholdSignalFanout_forget (fo_household go) (pm_fanout qm)
          (for_signals HouseholdSignal_lose go (put_fanout (pm_fanout qm)
            (mkHouseholdFanout (fo_household go) (fo_signals go) (fo_task go) true true) st)))))
      as (go & Hg & [= ->]).
    { destruct (pm_state qm); try done; apply bind_Some in H as (go & Hg & <-); by exists go. }
    apply held_put_pump; [|by left]. unfold HouseholdSignalFanout_forget.
    assert (held f s p (for_signals HouseholdSignal_lose go (put_fanout (pm_fanout qm)
      (mkHouseholdFanout (fo_household go) (fo_signals go) (fo_task go) true true) st))) as Hd'.
    { apply held_for_signals, (held_put_fanout _ _ _ _ go); [done..|]. cbn. intros E. rewrite E in Hg.
      destruct (hd_fanout _ _ _ _ Hd) as (fo & ? & ? & _). by assert (go = fo) as -> by congruence. }
    case_bool_decide; [by apply held_put_registry|done].
  - apply bool_decide_eq_true in Hl. unfold HouseholdSignal_release. intros (sg' & Hsg' & H)%bind_Some.
    destruct (sg_released sg'); [by injection H as <-|]. apply bind_Some in H as (go & Hg & [= <-]).
    apply held_detach; [|done..]. apply held_put_signals; [done|]. by rewrite lookup_insert_ne.
  - intros (qm & Hqm & H)%bind_Some. destruct (pm_state qm) eqn:Eq; try done. injection H as <-.
    apply held_put_pump; [done|left]. intros ->. assert (qm = pm) as -> by congruence.
    by rewrite Eq in Hlive.
  - unfold detach_resumed. case_bool_decide as Hc; [|done]. destruct Hc as [Hin _].
    intros (go & Hg & [= <-])%bind_Some.
    assert (g ≠ f) as Hgf by (intros ->; by apply (hd_waits _ _ _ _ Hd q)).
    destruct Hd as [(fo & Hfo & ? & ?) Hp1 Hs1 Ho Hw]. split; try done.
    + exists fo. cbn. by rewrite lookup_insert_ne.
    + intros g' go0. cbn. intros [[<- <-]|[_ Hg']]%lookup_insert_Some; [done|by apply Ho].
    + intros q'. cbn. specialize (Hw q'). set_solver.
  - intros (go & Hg & [= <-])%bind_Some. by apply held_for_signals.
  - intros [= <-]. by apply held_put_registry.
Qed.

Lemma held_run f s p es st st' :
  forallb (leaves_held s p) es = true → held f s p st → fanout_run es st = Some st' →
  held f s p st'.
Proof.
  revert st. induction es as [|e es IH]; intros st Hl Hd H; [by injection H as <-|].
  cbn [forallb] in Hl. apply andb_true_iff in Hl as [He Hes]. cbn [fanout_run] in H.
  apply bind_Some in H as (st1 & H1 & H). eapply IH; [done| |done]. by eapply held_step.
Qed.

(** A stream whose client goes away while the household's subscription is still
    opening is never released: [attach] lets go of its signal on
    [NotificationChannelError] only, and no handle was returned.  Whatever the other
    streams do afterwards, the subscription is not closed: its pump lives until the channel
    fails. *)
Theorem abandoned_attach_keeps_subscription (es es' : list fanout_event)
    (st st1 st2 : FanoutState) (h : HouseholdId) (f s p : nat)
    (Hrun : calm_run es st)
    (Hfirst : fs_households st !! uuid_value h = None)
    (Hattach : fanout_step (EAttach h f s p) st = Some st1)
    (Hothers : forallb (leaves_held s p) es' = true)
    (Hafter : fanout_run (attach_cleanup s AttachCancelled ++ es') st1 = Some st2) :
  ∃ pm, fs_pumps st2 !! p = Some pm ∧ is_live (pm_state pm) = true.
Proof.
  pose proof (calm_run_served _ _ Hrun) as Hst. cbn [attach_cleanup app] in Hafter.
  assert (held f s p st1) as Hd.
  { cbn [fanout_step] in Hattach. unfold fresh_names in Hattach.
    case_bool_decide as Hn; [|done]. destruct Hn as (Hf0 & Hs0 & Hp0).
    unfold HouseholdSignalFanout_attach in Hattach. rewrite Hfirst in Hattach.
    injection Hattach as <-. split; cbn.
    - rewrite lookup_insert_eq. eexists. split; [done|]. cbn. set_solver.
    - rewrite lookup_insert_eq. by eexists.
    - rewrite lookup_insert_eq. by eexists.
    - intros g go [[<- <-]|[Hne Hg]]%lookup_insert_Some; [done|].
      rewrite lookup_insert_ne in Hg by done. intros Et. pose proof (sv_task _ Hst _ _ Hg) as Ht.
      unfold task_ok in Ht. rewrite Et in Ht. destruct Ht as (? & ? & _). congruence.
    - intros q Hq. destruct (sv_awaiting _ Hst _ _ Hq) as (? & ? & _). congruence. }
  destruct (hd_pump _ _ _ _ (held_run _ _ _ _ _ _ Hothers Hd Hafter)) as (pm & ? & _ & ?).
  by exists pm.
Qed.

(** *** A stream that attaches while the last one is leaving *)

(** No pump of the fan-out is left or will be made, and the signal was not set. *)
Record deaf (h : HouseholdId) (f s : nat) (st : FanoutState) : Prop := mkDeaf {
  df_fanout : ∃ fo, fs_fanouts st !! f = Some fo ∧ fo_task fo = None;
  df_pumps : ∀ q qm, fs_pumps st !! q = Some qm → pm_fanout qm = f → pm_state qm = Ended;
  df_signal : ∃ sg, fs_signals st !! s = Some sg ∧ sg_fanout sg = f ∧ sg_wakeup sg = false ∧
    sg_lost sg = false;
  df_members : ∀ g go, fs_fanouts st !! g = Some go → s ∈ fo_signals go → g = f;
  df_registry : ∀ k, fs_households st !! k = Some f → k = uuid_value h }.

Definition leaves_deaf (h : HouseholdId) (f : nat) (e : fanout_event) : bool :=
  match e with
  | EAttach h' _ _ _ => bool_decide (uuid_value h' ≠ uuid_value h)
  | EClose g => bool_decide (g ≠ f)
  | _ => true
  end.

Lemma deaf_put_fanout h f s g go go' st :
  deaf h f s st → fs_fanouts st !! g = Some go →
  (fo_task go = None → fo_task go' = None) ∨ g ≠ f →
  (s ∈ fo_signals go' → s ∈ fo_signals go) → deaf h f s (put_fanout g go' st).
Proof.
  intros [(fo & Hfo & Ht) Hp Hs Hm Hr] Hg Et Hin. split; try done.
  - cbn. destruct (decide (g = f)) as [->|Hne].
    + rewrite lookup_insert_eq. exists go'. split; [done|]. assert (go = fo) as -> by congruence.
      destruct Et; [auto|done].
    + rewrite lookup_insert_ne by done. by exists fo.
  - intros g' go0. cbn. intros [[<- <-]|[_ Hg']]%lookup_insert_Some; [|by apply Hm].
    intros E%Hin. by apply (Hm g go).
Qed.

Lemma deaf_put_pump h f s q qm st :
  deaf h f s st → pm_fanout qm ≠ f ∨ pm_state qm = Ended → deaf h f s (put_pump q qm st).
Proof.
  intros [Hf Hp Hs Hm Hr] Hq. split; try done.
  intros q' qm'. cbn. intros [[<- <-]|[_ H]]%lookup_insert_Some; [|by apply (Hp q')].
  by destruct Hq.
Qed.

Lemma deaf_put_signals h f s v st :
  deaf h f s st → (∃ sg, v !! s = Some sg ∧ sg_fanout sg = f ∧ sg_wakeup sg = false ∧
    sg_lost sg = false) → deaf h f s (put_signals v st).
Proof. by intros [Hf Hp Hs Hm Hr] Hv. Qed.

Lemma deaf_put_registry h f s v st :
  deaf h f s st → (∀ k, v !! k = Some f → k = uuid_value h) → deaf h f s (put_registry v st).
Proof. by intros [Hf Hp Hs Hm Hr] Hv. Qed.

Lemma deaf_for_signals h f s g k fo st :
  deaf h f s st → fs_fanouts st !! k = Some fo → k ≠ f → deaf h f s (for_signals g fo st).
Proof.
  intros Hd Hk Hne. destruct (df_signal _ _ _ _ Hd) as (sg & Hsg & ?).
  assert (s ∉ fo_signals fo) as Hnot by (intros Hin; by apply Hne, (df_members _ _ _ _ Hd k fo)).
  apply deaf_put_signals; [done|]. exists sg. split; [|done].
  change (fs_signals (for_signals g fo st) !! s = Some sg).
  by rewrite for_signals_lookup, Hsg, bool_decide_false.
Qed.

Lemma deaf_step h f s e st st' :
  leaves_deaf h f e = true → deaf h f s st → fanout_step e st = Some st' → deaf h f s st'.
Proof.
  intros Hl Hd. destruct (df_signal _ _ _ _ Hd) as (sg & Hsg & Hsf & Hsw & Hsl).
  destruct (df_fanout _ _ _ _ Hd) as (fo & Hfo & Hft).
  destruct e as [h' g s' p'|q|q|q|s'|q|g q|g|]; cbn [fanout_step leaves_deaf] in *.
  - apply bool_decide_eq_true in Hl. unfold fresh_names. case_bool_decide as Hn; [|done].
    destruct Hn as (Hf0 & Hs0 & Hp0). unfold HouseholdSignalFanout_attach.
    assert (Hattach : ∀ t k ko, deaf h f s t → fs_fanouts t !! k = Some ko → k ≠ f →
      fs_signals t = fs_signals st → deaf h f s (HouseholdFanout_attach k s' p' ko t)).
    { intros t k ko Ht Hk Hne Es. unfold HouseholdFanout_attach.
      assert (s' ≠ s) as Hss by congruence.
      assert (Ht1 : deaf h f s (put_signals (<[s':=mkHouseholdSignal k false false false]> (fs_signals t)) t)).
      { apply deaf_put_signals; [done|]. exists sg. by rewrite lookup_insert_ne, Es by done. }
      destruct (fo_task ko); [|apply deaf_put_pump; [|by left]];
        (apply (deaf_put_fanout _ _ _ _ ko); [done..|by right|cbn; set_solver]). }
    destruct (fs_households st !! uuid_value h') as [k|] eqn:Ek.
    + intros (ko & Hk & [= <-])%bind_Some. apply Hattach; [done..| |done].
      intros ->. by apply Hl, (df_registry _ _ _ _ Hd).
    + intros [= <-]. apply Hattach; [|cbn; by rewrite lookup_insert_eq|congruence|done].
      assert (g ≠ f) as Hgf by congruence.
      apply deaf_put_registry.
      2: { intros k. intros [[<- E]|[_ H]]%lookup_insert_Some; [done|by apply (df_registry _ _ _ _ Hd)]. }
      destruct Hd as [_ Hp Hs Hm Hr]. split; try done.
      * exists fo. cbn. by rewrite lookup_insert_ne.
      * intros g' go0. cbn. intros [[<- <-]|[_ Hg']]%lookup_insert_Some; [cbn; set_solver|by apply Hm].
  - intros (qm & Hqm & H)%bind_Some. destruct (pm_state qm) eqn:Eq; try done.
    apply bind_Some in H as (go & Hg & [= <-]).
    assert (pm_fanout qm ≠ f) as Hne by (intros E; pose proof (df_pumps _ _ _ _ Hd _ _ Hqm E); congruence).
    apply deaf_put_pump; [|by left]. by apply (deaf_put_fanout _ _ _ _ go); [done..|right|].
  - intros (qm & Hqm & H)%bind_Some. destruct (pm_state qm) eqn:Eq; try done.
    apply bind_Some in H as (go & Hg & [= <-]).
    apply (deaf_for_signals _ _ _ _ (pm_fanout qm)); [done..|].
    intros E. pose proof (df_pumps _ _ _ _ Hd _ _ Hqm E). congruence.
  - intros (qm & Hqm & H)%bind_Some.
    assert (pm_fanout qm ≠ f) as Hne.
    { intros E. pose proof (df_pumps _ _ _ _ Hd _ _ Hqm E) as Ee. by rewrite Ee in H. }
    assert (∃ go, fs_fanouts st !! pm_fanout qm = Some go ∧ Some st' =
      Some (put_pump q (mkPump (pm_fanout qm) Ended)
        (HouseholdSignalFanout_forget (fo_household go) (pm_fanout qm)
          (for_signals HouseholdSignal_lose go (put_fanout (pm_fanout qm)
            (mkHouseholdFanout (fo_household go) (fo_signals go) (fo_task go) true true) st)))))
      as (go & Hg & [= ->]).
    { destruct (pm_state qm); try done; apply bind_Some in H as (go & Hg & <-); by exists go. }
    apply deaf_put_pump; [|by right]. unfold HouseholdSignalFanout_forget.
    assert (deaf h f s (put_fanout (pm_fanout qm)
      (mkHouseholdFanout (fo_household go) (fo_signals go) (fo_task go) true true) st)) as Hd1
      by (by apply (deaf_put_fanout _ _ _ _ go); [done..|right|]).
    assert (deaf h f s (for_signals HouseholdSignal_lose go (put_fanout (pm_fanout qm)
      (mkHouseholdFanout (fo_household go) (fo_signals go) (fo_task go) true true) st))) as Hd'.
    { destruct (df_signal _ _ _ _ Hd1) as (sg1 & Hsg1 & ?). apply deaf_put_signals; [done|].
      exists sg1. split; [|done]. change (fs_signals (for_signals HouseholdSignal_lose go
        (put_fanout (pm_fanout qm) (mkHouseholdFanout (fo_household go) (fo_signals go) (fo_task go)
        true true) st)) !! s = Some sg1). rewrite for_signals_lookup, Hsg1, bool_decide_false; [done|].
      intros Hin. by apply Hne, (df_members _ _ _ _ Hd _ go). }
    case_bool_decide; [|done]. apply deaf_put_registry; [done|].
    intros k [_ Hk]%lookup_delete_Some. by apply (df_registry _ _ _ _ Hd).
  - unfold HouseholdSignal_release. intros (sg' & Hsg' & H)%bind_Some.
    destruct (sg_released sg'); [by injection H as <-|]. apply bind_Some in H as (go & Hg & [= <-]).
    assert (Hd1 : deaf h f s (put_signals (<[s':=mkHouseholdSignal (sg_fanout sg') (sg_wakeup sg')
      (sg_lost sg') true]> (fs_signals st)) st)).
    { apply deaf_put_signals; [done|]. destruct (decide (s' = s)) as [->|Hne].
      - rewrite lookup_insert_eq. assert (sg' = sg) as -> by congruence. by eexists.
      - rewrite lookup_insert_ne by done. by exists sg. }
    unfold HouseholdFanout_detach. cbn [fo_task fo_signals fo_household fo_ready fo_failure].
    assert (Hd2 : deaf h f s (put_fanout (sg_fanout sg') (mkHouseholdFanout (fo_household go)
      (fo_signals go ∖ {[s']}) (fo_task go) (fo_ready go) (fo_failure go))
      (put_signals (<[s':=mkHouseholdSignal (sg_fanout sg') (sg_wakeup sg') (sg_lost sg') true]>
      (fs_signals st)) st))).
    { apply (deaf_put_fanout _ _ _ _ go); [done..|by left|cbn; set_solver]. }
    destruct (fo_task go) as [q|] eqn:Et; [|done]. case_bool_decide; [done|].
    assert (sg_fanout sg' ≠ f) by (intros E; rewrite E in Hg; congruence).
    assert (Hnone : deaf h f s (put_fanout (sg_fanout sg') (with_task None (mkHouseholdFanout
      (fo_household go) (fo_signals go ∖ {[s']}) (Some q) (fo_ready go) (fo_failure go)))
      (put_fanout (sg_fanout sg') (mkHouseholdFanout (fo_household go) (fo_signals go ∖ {[s']})
        (Some q) (fo_ready go) (fo_failure go)) (put_signals (<[s':=mkHouseholdSignal
        (sg_fanout sg') (sg_wakeup sg') (sg_lost sg') true]> (fs_signals st)) st)))).
    { eapply deaf_put_fanout; [done|cbn; by rewrite lookup_insert_eq|by right|done]. }
    assert (Hcanc := deaf_put_pump _ _ _ q (mkPump (sg_fanout sg') Cancelled) _ Hd2 ltac:(by left)).
    destruct (pm_state <$> _) as [[]|]; try done; by destruct Hcanc.
  - intros (qm & Hqm & H)%bind_Some. destruct (pm_state qm) eqn:Eq; try done. injection H as <-.
    apply deaf_put_pump; [done|by right].
  - unfold detach_resumed. case_bool_decide; [|done]. intros (go & Hg & [= <-])%bind_Some.
    by destruct (deaf_put_fanout _ _ _ g go (with_task None go) _ Hd Hg ltac:(by left) ltac:(done)).
  - apply bool_decide_eq_true in Hl. intros (go & Hg & [= <-])%bind_Some.
    by apply (deaf_for_signals _ _ _ _ g).
  - intros [= <-]. apply deaf_put_registry; [done|]. intros k. by rewrite lookup_empty.
Qed.

Lemma deaf_run h f s es st st' :
  forallb (leaves_deaf h f) es = true → deaf h f s st → fanout_run es st = Some st' →
  deaf h f s st'.
Proof.
  revert st. induction es as [|e es IH]; intros st Hl Hd H; [by injection H as <-|].
  cbn [forallb] in Hl. apply andb_true_iff in Hl as [He Hes]. cbn [fanout_run] in H.
  apply bind_Some in H as (st1 & H1 & H). eapply IH; [done| |done]. by eapply deaf_step.
Qed.

(** The last stream lets go, and another attaches before the pump is over. *)
Lemma late_attach st h f s p f' s' p' fo sg :
  fs_households st !! uuid_value h = Some f → fs_fanouts st !! f = Some fo →
  fo_signals fo = {[s]} → fo_task fo = Some p → fs_pumps st !! p = Some (mkPump f Listening) →
  fs_signals st !! s = Some sg → sg_fanout sg = f → sg_released sg = false →
  fresh_names f' s' p' st = true →
  fanout_run [ERelease s; EAttach h f' s' p'] st =
  Some (mkFanoutState (fs_households st)
    (<[f := mkHouseholdFanout (fo_household fo) {[s']} (Some p) (fo_ready fo) (fo_failure fo)]>
      (fs_fanouts st))
    (<[s' := mkHouseholdSignal f false false false]>
      (<[s := mkHouseholdSignal f (sg_wakeup sg) (sg_lost sg) true]> (fs_signals st)))
    (<[p := mkPump f Cancelled]> (fs_pumps st)) ({[(f, p)]} ∪ fs_awaiting st)).
Proof.
  intros Hh Hfo Es Et Hp Hsg Hsf Hrel Hn. unfold fresh_names in Hn.
  apply bool_decide_eq_true in Hn as (Hf0 & Hs0 & Hp0).
  cbn [fanout_run fanout_step]. unfold HouseholdSignal_release. rewrite Hsg. cbn [mbind option_bind].
  rewrite Hrel, Hsf, Hfo. cbn [mbind option_bind]. unfold HouseholdFanout_detach.
  cbn [fo_task fo_signals fo_household fo_ready fo_failure]. rewrite Et, Es, difference_diag_L.
  rewrite bool_decide_false by (intros []; done). cbn. rewrite Hp. cbn.
  unfold fresh_names. rewrite bool_decide_true.
  2: { cbn. rewrite !lookup_insert_ne by congruence. done. }
  unfold HouseholdSignalFanout_attach, put_awaiting, put_pump, put_fanout, put_signals.
  cbn [fs_households]. rewrite Hh. cbn [fs_fanouts]. rewrite lookup_insert_eq. cbn [mbind option_bind].
  unfold HouseholdFanout_attach. cbn. unfold put_fanout, put_signals. cbn.
  by rewrite insert_insert_eq, union_empty_r_L.
Qed.

(** A stream that attaches while the departure of the household's last one awaits
    the cancelled pump finds the subscription open, is not served by any pump, and until
    another stream of the household attaches no wait of it ends but by its deadline:
    neither a nudge nor a loss reaches it. *)
Theorem late_attach_is_deaf (es es' : list fanout_event) (st : FanoutState) (h : HouseholdId)
    (f s p f' s' p' : nat) (fo : HouseholdFanout)
    (Hrun : calm_run es st)
    (Hh : fs_households st !! uuid_value h = Some f) (Hfo : fs_fanouts st !! f = Some fo)
    (Hlast : fo_signals fo = {[s]}) (Htask : fo_task fo = Some p)
    (Hpump : fs_pumps st !! p = Some (mkPump f Listening))
    (Hready : HouseholdFanout_ready fo = Some (Ok tt))
    (Hfresh : fresh_names f' s' p' st = true)
    (Hothers : forallb (leaves_deaf h f) es' = true) :
  ∃ st1 st2 fo1,
    fanout_run [ERelease s; EAttach h f' s' p'] st = Some st1 ∧
    fs_fanouts st1 !! f = Some fo1 ∧ s' ∈ fo_signals fo1 ∧
    HouseholdFanout_ready fo1 = Some (Ok tt) ∧
    fanout_run [EEnded p; EResumed f p] st1 = Some st2 ∧
    (∀ st3, fanout_run es' st2 = Some st3 →
     ∃ sg, fs_signals st3 !! s' = Some sg ∧
       ∀ deadline, HouseholdSignal_wait deadline sg sg =
         if deadline then Some (IDLE, sg) else None).
Proof.
  pose proof (calm_run_served _ _ Hrun) as Hst.
  destruct (sv_members _ Hst f fo s Hfo ltac:(set_solver)) as (sg & Hsg & Hsf).
  assert (sg_released sg = false) as Hrel.
  { destruct (sv_signals _ Hst _ _ Hsg) as (go & Hg & Hi). rewrite Hsf in Hg.
    assert (go = fo) as -> by congruence. apply Hi. set_solver. }
  pose proof (late_attach st h f s p f' s' p' fo sg Hh Hfo Hlast Htask Hpump Hsg Hsf Hrel Hfresh) as H1.
  unfold fresh_names in Hfresh. apply bool_decide_eq_true in Hfresh as (Hf0 & Hs0 & Hp0).
  eexists _, _, _. split; [exact H1|]. cbn [fs_fanouts]. split; [by rewrite lookup_insert_eq|].
  split; [cbn; set_solver|]. split; [exact Hready|].
  cbn [fanout_run fanout_step]. unfold pump_ended. cbn [fs_pumps]. rewrite lookup_insert_eq.
  cbn [mbind option_bind pm_state]. unfold detach_resumed.
  rewrite bool_decide_true.
  2: { unfold put_pump. cbn [fs_awaiting fs_pumps]. rewrite lookup_insert_eq. split; [set_solver|done]. }
  cbn [fs_fanouts put_pump]. rewrite lookup_insert_eq. cbn [mbind option_bind]. split; [done|].
  intros st3 H3. eapply (deaf_run h f s') in H3; [|done|].
  { destruct (df_signal _ _ _ _ H3) as (sg3 & Hsg3 & _ & Hw & Hl). exists sg3. split; [done|].
    intros []; unfold HouseholdSignal_wait; by rewrite Hl, ?Hw. }
  split; cbn.
  - rewrite lookup_insert_eq. by eexists.
  - intros q qm. intros [[<- <-]|[Hne Hq]]%lookup_insert_Some; [done|].
    rewrite lookup_insert_ne in Hq by done. intros Ef. destruct (sv_pumps _ Hst _ _ Hq) as (go & Hg & Hi).
    rewrite Ef in Hg. assert (go = fo) as -> by congruence.
    destruct (decide (pm_state qm = Ended)) as [|Hn]; [done|]. specialize (Hi Hn). congruence.
  - rewrite lookup_insert_eq. by eexists.
  - intros g go [[<- <-]|[Hne Hg]]%lookup_insert_Some; [done|].
    rewrite lookup_insert_ne in Hg by done. intros Hin.
    destruct (sv_members _ Hst _ _ _ Hg Hin) as (? & ? & _). congruence.
  - intros k Hk. destruct (sv_registry _ Hst _ _ Hh) as (go & Hg & <-).
    destruct (sv_registry _ Hst _ _ Hk) as (go' & Hg' & <-). congruence.
Qed.

(** ** Witnesses *)

Lemma abandoned_attach_keeps_subscription_witness :
  let es' := [EOpened 0; EAttach (Uuid 7) 1 1 1; ERelease 1] in
  ∃ st2 pm, fanout_run (EAttach (Uuid 7) 0 0 0 :: es') no_streams = Some st2 ∧
    fs_pumps st2 !! 0 = Some pm ∧ is_live (pm_state pm) = true.
Proof.
  intros es'.
  assert (∃ st1, fanout_step (EAttach (Uuid 7) 0 0 0) no_streams = Some st1) as [st1 H1]
    by (eexists; vm_compute; reflexivity).
  assert (∃ st2, fanout_run es' st1 = Some st2) as [st2 H2].
  { vm_compute in H1. injection H1 as <-. eexists. vm_compute. reflexivity. }
  destruct (abandoned_attach_keeps_subscription [] es' no_streams st1 st2 (Uuid 7) 0 0 0
    calm_start eq_refl H1 eq_refl H2) as (pm & Hpm & Hl).
  exists st2, pm. split; [|split; [exact Hpm|exact Hl]]. cbn [fanout_run]. by rewrite H1.
Defined.

Lemma late_attach_is_deaf_witness :
  ∃ st st1 st2 sg, fanout_run demo_attach no_streams = Some st ∧
    fanout_run [ERelease 0; EAttach (Uuid 7) 1 1 1] st = Some st1 ∧
    fanout_run [EEnded 0; EResumed 0 0] st1 = Some st2 ∧
    fs_signals st2 !! 1 = Some sg ∧ HouseholdSignal_wait false sg sg = None.
Proof.
  assert (∃ st, fanout_run demo_attach no_streams = Some st) as [st H]
    by (eexists; vm_compute; reflexivity).
  pose proof (demo_attach_calm st H) as Hcalm.
  destruct (late_attach_is_deaf demo_attach [] st (Uuid 7) 0 0 0 1 1 1
    (mkHouseholdFanout (Uuid 7) {[0]} (Some 0) true false) Hcalm)
    as (st1 & st2 & fo1 & H1 & _ & _ & _ & H2 & Hdeaf).
  1-7: vm_compute in H; injection H as <-; vm_compute; reflexivity.
  - reflexivity.
  - destruct (Hdeaf st2 eq_refl) as (sg & Hsg & Hw). exists st, st1, st2, sg.
    split_and!; [exact H|exact H1|exact H2|exact Hsg|exact (Hw false)].
Defined.
