(* ===== verification/UuidText.v ===== *)
(** Reading an identifier back from its text: the standard library's [uuid.UUID(text)], as
    the headers of a message ([infrastructure/messaging/decoding.py]) and the copies of the
    dead-letter topic ([src/tools/dlq.py]) are read.  [SagaIntents.uuid_str] writes it. *)

From S2P Require Import Prelude Domain SagaIntents.
From Stdlib Require Import Ascii.

(** ** [str.replace] with nothing, [str.strip] of given characters *)

(** [skip] counts the characters of an occurrence still to be left out. *)
Fixpoint remove_all (pat l : list Ascii.ascii) (skip : nat) : list Ascii.ascii :=
  match l with
  | [] => []
  | c :: l' =>
      match skip with
      | S skip => remove_all pat l' skip
      | O => if bool_decide (pat `prefix_of` l) then remove_all pat l' (pred (length pat))
             else c :: remove_all pat l' 0
      end
  end.

Fixpoint drop_chars (chars l : list Ascii.ascii) : list Ascii.ascii :=
  match l with
  | [] => []
  | c :: l' => if bool_decide (c ∈ chars) then drop_chars chars l' else l
  end.

Definition strip_chars (chars l : list Ascii.ascii) : list Ascii.ascii :=
  rev (drop_chars chars (rev (drop_chars chars l))).

(** ** [int(text, 16)] *)

Definition hex_value (c : Ascii.ascii) : option N :=
  let n := Ascii.N_of_ascii c in
  if bool_decide (48 ≤ n ≤ 57)%N then Some (n - 48)%N
  else if bool_decide (97 ≤ n ≤ 102)%N then Some (n - 87)%N
  else if bool_decide (65 ≤ n ≤ 70)%N then Some (n - 55)%N
  else None.

(** Digits, with single underscores between them. *)
Fixpoint digits_value (acc : N) (l : list Ascii.ascii) : option N :=
  match l with
  | [] => None
  | c :: l =>
      match hex_value c with
      | None => None
      | Some v =>
          let acc := (16 * acc + v)%N in
          match l with
          | [] => Some acc
          | d :: l' => if bool_decide (d = "_"%char) then digits_value acc l' else digits_value acc l
          end
      end
  end.

(** [0x] may come before the digits, with an underscore after it. *)
Definition without_prefix (l : list Ascii.ascii) : list Ascii.ascii :=
  match l with
  | z :: x :: rest =>
      if bool_decide (z = "0"%char ∧ x ∈ ["x"%char; "X"%char]) then
        match rest with
        | u :: digits => if bool_decide (u = "_"%char) then digits else rest
        | [] => rest
        end
      else l
  | _ => l
  end.

(** The texts this is given have no minus sign. *)
Definition int_base_16 (l : list Ascii.ascii) : option N :=
  let l := strip_list l in
  digits_value 0
    (without_prefix (match l with p :: l' => if bool_decide (p = "+"%char) then l' else l | [] => l end)).

(** [UUID(text)]; [None] is its [ValueError]. *)
Definition UUID_of (s : string) : option uuid :=
  let l := remove_all ["u"%char; "r"%char; "n"%char; ":"%char] (String.list_ascii_of_string s) 0 in
  let l := remove_all ["u"%char; "u"%char; "i"%char; "d"%char; ":"%char] l 0 in
  let l := remove_all ["-"%char] (strip_chars ["{"%char; "}"%char] l) 0 in
  if bool_decide (length l = 32) then int_base_16 l else None.

(** ** Lemmas *)

(** What the writer writes: lower-case hexadecimal digits. *)
Definition is_digit (c : Ascii.ascii) : Prop := ∃ n, (n < 16)%N ∧ c = hex_digit n.

(** A property of the sixteen digits, by evaluation. *)
Lemma below_16 (P : N → Prop) n :
  Forall P (N.of_nat <$> seq 0 16) → (n < 16)%N → P n.
Proof.
  intros H Hn. rewrite Forall_forall in H. apply H, list_elem_of_fmap.
  exists (N.to_nat n). split; [lia|]. apply elem_of_seq. lia.
Qed.

Lemma is_digit_cases c : is_digit c →
  c ∈ String.list_ascii_of_string "0123456789abcdef".
Proof.
  intros (n & Hn & ->). revert n Hn.
  intros n. apply (below_16 (λ n, hex_digit n ∈ String.list_ascii_of_string "0123456789abcdef")).
  apply (bool_decide_unpack _). vm_compute. exact I.
Qed.

Lemma hex_digit_value n : (n < 16)%N → hex_value (hex_digit n) = Some n.
Proof.
  apply (below_16 (λ n, hex_value (hex_digit n) = Some n)).
  apply (bool_decide_unpack _). vm_compute. exact I.
Qed.

Lemma hex_digits_are_digits w n : Forall is_digit (hex_digits w n).
Proof.
  revert n. induction w as [|w IH]; intros n; cbn [hex_digits]; [constructor|].
  apply Forall_app. split; [done|]. apply Forall_singleton. eexists. split; [|done].
  apply N.mod_lt. lia.
Qed.

Lemma digits_value_snoc acc l c v :
  Forall is_digit l → hex_value c = Some v → c ≠ "_"%char →
  digits_value acc (l ++ [c]) = (λ n, 16 * n + v)%N <$>
    match l with [] => Some acc | _ => digits_value acc l end.
Proof.
  intros Hl Hc Hne. revert acc. induction Hl as [|x l Hx Hl IH]; intros acc.
  { cbn [app digits_value]. by rewrite Hc. }
  cbn [app digits_value]. destruct Hx as (n & Hn & ->). rewrite hex_digit_value by done.
  destruct l as [|y l]; cbn [app].
  - rewrite bool_decide_false by done. cbn [digits_value]. by rewrite Hc.
  - rewrite (bool_decide_false (y = "_"%char)).
    + by rewrite IH.
    + intros ->. apply Forall_cons in Hl as [Hl _]. apply is_digit_cases in Hl.
      revert Hl. vm_compute. set_solver.
Qed.

Lemma digits_value_hex w n acc :
  w ≠ 0 → (n < 16 ^ N.of_nat w)%N →
  digits_value acc (hex_digits w n) = Some (acc * 16 ^ N.of_nat w + n)%N.
Proof.
  revert n acc. induction w as [|w IH]; intros n acc Hw Hn; [done|]. cbn [hex_digits].
  rewrite Nat2N.inj_succ, N.pow_succ_r' in *.
  assert (n mod 16 < 16)%N as Hm by (apply N.mod_lt; lia).
  rewrite (digits_value_snoc _ _ _ (n mod 16)).
  - destruct w as [|w].
    + cbn [hex_digits fmap option_fmap option_map]. f_equal. change (N.of_nat 0) with 0%N in *.
      rewrite N.pow_0_r in *. rewrite N.mod_small by lia. lia.
    + destruct (hex_digits (S w) (n / 16)) as [|x l] eqn:E.
      { apply (f_equal length) in E. by rewrite hex_digits_length in E. }
      rewrite <- E, IH; [|done|apply N.Div0.div_lt_upper_bound; lia].
      cbn [fmap option_fmap option_map]. f_equal.
      pose proof (N.div_mod' n 16). nia.
  - apply hex_digits_are_digits.
  - by apply hex_digit_value.
  - intros E. pose proof (is_digit_cases (hex_digit (n mod 16)) ltac:(by eexists)) as Hin.
    rewrite E in Hin. revert Hin. vm_compute. set_solver.
Qed.

Lemma remove_all_absent pat l c :
  c ∈ pat → c ∉ l → remove_all pat l 0 = l.
Proof.
  intros Hp. induction l as [|x l IH]; intros Hl; [done|]. cbn [remove_all].
  rewrite bool_decide_false; [|intros [k E]; apply Hl; rewrite E; apply elem_of_app; by left].
  f_equal. apply IH. intros ?. apply Hl. by right.
Qed.

Lemma drop_chars_absent chars l : (∀ c, c ∈ l → c ∉ chars) → drop_chars chars l = l.
Proof.
  destruct l as [|x l]; intros H; [done|]. cbn. rewrite bool_decide_false; [done|].
  apply H. by left.
Qed.

Lemma strip_chars_absent chars l : (∀ c, c ∈ l → c ∉ chars) → strip_chars chars l = l.
Proof.
  intros H. unfold strip_chars. rewrite (drop_chars_absent chars l H), drop_chars_absent.
  - apply rev_involutive.
  - intros c. rewrite list_elem_of_In, <- in_rev, <- list_elem_of_In. apply H.
Qed.

Lemma remove_one_char x l : remove_all [x] l 0 = filter (λ c, c ≠ x) l.
Proof.
  induction l as [|c l IH]; [done|]. cbn [remove_all length pred].
  destruct (decide (c = x)) as [->|Hne].
  - rewrite bool_decide_true by (by exists l). rewrite filter_cons_False by tauto. done.
  - rewrite bool_decide_false by (intros [k [=]]; congruence).
    rewrite filter_cons_True by done. by rewrite IH.
Qed.

(** The digits are what is left of the text when the hyphens are gone. *)
Lemma dashed_without_hyphens h :
  length h = 32 → Forall is_digit h → filter (λ c, c ≠ "-"%char) (dashed h) = h.
Proof.
  intros Hl Hh. assert (Forall (λ c, c ≠ "-"%char) h) as Hd.
  { eapply Forall_impl; [exact Hh|]. cbn. intros c Hc%is_digit_cases ->. revert Hc. vm_compute. set_solver. }
  revert Hd. explode h Hl. unfold dashed. cbn [take drop app].
  change hyphen with "-"%char. intros Hd. repeat (apply Forall_cons in Hd as [? Hd]).
  repeat first [rewrite filter_cons_True by done
    |rewrite filter_cons_False by (intros Hx; by apply Hx)].
  done.
Qed.

Lemma strip_list_digits l : Forall is_digit l → strip_list l = l.
Proof.
  assert (∀ l, Forall is_digit l → drop_spaces l = l) as H.
  { intros k Hk. destruct Hk as [|c k Hc Hk]; [done|]. cbn.
    replace (is_space c) with false; [done|]. apply is_digit_cases in Hc. revert c Hc.
    apply Forall_forall. apply (bool_decide_unpack _). vm_compute. exact I. }
  intros Hl. unfold strip_list. rewrite (H l Hl), H; [apply rev_involutive|].
  rewrite Forall_forall in *. intros c. rewrite list_elem_of_In, <- in_rev, <- list_elem_of_In. apply Hl.
Qed.

(** Digits have neither sign nor prefix. *)
Lemma int_base_16_digits l : Forall is_digit l → int_base_16 l = digits_value 0 l.
Proof.
  intros Hl. unfold int_base_16. rewrite strip_list_digits by done.
  destruct Hl as [|a l Ha Hl]; [done|].
  assert (∀ c, is_digit c → c ∉ ["+"; "x"; "X"]%char) as Hnot.
  { intros c Hc%is_digit_cases. revert c Hc. apply Forall_forall.
    apply (bool_decide_unpack _). vm_compute. exact I. }
  rewrite bool_decide_false by (intros ->; apply (Hnot _ Ha); by left).
  destruct Hl as [|b l Hb Hl]; [done|]. cbn [without_prefix].
  rewrite bool_decide_false; [done|]. intros [_ Hx]. apply (Hnot _ Hb). by right.
Qed.

(** The characters of an identifier's text. *)
Lemma uuid_str_chars u c :
  c ∈ String.list_ascii_of_string (uuid_str u) → c ∈ String.list_ascii_of_string "-0123456789abcdef".
Proof.
  rewrite uuid_str_digits. pose proof (hex_digits_length 32 u) as Hlen.
  pose proof (hex_digits_are_digits 32 u) as Hdig. set (h := hex_digits 32 u) in *. intros Hc.
  destruct (decide (c = "-"%char)) as [->|Hne]; [by left|].
  assert (c ∈ h) as Hin by (rewrite <- (dashed_without_hyphens h Hlen Hdig); by apply list_elem_of_filter).
  rewrite Forall_forall in Hdig. specialize (Hdig c Hin). right. by apply is_digit_cases.
Qed.

(** [UUID(str(u))] is [u]. *)
Lemma UUID_of_str u : (u < 2 ^ 128)%N → UUID_of (uuid_str u) = Some u.
Proof.
  intros Hu. unfold UUID_of. pose proof (uuid_str_chars u) as Hchars. rewrite uuid_str_digits in *.
  pose proof (hex_digits_length 32 u) as Hlen. pose proof (hex_digits_are_digits 32 u) as Hdig.
  set (h := hex_digits 32 u) in *.
  assert (∀ x, x ∉ String.list_ascii_of_string "-0123456789abcdef" → x ∉ dashed h) as Habsent
    by (intros x Hx Hin; by apply Hx, Hchars).
  assert (":"%char ∉ dashed h) as Hcolon
    by (apply Habsent; apply (bool_decide_unpack _); vm_compute; exact I).
  rewrite (remove_all_absent ["u"; "r"; "n"; ":"]%char _ ":"%char); [|by repeat constructor|done].
  rewrite (remove_all_absent ["u"; "u"; "i"; "d"; ":"]%char _ ":"%char); [|by repeat constructor|done].
  rewrite strip_chars_absent.
  2: { intros c Hc%Hchars Hb. revert Hc. apply elem_of_cons in Hb as [->|Hb];
       [|apply list_elem_of_singleton in Hb as ->]; apply (bool_decide_unpack _); vm_compute; exact I. }
  rewrite remove_one_char, (dashed_without_hyphens h Hlen Hdig), bool_decide_true by exact Hlen.
  rewrite int_base_16_digits by done. unfold h. rewrite digits_value_hex; [|done|].
  - done.
  - exact Hu.
Qed.
