(* ===== verification/Decoding.v ===== *)
(** Turning a Kafka delivery back into a domain event with its provenance
    ([infrastructure/messaging/decoding.py]), and the worker's handler from the message on
    ([workers/consumers.py]).

    What the standard library and pydantic do with text is an interface: reading a body as
    JSON, validating it as an event, reading and writing an instant. *)

From S2P Require Import Prelude Domain Topics Rows Database Delivery Relay SagaIntents UuidText.
From stdpp Require Import pretty.
From Stdlib Require Import Ascii.

(** ** The text of a message *)

(** [datetime.fromisoformat]: an instant, or a local time without an offset. *)
Inductive parsed_instant := Aware (t : datetime) | Naive.

Class MessageText := {
  isoformat : datetime → string;
  fromisoformat : string → option parsed_instant;
  Document : Type;
  json_dumps : DomainEvent → string;
  json_loads : string → option Document;
  validate_event : string → Document → option DomainEvent }.

(** An instant is read back as it was written. *)
Class InstantText (text : MessageText) : Prop :=
  fromisoformat_isoformat : ∀ t, fromisoformat (isoformat t) = Some (Aware t).

Section Decoding.
Context {text : MessageText}.

(** ** Decoding *)

Definition read_header (message : KafkaMessage) (name : string) : option string :=
  km_headers message !! name.

(** [None]: skip and acknowledge. *)
Definition decode_event (message : KafkaMessage) : option DomainEvent :=
  name ← read_header message "event_name";
  model ← event_type_for name;
  document ← json_loads (km_body message);
  validate_event model document.

Definition as_uuid (raw : option string) : option uuid := raw ≫= UUID_of.

(** [_as_datetime]. *)
Definition as_datetime (raw : option string) : option parsed_instant := raw ≫= fromisoformat.

(** [raw or default]: an empty text counts as absent. *)
Definition text_or (raw : option string) (otherwise : string) : string :=
  match raw with
  | Some s => if bool_decide (s = ""%string) then otherwise else s
  | None => otherwise
  end.

(** [MessageContext] accepts an aware instant only. *)
Definition provenance_of (message : KafkaMessage) (event_id : uuid) (now : datetime) :
    result MessageContext :=
  observed_at ← match as_datetime (read_header message "occurred_at") with
                | Some Naive => Raise ValidationError
                | Some (Aware t) => Ok (Some t)
                | None => Ok None
                end;
  Ok (reaction_context (text_or (read_header message "raised_by") UNKNOWN_RAISER) event_id
    (as_uuid (read_header message "correlation_id")) (read_header message "traceparent")
    observed_at now).

Definition decode_message (message : KafkaMessage) (now : datetime) :
    result (option PublishedMessage) :=
  match decode_event message with
  | None => Ok None
  | Some decoded =>
      context ← provenance_of message (event_id decoded) now;
      Ok (Some (mkPublishedMessage decoded context))
  end.

(** The handler [build_consumer_handler] returns: what decoding raises leaves it before the
    failure policy. *)
Definition worker_handle (consumer : Consumer) (consumer_group : string) (message : KafkaMessage)
    (now : datetime) (attempts : nat → attempt_env) (aside : aside_env) (policy : FailurePolicy)
    (d : Database) (copies : list DeliveryDeadLetter) :
    option (result bool * Database * list DeliveryDeadLetter) :=
  match decode_message message now with
  | Raise e => Some (Raise e, d, copies)
  | Ok delivered =>
      subscriber_handle consumer consumer_group message delivered attempts aside policy d copies
  end.

(** ** What the publisher writes, as a consumer receives it *)

Definition header_text (v : header_value) : string :=
  match v with
  | HText s => s
  | HUuid u => uuid_str u
  | HInt z => pretty z
  | HTime t => isoformat t
  end.

Definition delivered_as (r : KafkaRecord) : KafkaMessage :=
  mkKafkaMessage (kr_topic r) (Some (uuid_str (kr_key r))) (json_dumps (kr_body r))
    (list_to_map (prod_map id header_text <$> kr_headers r)).

(** ** Lemmas *)

Lemma header_of_event m name v :
  NoDup (headers_for m).*1 → (name, v) ∈ headers_for m →
  read_header (delivered_as (record_of m)) name = Some (header_text v).
Proof.
  intros Hnd Hin. unfold read_header, delivered_as. cbn [km_headers record_of kr_headers].
  apply elem_of_list_to_map_1.
  - rewrite <- list_fmap_compose. erewrite list_fmap_ext; [exact Hnd|]. by intros ? [] ?.
  - apply list_elem_of_fmap. by exists (name, v).
Qed.

Lemma header_absent m name :
  name ∉ (headers_for m).*1 → read_header (delivered_as (record_of m)) name = None.
Proof.
  intros Hin. unfold read_header, delivered_as. cbn [km_headers record_of kr_headers].
  apply not_elem_of_list_to_map_1. rewrite <- list_fmap_compose.
  erewrite list_fmap_ext; [exact Hin|]. by intros ? [] ?.
Qed.

Lemma headers_for_NoDup m : NoDup (headers_for m).*1.
Proof.
  unfold headers_for. destruct (om_correlation_id m), (om_causation_id m), (om_traceparent m);
    apply (bool_decide_unpack _); vm_compute; exact I.
Qed.

(** The headers of an outbox message, read back. *)
Lemma read_published m :
  let r := read_header (delivered_as (record_of m)) in
  r "event_name" = Some (om_event_name m) ∧ r "raised_by" = Some (om_raised_by m) ∧
  r "correlation_id" = uuid_str <$> om_correlation_id m ∧
  r "traceparent" = om_traceparent m ∧ r "occurred_at" = Some (isoformat (om_observed_at m)).
Proof.
  pose proof (headers_for_NoDup m) as Hnd. cbn zeta. split_and!.
  - apply (header_of_event m _ (HText (om_event_name m)) Hnd). by left.
  - apply (header_of_event m _ (HText (om_raised_by m)) Hnd). unfold headers_for. set_solver.
  - destruct (om_correlation_id m) as [u|] eqn:E.
    + apply (header_of_event m _ (HUuid u) Hnd). unfold headers_for. rewrite E. set_solver.
    + apply header_absent. unfold headers_for. rewrite E.
      destruct (om_causation_id m), (om_traceparent m); apply (bool_decide_unpack _); vm_compute; exact I.
  - destruct (om_traceparent m) as [t|] eqn:E.
    + apply (header_of_event m _ (HText t) Hnd). unfold headers_for. rewrite E. set_solver.
    + apply header_absent. unfold headers_for. rewrite E.
      destruct (om_causation_id m), (om_correlation_id m); apply (bool_decide_unpack _); vm_compute; exact I.
  - apply (header_of_event m _ (HTime (om_observed_at m)) Hnd). unfold headers_for. set_solver.
Qed.

Lemma event_type_for_event e : event_type_for (event_name (body e)) = Some (event_name (body e)).
Proof. destruct e as [i t b]. by destruct b. Qed.

(** ** Theorems *)

(** [C26] What a transaction appends to the outbox is what its consumers decode: the
    event, raised by whoever raised it, caused by the event itself, on the conversation of
    the transaction or, when it had none, on one the event starts.  The event's document
    must validate as what it was dumped from. *)
Theorem published_event_decodes `{!InstantText text} (e : DomainEvent)
    (provenance : option MessageContext) (id : Z) (row : OutboxModel) (now : datetime)
    (Hbody : json_loads (json_dumps e) ≫= validate_event (event_name (body e)) = Some e)
    (Hrow : outbox_model_from_event e provenance id = Ok row)
    (Hid : ∀ u, provenance ≫= mc_correlation_id = Some u → (u < 2 ^ 128)%N) :
  decode_message (delivered_as (record_of (outbox_message_from_model row))) now =
  Ok (Some (mkPublishedMessage e (mkMessageContext
    (text_or (mc_raised_by <$> provenance) UNKNOWN_RAISER)
    (Some (default (event_id e) (provenance ≫= mc_correlation_id))) (Some (event_id e))
    (provenance ≫= mc_traceparent)
    (match provenance with Some c => mc_observed_at c | None => occurred_at e end)))).
Proof.
  unfold outbox_model_from_event in Hrow. apply bind_Ok in Hrow as (topic & _ & [= <-]).
  set (m := outbox_message_from_model _).
  destruct (read_published m) as (Hname & Hraiser & Hcorr & Htrace & Hat).
  assert (Hevent : decode_event (delivered_as (record_of m)) = Some e).
  { unfold decode_event. rewrite Hname. cbn. rewrite event_type_for_event. exact Hbody. }
  assert (Hu : as_uuid (uuid_str <$> om_correlation_id m) = provenance ≫= mc_correlation_id).
  { change (om_correlation_id m) with (provenance ≫= mc_correlation_id).
    destruct (provenance ≫= mc_correlation_id) as [u|]; [|done]. cbn. by apply UUID_of_str, Hid. }
  unfold decode_message. rewrite Hevent. unfold provenance_of, as_datetime.
  rewrite Hat, Hraiser, Hcorr, Htrace, Hu. cbn [mbind option_bind].
  rewrite fromisoformat_isoformat. by destruct provenance.
Qed.

(** A message whose event is in order but whose [occurred_at] header is a local time
    without an offset is not repaired: decoding raises, before the claim and outside the
    failure policy, so that every delivery of it to any consumer raises, is moved nowhere,
    and leaves the transport to offer it again. *)
Theorem naive_instant_blocks_delivery (message : KafkaMessage) (e : DomainEvent) (raw : string)
    (Hevent : decode_event message = Some e)
    (Hraw : read_header message "occurred_at" = Some raw)
    (Hnaive : fromisoformat raw = Some Naive)
    (consumer : Consumer) (consumer_group : string) (now : datetime)
    (attempts : nat → attempt_env) (aside : aside_env) (policy : FailurePolicy)
    (d : Database) (copies : list DeliveryDeadLetter) :
  worker_handle consumer consumer_group message now attempts aside policy d copies =
  Some (Raise ValidationError, d, copies).
Proof.
  unfold worker_handle, decode_message. rewrite Hevent. unfold provenance_of, as_datetime.
  rewrite Hraw. cbn [mbind option_bind]. by rewrite Hnaive.
Qed.

(** Everything else decodes, or is skipped: a body that is no JSON, a name that is not in
    the catalogue, a body that does not validate, and any other header that is malformed. *)
Lemma decoding_is_total message now :
  (∀ raw, read_header message "occurred_at" = Some raw → fromisoformat raw ≠ Some Naive) →
  ∃ r, decode_message message now = Ok r ∧ pub_event <$> r = decode_event message.
Proof.
  intros Hn. unfold decode_message. destruct (decode_event message) as [e|]; [|by eexists].
  unfold provenance_of, as_datetime. destruct (read_header message "occurred_at") as [raw|]; cbn.
  - specialize (Hn raw eq_refl). destruct (fromisoformat raw) as [[t|]|]; [|done|]; by eexists.
  - by eexists.
Qed.
End Decoding.

(** ** Witnesses

    A text for the examples: an instant is its sign and its magnitude in strokes, and the
    only document is the one event. *)

Definition demo_instant (t : datetime) : string :=
  String.String (if bool_decide (0 ≤ t)%Z then "+"%char else "-"%char)
    (String.string_of_list_ascii (replicate (Z.to_nat (Z.abs t)) "|"%char)).

Definition demo_parse_instant (s : string) : option parsed_instant :=
  match s with
  | String.String c s =>
      let n := Z.of_nat (String.length s) in
      if bool_decide (c = "+"%char) then Some (Aware n)
      else if bool_decide (c = "-"%char) then Some (Aware (- n)%Z) else Some Naive
  | String.EmptyString => None
  end.

Definition demo_event : DomainEvent := mkEvent 9 5 (WateringDue (Uuid 1) 5).

Definition demo_text : MessageText := {|
  isoformat := demo_instant;
  fromisoformat := demo_parse_instant;
  Document := unit;
  json_dumps := λ _, "{}"%string;
  json_loads := λ s, if bool_decide (s = "{}"%string) then Some tt else None;
  validate_event := λ name _, if bool_decide (name = "WateringDue"%string) then Some demo_event else None |}.

Lemma demo_text_instants : @InstantText demo_text.
Proof.
  intros t. cbn. unfold demo_instant, demo_parse_instant.
  assert (String.length (String.string_of_list_ascii (replicate (Z.to_nat (Z.abs t)) "|"%char))
    = Z.to_nat (Z.abs t)) as ->.
  { by rewrite string_length_list, String.list_ascii_of_string_of_list_ascii, length_replicate. }
  repeat case_bool_decide; try done; do 2 f_equal; lia.
Qed.

Lemma published_event_decodes_witness :
  let ctx := mkMessageContext "user:1" (Some 77%N) None None 4 in
  ∃ row, outbox_model_from_event demo_event (Some ctx) 0 = Ok row ∧
    @decode_message demo_text (@delivered_as demo_text (record_of (outbox_message_from_model row))) 100 =
    Ok (Some (mkPublishedMessage demo_event (mkMessageContext "user:1" (Some 77%N) (Some 9%N) None 4))).
Proof.
  intros ctx. eexists. split; [reflexivity|].
  apply (@published_event_decodes demo_text demo_text_instants demo_event (Some ctx) 0).
  - reflexivity.
  - reflexivity.
  - intros u [= <-]. lia.
Defined.

Lemma naive_instant_blocks_delivery_witness :
  @worker_handle demo_text (mkConsumer "missed-care" ["WateringDue"] (λ _, mret tt)) "missed-care"
    (mkKafkaMessage "care.events" None "{}"
      {["event_name"%string := "WateringDue"%string; "occurred_at"%string := "2026-01-01T00:00:00"%string]})
    5 (λ _, mkAttemptEnv None (mret tt) Acknowledged) (mkAsideEnv None Acknowledged Acknowledged)
    demo_policy empty_database [] =
  Some (Raise ValidationError, empty_database, []).
Proof.
  apply (@naive_instant_blocks_delivery demo_text _ demo_event "2026-01-01T00:00:00").
  - vm_compute. reflexivity.
  - vm_compute. reflexivity.
  - vm_compute. reflexivity.
Defined.
