(* ===== verification/RawDelivery.v ===== *)
(** One raw measurement on its way in: the handler of [telemetry.raw] in the worker
    ([workers/consumers.py], [register_telemetry_ingest]), around [Ingest]. *)

From S2P Require Import Prelude Domain Telemetry Topics Rows Database UnitOfWork Repositories.
From S2P Require Import Delivery Ingest UuidText Decoding.

Definition TELEMETRY_RAISER : string := "service:iot-simulator".

(** The provenance of a raw delivery: it starts a conversation of its own. *)
Definition raw_context (message : KafkaMessage) (minted : uuid) (now : datetime) : MessageContext :=
  request_context (text_or (read_header message "raised_by") TELEMETRY_RAISER)
    (read_header message "traceparent") None None minted now.

(** What an attempt meets: nothing, a failure before anything was committed, or a failure
    after its commit, whose acknowledgement was lost. *)
Inductive raw_fate := Runs | FailsBefore (e : exn) | FailsAfter (e : exn).

Record raw_env := mkRawEnv { re_fate : raw_fate; re_mint : nat → uuid }.

(** The rows, the copies on the dead-letter topic, and how many attempts were made.  A
    transaction that failed leaves nothing behind in its unit of work, for its events were
    appended and not tracked, so each attempt is a transaction on the rows. *)
Record RawScope := mkRawScope {
  rs_db : Database;
  rs_copies : list DeliveryDeadLetter;
  rs_attempts : nat }.

Section Handler.
Context (document_of : string → option RawDocument) (consumer_group : string)
  (message : KafkaMessage) (ctx : MessageContext) (attempts : nat → raw_env)
  (broker : commit_fate) (policy : FailurePolicy).

Let doc := document_of (km_body message).

Definition raw_attempt (env : raw_env) (d : Database) : result bool * Database :=
  match re_fate env with
  | Runs => run_bound (Some ctx) (ingest doc (re_mint env)) d
  | FailsBefore e => (Raise e, d)
  | FailsAfter e =>
      let '(r, d) := run_bound (Some ctx) (ingest doc (re_mint env)) d in
      (match r with Ok _ => Raise e | Raise x => Raise x end, d)
  end.

Definition raw_deliver (sc : RawScope) : result bool * RawScope :=
  let '(r, d) := raw_attempt (attempts (rs_attempts sc)) (rs_db sc) in
  (r, mkRawScope d (rs_copies sc) (S (rs_attempts sc))).

(** There is no claim to record: the copy is all.  The broker may refuse it, or take it and
    lose the acknowledgement. *)
Definition raw_move_aside (error : exn) (sc : RawScope) : result unit * RawScope :=
  let copied := mkRawScope (rs_db sc)
    (rs_copies sc ++ [dead_letter_for message consumer_group error]) (rs_attempts sc) in
  match broker with
  | Acknowledged => (Ok tt, copied)
  | Refused e => (Raise e, sc)
  | Unacknowledged e => (Raise e, copied)
  end.

(** The handler [build_telemetry_ingest_handler] returns: how it ends, the rows and the
    copies. *)
Definition telemetry_handle (d : Database) (copies : list DeliveryDeadLetter) :
    option (result unit * Database * list DeliveryDeadLetter) :=
  '(r, sc, _) ← run_with_failure_policy raw_deliver raw_move_aside policy (mkRawScope d copies 0);
  Some (match r with Ok _ => Ok tt | Raise e => Raise e end, rs_db sc, rs_copies sc).

(** ** Lemmas *)

(** The rows after any number of attempts: as they were, or with the reading stored and
    announced by one of them. *)
Inductive ingested (d : Database) : Database → Prop :=
  | ingested_not : ingested d d
  | ingested_once raw m mint d' :
      parse_raw_reading doc = Some raw →
      db_sensors d !! raw_sensor_id raw = Some m → db_readings d !! raw_key raw = None →
      db_readings d' = <[raw_key raw := reading_to_model (stored_reading raw m)]> (db_readings d) →
      published d' = published d ++ stamp_events mint (raw_recorded_at raw)
        (reading_event_bodies (Uuid (raw_sensor_id raw)) (Uuid (sm_plant_id m)) (raw_reading raw)) →
      ingested d d'.

(** A reading that is stored is not stored again. *)
Lemma ingest_again mint raw d r :
  parse_raw_reading doc = Some raw → db_readings d !! raw_key raw = Some r →
  (run_bound (Some ctx) (ingest doc mint) d).2 = d.
Proof.
  intros Hraw Hr. rewrite ingest_run, Hraw. destruct (db_sensors d !! raw_sensor_id raw) as [m|]; [|done].
  rewrite ingest_store_run. cbn [stored_reading tr_sensor_id tr_recorded_at uuid_value].
  fold (raw_key raw). by rewrite Hr.
Qed.

Lemma ingest_keeps mint d d1 :
  ingested d d1 → ingested d (run_bound (Some ctx) (ingest doc mint) d1).2.
Proof.
  intros [|raw m mint' d' Hraw Hs Hnew Hr Hp].
  - destruct (run_bound (Some ctx) (ingest doc mint) d) as [r d'] eqn:E. cbn.
    destruct (ingest_cases _ _ _ _ _ _ E) as [->|(raw & m & Hraw & Hs & Hnew & Hr & Hp)]; [constructor|].
    by eapply ingested_once.
  - rewrite (ingest_again mint raw d' (reading_to_model (stored_reading raw m))).
    + by eapply ingested_once.
    + done.
    + by rewrite Hr, lookup_insert_eq.
Qed.

Lemma attempt_keeps env d d1 : ingested d d1 → ingested d (raw_attempt env d1).2.
Proof.
  intros H. unfold raw_attempt. destruct (re_fate env); [by apply ingest_keeps|done|].
  pose proof (ingest_keeps (re_mint env) d d1 H). by destruct (run_bound _ _ d1).
Qed.

Lemma deliver_keeps d k sc :
  ingested d (rs_db sc) →
  ingested d (rs_db (state_after raw_deliver k sc)) ∧
  rs_copies (state_after raw_deliver k sc) = rs_copies sc.
Proof.
  intros H. induction k as [|k [IH1 IH2]]; [done|].
  change (state_after raw_deliver (S k) sc) with (raw_deliver (state_after raw_deliver k sc)).2.
  set (sk := state_after raw_deliver k sc) in *.
  pose proof (attempt_keeps (attempts (rs_attempts sk)) d (rs_db sk) IH1) as Hk.
  unfold raw_deliver. destruct (raw_attempt _ _) as [r d']. by split.
Qed.

Lemma ingested_announced d d' : ingested d d' → readings_announced d → readings_announced d'.
Proof. intros [|raw m mint d1 _ _ Hnew Hr Hp]; [done|]. by eapply stored_announced. Qed.

(** An attempt that answers has the reading in the table, or a reason to drop it. *)
Lemma attempt_answers env d b d' :
  raw_attempt env d = (Ok b, d') →
  match parse_raw_reading doc with
  | None => True
  | Some raw => db_sensors d !! raw_sensor_id raw = None ∨ is_Some (db_readings d' !! raw_key raw)
  end.
Proof.
  unfold raw_attempt. destruct (re_fate env) as [|e|e]; [|done|by destruct (run_bound _ _ d) as [[]]].
  rewrite ingest_run. destruct (parse_raw_reading doc) as [raw|]; [|done].
  destruct (db_sensors d !! raw_sensor_id raw) as [m|]; [|by left]. intros H. right.
  rewrite ingest_store_run in H. cbn [stored_reading tr_sensor_id tr_recorded_at tr_moisture
    tr_temperature tr_light uuid_value] in H. fold (raw_key raw) in H.
  destruct (db_readings d !! raw_key raw) as [old|] eqn:Eold; [injection H as _ <-; by eexists|].
  destruct (Sensor_record _ _ _) as [s|]; [|done].
  destruct (replay_writes _ _) as [d2|] eqn:Er; [|done]. injection H as _ <-.
  apply outbox_statements_published in Er as [_ Hd]. cbn. rewrite Hd. cbn.
  rewrite lookup_insert_eq. by eexists.
Qed.

(** The same, seen from the rows before the first attempt. *)
Lemma answered_stored env d d1 b d' :
  ingested d d1 → raw_attempt env d1 = (Ok b, d') →
  match parse_raw_reading doc with
  | None => True
  | Some raw => db_sensors d !! raw_sensor_id raw = None ∨ is_Some (db_readings d' !! raw_key raw)
  end.
Proof.
  intros Hd1 Ha. pose proof (attempt_answers _ _ _ _ Ha) as Hans. destruct Hd1 as
    [|raw m mint d1 Hraw Hs Hnew Hr Hp]; [done|]. rewrite Hraw in *. right.
  assert (db_readings d1 !! raw_key raw = Some (reading_to_model (stored_reading raw m))) as Hin
    by (by rewrite Hr, lookup_insert_eq).
  unfold raw_attempt in Ha. destruct (re_fate env) as [|e|e]; [|done|by destruct (run_bound _ _ d1) as [[]]].
  pose proof (ingest_again (re_mint env) raw d1 _ Hraw Hin) as Hsame. rewrite Ha in Hsame. cbn in Hsame.
  subst d'. by eexists.
Qed.

(** ** Theorems *)

(** [C36] A raw delivery is taken at most once and never lost in silence.  Its handling ends,
    within the attempts of the policy; whatever fails, and however often a commit is made
    but not acknowledged, the rows are as before or hold the one reading with its events,
    once.  When the delivery is acknowledged the message was unreadable, its sensor was
    unknown, the reading is in the table, or one copy of the message with its cause is on
    the dead-letter topic.  When it is not, the copy was refused, or the broker took it and
    its acknowledgement was lost: the message is offered again, and at most one copy of this
    handling is on the topic. *)
Theorem raw_delivery_outcome (d : Database) (copies : list DeliveryDeadLetter) :
  (1 ≤ max_attempts policy ≤ 1025)%Z →
  ∃ r d' copies', telemetry_handle d copies = Some (r, d', copies') ∧ ingested d d' ∧
    (readings_announced d → readings_announced d') ∧
    match r with
    | Raise e =>
        (broker = Refused e ∧ copies' = copies) ∨
        (broker = Unacknowledged e ∧
         ∃ error, copies' = copies ++ [dead_letter_for message consumer_group error])
    | Ok _ =>
        (∃ error, copies' = copies ++ [dead_letter_for message consumer_group error]) ∨
        copies' = copies ∧
        match parse_raw_reading doc with
        | None => True
        | Some raw =>
            db_sensors d !! raw_sensor_id raw = None ∨ is_Some (db_readings d' !! raw_key raw)
        end
    end.
Proof.
  intros Hp. destruct (policy_loop_outcome raw_deliver raw_move_aside policy
    (Z.to_nat (max_attempts policy)) 0 (mkRawScope d copies 0)) as (n & waits & _ & _ & _ & _ & Hrun); [lia..|].
  destruct (deliver_keeps d n (mkRawScope d copies 0) (ingested_not d)) as [Hn Hcopies].
  unfold telemetry_handle, run_with_failure_policy.
  set (sc := state_after raw_deliver n (mkRawScope d copies 0)) in *. cbn [rs_copies] in Hcopies.
  assert (raw_deliver sc = let '(r, d') := raw_attempt (attempts (rs_attempts sc)) (rs_db sc) in
    (r, mkRawScope d' (rs_copies sc) (S (rs_attempts sc)))) as Edel by done.
  destruct (raw_attempt (attempts (rs_attempts sc)) (rs_db sc)) as [r d'] eqn:Ea.
  rewrite Edel, Hcopies in Hrun. destruct Hrun as [Hrun _]. rewrite Hrun.
  pose proof (attempt_keeps (attempts (rs_attempts sc)) d (rs_db sc) Hn) as Hd'. rewrite Ea in Hd'.
  pose proof (ingested_announced d d' Hd') as Hra.
  destruct r as [b|e]; [|unfold moved_aside, raw_move_aside; cbn [rs_db rs_copies rs_attempts];
    destruct broker as [|x|x]].
  - exists (Ok tt), d', copies. split_and!; [done..|]. right. split; [done|].
    exact (answered_stored _ _ _ _ _ Hn Ea).
  - exists (Ok tt), d', (copies ++ [dead_letter_for message consumer_group e]).
    split_and!; try done. left. by exists e.
  - exists (Raise x), d', copies. split_and!; try done. by left.
  - exists (Raise x), d', (copies ++ [dead_letter_for message consumer_group e]).
    split_and!; try done. right. split; [done|by exists e].
Qed.
End Handler.

(** ** Concrete inputs *)

(** A body of one text is the demo document; every other is unreadable. *)
Definition demo_documents (body : string) : option RawDocument :=
  if bool_decide (body = "reading"%string) then Some (demo_document 3) else None.

Definition demo_raw_message : KafkaMessage := mkKafkaMessage "telemetry.raw" None "reading" ∅.

(** The first attempt loses its commit's acknowledgement, the second finds the reading. *)
Definition demo_raw_attempts (k : nat) : raw_env :=
  match k with
  | O => mkRawEnv (FailsAfter (OperationError 1)) (demo_mint 1)
  | _ => mkRawEnv Runs (demo_mint 2)
  end.

Lemma raw_delivery_outcome_witness :
  ∃ r d' copies', telemetry_handle demo_documents "plantkeeper-telemetry-ingest" demo_raw_message
      (raw_context demo_raw_message 7 0) demo_raw_attempts Acknowledged demo_policy demo_registered [] =
      Some (r, d', copies') ∧
    readings_announced d' ∧ announced_readings d' = [(5%N, 3%Z)].
Proof.
  destruct (raw_delivery_outcome demo_documents "plantkeeper-telemetry-ingest" demo_raw_message
    (raw_context demo_raw_message 7 0) demo_raw_attempts Acknowledged demo_policy demo_registered []
    ltac:(cbn; lia)) as (r & d' & copies' & Hrun & _ & Hra & _).
  exists r, d', copies'. split; [exact Hrun|]. split; [exact (Hra demo_registered_announced)|].
  assert (announced_readings (default demo_registered (snd ∘ fst <$>
    telemetry_handle demo_documents "plantkeeper-telemetry-ingest" demo_raw_message
      (raw_context demo_raw_message 7 0) demo_raw_attempts Acknowledged demo_policy demo_registered [])) =
    [(5%N, 3%Z)]) as H by (vm_compute; reflexivity).
  rewrite Hrun in H. exact H.
Defined.
