(* ===== verification/DeadLetters.v ===== *)
(** The operator's command over the dead-letter topic ([src/tools/dlq.py]): what a copy
    says, which copies are selected, how a replay clears the claim and puts the message
    back; and the copies its two writers make ([messaging/publisher.py]).

    A record's key, body and headers are bytes, which the tool decodes with replacement; how
    a failure is described is an argument of the copy. *)

From S2P Require Import Prelude Utf8 Domain Topics Rows Database Delivery Relay SagaIntents UuidText.
From S2P Require Import ReadModels ReadSide Decoding.

(** ** Copies *)

(** A record as the tool consumes or produces it. *)
Record TextRecord := mkTextRecord {
  tr_topic : string;
  tr_key : option string;
  tr_value : option string;
  tr_headers : list (string * string);
  tr_offset : Z }.

Definition DLQ_HEADERS : list string := ["consumer_group"; "original_topic"; "error"].

Record Copy := mkCopy {
  cp_offset : Z;
  cp_key : string;
  cp_body : string;
  cp_headers : gmap string string }.

(** A [dict] built from pairs: a later pair replaces an earlier one. *)
Definition dict_of (l : list (string * string)) : gmap string string :=
  foldl (λ d kv, <[kv.1 := kv.2]> d) ∅ l.

Definition as_copy (r : TextRecord) : Copy :=
  mkCopy (tr_offset r)
    (match tr_key r with None => "" | Some key => decode_replace key end)
    (match tr_value r with None => "" | Some value => decode_replace value end)
    (dict_of (prod_map id decode_replace <$> tr_headers r)).

Definition Copy_consumer_group (c : Copy) : option string := cp_headers c !! "consumer_group".
Definition Copy_original_topic (c : Copy) : string := default "" (cp_headers c !! "original_topic").
Definition Copy_error (c : Copy) : string := default "" (cp_headers c !! "error").
Definition Copy_event_name (c : Copy) : string := default "" (cp_headers c !! "event_name").
Definition Copy_event_id (c : Copy) : option uuid := cp_headers c !! "event_id" ≫= UUID_of.

Definition replay_headers (c : Copy) : gmap string string :=
  filter (λ kv, kv.1 ∉ DLQ_HEADERS) (cp_headers c).

(** ** The two writers *)

(** [publish_moved_aside]; the broker keeps the headers as pairs. *)
Definition moved_aside_headers (describe_failure : exn → string) (delivery : DeliveryDeadLetter) :
    gmap string string :=
  <["error" := describe_failure (dl_error delivery)]>
    (<["original_topic" := dl_original_topic delivery]>
      (<["consumer_group" := dl_consumer_group delivery]> (dl_headers delivery))).

Definition publish_moved_aside (describe_failure : exn → string) (delivery : DeliveryDeadLetter)
    (offset : Z) : TextRecord :=
  mkTextRecord DLQ_TOPIC (Some (dl_partition_key delivery)) (Some (dl_body delivery))
    (map_to_list (moved_aside_headers describe_failure delivery)) offset.

(** The relay's dead letter, as text. *)
Definition publish_dead_letter {text : MessageText} (m : OutboxMessage) (error : string)
    (offset : Z) : TextRecord :=
  let r := dead_letter_record m error in
  mkTextRecord (kr_topic r) (Some (uuid_str (kr_key r))) (Some (json_dumps (kr_body r)))
    (prod_map id header_text <$> kr_headers r) offset.

(** ** Selecting *)

Record Arguments_ := mkArguments {
  ar_all : bool;
  ar_event_id : option string;
  ar_consumer_group : option string;
  ar_dry_run : bool }.

(** [select]; [UUID] of an argument that is not one raises [ValueError]. *)
Definition select (copies : list Copy) (arguments : Arguments_) : result (list Copy) :=
  selected ← match ar_event_id arguments with
             | None => Ok copies
             | Some raw =>
                 match UUID_of raw with
                 | None => Raise ValueError
                 | Some wanted =>
                     Ok (filter (λ c, Copy_event_id c = Some wanted) copies)
                 end
             end;
  Ok (match ar_consumer_group arguments with
      | None => selected
      | Some g => filter (λ c, Copy_consumer_group c = Some g) selected
      end).

(** ** Clearing a claim *)

Inductive claim_line := RELAY_COPY | INGRESS_COPY | WRITE_LEDGER | READ_LEDGER | NO_CLAIM.

(** Both stores and what the producer sent, in order. *)
Record Stores := mkStores {
  st_write : Database;
  st_read : ReadDatabase;
  st_sent : list TextRecord }.

Definition clear_write_claim (g : string) (e : uuid) (d : Database) : bool * Database :=
  if bool_decide ((g, e) ∈ db_processed_events d) then
    (true, set_processed_events d (db_processed_events d ∖ {[(g, e)]}))
  else (false, d).

Definition clear_read_claim (g : string) (e : uuid) (d : ReadDatabase) : bool * ReadDatabase :=
  if bool_decide ((g, e) ∈ rd_processed_events d) then
    (true, put_ledger d (rd_processed_events d ∖ {[(g, e)]}))
  else (false, d).

Definition clear_claim (c : Copy) (st : Stores) : claim_line * Stores :=
  match Copy_consumer_group c with
  | None => (RELAY_COPY, st)
  | Some g =>
      match Copy_event_id c with
      | None => (INGRESS_COPY, st)
      | Some e =>
          let '(cleared, write) := clear_write_claim g e (st_write st) in
          if cleared : bool then (WRITE_LEDGER, mkStores write (st_read st) (st_sent st))
          else
            let '(cleared, read) := clear_read_claim g e (st_read st) in
            (if cleared : bool then READ_LEDGER else NO_CLAIM,
             mkStores write read (st_sent st))
      end
  end.

(** ** Replaying *)

Inductive replay_outcome :=
  | Replayed (claim : claim_line)
  | DeadLetterError
  | SendFailed (e : exn).

Definition replayed_record (c : Copy) : TextRecord :=
  mkTextRecord (Copy_original_topic c)
    (if bool_decide (cp_key c = ""%string) then None else Some (cp_key c))
    (Some (cp_body c)) (map_to_list (replay_headers c)) 0.

(** [replay_copy]: the claim first, then the message; [fate] is the broker's. *)
Definition replay_copy (fate : commit_fate) (c : Copy) (st : Stores) : replay_outcome * Stores :=
  if bool_decide (Copy_original_topic c = ""%string) then (DeadLetterError, st)
  else
    let '(claim, st) := clear_claim c st in
    let sent := mkStores (st_write st) (st_read st) (st_sent st ++ [replayed_record c]) in
    match fate with
    | Acknowledged => (Replayed claim, sent)
    | Refused e => (SendFailed e, st)
    | Unacknowledged e => (SendFailed e, sent)
    end.

(** [ReplayReport] and, when the producer failed, the exception that ended the run. *)
Record ReplayReport := mkReplayReport {
  rr_replayed : list (Copy * claim_line);
  rr_skipped : list Copy;
  rr_raised : option exn }.

Fixpoint run_replay (fates : nat → commit_fate) (copies : list Copy) (st : Stores) :
    ReplayReport * Stores :=
  match copies with
  | [] => (mkReplayReport [] [] None, st)
  | c :: copies =>
      match replay_copy (fates 0) c st with
      | (Replayed claim, st) =>
          let '(r, st) := run_replay (λ k, fates (S k)) copies st in
          (mkReplayReport ((c, claim) :: rr_replayed r) (rr_skipped r) (rr_raised r), st)
      | (DeadLetterError, st) =>
          let '(r, st) := run_replay (λ k, fates (S k)) copies st in
          (mkReplayReport (rr_replayed r) (c :: rr_skipped r) (rr_raised r), st)
      | (SendFailed e, st) => (mkReplayReport [] [] (Some e), st)
      end
  end.

(** [main replay]: its exit code, or what it raises; a dry run changes nothing. *)
Definition main_replay (fates : nat → commit_fate) (arguments : Arguments_) (topic : list TextRecord)
    (st : Stores) : result Z * Stores :=
  if negb (ar_all arguments) && bool_decide (ar_event_id arguments = None) then (Ok 2%Z, st)
  else
    match select (as_copy <$> topic) arguments with
    | Raise e => (Raise e, st)
    | Ok [] => (Ok 1%Z, st)
    | Ok selected =>
        if ar_dry_run arguments then (Ok 0%Z, st)
        else
          let '(report, st) := run_replay fates selected st in
          (match rr_raised report with
           | Some e => Raise e
           | None => Ok (if bool_decide (rr_skipped report = []) then 0%Z else 1%Z)
           end, st)
    end.

(** ** Lemmas *)

(** The tool's records as a consumer receives them. *)
Definition delivered_text (r : TextRecord) : KafkaMessage :=
  mkKafkaMessage (tr_topic r) (tr_key r) (default "" (tr_value r)) (dict_of (tr_headers r)).

Lemma dict_of_snoc l k v : dict_of (l ++ [(k, v)]) = <[k := v]> (dict_of l).
Proof. unfold dict_of. by rewrite foldl_app. Qed.

Lemma dict_of_list_to_map l : NoDup l.*1 → dict_of l = list_to_map l.
Proof.
  induction l as [|[k v] l IH] using rev_ind; intros Hnd; [done|].
  rewrite fmap_app in Hnd. apply NoDup_app in Hnd as (Hl & Hk & _).
  rewrite dict_of_snoc, IH by done. rewrite list_to_map_snoc; [done|].
  intros Hin. by apply (Hk k Hin); left.
Qed.

Lemma dict_of_map_to_list (m : gmap string string) : dict_of (map_to_list m) = m.
Proof. rewrite dict_of_list_to_map by apply NoDup_fst_map_to_list. apply list_to_map_to_list. Qed.

Lemma dict_of_fmap f l : dict_of (prod_map id f <$> l) = f <$> dict_of l.
Proof.
  induction l as [|[k v] l IH] using rev_ind; [by unfold dict_of; cbn; rewrite fmap_empty|].
  rewrite fmap_app. cbn [fmap list_fmap prod_map id fst snd].
  by rewrite !dict_of_snoc, IH, fmap_insert.
Qed.

(** Stripping the tool's headers undoes adding them. *)
Lemma strip_insert (h : gmap string string) k v :
  k ∈ DLQ_HEADERS →
  filter (λ kv, kv.1 ∉ DLQ_HEADERS) (<[k := v]> h) = filter (λ kv, kv.1 ∉ DLQ_HEADERS) h.
Proof.
  intros Hk. apply map_eq. intros k'. apply option_eq. intros v'.
  rewrite !map_lookup_filter_Some. cbn. destruct (decide (k = k')) as [<-|Hne].
  - split; by intros [_ []].
  - by rewrite lookup_insert_ne.
Qed.

Lemma strip_id (h : gmap string string) :
  (∀ k, k ∈ DLQ_HEADERS → h !! k = None) → filter (λ kv, kv.1 ∉ DLQ_HEADERS) h = h.
Proof.
  intros Hh. apply map_filter_id. intros k v Hv Hk. cbn in Hk. specialize (Hh k Hk). congruence.
Qed.

#[local] Hint Extern 1 (_ ∈ DLQ_HEADERS) => (apply (bool_decide_unpack _); vm_compute; exact I) : core.

Section Copies.
Context {text : MessageText} (describe_failure : exn → string).

(** The copy a consumer's failure leaves. *)
Definition consumer_copy (m : KafkaMessage) (g : string) (e : exn) (offset : Z) : Copy :=
  as_copy (publish_moved_aside describe_failure (dead_letter_for m g e) offset).

(** A message whose topic, headers and consumer group are texts, as the broker's client
    delivers them. *)
Record routable (g : string) (m : KafkaMessage) : Prop := mkRoutable {
  rt_group : is_utf8 g;
  rt_topic : km_topic m ≠ ""%string;
  rt_topic_text : is_utf8 (km_topic m);
  rt_headers : ∀ k v, km_headers m !! k = Some v → is_utf8 v }.

(** The message a replay of its copy sends: bytes that are not UTF-8 are replaced, an empty
    key is no key, and headers of the tool's names are gone. *)
Definition as_replayed (m : KafkaMessage) : KafkaMessage :=
  mkKafkaMessage (km_topic m)
    (k ← km_key m; if bool_decide (k = ""%string) then None else Some (decode_replace k))
    (decode_replace (km_body m)) (filter (λ kv, kv.1 ∉ DLQ_HEADERS) (km_headers m)).

(** A message that comes back as it was. *)
Record replayable (m : KafkaMessage) : Prop := mkReplayable {
  rp_key : ∀ k, km_key m = Some k → k ≠ ""%string ∧ is_utf8 k;
  rp_body : is_utf8 (km_body m);
  rp_headers : ∀ k, k ∈ DLQ_HEADERS → km_headers m !! k = None }.

Lemma as_replayed_id m : replayable m → as_replayed m = m.
Proof.
  intros [Hk Hb Hh]. unfold as_replayed. rewrite (decode_utf8 _ Hb), strip_id by done.
  destruct m as [t [k|] b h]; cbn in *; [|done]. destruct (Hk k eq_refl) as [Hne Hu].
  by rewrite bool_decide_false, decode_utf8.
Qed.

Lemma fmap_text (h : gmap string string) :
  (∀ k v, h !! k = Some v → is_utf8 v) → decode_replace <$> h = h.
Proof.
  intros Hh. apply map_eq. intros k. rewrite lookup_fmap.
  destruct (h !! k) as [v|] eqn:E; [|done]. cbn. f_equal. by eapply decode_utf8, Hh.
Qed.

Lemma consumer_copy_headers m g e offset :
  routable g m →
  cp_headers (consumer_copy m g e offset) =
  <["error" := decode_replace (describe_failure e)]> (<["original_topic" := km_topic m]>
    (<["consumer_group" := g]> (km_headers m))).
Proof.
  intros [Hg _ Ht Hh]. unfold consumer_copy, as_copy.
  cbn [cp_headers publish_moved_aside tr_headers]. rewrite dict_of_fmap, dict_of_map_to_list.
  unfold moved_aside_headers. cbn [dead_letter_for dl_error dl_original_topic dl_consumer_group dl_headers].
  by rewrite !fmap_insert, (fmap_text _ Hh), (decode_utf8 _ Hg), (decode_utf8 _ Ht).
Qed.

Lemma consumer_copy_reads m g e offset :
  routable g m →
  let c := consumer_copy m g e offset in
  Copy_consumer_group c = Some g ∧ Copy_original_topic c = km_topic m ∧
  Copy_event_id c = km_headers m !! "event_id"%string ≫= UUID_of.
Proof.
  intros Hm. cbn zeta. unfold Copy_consumer_group, Copy_original_topic, Copy_event_id.
  rewrite consumer_copy_headers, !lookup_insert by done. by cbn.
Qed.

Lemma consumer_copy_replayed m g e offset :
  routable g m → delivered_text (replayed_record (consumer_copy m g e offset)) = as_replayed m.
Proof.
  intros Hm. unfold delivered_text, replayed_record, as_replayed.
  destruct (consumer_copy_reads m g e offset Hm) as (_ & Htopic & _).
  cbn [tr_topic tr_key tr_value tr_headers]. rewrite Htopic. unfold replay_headers.
  rewrite dict_of_map_to_list, consumer_copy_headers, !strip_insert by auto.
  unfold consumer_copy, as_copy.
  cbn [publish_moved_aside dead_letter_for tr_key tr_value cp_key cp_body dl_partition_key dl_body].
  unfold key_text, body_text. rewrite decode_replace_idem. f_equal.
  destruct (km_key m) as [k|]; cbn; [|done]. rewrite decode_replace_idem.
  by rewrite (bool_decide_ext _ _ (decode_replace_empty k)).
Qed.

Lemma uuid_str_utf8 u : is_utf8 (uuid_str u).
Proof.
  apply ascii_utf8. intros c Hc%uuid_str_chars. revert c Hc. apply Forall_forall.
  apply (bool_decide_unpack _). vm_compute. exact I.
Qed.

(** What the relay gave up: the event as its topic would have received it. *)
Lemma relay_copy_replayed m error offset :
  let sent := delivered_as (record_of m) in
  routable "" sent → is_utf8 (km_body sent) →
  let c := as_copy (publish_dead_letter m error offset) in
  Copy_consumer_group c = None ∧ Copy_original_topic c = om_topic m ∧
  delivered_text (replayed_record c) = sent.
Proof.
  intros sent [_ Ht Hu Hh] Hb c. cbn [sent delivered_as km_topic record_of kr_topic] in Ht, Hu.
  set (own := prod_map id header_text <$> headers_for m).
  assert (Hown : NoDup own.*1 ∧ ∀ k, k ∈ DLQ_HEADERS → k ∉ own.*1).
  { unfold own. rewrite <- list_fmap_compose.
    assert ((fst ∘ prod_map id header_text) <$> headers_for m = (headers_for m).*1) as ->
      by (apply list_fmap_ext; by intros ? [] ?).
    split; [apply headers_for_NoDup|]. unfold headers_for.
    destruct (om_correlation_id m), (om_causation_id m), (om_traceparent m);
      apply Forall_forall; apply (bool_decide_unpack _); vm_compute; exact I. }
  destruct Hown as [Hnd Hdlq].
  assert (Hheaders : cp_headers c = <["error" := decode_replace error]>
    (<["original_topic" := om_topic m]> (km_headers sent))).
  { unfold c, as_copy, publish_dead_letter, dead_letter_record. cbn [cp_headers tr_headers kr_headers].
    rewrite dict_of_fmap, fmap_app. fold own. cbn [fmap list_fmap prod_map header_text id fst snd].
    change [("original_topic"%string, om_topic m); ("error"%string, error)]
      with ([("original_topic"%string, om_topic m)] ++ [("error"%string, error)]).
    rewrite app_assoc, !dict_of_snoc, dict_of_list_to_map, !fmap_insert by done.
    rewrite (decode_utf8 _ Hu). do 2 f_equal. by apply fmap_text. }
  assert (Hnone : ∀ k, k ∈ DLQ_HEADERS → km_headers sent !! k = None)
    by (intros; by apply not_elem_of_list_to_map_1, Hdlq).
  assert (Copy_original_topic c = om_topic m) as Htopic
    by (unfold Copy_original_topic; rewrite Hheaders, !lookup_insert; done).
  split_and!; [|done|].
  - unfold Copy_consumer_group. rewrite Hheaders, !lookup_insert. cbn. apply Hnone. auto.
  - unfold delivered_text, replayed_record. cbn [tr_topic tr_key tr_value tr_headers].
    rewrite Htopic. unfold replay_headers. rewrite dict_of_map_to_list, Hheaders.
    rewrite !strip_insert, strip_id by auto. unfold sent, delivered_as.
    assert (uuid_str (om_partition_key m) ≠ ""%string) as Hkey.
    { intros E. apply (f_equal String.length) in E. by rewrite uuid_str_length in E. }
    unfold c, as_copy, publish_dead_letter. cbn [cp_key cp_body tr_key tr_value default].
    cbn [dead_letter_record record_of kr_key kr_topic kr_body kr_headers].
    cbn [sent delivered_as km_body record_of kr_body] in Hb. rewrite (decode_utf8 _ Hb).
    rewrite (decode_utf8 _ (uuid_str_utf8 _)). by rewrite bool_decide_false.
Qed.
End Copies.

(** What a replay of one copy does to the stores. *)
Lemma clear_write_claim_run g e d :
  clear_write_claim g e d =
  (bool_decide ((g, e) ∈ db_processed_events d),
   set_processed_events d (db_processed_events d ∖ {[(g, e)]})).
Proof.
  unfold clear_write_claim. case_bool_decide as H; [done|]. f_equal.
  replace (db_processed_events d ∖ {[(g, e)]}) with (db_processed_events d) by set_solver.
  by destruct d.
Qed.

Lemma clear_read_claim_run g e d :
  clear_read_claim g e d =
  (bool_decide ((g, e) ∈ rd_processed_events d),
   put_ledger d (rd_processed_events d ∖ {[(g, e)]})).
Proof.
  unfold clear_read_claim. case_bool_decide as H; [done|]. f_equal.
  replace (rd_processed_events d ∖ {[(g, e)]}) with (rd_processed_events d) by set_solver.
  by destruct d.
Qed.

(** Nothing but claims of the selected copies goes, and nothing but their messages is sent. *)
Record touches_only (copies : list Copy) (st st' : Stores) : Prop := mkTouchesOnly {
  to_write : ∃ claims, st_write st' = set_processed_events (st_write st) claims ∧
    claims ⊆ db_processed_events (st_write st) ∧
    ∀ g e, (g, e) ∈ db_processed_events (st_write st) ∖ claims →
      ∃ c, c ∈ copies ∧ Copy_consumer_group c = Some g ∧ Copy_event_id c = Some e;
  to_read : ∃ claims, st_read st' = put_ledger (st_read st) claims ∧
    claims ⊆ rd_processed_events (st_read st) ∧
    ∀ g e, (g, e) ∈ rd_processed_events (st_read st) ∖ claims →
      ∃ c, c ∈ copies ∧ Copy_consumer_group c = Some g ∧ Copy_event_id c = Some e;
  to_sent : ∃ sent, st_sent st' = st_sent st ++ sent ∧
    ∀ r, r ∈ sent → ∃ c, c ∈ copies ∧ r = replayed_record c ∧ Copy_original_topic c ≠ ""%string }.

Lemma touches_nothing copies st : touches_only copies st st.
Proof.
  split.
  - exists (db_processed_events (st_write st)). split_and!; [by destruct st as [[]]|done|set_solver].
  - exists (rd_processed_events (st_read st)). split_and!; [by destruct st as [? []]|done|set_solver].
  - exists []. rewrite app_nil_r. split; [done|]. by intros r ?%not_elem_of_nil.
Qed.

Lemma touches_trans copies st1 st2 st3 :
  touches_only copies st1 st2 → touches_only copies st2 st3 → touches_only copies st1 st3.
Proof.
  intros [(w1 & E1 & S1 & H1) (r1 & F1 & T1 & I1) (l1 & G1 & J1)]
         [(w2 & E2 & S2 & H2) (r2 & F2 & T2 & I2) (l2 & G2 & J2)].
  rewrite E1 in *. rewrite F1 in *. rewrite G1 in *. cbn in *. split.
  - exists w2. split_and!; [by rewrite E2|set_solver|]. intros g e Hin.
    destruct (decide ((g, e) ∈ w1)); [apply H2|apply H1]; set_solver.
  - exists r2. split_and!; [by rewrite F2|set_solver|]. intros g e Hin.
    destruct (decide ((g, e) ∈ r1)); [apply I2|apply I1]; set_solver.
  - exists (l1 ++ l2). split; [by rewrite G2, app_assoc|]. intros r [?|?]%elem_of_app; auto.
Qed.

Lemma touches_incl copies copies' st st' :
  copies ⊆ copies' → touches_only copies st st' → touches_only copies' st st'.
Proof.
  intros Hc [(w & ? & ? & Hw) (r & ? & ? & Hr) (l & ? & Hl)]. split.
  - exists w. split_and!; [done..|]. intros g e Hin. destruct (Hw g e Hin) as (c & ? & ?). exists c. auto.
  - exists r. split_and!; [done..|]. intros g e Hin. destruct (Hr g e Hin) as (c & ? & ?). exists c. auto.
  - exists l. split; [done|]. intros x Hx. destruct (Hl x Hx) as (c & ? & ?). exists c. auto.
Qed.

Lemma clear_claim_touches c st : touches_only [c] st (clear_claim c st).2.
Proof.
  unfold clear_claim. destruct (Copy_consumer_group c) as [g|] eqn:Eg; [|apply touches_nothing].
  destruct (Copy_event_id c) as [e|] eqn:Ee; [|apply touches_nothing].
  rewrite clear_write_claim_run, clear_read_claim_run.
  assert (Hc : ∀ (X : gset (string * uuid)) g' e', (g', e') ∈ X ∖ (X ∖ {[(g, e)]}) →
    ∃ c', c' ∈ [c] ∧ Copy_consumer_group c' = Some g' ∧ Copy_event_id c' = Some e').
  { intros X g' e' Hin. exists c. destruct (decide ((g', e') = (g, e))) as [[= -> ->]|Hne]; [|set_solver].
    split_and!; [by left|done|done]. }
  destruct (touches_nothing [c] st) as [Hw Hr Hs].
  case_bool_decide; split; cbn [snd st_write st_read st_sent]; try done.
  - eexists. split_and!; [done|set_solver|apply Hc].
  - eexists. split_and!; [done|set_solver|apply Hc].
  - eexists. split_and!; [done|set_solver|apply Hc].
Qed.

Lemma replay_copy_touches fate c st : touches_only [c] st (replay_copy fate c st).2.
Proof.
  unfold replay_copy. case_bool_decide as Ht; [apply touches_nothing|].
  pose proof (clear_claim_touches c st) as Hc. destruct (clear_claim c st) as [claim st1].
  cbn [snd] in *.
  assert (touches_only [c] st (mkStores (st_write st1) (st_read st1) (st_sent st1 ++ [replayed_record c]))).
  { eapply touches_trans; [exact Hc|]. destruct (touches_nothing [c] st1) as [Hw Hr _]. split; [done..|].
    exists [replayed_record c]. split; [done|]. intros r ->%list_elem_of_singleton.
    exists c. split_and!; [by left|done|done]. }
  by destruct fate.
Qed.

Lemma run_replay_touches fates copies st : touches_only copies st (run_replay fates copies st).2.
Proof.
  revert fates st. induction copies as [|c copies IH]; intros fates st; [apply touches_nothing|].
  cbn [run_replay]. pose proof (replay_copy_touches (fates 0) c st) as Hc.
  destruct (replay_copy (fates 0) c st) as [outcome st1]. cbn [snd] in Hc.
  assert (touches_only (c :: copies) st st1) as Hc' by (eapply touches_incl; [|exact Hc]; set_solver).
  specialize (IH (λ k, fates (S k)) st1).
  assert (touches_only (c :: copies) st (run_replay (λ k, fates (S k)) copies st1).2) as Hall.
  { eapply touches_trans; [exact Hc'|]. eapply touches_incl; [|exact IH]. set_solver. }
  destruct outcome; [|by destruct (run_replay _ copies st1)|done].
  by destruct (run_replay _ copies st1).
Qed.

(** What an operator asked for. *)
Definition asked_for (arguments : Arguments_) (c : Copy) : Prop :=
  (ar_event_id arguments = None ∨ ∃ raw u, ar_event_id arguments = Some raw ∧
     UUID_of raw = Some u ∧ Copy_event_id c = Some u) ∧
  (∀ g, ar_consumer_group arguments = Some g → Copy_consumer_group c = Some g).

Lemma select_asked_for copies arguments selected c :
  select copies arguments = Ok selected → c ∈ selected → c ∈ copies ∧ asked_for arguments c.
Proof.
  unfold select, asked_for. intros (l & Hl & [= <-])%bind_Ok Hin.
  assert (c ∈ l ∧ ∀ g, ar_consumer_group arguments = Some g → Copy_consumer_group c = Some g)
    as [Hc Hg].
  { destruct (ar_consumer_group arguments) as [g|]; [|by split].
    apply list_elem_of_filter in Hin as [? ?]. by split; [|intros ? [= <-]]. }
  destruct (ar_event_id arguments) as [raw|].
  - destruct (UUID_of raw) as [u|] eqn:Eu; [|done]. injection Hl as <-.
    apply list_elem_of_filter in Hc as [? ?]. split_and!; [done|right; by exists raw, u|done].
  - injection Hl as <-. split_and!; [done|by left|done].
Qed.

(** ** Theorems *)

(** [C27] What a consumer moved aside, and what the relay gave up, is put back by a replay
    that the broker acknowledges.  The topic, the headers and the consumer group of a
    message are texts, as the broker's client delivers them.  For a consumer's copy the
    replay sends the message with its topic, key, body and headers, in which bytes of the
    key and the body that are not UTF-8 are replaced, an empty key is no key and headers of
    the tool's own names are gone — so a message with a UTF-8 body, no key or a UTF-8 key
    that is not empty, and none of these headers comes back as it was — and it restores
    whichever ledger the copy was claimed in, where the group had no claim on the event
    before, so that the message is handled as if the group had never seen it.  For the
    relay's copy, whatever error it names, the replay sends what the topic would have
    received and changes neither ledger. *)
Theorem dead_letter_roundtrip {text : MessageText} (describe_failure : exn → string)
    (m : KafkaMessage) (g : string) (error : exn) (offset : Z) (eid : uuid)
    (d : Database) (rd : ReadDatabase) (sent : list TextRecord)
    (Hm : routable g m) (Hid : km_headers m !! "event_id"%string ≫= UUID_of = Some eid)
    (Hnew : (g, eid) ∉ db_processed_events d) (Hread : (g, eid) ∉ rd_processed_events rd) :
  let c := consumer_copy describe_failure m g error offset in
  (replayable m → as_replayed m = m) ∧
  (∃ r, replay_copy Acknowledged c (mkStores (claim_only d g eid) rd sent) =
     (Replayed WRITE_LEDGER, mkStores d rd (sent ++ [r])) ∧ delivered_text r = as_replayed m) ∧
  (∃ r, replay_copy Acknowledged c
       (mkStores d (put_ledger rd ({[(g, eid)]} ∪ rd_processed_events rd)) sent) =
     (Replayed READ_LEDGER, mkStores d rd (sent ++ [r])) ∧ delivered_text r = as_replayed m) ∧
  (∀ om cause, let intended := delivered_as (record_of om) in
     routable "" intended → is_utf8 (km_body intended) →
     ∃ r, replay_copy Acknowledged (as_copy (publish_dead_letter om cause offset))
         (mkStores d rd sent) = (Replayed RELAY_COPY, mkStores d rd (sent ++ [r])) ∧
       delivered_text r = intended).
Proof.
  intros c. destruct (consumer_copy_reads describe_failure m g error offset Hm) as (Hg & Ht & He).
  fold c in Hg, Ht, He. rewrite Hid in He. pose proof (rt_topic _ _ Hm) as Htopic.
  pose proof (consumer_copy_replayed describe_failure m g error offset Hm) as Hback. fold c in Hback.
  assert (Hundo : ∀ X : gset (string * uuid), (g, eid) ∉ X → ({[(g, eid)]} ∪ X) ∖ {[(g, eid)]} = X)
    by set_solver.
  split_and!.
  - apply as_replayed_id.
  - exists (replayed_record c). split; [|done]. unfold replay_copy, clear_claim.
    rewrite bool_decide_false by congruence. rewrite Hg, He, clear_write_claim_run.
    unfold claim_only. cbn [db_processed_events set_processed_events st_write st_read st_sent].
    rewrite bool_decide_true by set_solver. cbn [st_write st_read st_sent]. rewrite Hundo by done.
    by destruct d.
  - exists (replayed_record c). split; [|done]. unfold replay_copy, clear_claim.
    rewrite bool_decide_false by congruence. rewrite Hg, He, clear_write_claim_run, clear_read_claim_run.
    cbn [st_write st_read st_sent]. rewrite bool_decide_false by done.
    cbn [rd_processed_events put_ledger]. rewrite bool_decide_true by set_solver.
    cbn [st_write st_read st_sent]. rewrite Hundo by done.
    rewrite difference_disjoint_L by set_solver. by destruct d, rd.
  - intros om cause intended Hom Hbody.
    destruct (relay_copy_replayed om cause offset Hom Hbody) as (Hg' & Ht' & Hback').
    eexists. split; [|exact Hback']. unfold replay_copy, clear_claim.
    rewrite bool_decide_false; [by rewrite Hg'|]. rewrite Ht'. exact (rt_topic _ _ Hom).
Qed.

Lemma run_replay_all fates copies st :
  (∀ k, fates k = Acknowledged) → Forall (λ c, Copy_original_topic c ≠ ""%string) copies →
  let '(report, st') := run_replay fates copies st in
  rr_skipped report = [] ∧ rr_raised report = None ∧
  st_sent st' = st_sent st ++ (replayed_record <$> copies).
Proof.
  intros Hf Ht. revert fates st Hf. induction Ht as [|c copies Hc Ht IH]; intros fates st Hf.
  { cbn. by rewrite app_nil_r. }
  cbn [run_replay]. unfold replay_copy. rewrite bool_decide_false by done. rewrite Hf.
  assert (st_sent (clear_claim c st).2 = st_sent st) as Hs.
  { unfold clear_claim. destruct (Copy_consumer_group c), (Copy_event_id c); try done.
    destruct (clear_write_claim _ _ _) as [[] ?]; [done|]. by destruct (clear_read_claim _ _ _). }
  destruct (clear_claim c st) as [claim st1]. cbn [snd] in Hs.
  specialize (IH (λ k, fates (S k))
    (mkStores (st_write st1) (st_read st1) (st_sent st1 ++ [replayed_record c])) (λ k, Hf (S k))).
  destruct (run_replay _ copies _) as [r st2]. destruct IH as (? & ? & Hs2). cbn in *.
  split_and!; [done..|]. by rewrite Hs2, Hs, <- app_assoc.
Qed.

(** Nothing is replayed by accident.  Wherever a run stops, the only rows that go are
    claims of copies the operator asked for, and what is sent are messages of such copies.
    Without [--all] or [--event-id], with a [--dry-run], or when nothing matches, neither
    store changes and nothing is sent.  When the broker takes every message and every copy
    names its topic, all that was asked for is sent, in the order of the topic. *)
Theorem replay_touches_only_selection (fates : nat → commit_fate) (arguments : Arguments_)
    (topic : list TextRecord) (st : Stores) :
  let '(code, st') := main_replay fates arguments topic st in
  (∃ copies, (∀ c, c ∈ copies → c ∈ as_copy <$> topic ∧ asked_for arguments c) ∧
     touches_only copies st st') ∧
  (ar_all arguments = false → ar_event_id arguments = None → code = Ok 2%Z ∧ st' = st) ∧
  (ar_dry_run arguments = true → st' = st) ∧
  (∀ selected, select (as_copy <$> topic) arguments = Ok selected →
     (selected = [] → st' = st) ∧
     (ar_all arguments = true ∨ ar_event_id arguments ≠ None → ar_dry_run arguments = false →
      selected ≠ [] → (∀ k, fates k = Acknowledged) →
      Forall (λ c, Copy_original_topic c ≠ ""%string) selected →
      code = Ok 0%Z ∧ st_sent st' = st_sent st ++ (replayed_record <$> selected))).
Proof.
  unfold main_replay.
  assert (Hnothing : ∃ copies, (∀ c, c ∈ copies → c ∈ as_copy <$> topic ∧ asked_for arguments c) ∧
    touches_only copies st st)
    by (exists []; split; [by intros c ?%not_elem_of_nil|apply touches_nothing]).
  destruct (negb _ && _) eqn:Enone.
  { apply andb_true_iff in Enone as [Ha%negb_true_iff Hid%bool_decide_eq_true]. split_and!; try done.
    intros selected _. split; [done|]. rewrite Ha, Hid. by intros [?|?]. }
  assert (ar_all arguments = false → ar_event_id arguments = None → False) as Hnot.
  { intros Ha Hid. by rewrite Ha, Hid in Enone. }
  destruct (select _ arguments) as [selected|e] eqn:Es; [|split_and!; try done; intros; by destruct Hnot].
  pose proof (λ c, select_asked_for _ _ _ c Es) as Hsel.
  destruct selected as [|c0 selected].
  { split_and!; try done; try (intros; by destruct Hnot). intros ? [= <-]. by split. }
  set (l := c0 :: selected) in *. destruct (ar_dry_run arguments).
  { split_and!; try done; intros; by destruct Hnot. }
  pose proof (run_replay_touches fates l st) as Ht. pose proof (run_replay_all fates l st) as Hall.
  destruct (run_replay fates l st) as [report st']. split_and!.
  - by exists l.
  - intros. by destruct Hnot.
  - done.
  - intros ? [= <-]. split; [done|]. intros _ _ _ Hf Htopics.
    destruct (Hall Hf Htopics) as (-> & -> & ->). by rewrite bool_decide_true.
Qed.

(** A second run of the same command finds the same copies: it takes back the claim that
    the handling of the first replay made, and sends the message once more. *)
Lemma second_replay_unclaims {text : MessageText} describe_failure m g error offset eid d rd sent :
  routable g m → km_headers m !! "event_id"%string ≫= UUID_of = Some eid →
  (g, eid) ∈ db_processed_events d →
  let c := consumer_copy describe_failure m g error offset in
  ∃ r, replay_copy Acknowledged c (mkStores d rd sent) = (Replayed WRITE_LEDGER,
    mkStores (set_processed_events d (db_processed_events d ∖ {[(g, eid)]})) rd (sent ++ [r])) ∧
    delivered_text r = as_replayed m.
Proof.
  intros Hm Hid Hin c.
  destruct (consumer_copy_reads describe_failure m g error offset Hm) as (Hg & Ht & He).
  fold c in Hg, Ht, He. rewrite Hid in He. pose proof (rt_topic _ _ Hm).
  exists (replayed_record c). split; [|by apply consumer_copy_replayed].
  unfold replay_copy, clear_claim. rewrite bool_decide_false by congruence.
  rewrite Hg, He, clear_write_claim_run. by rewrite bool_decide_true.
Qed.

(** ** Witnesses *)

Definition demo_moved : KafkaMessage :=
  mkKafkaMessage "care.events" (Some "plant-1"%string) "{}"
    {["event_name"%string := "WateringDue"%string; "event_id"%string := uuid_str 9]}.

Ltac utf8 := apply (bool_decide_unpack _); vm_compute; exact I.

Lemma demo_moved_routable : routable "missed-care" demo_moved.
Proof.
  split; [utf8|done|utf8|]. intros k v. unfold demo_moved. cbn [km_headers].
  intros [[_ <-]|[_ [_ <-]%lookup_singleton_Some]]%lookup_insert_Some; utf8.
Qed.

Lemma demo_moved_replayable : replayable demo_moved.
Proof.
  split.
  - intros k [= <-]. split; [done|utf8].
  - utf8.
  - intros k. cbn -[DLQ_HEADERS]. revert k. apply Forall_forall. utf8.
Qed.

Lemma dead_letter_roundtrip_witness :
  let c := @consumer_copy (λ _, "TimeoutError: late"%string) demo_moved "missed-care" (OperationError 1) 4 in
  ∃ r, replay_copy Acknowledged c
      (mkStores (claim_only empty_database "missed-care" 9) ReadDatabase_empty []) =
    (Replayed WRITE_LEDGER, mkStores empty_database ReadDatabase_empty [r]) ∧
    delivered_text r = demo_moved.
Proof.
  intros c.
  destruct (@dead_letter_roundtrip demo_text (λ _, "TimeoutError: late"%string) demo_moved
    "missed-care" (OperationError 1) 4 9 empty_database ReadDatabase_empty []
    demo_moved_routable ltac:(vm_compute; reflexivity)
    ltac:(vm_compute; by intros ?) ltac:(vm_compute; by intros ?)) as (Hid & (r & Hr & Hm) & _).
  exists r. split; [exact Hr|]. rewrite Hm. exact (Hid demo_moved_replayable).
Defined.

Definition demo_topic : list TextRecord :=
  [publish_moved_aside (λ _, "TimeoutError: late"%string)
    (dead_letter_for demo_moved "missed-care" (OperationError 1)) 4].
Definition demo_stores : Stores :=
  mkStores (claim_only empty_database "missed-care" 9) ReadDatabase_empty [].
Definition demo_arguments : Arguments_ := mkArguments false (Some (uuid_str 9)) None false.

Lemma demo_selection : select (as_copy <$> demo_topic) demo_arguments = Ok (as_copy <$> demo_topic).
Proof. vm_compute. reflexivity. Qed.

Lemma replay_touches_only_selection_witness :
  let '(code, st') := main_replay (λ _, Acknowledged) demo_arguments demo_topic demo_stores in
  code = Ok 0%Z ∧ st_sent st' = replayed_record <$> (as_copy <$> demo_topic).
Proof.
  pose proof (replay_touches_only_selection (λ _, Acknowledged) demo_arguments demo_topic
    demo_stores) as H.
  destruct (main_replay _ _ _ _) as [code st']. destruct H as (_ & _ & _ & H).
  destruct (H _ demo_selection) as [_ Hall].
  apply Hall; [right; discriminate|reflexivity|discriminate|reflexivity|].
  apply (bool_decide_unpack _). vm_compute. exact I.
Defined.
