(* ===== verification/Queries.v ===== *)
(** The questions a client asks: the read-model reader
    ([infrastructure/persistence/repositories/read_models.py],
    [application/ports/read_models.py]) and the query handlers
    ([application/queries/*.py]).

    A list is answered from the read side's tables, which the projections of [Projections]
    write; one aggregate, and the journal on a date, from the write side. *)

From S2P Require Import Prelude Domain Care Garden Catalog Telemetry Journal Rows Views Database.
From S2P Require Import UnitOfWork Repositories Idempotency Commands JournalStore.
From S2P Require Import ReadModels Projections.

(** ** The reader *)

Record PlantListRow := mkPlantListRow {
  pl_plant_id : PlantId;
  pl_household_id : HouseholdId;
  pl_species_id : SpeciesId;
  pl_name : string;
  pl_location : string;
  pl_added_at : datetime;
  pl_last_watered_at : option datetime;
  pl_removed : bool;
  pl_next_watering_at : option datetime }.

Record CareScheduleRow := mkCareScheduleRow {
  cl_plant_id : PlantId;
  cl_watering_interval : timedelta;
  cl_next_watering_at : datetime;
  cl_last_watered_at : option datetime;
  cl_version : Z }.

Record SpeciesListRow := mkSpeciesListRow {
  sl_species_id : SpeciesId;
  sl_scientific_name : string;
  sl_common_name : string;
  sl_watering_interval : timedelta;
  sl_light_requirement : LightRequirement;
  sl_version : Z }.

Record JournalTimelineRow := mkJournalTimelineRow {
  jl_entry_id : JournalEntryId;
  jl_plant_id : PlantId;
  jl_entry_type : JournalEntryType;
  jl_occurred_at : datetime;
  jl_note : option string }.

(** [SELECT ... WHERE ... ORDER BY] over a table, with the primary key of each row. *)
Definition select_where {V} (t : gmap uuid V) (where_ : uuid * V → bool)
    (le : relation (uuid * V)) `{∀ x y, Decision (le x y)} : list (uuid * V) :=
  merge_sort le (filter (λ r, where_ r = true) (map_to_list t)).

(** [ORDER BY key, primary key]. *)
Definition by_key {V} (key : V → Z) : relation (uuid * V) :=
  λ a b, lex_le (key a.2, Z.of_N a.1) (key b.2, Z.of_N b.1).
#[export] Instance by_key_dec {V} (key : V → Z) a b : Decision (by_key key a b).
Proof. unfold by_key. apply _. Defined.

Definition asserted {A} (o : option A) : result A :=
  match o with Some a => Ok a | None => Raise AssertionError end.

(** [_plant_row]. *)
Definition plant_list_row (plant_id : uuid) (g : GardenColumns) (next_watering_at : option datetime)
    (last_watered_at : option datetime) : result PlantListRow :=
  species_id ← asserted (gc_species_id g);
  name ← asserted (gc_name g);
  location ← asserted (gc_location g);
  added_at ← asserted (gc_added_at g);
  household_id ← asserted (gc_household_id g);
  Ok (mkPlantListRow (Uuid plant_id) (Uuid household_id) (Uuid species_id) name location added_at
    last_watered_at (gc_removed g) next_watering_at).

Definition is_not_null {A} (o : option A) : bool := match o with Some _ => true | None => false end.

Definition listed_plant (household_id : HouseholdId) (include_removed : bool) (g : GardenColumns) : bool :=
  bool_decide (gc_household_id g = Some (uuid_value household_id)) &&
  is_not_null (gc_species_id g) && is_not_null (gc_name g) && is_not_null (gc_location g) &&
  is_not_null (gc_added_at g) && (include_removed || negb (gc_removed g)).

(** A row is listed when [added_at] is there, so what a missing one orders as is not seen. *)
Definition added_key (g : GardenColumns) : Z := default 0%Z (gc_added_at g).

Definition list_plants (d : ReadDatabase) (household_id : HouseholdId) (include_removed : bool) :
    result (list PlantListRow) :=
  mapM_result (λ r, plant_list_row r.1 (pr_garden r.2) (pr_next_watering_at r.2)
      (rd_care d !! r.1 ≫= cr_last_watered_at))
    (select_where (rd_plants d) (λ r, listed_plant household_id include_removed (pr_garden r.2))
      (by_key (λ m, added_key (pr_garden m)))).

(** [_care_schedule_row]. *)
Definition care_schedule_row (r : uuid * CareReadModel) : CareScheduleRow :=
  mkCareScheduleRow (Uuid r.1) (cr_watering_interval r.2) (cr_next_watering_at r.2)
    (cr_last_watered_at r.2) (cr_version r.2).

Definition due_plant (d : ReadDatabase) (household_id : HouseholdId) (plant_id : uuid) : bool :=
  match rd_plants d !! plant_id with
  | Some p => bool_decide (gc_household_id (pr_garden p) = Some (uuid_value household_id)) &&
      negb (gc_removed (pr_garden p))
  | None => false
  end.

Definition list_due_care (d : ReadDatabase) (household_id : HouseholdId) (until : datetime) :
    list CareScheduleRow :=
  care_schedule_row <$> select_where (rd_care d)
    (λ r, due_plant d household_id r.1 && bool_decide (cr_next_watering_at r.2 ≤ until)%Z)
    (by_key cr_next_watering_at).

(** [_species_row]. *)
Definition species_row (r : uuid * SpeciesReadModel) : result SpeciesListRow :=
  light ← LightRequirement_parse (sr_light_requirement r.2);
  Ok (mkSpeciesListRow (Uuid r.1) (sr_scientific_name r.2) (sr_common_name r.2)
    (sr_watering_interval r.2) light (sr_version r.2)).

(** [ORDER BY scientific_name, species_id]: the order of names is the database's
    collation, [name_le]. *)
Definition by_name (name_le : relation string) : relation (uuid * SpeciesReadModel) :=
  λ a b, name_le (sr_scientific_name a.2) (sr_scientific_name b.2) ∧
    (name_le (sr_scientific_name b.2) (sr_scientific_name a.2) → (a.1 ≤ b.1)%N).
#[export] Instance by_name_dec (name_le : relation string) `{∀ s t, Decision (name_le s t)} a b :
  Decision (by_name name_le a b).
Proof. unfold by_name. apply _. Defined.

Definition list_species (name_le : relation string) `{∀ s t, Decision (name_le s t)}
    (d : ReadDatabase) : result (list SpeciesListRow) :=
  mapM_result species_row (select_where (rd_species d) (λ _, true) (by_name name_le)).

Definition plant_exists (d : ReadDatabase) (plant_id : PlantId) : bool :=
  bool_decide (is_Some (rd_plants d !! uuid_value plant_id)).

(** [_journal_entry_row]. *)
Definition journal_entry_row (r : uuid * JournalReadModel) : result JournalTimelineRow :=
  entry_type ← JournalEntryType_parse (jr_entry_type r.2);
  Ok (mkJournalTimelineRow (Uuid r.1) (Uuid (jr_plant r.2)) entry_type (jr_occurred_at r.2)
    (jr_note r.2)).

Definition list_journal_entries (d : ReadDatabase) (plant_id : PlantId) :
    result (list JournalTimelineRow) :=
  mapM_result journal_entry_row (select_where (rd_journal d)
    (λ r, bool_decide (jr_plant r.2 = uuid_value plant_id)) (by_key jr_recorded_at)).

(** ** The handlers *)

Definition plant_list_view (row : PlantListRow) : View :=
  PlantView (pl_plant_id row) (pl_household_id row) (pl_species_id row) (pl_name row)
    (pl_location row) (pl_added_at row) (pl_last_watered_at row) (pl_removed row).

Definition ListPlants_handle (d : ReadDatabase) (household_id : HouseholdId)
    (include_removed : bool) : result (list View) :=
  rows ← list_plants d household_id include_removed;
  Ok (fmap (M := list) plant_list_view rows).

Definition care_list_view (row : CareScheduleRow) : View :=
  CareScheduleView (cl_plant_id row) (cl_watering_interval row) (cl_next_watering_at row)
    (cl_version row).

(** [now.replace(hour=23, minute=59, second=59, microsecond=999999)]; the clock is UTC. *)
Definition end_of_day (now : datetime) : datetime := (now - now mod days 1 + days 1 - 1)%Z.

Definition GetTodayCare_handle (d : ReadDatabase) (now : datetime) (household_id : HouseholdId) :
    list View :=
  care_list_view <$> list_due_care d household_id (end_of_day now).

Definition species_list_view (row : SpeciesListRow) : View :=
  SpeciesView (sl_species_id row) (sl_scientific_name row) (sl_common_name row)
    (sl_watering_interval row) (sl_light_requirement row) (sl_version row).

Definition ListSpecies_handle (name_le : relation string) `{∀ s t, Decision (name_le s t)}
    (d : ReadDatabase) : result (list View) :=
  rows ← list_species name_le d; Ok (fmap (M := list) species_list_view rows).

Definition journal_list_view (row : JournalTimelineRow) : View :=
  JournalEntryView (jl_entry_id row) (jl_plant_id row) (jl_entry_type row) (jl_occurred_at row)
    (jl_note row).

Definition GetJournalTimeline_handle (d : ReadDatabase) (plant_id : PlantId) : result (list View) :=
  if negb (plant_exists d plant_id) then Raise NotFoundError
  else rows ← list_journal_entries d plant_id; Ok (fmap (M := list) journal_list_view rows).

(** The questions the write side answers, in a session of the request. *)

Definition GetPlant_handle (plant_id : PlantId) : tx View :=
  found ← plants_get plant_id;
  plant ← require found;
  mret (PlantView_from_domain plant).

Definition GetHousehold_handle (household_id : HouseholdId) : tx View :=
  found ← households_get household_id;
  household ← require found;
  mret (HouseholdView_from_domain household).

Definition ListSensors_handle (plant_id : PlantId) : tx (list View) :=
  sensors ← sensors_list_by_plant plant_id;
  mret (fmap (M := list) SensorView_from_domain sensors).

(** [counts[t] = counts.get(t, 0) + 1]; a dict keeps the order of first use. *)
Fixpoint count_type (t : JournalEntryType) (counts : list (JournalEntryType * nat)) :
    list (JournalEntryType * nat) :=
  match counts with
  | [] => [(t, 1)]
  | (u, n) :: counts => if decide (u = t) then (u, S n) :: counts else (u, n) :: count_type t counts
  end.

Definition JournalState_counts_by_type (st : JournalState) : list (JournalEntryType * nat) :=
  foldl (λ counts e, count_type (jes_entry_type e) counts) [] (jst_entries st).

Definition JournalEntryView_from_state (plant_id : PlantId) (e : JournalEntryState) : View :=
  JournalEntryView (jes_entry_id e) plant_id (jes_entry_type e) (jes_occurred_at e) (jes_note e).

Record JournalStateView := mkJournalStateView {
  jv_plant_id : PlantId;
  jv_as_of : datetime;
  jv_entry_count : nat;
  jv_counts_by_type : list (JournalEntryType * nat);
  jv_entries : list View }.

Definition JournalStateView_from_state (st : JournalState) (as_of : datetime) : JournalStateView :=
  mkJournalStateView (jst_plant_id st) as_of (JournalState_entry_count st)
    (JournalState_counts_by_type st)
    (JournalEntryView_from_state (jst_plant_id st) <$> jst_entries st).

Definition require_plant (plant_id : PlantId) : tx unit :=
  found ← plants_get plant_id;
  match found with None => tx_raise NotFoundError | Some _ => mret tt end.

(** [datetime.combine(date, DAY_END, tzinfo=UTC)]; a date is a number of days. *)
Definition day_end (date : Z) : datetime := (days date + days 1 - 1)%Z.

Definition GetJournalAtDate_handle (plant_id : PlantId) (date : Z) : tx JournalStateView :=
  _ ← require_plant plant_id;
  aggregate ← load_journal_aggregate plant_id;
  mret (JournalStateView_from_state (JournalAggregate_state_at aggregate (day_end date))
    (day_end date)).

(** ** Lemmas *)

Lemma mapM_result_compose {A B C} (g : A → B) (f : B → result C) l :
  mapM_result (λ a, f (g a)) l = mapM_result f (g <$> l).
Proof. induction l as [|a l IH]; cbn; [done|]. by rewrite IH. Qed.

Lemma lex_le_total a b : lex_le a b ∨ lex_le b a.
Proof. unfold lex_le. destruct a, b. cbn. lia. Qed.

Section Select.
Context {V W : Type} (f : V → W) (le : relation (uuid * V)) `{∀ x y, Decision (le x y)}.
Context (le' : relation (uuid * W)) `{!Total le', !Transitive le'}.
Context (le_views : ∀ x y, le x y ↔ le' (x.1, f x.2) (y.1, f y.2)).
Context (le_key : ∀ x y, le' x y → le' y x → x.1 = y.1).

Lemma le_total : Total le.
Proof. intros x y. rewrite !le_views. apply (total le'). Qed.

Lemma select_where_sorted (t : gmap uuid V) w :
  Sorted le' (prod_map id f <$> select_where t w le).
Proof.
  pose proof le_total.
  pose proof (Sorted_merge_sort le (filter (λ r, w r = true) (map_to_list t))) as Hs.
  fold (select_where t w le) in Hs.
  induction Hs as [|x l _ IH Hx]; cbn; constructor; [done|].
  destruct Hx; cbn; constructor. by apply le_views.
Qed.

Lemma select_where_elem (t : gmap uuid V) w k v :
  (k, v) ∈ select_where t w le ↔ t !! k = Some v ∧ w (k, v) = true.
Proof.
  unfold select_where. rewrite merge_sort_Permutation, list_elem_of_filter, elem_of_map_to_list.
  tauto.
Qed.

Lemma select_where_NoDup (t : gmap uuid V) w : NoDup (select_where t w le).*1.
Proof.
  unfold select_where. rewrite merge_sort_Permutation.
  eapply sublist_NoDup; [apply (NoDup_fst_map_to_list t)|].
  apply fmap_sublist, sublist_filter.
Qed.

(** Two tables that look the same to [f] give the same rows, in the same order. *)
Lemma select_where_views (t1 t2 : gmap uuid V) w1 w2 :
  (∀ k, f <$> t1 !! k = f <$> t2 !! k) →
  (∀ k v1 v2, f v1 = f v2 → w1 (k, v1) = w2 (k, v2)) →
  prod_map id f <$> select_where t1 w1 le = prod_map id f <$> select_where t2 w2 le.
Proof.
  intros Ht Hw.
  assert (∀ t w, NoDup (prod_map id f <$> select_where t w le)) as Hnd.
  { intros t w. apply (NoDup_fmap_1 fst). rewrite <- list_fmap_compose. apply select_where_NoDup. }
  assert (∀ t1 t2 w1 w2 x, (∀ k, f <$> t1 !! k = f <$> t2 !! k) →
    (∀ k v1 v2, f v1 = f v2 → w1 (k, v1) = w2 (k, v2)) →
    x ∈ prod_map id f <$> select_where t1 w1 le →
    x ∈ prod_map id f <$> select_where t2 w2 le) as Hin.
  { clear. intros t1 t2 w1 w2 x Ht Hw ([k v] & -> & [Hk Hwk]%select_where_elem)%list_elem_of_fmap.
    specialize (Ht k). rewrite Hk in Ht. symmetry in Ht.
    apply fmap_Some in Ht as (v' & Hk' & Hv). apply list_elem_of_fmap. exists (k, v').
    split; [by unfold prod_map; cbn; rewrite Hv|]. apply select_where_elem.
    split; [done|]. by rewrite <- (Hw k v v'). }
  assert (∀ x, x ∈ prod_map id f <$> select_where t1 w1 le ↔
    x ∈ prod_map id f <$> select_where t2 w2 le) as Hiff.
  { intros x. split; apply Hin; [done..|by intros k; rewrite Ht|].
    intros k v1 v2 Hv. symmetry. by apply Hw. }
  apply (Sorted_unique_strong le'); [|by apply select_where_sorted..|].
  - intros x y Hx Hy%Hiff Hxy Hyx. pose proof (le_key _ _ Hxy Hyx) as E.
    apply list_elem_of_fmap in Hx as ([k v] & -> & [Hx _]%select_where_elem).
    apply list_elem_of_fmap in Hy as ([k' v'] & -> & [Hy _]%select_where_elem).
    cbn in E. simplify_eq. done.
  - by apply NoDup_Permutation.
Qed.
End Select.

Lemma by_key_total {V} (key : V → Z) : Total (by_key key).
Proof. intros a b. apply lex_le_total. Qed.
Lemma by_key_trans {V} (key : V → Z) : Transitive (by_key key).
Proof. intros a b c. unfold by_key, lex_le. cbn. lia. Qed.
Lemma by_key_key {V} (key : V → Z) a b : by_key key a b → by_key key b a → a.1 = b.1.
Proof. unfold by_key, lex_le. cbn. lia. Qed.

(** Tables that look the same to [f] are listed alike in the order of a key [f] shows. *)
Lemma select_by_key {V W} (f : V → W) (key : V → Z) (key' : W → Z) (t1 t2 : gmap uuid V) w1 w2 :
  (∀ v, key v = key' (f v)) →
  (∀ k, f <$> t1 !! k = f <$> t2 !! k) →
  (∀ k v1 v2, f v1 = f v2 → w1 (k, v1) = w2 (k, v2)) →
  prod_map id f <$> select_where t1 w1 (by_key key) = prod_map id f <$> select_where t2 w2 (by_key key).
Proof.
  intros Hkey Ht Hw. pose proof (by_key_total key'). pose proof (by_key_trans key').
  apply (select_where_views f (by_key key) (by_key key')); [|apply by_key_key|done..].
  intros x y. unfold by_key. cbn. by rewrite !Hkey.
Qed.

#[export] Instance ListPlants_Proper : Proper (same_gardens ==> eq ==> eq ==> eq) ListPlants_handle.
Proof.
  intros d1 d2 (Hp & Hc) h _ <- removed _ <-. unfold ListPlants_handle. f_equal. unfold list_plants.
  assert (∀ k, rd_care d1 !! k ≫= cr_last_watered_at = rd_care d2 !! k ≫= cr_last_watered_at) as Hw.
  { intros k. specialize (Hc k).
    destruct (rd_care d1 !! k), (rd_care d2 !! k); cbn in *; try done.
    by injection Hc as _ _ -> _. }
  pose (F := λ r : uuid * (GardenColumns * option datetime),
    plant_list_row r.1 r.2.1 r.2.2 (rd_care d2 !! r.1 ≫= cr_last_watered_at)).
  transitivity (mapM_result F (prod_map id plant_view <$> select_where (rd_plants d1)
    (λ r, listed_plant h removed (pr_garden r.2)) (by_key (λ m, added_key (pr_garden m))))).
  { rewrite <- mapM_result_compose. unfold F. cbn. induction (select_where _ _ _) as [|r l IH]; cbn; [done|].
    by rewrite Hw, IH. }
  rewrite (select_by_key plant_view _ (λ v, added_key v.1) _ (rd_plants d2) _
    (λ r, listed_plant h removed (pr_garden r.2))); [|done|done|].
  - by rewrite <- mapM_result_compose.
  - intros k v1 v2 E. unfold plant_view in E. cbn. injection E as E _. by rewrite E.
Qed.

Lemma due_plant_view d1 d2 h p :
  same_gardens d1 d2 → due_plant d1 h p = due_plant d2 h p.
Proof.
  intros (Hp & _). specialize (Hp p). unfold due_plant.
  destruct (rd_plants d1 !! p), (rd_plants d2 !! p); cbn in *; try done.
  injection Hp as Hg _. by rewrite Hg.
Qed.

#[export] Instance GetTodayCare_Proper : Proper (same_gardens ==> eq ==> eq ==> eq) GetTodayCare_handle.
Proof.
  intros d1 d2 Hd now _ <- h _ <-. unfold GetTodayCare_handle, list_due_care. f_equal.
  pose (F := λ r : uuid * (timedelta * datetime * option datetime * Z),
    mkCareScheduleRow (Uuid r.1) r.2.1.1.1 r.2.1.1.2 r.2.1.2 r.2.2).
  assert (∀ l : list (uuid * CareReadModel), care_schedule_row <$> l = F <$> (prod_map id care_view <$> l)) as HF.
  { intros l. by rewrite <- list_fmap_compose. }
  rewrite !HF. f_equal. apply (select_by_key care_view _ (λ v, v.1.1.2)); [done|apply Hd|].
  intros k v1 v2 E. cbn. rewrite (due_plant_view d1 d2) by done. by injection E as _ -> _ _.
Qed.

Lemma GetJournalTimeline_view d1 d2 p :
  (is_Some (rd_plants d1 !! uuid_value p) ↔ is_Some (rd_plants d2 !! uuid_value p)) →
  rd_journal d1 = rd_journal d2 → GetJournalTimeline_handle d1 p = GetJournalTimeline_handle d2 p.
Proof.
  intros Hp Hj.
  unfold GetJournalTimeline_handle, list_journal_entries, plant_exists. rewrite Hj.
  by rewrite (bool_decide_ext _ _ Hp).
Qed.

Lemma ListSpecies_view (name_le : relation string) `{∀ s t, Decision (name_le s t)}
    `{!Total name_le, !Transitive name_le} d1 d2 :
  (∀ s, species_view <$> rd_species d1 !! s = species_view <$> rd_species d2 !! s) →
  ListSpecies_handle name_le d1 = ListSpecies_handle name_le d2.
Proof.
  intros Hs. unfold ListSpecies_handle, list_species. f_equal.
  pose (F := λ r : uuid * (string * string * timedelta * string * Z),
    light ← LightRequirement_parse r.2.1.2;
    Ok (mkSpeciesListRow (Uuid r.1) r.2.1.1.1.1 r.2.1.1.1.2 r.2.1.1.2 light r.2.2)).
  assert (∀ l, mapM_result species_row l = mapM_result F (prod_map id species_view <$> l)) as HF.
  { intros l. by rewrite <- mapM_result_compose. }
  rewrite !HF. f_equal.
  pose (le' := λ a b : uuid * (string * string * timedelta * string * Z),
    name_le a.2.1.1.1.1 b.2.1.1.1.1 ∧ (name_le b.2.1.1.1.1 a.2.1.1.1.1 → (a.1 ≤ b.1)%N)).
  assert (Total le').
  { intros a b. unfold le'. destruct (total name_le a.2.1.1.1.1 b.2.1.1.1.1) as [Hab|Hab];
    destruct (decide (name_le b.2.1.1.1.1 a.2.1.1.1.1)), (decide (name_le a.2.1.1.1.1 b.2.1.1.1.1));
    destruct (decide (a.1 ≤ b.1)%N); intuition lia. }
  assert (Transitive le').
  { intros a b c [Hab Hab'] [Hbc Hbc']. split; [by etrans|]. intros Hca.
    transitivity b.1; [apply Hab'|apply Hbc']; by etrans. }
  apply (select_where_views species_view (by_name name_le) le'); [done| |done|done].
  intros x y [? Hxy] [? Hyx]. apply N.le_antisymm; auto.
Qed.

(** *** Counting kinds of care *)

Definition type_count (t : JournalEntryType) (counts : list (JournalEntryType * nat)) : nat :=
  sum_list_with (λ c, if decide (c.1 = t) then c.2 else 0) counts.

Lemma type_count_cons t c counts :
  type_count t (c :: counts) = (if decide (c.1 = t) then c.2 else 0) + type_count t counts.
Proof. done. Qed.

Lemma type_count_step u t counts :
  type_count u (count_type t counts) = type_count u counts + (if decide (t = u) then 1 else 0).
Proof.
  induction counts as [|[v n] counts IH]; [cbn; by repeat case_decide|]. cbn [count_type].
  destruct (decide (v = t)) as [->|Hv]; rewrite !type_count_cons; [|rewrite IH]; cbn;
    repeat case_decide; lia.
Qed.

Lemma count_type_keys t counts :
  (count_type t counts).*1 = if decide (t ∈ counts.*1) then counts.*1 else counts.*1 ++ [t].
Proof.
  induction counts as [|[v n] counts IH]; [done|]. cbn [count_type fmap list_fmap fst].
  destruct (decide (v = t)) as [->|Hv]; cbn [fmap list_fmap fst].
  - rewrite decide_True by left. done.
  - rewrite IH. repeat case_decide; try done; set_solver.
Qed.

Lemma type_count_none t counts : t ∉ counts.*1 → type_count t counts = 0.
Proof.
  induction counts as [|[v n] counts IH]; [done|]. intros Ht. rewrite type_count_cons. cbn in *.
  rewrite decide_False, IH by set_solver. done.
Qed.

Lemma type_count_elem t n counts :
  NoDup counts.*1 → (t, n) ∈ counts → type_count t counts = n.
Proof.
  induction counts as [|[v m] counts IH]; [by intros _ ?%not_elem_of_nil|].
  rewrite type_count_cons. cbn. intros [Hv Hnd]%NoDup_cons [[= <- <-]|Hin]%elem_of_cons.
  - rewrite decide_True, type_count_none by done. lia.
  - assert (v ≠ t) by (intros ->; apply Hv; by apply (list_elem_of_fmap_2 fst) in Hin).
    rewrite decide_False by done. by apply IH.
Qed.

(** What the dict holds after the entries of [l]. *)
Record counted (l : list JournalEntryState) (counts : list (JournalEntryType * nat)) : Prop := {
  counted_keys : NoDup counts.*1;
  counted_sum : sum_list counts.*2 = length l;
  counted_pos : Forall (λ c, 0 < c.2) counts;
  counted_types : ∀ t, type_count t counts = length (filter (λ e, jes_entry_type e = t) l) }.

Lemma counted_step l e counts :
  counted l counts → counted (l ++ [e]) (count_type (jes_entry_type e) counts).
Proof.
  intros [Hnd Hsum Hpos Hcount]. set (t := jes_entry_type e). constructor.
  - rewrite count_type_keys. case_decide; [done|]. apply NoDup_app.
    split_and!; [done|set_solver|apply NoDup_singleton].
  - rewrite length_app, <- Hsum. clear -counts. induction counts as [|[v n] counts IH]; [done|].
    cbn. case_decide; cbn in *; [|rewrite IH]; lia.
  - clear -Hpos. induction Hpos as [|[v n] counts Hn Hpos IH]; cbn; [by repeat constructor|].
    case_decide; constructor; cbn in *; try done; lia.
  - intros u. rewrite type_count_step, Hcount, filter_app, length_app. f_equal.
    rewrite filter_cons. subst t. case_decide; done.
Qed.

Lemma counts_by_type_counted st : counted (jst_entries st) (JournalState_counts_by_type st).
Proof.
  unfold JournalState_counts_by_type. induction (jst_entries st) as [|e l IH] using rev_ind.
  - by repeat constructor.
  - rewrite foldl_snoc. by apply counted_step.
Qed.

Lemma counted_elem l counts t n :
  counted l counts →
  (t, n) ∈ counts ↔ 0 < n ∧ n = length (filter (λ e, jes_entry_type e = t) l).
Proof.
  intros [Hnd Hsum Hpos Hcount]. rewrite <- Hcount. split.
  - intros Hin. split; [by apply (proj1 (Forall_forall _ _) Hpos _ Hin)|].
    symmetry. by apply type_count_elem.
  - intros [Hn ->]. destruct (decide (t ∈ counts.*1)) as [Ht|Ht].
    + apply list_elem_of_fmap in Ht as ([? m] & -> & Hin). cbn.
      by rewrite (type_count_elem _ _ _ Hnd Hin).
    + rewrite type_count_none in Hn by done. lia.
Qed.

(** The journal at a moment is a function of the journal's state. *)
Lemma state_at_state a t :
  JournalAggregate_state_at a t =
  mkJournalState (jst_plant_id (JournalAggregate_state a)) (jst_version (JournalAggregate_state a))
    (filter (λ e, (jes_occurred_at e ≤ t)%Z) (jst_entries (JournalAggregate_state a))).
Proof.
  unfold JournalAggregate_state_at, JournalAggregate_state. cbn. f_equal.
  induction (JournalAggregate_entries a) as [|e l IH]; [done|].
  rewrite fmap_cons, !filter_cons. cbn. case_decide; [|done]. by rewrite fmap_cons, IH.
Qed.

Lemma GetJournalAtDate_run d plant_id date :
  journals_ok d →
  GetJournalAtDate_handle plant_id date (open_session d None id) =
  (p ← opt_to_domain plant_to_domain (db_plants d !! uuid_value plant_id);
   match p with
   | None => Raise NotFoundError
   | Some _ =>
       whole ← journal_replay (empty_journal plant_id) (esm_payload <$> plant_rows d plant_id);
       Ok (JournalStateView_from_state (JournalAggregate_state_at whole (day_end date))
         (day_end date))
   end, open_session d None id).
Proof.
  intros Hd. destruct (stored_journal d plant_id Hd) as (whole & loaded & Hw & Hl & Hs & _).
  unfold GetJournalAtDate_handle, require_plant, plants_get.
  unfold query, mbind, tx_bind, tx_lift, mret, tx_ret. cbn.
  destruct (opt_to_domain _ _) as [[p|]|x]; cbn; [|done..].
  rewrite Hl. cbn. rewrite Hw. cbn. by rewrite !state_at_state, Hs.
Qed.

(** *** What is due *)

Lemma GetTodayCare_row d now h v :
  v ∈ GetTodayCare_handle d now h ↔
  ∃ p r, rd_care d !! p = Some r ∧ due_plant d h p = true ∧ (cr_next_watering_at r ≤ end_of_day now)%Z ∧
    v = CareScheduleView (Uuid p) (cr_watering_interval r) (cr_next_watering_at r) (cr_version r).
Proof.
  unfold GetTodayCare_handle, list_due_care. rewrite <- list_fmap_compose, list_elem_of_fmap. split.
  - intros ([p r] & -> & [Hr Hw]%select_where_elem). exists p, r.
    apply andb_true_iff in Hw as [Hdue Hnext%bool_decide_eq_true]. done.
  - intros (p & r & Hr & Hdue & Hnext & ->). exists (p, r). split; [done|].
    apply select_where_elem. split; [done|]. cbn in *. by rewrite Hdue, bool_decide_true.
Qed.

(** The rows of a listing come in the order of its key, one per primary key. *)
Lemma due_row_order {V} (t : gmap uuid V) w (key : V → Z) i j x y :
  select_where t w (by_key key) !! i = Some x → select_where t w (by_key key) !! j = Some y →
  i < j → (key x.2 ≤ key y.2)%Z ∧ x.1 ≠ y.1.
Proof.
  intros Hi Hj Hij. pose proof (by_key_total key). pose proof (by_key_trans key).
  assert (by_key key x y) as Hxy.
  { apply (StronglySorted_lookup_1 (by_key key) (select_where t w (by_key key)) i j); [|done..].
    apply StronglySorted_merge_sort; apply _. }
  split; [unfold by_key, lex_le in Hxy; cbn in Hxy; lia|]. intros E.
  assert (i = j); [|lia].
  apply (NoDup_lookup (select_where t w (by_key key)).*1 i j x.1); [apply select_where_NoDup| |];
    rewrite list_lookup_fmap; [by rewrite Hi|by rewrite Hj, E].
Qed.

(** No event moves the version of a projected schedule. *)
Lemma projected_version (l : list (datetime * DomainEvent)) d p r :
  project_events ReadDatabase_empty l = Ok d → rd_care d !! p = Some r → cr_version r = 1%Z.
Proof.
  intros Hl Hr. pose proof (projected_care p _ _ _ Hl) as H. rewrite Hr in H.
  assert (∀ es c, from_option (λ v, v.2 = 1%Z) True c →
    from_option (λ v, v.2 = 1%Z) True (foldl care_step c es)) as Hone.
  { induction es as [|e es IH]; intros c Hc; [done|]. cbn. apply IH.
    unfold care_step. destruct (body e), c as [[[[? ?] ?] ?]|]; done. }
  specialize (Hone (filter (λ e, is_care_event p e = true) l.*2)
    (care_view <$> rd_care ReadDatabase_empty !! p) I).
  rewrite <- H in Hone. exact Hone.
Qed.

(** ** Theorems *)

(** [C20] What of the answers does not depend on how the topics interleave.  As for the
    read models, the same events are projected into an empty read side in two orders that
    agree within every partition and only there.  Then the list of species is the same
    answer, row for row and in the same order, whatever total order of names the database's
    collation is; a plant's journal timeline is the same, provided the events under one
    entry's identifier name one plant; and the list of a household's plants and its care
    of today are the same, provided the first garden event of every plant is its addition.
    That last proviso fails when an addition was moved aside: the columns the two lists
    select on then depend on the order.  The columns in which the read sides can differ
    otherwise — the instants of the writes, the species' name on a plant's row — are in none
    of these answers. *)
Theorem answers_converge (l1 l2 : list (datetime * DomainEvent)) (d1 d2 : ReadDatabase)
    (name_le : relation string) `{∀ s t, Decision (name_le s t)} :
  Total name_le → Transitive name_le →
  project_events ReadDatabase_empty l1 = Ok d1 →
  project_events ReadDatabase_empty l2 = Ok d2 →
  same_partitions l1.*2 l2.*2 →
  ListSpecies_handle name_le d1 = ListSpecies_handle name_le d2 ∧
  ((∀ n, one_plant n l1.*2) →
     ∀ p, GetJournalTimeline_handle d1 p = GetJournalTimeline_handle d2 p) ∧
  ((∀ p, added_first p l1.*2) →
     (∀ h removed, ListPlants_handle d1 h removed = ListPlants_handle d2 h removed) ∧
     (∀ now h, GetTodayCare_handle d1 now h = GetTodayCare_handle d2 now h)).
Proof.
  intros Htot Htrans H1 H2 Hsame. split_and!.
  - apply ListSpecies_view; [done..|]. by eapply converge_species.
  - intros Hone p. apply GetJournalTimeline_view; [by eapply converge_exists|].
    apply map_eq. intros n. by eapply converge_entry.
  - intros Hadd. assert (same_gardens d1 d2) as Hd by by eapply gardens_agree.
    split; intros; by rewrite Hd.
Qed.

(** Today's care is what is due before the next midnight UTC: the answer has one
    row for each schedule of a plant of the household that is not removed and whose next
    watering falls before the midnight that ends the day of the request, no other, and the
    soonest comes first. *)
Theorem today_care (d : ReadDatabase) (now : datetime) (h : HouseholdId) :
  let views := GetTodayCare_handle d now h in
  (∀ v, v ∈ views ↔ ∃ p r g, rd_care d !! p = Some r ∧ rd_plants d !! p = Some g ∧
     gc_household_id (pr_garden g) = Some (uuid_value h) ∧ gc_removed (pr_garden g) = false ∧
     (cr_next_watering_at r < days 1 * (now / days 1 + 1))%Z ∧
     v = CareScheduleView (Uuid p) (cr_watering_interval r) (cr_next_watering_at r) (cr_version r)) ∧
  (∀ i j p q w1 w2 n1 n2 v1 v2, views !! i = Some (CareScheduleView p w1 n1 v1) →
     views !! j = Some (CareScheduleView q w2 n2 v2) → i < j → (n1 ≤ n2)%Z ∧ p ≠ q).
Proof.
  intros views. split.
  - intros v. unfold views. rewrite GetTodayCare_row. unfold due_plant, end_of_day.
    pose proof (Z.div_mod now (days 1) ltac:(done)).
    replace (now - now mod days 1 + days 1 - 1)%Z with (days 1 * (now / days 1 + 1) - 1)%Z
      by (rewrite Z.mul_add_distr_l; lia).
    split.
    + intros (p & r & Hr & Hdue & Hnext & ->). destruct (rd_plants d !! p) as [g|] eqn:Hg; [|done].
      apply andb_true_iff in Hdue as [Hh%bool_decide_eq_true Hrem%negb_true_iff].
      exists p, r, g. split_and!; try done. lia.
    + intros (p & r & g & Hr & Hg & Hh & Hrem & Hnext & ->). exists p, r.
      rewrite Hg, Hrem, bool_decide_true by done. split_and!; try done. lia.
  - intros i j p q w1 w2 n1 n2 v1 v2 Hi Hj Hij.
    unfold views, GetTodayCare_handle, list_due_care in *.
    rewrite !list_lookup_fmap in Hi, Hj.
    apply fmap_Some in Hi as (? & Hi & Ei). apply fmap_Some in Hi as ([p' r1] & Hi & ->).
    apply fmap_Some in Hj as (? & Hj & Ej). apply fmap_Some in Hj as ([q' r2] & Hj & ->).
    destruct (due_row_order _ _ _ _ _ _ _ Hi Hj Hij) as [Hle Hne]. cbn in *.
    injection Ei as -> -> -> ->. injection Ej as -> -> -> ->. split; [done|congruence].
Qed.

(** The version today's list reports is not the schedule's: whatever the read
    side projected, every row of the answer says version 1.  A client that sends it back as
    the version it read is refused with a version conflict once the schedule has moved, for
    any plant that can be watered, and nothing is written. *)
Theorem today_version_conflicts (l : list (datetime * DomainEvent)) (rd : ReadDatabase)
    (now : datetime) (h : HouseholdId) (p : PlantId) (interval : timedelta) (next : datetime)
    (version : Z) (d : Database) (plant : Plant) (schedule : CareSchedule) (e : Env) :
  project_events ReadDatabase_empty l = Ok rd →
  CareScheduleView p interval next version ∈ GetTodayCare_handle rd now h →
  opt_to_domain plant_to_domain (db_plants d !! uuid_value p) = Ok (Some plant) →
  opt_to_domain care_schedule_to_domain (db_care_schedules d !! uuid_value p) =
    Ok (Some schedule) →
  is_ok (Plant_water plant (env_now e)) = true →
  version = 1%Z ∧
  (cs_version schedule ≠ 1%Z →
   run_request (WaterPlantHandler p (Some version) e) d =
     (Raise CareScheduleVersionConflictError, d)).
Proof.
  intros Hl Hin Hp Hs Hok. apply GetTodayCare_row in Hin as (q & r & Hr & _ & _ & [= -> _ _ ->]).
  pose proof (projected_version _ _ _ _ Hl Hr) as Hv. split; [exact Hv|]. intros Hne. rewrite Hv.
  unfold WaterPlantHandler.
  assert (Staging domain_write (WaterPlant_body (Uuid q) (Some 1%Z) e)) as Hst by stage.
  rewrite (run_transaction domain_write _ d), (WaterPlant_run d (Uuid q) _ e plant schedule Hp Hs).
  destruct (Plant_water plant (env_now e)) as [p'|x]; [|done].
  unfold CareSchedule_complete_watering. cbn. by rewrite ensure_version_stale.
Qed.

(** The journal on a date is the replay of the stream cut at the end of that day.
    After any appends, the answer for a plant that exists is the entries of the journal
    that folding every stored event gives, in its order, whose care happened before the
    next midnight UTC; it counts them, and counts them by kind, exactly.  A plant that
    does not exist is reported as such, and the question changes nothing. *)
Theorem journal_at_date (d : Database) (requests : list journal_request) (plant_id : PlantId)
    (date : Z) :
  journals_ok d →
  let d' := run_journal_requests d requests in
  let s := open_session d' None id in
  ∃ whole, journal_replay (empty_journal plant_id) (esm_payload <$> plant_rows d' plant_id) =
    Ok whole ∧
  match opt_to_domain plant_to_domain (db_plants d' !! uuid_value plant_id) with
  | Raise x => GetJournalAtDate_handle plant_id date s = (Raise x, s)
  | Ok None => GetJournalAtDate_handle plant_id date s = (Raise NotFoundError, s)
  | Ok (Some _) =>
      let entries := filter (λ e, (jes_occurred_at e < days (date + 1))%Z)
        (jst_entries (JournalAggregate_state whole)) in
      ∃ v, GetJournalAtDate_handle plant_id date s = (Ok v, s) ∧
        jv_entries v = JournalEntryView_from_state (ja_id whole) <$> entries ∧
        jv_entry_count v = length entries ∧
        sum_list (jv_counts_by_type v).*2 = length entries ∧
        (∀ t n, (t, n) ∈ jv_counts_by_type v ↔
          0 < n ∧ n = length (filter (λ e, jes_entry_type e = t) entries))
  end.
Proof.
  intros Hd d' s. pose proof (run_journal_requests_ok d requests Hd) as Hd'. fold d' in Hd'.
  destruct (stored_journal d' plant_id Hd') as (whole & _ & Hw & _).
  exists whole. split; [exact Hw|]. subst s. rewrite (GetJournalAtDate_run d' plant_id date Hd').
  destruct (opt_to_domain _ _) as [[p|]|x]; [|done..]. cbn [mbind result_bind].
  rewrite Hw. set (entries := filter (λ e, (jes_occurred_at e < _)%Z) _).
  eexists. split; [done|].
  rewrite state_at_state. cbn [JournalStateView_from_state jv_entries jv_entry_count
    jv_counts_by_type jst_plant_id JournalAggregate_state].
  set (st := mkJournalState _ _ _).
  assert (jst_entries st = entries) as He.
  { subst st entries. cbn [jst_entries]. apply list_filter_iff. intros e.
    unfold day_end, days, hours, minutes, seconds, MICROSECONDS_PER_SECOND. lia. }
  pose proof (counts_by_type_counted st) as Hc. rewrite He in Hc. unfold JournalState_entry_count.
  rewrite !He. split_and!; [done|done|apply Hc|]. intros t n. by apply counted_elem.
Qed.

(** *** Witnesses *)

Lemma answers_converge_witness :
  ∃ d1 d2, project_events ReadDatabase_empty demo_log = Ok d1 ∧
    project_events ReadDatabase_empty demo_log_across = Ok d2 ∧
    ListSpecies_handle String.le d1 = ListSpecies_handle String.le d2 ∧
    (∀ p, GetJournalTimeline_handle d1 p = GetJournalTimeline_handle d2 p) ∧
    (∀ h removed, ListPlants_handle d1 h removed = ListPlants_handle d2 h removed).
Proof.
  destruct demo_logs_projected as (d1 & d2 & H1 & H2). destruct demo_logs_agree as (Hsame & Hadd & Hone & _).
  exists d1, d2. split; [exact H1|]. split; [exact H2|].
  destruct (answers_converge demo_log demo_log_across d1 d2 String.le _ _ H1 H2 Hsame)
    as (Hspecies & Htimeline & Hgardens).
  split; [exact Hspecies|]. split; [exact (Htimeline Hone)|]. apply (Hgardens Hadd).
Defined.

(** A plant added, scheduled and watered: the facts it published, projected. *)
Definition watered_database : Database :=
  (run_request (WaterPlantHandler (Uuid 10) None (demo_env 30)) demo_database).2.
Definition watered_log : list (datetime * DomainEvent) :=
  (λ e, (occurred_at e, e)) <$> published watered_database.

Definition watered_read : ReadDatabase :=
  match project_events ReadDatabase_empty watered_log with Ok rd => rd | Raise _ => ReadDatabase_empty end.

(** A week later the same client asks what is due, and waters with the version it read. *)
Lemma today_version_conflicts_witness :
  let now := (hours 30 + days 7)%Z in
  ∃ rd, project_events ReadDatabase_empty watered_log = Ok rd ∧
    GetTodayCare_handle rd now (Uuid 1) = [CareScheduleView (Uuid 10) (days 7) now 1] ∧
    run_request (WaterPlantHandler (Uuid 10) (Some 1%Z) (mkEnv now (λ n, 500 + N.of_nat n)%N))
      watered_database = (Raise CareScheduleVersionConflictError, watered_database).
Proof.
  intros now.
  assert (project_events ReadDatabase_empty watered_log = Ok watered_read) as E by (vm_compute; reflexivity).
  assert (GetTodayCare_handle watered_read now (Uuid 1) = [CareScheduleView (Uuid 10) (days 7) now 1])
    as H by (vm_compute; reflexivity).
  exists watered_read. split; [exact E|]. split; [exact H|].
  apply (today_version_conflicts watered_log watered_read (hours 30 + days 7) (Uuid 1) (Uuid 10) (days 7)
    (hours 30 + days 7) 1 watered_database
    (mkPlant (Uuid 10) (Uuid 1) (Uuid 5) "fern" (MkLocation "sill") (hours 10) (Some (hours 30))
      None false [])
    (CareSchedule_new (Uuid 10) (MkCareInterval (days 7)) (hours 30 + days 7) 2)); try exact E.
  - apply list_elem_of_lookup_2 with 0. vm_compute. reflexivity.
  - vm_compute. reflexivity.
  - vm_compute. reflexivity.
  - vm_compute. reflexivity.
  - discriminate.
Defined.

Definition demo_requests : list journal_request :=
  let r k := mkJournalRequest (Uuid 10) (mkJournalAdd WATERING (hours (22 + Z.of_N k)) 0 None
    (Some (Uuid k)) 0 k) in [r 1%N; r 2%N; r 3%N].
Lemma demo_database_journals : journals_ok demo_database.
Proof.
  apply (journals_ok_ext empty_database); [vm_compute; reflexivity..|apply empty_database_ok].
Qed.

(** Care at 23:00, midnight and 01:00: only the first is on that date. *)
Lemma journal_at_date_witness :
  let s := open_session (run_journal_requests demo_database demo_requests) None id in
  ∃ v, GetJournalAtDate_handle (Uuid 10) 0 s = (Ok v, s) ∧
    jv_entries v = [JournalEntryView (Uuid 1) (Uuid 10) WATERING (hours 23) None].
Proof.
  intros s. destruct (journal_at_date demo_database demo_requests (Uuid 10) 0 demo_database_journals)
    as (whole & Hw & H).
  assert (opt_to_domain plant_to_domain
    (db_plants (run_journal_requests demo_database demo_requests) !! uuid_value (k := KPlant) (Uuid 10)) =
    Ok (Some (mkPlant (Uuid 10) (Uuid 1) (Uuid 5) "fern" (MkLocation "sill") (hours 10) None None false [])))
    as Hp by (vm_compute; reflexivity).
  rewrite Hp in H. destruct H as (v & Hv & Hentries & _). exists v. split; [exact Hv|].
  rewrite Hentries. vm_compute in Hw. injection Hw as <-. vm_compute. reflexivity.
Defined.
