(* ===== verification/SpeciesCache.v ===== *)
(** The catalogue's read-through cache: the Valkey adapter
    ([infrastructure/cache/species.py]), the query that reads through it
    ([application/queries/catalog.py]) and the consumer that drops what an event declares
    stale ([application/catalog/consumer.py]).

    The Valkey server and pydantic's JSON are parameters, with what the code relies on as
    the laws of two classes. *)

From S2P Require Import Prelude Domain Catalog Rows Views Database UnitOfWork Repositories.
From S2P Require Import Topics Delivery SagaIntents UuidText.
From Stdlib Require Import Ascii.

(** ** What is not the program's *)

(** The store of the server, as [GET], [SET ... EX] and [DEL] see it at an instant. *)
Class Valkey := {
  VK : Type;
  vk_empty : VK;
  vk_get : VK → datetime → string → option string;
  vk_set : VK → datetime → string → string → Z → VK;
  vk_delete : VK → list string → VK }.

(** A key holds only what was set there last, and only until its time to live is over; it
    may be gone earlier. *)
Class ValkeyLaws (valkey : Valkey) : Prop := {
  vk_get_empty t k : vk_get vk_empty t k = None;
  vk_get_set s now k x ttl t k' y :
    vk_get (vk_set s now k x ttl) t k' = Some y →
    (k' = k ∧ y = x ∧ (t < now + seconds ttl)%Z) ∨ (k' ≠ k ∧ vk_get s t k' = Some y);
  vk_get_delete s ks t k y :
    vk_get (vk_delete s ks) t k = Some y → k ∉ ks ∧ vk_get s t k = Some y }.

(** [model_dump_json] and [SpeciesView.model_validate_json]. *)
Class ViewJson := {
  model_dump_json : View → string;
  model_validate_json : string → option View }.

Class ViewJsonLaw (json : ViewJson) : Prop :=
  validate_dumped : ∀ v, view_class_of v = CSpecies → model_validate_json (model_dump_json v) = Some v.

(** How a call to the server ends: it answers, or it fails with a [ValkeyError] or an
    [OSError] after or before the server applied it. *)
Inductive valkey_call := CallAnswered | CallFailed (applied : bool).

Section Cache.
Context {valkey : Valkey} {json : ViewJson}.

Definition call (o : valkey_call) (f : VK → VK) (vk : VK) : VK :=
  match o with CallAnswered | CallFailed true => f vk | CallFailed false => vk end.

(** ** The adapter *)

Definition KEY_PREFIX : string := "species:".
Definition cache_key (species_id : SpeciesId) : string :=
  (KEY_PREFIX ++ uuid_str (uuid_value species_id))%string.

(** [_delete_quietly]. *)
Definition delete_quietly (o : valkey_call) (key : string) (vk : VK) : VK :=
  call o (λ vk, vk_delete vk [key]) vk.

(** [get]: [read] says whether the first call answers. *)
Definition cache_get (now : datetime) (species_id : SpeciesId) (read : bool) (drop : valkey_call)
    (vk : VK) : option View * VK :=
  let key := cache_key species_id in
  if negb read then (None, vk)
  else match vk_get vk now key with
  | None => (None, vk)
  | Some raw =>
      match model_validate_json raw with
      | Some v => (Some v, vk)
      | None => (None, delete_quietly drop key vk)
      end
  end.

(** The view's own identifier; the port takes a [SpeciesView] and no other. *)
Definition view_cache_key (v : View) : string :=
  match v with SpeciesView species_id _ _ _ _ _ => cache_key species_id | _ => KEY_PREFIX end.

Definition cache_set (ttl_seconds : Z) (now : datetime) (species : View) (o : valkey_call) (vk : VK) : VK :=
  call o (λ vk, vk_set vk now (view_cache_key species) (model_dump_json species) ttl_seconds) vk.

Definition cache_invalidate (species_ids : list SpeciesId) (o : valkey_call) (vk : VK) : VK :=
  match cache_key <$> species_ids with
  | [] => vk
  | keys => call o (λ vk, vk_delete vk keys) vk
  end.

(** ** The consumer *)

Definition SpeciesCacheConsumer_handle (e : DomainEvent) (o : valkey_call) (vk : VK) : VK :=
  match body e with
  | SpeciesUpdated species_id _ _ _ _ _ | SpeciesCacheInvalidated species_id =>
      cache_invalidate [species_id] o vk
  | _ => vk
  end.

(** As a consumer of the worker: its handler touches no row of its transaction, and it
    never raises. *)
Definition SpeciesCacheConsumer : Consumer :=
  mkConsumer "species-cache" ["SpeciesUpdated"; "SpeciesCacheInvalidated"] (λ _, mret tt).

(** ** The query *)

(** [self._species.get] and [SpeciesView.from_domain], in the request's session. *)
Definition species_query (species_id : SpeciesId) : tx View :=
  species ← species_repo_get species_id;
  match species with
  | None => tx_raise NotFoundError
  | Some species => mret (SpeciesView_from_domain species)
  end.

(** What it answers on the rows of a moment. *)
Definition species_answer (d : Database) (species_id : SpeciesId) : result View :=
  (run_bound None (species_query species_id) d).1.

(** One request, nothing else running: how each of its calls ends is given.  Its answer, the
    rows and the cache after it. *)
Definition GetSpecies_handle (ttl_seconds : Z) (now : datetime) (d : Database) (species_id : SpeciesId)
    (read : bool) (drop fill : valkey_call) (vk : VK) : result View * Database * VK :=
  match cache_get now species_id read drop vk with
  | (Some cached, vk) => (Ok cached, d, vk)
  | (None, vk) =>
      match run_bound None (species_query species_id) d with
      | (Raise x, d) => (Raise x, d, vk)
      | (Ok view, d) => (Ok view, d, cache_set ttl_seconds now view fill vk)
      end
  end.

(** ** Requests, writes and invalidations together

    A request gives way at every call it awaits: between its miss and its read, and between
    its read and its fill, other requests run, the catalogue changes and the consumer drops
    keys. *)
Inductive reader :=
  | Missed (species_id : SpeciesId)
  | Holding (species_id : SpeciesId) (read_at : datetime) (view : View)
  | Answered (species_id : SpeciesId) (at_ : datetime) (answer : result View).

(** A table's rows are under their own primary keys. *)
Definition species_keyed (t : gmap uuid SpeciesModel) : Prop := map_Forall (λ k m, spm_id m = k) t.

(** The reads of the table and the fills of the cache are remembered. *)
Record fill := mkFill { fl_read_at : datetime; fl_at : datetime; fl_view : View }.
Record Catalogue := mkCatalogue {
  ct_now : datetime;
  ct_database : Database;
  ct_valkey : VK;
  ct_readers : gmap nat reader;
  ct_reads : list (datetime * Database);
  ct_fills : list fill }.

Definition Catalogue_start (now : datetime) (d : Database) : Catalogue :=
  mkCatalogue now d vk_empty ∅ [] [].

Inductive catalogue_step (ttl_seconds : Z) (c : Catalogue) : Catalogue → Prop :=
  (** Time passes. *)
  | step_clock now : (ct_now c ≤ now)%Z →
      catalogue_step ttl_seconds c (mkCatalogue now (ct_database c) (ct_valkey c) (ct_readers c)
        (ct_reads c) (ct_fills c))
  (** Any transaction commits. *)
  | step_write d :
      species_keyed (db_species d) →
      catalogue_step ttl_seconds c (mkCatalogue (ct_now c) d (ct_valkey c) (ct_readers c)
        (ct_reads c) (ct_fills c))
  (** The consumer handles an event. *)
  | step_consume e o :
      catalogue_step ttl_seconds c (mkCatalogue (ct_now c) (ct_database c)
        (SpeciesCacheConsumer_handle e o (ct_valkey c)) (ct_readers c) (ct_reads c) (ct_fills c))
  (** A request asks the cache. *)
  | step_ask n species_id read drop cached vk :
      ct_readers c !! n = None → (uuid_value species_id < 2 ^ 128)%N →
      cache_get (ct_now c) species_id read drop (ct_valkey c) = (cached, vk) →
      catalogue_step ttl_seconds c (mkCatalogue (ct_now c) (ct_database c) vk
        (<[n := match cached with
                | Some v => Answered species_id (ct_now c) (Ok v)
                | None => Missed species_id
                end]> (ct_readers c)) (ct_reads c) (ct_fills c))
  (** It reads the table. *)
  | step_read n species_id :
      ct_readers c !! n = Some (Missed species_id) →
      catalogue_step ttl_seconds c (mkCatalogue (ct_now c) (ct_database c) (ct_valkey c)
        (<[n := match species_answer (ct_database c) species_id with
                | Ok v => Holding species_id (ct_now c) v
                | Raise x => Answered species_id (ct_now c) (Raise x)
                end]> (ct_readers c))
        ((ct_now c, ct_database c) :: ct_reads c) (ct_fills c))
  (** It fills the cache and answers. *)
  | step_fill n species_id read_at v o :
      ct_readers c !! n = Some (Holding species_id read_at v) →
      catalogue_step ttl_seconds c (mkCatalogue (ct_now c) (ct_database c)
        (cache_set ttl_seconds (ct_now c) v o (ct_valkey c))
        (<[n := Answered species_id (ct_now c) (Ok v)]> (ct_readers c))
        (ct_reads c) (mkFill read_at (ct_now c) v :: ct_fills c)).

(** Whether the table of a read that is remembered answered with the view. *)
Definition told (reads : list (datetime * Database)) (species_id : SpeciesId) (read_at : datetime)
    (v : View) : Prop :=
  ∃ d, (read_at, d) ∈ reads ∧ species_answer d species_id = Ok v.

(** ** Lemmas *)

Section Laws.
Context `{!ValkeyLaws valkey, !ViewJsonLaw json}.

Lemma cache_key_inj (i j : SpeciesId) :
  (uuid_value i < 2 ^ 128)%N → (uuid_value j < 2 ^ 128)%N → cache_key i = cache_key j → i = j.
Proof.
  intros Hi%UUID_of_str Hj%UUID_of_str E. unfold cache_key in E.
  revert E Hi Hj. generalize (uuid_str (uuid_value i)), (uuid_str (uuid_value j)).
  intros si sj E Hi Hj. apply (inj (String.append KEY_PREFIX)) in E as ->. rewrite Hi in Hj. destruct i, j. cbn in *. congruence.
Qed.

Lemma species_answer_row d i :
  species_answer d i =
  (species ← opt_to_domain species_to_domain (db_species d !! uuid_value i);
   match species with None => Raise NotFoundError | Some s => Ok (SpeciesView_from_domain s) end).
Proof.
  unfold species_answer, run_bound, species_query, species_repo_get, mbind, tx_bind, query, tx_lift.
  cbn. destruct (opt_to_domain species_to_domain _) as [[]|]; done.
Qed.

(** The query reads. *)
Lemma species_query_rows d i :
  run_bound None (species_query i) d = (species_answer d i, d).
Proof.
  unfold species_answer, run_bound, species_query, species_repo_get, mbind, tx_bind, query, tx_lift.
  cbn. destruct (opt_to_domain species_to_domain _) as [[]|]; done.
Qed.

Lemma species_answer_view d i v :
  species_keyed (db_species d) → species_answer d i = Ok v →
  view_class_of v = CSpecies ∧ view_cache_key v = cache_key i.
Proof.
  intros Hk. rewrite species_answer_row.
  destruct (db_species d !! uuid_value i) as [m|] eqn:Em; cbn; [|done].
  destruct (species_to_domain m) as [s|] eqn:Es; [|done]. intros [= <-]. split; [done|].
  apply Hk in Em. unfold species_to_domain in Es.
  apply bind_Ok in Es as (w & _ & Es). apply bind_Ok in Es as (l & _ & Es).
  apply Species_new_wf in Es as [_ ->].
  cbn [view_cache_key SpeciesView_from_domain sp_id]. f_equal. destruct i. cbn in Em. by rewrite Em.
Qed.

Lemma told_app new reads i t v : told reads i t v → told (new ++ reads) i t v.
Proof. intros (d & Hd & Hv). exists d. split; [set_solver|done]. Qed.

(** Dropping keys leaves nothing new behind. *)
Lemma call_delete o keys vk t k y :
  vk_get (call o (λ vk, vk_delete vk keys) vk) t k = Some y → vk_get vk t k = Some y.
Proof. destruct o as [|[]]; cbn; [intros [_ H]%vk_get_delete; exact H..|done]. Qed.

Lemma consume_keeps e o vk t k y :
  vk_get (SpeciesCacheConsumer_handle e o vk) t k = Some y → vk_get vk t k = Some y.
Proof.
  unfold SpeciesCacheConsumer_handle, cache_invalidate. destruct (body e); cbn; try done;
    apply call_delete.
Qed.

Lemma cache_get_inv now i read drop vk cached vk' :
  cache_get now i read drop vk = (cached, vk') →
  (∀ t k y, vk_get vk' t k = Some y → vk_get vk t k = Some y) ∧
  ∀ v, cached = Some v → read = true ∧ ∃ raw, vk_get vk now (cache_key i) = Some raw ∧
    model_validate_json raw = Some v.
Proof.
  unfold cache_get, delete_quietly. destruct read; cbn; [|by intros [= <- <-]].
  destruct (vk_get vk now _) as [raw|]; [|by intros [= <- <-]].
  destruct (model_validate_json raw) eqn:E; intros [= <- <-]; split; try done.
  - intros ? [= <-]. eauto.
  - intros t k y. apply call_delete.
Qed.

(** What the cache and the requests show of the species of [S], to the requests of [N], is
    what the reads [new] told. *)
Record cache_facts (S : SpeciesId → Prop) (N : nat → Prop) (ttl : Z)
    (new : list (datetime * Database)) (c : Catalogue) : Prop := {
  cf_keyed : species_keyed (db_species (ct_database c));
  cf_cached : ∀ i t raw, S i → (uuid_value i < 2 ^ 128)%N →
    vk_get (ct_valkey c) t (cache_key i) = Some raw →
    ∃ f, f ∈ ct_fills c ∧ raw = model_dump_json (fl_view f) ∧ view_class_of (fl_view f) = CSpecies ∧
      (fl_at f ≤ ct_now c)%Z ∧ (t < fl_at f + seconds ttl)%Z ∧
      told new i (fl_read_at f) (fl_view f);
  cf_readers : ∀ n r, ct_readers c !! n = Some r →
    match r with
    | Missed i => (uuid_value i < 2 ^ 128)%N
    | Holding i read_at v => (uuid_value i < 2 ^ 128)%N ∧ view_class_of v = CSpecies ∧
        view_cache_key v = cache_key i ∧ (S i → told new i read_at v)
    | Answered i t (Ok v) => N n → S i → ∃ f, f ∈ ct_fills c ∧ v = fl_view f ∧
        (fl_at f ≤ t)%Z ∧ (t < fl_at f + seconds ttl)%Z ∧ told new i (fl_read_at f) v
    | Answered i t (Raise x) => N n → S i → ∃ d, (t, d) ∈ new ∧ species_answer d i = Raise x
    end }.

Lemma cache_step S N ttl new c c' :
  (0 < ttl)%Z → cache_facts S N ttl new c → catalogue_step ttl c c' →
  ∃ more, ct_reads c' = more ++ ct_reads c ∧ cache_facts S N ttl (more ++ new) c'.
Proof.
  intros Httl [Hkeyed Hcached Hreaders]. destruct 1.
  - exists []. split; [done|]. constructor; cbn; [done| |done].
    intros i t raw Hi Hw Hraw.
    destruct (Hcached i t raw Hi Hw Hraw) as (f & ? & ? & ? & ? & ? & ?).
    exists f. split_and!; try done. lia.
  - by exists [].
  - exists []. split; [done|]. constructor; cbn; [done| |done].
    intros i t raw Hi Hw Hraw%consume_keeps. by apply Hcached.
  - exists []. split; [done|]. destruct (cache_get_inv _ _ _ _ _ _ _ H1) as [Hkeep Hhit].
    constructor; cbn; [done| |].
    + intros i t raw Hi Hw Hraw%Hkeep. by apply Hcached.
    + intros m r. rewrite lookup_insert_Some. intros [[<- <-]|[_ Hr]]; [|by apply Hreaders].
      destruct cached as [v|]; [|done]. intros Hn Hi.
      destruct (Hhit v eq_refl) as (_ & raw & Hraw & Hv).
      destruct (Hcached _ _ _ Hi H0 Hraw) as (f & Hf & -> & Hcls & ? & ? & ?).
      rewrite validate_dumped in Hv by done. injection Hv as <-. by exists f.
  - exists [(ct_now c, ct_database c)]. split; [done|]. constructor; cbn; [done| |].
    + intros i t raw Hi Hw Hraw.
      destruct (Hcached i t raw Hi Hw Hraw) as (f & ? & ? & ? & ? & ? & ?).
      exists f. split_and!; try done. by apply (told_app [_]).
    + intros m r. rewrite lookup_insert_Some. intros [[<- <-]|[_ Hr]].
      * pose proof (Hreaders _ _ H) as Hw. cbn in Hw.
        destruct (species_answer _ _) as [v|x] eqn:E; [|intros _ _; eexists; split; [by left|done]].
        destruct (species_answer_view _ _ _ Hkeyed E). split_and!; try done.
        intros _. eexists. split; [by left|done].
      * specialize (Hreaders _ _ Hr). destruct r as [i|i t v|i t [v|x]]; [done|..].
        -- destruct Hreaders as (? & ? & ? & ?). split_and!; try done.
           intros Hi. apply (told_app [_]). auto.
        -- intros Hn Hi. destruct (Hreaders Hn Hi) as (f & ? & ? & ? & ? & ?).
           exists f. split_and!; try done. by apply (told_app [_]).
        -- intros Hn Hi. destruct (Hreaders Hn Hi) as (d & ? & ?). exists d. split; [by right|done].
  - exists []. split; [done|]. destruct (Hreaders _ _ H) as (Hw & Hcls & Hkey & Htold).
    constructor; cbn; [done| |].
    + intros i t raw Hi Hwi Hraw.
      assert (vk_get (ct_valkey c) t (cache_key i) = Some raw ∨
        cache_key i = cache_key species_id ∧ raw = model_dump_json v ∧
        (t < ct_now c + seconds ttl)%Z) as [Hold|(Ei & -> & Ht)].
      { unfold cache_set, call in Hraw. destruct o as [|[]]; [|auto..|by left].
        - apply vk_get_set in Hraw as [(E & ? & ?)|[_ ?]]; [right; split_and!; congruence|by left].
        - apply vk_get_set in Hraw as [(E & ? & ?)|[_ ?]]; [right; split_and!; congruence|by left]. }
      * destruct (Hcached i t raw Hi Hwi Hold) as (f & ? & ? & ? & ? & ? & ?).
        exists f. split_and!; try done. by right.
      * apply cache_key_inj in Ei as ->; [|done..]. eexists. split; [by left|]. cbn.
        split_and!; try done. auto.
    + intros m r. rewrite lookup_insert_Some. intros [[<- <-]|[_ Hr]].
      * intros _ Hi. eexists. split; [by left|]. cbn. unfold seconds, MICROSECONDS_PER_SECOND.
        split_and!; try done; try lia. auto.
      * specialize (Hreaders _ _ Hr). destruct r as [i|i t w|i t [w|x]]; try done.
        intros Hn Hi. destruct (Hreaders Hn Hi) as (f & ? & ? & ? & ? & ?).
        exists f. split_and!; try done. by right.
Qed.

Definition everything : SpeciesId → Prop := λ _, True.
Definition everyone : nat → Prop := λ _, True.

Lemma cache_facts_start S N ttl now d :
  species_keyed (db_species d) → cache_facts S N ttl [] (Catalogue_start now d).
Proof.
  intros Hk. constructor; cbn; [done| |].
  - intros i t raw _ _. by rewrite vk_get_empty.
  - intros n r. by rewrite lookup_empty.
Qed.

Lemma cache_run S N ttl new c c' :
  (0 < ttl)%Z → cache_facts S N ttl new c → rtc (catalogue_step ttl) c c' →
  ∃ more, ct_reads c' = more ++ ct_reads c ∧ cache_facts S N ttl (more ++ new) c'.
Proof.
  intros Httl Hc Hrun. revert new Hc. induction Hrun as [c|c c1 c' Hstep _ IH]; intros new Hc.
  - by exists [].
  - destruct (cache_step _ _ _ _ _ _ Httl Hc Hstep) as (more & Hm & H1).
    destruct (IH _ H1) as (more' & Hm' & H2). exists (more' ++ more).
    by rewrite Hm', Hm, <- !app_assoc.
Qed.

Lemma cache_reachable ttl now d c :
  (0 < ttl)%Z → species_keyed (db_species d) → rtc (catalogue_step ttl) (Catalogue_start now d) c →
  cache_facts everything everyone ttl (ct_reads c) c.
Proof.
  intros Httl Hk Hrun.
  destruct (cache_run _ _ _ _ _ _ Httl (cache_facts_start everything everyone ttl now d Hk) Hrun)
    as (more & -> & Hc). exact Hc.
Qed.

(** Once the keys of a species are dropped and no request holds a view of it, nothing of
    it is left that an earlier read told. *)
Lemma cache_facts_dropped ttl reads c i (dropped : VK) :
  cache_facts everything everyone ttl reads c →
  (∀ n t v, ct_readers c !! n ≠ Some (Holding i t v)) →
  (∀ t raw, vk_get dropped t (cache_key i) ≠ Some raw) →
  cache_facts (eq i) (λ n, ∀ j t a, ct_readers c !! n ≠ Some (Answered j t a)) ttl []
    (mkCatalogue (ct_now c) (ct_database c) dropped (ct_readers c) (ct_reads c) (ct_fills c)).
Proof.
  intros [Hk _ Hr] Hno Hdrop. constructor; cbn; [done| |].
  - intros j t raw <- _ Hraw. by apply Hdrop in Hraw.
  - intros n r E. specialize (Hr _ _ E). destruct r as [j|j t v|j t [v|x]]; [done|..].
    + destruct Hr as (? & ? & ? & _). split_and!; try done. intros <-. by apply Hno in E.
    + intros Hn _. by apply Hn in E.
    + intros Hn _. by apply Hn in E.
Qed.

Definition names_species (e : DomainEvent) (i : SpeciesId) : Prop :=
  match body e with
  | SpeciesUpdated j _ _ _ _ _ | SpeciesCacheInvalidated j => j = i
  | _ => False
  end.

Lemma consume_drops e i o vk t raw :
  names_species e i → o ≠ CallFailed false →
  vk_get (SpeciesCacheConsumer_handle e o vk) t (cache_key i) ≠ Some raw.
Proof.
  unfold names_species, SpeciesCacheConsumer_handle, cache_invalidate.
  destruct (body e); try done; intros -> Ho Hraw; cbn in Hraw; destruct o as [|[]]; try done;
    apply vk_get_delete in Hraw as [Hk _]; by apply Hk; left.
Qed.

(** ** Theorems *)

(** The cache never makes a request fail, and bounds how old an answer is.  Whatever
    calls to Valkey fail, whatever commits and whatever is dropped between the steps of
    concurrent requests: a request that raises raises what the table it read at that moment
    gives; a request that answers gives what a read of the table gave, less than the time to
    live and the longest pause between a read and its fill earlier. *)
Theorem species_answers_bounded_stale (ttl : Z) (pause : timedelta) (now : datetime) (d : Database)
    (c : Catalogue) (n : nat) (i : SpeciesId) (t : datetime) (answer : result View) :
  (0 < ttl)%Z →
  species_keyed (db_species d) →
  rtc (catalogue_step ttl) (Catalogue_start now d) c →
  ct_readers c !! n = Some (Answered i t answer) →
  (∀ f, f ∈ ct_fills c → (fl_at f - fl_read_at f ≤ pause)%Z) →
  match answer with
  | Ok v => ∃ read_at, told (ct_reads c) i read_at v ∧ (t < read_at + pause + seconds ttl)%Z
  | Raise x => ∃ d', (t, d') ∈ ct_reads c ∧ species_answer d' i = Raise x
  end.
Proof.
  intros Httl Hk Hrun Hn Hpause.
  destruct (cache_reachable _ _ _ _ Httl Hk Hrun) as [_ _ Hr]. specialize (Hr _ _ Hn).
  destruct answer as [v|x]; [|by apply Hr]. destruct Hr as (f & Hf & -> & _ & Ht & Htold); [done..|].
  exists (fl_read_at f). split; [done|]. specialize (Hpause f Hf). lia.
Qed.

(** [C23] An invalidation that reaches the server is not undone by the cache.  Let the
    consumer handle an event about a species while no request sits between its read of that
    species and its fill: every request answered after gives what a read after the event
    gave. *)
Theorem invalidation_is_final (ttl : Z) (now : datetime) (d : Database) (c c' : Catalogue)
    (e : DomainEvent) (o : valkey_call) (n : nat) (i : SpeciesId) (t : datetime) (v : View) :
  (0 < ttl)%Z →
  species_keyed (db_species d) →
  rtc (catalogue_step ttl) (Catalogue_start now d) c →
  names_species e i → o ≠ CallFailed false →
  (∀ m read_at w, ct_readers c !! m ≠ Some (Holding i read_at w)) →
  rtc (catalogue_step ttl) (mkCatalogue (ct_now c) (ct_database c)
    (SpeciesCacheConsumer_handle e o (ct_valkey c)) (ct_readers c) (ct_reads c) (ct_fills c)) c' →
  (∀ j u a, ct_readers c !! n ≠ Some (Answered j u a)) →
  ct_readers c' !! n = Some (Answered i t (Ok v)) →
  ∃ after read_at, ct_reads c' = after ++ ct_reads c ∧ told after i read_at v.
Proof.
  intros Httl Hk Hrun He Ho Hno Hrun' Hnew Hn.
  pose proof (cache_facts_dropped ttl _ c i _ (cache_reachable _ _ _ _ Httl Hk Hrun) Hno
    (λ t raw, consume_drops e i o (ct_valkey c) t raw He Ho)) as Hd.
  destruct (cache_run _ _ _ _ _ _ Httl Hd Hrun') as (after & Hafter & [_ _ Hr]).
  specialize (Hr _ _ Hn). cbn in Hr. destruct Hr as (f & _ & _ & _ & _ & Htold); [done..|].
  exists after, (fl_read_at f). split; [done|]. by rewrite app_nil_r in Htold.
Qed.
End Laws.

(** A request that runs alone is a run of its steps. *)
Lemma GetSpecies_steps ttl c n i read drop fill a d vk :
  ct_readers c !! n = None → (uuid_value i < 2 ^ 128)%N →
  GetSpecies_handle ttl (ct_now c) (ct_database c) i read drop fill (ct_valkey c) = (a, d, vk) →
  d = ct_database c ∧ ∃ c', rtc (catalogue_step ttl) c c' ∧ ct_now c' = ct_now c ∧ ct_database c' = ct_database c ∧
    ct_valkey c' = vk ∧ ct_readers c' = <[n := Answered i (ct_now c) a]> (ct_readers c).
Proof.
  intros Hn Hw. unfold GetSpecies_handle.
  destruct (cache_get _ _ _ _ _) as [[v|] vk1] eqn:Hget.
  - intros [= <- <- <-]. split; [done|]. eexists.
    split; [eapply rtc_once, step_ask; eassumption|]. done.
  - pose proof (step_ask ttl c n i read drop None vk1 Hn Hw Hget) as Hask. cbn in Hask.
    set (c1 := mkCatalogue _ _ _ _ _ _) in Hask.
    assert (ct_readers c1 !! n = Some (Missed i)) as Hmiss by apply lookup_insert_eq.
    pose proof (step_read ttl c1 n i Hmiss) as Hread. cbn in Hread.
    rewrite species_query_rows. destruct (species_answer (ct_database c) i) as [v|x].
    + intros [= <- <- <-]. split; [done|]. set (c2 := mkCatalogue _ _ _ _ _ _) in Hread.
      assert (ct_readers c2 !! n = Some (Holding i (ct_now c) v)) as Hhold by apply lookup_insert_eq.
      eexists. split; [eapply rtc_l; [exact Hask|]; eapply rtc_l; [exact Hread|];
        apply rtc_once, (step_fill ttl c2 n i _ v fill Hhold)|].
      split_and!; try done. cbn. by rewrite !insert_insert_eq.
    + intros [= <- <- <-]. split; [done|]. eexists.
      split; [eapply rtc_l; [exact Hask|]; apply rtc_once; exact Hread|].
      split_and!; try done. cbn. by rewrite insert_insert_eq.
Qed.
End Cache.

(** ** An instance of the server, and of the JSON *)

Definition memory_valkey : Valkey := {|
  VK := gmap string (string * datetime);
  vk_empty := ∅;
  vk_get s t k :=
    match s !! k with
    | Some (x, until) => if decide (t < until)%Z then Some x else None
    | None => None
    end;
  vk_set s now k x ttl := <[k := (x, now + seconds ttl)%Z]> s;
  vk_delete s ks := foldr delete s ks |}.

Lemma memory_valkey_laws : ValkeyLaws memory_valkey.
Proof.
  constructor; cbn.
  - intros t k. by rewrite lookup_empty.
  - intros s now k x ttl t k' y. destruct (decide (k' = k)) as [->|Hk].
    + rewrite lookup_insert_eq. case_decide; intros [= <-]. by left.
    + rewrite lookup_insert_ne by done. by right.
  - intros s ks t k y. destruct (decide (k ∈ ks)) as [Hk|Hk].
    + assert (foldr delete s ks !! k = None) as ->; [|done].
      induction ks as [|k' ks IH]; [by apply not_elem_of_nil in Hk|]. cbn.
      apply elem_of_cons in Hk as [->|Hk]; [apply lookup_delete_eq|].
      rewrite lookup_delete_None. auto.
    + assert (foldr delete s ks !! k = s !! k) as ->; [|done].
      induction ks as [|k' ks IH]; [done|]. cbn. apply not_elem_of_cons in Hk as [? ?].
      rewrite lookup_delete_ne by done. auto.
Qed.

Definition fields : Type := uuid * string * string * Z * string * Z.

Definition plain_json : ViewJson := {|
  model_dump_json v :=
    match v with
    | SpeciesView i s c w l n => positive_text (encode (uuid_value i, s, c, w, LightRequirement_value l, n))
    | _ => EmptyString
    end;
  model_validate_json raw :=
    match decode (A := fields) (text_positive raw) with
    | Some (i, s, c, w, l, n) =>
        match LightRequirement_parse l with
        | Ok light => Some (SpeciesView (Uuid i) s c w light n)
        | Raise _ => None
        end
    | None => None
    end |}.

Lemma plain_json_law : ViewJsonLaw plain_json.
Proof.
  intros [| | | |i s c w l n| | | |]; try done. intros _. cbn.
  rewrite text_positive_text, decode_encode. destruct i, l; reflexivity.
Qed.

(** A request that read the row before it changed can fill the cache after the event was
    handled: the key the event dropped is back with the old view, no event is left to drop
    it, and requests are answered with it until its time to live is over. *)
Theorem dropped_entry_is_refilled {json : ViewJson} `{!ViewJsonLaw json} (ttl : Z) (now : datetime)
    (d d' : Database) (e : DomainEvent) (i : SpeciesId) (v : View) :
  (0 < ttl)%Z →
  species_keyed (db_species d) → species_keyed (db_species d') →
  (uuid_value i < 2 ^ 128)%N →
  names_species e i →
  species_answer d i = Ok v →
  ∃ c c' : Catalogue (valkey := memory_valkey),
    rtc (catalogue_step ttl) (Catalogue_start now d) c ∧ ct_database c = d' ∧
    ct_readers c !! 1 = None ∧
    rtc (catalogue_step ttl) (mkCatalogue (ct_now c) (ct_database c)
      (SpeciesCacheConsumer_handle e CallAnswered (ct_valkey c)) (ct_readers c) (ct_reads c)
      (ct_fills c)) c' ∧
    ct_database c' = d' ∧
    ct_readers c' !! 1 = Some (Answered i (now + seconds ttl - 1) (Ok v)).
Proof.
  intros Httl Hk Hk' Hw He Hv.
  pose proof memory_valkey_laws as Hlaws.
  destruct (species_answer_view d i v Hk Hv) as [Hcls Hkey].
  set (held := mkCatalogue now d (vk_empty (Valkey := memory_valkey)) {[0 := Holding i now v]}
    [(now, d)] []).
  set (written := mkCatalogue now d' (ct_valkey held) (ct_readers held) (ct_reads held) []).
  set (dropped := mkCatalogue now d' (SpeciesCacheConsumer_handle e CallAnswered (ct_valkey held))
    (ct_readers held) (ct_reads held) []).
  exists written. eexists. split.
  { eapply (rtc_l _ _ (mkCatalogue now d vk_empty {[0 := Missed i]} [] [])).
    { apply (step_ask ttl (Catalogue_start now d) 0 i false CallAnswered None); done. }
    eapply (rtc_l _ _ held); [|apply rtc_once, (step_write ttl held d' Hk')].
    pose proof (step_read ttl (mkCatalogue now d (vk_empty (Valkey := memory_valkey))
      {[0 := Missed i]} [] []) 0 i (lookup_singleton_eq 0 _)) as Hread.
    cbn [ct_now ct_database ct_valkey ct_readers ct_reads ct_fills] in Hread.
    rewrite Hv, insert_singleton_eq in Hread. exact Hread. }
  split; [done|]. split; [done|]. split; [|split].
  { eapply rtc_l; [apply (step_fill ttl dropped 0 i now v CallAnswered), lookup_singleton_eq|].
    eapply rtc_l; [apply (step_clock ttl _ (now + seconds ttl - 1)%Z)|].
    { change (now ≤ now + seconds ttl - 1)%Z. unfold seconds, MICROSECONDS_PER_SECOND. lia. }
    apply rtc_once, (step_ask ttl _ 1 i true CallAnswered (Some v)); [done|done|].
    cbn [ct_now ct_valkey cache_set call]. unfold cache_get. cbn [negb].
    rewrite Hkey. cbn [vk_get vk_set memory_valkey]. rewrite lookup_insert_eq.
    rewrite decide_True by (change (ct_now dropped) with now; lia). by rewrite validate_dumped. }
  { done. }
  { cbn. by rewrite lookup_insert_eq. }
Qed.

(** *** Witnesses *)

Definition fig_row (common : string) (version : Z) : SpeciesModel :=
  mkSpeciesModel 5 "Ficus" common (days 7) (LightRequirement_value LOW) version.
Definition fig_database (common : string) (version : Z) : Database :=
  set_species empty_database {[5%N := fig_row common version]}.
Definition fig_view (common : string) (version : Z) : View :=
  SpeciesView (Uuid 5) "Ficus" common (days 7) LOW version.
Definition fig_updated : DomainEvent := mkEvent 1 0 (SpeciesCacheInvalidated (Uuid 5)).

Lemma fig_keyed common version : species_keyed (db_species (fig_database common version)).
Proof. cbn. by apply map_Forall_singleton. Qed.

(** The run of a request that misses, reads and fills, and of one that finds the entry. *)
Lemma species_answers_bounded_stale_witness :
  let valkey := memory_valkey in let json := plain_json in
  ∃ c, rtc (catalogue_step 86400) (Catalogue_start 0 (fig_database "Fig" 1)) c ∧
    ct_readers c !! 0 = Some (Answered (Uuid 5) 0 (Ok (fig_view "Fig" 1))) ∧
    ∃ read_at, told (ct_reads c) (Uuid 5) read_at (fig_view "Fig" 1) ∧
      (0 < read_at + 0 + seconds 86400)%Z.
Proof.
  intros valkey json. pose proof memory_valkey_laws as Hv. pose proof plain_json_law as Hj.
  set (c1 := mkCatalogue (valkey := valkey) 0 (fig_database "Fig" 1) vk_empty
    {[0 := Missed (Uuid 5)]} [] []).
  set (c2 := mkCatalogue (valkey := valkey) 0 (fig_database "Fig" 1) vk_empty
    {[0 := Holding (Uuid 5) 0 (fig_view "Fig" 1)]} [(0%Z, fig_database "Fig" 1)] []).
  set (c3 := mkCatalogue (valkey := valkey) 0 (fig_database "Fig" 1) vk_empty
    {[0 := Answered (Uuid 5) 0 (Ok (fig_view "Fig" 1))]} [(0%Z, fig_database "Fig" 1)]
    [mkFill 0 0 (fig_view "Fig" 1)]).
  assert (rtc (catalogue_step 86400) (Catalogue_start 0 (fig_database "Fig" 1)) c3) as Hrun.
  { eapply rtc_l; [apply (step_ask 86400 (Catalogue_start 0 (fig_database "Fig" 1)) 0 (Uuid 5)
      false CallAnswered None vk_empty); done|].
    eapply rtc_l; [apply (step_read 86400 c1 0 (Uuid 5)); reflexivity|].
    apply rtc_once. apply (step_fill 86400 c2 0 (Uuid 5) 0 (fig_view "Fig" 1) (CallFailed false)).
    reflexivity. }
  exists c3. split; [exact Hrun|]. split; [reflexivity|].
  apply (species_answers_bounded_stale 86400 0 0 (fig_database "Fig" 1) c3 0 (Uuid 5) 0
    (Ok (fig_view "Fig" 1)) eq_refl (fig_keyed _ _) Hrun eq_refl).
  intros f Hf. apply list_elem_of_singleton in Hf as ->. done.
Defined.

(** The entry is cached, the row changes, the event is handled, and a request that asks
    after it reads the new row. *)
Lemma invalidation_is_final_witness :
  let valkey := memory_valkey in let json := plain_json in
  let d := fig_database "Weeping fig" 2 in
  ∃ c c' : Catalogue, rtc (catalogue_step 86400) (Catalogue_start 0 (fig_database "Fig" 1)) c ∧
    ct_database c = d ∧
    rtc (catalogue_step 86400) (mkCatalogue (ct_now c) (ct_database c)
      (SpeciesCacheConsumer_handle fig_updated CallAnswered (ct_valkey c)) (ct_readers c) (ct_reads c)
      (ct_fills c)) c' ∧
    ct_readers c' !! 1 = Some (Answered (Uuid 5) 0 (Ok (fig_view "Weeping fig" 2))) ∧
    ∃ after read_at, ct_reads c' = after ++ ct_reads c ∧
      told after (Uuid 5) read_at (fig_view "Weeping fig" 2).
Proof.
  intros valkey json d. pose proof memory_valkey_laws as Hv. pose proof plain_json_law as Hj.
  destruct (GetSpecies_steps (valkey := valkey) 86400 (Catalogue_start 0 (fig_database "Fig" 1)) 0
    (Uuid 5) true CallAnswered CallAnswered (Ok (fig_view "Fig" 1)) _ _ eq_refl eq_refl eq_refl)
    as (_ & c0 & Hrun0 & Hnow0 & Hdb0 & Hvk0 & Hr0).
  set (c := mkCatalogue (valkey := valkey) (ct_now c0) d (ct_valkey c0) (ct_readers c0) (ct_reads c0)
    (ct_fills c0)).
  set (dropped := mkCatalogue (valkey := valkey) (ct_now c) (ct_database c)
    (SpeciesCacheConsumer_handle fig_updated CallAnswered (ct_valkey c)) (ct_readers c) (ct_reads c)
    (ct_fills c)).
  assert (rtc (catalogue_step 86400) (Catalogue_start 0 (fig_database "Fig" 1)) c) as Hrun.
  { eapply rtc_r; [exact Hrun0|]. apply step_write, fig_keyed. }
  assert (∃ vk, GetSpecies_handle 86400 (ct_now dropped) (ct_database dropped) (Uuid 5) true CallAnswered CallAnswered
    (ct_valkey dropped) = (Ok (fig_view "Weeping fig" 2), ct_database dropped, vk)) as [vk Hask].
  { unfold dropped, c. cbn [ct_now ct_database ct_valkey]. rewrite Hvk0. eexists. reflexivity. }
  assert (ct_readers dropped !! 1 = None) as Hfree by (cbn; rewrite Hr0; reflexivity).
  destruct (GetSpecies_steps (valkey := valkey) 86400 dropped 1 (Uuid 5) true CallAnswered
    CallAnswered _ _ vk Hfree eq_refl Hask) as (_ & c' & Hrun' & _ & _ & _ & Hr').
  assert (ct_readers c' !! 1 = Some (Answered (Uuid 5) 0 (Ok (fig_view "Weeping fig" 2)))) as Hn.
  { rewrite Hr', lookup_insert_eq. cbn [ct_now dropped c]. by rewrite Hnow0. }
  exists c, c'. split; [exact Hrun|]. split; [reflexivity|]. split; [exact Hrun'|]. split; [exact Hn|].
  apply (invalidation_is_final 86400 0 (fig_database "Fig" 1) c c' fig_updated CallAnswered 1 (Uuid 5) 0
    (fig_view "Weeping fig" 2)); try done; try exact Hrun; try exact Hrun'.
  - apply fig_keyed.
  - intros m read_at w. cbn. rewrite Hr0. destruct m as [|m]; cbn; [by rewrite lookup_insert_eq|].
    by rewrite lookup_insert_ne, lookup_empty.
  - intros j u a. cbn. by rewrite Hr0.
Defined.

Lemma dropped_entry_is_refilled_witness :
  let json := plain_json in
  ∃ c c' : Catalogue (valkey := memory_valkey),
    rtc (catalogue_step 86400) (Catalogue_start 0 (fig_database "Fig" 1)) c ∧
    ct_database c = fig_database "Weeping fig" 2 ∧ ct_readers c !! 1 = None ∧
    rtc (catalogue_step 86400) (mkCatalogue (ct_now c) (ct_database c)
      (SpeciesCacheConsumer_handle fig_updated CallAnswered (ct_valkey c)) (ct_readers c) (ct_reads c)
      (ct_fills c)) c' ∧
    ct_database c' = fig_database "Weeping fig" 2 ∧
    ct_readers c' !! 1 = Some (Answered (Uuid 5) (0 + seconds 86400 - 1) (Ok (fig_view "Fig" 1))).
Proof.
  intros json. pose proof plain_json_law as Hj.
  apply (dropped_entry_is_refilled 86400 0 (fig_database "Fig" 1) (fig_database "Weeping fig" 2)
    fig_updated (Uuid 5) (fig_view "Fig" 1)); try done; apply fig_keyed.
Defined.
