(* ===== verification/Trefle.v ===== *)
(** The upstream catalogue: what Trefle says and how it becomes a catalogue entry
    ([infrastructure/external/trefle/models.py], [mapping.py]), and the client that walks
    its pages behind the retries and the circuit breaker ([client.py]).

    The HTTP library, the rate limiter and the service are one parameter, a call of the
    world; so are the validation of a document and UUIDv5. *)

From S2P Require Import Prelude Domain Catalog CircuitBreaker SpeciesSync.
From stdpp Require Import pretty.

(** ** The wire models *)

Record TrefleLinks := mkTrefleLinks {
  links_first : option string;
  links_last : option string;
  next_page : option string;
  links_prev : option string;
  links_self : option string }.
Record TrefleMeta := mkTrefleMeta { meta_total : option Z }.
Record TrefleSpeciesListItem := mkTrefleSpeciesListItem {
  item_id : Z;
  item_slug : string;
  item_scientific_name : string;
  item_common_name : option string;
  item_family : option string;
  item_genus : option string;
  item_image_url : option string }.
Record TrefleGrowth := mkTrefleGrowth {
  growth_light : option Z;
  growth_soil_humidity : option Z;
  growth_atmospheric_humidity : option Z }.
Record TrefleSpeciesDetail := mkTrefleSpeciesDetail {
  detail_item : TrefleSpeciesListItem;
  detail_growth : option TrefleGrowth }.
Record TrefleListResponse := mkTrefleListResponse {
  page_data : list TrefleSpeciesListItem;
  page_links : option TrefleLinks;
  page_meta : option TrefleMeta }.
Record TrefleDetailResponse := mkTrefleDetailResponse { response_detail : TrefleSpeciesDetail }.

(** ** The mapping *)

Definition DEFAULT_WATERING_INTERVAL : WateringInterval := MkCareInterval (days 7).
Definition DEFAULT_LIGHT_REQUIREMENT : LightRequirement := MEDIUM.
Definition ELLENBERG_LIGHT_MAX : Z := 9.
Definition ELLENBERG_SOIL_HUMIDITY_MAX : Z := 12.
Definition WATERING_BANDS : list (Z * Z) := [(2, 3); (4, 5); (6, 7); (8, 10); (10, 14); (12, 21)]%Z.

Definition light_requirement_for (light : option Z) : LightRequirement :=
  match light with
  | None => DEFAULT_LIGHT_REQUIREMENT
  | Some light =>
      let clamped := Z.min (Z.max light 1) ELLENBERG_LIGHT_MAX in
      if decide (clamped ≤ 3)%Z then LOW else if decide (clamped ≤ 6)%Z then MEDIUM else HIGH
  end.

Definition watering_interval_for (soil_humidity : option Z) : WateringInterval :=
  match soil_humidity with
  | None => DEFAULT_WATERING_INTERVAL
  | Some soil_humidity =>
      let clamped := Z.min (Z.max soil_humidity 1) ELLENBERG_SOIL_HUMIDITY_MAX in
      match find (λ band, bool_decide (clamped ≤ band.1)%Z) WATERING_BANDS with
      | Some (_, d) => MkCareInterval (days d)
      | None => DEFAULT_WATERING_INTERVAL
      end
  end.

Definition soil_humidity_of (growth : option TrefleGrowth) : option Z := growth ≫= growth_soil_humidity.
Definition light_of (growth : option TrefleGrowth) : option Z := growth ≫= growth_light.

(** [a or b] of two texts. *)
Definition text_or_else (a b : string) : string := if decide (a = EmptyString) then b else a.

Section Trefle.
(** [uuid5(TREFLE_SPECIES_NAMESPACE, slug)]. *)
Context (slug_uuid5 : string → uuid).

Definition species_id_for (slug : string) : SpeciesId := Uuid (slug_uuid5 slug).

Definition record_from_detail (detail : TrefleSpeciesDetail) : option SpeciesRecord :=
  let scientific_name := strip (item_scientific_name (detail_item detail)) in
  if decide (scientific_name = EmptyString) then None
  else
    let common_name := text_or_else
      (strip (text_or_else (default EmptyString (item_common_name (detail_item detail))) scientific_name))
      scientific_name in
    Some (mkSpeciesRecord (species_id_for (item_slug (detail_item detail))) scientific_name common_name
      (watering_interval_for (soil_humidity_of (detail_growth detail)))
      (light_requirement_for (light_of (detail_growth detail)))).

(** ** The client *)

(** A response, and what its body decodes to and validates as; [None] is a failure. *)
Context {Response Document : Type} (status_code : Response → Z)
  (response_json : Response → option Document)
  (validate_list : Document → option TrefleListResponse)
  (validate_detail : Document → option TrefleDetailResponse).

(** The world outside: a request under the limiter either brings a response or fails with a
    [TransportError]; [pause] is the wait after the given attempt, [clock_now] the clock. *)
Context {World : Type} (http_get : string → list (string * string) → World → option Response * World)
  (pause : Z → World → World) (clock_now : World → datetime).

Record TrefleClient := mkTrefleClient {
  tc_breaker : BreakerConfig;
  tc_token : string;
  tc_species_limit : Z;
  tc_max_attempts : Z }.
Context (self : TrefleClient).

(** What the client reads and writes: the process's breaker, and the world. *)
Definition client_state : Type := AsyncCircuitBreaker * World.

Definition AUTH_STATUS_CODES : list Z := [401; 403]%Z.
Definition MISSING_RECORD_STATUS_CODES : list Z := [404; 422]%Z.
Definition RETRYABLE_STATUS_CODES : list Z := [429]%Z.

Definition is_transient (e : exn) : bool :=
  match e with
  | TransportError => true
  | HTTPStatusError status => bool_decide (status ∈ RETRYABLE_STATUS_CODES ∨ 500 ≤ status)%Z
  | _ => false
  end.

Definition translate_status (status : Z) : exn :=
  if decide (status ∈ AUTH_STATUS_CODES) then TrefleAuthError
  else if decide (status ∈ MISSING_RECORD_STATUS_CODES) then TrefleRecordMissingError
  else if decide (status ∈ RETRYABLE_STATUS_CODES ∨ 500 ≤ status)%Z then TrefleUnavailableError
  else TrefleClientError.

(** [_request]: [raise_for_status] raises unless the status is a 2xx. *)
Definition request (path : string) (params : list (string * string)) (w : World) :
    result Response * World :=
  match http_get path (("token"%string, tc_token self) :: params) w with
  | (None, w) => (Raise TransportError, w)
  | (Some response, w) =>
      (if decide (200 ≤ status_code response ≤ 299)%Z then Ok response
       else Raise (HTTPStatusError (status_code response)), w)
  end.

(** [_with_retry]: [remaining] attempts may follow this one, the [attempt]-th.  The last failure
    is raised as it is. *)
Fixpoint with_retry (remaining : nat) (attempt : Z) (path : string) (params : list (string * string))
    (w : World) : result Response * World :=
  match request path params w with
  | (Raise e, w) =>
      match remaining with
      | S remaining => if is_transient e then with_retry remaining (attempt + 1) path params (pause attempt w)
                  else (Raise e, w)
      | O => (Raise e, w)
      end
  | answer => answer
  end.

Definition translate (e : exn) : exn :=
  match e with
  | HTTPStatusError status => translate_status status
  | TransportError => TrefleUnavailableError
  | e => e
  end.

(** [_get]: the retries inside the breaker, the failures translated. *)
Definition get (path : string) (params : list (string * string)) (s : client_state) :
    result Response * client_state :=
  let '(b, w) := s in
  match before_call (tc_breaker self) b (clock_now w) with
  | Raise e => (Raise e, (after_refusal (tc_breaker self) b (clock_now w), w))
  | Ok b =>
      match with_retry (Z.to_nat (tc_max_attempts self - 1)) 1 path params w with
      | (Ok response, w) => (Ok response, (record_success b, w))
      | (Raise e, w) => (Raise (translate e), (record_failure (tc_breaker self) b (clock_now w), w))
      end
  end.

(** [response.json()] and [model_validate]. *)
Definition parsed {A} (validate : Document → option A) (response : Response) : result A :=
  match response_json response with
  | None => Raise JSONDecodeError
  | Some document =>
      match validate document with Some a => Ok a | None => Raise ValidationError end
  end.

Definition page_text (page : Z) : string := pretty page.

Definition list_page (page : Z) (s : client_state) : result TrefleListResponse * client_state :=
  let '(answer, s) := get "species" [("page"%string, page_text page)] s in
  (response ← answer; parsed validate_list response, s).

Definition record_for (item : TrefleSpeciesListItem) (s : client_state) :
    result (option SpeciesRecord) * client_state :=
  match get ("species/" ++ item_slug item)%string [] s with
  | (Raise TrefleRecordMissingError, s) => (Ok None, s)
  | (Raise e, s) => (Raise e, s)
  | (Ok response, s) =>
      (match parsed validate_detail response with
       | Ok detail => Ok (record_from_detail (response_detail detail))
       | Raise ValidationError => Ok None
       | Raise e => Raise e
       end, s)
  end.

(** [records.setdefault(record.species_id, record)]; a dict keeps the order of insertion. *)
Definition set_default (records : list SpeciesRecord) (record : SpeciesRecord) : list SpeciesRecord :=
  if decide (spr_species_id record ∈ spr_species_id <$> records) then records else records ++ [record].

Definition limit_reached (records : list SpeciesRecord) : bool :=
  bool_decide (tc_species_limit self ≤ Z.of_nat (length records))%Z.

(** The loop over the items of a page. *)
Fixpoint fetch_items (items : list TrefleSpeciesListItem) (records : list SpeciesRecord)
    (s : client_state) : result (list SpeciesRecord) * client_state :=
  match items with
  | [] => (Ok records, s)
  | item :: items =>
      if limit_reached records then (Ok records, s)
      else match record_for item s with
      | (Raise e, s) => (Raise e, s)
      | (Ok None, s) => fetch_items items records s
      | (Ok (Some record), s) => fetch_items items (set_default records record) s
      end
  end.

(** [not next_page]: absent or empty. *)
Definition has_next (payload : TrefleListResponse) : bool :=
  match page_links payload ≫= next_page with
  | Some text => bool_decide (text ≠ EmptyString)
  | None => false
  end.

(** The loop over the pages; [None] is a walk still going on when the fuel is out. *)
Fixpoint fetch_pages (fuel : nat) (page : Z) (records : list SpeciesRecord) (s : client_state) :
    option (result (list SpeciesRecord) * client_state) :=
  if limit_reached records then Some (Ok records, s)
  else match fuel with
  | O => None
  | S fuel =>
      match list_page page s with
      | (Raise e, s) => Some (Raise e, s)
      | (Ok payload, s) =>
          match page_data payload with
          | [] => Some (Ok records, s)
          | items =>
              match fetch_items items records s with
              | (Raise e, s) => Some (Raise e, s)
              | (Ok records, s) =>
                  if has_next payload then fetch_pages fuel (page + 1) records s
                  else Some (Ok records, s)
              end
          end
      end
  end.

Definition configured : bool := bool_decide (tc_token self ≠ EmptyString).

Definition fetch_all (fuel : nat) (s : client_state) :
    option (result (list SpeciesRecord) * client_state) :=
  if negb configured then Some (Ok [], s) else fetch_pages fuel 1 [] s.

(** ** The catalogue a fetch stands for

    What a service that is up has: the pages of its collection, and what it says about a
    slug. *)
Inductive detail_fate := Found (detail : TrefleSpeciesDetail) | Unparsable | Missing.
Record Upstream := mkUpstream {
  up_pages : Z → TrefleListResponse;
  up_details : string → detail_fate }.

Definition success (response : Response) : Prop := (200 ≤ status_code response ≤ 299)%Z.

(** The service answers every request, and each of them alike. *)
Record serves (up : Upstream) : Prop := {
  serves_pages : ∀ page w, ∃ response w',
    http_get "species" [("token", tc_token self); ("page", page_text page)]%string w =
      (Some response, w') ∧ success response ∧
    response_json response ≫= validate_list = Some (up_pages up page);
  serves_details : ∀ slug w, ∃ response w',
    http_get ("species/" ++ slug)%string [("token", tc_token self)]%string w = (Some response, w') ∧
    match up_details up slug with
    | Found detail => success response ∧
        response_json response ≫= validate_detail = Some (mkTrefleDetailResponse detail)
    | Unparsable => success response ∧
        ∃ document, response_json response = Some document ∧ validate_detail document = None
    | Missing => status_code response ∈ MISSING_RECORD_STATUS_CODES
    end }.

(** The items of the pages from [page] on, when at most [n] pages are left. *)
Fixpoint listing (up : Upstream) (n : nat) (page : Z) : option (list TrefleSpeciesListItem) :=
  match n with
  | O => None
  | S n =>
      match page_data (up_pages up page) with
      | [] => Some []
      | items => if has_next (up_pages up page) then app items <$> listing up n (page + 1)
                 else Some items
      end
  end.

Definition upstream_record (up : Upstream) (item : TrefleSpeciesListItem) : option SpeciesRecord :=
  match up_details up (item_slug item) with
  | Found detail => record_from_detail detail
  | _ => None
  end.

Definition is_missing (up : Upstream) (item : TrefleSpeciesListItem) : Prop :=
  up_details up (item_slug item) = Missing.

(** The first record of each species. *)
Fixpoint first_of_each (records : list SpeciesRecord) : list SpeciesRecord :=
  match records with
  | [] => []
  | r :: records => r :: filter (λ x, spr_species_id x ≠ spr_species_id r) (first_of_each records)
  end.

(** No run of missing details as long as the breaker's threshold. *)
Definition missing_runs_below (up : Upstream) (items : list TrefleSpeciesListItem) : Prop :=
  ∀ before run after, items = before ++ run ++ after → Forall (is_missing up) run →
    (Z.of_nat (length run) < failure_threshold (tc_breaker self))%Z.

(** ** Lemmas *)

Lemma set_default_prefix records r : records `prefix_of` set_default records r.
Proof. unfold set_default. case_decide; [done|]. by eexists. Qed.

Lemma set_defaults_prefix l records : records `prefix_of` foldl set_default records l.
Proof.
  revert records. induction l as [|r l IH]; intros records; cbn; [done|].
  etrans; [apply set_default_prefix|apply IH].
Qed.

Lemma set_default_length records r : length (set_default records r) ≤ S (length records).
Proof. unfold set_default. case_decide; rewrite ?length_app; cbn; lia. Qed.

Lemma set_defaults_first l records :
  foldl set_default records l =
  records ++ filter (λ x, spr_species_id x ∉ spr_species_id <$> records) (first_of_each l).
Proof.
  revert records. induction l as [|r l IH]; intros records; cbn [foldl first_of_each].
  { by rewrite filter_nil, app_nil_r. }
  rewrite IH, filter_cons, list_filter_filter. unfold set_default.
  destruct (decide (spr_species_id r ∈ spr_species_id <$> records)) as [Hr|Hr].
  - rewrite decide_False by tauto. f_equal. apply list_filter_iff. intros x. split; [|tauto].
    intros Hx. split; [done|]. intros E. by rewrite E in Hx.
  - rewrite decide_True, <- app_assoc by done. cbn. do 2 f_equal. apply list_filter_iff.
    intros x. rewrite fmap_app, elem_of_app. cbn [fmap list_fmap].
    rewrite list_elem_of_singleton. tauto.
Qed.

Lemma take_prefix {A} n (l k : list A) : l `prefix_of` k → n ≤ length l → take n k = take n l.
Proof. intros [t ->] Hn. by rewrite take_app_le. Qed.

Lemma missing_runs_suffix up l1 l2 : missing_runs_below up (l1 ++ l2) → missing_runs_below up l2.
Proof. intros H before run after ->. apply (H (l1 ++ before) run after). by rewrite app_assoc. Qed.

(** A breaker that is closed after [k] failures in a row. *)
Definition closed_after (k : nat) (b : AsyncCircuitBreaker) : Prop :=
  cb_state b = CLOSED ∧ cb_failures b = Z.of_nat k.

Lemma closed_admits c k b now : closed_after k b → before_call c b now = Ok b.
Proof. destruct b as [st f o t]. intros [E _]. cbn in E. subst. done. Qed.

Lemma closed_failure c k b now :
  closed_after k b → (Z.of_nat (S k) < failure_threshold c)%Z →
  closed_after (S k) (record_failure c b now).
Proof.
  destruct b as [st f o t]. intros [E F] Hk. cbn in E, F. subst.
  rewrite record_failure_closed, decide_False by lia. split; [done|]. cbn. lia.
Qed.

Lemma opening_failure c k b now :
  closed_after k b → (failure_threshold c ≤ Z.of_nat (S k))%Z → (0 < reset_timeout c)%Z →
  before_call c (record_failure c b now) now = Raise CircuitOpenError.
Proof.
  destruct b as [st f o t]. intros [E F] Hk Hr. cbn in E, F. subst.
  rewrite record_failure_closed, decide_True by lia.
  destruct (before_call_open c (failure_threshold c) now now) as [-> _]. by rewrite decide_False by lia.
Qed.

Lemma success_closed b : closed_after 0 (record_success b).
Proof. by split. Qed.

Lemma with_retry_success n k path params w response w' :
  http_get path (("token"%string, tc_token self) :: params) w = (Some response, w') →
  success response → with_retry n k path params w = (Ok response, w').
Proof. intros H Hs. destruct n; cbn; unfold request; by rewrite H, decide_True. Qed.

Lemma with_retry_missing n k path params w response w' :
  http_get path (("token"%string, tc_token self) :: params) w = (Some response, w') →
  status_code response ∈ MISSING_RECORD_STATUS_CODES →
  ∃ status, with_retry n k path params w = (Raise (HTTPStatusError status), w') ∧
    translate (HTTPStatusError status) = TrefleRecordMissingError.
Proof.
  intros H Hs. exists (status_code response).
  assert (status_code response = 404%Z ∨ status_code response = 422%Z) as Hc.
  { unfold MISSING_RECORD_STATUS_CODES in Hs. repeat (apply elem_of_cons in Hs as [Hs|Hs]; [tauto|]).
    by apply not_elem_of_nil in Hs. }
  destruct n; cbn; unfold request; rewrite H, decide_False by lia;
    destruct Hc as [-> | ->]; done.
Qed.
Section Served.
Context (up : Upstream) (up_serves : serves up).

Lemma list_page_served page b b1 w :
  before_call (tc_breaker self) b (clock_now w) = Ok b1 →
  ∃ w', list_page page (b, w) = (Ok (up_pages up page), (record_success b1, w')).
Proof.
  intros Hb. destruct (serves_pages up up_serves page w) as (response & w' & Hget & Hok & Hval).
  exists w'. unfold list_page, get. rewrite Hb, (with_retry_success _ _ _ _ _ _ _ Hget Hok).
  cbn. unfold parsed. destruct (response_json response); [|done]. cbn in Hval. by rewrite Hval.
Qed.

(** One item: its record, and one failure more exactly when its detail is missing. *)
Lemma record_for_served item k b w :
  closed_after k b →
  ∃ b' w', record_for item (b, w) = (Ok (upstream_record up item), (b', w')) ∧
    (is_missing up item → b' = record_failure (tc_breaker self) b (clock_now w')) ∧
    (¬ is_missing up item → b' = record_success b).
Proof.
  intros Hb. destruct (serves_details up up_serves (item_slug item) w) as (response & w' & Hget & Hval).
  unfold record_for, get, upstream_record, is_missing. rewrite (closed_admits _ _ _ _ Hb).
  destruct (up_details up (item_slug item)) as [detail| |].
  - destruct Hval as [Hok Hval]. rewrite (with_retry_success _ _ _ _ _ _ _ Hget Hok).
    exists (record_success b), w'. split; [|done].
    unfold parsed. destruct (response_json response); [|done]. cbn in Hval. by rewrite Hval.
  - destruct Hval as (Hok & document & Hdoc & Hval).
    rewrite (with_retry_success _ _ _ _ _ _ _ Hget Hok).
    exists (record_success b), w'. split; [|done]. unfold parsed. by rewrite Hdoc, Hval.
  - destruct (with_retry_missing (Z.to_nat (tc_max_attempts self - 1)) 1 _ _ _ _ _ Hget Hval)
      as (status & -> & Htr).
    exists (record_failure (tc_breaker self) b (clock_now w')), w'. split; [|done]. by rewrite Htr.
Qed.

Definition is_missing_dec item : Decision (is_missing up item).
Proof. unfold is_missing. destruct (up_details up (item_slug item)); [right|right|left]; done. Defined.

(** What the walk of a list of items gives from [records] on. *)
Definition walked (records : list SpeciesRecord) (items : list TrefleSpeciesListItem) :
    list SpeciesRecord :=
  take (Z.to_nat (tc_species_limit self)) (foldl set_default records (omap (upstream_record up) items)).

Lemma walked_prefix records items :
  (tc_species_limit self ≤ Z.of_nat (length records))%Z →
  walked records items = take (Z.to_nat (tc_species_limit self)) records.
Proof. intros Hlen. apply take_prefix; [apply set_defaults_prefix|lia]. Qed.

Lemma walked_reached records items :
  (Z.of_nat (length records) ≤ tc_species_limit self)%Z → limit_reached records = true →
  walked records items = records.
Proof.
  intros Hlen Hr%bool_decide_eq_true. rewrite walked_prefix by done. apply take_ge. lia.
Qed.

Lemma walked_nil records :
  (Z.of_nat (length records) ≤ tc_species_limit self)%Z → walked records [] = records.
Proof. intros Hlen. apply take_ge. lia. Qed.

Lemma walked_app records items rest :
  walked (walked records items) rest = walked records (items ++ rest).
Proof.
  unfold walked at 1 3. rewrite omap_app, foldl_app. unfold walked.
  set (F := foldl set_default records _). set (n := Z.to_nat _).
  destruct (decide (length F ≤ n)) as [Hn|Hn]; [by rewrite (take_ge F)|].
  rewrite (take_prefix n F (foldl set_default F _)) by (apply set_defaults_prefix || lia).
  rewrite (take_prefix n (take n F) (foldl set_default (take n F) _))
    by (apply set_defaults_prefix || (rewrite length_take; lia)).
  by rewrite take_take, Nat.min_id.
Qed.

Lemma fetch_items_served items records q b w :
  closed_after (length q) b → Forall (is_missing up) q → missing_runs_below up (q ++ items) →
  (Z.of_nat (length records) ≤ tc_species_limit self)%Z →
  ∃ b' w' k, fetch_items items records (b, w) = (Ok (walked records items), (b', w')) ∧
    closed_after k b'.
Proof.
  revert records q b w. induction items as [|item items IH]; intros records q b w Hb Hq Hruns Hlen.
  - exists b, w, (length q). by rewrite walked_nil.
  - cbn [fetch_items]. destruct (limit_reached records) eqn:Hlim.
    { exists b, w, (length q). by rewrite walked_reached. }
    apply bool_decide_eq_false in Hlim.
    destruct (record_for_served item _ b w Hb) as (b' & w' & -> & Hmiss & Hhit).
    destruct (is_missing_dec item) as [Hm|Hm].
    + assert (upstream_record up item = None) as Hnone by (unfold upstream_record; by rewrite Hm).
      rewrite Hnone, (Hmiss Hm).
      destruct (IH records (q ++ [item]) (record_failure (tc_breaker self) b (clock_now w')) w')
        as (b2 & w2 & k & -> & Hk).
      * rewrite length_app, Nat.add_1_r. apply closed_failure; [done|].
        specialize (Hruns [] (q ++ [item]) items). rewrite length_app, Nat.add_1_r in Hruns.
        apply Hruns; [by rewrite <- app_assoc|]. by apply Forall_app_2; [|constructor].
      * by apply Forall_app_2; [|constructor].
      * by rewrite <- app_assoc.
      * done.
      * exists b2, w2, k. unfold walked. cbn [omap list_omap]. by rewrite Hnone.
    + rewrite (Hhit Hm). apply missing_runs_suffix in Hruns.
      apply (missing_runs_suffix up [item]) in Hruns.
      destruct (upstream_record up item) as [r|] eqn:Hr.
      * destruct (IH (set_default records r) [] (record_success b) w') as (b2 & w2 & k & -> & Hk);
          [apply success_closed|constructor|done| |].
        { pose proof (set_default_length records r). lia. }
        exists b2, w2, k. unfold walked. cbn [omap list_omap]. by rewrite Hr.
      * destruct (IH records [] (record_success b) w') as (b2 & w2 & k & -> & Hk);
          [apply success_closed|constructor|done..|].
        exists b2, w2, k. unfold walked. cbn [omap list_omap]. by rewrite Hr.
Qed.

Lemma fetch_pages_served n page records b b1 w items :
  before_call (tc_breaker self) b (clock_now w) = Ok b1 →
  listing up n page = Some items → missing_runs_below up items →
  (Z.of_nat (length records) ≤ tc_species_limit self)%Z →
  ∃ s, fetch_pages n page records (b, w) = Some (Ok (walked records items), s).
Proof.
  revert page records b b1 w items. induction n as [|n IH]; [done|].
  intros page records b b1 w items Hb Hlist Hruns Hlen. cbn [fetch_pages listing] in *.
  destruct (limit_reached records) eqn:Hlim; [eexists; by rewrite walked_reached|].
  destruct (list_page_served page b b1 w Hb) as [w' ->].
  destruct (page_data (up_pages up page)) as [|item0 items0].
  { injection Hlist as <-. eexists. by rewrite walked_nil. }
  set (page_items := item0 :: items0) in *.
  destruct (has_next (up_pages up page)).
  - apply fmap_Some in Hlist as (rest & Hrest & ->).
    destruct (fetch_items_served page_items records [] (record_success b1) w')
      as (b2 & w2 & k & -> & Hk); [apply success_closed|constructor| |done|].
    { intros before run after E. apply (Hruns before run (after ++ rest)). cbn in E.
      by rewrite E, <- !app_assoc. }
    apply missing_runs_suffix in Hruns.
    destruct (IH (page + 1)%Z (walked records page_items) b2 b2 w2 rest) as [s Hs]; try done.
    + by apply (closed_admits _ k).
    + unfold walked. rewrite length_take. lia.
    + exists s. by rewrite Hs, walked_app.
  - injection Hlist as <-.
    destruct (fetch_items_served page_items records [] (record_success b1) w')
      as (b2 & w2 & k & -> & Hk); [apply success_closed|constructor|done..|].
    by eexists.
Qed.
End Served.

(** ** Theorems *)

(** [C24] A fetch gives the catalogue.  When the service answers and its pages end, the
    walk ends, within as many turns as there are pages, with the first record of each
    species, in the listing's order, up to the limit: a detail that is missing, that does
    not validate or that has no scientific name costs its own entry and no other, provided
    fewer details in a row are missing than it takes to open the breaker. *)
Theorem fetch_is_the_catalogue (up : Upstream) (n : nat) (b b1 : AsyncCircuitBreaker) (w : World)
    (items : list TrefleSpeciesListItem) :
  serves up →
  configured = true →
  before_call (tc_breaker self) b (clock_now w) = Ok b1 →
  listing up n 1 = Some items →
  missing_runs_below up items →
  (0 ≤ tc_species_limit self)%Z →
  ∃ s, fetch_all n (b, w) = Some (Ok (take (Z.to_nat (tc_species_limit self))
    (first_of_each (omap (upstream_record up) items))), s).
Proof.
  intros Hup Hc Hb Hlist Hruns Hlimit. unfold fetch_all. rewrite Hc. cbn [negb].
  destruct (fetch_pages_served up Hup n 1 [] b b1 w items Hb Hlist Hruns Hlimit) as [s ->].
  exists s. unfold walked. rewrite set_defaults_first. cbn [app]. do 4 f_equal.
  apply filter_keeps, Forall_forall. intros x _. apply not_elem_of_nil.
Qed.

(** A run of missing details as long as the threshold opens the breaker, which counts an
    answer of the service as a failure: the next item is not asked for, the fetch fails with
    the breaker's error and what was fetched is dropped, although the service answered every
    request. *)
Theorem missing_details_open_the_breaker (up : Upstream) (n : nat) (b b1 : AsyncCircuitBreaker)
    (w : World) (missing rest : list TrefleSpeciesListItem) (next : TrefleSpeciesListItem) :
  serves up →
  configured = true →
  before_call (tc_breaker self) b (clock_now w) = Ok b1 →
  (0 < tc_species_limit self)%Z →
  (0 < reset_timeout (tc_breaker self))%Z →
  page_data (up_pages up 1) = missing ++ next :: rest →
  missing ≠ [] →
  Forall (is_missing up) missing →
  Z.of_nat (length missing) = failure_threshold (tc_breaker self) →
  ∃ s, fetch_all (S n) (b, w) = Some (Raise CircuitOpenError, s).
Proof.
  intros Hup Hc Hb Hlimit Hreset Hpage Hne Hmiss Hlen. unfold fetch_all. rewrite Hc. cbn [negb fetch_pages].
  assert (limit_reached [] = false) as Hlim by (apply bool_decide_eq_false; cbn; lia). rewrite Hlim.
  destruct (list_page_served up Hup 1 b b1 w Hb) as [w' ->]. rewrite Hpage.
  destruct (missing ++ next :: rest) as [|i0 is0] eqn:E; [by apply app_eq_nil in E as [? _]|].
  rewrite <- E. clear E i0 is0 Hpage b Hb.
  assert (∀ k l b w, closed_after k b → Forall (is_missing up) l → l ≠ [] →
    Z.of_nat (k + length l) = failure_threshold (tc_breaker self) →
    ∃ s, fetch_items (l ++ next :: rest) [] (b, w) = (Raise CircuitOpenError, s)) as Hrun.
  { intros k l. revert k. induction l as [|item l IH]; [done|]. intros k b w2 Hb [Hm Hl]%Forall_cons _ Hk.
    cbn [app fetch_items]. rewrite Hlim.
    destruct (record_for_served up Hup item _ b w2 Hb) as (b2 & w3 & -> & Hopen & _).
    assert (upstream_record up item = None) as -> by (unfold upstream_record; by rewrite Hm).
    rewrite (Hopen Hm). cbn [length] in Hk. destruct l as [|item' l].
    - cbn [app fetch_items]. rewrite Hlim. unfold record_for, get.
      rewrite (opening_failure _ k) by (done || (cbn [length] in Hk; lia)). by eexists.
    - apply (IH (S k)); [apply closed_failure; [done|]|done|done|]; cbn [length] in Hk |- *; lia. }
  destruct (Hrun 0 missing (record_success b1) w' (success_closed b1) Hmiss Hne Hlen) as [s ->].
  by eexists.
Qed.

(** A detail whose body is not JSON is not skipped: it raises out of the fetch, for only a
    [ValidationError] is caught around the two calls that read it. *)
Theorem non_json_detail_aborts (item : TrefleSpeciesListItem) (b b1 : AsyncCircuitBreaker)
    (w w' : World) (response : Response) :
  before_call (tc_breaker self) b (clock_now w) = Ok b1 →
  http_get ("species/" ++ item_slug item)%string [("token", tc_token self)]%string w =
    (Some response, w') →
  success response → response_json response = None →
  record_for item (b, w) = (Raise JSONDecodeError, (record_success b1, w')).
Proof.
  intros Hb Hget Hok Hjson. unfold record_for, get.
  rewrite Hb, (with_retry_success _ _ _ _ _ _ _ Hget Hok). unfold parsed. by rewrite Hjson.
Qed.

(** What the mapping lets through is an entry the catalogue takes as it is: names that are
    stripped and not blank, an interval between three days and three weeks.  Nothing but a
    blank scientific name is left out, and a moister habitat never shortens the interval,
    nor does more light ask for less. *)
Definition light_rank (l : LightRequirement) : Z := match l with LOW => 1 | MEDIUM => 2 | HIGH => 3 end.

Lemma text_or_else_cases a b :
  (text_or_else a b = a ∧ a ≠ EmptyString) ∨ (text_or_else a b = b ∧ a = EmptyString).
Proof. unfold text_or_else. case_decide; auto. Qed.

Lemma watering_interval_bounds f : (days 3 ≤ interval_value (watering_interval_for f) ≤ days 21)%Z.
Proof.
  destruct f as [f|]; [|done]. unfold watering_interval_for, WATERING_BANDS, ELLENBERG_SOIL_HUMIDITY_MAX.
  cbn [find fst]. repeat case_bool_decide; done.
Qed.

Theorem mapped_record_is_accepted (detail : TrefleSpeciesDetail) (version : Z) :
  match record_from_detail detail with
  | None => strip (item_scientific_name (detail_item detail)) = EmptyString
  | Some r =>
      spr_species_id r = species_id_for (item_slug (detail_item detail)) ∧
      spr_scientific_name r = strip (item_scientific_name (detail_item detail)) ∧
      (days 3 ≤ interval_value (spr_watering_interval r) ≤ days 21)%Z ∧
      Species_new (spr_species_id r) (spr_scientific_name r) (spr_common_name r)
        (spr_watering_interval r) (spr_light_requirement r) version =
      Ok (mkSpecies (spr_species_id r) (spr_scientific_name r) (spr_common_name r)
        (spr_watering_interval r) (spr_light_requirement r) version [])
  end ∧
  (∀ f g, (f ≤ g)%Z → (interval_value (watering_interval_for (Some f)) ≤
     interval_value (watering_interval_for (Some g)))%Z) ∧
  (∀ f g, (f ≤ g)%Z → (light_rank (light_requirement_for (Some f)) ≤
     light_rank (light_requirement_for (Some g)))%Z).
Proof.
  split_and!.
  - unfold record_from_detail. case_decide as Hs; [done|].
    cbn [spr_species_id spr_scientific_name spr_common_name spr_watering_interval spr_light_requirement].
    split; [done|]. split; [done|]. split; [apply watering_interval_bounds|].
    set (sn := strip (item_scientific_name _)) in *.
    assert (strip sn = sn) as Hsn by apply strip_idem.
    set (cn := text_or_else (strip _) sn).
    assert (strip cn = cn ∧ cn ≠ EmptyString) as [Hcn Hne].
    { subst cn. destruct (text_or_else_cases (strip (text_or_else
        (default EmptyString (item_common_name (detail_item detail))) sn)) sn) as [[-> ?]|[-> _]];
        [by rewrite strip_idem|done]. }
    clearbody sn cn.
    assert (∀ s, strip s = s → s ≠ EmptyString → Species_normalize_name s = Ok s) as Hname.
    { intros s E Hnb. unfold Species_normalize_name. cbn zeta. rewrite E. by case_decide. }
    unfold Species_new. by rewrite (Hname sn), (Hname cn).
  - intros f g Hfg. unfold watering_interval_for, WATERING_BANDS, ELLENBERG_SOIL_HUMIDITY_MAX.
    cbn [find fst]. repeat case_bool_decide; cbn; solve [lia | done].
  - intros f g Hfg. unfold light_requirement_for, ELLENBERG_LIGHT_MAX. repeat case_decide; cbn; lia.
Qed.
End Trefle.

(** ** Witnesses: a service with two pages *)

Definition demo_item (slug name : string) : TrefleSpeciesListItem :=
  mkTrefleSpeciesListItem 1 slug name None None None None.
Definition demo_detail (slug name : string) : TrefleSpeciesDetail :=
  mkTrefleSpeciesDetail (demo_item slug name) (Some (mkTrefleGrowth (Some 8%Z) (Some 3%Z) None)).

(** A response is its status and the document it holds. *)
Definition demo_document : Type := TrefleListResponse + option TrefleDetailResponse.
Definition demo_response : Type := Z * demo_document.

Definition demo_page (text : string) : TrefleListResponse :=
  if decide (text = "1"%string)
  then mkTrefleListResponse [demo_item "fern" "Nephrolepis"; demo_item "ghost" "Ghost";
         demo_item "fern" "Nephrolepis"] (Some (mkTrefleLinks None None (Some "page 2"%string) None None)) None
  else mkTrefleListResponse [demo_item "ivy" "Hedera"] None None.
Definition demo_fate (path : string) : detail_fate :=
  if decide (path = "species/ghost"%string) then Missing
  else if decide (path = "species/ivy"%string) then Found (demo_detail "ivy" "Hedera")
  else Found (demo_detail "fern" " Nephrolepis ").

Definition demo_get (path : string) (params : list (string * string)) (w : unit) :
    option demo_response * unit :=
  (Some (if decide (path = "species"%string)
         then (200%Z, inl (demo_page (default EmptyString (snd <$> last params))))
         else match demo_fate path with
         | Found detail => (200%Z, inr (Some (mkTrefleDetailResponse detail)))
         | Unparsable => (200%Z, inr None)
         | Missing => (404%Z, inr None)
         end), w).

Definition demo_upstream : Upstream :=
  mkUpstream (λ page, demo_page (page_text page)) (λ slug, demo_fate ("species/" ++ slug)).
Definition demo_client (failure_threshold : Z) : TrefleClient :=
  mkTrefleClient (mkBreakerConfig failure_threshold (seconds 60)) "token" 30 3.
Definition demo_json (r : demo_response) : option demo_document := Some r.2.
Definition demo_list (d : demo_document) : option TrefleListResponse :=
  match d with inl l => Some l | inr _ => None end.
Definition demo_detail_of (d : demo_document) : option TrefleDetailResponse :=
  match d with inl _ => None | inr r => r end.

Lemma demo_serves failure_threshold :
  serves fst demo_json demo_list demo_detail_of demo_get (demo_client failure_threshold) demo_upstream.
Proof.
  constructor.
  - intros page []. by eexists _, _.
  - intros slug []. eexists _, _. split; [done|]. unfold demo_upstream, demo_get, success. cbn [up_details].
    rewrite decide_False by done. destruct (demo_fate _); cbn.
    + by split; [lia|].
    + split; [lia|]. by eexists.
    + by left.
Qed.

Definition demo_items : list TrefleSpeciesListItem :=
  [demo_item "fern" "Nephrolepis"; demo_item "ghost" "Ghost"; demo_item "fern" "Nephrolepis";
   demo_item "ivy" "Hedera"].
Definition demo_slug_uuid (slug : string) : uuid := N.of_nat (String.length slug).
Definition closed_breaker : AsyncCircuitBreaker := mkAsyncCircuitBreaker CLOSED 2 None false.

Lemma fetch_is_the_catalogue_witness :
  ∃ s, fetch_all demo_slug_uuid fst demo_json demo_list demo_detail_of demo_get (λ _ w, w) (λ _, 0%Z)
    (demo_client 5) 2 (closed_breaker, tt) =
  Some (Ok [mkSpeciesRecord (Uuid 4) "Nephrolepis" "Nephrolepis" (MkCareInterval (days 5)) HIGH;
            mkSpeciesRecord (Uuid 3) "Hedera" "Hedera" (MkCareInterval (days 5)) HIGH], s).
Proof.
  apply (fetch_is_the_catalogue demo_slug_uuid fst demo_json demo_list demo_detail_of demo_get
    (λ _ w, w) (λ _, 0%Z) (demo_client 5) demo_upstream 2 closed_breaker closed_breaker tt demo_items).
  - apply demo_serves.
  - reflexivity.
  - reflexivity.
  - vm_compute. reflexivity.
  - intros before run after E _. apply (f_equal length) in E. rewrite !length_app in E.
    cbn [demo_items length] in E. cbn. lia.
  - done.
Defined.

(** With a threshold of one, the missing detail of the first page is enough. *)
Definition demo_upstream_missing_first : Upstream :=
  mkUpstream (λ _, mkTrefleListResponse [demo_item "ghost" "Ghost"; demo_item "ivy" "Hedera"] None None)
    (λ slug, demo_fate ("species/" ++ slug)).
Definition demo_get_missing_first (path : string) (params : list (string * string)) (w : unit) :
    option demo_response * unit :=
  if decide (path = "species"%string)
  then (Some (200%Z, inl (up_pages demo_upstream_missing_first 1)), w) else demo_get path params w.

Lemma missing_details_open_the_breaker_witness :
  ∃ s, fetch_all demo_slug_uuid fst demo_json demo_list demo_detail_of demo_get_missing_first
    (λ _ w, w) (λ _, 0%Z) (demo_client 1) 1 (mkAsyncCircuitBreaker CLOSED 0 None false, tt) =
  Some (Raise CircuitOpenError, s).
Proof.
  apply (missing_details_open_the_breaker demo_slug_uuid fst demo_json demo_list demo_detail_of
    demo_get_missing_first (λ _ w, w) (λ _, 0%Z) (demo_client 1) demo_upstream_missing_first 0
    (mkAsyncCircuitBreaker CLOSED 0 None false) (mkAsyncCircuitBreaker CLOSED 0 None false) tt
    [demo_item "ghost" "Ghost"] [] (demo_item "ivy" "Hedera")); try reflexivity; try done.
  - constructor.
    + intros page []. by eexists _, _.
    + intros slug []. destruct (serves_details _ _ _ _ _ _ _ (demo_serves 1) slug tt)
        as (response & w' & Hget & Hfate).
      exists response, w'. split; [|exact Hfate]. unfold demo_get_missing_first. by rewrite decide_False.
  - by repeat constructor.
Defined.
