(* ===== verification/TrefleSource.v ===== *)
(** The synchronisation's upstream with its fallback: the last successful snapshot in
    Valkey, and the source that serves it when Trefle is unavailable
    ([infrastructure/external/trefle/source.py]). *)

From S2P Require Import Prelude Domain Catalog Rows SpeciesSync SagaIntents SpeciesCache Trefle.

(** The JSON of a list of records: [_RECORDS_ADAPTER]. *)
Class RecordsJson := {
  dump_records : list SpeciesRecord → string;
  validate_records : string → option (list SpeciesRecord) }.

Class RecordsJsonLaw (json : RecordsJson) : Prop :=
  validate_records_dumped : ∀ l, validate_records (dump_records l) = Some l.

Section Source.
Context {valkey : Valkey} {json : RecordsJson}.

(** ** The snapshot *)

Definition SNAPSHOT_KEY : string := "species:upstream:snapshot".

(** [read] says whether the call answers. *)
Definition snapshot_load (now : datetime) (read : bool) (vk : VK) : option (list SpeciesRecord) :=
  if read then raw ← vk_get vk now SNAPSHOT_KEY; validate_records raw else None.

Definition snapshot_save (ttl_seconds : Z) (now : datetime) (records : list SpeciesRecord)
    (o : valkey_call) (vk : VK) : VK :=
  match records with
  | [] => vk
  | _ => call o (λ vk, vk_set vk now SNAPSHOT_KEY (dump_records records) ttl_seconds) vk
  end.

(** ** The source *)

(** One fetch: when it ends, what the client's own fetch gave, and how the calls to Valkey
    end. *)
Record sync := mkSync {
  sy_now : datetime;
  sy_client : result (list SpeciesRecord);
  sy_read : bool;
  sy_save : valkey_call }.

Definition fallback (s : sync) (vk : VK) : list SpeciesRecord :=
  default [] (snapshot_load (sy_now s) (sy_read s) vk).

Definition TrefleSpeciesSource_fetch_all (ttl_seconds : Z) (s : sync) (vk : VK) :
    result (list SpeciesRecord) * VK :=
  match sy_client s with
  | Raise TrefleUnavailableError | Raise CircuitOpenError => (Ok (fallback s vk), vk)
  | Raise e => (Raise e, vk)
  | Ok records => (Ok records, snapshot_save ttl_seconds (sy_now s) records (sy_save s) vk)
  end.

(** What Valkey holds after a history of fetches. *)
Definition after_syncs (ttl_seconds : Z) (past : list sync) : VK :=
  foldl (λ vk s, (TrefleSpeciesSource_fetch_all ttl_seconds s vk).2) vk_empty past.

(** A fetch whose records reached the server. *)
Definition remembered (s : sync) : bool :=
  match sy_client s, sy_save s with
  | Ok (_ :: _), CallAnswered | Ok (_ :: _), CallFailed true => true
  | _, _ => false
  end.

(** ** Lemmas *)

Context `{!ValkeyLaws valkey, !RecordsJsonLaw json}.

(** The key can only hold the newest fetch that reached the server, before it expires. *)
Lemma snapshot_is_last ttl past t raw :
  vk_get (after_syncs ttl past) t SNAPSHOT_KEY = Some raw →
  ∃ before s after records, past = before ++ s :: after ∧
    sy_client s = Ok records ∧ records ≠ [] ∧ raw = dump_records records ∧
    (t < sy_now s + seconds ttl)%Z ∧ Forall (λ s, remembered s = false) after.
Proof.
  revert t raw. induction past as [|s past IH] using rev_ind; intros t raw.
  { cbn. by rewrite vk_get_empty. }
  unfold after_syncs. rewrite foldl_snoc. fold (after_syncs ttl past).
  assert (remembered s = false → vk_get (after_syncs ttl past) t SNAPSHOT_KEY = Some raw →
    ∃ before s0 after records, past ++ [s] = before ++ s0 :: after ∧ sy_client s0 = Ok records ∧
      records ≠ [] ∧ raw = dump_records records ∧ (t < sy_now s0 + seconds ttl)%Z ∧
      Forall (λ s, remembered s = false) after) as Hkeep.
  { intros Hs (before & s0 & after & records & -> & ? & ? & ? & ? & ?)%IH.
    exists before, s0, (after ++ [s]), records. rewrite <- app_assoc. split_and!; try done.
    by apply Forall_app_2; [|constructor]. }
  unfold TrefleSpeciesSource_fetch_all, snapshot_save, remembered in *.
  destruct (sy_client s) as [[|r records]|e] eqn:Hc; cbn [snd].
  - by apply Hkeep.
  - assert (sy_save s ≠ CallFailed false →
      vk_get (vk_set (after_syncs ttl past) (sy_now s) SNAPSHOT_KEY (dump_records (r :: records)) ttl)
        t SNAPSHOT_KEY = Some raw →
      ∃ before s0 after records, past ++ [s] = before ++ s0 :: after ∧ sy_client s0 = Ok records ∧
      records ≠ [] ∧ raw = dump_records records ∧ (t < sy_now s0 + seconds ttl)%Z ∧
      Forall (λ s, remembered s = false) after) as Hset.
    { intros _ [(_ & -> & Ht)|[? _]]%vk_get_set; [|done].
      exists past, s, [], (r :: records). by split_and!. }
    destruct (sy_save s) as [|[]]; cbn [call]; [by apply Hset..|by apply Hkeep].
  - destruct e; by apply Hkeep.
Qed.

(** The snapshot is not a cached species: dropping those leaves it alone. *)
Lemma snapshot_key_is_its_own i : cache_key i ≠ SNAPSHOT_KEY.
Proof.
  intros E. apply (f_equal String.length) in E. revert E. unfold cache_key.
  pose proof (uuid_str_length (uuid_value i)) as Hlen. revert Hlen.
  generalize (uuid_str (uuid_value i)). intros s Hlen E.
  assert (8 + String.length s = 25) by exact E. lia.
Qed.

(** ** Theorems *)

(** A synchronisation never sees part of a catalogue, nor the outage of its upstream.
    Whatever the history of fetches and failures of Valkey: a fetch that answers gives
    what the client's fetch gave, or — only when Trefle is unavailable or its breaker is
    open — nothing, or the whole of one earlier fetch that succeeded, less than the time to
    live ago, with none remembered since.  A fetch that raises raises what the client raised,
    and never because the upstream was out. *)
Theorem source_serves_whole_fetches (ttl : Z) (past : list sync) (s : sync) :
  match (TrefleSpeciesSource_fetch_all ttl s (after_syncs ttl past)).1 with
  | Raise e => sy_client s = Raise e ∧ e ≠ TrefleUnavailableError ∧ e ≠ CircuitOpenError
  | Ok records => sy_client s = Ok records ∨
      (sy_client s = Raise TrefleUnavailableError ∨ sy_client s = Raise CircuitOpenError) ∧
      (records = [] ∨ ∃ before s0 after, past = before ++ s0 :: after ∧
         sy_client s0 = Ok records ∧ (sy_now s < sy_now s0 + seconds ttl)%Z ∧
         Forall (λ s, remembered s = false) after)
  end.
Proof.
  assert (fallback s (after_syncs ttl past) = [] ∨ ∃ before s0 after, past = before ++ s0 :: after ∧
    sy_client s0 = Ok (fallback s (after_syncs ttl past)) ∧ (sy_now s < sy_now s0 + seconds ttl)%Z ∧
    Forall (λ s, remembered s = false) after) as Hfall.
  { unfold fallback, snapshot_load. destruct (sy_read s); [|by left].
    destruct (vk_get _ _ _) as [raw|] eqn:E; [|by left].
    apply snapshot_is_last in E as (before & s0 & after & records & -> & Hs0 & _ & -> & Ht & Hafter).
    right. exists before, s0, after. cbn. by rewrite validate_records_dumped. }
  unfold TrefleSpeciesSource_fetch_all. destruct (sy_client s) as [records|e]; [by left|].
  destruct e; try done; right; auto.
Qed.
End Source.

(** ** Witness *)

Definition record_fields : Type := uuid * string * string * Z * string.
Definition fields_of (r : SpeciesRecord) : record_fields :=
  (uuid_value (spr_species_id r), spr_scientific_name r, spr_common_name r,
   interval_value (spr_watering_interval r), LightRequirement_value (spr_light_requirement r)).
Definition record_of (f : record_fields) : option SpeciesRecord :=
  let '(i, s, c, w, l) := f in
  match LightRequirement_parse l with
  | Ok light => Some (mkSpeciesRecord (Uuid i) s c (MkCareInterval w) light)
  | Raise _ => None
  end.

Definition plain_records : RecordsJson := {|
  dump_records l := positive_text (encode (fields_of <$> l));
  validate_records raw :=
    match decode (A := list record_fields) (text_positive raw) with
    | Some fs => mapM record_of fs
    | None => None
    end |}.

Lemma plain_records_law : RecordsJsonLaw plain_records.
Proof.
  intros l. cbn. rewrite text_positive_text, decode_encode.
  induction l as [|[[i] s c [w] light] l IH]; [done|]. cbn. destruct light; cbn; by rewrite IH.
Qed.

Definition fern_record : SpeciesRecord :=
  mkSpeciesRecord (Uuid 4) "Nephrolepis" "Fern" (MkCareInterval (days 5)) HIGH.
Definition fetched_yesterday : sync := mkSync 0 (Ok [fern_record]) true CallAnswered.
Definition down_today : sync := mkSync (hours 23) (Raise TrefleUnavailableError) true CallAnswered.

Lemma source_serves_whole_fetches_witness :
  let valkey := memory_valkey in let json := plain_records in
  (TrefleSpeciesSource_fetch_all 86400 down_today (after_syncs 86400 [fetched_yesterday])).1 =
    Ok [fern_record] ∧
  ∃ before s0 after, [fetched_yesterday] = before ++ s0 :: after ∧ sy_client s0 = Ok [fern_record].
Proof.
  intros valkey json. pose proof memory_valkey_laws as Hv. pose proof plain_records_law as Hj.
  pose proof (source_serves_whole_fetches 86400 [fetched_yesterday] down_today) as H.
  assert ((TrefleSpeciesSource_fetch_all 86400 down_today (after_syncs 86400 [fetched_yesterday])).1 =
    Ok [fern_record]) as E by (vm_compute; reflexivity).
  split; [exact E|]. rewrite E in H.
  destruct H as [H|[_ [H|(before & s0 & after & Hpast & Hs0 & _)]]]; [discriminate H..|].
  exists before, s0, after. split; [exact Hpast|exact Hs0].
Defined.
