(* ===== verification/Lines.v ===== *)
(** Texts and their lines: [str.splitlines] and its converse, shared by the event-stream
    frames and the simulator's captures.  Characters are code points up to U+00FF. *)

From S2P Require Import Prelude.
From Stdlib Require Import Ascii.

Abbreviation text := (list Ascii.ascii) (only parsing).
Definition txt (s : string) : text := String.list_ascii_of_string s.

Definition LF : Ascii.ascii := "010"%char.
Definition CR : Ascii.ascii := "013"%char.

(** ** [str.splitlines] *)

(** The characters a text is split at: line feed, vertical tab, form feed, carriage return,
    the three separators and NEL. *)
Definition is_line_break (c : Ascii.ascii) : bool :=
  bool_decide (Ascii.N_of_ascii c ∈ [10; 11; 12; 13; 28; 29; 30; 133]%N).

(** [line] holds the characters of the line being read, [cr] that the last character was a
    carriage return, which takes a line feed with it; what follows the last break is a line
    when it is not empty. *)
Fixpoint splitlines_from (line : text) (cr : bool) (l : text) : list text :=
  match l with
  | [] => match line with [] => [] | _ => [line] end
  | c :: l =>
      if is_line_break c then
        if cr && bool_decide (c = LF) then splitlines_from line false l
        else line :: splitlines_from [] (bool_decide (c = CR)) l
      else splitlines_from (line ++ [c]) false l
  end.

Definition splitlines (l : text) : list text := splitlines_from [] false l.

(** ** Lemmas *)

Definition unbroken (l : text) : Prop := Forall (λ c, is_line_break c = false) l.


Lemma splitlines_unbroken line cr l : unbroken line → Forall unbroken (splitlines_from line cr l).
Proof.
  revert line cr. induction l as [|c l IH]; intros line cr Hl; cbn.
  { destruct line; [constructor|]. by constructor. }
  destruct (is_line_break c) eqn:Hc.
  - destruct (cr && _); [by apply IH|]. constructor; [done|]. apply IH. constructor.
  - apply IH. apply Forall_app. split; [done|]. by constructor.
Qed.

Lemma splitlines_one line cr l : unbroken l → splitlines_from line cr l =
  match line ++ l with [] => [] | _ => [line ++ l] end.
Proof.
  intros Hl. revert line cr. induction Hl as [|c l Hc _ IH]; intros line cr; cbn.
  { rewrite app_nil_r. by destruct line. }
  rewrite Hc, IH, <- app_assoc. done.
Qed.

(** A text of terminated lines splits into them. *)
Lemma splitlines_from_line line cur l : unbroken line →
  splitlines_from cur false (line ++ LF :: l) = (cur ++ line) :: splitlines_from [] false l.
Proof.
  intros Hl. revert cur. induction Hl as [|c line Hc _ IH]; intros cur; cbn [app splitlines_from].
  { change (is_line_break LF) with true. cbn. by rewrite app_nil_r. }
  by rewrite Hc, IH, <- app_assoc.
Qed.

Lemma splitlines_lines lines : Forall unbroken lines →
  splitlines (concat ((λ l, l ++ [LF]) <$> lines)) = lines.
Proof.
  unfold splitlines. induction 1 as [|l lines Hl _ IH]; [done|].
  rewrite fmap_cons. cbn [concat]. rewrite <- app_assoc. cbn [app].
  rewrite splitlines_from_line by done. by rewrite IH.
Qed.
