(* ===== verification/Api.v ===== *)
(** What the two wire protocols of the API share: the tables that turn a failure into a
    status ([apps/api/.../errors.py], [grpc/errors.py]), the check of a handler's promise
    ([mediator.py]), the provenance bound for one request ([main.py],
    [grpc/servicers/base.py]) and what a command does to the rows under it. *)

From S2P Require Import Prelude Domain Care Garden Telemetry Notification Topics Rows Views.
From S2P Require Import Database UnitOfWork Repositories Idempotency Commands Delivery UuidText Queries.

(** ** Failures

    The classes the tables name; [mro e] lists those the exception's class derives from,
    the most derived first. *)
Inductive error_class :=
  | ClsDomainError | ClsNotFoundError | ClsIdempotencyKeyConflictError
  | ClsConcurrentWriteError | ClsEventStoreConcurrencyError | ClsValidationError.

#[export] Instance error_class_eq_dec : EqDecision error_class.
Proof. solve_decision. Defined.

Definition mro (e : exn) : list error_class :=
  if is_domain_error e then [ClsDomainError]
  else match e with
  | NotFoundError => [ClsNotFoundError]
  | IdempotencyKeyConflictError => [ClsIdempotencyKeyConflictError]
  | EventStoreConcurrencyError => [ClsEventStoreConcurrencyError; ClsConcurrentWriteError]
  | ConcurrentWriteError => [ClsConcurrentWriteError]
  | ValidationError => [ClsValidationError]
  | _ => []
  end.

Definition isinstance (e : exn) (cls : error_class) : bool := bool_decide (cls ∈ mro e).

(** The handlers [register_exception_handlers] attaches, each with the status it answers. *)
Definition exception_handlers : list (error_class * Z) :=
  [(ClsDomainError, 409%Z); (ClsNotFoundError, 404%Z); (ClsIdempotencyKeyConflictError, 409%Z);
   (ClsConcurrentWriteError, 409%Z); (ClsValidationError, 422%Z)].

(** The framework looks a handler up by the exception's own class hierarchy. *)
Definition handler_of (handlers : list (error_class * Z)) (cls : error_class) : option Z :=
  snd <$> find (λ h, bool_decide (h.1 = cls)) handlers.

Definition lookup_handler (handlers : list (error_class * Z)) (e : exn) : option Z :=
  head (omap (handler_of handlers) (mro e)).

(** What no handler takes is a bug: 500. *)
Definition http_status (e : exn) : Z := default 500%Z (lookup_handler exception_handlers e).

Inductive StatusCode :=
  | OK | NOT_FOUND | ALREADY_EXISTS | ABORTED | FAILED_PRECONDITION | INVALID_ARGUMENT
  | INTERNAL | UNKNOWN.

#[export] Instance StatusCode_eq_dec : EqDecision StatusCode.
Proof. solve_decision. Defined.

(** The tests of [status_code_for], in the order of the code. *)
Definition status_tests : list (error_class * StatusCode) :=
  [(ClsNotFoundError, NOT_FOUND); (ClsIdempotencyKeyConflictError, ALREADY_EXISTS);
   (ClsConcurrentWriteError, ABORTED); (ClsDomainError, FAILED_PRECONDITION);
   (ClsValidationError, INVALID_ARGUMENT)].

Definition first_match (tests : list (error_class * StatusCode)) (e : exn) : StatusCode :=
  default INTERNAL (snd <$> find (λ t, isinstance e t.1) tests).

Definition status_code_for (e : exn) : StatusCode := first_match status_tests e.

(** The HTTP status that says what a gRPC status says. *)
Definition http_of_grpc (s : StatusCode) : Z :=
  match s with
  | OK => 200
  | NOT_FOUND => 404
  | ALREADY_EXISTS | ABORTED | FAILED_PRECONDITION => 409
  | INVALID_ARGUMENT => 422
  | INTERNAL | UNKNOWN => 500
  end.

(** ** Provenance *)

Definition API_RAISER : string := "service:api".
Definition GRPC_RAISER : string := "service:grpc".

(** The headers of one request: [x-correlation-id] and [traceparent]. *)
Record edge_headers := mkEdgeHeaders {
  eh_correlation_id : option string;
  eh_traceparent : option string }.

(** [_as_uuid]: a malformed identifier starts a new conversation. *)
Definition edge_uuid (raw : option string) : option uuid := raw ≫= UUID_of.

(** The binding of one request: [ProvenanceMiddleware.__call__] with [API_RAISER],
    [_provenance_of] with [GRPC_RAISER]. *)
Definition edge_context (raiser : string) (h : edge_headers) (minted : uuid) (now : datetime) :
    MessageContext :=
  request_context raiser (eh_traceparent h) (edge_uuid (eh_correlation_id h)) None minted now.

(** The work under the binding; [None] is a scope that is not an HTTP request, which gets
    what was bound before.  The variable is put back whatever the work does. *)
Definition ProvenanceMiddleware {A} (context : option MessageContext)
    (app : option MessageContext → A) (current : option MessageContext) :
    A * option MessageContext :=
  match context with
  | Some bound => (app (Some bound), current)
  | None => (app current, current)
  end.

(** ** The mediator *)

(** What a handler answers with: a view, a collection of views of one class, or a journal
    as of a date. *)
Inductive HandlerAnswer :=
  | AView (v : View)
  | ACollection (cls : view_class) (items : list View)
  | AState (st : JournalStateView).

(** The class a handler is declared to answer with. *)
Inductive promise := PView (cls : view_class) | PCollection (cls : view_class) | PState.

#[export] Instance promise_eq_dec : EqDecision promise.
Proof. solve_decision. Defined.

Definition answer_class (a : HandlerAnswer) : promise :=
  match a with
  | AView v => PView (view_class_of v)
  | ACollection cls _ => PCollection cls
  | AState _ => PState
  end.

(** [view_of]. *)
Definition view_of (a : HandlerAnswer) (view_type : promise) : result HandlerAnswer :=
  if decide (answer_class a = view_type) then Ok a else Raise UnexpectedResponseError.

(** [ViewT] of each command handler; [None] for the two that may answer [None]. *)
Definition command_promise (c : Command) : option view_class :=
  match c with
  | CreateHousehold _ _ _ => Some CHousehold
  | AddPlant _ _ _ _ _ _ | RemovePlant _ | MovePlant _ _ => Some CPlant
  | WaterPlant _ _ | SkipWatering _ _ | CreateCareSchedule _ _ _ _ => Some CCareSchedule
  | AddSensor _ _ _ _ | RemoveSensor _ => Some CSensor
  | AcknowledgeNotification _ | CreateOnboardingNotification _ _ _ _ _ _ => Some CNotification
  | RequestSpeciesSync => Some CSyncRequested
  | DeleteCareSchedule _ | DeleteNotification _ => None
  end.

(** ** A request whose commit may fail

    The commit is the last thing a handler does that can fail.  The connection may refuse
    it, or make it and lose the acknowledgement; either way the handler raises, and what it
    raised goes through to the edge. *)
Definition run_fated {A} (fate : commit_fate) (ctx : option MessageContext) (m : tx A)
    (d : Database) : result A * Database :=
  let '(r, s) := m (open_session d ctx id) in
  if ss_committed s then
    match fate with
    | Acknowledged => (r, ss_base s)
    | Refused e => (Raise e, d)
    | Unacknowledged e => (Raise e, ss_base s)
    end
  else (r, ss_base s).

(** ** What a request leaves behind

    A row of the outbox stamped with the provenance of the request. *)
Definition stamped (ctx : MessageContext) (row : OutboxModel) : Prop :=
  ob_raised_by row = mc_raised_by ctx ∧ ob_correlation_id row = mc_correlation_id ctx ∧
  ob_causation_id row = mc_causation_id ctx ∧ ob_traceparent row = mc_traceparent ctx ∧
  ob_created_at row = mc_observed_at ctx.

(** The outbox only grew, by rows the request stamped. *)
Definition grows (ctx : MessageContext) (d d' : Database) : Prop :=
  ∃ rows, db_outbox d' = db_outbox d ++ rows ∧ Forall (stamped ctx) rows.

(** A request that raises leaves every row as it was; one that answers only adds stamped
    rows to the outbox. *)
Definition clean {A} (ctx : MessageContext) (d : Database) (out : result A * Database) : Prop :=
  match out.1 with Raise _ => out.2 = d | Ok _ => grows ctx d out.2 end.

(** ** Lemmas *)

(** *** The tables *)

Lemma find_In {A} (f : A → bool) l a : find f l = Some a → a ∈ l ∧ f a = true.
Proof.
  intros H. apply List.find_some in H. by rewrite list_elem_of_In.
Qed.

(** When at most one entry passes the test, the order of the entries is of no matter. *)
Lemma find_permutation {A} (f : A → bool) l l' :
  (∀ a b, a ∈ l → b ∈ l → f a = true → f b = true → a = b) → l' ≡ₚ l → find f l' = find f l.
Proof.
  intros Hone Hp. destruct (find f l') as [a|] eqn:E'.
  - apply find_In in E' as [Ha Hfa]. rewrite Hp in Ha.
    destruct (find f l) as [b|] eqn:E.
    + apply find_In in E as [Hb Hfb]. f_equal. by apply Hone.
    + apply list_elem_of_In in Ha. by rewrite (List.find_none _ _ E _ Ha) in Hfa.
  - destruct (find f l) as [b|] eqn:E; [|done]. apply find_In in E as [Hb Hfb].
    rewrite <- Hp in Hb. apply list_elem_of_In in Hb.
    by rewrite (List.find_none _ _ E' _ Hb) in Hfb.
Qed.

Lemma keyed_once {K V} (l : list (K * V)) a b :
  NoDup l.*1 → a ∈ l → b ∈ l → a.1 = b.1 → a = b.
Proof.
  induction l as [|x l IH]; [by intros _ ?%elem_of_nil|]. cbn. rewrite NoDup_cons, !elem_of_cons.
  intros [Hx Hnd] [->|Ha] [->|Hb] E; [done| | |by apply IH].
  - destruct Hx. rewrite E. by apply list_elem_of_fmap_2.
  - destruct Hx. rewrite <- E. by apply list_elem_of_fmap_2.
Qed.

Lemma status_tables_agree e : http_of_grpc (status_code_for e) = http_status e.
Proof. by destruct e. Qed.

Lemma mro_cases e : mro e = [] ∨ (∃ c, mro e = [c]) ∨
  mro e = [ClsEventStoreConcurrencyError; ClsConcurrentWriteError].
Proof. unfold mro. destruct (is_domain_error e); [eauto|]. destruct e; eauto. Qed.

(** *** Provenance of the rows *)

Lemma grows_refl ctx d : grows ctx d d.
Proof. exists []. by rewrite app_nil_r. Qed.

Lemma grows_trans ctx d1 d2 d3 : grows ctx d1 d2 → grows ctx d2 d3 → grows ctx d1 d3.
Proof.
  intros (r1 & E1 & H1) (r2 & E2 & H2). exists (r1 ++ r2).
  rewrite E2, E1, app_assoc. split; [done|]. by apply Forall_app.
Qed.

(** A statement under the binding: it keeps the outbox, or adds stamped rows to it. *)
Definition stamps (ctx : MessageContext) : stmt_pred := λ w,
  ∀ d d', w d = Some d' → grows ctx d d'.

Lemma domain_write_stamps ctx w : domain_write w → stamps ctx w.
Proof. intros H d d' Hw. apply H in Hw as [_ Ho]. exists []. by rewrite Ho, app_nil_r. Qed.

Lemma remember_stamps ctx key r : stamps ctx (insert_row db_idempotency set_idempotency key r).
Proof.
  intros d d'. unfold insert_row. case_match; [done|]. intros [= <-]. exists [].
  by rewrite app_nil_r.
Qed.

Lemma insert_outbox_stamps ctx e row id :
  outbox_model_from_event e (Some ctx) id = Ok row → stamps ctx (insert_outbox row).
Proof.
  intros Hrow d d' H. apply insert_outbox_Some in H as [Ho _].
  eexists. split; [exact Ho|]. constructor; [|constructor].
  unfold outbox_model_from_event in Hrow. destruct (topic_for e); [|done].
  cbn in Hrow. by injection Hrow as <-.
Qed.

Lemma outbox_statements_stamps ctx es : Forall (stamps ctx) (outbox_statements (Some ctx) es).
Proof.
  unfold outbox_statements. induction es as [|e es IH]; cbn; [constructor|].
  destruct (outbox_model_from_event e (Some ctx) 0) eqn:E; [|done]. constructor; [|done].
  by eapply insert_outbox_stamps.
Qed.

Lemma replay_stamps ctx ws d d' :
  Forall (stamps ctx) ws → replay_writes ws d = Some d' → grows ctx d d'.
Proof.
  intros H. revert d. induction H as [|w ws Hw _ IH]; intros d E.
  { injection E as <-. apply grows_refl. }
  rewrite replay_writes_cons in E. destruct (w d) as [d1|] eqn:E1; [|done].
  eapply grows_trans; [by apply Hw|]. by apply IH.
Qed.

(** A session that has staged but not committed. *)
Record staged (ctx : MessageContext) (d : Database) (s : Session) : Prop := mkStaged {
  sg_base : ss_base s = d;
  sg_context : ss_context s = Some ctx;
  sg_others : ss_others s = id;
  sg_writes : Forall (stamps ctx) (ss_writes s) }.

Lemma staged_open ctx d : staged ctx d (open_session d (Some ctx) id).
Proof. by split. Qed.

Lemma staged_body ctx d s {A} (m : tx A) :
  Staging (stamps ctx) m → staged ctx d s → staged ctx d (m s).2.
Proof.
  intros Hm [Hb Hc Ho Hw]. destruct (Hm s) as [Hb' _ Hc' Ho' (ws & Hw' & Hs)].
  split; try congruence. rewrite Hw'. by apply Forall_app.
Qed.

Lemma staging_stamps ctx {A} (m : tx A) : Staging domain_write m → Staging (stamps ctx) m.
Proof. apply staging_mono. apply domain_write_stamps. Qed.

(** What a session has done when its transaction is over. *)
Definition finished {A} (ctx : MessageContext) (d : Database) (out : result A * Session) : Prop :=
  clean ctx d (out.1, ss_base out.2).

Arguments finished : simpl never.

Lemma staged_finished {A} ctx d s (r : result A) : staged ctx d s → finished ctx d (r, s).
Proof.
  intros [Hb _ _ _]. unfold finished, clean. cbn. rewrite Hb. destruct r; [|done].
  apply grows_refl.
Qed.

Lemma commit_finished ctx d s : staged ctx d s →
  finished ctx d (uow_commit s) ∧
  (∀ x s', uow_commit s = (Raise x, s') → staged ctx d s').
Proof.
  intros [Hb Hc Ho Hw]. rewrite uow_commit_run, Hb, Hc, Ho. cbn. unfold id.
  destruct (replay_writes _ d) as [d'|] eqn:E.
  - split; [|done]. eapply replay_stamps; [|exact E]. apply Forall_app. split; [done|].
    apply outbox_statements_stamps.
  - split; [done|]. intros x s' [= <- <-]. by split.
Qed.

(** An event appended directly, outside any aggregate. *)
Lemma append_staged ctx d s e : staged ctx d s → staged ctx d (outbox_append e s).2.
Proof.
  intros Hs. unfold outbox_append. rewrite (sg_context _ _ _ Hs).
  destruct (outbox_model_from_event e (Some ctx) 0) as [row|x] eqn:E; [|done].
  apply staged_body; [|done]. by eapply staging_execute, insert_outbox_stamps.
Qed.

(** A transaction under the binding: the body stages, the commit is the last thing that
    can fail. *)
Lemma commit_last {A} ctx d s (v : A) : staged ctx d s →
  finished ctx d ((_ ← uow_commit; mret v) s).
Proof.
  intros Hs. destruct (commit_finished ctx d s Hs) as [Hf Hx].
  unfold mbind, tx_bind. destruct (uow_commit s) as [[[]|x] s1]; [exact Hf|].
  eapply staged_finished, Hx. done.
Qed.

Lemma bind_finished {A B} ctx d (m : tx A) (f : A → tx B) s :
  staged ctx d (m s).2 →
  (∀ a s', staged ctx d s' → finished ctx d (f a s')) → finished ctx d ((m ≫= f) s).
Proof.
  intros Hs' Hf. unfold mbind, tx_bind. destruct (m s) as [[a|x] s']; cbn in *; [by apply Hf|].
  by apply staged_finished.
Qed.

Lemma uow_enter_staged ctx d s : staged ctx d s → staged ctx d (uow_enter s).
Proof. by intros [Hb Hc Ho Hw]. Qed.

Lemma rollback_staged ctx d s : staged ctx d s → staged ctx d (uow_rollback s).2.
Proof. intros [Hb Hc Ho Hw]. by split. Qed.

Lemma with_uow_finished {A} ctx d (m : tx A) s :
  staged ctx d s → (∀ s', staged ctx d s' → finished ctx d (m s')) →
  finished ctx d (with_uow m s).
Proof.
  intros Hs Hm. specialize (Hm _ (uow_enter_staged _ _ _ Hs)). unfold with_uow.
  destruct (m (uow_enter s)) as [[a|x] s1]; [by destruct (ss_committed s1)|exact Hm].
Qed.

Lemma transaction_finished {A} ctx d (m : tx A) s :
  Staging (stamps ctx) m → staged ctx d s → finished ctx d (transaction m s).
Proof.
  intros Hm Hs. apply with_uow_finished; [done|]. intros s' Hs'.
  apply bind_finished; [by apply staged_body|]. intros v s1 Hs1. by apply commit_last.
Qed.

Lemma commit_create_finished ctx d key fp cls status (op : tx View) now s :
  Staging (stamps ctx) op → staged ctx d s →
  finished ctx d (commit_create key fp cls status op now s).
Proof.
  intros Hop Hs. destruct key as [key|]; [|by apply transaction_finished].
  apply with_uow_finished; [done|]. intros s0 Hs0.
  apply bind_finished; [apply staged_body, Hs0; apply staging_query|].
  intros [r|] s1 Hs1; [by apply staged_finished|].
  apply bind_finished; [by apply staged_body|]. intros v s2 Hs2.
  apply bind_finished; [apply staged_body, Hs2; apply staging_execute, remember_stamps|].
  intros [] s3 Hs3.
  destruct (commit_finished ctx d s3 Hs3) as [Hf Hx].
  unfold tx_except. unfold mbind at 1, tx_bind at 1.
  destruct (uow_commit s3) as [[[]|x] s4]; [exact Hf|]. specialize (Hx _ _ eq_refl).
  destruct (is_concurrent_write_error x); [|by apply staged_finished].
  assert (staged ctx d (uow_rollback s4).2) as H5 by by apply rollback_staged.
  rewrite (tx_bind_Ok _ _ _ tt (uow_rollback s4).2) by done.
  apply bind_finished; [apply staged_body, H5; apply staging_query|]. intros [r|] s6 Hs6; by apply staged_finished.
Qed.

Lemma delete_finished {A} ctx d s (get : tx (option A)) (del : tx unit) (view : A → View) :
  Staging domain_write get → (∀ a : A, Staging domain_write del) → staged ctx d s →
  finished ctx d ((found ← get; match found with
    | None => mret NoneView
    | Some a => _ ← del; _ ← uow_commit; mret (view a)
    end) s).
Proof.
  intros Hget Hdel Hs. apply bind_finished; [by apply staged_body, Hs; apply staging_stamps|].
  intros [a|] s2 Hs2; [|by apply staged_finished].
  apply bind_finished; [apply staged_body, Hs2; apply staging_stamps, (Hdel a)|].
  intros [] s3 Hs3. by apply commit_last.
Qed.

(** Every command, under any binding. *)
Lemma handle_clean ctx c e d : clean ctx d (run_bound (Some ctx) (handle c e) d).
Proof.
  assert (finished ctx d (handle c e (open_session d (Some ctx) id))) as H.
  { pose proof (staged_open ctx d) as Hs.
    assert (∀ op, command_body c e = Some op → Staging (stamps ctx) op) as Hop.
    { intros op [Hst _]%command_body_staging. by apply staging_stamps. }
    destruct c; cbn [handle command_body] in *;
      try (apply commit_create_finished; [by apply Hop|done]);
      try (apply transaction_finished; [by apply Hop|done]);
      (apply with_uow_finished; [done|]; intros s1 Hs1).
    - apply delete_finished; [stage|intros a; stage|done].
    - apply delete_finished; [stage|intros a; stage|done].
    - apply bind_finished; [by apply append_staged|]. intros [] s2 Hs2. by apply commit_last. }
  unfold run_bound. by destruct (handle c e _).
Qed.

(** *** The fate of the commit *)

Lemma run_acknowledged {A} ctx (m : tx A) d : run_fated Acknowledged ctx m d = run_bound ctx m d.
Proof. unfold run_fated, run_bound. destruct (m _) as [r s]. by destruct (ss_committed s). Qed.

Lemma run_fated_cases {A} fate ctx (m : tx A) d :
  run_fated fate ctx m d = run_bound ctx m d ∨
  (∃ e, fate = Refused e ∧ run_fated fate ctx m d = (Raise e, d)) ∨
  (∃ e, fate = Unacknowledged e ∧ run_fated fate ctx m d = (Raise e, (run_bound ctx m d).2)).
Proof.
  unfold run_fated, run_bound. destruct (m _) as [r s]. destruct (ss_committed s); [|by left].
  destruct fate; [by left|right; left|right; right]; by eexists.
Qed.

Lemma commit_refused e s :
  ∃ s', commit_under (Refused e) s = (Raise e, s') ∧ ss_base s' = ss_base s.
Proof.
  destruct (outbox_iter (tracked_events s) (collect_tracked s).2) as (s1 & E & _ & Hb & _).
  exists s1. split; [|done]. cbn [commit_under]. unfold mbind, tx_bind.
  change (collect_tracked s) with (Ok (tracked_events s), (collect_tracked s).2).
  cbn [fst snd] in *. by rewrite E.
Qed.

(** It is the fate [commit_under] gives the commit, in the place the commit has. *)
Lemma transaction_fated {A} fate ctx (m : tx A) d v :
  Staging any_write m → (run_bound ctx (transaction m) d).1 = Ok v →
  run_bound ctx (with_uow (v ← m; _ ← commit_under fate; mret v)) d =
  run_fated fate ctx (transaction m) d.
Proof.
  intros Hm. pose proof (staging (P := any_write) (m := m) (open_session d ctx id)) as [Hb _ Hx Ho _].
  unfold run_bound, run_fated, transaction, with_uow.
  change (uow_enter (open_session d ctx id)) with (open_session d ctx id).
  destruct (m (open_session d ctx id)) as [[a|x] s] eqn:E; cbn in Hb, Hx, Ho.
  2: { by rewrite !(tx_bind_Raise _ _ _ _ _ E). }
  rewrite !(tx_bind_Ok _ _ _ _ _ E). unfold mbind, tx_bind. rewrite uow_commit_run, Hx, Ho, Hb.
  unfold id. destruct (replay_writes (ss_writes s ++ _) d) as [d'|] eqn:Er; [|done]. intros _. cbn.
  destruct fate as [|e|e].
  - cbn [commit_under]. rewrite uow_commit_run, Hx, Ho, Hb. cbn. by rewrite Er.
  - destruct (commit_refused e s) as (s1 & -> & Hs1). cbn. by rewrite Hs1, Hb.
  - cbn [commit_under]. unfold mbind, tx_bind. rewrite uow_commit_run, Hx, Ho, Hb. cbn. by rewrite Er.
Qed.

(** *** What a handler answers with *)

(** Every value a computation returns satisfies [P]. *)
Class Promises {A} (P : A → Prop) (m : tx A) : Prop :=
  promised : ∀ s a s', m s = (Ok a, s') → P a.

#[export] Instance promises_raise {A} (P : A → Prop) e : Promises P (tx_raise e).
Proof. by intros s a s'. Qed.

Lemma promises_ret {A} (P : A → Prop) (a : A) : P a → Promises P (mret a : tx A).
Proof. by intros H s b s' [= <- _]. Qed.

#[export] Instance promises_bind {A B} (P : B → Prop) (m : tx A) (f : A → tx B) :
  (∀ a, Promises P (f a)) → Promises P (m ≫= f) | 10.
Proof.
  intros Hf s b s'. unfold mbind, tx_bind. destruct (m s) as [[a|e] s1]; [apply Hf|done].
Qed.

#[export] Instance promises_match_option {A B} (P : B → Prop) (o : option A) (m : tx B) (f : A → tx B) :
  Promises P m → (∀ a, Promises P (f a)) →
  Promises P (match o with None => m | Some a => f a end).
Proof. destruct o; auto. Qed.

#[export] Instance promises_except {A} (P : A → Prop) (m : tx A) c h :
  Promises P m → (∀ e, Promises P (h e)) → Promises P (tx_except m c h).
Proof.
  intros Hm Hh s a s'. unfold tx_except. specialize (Hm s).
  destruct (m s) as [[b|e] s1]; [apply Hm|]. destruct (c e); [apply Hh|done].
Qed.

#[export] Instance promises_with_uow {A} (P : A → Prop) (m : tx A) :
  Promises P m → Promises P (with_uow m).
Proof.
  intros Hm s a s'. unfold with_uow. specialize (Hm (uow_enter s)).
  destruct (m (uow_enter s)) as [[b|e] s1]; [|done].
  destruct (ss_committed s1); intros [= <- _]; by eapply Hm.
Qed.

(** A stored document is validated as the class asked for. *)
Lemma promises_replayed r fp cls : Promises (λ v, view_class_of v = cls) (tx_lift (replayed r fp cls)).
Proof.
  intros s a s'. unfold tx_lift, replayed, view_validate. case_decide; [done|].
  case_decide; [|done]. by intros [= <- _].
Qed.
#[export] Hint Extern 0 (Promises _ (tx_lift (replayed _ _ _))) =>
  apply promises_replayed : typeclass_instances.
#[export] Hint Extern 0 (Promises _ (mret _)) =>
  apply promises_ret; reflexivity : typeclass_instances.

(** The body's value flows past what follows it. *)
Lemma promises_flow {A} (P : A → Prop) (m : tx A) (rest : A → tx A) :
  Promises P m → (∀ a, P a → Promises P (rest a)) → Promises P (m ≫= rest).
Proof.
  intros Hm Hr s b s'. unfold mbind, tx_bind. specialize (Hm s).
  destruct (m s) as [[a|e] s1]; [|done]. by eapply Hr, Hm.
Qed.

Lemma promises_transaction {A} (P : A → Prop) (m : tx A) :
  Promises P m → Promises P (transaction m).
Proof.
  intros Hm. apply promises_with_uow, promises_flow; [done|]. intros a Ha.
  apply promises_bind. intros _. by apply promises_ret.
Qed.

Lemma promises_commit_create key fp cls status (op : tx View) now :
  Promises (λ v, view_class_of v = cls) op →
  Promises (λ v, view_class_of v = cls) (commit_create key fp cls status op now).
Proof.
  intros Hop. destruct key as [key|]; [|by apply promises_transaction].
  apply promises_with_uow, promises_bind. intros [r|]; [apply _|].
  apply promises_flow; [done|]. intros v Hv. apply promises_bind. intros _.
  apply promises_except.
  - apply promises_bind. intros _. by apply promises_ret.
  - apply _.
Qed.

(** A handler answers with the class it declares. *)
Lemma handle_promises c e cls s v s' :
  command_promise c = Some cls → handle c e s = (Ok v, s') → view_class_of v = cls.
Proof.
  intros Hc. enough (Promises (λ v, view_class_of v = cls) (handle c e)) as H by apply H.
  destruct c; try discriminate Hc; injection Hc as <-; cbn [handle];
    first [apply promises_commit_create | apply promises_transaction | apply promises_with_uow];
    autounfold with repo; cbv zeta; apply _.
Qed.

(** ** Theorems *)

(** The two protocols name the same failures: whatever exception reaches the edge,
    the gRPC status it becomes says what the HTTP status says; an exception neither table
    names is the server's own fault under both; and the order in which the handlers are
    registered, or in which the gRPC table tests the classes, changes no answer. *)
Theorem error_tables_agree (e : exn) :
  http_of_grpc (status_code_for e) = http_status e ∧
  (http_status e = 500%Z ↔ status_code_for e = INTERNAL) ∧
  (∀ handlers, handlers ≡ₚ exception_handlers →
    lookup_handler handlers e = lookup_handler exception_handlers e) ∧
  (∀ tests, tests ≡ₚ status_tests → first_match tests e = status_code_for e).
Proof.
  split_and!.
  - apply status_tables_agree.
  - by destruct e.
  - intros handlers Hp. unfold lookup_handler. f_equal.
    assert (∀ cls, handler_of handlers cls = handler_of exception_handlers cls) as Hh.
    { intros cls. unfold handler_of. f_equal. apply find_permutation; [|done].
      intros a b Ha Hb Hac%bool_decide_eq_true Hbc%bool_decide_eq_true.
      apply (keyed_once exception_handlers); [|done|done|congruence].
      apply (bool_decide_unpack _). vm_compute. exact I. }
    induction (mro e) as [|cls l IH]; [done|]. cbn. by rewrite Hh, IH.
  - intros tests Hp. unfold status_code_for, first_match. do 2 f_equal.
    apply find_permutation; [|done].
    intros a b Ha Hb Hfa%bool_decide_eq_true Hfb%bool_decide_eq_true.
    apply (keyed_once status_tests); [|done|done|].
    { apply (bool_decide_unpack _). vm_compute. exact I. }
    assert (∀ t, t ∈ status_tests → t.1 ≠ ClsEventStoreConcurrencyError) as Hne.
    { apply Forall_forall, (bool_decide_unpack _). vm_compute. exact I. }
    pose proof (Hne a Ha). pose proof (Hne b Hb).
    destruct (mro_cases e) as [Hm|[[c Hm]|Hm]]; rewrite Hm in Hfa, Hfb;
      rewrite ?elem_of_cons, elem_of_nil in Hfa, Hfb; intuition congruence.
Qed.
