(* ===== verification/Bindings.v ===== *)
(** A command under two provenances: the binding decides only what the rows of the outbox
    are stamped with ([application/provenance.py], [infrastructure/persistence/uow.py]).
    The REST and the gRPC server run the same handlers under different bindings. *)

From S2P Require Import Prelude Domain Topics Rows Views Database UnitOfWork Repositories.
From S2P Require Import Idempotency Commands SagaBase Api.

(** A row of the outbox without its provenance. *)
Definition unstamped (row : OutboxModel) : OutboxModel :=
  mkOutboxModel (ob_id row) (ob_event_id row) (ob_event_name row) (ob_topic row)
    (ob_partition_key row) (ob_payload row) (ob_occurred_at row) 0
    (ob_published_at row) (ob_dead_lettered_at row) (ob_attempts row) (ob_last_error row)
    (ob_schema_version row) "" None None None (ob_claimed_at row).

(** The same rows in every table, the provenance of the outbox apart. *)
Definition same_rows (d1 d2 : Database) : Prop :=
  d2 = set_outbox d1 (db_outbox d2) ∧ unstamped <$> db_outbox d1 = unstamped <$> db_outbox d2.

(** A computation that never looks at the provenance. *)
Class Unaware {A} (m : tx A) : Prop := unawareness : ∀ ctx s,
  m (in_context ctx s) = ((m s).1, in_context ctx (m s).2).

(** Two ends of one request. *)
Definition ends_alike {A} (out1 out2 : result A * Session) : Prop :=
  out1.1 = out2.1 ∧ same_rows (ss_base out1.2) (ss_base out2.2) ∧
  ss_committed out1.2 = ss_committed out2.2.

(** ** Lemmas *)

#[export] Instance same_rows_equivalence : Equivalence same_rows.
Proof.
  split.
  - intros d. split; [by destruct d|done].
  - intros d1 d2 [E Ho]. split; [|done]. rewrite E. by destruct d1.
  - intros d1 d2 d3 [E1 H1] [E2 H2]. split; [|congruence]. rewrite E2, E1. by destruct d1.
Qed.

#[export] Instance unaware_ret {A} (a : A) : Unaware (mret a : tx A).
Proof. by intros ctx s. Qed.
#[export] Instance unaware_lift {A} (r : result A) : Unaware (tx_lift r).
Proof. by intros ctx s. Qed.
#[export] Instance unaware_raise {A} e : Unaware (tx_raise e : tx A).
Proof. by intros ctx s. Qed.
#[export] Instance unaware_bind {A B} (m : tx A) (f : A → tx B) :
  Unaware m → (∀ a, Unaware (f a)) → Unaware (m ≫= f).
Proof.
  intros Hm Hf ctx s. unfold mbind, tx_bind. rewrite (Hm ctx s).
  destruct (m s) as [[a|e] s']; cbn; [apply Hf|done].
Qed.
#[export] Instance unaware_query {A} (f : Database → A) : Unaware (query f).
Proof. intros ctx s. unfold query. cbn. by case_match. Qed.
#[export] Instance unaware_track r es : Unaware (track r es).
Proof. by intros ctx s. Qed.
#[export] Instance unaware_execute w : Unaware (execute w).
Proof. intros ctx s. unfold execute. cbn. by case_match. Qed.
#[export] Instance unaware_except {A} (m : tx A) c h :
  Unaware m → (∀ e, Unaware (h e)) → Unaware (tx_except m c h).
Proof.
  intros Hm Hh ctx s. unfold tx_except. rewrite (Hm ctx s).
  destruct (m s) as [[a|e] s']; cbn; [done|]. case_match; [apply Hh|done].
Qed.
#[export] Instance unaware_iter {A} (f : A → tx unit) l : (∀ a, Unaware (f a)) → Unaware (tx_iter f l).
Proof. intros Hf. induction l; cbn; apply _. Qed.
#[export] Instance unaware_match_option {A B} (o : option A) (m : tx B) (f : A → tx B) :
  Unaware m → (∀ a, Unaware (f a)) → Unaware (match o with None => m | Some a => f a end).
Proof. destruct o; auto. Qed.
#[export] Instance unaware_if {B} (b : bool) (m n : tx B) :
  Unaware m → Unaware n → Unaware (if b then m else n).
Proof. destruct b; auto. Qed.
#[export] Instance unaware_pair {A B C} (p : A * B) (f : A → B → tx C) :
  (∀ a b, Unaware (f a b)) → Unaware (let '(a, b) := p in f a b).
Proof. destruct p; auto. Qed.

(** The body of every command. *)
Lemma command_body_unaware c e op : command_body c e = Some op → Unaware op.
Proof. destruct c; intros [= <-]; stage. Qed.

(** *** The commit *)

Lemma outbox_row_unstamped e ctx ctx' id row row' :
  outbox_model_from_event e ctx id = Ok row → outbox_model_from_event e ctx' id = Ok row' →
  unstamped row = unstamped row' ∧ ob_event_id row = ob_event_id row'.
Proof.
  unfold outbox_model_from_event. destruct (topic_for e); [|done].
  cbn. by intros [= <-] [= <-].
Qed.

Lemma unstamped_ids (rows rows' : list OutboxModel) :
  unstamped <$> rows = unstamped <$> rows' → ob_event_id <$> rows = ob_event_id <$> rows'.
Proof.
  intros H%(f_equal (fmap (M := list) ob_event_id)). rewrite <- !list_fmap_compose in H. exact H.
Qed.

Lemma insert_outbox_alike row row' d1 d2 :
  unstamped row = unstamped row' → ob_event_id row = ob_event_id row' → same_rows d1 d2 →
  match insert_outbox row d1, insert_outbox row' d2 with
  | Some d1', Some d2' => same_rows d1' d2'
  | None, None => True
  | _, _ => False
  end.
Proof.
  intros Hrow Hid [E Ho]. unfold insert_outbox. rewrite <- Hid, <- (unstamped_ids _ _ Ho).
  case_decide; [done|]. split; cbn.
  - rewrite E. by destruct d1.
  - rewrite !fmap_app, Ho. cbn. do 2 f_equal.
    assert (next_outbox_id d1 = next_outbox_id d2) as ->.
    { unfold next_outbox_id. by rewrite <- (length_fmap unstamped), Ho, length_fmap. }
    change (set_ob_id (unstamped row) (next_outbox_id d2) = set_ob_id (unstamped row') (next_outbox_id d2)).
    by rewrite Hrow.
Qed.

Lemma outbox_statements_alike ctx ctx' es d1 d2 :
  same_rows d1 d2 →
  match replay_writes (outbox_statements ctx es) d1, replay_writes (outbox_statements ctx' es) d2 with
  | Some d1', Some d2' => same_rows d1' d2'
  | None, None => True
  | _, _ => False
  end.
Proof.
  revert d1 d2. induction es as [|e es IH]; intros d1 d2 Hd; [done|].
  destruct (outbox_row_Ok e ctx 0) as (row & Hr & _), (outbox_row_Ok e ctx' 0) as (row' & Hr' & _).
  unfold outbox_statements in *. cbn. rewrite Hr, Hr', !replay_writes_cons.
  destruct (outbox_row_unstamped _ _ _ _ _ _ Hr Hr') as [Hu Hid].
  pose proof (insert_outbox_alike row row' d1 d2 Hu Hid Hd) as Hi.
  destruct (insert_outbox row d1), (insert_outbox row' d2); try done. by apply IH.
Qed.

(** Two sessions that differ in their binding end their commit alike; when it fails they
    still differ in nothing else. *)
Lemma commit_alike ctx s :
  ends_alike (uow_commit s) (uow_commit (in_context ctx s)) ∧
  (∀ x s', uow_commit s = (Raise x, s') →
    uow_commit (in_context ctx s) = (Raise x, in_context ctx s')).
Proof.
  rewrite !uow_commit_run. cbn [ss_context ss_writes ss_others ss_base ss_committed in_context].
  change (tracked_events (in_context ctx s)) with (tracked_events s).
  rewrite !replay_writes_app.
  destruct (replay_writes (ss_writes s) _) as [d|]; cbn.
  - pose proof (outbox_statements_alike (ss_context s) ctx (tracked_events s) d d) as H.
    specialize (H (reflexivity d)).
    destruct (replay_writes (outbox_statements (ss_context s) _) d) as [d1|],
      (replay_writes (outbox_statements ctx _) d) as [d2|]; try done.
    split; [by split_and!|]. by intros x s' [= <- <-].
  - split; [by split_and!|]. by intros x s' [= <- <-].
Qed.

(** *** The handlers *)

(** A binding decides nothing of how the computation ends. *)
Definition unmoved {A} (m : tx A) : Prop := ∀ ctx s, ends_alike (m s) (m (in_context ctx s)).

Lemma ends_alike_in_context {A} ctx (r : result A) s : ends_alike (r, s) (r, in_context ctx s).
Proof. by split_and!. Qed.

Lemma unmoved_unaware {A} (m : tx A) : Unaware m → unmoved m.
Proof.
  intros Hm ctx s. rewrite (Hm ctx s). destruct (m s). apply ends_alike_in_context.
Qed.

Lemma unmoved_bind {A B} (m : tx A) (f : A → tx B) :
  Unaware m → (∀ a, unmoved (f a)) → unmoved (m ≫= f).
Proof.
  intros Hm Hf ctx s. unfold mbind, tx_bind. rewrite (Hm ctx s).
  destruct (m s) as [[a|e] s']; cbn [fst snd]; [apply Hf|apply ends_alike_in_context].
Qed.

Lemma unmoved_with_uow {A} (m : tx A) :
  unmoved m → unmoved (with_uow m).
Proof.
  intros Hm ctx s. unfold with_uow.
  change (uow_enter (in_context ctx s)) with (in_context ctx (uow_enter s)).
  destruct (Hm ctx (uow_enter s)) as (Hr & Hb & Hc).
  destruct (m (uow_enter s)) as [[a|x] s1], (m (in_context ctx (uow_enter s))) as [[b|y] s2];
    cbn in *; try done; injection Hr as ->; try by split_and!.
  rewrite Hc. destruct (ss_committed s2) eqn:E; split_and!; try done. cbn. congruence.
Qed.

(** Nothing follows the commit but the answer. *)
Lemma commit_value_alike {A} (v : A) ctx s :
  ends_alike ((_ ← uow_commit; mret v) s) ((_ ← uow_commit; mret v) (in_context ctx s)) ∧
  (∀ x s', (_ ← uow_commit; mret v) s = (Raise x, s') →
    (_ ← uow_commit; mret v) (in_context ctx s) = (Raise x, in_context ctx s')).
Proof.
  destruct (commit_alike ctx s) as [(Hr & Hb & Hc) Hx]. unfold mbind, tx_bind.
  destruct (uow_commit s) as [[[]|x] s1].
  - destruct (uow_commit (in_context ctx s)) as [[[]|y] s2]; [|done].
    split; [by split_and!|]. by intros x s'.
  - rewrite (Hx x s1 eq_refl). split; [apply ends_alike_in_context|]. by intros y s' [= <- <-].
Qed.

Lemma unmoved_commit {A} (v : A) : unmoved (_ ← uow_commit; mret v).
Proof. intros ctx s. apply commit_value_alike. Qed.

Lemma unmoved_transaction {A} (m : tx A) : Unaware m → unmoved (transaction m).
Proof. intros Hm. apply unmoved_with_uow, unmoved_bind; [done|]. intros v. apply unmoved_commit. Qed.

#[export] Instance unaware_rollback : Unaware uow_rollback.
Proof. by intros ctx s. Qed.

Lemma unmoved_commit_create key fp cls status (op : tx View) now :
  Unaware op → unmoved (commit_create key fp cls status op now).
Proof.
  intros Hop. destruct key as [key|]; [|by apply unmoved_transaction].
  apply unmoved_with_uow, unmoved_bind; [apply unaware_query|].
  intros [r|]; [by apply unmoved_unaware, _|].
  apply unmoved_bind; [done|]. intros v. apply unmoved_bind; [apply unaware_execute|]. intros [] ctx s.
  destruct (commit_value_alike v ctx s) as [(Hr & Hb & Hc) Hx]. unfold tx_except.
  destruct ((_ ← uow_commit; mret v) s) as [[a|x] s1].
  - destruct ((_ ← uow_commit; mret v) (in_context ctx s)) as [[b|y] s2]; [by split_and!|done].
  - rewrite (Hx x s1 eq_refl). destruct (is_concurrent_write_error x);
      [|apply ends_alike_in_context].
    apply unmoved_unaware. apply _.
Qed.

(** An event appended directly is one more statement of the commit. *)
Lemma append_commit_base e v s :
  let current := ss_others s (ss_base s) in
  let out := (_ ← outbox_append e; _ ← uow_commit; mret v : tx View) s in
  (out.1, ss_base out.2, ss_committed out.2) =
  match replay_writes (ss_writes s ++ outbox_statements (ss_context s) (e :: tracked_events s)) current with
  | Some d => (Ok v, d, true)
  | None => (Raise ConcurrentWriteError, current, ss_committed s)
  end.
Proof.
  cbv zeta. destruct (outbox_append_writes e s) as (w & Hw & He).
  pose proof (execute_writes w s) as (Hok & Hws & Hb & Hx & Ho & Hc & Ht).
  destruct (execute w s) as [r s1] eqn:Eex; cbn [fst snd] in *; subst r.
  rewrite (tx_bind_Ok _ _ _ _ _ He). unfold mbind, tx_bind. rewrite uow_commit_run.
  rewrite Hws, Hb, Hx, Ho, Hc. unfold tracked_events. rewrite Ht, <- app_assoc. fold (tracked_events s).
  assert ([w] ++ outbox_statements (ss_context s) (tracked_events s) =
    outbox_statements (ss_context s) (e :: tracked_events s)) as ->.
  { rewrite <- Hw. unfold outbox_statements. cbn. by destruct (outbox_model_from_event e _ _). }
  by destruct (replay_writes _ _).
Qed.

Lemma unmoved_append e v : unmoved (_ ← outbox_append e; _ ← uow_commit; mret v : tx View).
Proof.
  intros ctx s. pose proof (append_commit_base e v s) as H1.
  pose proof (append_commit_base e v (in_context ctx s)) as H2. cbv zeta in H1, H2.
  change (ss_others (in_context ctx s) (ss_base (in_context ctx s))) with (ss_others s (ss_base s)) in H2.
  change (ss_writes (in_context ctx s)) with (ss_writes s) in H2.
  change (tracked_events (in_context ctx s)) with (tracked_events s) in H2.
  rewrite !replay_writes_app in H1, H2. unfold ends_alike.
  destruct (replay_writes (ss_writes s) _) as [d|]; cbn in H1, H2.
  - pose proof (outbox_statements_alike (ss_context s) ctx (e :: tracked_events s) d d (reflexivity d)) as H.
    destruct (replay_writes (outbox_statements (ss_context s) _) d),
      (replay_writes (outbox_statements ctx _) d); try done;
      injection H1 as -> -> ->; injection H2 as -> -> ->; by split_and!.
  - injection H1 as -> -> ->; injection H2 as -> -> ->. by split_and!.
Qed.

(** Every command ends the same way, whoever it is attributed to. *)
Lemma handle_unmoved c e : unmoved (handle c e).
Proof.
  pose proof (command_body_unaware c e) as Hop.
  destruct c; cbn [handle command_body] in *;
    try (apply unmoved_commit_create; by apply Hop);
    try (apply unmoved_transaction; by apply Hop);
    apply unmoved_with_uow.
  - apply unmoved_bind; [stage|]. intros [a|]; [|apply unmoved_unaware; apply _].
    apply unmoved_bind; [stage|]. intros []. apply unmoved_commit.
  - apply unmoved_bind; [stage|]. intros [a|]; [|apply unmoved_unaware; apply _].
    apply unmoved_bind; [stage|]. intros []. apply unmoved_commit.
  - apply unmoved_append.
Qed.

(** ** Theorems *)

(** [C16] A command does the same under every provenance: run on the same rows for any two
    callers, it answers the same view or raises the same exception, and leaves the same rows
    in every table, outbox included, but for the columns that say who the rows are
    attributed to, which conversation and trace they belong to, and when the edge saw the
    work. *)
Theorem provenance_changes_no_answer (c : Command) (e : Env) (d : Database)
    (ctx1 ctx2 : option MessageContext) :
  (run_bound ctx1 (handle c e) d).1 = (run_bound ctx2 (handle c e) d).1 ∧
  same_rows (run_bound ctx1 (handle c e) d).2 (run_bound ctx2 (handle c e) d).2.
Proof.
  destruct (handle_unmoved c e ctx2 (open_session d ctx1 id)) as (Hr & Hb & _).
  change (in_context ctx2 (open_session d ctx1 id)) with (open_session d ctx2 id) in *.
  unfold run_bound. by destruct (handle c e (open_session d ctx1 id)), (handle c e (open_session d ctx2 id)).
Qed.
