(* ===== verification/Rest.v ===== *)
(** The REST front end: the request and response schemas
    ([apps/api/.../rest/schemas/*.py]), the routes that turn a request into a command or a
    query and a view into a response ([rest/routers/*.py]), and one request from its
    headers to its status.

    The two notification deliveries that wait or stream are in [Sse]. *)

From S2P Require Import Prelude Domain Care Garden Catalog Telemetry Journal Notification.
From S2P Require Import Topics Rows Views Database UnitOfWork Repositories Idempotency Commands.
From S2P Require Import Delivery SagaIntents ReadModels Queries SpeciesCache Api.

(** ** Request bodies

    A body of the right shape; the bounds are checked before a route runs. *)
Definition text_within (low high : nat) (s : string) : bool :=
  bool_decide (low ≤ String.length s ≤ high).

Record HouseholdCreate := mkHouseholdCreate { hc_name : string }.
Definition HouseholdCreate_valid (b : HouseholdCreate) : bool := text_within 1 100 (hc_name b).

Record PlantCreate := mkPlantCreate {
  pc_household_id : uuid;
  pc_species_id : uuid;
  pc_name : string;
  pc_location : string }.
Definition PlantCreate_valid (b : PlantCreate) : bool :=
  text_within 1 200 (pc_name b) && text_within 1 100 (pc_location b).

Record PlantUpdate := mkPlantUpdate { pu_location : string }.
Definition PlantUpdate_valid (b : PlantUpdate) : bool := text_within 1 100 (pu_location b).

Record WateringRequest := mkWateringRequest { wr_expected_version : option Z }.
Definition WateringRequest_valid (b : WateringRequest) : bool :=
  match wr_expected_version b with Some v => bool_decide (1 ≤ v)%Z | None => true end.

Record SensorCreate := mkSensorCreate { sc_plant_id : uuid; sc_sensor_id : option uuid }.

(** ** Response bodies *)

Inductive Schema :=
  | HouseholdResponse (household_id : uuid) (name : string) (plant_count : nat)
  | PlantResponse (plant_id household_id species_id : uuid) (name location : string)
      (added_at : datetime) (last_watered_at : option datetime) (removed : bool)
  | CareScheduleResponse (plant_id : uuid) (watering_interval_seconds : Z)
      (next_watering_at : datetime) (version : Z)
  | SensorResponse (sensor_id plant_id : uuid) (added_at : datetime)
      (last_seen_at : option datetime)
  | SpeciesResponse (species_id : uuid) (scientific_name common_name : string)
      (watering_interval_seconds : Z) (light_requirement : LightRequirement) (version : Z)
  | NotificationResponse (notification_id household_id : uuid)
      (notification_type : NotificationType) (payload : gmap string JsonValue)
      (created_at : datetime) (read_at : option datetime)
  | JournalEntryResponse (entry_id plant_id : uuid) (entry_type : JournalEntryType)
      (at_ : datetime) (note : option string)
  | SyncRequestedResponse (requested : bool).

(** The body of an answer: one item, a collection, the journal as of a date, the error
    body of a failure, or the framework's own account of a request it could not read or of
    a failure nobody handles. *)
Inductive Body :=
  | BItem (item : Schema)
  | BCollection (items : list Schema)
  | BJournalState (plant_id : uuid) (as_of : datetime) (entry_count : nat)
      (counts_by_type : list (JournalEntryType * nat)) (entries : list Schema)
  | BProblem (error : exn)
  | BInvalidRequest
  | BServerError.

Record Response := mkResponse { rs_status : Z; rs_body : Body }.

(** [int(interval.total_seconds())]: whole seconds, towards zero. *)
Definition whole_seconds (t : timedelta) : Z := Z.quot t (seconds 1).

(** The [from_view] of each schema; [None] is a view of another class. *)
Definition HouseholdResponse_from_view (v : View) : option Schema :=
  match v with
  | HouseholdView i n c => Some (HouseholdResponse (uuid_value i) n c)
  | _ => None
  end.

Definition PlantResponse_from_view (v : View) : option Schema :=
  match v with
  | PlantView p h s n l a w r =>
      Some (PlantResponse (uuid_value p) (uuid_value h) (uuid_value s) n l a w r)
  | _ => None
  end.

Definition CareScheduleResponse_from_view (v : View) : option Schema :=
  match v with
  | CareScheduleView p i n ver =>
      Some (CareScheduleResponse (uuid_value p) (whole_seconds i) n ver)
  | _ => None
  end.

Definition SensorResponse_from_view (v : View) : option Schema :=
  match v with
  | SensorView i p a l => Some (SensorResponse (uuid_value i) (uuid_value p) a l)
  | _ => None
  end.

Definition SpeciesResponse_from_view (v : View) : option Schema :=
  match v with
  | SpeciesView i s c w l ver =>
      Some (SpeciesResponse (uuid_value i) s c (whole_seconds w) l ver)
  | _ => None
  end.

Definition NotificationResponse_from_view (v : View) : option Schema :=
  match v with
  | NotificationView i h t p c r =>
      Some (NotificationResponse (uuid_value i) (uuid_value h) t p c r)
  | _ => None
  end.

Definition JournalEntryResponse_from_view (v : View) : option Schema :=
  match v with
  | JournalEntryView i p t a n => Some (JournalEntryResponse (uuid_value i) (uuid_value p) t a n)
  | _ => None
  end.

Definition SyncRequestedResponse_from_view (v : View) : option Schema :=
  match v with SyncRequestedView r => Some (SyncRequestedResponse r) | _ => None end.

(** The schema of a view class. *)
Definition item_from_view (cls : view_class) : View → option Schema :=
  match cls with
  | CHousehold => HouseholdResponse_from_view
  | CPlant => PlantResponse_from_view
  | CCareSchedule => CareScheduleResponse_from_view
  | CSensor => SensorResponse_from_view
  | CSpecies => SpeciesResponse_from_view
  | CNotification => NotificationResponse_from_view
  | CJournalEntry => JournalEntryResponse_from_view
  | CSyncRequested => SyncRequestedResponse_from_view
  | CNone => λ _, None
  end.

(** The [from_view] of a collection response and of [JournalStateResponse]. *)
Definition body_from_answer (a : HandlerAnswer) : option Body :=
  match a with
  | AView v => BItem <$> item_from_view (view_class_of v) v
  | ACollection cls vs => BCollection <$> mapM (item_from_view cls) vs
  | AState st =>
      BJournalState (uuid_value (jv_plant_id st)) (jv_as_of st) (jv_entry_count st)
        (jv_counts_by_type st) <$> mapM JournalEntryResponse_from_view (jv_entries st)
  end.

(** ** Requests *)

Inductive RestRequest :=
  | PostHouseholds (payload : HouseholdCreate) (idempotency_key : option string)
  | GetHouseholdById (household_id : uuid)
  | PostPlants (payload : PlantCreate) (idempotency_key : option string)
  | GetPlants (household_id : uuid) (include_removed : bool)
  | GetPlantById (plant_id : uuid)
  | PatchPlant (plant_id : uuid) (payload : PlantUpdate)
  | DeletePlant (plant_id : uuid)
  | GetCareToday (household_id : uuid)
  | PostWater (plant_id : uuid) (payload : option WateringRequest)
  | PostSkip (plant_id : uuid) (payload : option WateringRequest)
  | PostSensors (payload : SensorCreate) (idempotency_key : option string)
  | GetSensors (plant_id : uuid)
  | DeleteSensorById (sensor_id : uuid)
  | GetSpeciesList
  | GetSpeciesById (species_id : uuid)
  | PostCatalogSync
  | GetJournal (plant_id : uuid)
  | GetJournalAt (plant_id : uuid) (date : Z)
  | PostAck (notification_id : uuid).

(** Whether the framework accepts the body. *)
Definition request_valid (r : RestRequest) : bool :=
  match r with
  | PostHouseholds b _ => HouseholdCreate_valid b
  | PostPlants b _ => PlantCreate_valid b
  | PatchPlant _ b => PlantUpdate_valid b
  | PostWater _ (Some b) | PostSkip _ (Some b) => WateringRequest_valid b
  | _ => true
  end.

(** [status_code] of the route. *)
Definition success_status (r : RestRequest) : Z :=
  match r with
  | PostHouseholds _ _ | PostPlants _ _ | PostSensors _ _ => 201
  | PostCatalogSync => 202
  | _ => 200
  end.

(** Whether the route is a [GET]. *)
Definition reads_only (r : RestRequest) : bool :=
  match r with
  | GetHouseholdById _ | GetPlants _ _ | GetPlantById _ | GetCareToday _ | GetSensors _
  | GetSpeciesList | GetSpeciesById _ | GetJournal _ | GetJournalAt _ _ => true
  | _ => false
  end.

Inductive Query :=
  | GetHouseholdQuery (household_id : HouseholdId)
  | GetPlantQuery (plant_id : PlantId)
  | ListPlantsQuery (household_id : HouseholdId) (include_removed : bool)
  | GetTodayCareQuery (household_id : HouseholdId)
  | ListSensorsQuery (plant_id : PlantId)
  | ListSpeciesQuery
  | GetSpeciesQuery (species_id : SpeciesId)
  | GetJournalTimelineQuery (plant_id : PlantId)
  | GetJournalAtDateQuery (plant_id : PlantId) (date : Z).

Inductive Message := MCommand (c : Command) | MQuery (q : Query).

(** The payload's version, when there is a payload. *)
Definition payload_version (payload : option WateringRequest) : option Z :=
  payload ≫= wr_expected_version.

(** [SpeciesView.model_validate_json] answers a [SpeciesView] or raises. *)
Class ViewJsonClass (json : ViewJson) : Prop :=
  validated_class : ∀ raw v, model_validate_json raw = Some v → view_class_of v = CSpecies.

Section Server.
Context {valkey : Valkey} {json : ViewJson}.
(** The database's collation, [request_fingerprint] of a command without its key, and the
    time to live of a cache entry. *)
Context (name_le : relation string) `{∀ s t, Decision (name_le s t)}.
Context (request_fingerprint : Command → string) (ttl_seconds : Z).

(** ** The routes *)

(** A replayable command with the fingerprint of its content. *)
Definition fingerprinted (command : string → Command) : Command :=
  command (request_fingerprint (command ""%string)).

(** Each route builds its command or query, says which view it expects back, and may raise
    on the way. *)
Definition route_create_household (payload : HouseholdCreate) (key : option string) :
    result (Message * promise) :=
  Ok (MCommand (fingerprinted (CreateHousehold (hc_name payload) key)), PView CHousehold).

Definition route_get_household (household_id : uuid) : result (Message * promise) :=
  Ok (MQuery (GetHouseholdQuery (Uuid household_id)), PView CHousehold).

Definition route_add_plant (payload : PlantCreate) (key : option string) :
    result (Message * promise) :=
  location ← Location_validate (pc_location payload);
  Ok (MCommand (fingerprinted (AddPlant (Uuid (pc_household_id payload))
    (Uuid (pc_species_id payload)) (pc_name payload) location key)), PView CPlant).

Definition route_list_plants (household_id : uuid) (include_removed : bool) :
    result (Message * promise) :=
  Ok (MQuery (ListPlantsQuery (Uuid household_id) include_removed), PCollection CPlant).

Definition route_get_plant (plant_id : uuid) : result (Message * promise) :=
  Ok (MQuery (GetPlantQuery (Uuid plant_id)), PView CPlant).

Definition route_move_plant (plant_id : uuid) (payload : PlantUpdate) :
    result (Message * promise) :=
  location ← Location_validate (pu_location payload);
  Ok (MCommand (MovePlant (Uuid plant_id) location), PView CPlant).

Definition route_remove_plant (plant_id : uuid) : result (Message * promise) :=
  Ok (MCommand (RemovePlant (Uuid plant_id)), PView CPlant).

Definition route_get_today_care (household_id : uuid) : result (Message * promise) :=
  Ok (MQuery (GetTodayCareQuery (Uuid household_id)), PCollection CCareSchedule).

Definition route_water_plant (plant_id : uuid) (payload : option WateringRequest) :
    result (Message * promise) :=
  Ok (MCommand (WaterPlant (Uuid plant_id) (payload_version payload)), PView CCareSchedule).

Definition route_skip_watering (plant_id : uuid) (payload : option WateringRequest) :
    result (Message * promise) :=
  Ok (MCommand (SkipWatering (Uuid plant_id) (payload_version payload)), PView CCareSchedule).

Definition route_add_sensor (payload : SensorCreate) (key : option string) :
    result (Message * promise) :=
  Ok (MCommand (fingerprinted (AddSensor (Uuid (sc_plant_id payload))
    (Uuid <$> sc_sensor_id payload) key)), PView CSensor).

Definition route_list_sensors (plant_id : uuid) : result (Message * promise) :=
  Ok (MQuery (ListSensorsQuery (Uuid plant_id)), PCollection CSensor).

Definition route_remove_sensor (sensor_id : uuid) : result (Message * promise) :=
  Ok (MCommand (RemoveSensor (Uuid sensor_id)), PView CSensor).

Definition route_list_species : result (Message * promise) :=
  Ok (MQuery ListSpeciesQuery, PCollection CSpecies).

Definition route_get_species (species_id : uuid) : result (Message * promise) :=
  Ok (MQuery (GetSpeciesQuery (Uuid species_id)), PView CSpecies).

Definition route_request_sync : result (Message * promise) :=
  Ok (MCommand RequestSpeciesSync, PView CSyncRequested).

Definition route_get_journal (plant_id : uuid) : result (Message * promise) :=
  Ok (MQuery (GetJournalTimelineQuery (Uuid plant_id)), PCollection CJournalEntry).

Definition route_get_journal_at_date (plant_id : uuid) (date : Z) : result (Message * promise) :=
  Ok (MQuery (GetJournalAtDateQuery (Uuid plant_id) date), PState).

Definition route_acknowledge (notification_id : uuid) : result (Message * promise) :=
  Ok (MCommand (AcknowledgeNotification (Uuid notification_id)), PView CNotification).

(** The router of the API. *)
Definition route (r : RestRequest) : result (Message * promise) :=
  match r with
  | PostHouseholds payload key => route_create_household payload key
  | GetHouseholdById household_id => route_get_household household_id
  | PostPlants payload key => route_add_plant payload key
  | GetPlants household_id removed => route_list_plants household_id removed
  | GetPlantById plant_id => route_get_plant plant_id
  | PatchPlant plant_id payload => route_move_plant plant_id payload
  | DeletePlant plant_id => route_remove_plant plant_id
  | GetCareToday household_id => route_get_today_care household_id
  | PostWater plant_id payload => route_water_plant plant_id payload
  | PostSkip plant_id payload => route_skip_watering plant_id payload
  | PostSensors payload key => route_add_sensor payload key
  | GetSensors plant_id => route_list_sensors plant_id
  | DeleteSensorById sensor_id => route_remove_sensor sensor_id
  | GetSpeciesList => route_list_species
  | GetSpeciesById species_id => route_get_species species_id
  | PostCatalogSync => route_request_sync
  | GetJournal plant_id => route_get_journal plant_id
  | GetJournalAt plant_id date => route_get_journal_at_date plant_id date
  | PostAck notification_id => route_acknowledge notification_id
  end.

(** ** The mediator over one request's scope *)

(** What the handlers of a process share. *)
Record Server := mkServer {
  sv_db : Database;
  sv_read : ReadDatabase;
  sv_cache : VK }.

(** What one call takes from outside: its headers, the identifier a new conversation would
    get, the clock and identifiers of its handler, how its calls to the cache end, and what
    the connection makes of its commit. *)
Record Call := mkCall {
  ca_headers : edge_headers;
  ca_conversation : uuid;
  ca_env : Env;
  ca_cache_read : bool;
  ca_cache_drop : valkey_call;
  ca_cache_fill : valkey_call;
  ca_commit : commit_fate }.

(** The handler of a query: its answer, and the rows and the cache after it.  The read
    models are given to it as values, for its ORM statements only select. *)
Definition query_answer (q : Query) (ctx : option MessageContext) (c : Call) (srv : Server) :
    result HandlerAnswer * Database * VK :=
  let now := env_now (ca_env c) in
  let on_db {A} (answer : A → HandlerAnswer) (m : tx A) :=
    let out := run_bound ctx m (sv_db srv) in (answer <$> out.1, out.2, sv_cache srv) in
  let on_read (r : result HandlerAnswer) := (r, sv_db srv, sv_cache srv) in
  match q with
  | GetHouseholdQuery h => on_db AView (GetHousehold_handle h)
  | GetPlantQuery p => on_db AView (GetPlant_handle p)
  | ListPlantsQuery h removed =>
      on_read (ACollection CPlant <$> ListPlants_handle (sv_read srv) h removed)
  | GetTodayCareQuery h =>
      on_read (Ok (ACollection CCareSchedule (GetTodayCare_handle (sv_read srv) now h)))
  | ListSensorsQuery p => on_db (ACollection CSensor) (ListSensors_handle p)
  | ListSpeciesQuery => on_read (ACollection CSpecies <$> ListSpecies_handle name_le (sv_read srv))
  | GetSpeciesQuery s =>
      let '(r, d, vk) := GetSpecies_handle ttl_seconds now (sv_db srv) s (ca_cache_read c)
        (ca_cache_drop c) (ca_cache_fill c) (sv_cache srv) in
      (AView <$> r, d, vk)
  | GetJournalTimelineQuery p =>
      on_read (ACollection CJournalEntry <$> GetJournalTimeline_handle (sv_read srv) p)
  | GetJournalAtDateQuery p date => on_db AState (GetJournalAtDate_handle p date)
  end.

(** [mediator.send]. *)
Definition send (ctx : option MessageContext) (m : Message) (c : Call) (srv : Server) :
    result HandlerAnswer * Server :=
  match m with
  | MCommand command =>
      let '(r, d) := run_fated (ca_commit c) ctx (handle command (ca_env c)) (sv_db srv) in
      (AView <$> r, mkServer d (sv_read srv) (sv_cache srv))
  | MQuery q =>
      let '(r, d, vk) := query_answer q ctx c srv in
      (r, mkServer d (sv_read srv) vk)
  end.

(** ** One request *)

(** The handlers around [_problem]; what none of them takes is the framework's 500. *)
Definition problem (e : exn) : Response :=
  match lookup_handler exception_handlers e with
  | Some status => mkResponse status (BProblem e)
  | None => mkResponse 500 BServerError
  end.

(** The rest of a route once its handler has answered. *)
Definition answer_response (r : RestRequest) (expected : promise) (a : HandlerAnswer) :
    result Response :=
  a ← view_of a expected;
  match body_from_answer a with
  | Some b => Ok (mkResponse (success_status r) b)
  | None => Raise AttributeError
  end.

Definition rest_response (r : RestRequest) (expected : promise) (a : result HandlerAnswer) : Response :=
  match a ≫= answer_response r expected with
  | Ok response => response
  | Raise e => problem e
  end.

Definition call_context (raiser : string) (c : Call) : MessageContext :=
  edge_context raiser (ca_headers c) (ca_conversation c) (env_now (ca_env c)).

(** The same call when its commit is acknowledged. *)
Definition acknowledged (c : Call) : Call :=
  mkCall (ca_headers c) (ca_conversation c) (ca_env c) (ca_cache_read c) (ca_cache_drop c)
    (ca_cache_fill c) Acknowledged.

(** A request through the middleware, the router and the exception handlers. *)
Definition rest_handle (r : RestRequest) (c : Call) (srv : Server) : Response * Server :=
  (ProvenanceMiddleware (Some (call_context API_RAISER c))
    (λ ctx,
      if negb (request_valid r) then (mkResponse 422 BInvalidRequest, srv)
      else match route r with
      | Raise e => (problem e, srv)
      | Ok (m, expected) =>
          let '(a, srv) := send ctx m c srv in (rest_response r expected a, srv)
      end) None).1.

(** ** What the answers are *)

Definition schema_class (i : Schema) : view_class :=
  match i with
  | HouseholdResponse _ _ _ => CHousehold
  | PlantResponse _ _ _ _ _ _ _ _ => CPlant
  | CareScheduleResponse _ _ _ _ => CCareSchedule
  | SensorResponse _ _ _ _ => CSensor
  | SpeciesResponse _ _ _ _ _ _ => CSpecies
  | NotificationResponse _ _ _ _ _ _ => CNotification
  | JournalEntryResponse _ _ _ _ _ => CJournalEntry
  | SyncRequestedResponse _ => CSyncRequested
  end.

(** A body of the response model the route declares. *)
Definition body_fits (p : promise) (b : Body) : Prop :=
  match p, b with
  | PView cls, BItem i => schema_class i = cls
  | PCollection cls, BCollection items => Forall (λ i, schema_class i = cls) items
  | PState, BJournalState _ _ _ _ entries => Forall (λ i, schema_class i = CJournalEntry) entries
  | _, _ => False
  end.

(** A number of whole seconds that says a duration: what it leaves out is less than one. *)
Definition says_seconds (t : timedelta) (n : Z) : Prop :=
  (0 ≤ t * n ∧ Z.abs (seconds n) ≤ Z.abs t < Z.abs (seconds n) + seconds 1)%Z.

(** A schema shows a view, field by field. *)
Definition shows (v : View) (i : Schema) : Prop :=
  match v, i with
  | HouseholdView i n c, HouseholdResponse household_id name plant_count =>
      household_id = uuid_value i ∧ name = n ∧ plant_count = c
  | PlantView p h s n l a w r, PlantResponse plant_id household_id species_id name location
      added_at last_watered_at removed =>
      plant_id = uuid_value p ∧ household_id = uuid_value h ∧ species_id = uuid_value s ∧
      name = n ∧ location = l ∧ added_at = a ∧ last_watered_at = w ∧ removed = r
  | CareScheduleView p i n v, CareScheduleResponse plant_id interval next_watering_at version =>
      plant_id = uuid_value p ∧ says_seconds i interval ∧ next_watering_at = n ∧ version = v
  | SensorView i p a l, SensorResponse sensor_id plant_id added_at last_seen_at =>
      sensor_id = uuid_value i ∧ plant_id = uuid_value p ∧ added_at = a ∧ last_seen_at = l
  | SpeciesView i s c w l v, SpeciesResponse species_id scientific_name common_name interval
      light_requirement version =>
      species_id = uuid_value i ∧ scientific_name = s ∧ common_name = c ∧ says_seconds w interval ∧
      light_requirement = l ∧ version = v
  | NotificationView i h t p c r, NotificationResponse notification_id household_id
      notification_type payload created_at read_at =>
      notification_id = uuid_value i ∧ household_id = uuid_value h ∧ notification_type = t ∧
      payload = p ∧ created_at = c ∧ read_at = r
  | JournalEntryView i p t a n, JournalEntryResponse entry_id plant_id entry_type at_ note =>
      entry_id = uuid_value i ∧ plant_id = uuid_value p ∧ entry_type = t ∧ at_ = a ∧ note = n
  | SyncRequestedView r, SyncRequestedResponse requested => requested = r
  | _, _ => False
  end.

(** A body shows what a handler answered: the view, all the views in their order, or the
    journal with its entries. *)
Definition body_shows (a : HandlerAnswer) (b : Body) : Prop :=
  match a, b with
  | AView v, BItem i => shows v i
  | ACollection _ vs, BCollection items => Forall2 shows vs items
  | AState st, BJournalState plant_id as_of entry_count counts entries =>
      plant_id = uuid_value (jv_plant_id st) ∧ as_of = jv_as_of st ∧
      entry_count = jv_entry_count st ∧ counts = jv_counts_by_type st ∧
      Forall2 shows (jv_entries st) entries
  | _, _ => False
  end.

(** A view the routes have a schema for. *)
Definition has_class (cls : view_class) (v : View) : Prop := view_class_of v = cls ∧ cls ≠ CNone.

Definition answer_ok (a : HandlerAnswer) : Prop :=
  match a with
  | AView v => view_class_of v ≠ CNone
  | ACollection cls vs => Forall (has_class cls) vs
  | AState st => Forall (has_class CJournalEntry) (jv_entries st)
  end.

(** ** Lemmas *)

Lemma whole_seconds_says t : says_seconds t (whole_seconds t).
Proof.
  unfold says_seconds, whole_seconds. assert (0 < seconds 1)%Z as Hs by (vm_compute; done).
  assert (∀ n, seconds n = n * seconds 1)%Z as Hn by (intros n; unfold seconds; lia).
  rewrite (Hn (Z.quot t (seconds 1))). generalize dependent (seconds 1). intros k Hk _.
  pose proof (Z.quot_rem' t k) as Hq.
  assert (Hr : (0 ≤ t ∧ 0 ≤ Z.rem t k < k ∨ t < 0 ∧ - k < Z.rem t k ≤ 0)%Z).
  { destruct (Z_le_gt_dec 0 t) as [Ht|Ht]; [left|right]; (split; [lia|]).
    - by apply Z.rem_bound_pos.
    - apply Z.rem_bound_pos_neg; lia. }
  generalize dependent (Z.rem t k). generalize (Z.quot t k). intros q r Hq [[Ht Hr]|[Ht Hr]].
  - assert (0 ≤ q)%Z by nia. assert (0 ≤ q * k)%Z by nia.
    rewrite (Z.abs_eq t), (Z.abs_eq (q * k)) by done. split; nia.
  - assert (q ≤ 0)%Z by nia. assert (q * k ≤ 0)%Z by nia.
    rewrite (Z.abs_neq t), (Z.abs_neq (q * k)) by lia. split; nia.
Qed.

Lemma item_from_view_class cls v : has_class cls v →
  ∃ i, item_from_view cls v = Some i ∧ schema_class i = cls ∧ shows v i.
Proof.
  intros [<- Hn]. destruct v; try done; eexists; (split; [reflexivity|]); (split; [reflexivity|]);
    cbn; try split_and!; try done; apply whole_seconds_says.
Qed.

Lemma mapM_has_class cls vs : Forall (has_class cls) vs →
  ∃ items, mapM (item_from_view cls) vs = Some items ∧
    Forall (λ i, schema_class i = cls) items ∧ Forall2 shows vs items.
Proof.
  induction 1 as [|v vs Hv _ (items & E & Hi & Hs)]; [by exists []|].
  destruct (item_from_view_class _ _ Hv) as (i & Ei & Hc & Hi'). exists (i :: items).
  cbn. rewrite Ei. cbn. rewrite E. cbn. split_and!; [done|by constructor|by constructor].
Qed.

Lemma body_from_answer_ok a : answer_ok a →
  ∃ b, body_from_answer a = Some b ∧ body_fits (answer_class a) b ∧ body_shows a b.
Proof.
  destruct a as [v|cls vs|st]; cbn [answer_ok body_from_answer answer_class].
  - intros Hv. destruct (item_from_view_class (view_class_of v) v) as (i & E & Hc & Hi); [done|].
    rewrite E. eexists. split; [reflexivity|done].
  - intros (items & E & Hc & Hs)%mapM_has_class. rewrite E. eexists. split; [reflexivity|done].
  - intros (items & E & Hc & Hs)%mapM_has_class. cbn [item_from_view] in E. rewrite E.
    eexists. split; [reflexivity|]. split; [exact Hc|]. cbn. by split_and!.
Qed.

Lemma fmap_Ok_inv {A B} (f : A → B) (r : result A) b : f <$> r = Ok b → ∃ a, r = Ok a ∧ b = f a.
Proof. destruct r; [|done]. intros [= <-]. eauto. Qed.

Lemma has_class_fmap {A} (f : A → View) cls (l : list A) :
  (∀ a, has_class cls (f a)) → Forall (has_class cls) (f <$> l).
Proof. intros Hf. by apply Forall_fmap, Forall_true. Qed.

Ltac open_route := cbv beta iota delta [route route_create_household route_get_household route_add_plant route_list_plants
  route_get_plant route_move_plant route_remove_plant route_get_today_care
  route_water_plant route_skip_watering route_add_sensor route_list_sensors
  route_remove_sensor route_list_species route_get_species route_request_sync
  route_get_journal route_get_journal_at_date route_acknowledge fingerprinted].

(** What each command route sends promises what the route expects. *)
Lemma route_promise r command expected :
  route r = Ok (MCommand command, expected) →
  ∃ cls, command_promise command = Some cls ∧ expected = PView cls.
Proof.
  destruct r; open_route; try discriminate;
    first [ destruct (Location_validate _) as [location|]; [|done]; cbn; intros [= <- <-]
          | intros [= <- <-] ]; eexists; split; reflexivity.
Qed.

Lemma run_bound_db {A} ctx (m : tx A) d :
  Staging domain_write m → (run_bound ctx m d).2 = d.
Proof.
  intros Hm. unfold run_bound. pose proof (staging (P := domain_write) (m := m) (open_session d ctx id)) as [Hb _ _ _ _].
  by destruct (m (open_session d ctx id)).
Qed.

Lemma run_bound_promise {A} (P : A → Prop) ctx (m : tx A) d a :
  Promises P m → (run_bound ctx m d).1 = Ok a → P a.
Proof.
  intros Hm. unfold run_bound. specialize (Hm (open_session d ctx id)).
  destruct (m (open_session d ctx id)) as [r s]. cbn. intros ->. by eapply Hm.
Qed.

Lemma GetSpecies_class `{!ViewJsonClass json} c now d s vk v d' vk' :
  GetSpecies_handle ttl_seconds now d s (ca_cache_read c) (ca_cache_drop c) (ca_cache_fill c) vk =
    (Ok v, d', vk') → view_class_of v = CSpecies.
Proof.
  unfold GetSpecies_handle, cache_get. rewrite species_query_rows.
  assert (∀ w, species_answer d s = Ok w → view_class_of w = CSpecies) as Hrow.
  { intros w. apply (run_bound_promise (λ v, view_class_of v = CSpecies)). unfold species_query. stage. }
  destruct (ca_cache_read c); cbn [negb].
  - destruct (vk_get vk now (cache_key s)) as [raw|].
    + destruct (model_validate_json raw) as [w|] eqn:E; [intros [= <- _ _]; by eapply validated_class|].
      destruct (species_answer d s); [|done]. intros [= <- _ _]. by apply Hrow.
    + destruct (species_answer d s); [|done]. intros [= <- _ _]. by apply Hrow.
  - destruct (species_answer d s); [|done]. intros [= <- _ _]. by apply Hrow.
Qed.

Lemma GetSpecies_rows now d s read drop fill vk :
  (GetSpecies_handle ttl_seconds now d s read drop fill vk).1.2 = d.
Proof.
  unfold GetSpecies_handle. destruct (cache_get _ _ _ _ _) as [[v|] vk']; [done|].
  rewrite species_query_rows. by destruct (species_answer d s).
Qed.

Lemma query_promise `{!ViewJsonClass json} r q expected ctx c srv a :
  route r = Ok (MQuery q, expected) → (query_answer q ctx c srv).1.1 = Ok a →
  answer_class a = expected ∧ answer_ok a.
Proof.
  destruct r; open_route; try discriminate;
    try (destruct (Location_validate _); discriminate);
    intros [= <- <-]; cbn [query_answer fst].
  - intros (v & Hv & ->)%fmap_Ok_inv.
    apply (run_bound_promise (λ v, view_class_of v = CHousehold)) in Hv; [|stage].
    cbn. by rewrite Hv.
  - intros (vs & Hv & ->)%fmap_Ok_inv. split; [done|].
    unfold ListPlants_handle in Hv. destruct (list_plants _ _ _); [|done].
    injection Hv as <-. by apply has_class_fmap.
  - intros (v & Hv & ->)%fmap_Ok_inv.
    apply (run_bound_promise (λ v, view_class_of v = CPlant)) in Hv; [|stage].
    cbn. by rewrite Hv.
  - intros [= <-]. split; [done|]. by apply has_class_fmap.
  - intros (vs & Hv & ->)%fmap_Ok_inv. split; [done|].
    eapply (run_bound_promise (Forall (has_class CSensor))); [|exact Hv].
    apply promises_bind. intros l. by apply promises_ret, has_class_fmap.
  - intros (vs & Hv & ->)%fmap_Ok_inv. split; [done|].
    unfold ListSpecies_handle in Hv. destruct (list_species _ _); [|done].
    injection Hv as <-. by apply has_class_fmap.
  - destruct (GetSpecies_handle _ _ _ _ _ _ _ _) as [[res d] vk] eqn:E. cbn [fst].
    intros (v & -> & ->)%fmap_Ok_inv. apply GetSpecies_class in E. cbn. by rewrite E.
  - intros (vs & Hv & ->)%fmap_Ok_inv. split; [done|].
    unfold GetJournalTimeline_handle in Hv. destruct (negb _); [done|].
    destruct (list_journal_entries _ _); [|done].
    injection Hv as <-. by apply has_class_fmap.
  - intros (st & Hv & ->)%fmap_Ok_inv. split; [done|].
    eapply (run_bound_promise (λ st, Forall (has_class CJournalEntry) (jv_entries st))); [|exact Hv].
    apply promises_bind. intros _. apply promises_bind. intros agg. apply promises_ret.
    by apply has_class_fmap.
Qed.

(** The handlers of the queries write nothing, whatever their provenance. *)
Lemma query_keeps_db q ctx c srv : (query_answer q ctx c srv).1.2 = sv_db srv.
Proof.
  destruct q; cbn [query_answer fst snd]; try done;
    try (apply run_bound_db; stage).
  pose proof (GetSpecies_rows (env_now (ca_env c)) (sv_db srv) species_id (ca_cache_read c)
    (ca_cache_drop c) (ca_cache_fill c) (sv_cache srv)) as Hd.
  by destruct (GetSpecies_handle _ _ _ _ _ _ _ _) as [[res d] vk].
Qed.

Lemma send_query_db q ctx c srv : sv_db (send ctx (MQuery q) c srv).2 = sv_db srv.
Proof.
  pose proof (query_keeps_db q ctx c srv) as Hd. cbn [send].
  by destruct (query_answer q ctx c srv) as [[r d] vk].
Qed.

(** *** One request *)

Lemma problem_status e : rs_status (problem e) = http_status e.
Proof. unfold problem, http_status. by destruct (lookup_handler _ e). Qed.

Lemma http_status_cases e : http_status e ∈ [404; 409; 422; 500]%Z.
Proof. apply (bool_decide_unpack _). by destruct e. Qed.

(** A failure's status is never the status of a success. *)
Lemma problem_is_failure r e : rs_status (problem e) ≠ success_status r.
Proof.
  rewrite problem_status. pose proof (http_status_cases e) as He.
  rewrite !elem_of_cons, elem_of_nil in He. destruct r; cbn; lia.
Qed.

(** What a handler answered, with the promise the route relies on. *)
Lemma send_promise `{!ViewJsonClass json} r m expected ctx c srv a srv' :
  route r = Ok (m, expected) → send ctx m c srv = (Ok a, srv') →
  answer_class a = expected ∧ answer_ok a.
Proof.
  intros Hr Hs. destruct m as [command|q]; cbn [send] in Hs.
  - destruct (route_promise _ _ _ Hr) as (cls & Hc & ->).
    destruct (run_fated (ca_commit c) ctx (handle command (ca_env c)) (sv_db srv)) as [[v|x] d] eqn:E;
      [|done].
    injection Hs as <- _.
    destruct (run_fated_cases (ca_commit c) ctx (handle command (ca_env c)) (sv_db srv))
      as [Ef|[(x & _ & Ef)|(x & _ & Ef)]]; rewrite E in Ef; [|done..].
    unfold run_bound in Ef.
    destruct (handle command (ca_env c) (open_session (sv_db srv) ctx id)) as [res s] eqn:Eh.
    injection Ef as <- _. pose proof (handle_promises _ _ _ _ _ _ Hc Eh) as Hcls. cbn.
    rewrite Hcls. split; [done|]. intros ->. by destruct command.
  - destruct (query_answer q ctx c srv) as [[res d] vk] eqn:E. injection Hs as -> _.
    eapply query_promise; [exact Hr|]. by rewrite E.
Qed.

Lemma answer_fits `{!ViewJsonClass json} r m expected ctx c srv a srv' :
  route r = Ok (m, expected) → send ctx m c srv = (Ok a, srv') →
  ∃ b, rest_response r expected (Ok a) = mkResponse (success_status r) b ∧ body_fits expected b ∧
    body_shows a b.
Proof.
  intros Hr Hs. destruct (send_promise _ _ _ _ _ _ _ _ Hr Hs) as [Hc Hok].
  destruct (body_from_answer_ok a Hok) as (b & Eb & Hb). exists b. rewrite Hc in Hb.
  split; [|done]. unfold rest_response, mbind, result_bind, answer_response, view_of.
  rewrite decide_True by done. cbn. by rewrite Eb.
Qed.

Lemma reads_only_query r m expected :
  reads_only r = true → route r = Ok (m, expected) → ∃ q, m = MQuery q.
Proof. destruct r; try discriminate; intros _ Hr; injection Hr as <- _; eauto. Qed.

(** *** The rows after a message

    An answer leaves stamped rows in the outbox and a failure leaves nothing, unless it is a
    commit whose acknowledgement was lost: then the rows are those of the acknowledged one. *)
Lemma send_clean ctx m c srv :
  let '(a, srv') := send (Some ctx) m c srv in
  clean ctx (sv_db srv) (a, sv_db srv') ∨
  (∃ e, ca_commit c = Unacknowledged e ∧ a = Raise e ∧ grows ctx (sv_db srv) (sv_db srv') ∧
     sv_db srv' = sv_db (send (Some ctx) m (acknowledged c) srv).2).
Proof.
  destruct m as [command|q].
  - cbn [send]. pose proof (handle_clean ctx command (ca_env c) (sv_db srv)) as Hc.
    destruct (run_fated_cases (ca_commit c) (Some ctx) (handle command (ca_env c)) (sv_db srv))
      as [Ef|[(x & _ & Ef)|(x & Hx & Ef)]]; rewrite Ef.
    + destruct (run_bound _ _ _) as [[v|x] d]; left; exact Hc.
    + by left.
    + right. exists x. split_and!; [done|done| |].
      * cbn. revert Hc. unfold clean. destruct (run_bound _ _ _) as [[v|y] d]; cbn; [done|].
        intros ->. apply grows_refl.
      * cbn [ca_commit ca_env acknowledged]. rewrite run_acknowledged. by destruct (run_bound _ _ _).
  - pose proof (send_query_db q (Some ctx) c srv) as Hd.
    destruct (send (Some ctx) (MQuery q) c srv) as [[a|x] srv']; cbn in Hd; left;
      unfold clean; cbn; rewrite Hd; [apply grows_refl|done].
Qed.

Lemma clean_grows {A} ctx d (r : result A) d' : clean ctx d (r, d') → grows ctx d d'.
Proof. unfold clean. destruct r; cbn; [done|]. intros ->. apply grows_refl. Qed.

(** Why a request failed: on the way to its handler, or in it. *)
Definition raised (r : RestRequest) (c : Call) (srv : Server) (e : exn) : Prop :=
  route r = Raise e ∨
  ∃ m expected, route r = Ok (m, expected) ∧
    (send (Some (call_context API_RAISER c)) m c srv).1 = Raise e.

(** ** Theorems *)

(** [C12] A REST request is atomic and says so: it answers its route's own success status,
    or 404, 409, 422 or 500; a [GET] leaves every row of the write side as it was; whenever
    it answers anything but success, so does any other request — unless the database made
    its commit and the acknowledgement was lost, when it answers what the lost connection
    raised and the rows are those the acknowledged request would have left, none of them in
    part; and every row a request adds to the outbox names the API as its raiser and carries
    the conversation and trace of the request's headers. *)
Theorem rest_requests_are_atomic `{!ViewJsonClass json} (r : RestRequest) (c : Call)
    (srv : Server) :
  let '(response, srv') := rest_handle r c srv in
  rs_status response ∈ [success_status r; 404; 409; 422; 500]%Z ∧
  (reads_only r = true → sv_db srv' = sv_db srv) ∧
  (rs_status response ≠ success_status r →
     sv_db srv' = sv_db srv ∨
     ∃ e, ca_commit c = Unacknowledged e ∧ response = problem e ∧
       sv_db srv' = sv_db (rest_handle r (acknowledged c) srv).2) ∧
  grows (call_context API_RAISER c) (sv_db srv) (sv_db srv').
Proof.
  unfold rest_handle, ProvenanceMiddleware. cbn [fst].
  assert (∀ e, rs_status (problem e) ∈ [success_status r; 404; 409; 422; 500]%Z) as Hp.
  { intros e. rewrite problem_status. right. apply http_status_cases. }
  destruct (request_valid r); cbn [negb].
  2: { split_and!; [|done|by left|apply grows_refl]. cbn. set_solver. }
  destruct (route r) as [[m expected]|e] eqn:Hr;
    [|split_and!; [apply Hp|done|by left|apply grows_refl]].
  change (call_context API_RAISER (acknowledged c)) with (call_context API_RAISER c).
  set (ctx := call_context API_RAISER c).
  pose proof (send_clean ctx m c srv) as Hclean.
  pose proof (λ q, send_query_db q (Some ctx) c srv) as Hq.
  destruct (send (Some ctx) m c srv) as [a srv'] eqn:Es. cbn [fst snd] in *.
  assert (∀ answer, a = Ok answer → rs_status (rest_response r expected a) = success_status r) as Hok.
  { intros answer ->. destruct (answer_fits _ _ _ _ _ _ _ _ Hr Es) as (b & Hb & _). by rewrite Hb. }
  split_and!.
  - destruct a as [a|e]; [rewrite (Hok a eq_refl); left|apply Hp].
  - intros Hget. destruct (reads_only_query _ _ _ Hget Hr) as [q ->]. specialize (Hq q).
    by rewrite Es in Hq.
  - intros Hfail. destruct a as [a|e]; [destruct Hfail; by eapply Hok|].
    destruct Hclean as [Hclean|(e' & Hc & [= <-] & _ & Hsame)]; [by left|right].
    exists e. split_and!; [done|done|]. destruct (send (Some ctx) m (acknowledged c) srv). exact Hsame.
  - destruct Hclean as [Hclean|(e' & _ & _ & Hg & _)]; [by eapply clean_grows|done].
Qed.

(** [C14] What a REST answer says is what its handler answered: an answer of success carries
    a body of the response model its route declares, which shows field by field what the
    handler of the message its route sent answered — the view, every view of a collection in
    order, or the journal with its counts and entries, durations as the whole seconds in
    them; an error body
    carries the exception that a value object or the handler raised, under the status of
    the table; a 422 of the framework is a body outside its bounds; and a 500 is always an
    exception of the handler that no table names, never a handler that broke its promise. *)
Theorem rest_answers_have_their_schema `{!ViewJsonClass json} (r : RestRequest) (c : Call)
    (srv : Server) :
  let response := (rest_handle r c srv).1 in
  match rs_body response with
  | BInvalidRequest => request_valid r = false ∧ rs_status response = 422%Z
  | BProblem e =>
      raised r c srv e ∧ rs_status response = http_status e ∧ rs_status response ≠ 500%Z
  | BServerError => rs_status response = 500%Z ∧ ∃ e, raised r c srv e ∧ http_status e = 500%Z
  | b => rs_status response = success_status r ∧
      ∃ m expected a, route r = Ok (m, expected) ∧
        (send (Some (call_context API_RAISER c)) m c srv).1 = Ok a ∧
        body_fits expected b ∧ body_shows a b
  end.
Proof.
  unfold rest_handle, ProvenanceMiddleware. cbn [fst].
  assert (∀ e, raised r c srv e → match rs_body (problem e) with
    | BProblem e' => raised r c srv e' ∧ rs_status (problem e) = http_status e' ∧
        rs_status (problem e) ≠ 500%Z
    | BServerError => rs_status (problem e) = 500%Z ∧ ∃ e', raised r c srv e' ∧ http_status e' = 500%Z
    | _ => False
    end) as Hp.
  { intros e He. destruct e; cbn; (split_and!; [exact He || reflexivity|reflexivity|done])
      || (split; [reflexivity|by eexists]). }
  destruct (request_valid r) eqn:Hv; cbn [negb]; [|done].
  destruct (route r) as [[m expected]|e] eqn:Hr.
  2: { specialize (Hp e (or_introl Hr)). cbv zeta. cbn [fst]. by destruct (rs_body (problem e)). }
  destruct (send (Some (call_context API_RAISER c)) m c srv) as [[a|e] srv'] eqn:Es; cbn [fst].
  - destruct (answer_fits _ _ _ _ _ _ _ _ Hr Es) as (b & -> & Hb & Hshow). cbv zeta. cbn [rs_status rs_body].
    destruct expected, b; try done; (split; [done|]); do 3 eexists; (split; [done|]);
      (split; [by rewrite Es|]); by split.
  - assert (raised r c srv e) as Hraised.
    { right. exists m, expected. by rewrite Es. }
    change (rest_response r expected (Raise e)) with (problem e).
    specialize (Hp e Hraised). cbv zeta. by destruct (rs_body (problem e)).
Qed.

End Server.

(** ** Concrete inputs *)

#[export] Instance plain_json_class : ViewJsonClass plain_json.
Proof.
  intros raw v. cbn. destruct (decode _) as [[[[[[i s] c] w] l] n]|]; [|done].
  destruct (LightRequirement_parse l); [|done]. by intros [= <-].
Qed.

Definition any_order : relation string := λ _ _, True.
#[export] Instance any_order_dec s t : Decision (any_order s t).
Proof. unfold any_order. apply _. Defined.

Definition demo_server : Server (valkey := memory_valkey) :=
  mkServer (valkey := memory_valkey) demo_database watered_read (@vk_empty memory_valkey).

(** A client that joins conversation 7 at [hours k]. *)
Definition demo_call (k : Z) : Call :=
  mkCall (mkEdgeHeaders (Some (uuid_str 7)) None) 900 (demo_env k) true CallAnswered CallAnswered Acknowledged.

Abbreviation demo_rest := (rest_handle (valkey := memory_valkey) (json := plain_json) any_order
  (λ _, "hash"%string) 60%Z) (only parsing).

Definition watered_server : Server (valkey := memory_valkey) :=
  (demo_rest (PostWater 10 None) (demo_call 30) demo_server).2.

(** The watering of a call whose acknowledgement is lost. *)
Definition demo_lost (k : Z) : Call :=
  mkCall (mkEdgeHeaders (Some (uuid_str 7)) None) 900 (demo_env k) true CallAnswered CallAnswered
    (Unacknowledged (OperationError 5)).

(** The first watering answers 500 and is made; the second one answers 409 and changes
    nothing. *)
Lemma rest_requests_are_atomic_witness :
  (rs_status (demo_rest (PostWater 10 None) (demo_lost 30) demo_server).1 = 500%Z ∧
   sv_db (demo_rest (PostWater 10 None) (demo_lost 30) demo_server).2 = sv_db watered_server ∧
   rs_status (demo_rest (PostWater 10 None) (demo_call 30) watered_server).1 = 409%Z) ∧
  sv_db (demo_rest (PostWater 10 None) (demo_call 30) watered_server).2 = sv_db watered_server.
Proof.
  assert (rs_status (demo_rest (PostWater 10 None) (demo_call 30) watered_server).1 = 409%Z) as H409
    by (vm_compute; reflexivity).
  split; [split_and!; [vm_compute; reflexivity|vm_compute; reflexivity|exact H409]|].
  pose proof (rest_requests_are_atomic (valkey := memory_valkey) (json := plain_json) any_order
    (λ _, "hash"%string) 60 (PostWater 10 None) (demo_call 30) watered_server) as H.
  destruct (demo_rest (PostWater 10 None) (demo_call 30) watered_server) as [response srv'].
  destruct H as (_ & _ & H & _). cbn [fst snd] in *.
  destruct H as [H|(e & H & _)]; [rewrite H409; discriminate|exact H|discriminate H].
Defined.

(** A location of blanks passes the framework's bounds and is refused by the value object. *)
Definition blank_location : RestRequest := PostPlants (mkPlantCreate 1 5 "fern" "   ") None.

Lemma rest_answers_have_their_schema_witness :
  request_valid blank_location = true ∧
  rs_body (demo_rest blank_location (demo_call 30) demo_server).1 = BProblem ValidationError ∧
  rs_status (demo_rest blank_location (demo_call 30) demo_server).1 = http_status ValidationError.
Proof.
  assert (rs_body (demo_rest blank_location (demo_call 30) demo_server).1 = BProblem ValidationError)
    as Hb by (vm_compute; reflexivity).
  pose proof (rest_answers_have_their_schema (valkey := memory_valkey) (json := plain_json) any_order
    (λ _, "hash"%string) 60 blank_location (demo_call 30) demo_server) as H.
  cbv zeta in H. rewrite Hb in H. split; [reflexivity|]. split; [exact Hb|apply H].
Defined.
