(* ===== verification/Grpc.v ===== *)
(** The gRPC front end: the messages of [src/proto/plantkeeper/v1], their mapping from views
    ([apps/api/.../grpc/mapping.py]), and the servicers ([grpc/servicers/*.py]), which
    dispatch through the same mediator as the REST routes.

    Protobuf's well-known types and pydantic's reading of an identifier are parameters. *)

From S2P Require Import Prelude Domain Care Garden Catalog Telemetry Journal Notification.
From S2P Require Import Topics Rows Views Database UnitOfWork Repositories Idempotency Commands.
From S2P Require Import Delivery SagaIntents UuidText ReadModels Queries SpeciesCache SagaBase Api Bindings Rest.

(** ** What is not the program's *)

(** [google.protobuf.Timestamp] and [Duration], written from Python's values and read back
    by a client; a duration outside the type's range is refused. *)
Class Protobuf := {
  Timestamp : Type;
  Duration : Type;
  FromDatetime : datetime → Timestamp;
  ToDatetime : Timestamp → datetime;
  FromTimedelta : timedelta → result Duration;
  ToTimedelta : Duration → timedelta }.

(** About ten thousand years, in seconds. *)
Definition DURATION_SECONDS_MAX : Z := 315576000000.

Class ProtobufLaws (pb : Protobuf) : Prop := {
  timestamp_read t : (DATETIME_MIN ≤ t ≤ DATETIME_MAX)%Z → ToDatetime (FromDatetime t) = t;
  duration_written t : (Z.abs t ≤ seconds DURATION_SECONDS_MAX)%Z → ∃ d, FromTimedelta t = Ok d;
  duration_read t d : FromTimedelta t = Ok d → ToTimedelta d = t }.

(** [PlantId.model_validate(text)] and its like: a [RootModel[UUID]] reads what [str] of a
    UUID writes, and refuses with [ValidationError]. *)
Class UuidModel := { model_validate_uuid : string → result uuid }.
Class UuidModelLaws (um : UuidModel) : Prop := {
  validated_text u : (u < 2 ^ 128)%N → model_validate_uuid (uuid_str u) = Ok u;
  refused_text s e : model_validate_uuid s = Raise e → e = ValidationError }.

(** ** Messages *)

Section Grpc.
Context {pb : Protobuf} {um : UuidModel} {valkey : Valkey} {json : ViewJson}.
Context (name_le : relation string) `{∀ s t, Decision (name_le s t)}.
Context (request_fingerprint : Command → string) (ttl_seconds : Z).

Record PlantMessage := mkPlantMessage {
  pg_plant_id : string;
  pg_household_id : string;
  pg_species_id : string;
  pg_name : string;
  pg_location : string;
  pg_added_at : Timestamp;
  pg_last_watered_at : option Timestamp;
  pg_removed : bool }.

Record CareScheduleMessage := mkCareScheduleMessage {
  cg_plant_id : string;
  cg_watering_interval : Duration;
  cg_next_watering_at : Timestamp;
  cg_version : Z }.

(** The identifiers of a message are texts; a message that was left out is an empty one. *)
Inductive RpcRequest :=
  | GetTodayCare (household_id : string)
  | CompleteWatering (plant_id : string) (expected_version : option Z)
  | ListPlants (household_id : string) (include_removed : bool)
  | GetPlant (plant_id : string).

Inductive RpcMessage :=
  | GetTodayCareResponse (items : list CareScheduleMessage)
  | CompleteWateringResponse (schedule : CareScheduleMessage)
  | ListPlantsResponse (items : list PlantMessage)
  | GetPlantResponse (plant : PlantMessage).

(** ** The mapping *)

(** A 64-bit field takes no other integer. *)
Definition int64 (v : Z) : result Z :=
  if bool_decide (- 2 ^ 63 ≤ v < 2 ^ 63)%Z then Ok v else Raise ValueError.

Definition care_schedule_to_proto (v : View) : result CareScheduleMessage :=
  match v with
  | CareScheduleView plant_id interval next_at version =>
      duration ← FromTimedelta interval;
      version ← int64 version;
      Ok (mkCareScheduleMessage (uuid_str (uuid_value plant_id)) duration (FromDatetime next_at)
        version)
  | _ => Raise AttributeError
  end.

Definition plant_to_proto (v : View) : result PlantMessage :=
  match v with
  | PlantView plant_id household_id species_id name location added_at watered removed =>
      Ok (mkPlantMessage (uuid_str (uuid_value plant_id)) (uuid_str (uuid_value household_id))
        (uuid_str (uuid_value species_id)) name location (FromDatetime added_at)
        (FromDatetime <$> watered) removed)
  | _ => Raise AttributeError
  end.

(** ** The servicers *)

(** How an RPC ends: with a message, with a status the servicer translated a failure into,
    or with an exception outside the translation, which the library answers as [UNKNOWN]. *)
Inductive RpcReply :=
  | Reply (m : RpcMessage)
  | Aborted (status : StatusCode) (e : exn)
  | Escaped (e : exn).

Definition reply_status (reply : RpcReply) : StatusCode :=
  match reply with Reply _ => OK | Aborted s _ => s | Escaped _ => UNKNOWN end.

(** The query or command of each RPC, with the view it expects; parsing an identifier may
    raise. *)
Definition rpc_GetTodayCare (household_id : string) : result (Message * promise) :=
  h ← model_validate_uuid household_id;
  Ok (MQuery (GetTodayCareQuery (Uuid h)), PCollection CCareSchedule).

Definition rpc_CompleteWatering (plant_id : string) (expected_version : option Z) :
    result (Message * promise) :=
  p ← model_validate_uuid plant_id;
  Ok (MCommand (WaterPlant (Uuid p) expected_version), PView CCareSchedule).

Definition rpc_ListPlants (household_id : string) (include_removed : bool) :
    result (Message * promise) :=
  h ← model_validate_uuid household_id;
  Ok (MQuery (ListPlantsQuery (Uuid h) include_removed), PCollection CPlant).

Definition rpc_GetPlant (plant_id : string) : result (Message * promise) :=
  p ← model_validate_uuid plant_id;
  Ok (MQuery (GetPlantQuery (Uuid p)), PView CPlant).

Definition rpc_message (r : RpcRequest) : result (Message * promise) :=
  match r with
  | GetTodayCare household_id => rpc_GetTodayCare household_id
  | CompleteWatering plant_id version => rpc_CompleteWatering plant_id version
  | ListPlants household_id removed => rpc_ListPlants household_id removed
  | GetPlant plant_id => rpc_GetPlant plant_id
  end.

(** What follows the scope of an RPC. *)
Definition render (r : RpcRequest) (a : HandlerAnswer) : result RpcMessage :=
  match r, a with
  | GetTodayCare _, ACollection _ items =>
      GetTodayCareResponse <$> mapM_result care_schedule_to_proto items
  | CompleteWatering _ _, AView v => CompleteWateringResponse <$> care_schedule_to_proto v
  | ListPlants _ _, ACollection _ items => ListPlantsResponse <$> mapM_result plant_to_proto items
  | GetPlant _, AView v => GetPlantResponse <$> plant_to_proto v
  | _, _ => Raise AttributeError
  end.

(** [BaseServicer.rpc] around the body of an RPC, and the response after it. *)
Definition grpc_handle (r : RpcRequest) (c : Call) (srv : Server) : RpcReply * Server :=
  let '(a, srv) :=
    match rpc_message r with
    | Raise e => (Raise e, srv)
    | Ok (m, expected) =>
        let '(a, srv) := send name_le ttl_seconds (Some (call_context GRPC_RAISER c)) m c srv in
        (a ≫= (λ a, view_of a expected), srv)
    end in
  match a with
  | Raise e => (Aborted (status_code_for e) e, srv)
  | Ok a =>
      match render r a with
      | Ok m => (Reply m, srv)
      | Raise e => (Escaped e, srv)
      end
  end.

(** ** The same request over HTTP *)

(** The REST request that asks what the RPC asks; [None]: an identifier that HTTP would
    refuse before any route. *)
Definition rest_twin (r : RpcRequest) : option RestRequest :=
  match r with
  | GetTodayCare household_id =>
      match model_validate_uuid household_id with Ok h => Some (GetCareToday h) | Raise _ => None end
  | CompleteWatering plant_id version =>
      match model_validate_uuid plant_id with
      | Ok p => Some (PostWater p (Some (mkWateringRequest version)))
      | Raise _ => None
      end
  | ListPlants household_id removed =>
      match model_validate_uuid household_id with
      | Ok h => Some (GetPlants h removed)
      | Raise _ => None
      end
  | GetPlant plant_id =>
      match model_validate_uuid plant_id with Ok p => Some (GetPlantById p) | Raise _ => None end
  end.

(** What a client reads out of a message, in the terms of the REST bodies. *)
Definition read_schedule (m : CareScheduleMessage) : option Schema :=
  p ← UUID_of (cg_plant_id m);
  Some (CareScheduleResponse p (whole_seconds (ToTimedelta (cg_watering_interval m)))
    (ToDatetime (cg_next_watering_at m)) (cg_version m)).

Definition read_plant (m : PlantMessage) : option Schema :=
  p ← UUID_of (pg_plant_id m);
  h ← UUID_of (pg_household_id m);
  s ← UUID_of (pg_species_id m);
  Some (PlantResponse p h s (pg_name m) (pg_location m) (ToDatetime (pg_added_at m))
    (ToDatetime <$> pg_last_watered_at m) (pg_removed m)).

Definition read_message (m : RpcMessage) : option Body :=
  match m with
  | GetTodayCareResponse items => BCollection <$> mapM read_schedule items
  | CompleteWateringResponse s => BItem <$> read_schedule s
  | ListPlantsResponse items => BCollection <$> mapM read_plant items
  | GetPlantResponse p => BItem <$> read_plant p
  end.

(** The values of a view are within the types that carry them: a UUID has 128 bits, a
    datetime is one of Python's, a version is a 64-bit integer. *)
Definition uuid_fits {k} (i : UuidIdentifier k) : Prop := (uuid_value i < 2 ^ 128)%N.
Definition time_fits (t : datetime) : Prop := (DATETIME_MIN ≤ t ≤ DATETIME_MAX)%Z.

Definition view_fits (v : View) : Prop :=
  match v with
  | CareScheduleView p i n ver =>
      uuid_fits p ∧ (Z.abs i ≤ seconds DURATION_SECONDS_MAX)%Z ∧ time_fits n ∧
      (- 2 ^ 63 ≤ ver < 2 ^ 63)%Z
  | PlantView p h s _ _ a w _ =>
      uuid_fits p ∧ uuid_fits h ∧ uuid_fits s ∧ time_fits a ∧
      match w with Some w => time_fits w | None => True end
  | _ => True
  end.

Definition answer_fits_wire (a : HandlerAnswer) : Prop :=
  match a with
  | AView v => view_fits v
  | ACollection _ vs => Forall view_fits vs
  | AState _ => True
  end.

(** ** Lemmas *)

Tactic Notation "open_rpc" := cbv beta iota delta [rpc_message rpc_GetTodayCare
  rpc_CompleteWatering rpc_ListPlants rpc_GetPlant].
Tactic Notation "open_rpc" "in" hyp(H) := cbv beta iota delta [rpc_message rpc_GetTodayCare
  rpc_CompleteWatering rpc_ListPlants rpc_GetPlant] in H.

Context `{!ProtobufLaws pb, !UuidModelLaws um, !ViewJsonClass json}.

Lemma run_bound_unaware {A} ctx1 ctx2 (m : tx A) d :
  Unaware m → (run_bound ctx1 m d).1 = (run_bound ctx2 m d).1.
Proof.
  intros Hm. unfold run_bound. pose proof (Hm ctx2 (open_session d ctx1 id)) as E.
  change (in_context ctx2 (open_session d ctx1 id)) with (open_session d ctx2 id) in E.
  rewrite E. by destruct (m (open_session d ctx1 id)).
Qed.

Lemma query_answer_alike q ctx1 ctx2 c srv :
  query_answer name_le ttl_seconds q ctx1 c srv = query_answer name_le ttl_seconds q ctx2 c srv.
Proof.
  assert (∀ {A} (m : tx A), Unaware m → Staging domain_write m →
    run_bound ctx1 m (sv_db srv) = run_bound ctx2 m (sv_db srv)) as Hsame.
  { intros A m Hm Hst. apply injective_projections; [by apply run_bound_unaware|].
    by rewrite !run_bound_db. }
  destruct q; cbn [query_answer]; try done; by (rewrite Hsame by stage).
Qed.

Lemma run_fated_alike {A} fate ctx1 ctx2 (m : tx A) d :
  unmoved m →
  (run_fated fate ctx1 m d).1 = (run_fated fate ctx2 m d).1 ∧
  same_rows (run_fated fate ctx1 m d).2 (run_fated fate ctx2 m d).2.
Proof.
  intros Hm. destruct (Hm ctx2 (open_session d ctx1 id)) as (Hr & Hb & Hc).
  change (in_context ctx2 (open_session d ctx1 id)) with (open_session d ctx2 id) in *.
  unfold run_fated. destruct (m (open_session d ctx1 id)) as [r1 s1],
    (m (open_session d ctx2 id)) as [r2 s2]. cbn in *. rewrite Hc.
  destruct (ss_committed s2); [destruct fate|]; by split.
Qed.

(** A message under two bindings. *)
Lemma send_alike m ctx1 ctx2 c srv :
  let '(a1, s1) := send name_le ttl_seconds ctx1 m c srv in
  let '(a2, s2) := send name_le ttl_seconds ctx2 m c srv in
  a1 = a2 ∧ same_rows (sv_db s1) (sv_db s2) ∧ sv_read s1 = sv_read s2 ∧ sv_cache s1 = sv_cache s2.
Proof.
  destruct m as [command|q]; cbn [send].
  - destruct (run_fated_alike (ca_commit c) ctx1 ctx2 (handle command (ca_env c)) (sv_db srv))
      as [Hr Hb]; [apply handle_unmoved|].
    destruct (run_fated (ca_commit c) ctx1 _ _), (run_fated (ca_commit c) ctx2 _ _).
    cbn in *. by rewrite Hr.
  - rewrite (query_answer_alike q ctx1 ctx2).
    destruct (query_answer name_le ttl_seconds q ctx2 c srv) as [[a d] vk]. by split_and!.
Qed.

#[local] Arguments uuid_str : simpl never.
#[local] Arguments UUID_of : simpl never.

Lemma int64_fits v : (- 2 ^ 63 ≤ v < 2 ^ 63)%Z → int64 v = Ok v.
Proof. intros Hv. unfold int64. by rewrite bool_decide_true. Qed.

(** A schedule crosses the wire whole, and reads as the REST body does. *)
Lemma schedule_reads v : has_class CCareSchedule v → view_fits v →
  ∃ m, care_schedule_to_proto v = Ok m ∧ read_schedule m = item_from_view CCareSchedule v.
Proof.
  intros [Hv _] Hf. destruct v as [| |p i n ver| | | | | |]; try done.
  destruct Hf as (Hp & Hi & Hn & Hver). cbn [care_schedule_to_proto].
  destruct (duration_written i Hi) as [d Hd]. rewrite Hd. cbn. rewrite int64_fits by done. cbn.
  eexists. split; [done|]. unfold read_schedule. cbn. rewrite (UUID_of_str _ Hp). cbn.
  by rewrite (duration_read _ _ Hd), (timestamp_read _ Hn).
Qed.

Lemma plant_reads v : has_class CPlant v → view_fits v →
  ∃ m, plant_to_proto v = Ok m ∧ read_plant m = item_from_view CPlant v.
Proof.
  intros [Hv _] Hf. destruct v as [|p h s n l a w r| | | | | | |]; try done.
  destruct Hf as (Hp & Hh & Hs & Ha & Hw). eexists. split; [reflexivity|].
  unfold read_plant. cbn. rewrite (UUID_of_str _ Hp), (UUID_of_str _ Hh), (UUID_of_str _ Hs). cbn.
  rewrite (timestamp_read _ Ha). destruct w as [w|]; cbn; [|done]. by rewrite (timestamp_read _ Hw).
Qed.

Lemma items_read {M} (to_proto : View → result M) (read : M → option Schema) cls vs :
  (∀ v, has_class cls v → view_fits v →
    ∃ m, to_proto v = Ok m ∧ read m = item_from_view cls v) →
  Forall (has_class cls) vs → Forall view_fits vs →
  ∃ ms, mapM_result to_proto vs = Ok ms ∧ mapM read ms = mapM (item_from_view cls) vs.
Proof.
  intros Hone Hc Hf. induction vs as [|v vs IH]; [by exists []|].
  apply Forall_cons in Hc as [Hv Hc]. apply Forall_cons in Hf as [Hfv Hf].
  destruct (Hone v Hv Hfv) as (m & Em & Er), (IH Hc Hf) as (ms & Ems & Ers).
  exists (m :: ms). cbn. rewrite Em. cbn. cbn in Ems. rewrite Ems. cbn. by rewrite Er, Ers.
Qed.

(** What an RPC renders reads as the body of the REST answer. *)
Lemma render_reads r m expected a :
  rpc_message r = Ok (m, expected) → answer_class a = expected → answer_ok a →
  answer_fits_wire a →
  ∃ msg, render r a = Ok msg ∧ read_message msg = body_from_answer a.
Proof.
  intros Hr Hc Hok Hf.
  assert (∀ v cls, a = AView v → expected = PView cls → has_class cls v ∧ view_fits v) as Hview.
  { intros v cls -> ->. cbn in Hc. injection Hc as <-. by split; [split|]. }
  assert (∀ cls vs cls', a = ACollection cls' vs → expected = PCollection cls →
    cls' = cls ∧ Forall (has_class cls) vs ∧ Forall view_fits vs) as Hcoll.
  { intros cls vs cls' -> ->. cbn in Hc. injection Hc as ->. by split_and!. }
  destruct r as [h|p ver|h removed|p]; open_rpc in Hr;
    destruct (model_validate_uuid _) as [u|]; try done; cbn in Hr; injection Hr as <- <-;
    destruct a as [v|cls vs|st]; try discriminate Hc.
  - destruct (Hcoll _ _ _ eq_refl eq_refl) as (-> & Hcl & Hfl).
    destruct (items_read care_schedule_to_proto read_schedule CCareSchedule vs schedule_reads Hcl Hfl)
      as (ms & Ems & Ers).
    exists (GetTodayCareResponse ms). cbn [render read_message body_from_answer]. by rewrite Ems, Ers.
  - destruct (Hview _ _ eq_refl eq_refl) as [Hv Hfv].
    destruct (schedule_reads v Hv Hfv) as (ms & Ems & Ers).
    exists (CompleteWateringResponse ms). cbn [render read_message body_from_answer].
    rewrite Ems, Ers. by destruct Hv as [-> _].
  - destruct (Hcoll _ _ _ eq_refl eq_refl) as (-> & Hcl & Hfl).
    destruct (items_read plant_to_proto read_plant CPlant vs plant_reads Hcl Hfl) as (ms & Ems & Ers).
    exists (ListPlantsResponse ms). cbn [render read_message body_from_answer]. by rewrite Ems, Ers.
  - destruct (Hview _ _ eq_refl eq_refl) as [Hv Hfv].
    destruct (plant_reads v Hv Hfv) as (ms & Ems & Ers).
    exists (GetPlantResponse ms). cbn [render read_message body_from_answer].
    rewrite Ems, Ers. by destruct Hv as [-> _].
Qed.

(** The two requests send the same message. *)
Lemma twin_message r rr : rest_twin r = Some rr →
  ∃ m expected, rpc_message r = Ok (m, expected) ∧
    route request_fingerprint rr = Ok (m, expected) ∧ success_status rr = 200%Z.
Proof.
  destruct r as [h|p ver|h removed|p]; cbn [rest_twin]; open_rpc;
    destruct (model_validate_uuid _) as [u|]; try done; intros [= <-]; by do 2 eexists.
Qed.

(** A watering that expects a version its schedule does not have is refused. *)
Lemma watering_refused ctx p v e d :
  (∀ m, db_care_schedules d !! p = Some m → csm_version m ≠ v) →
  ∃ x, ∀ fate, run_fated fate ctx (handle (WaterPlant (Uuid p) (Some v)) e) d = (Raise x, d).
Proof.
  intros Hv. cbn [handle]. unfold WaterPlantHandler.
  assert (∃ x s, WaterPlant_body (Uuid p) (Some v) e (open_session d ctx id) = (Raise x, s)) as (x & s & E).
  { unfold WaterPlant_body, schedules_get_for_update, schedules_get, plants_get, require.
    unfold mbind, tx_bind, query, tx_lift. cbn.
    destruct (db_care_schedules d !! p) as [m|] eqn:Em; cbn; [|by do 2 eexists].
    destruct (care_schedule_to_domain m) as [sch|] eqn:Es; cbn; [|by do 2 eexists].
    destruct (opt_to_domain plant_to_domain (db_plants d !! p)) as [[plant|]|]; cbn;
      [|by do 2 eexists..].
    destruct (Plant_water plant (env_now e)); cbn; [|by do 2 eexists].
    unfold CareSchedule_complete_watering. rewrite ensure_version_stale; [by do 2 eexists|].
    apply care_schedule_to_domain_Ok in Es as (_ & _ & Hm & _). intros Heq.
    apply (Hv m eq_refl). by rewrite <- Hm. }
  exists x. intros fate. unfold run_fated, transaction, with_uow.
  change (uow_enter (open_session d ctx id)) with (open_session d ctx id).
  rewrite (tx_bind_Raise _ _ _ _ _ E). cbn.
  assert (Staging domain_write (WaterPlant_body (Uuid p) (Some v) e)) as Hst by stage.
  pose proof (staging (P := domain_write) (open_session d ctx id)) as [Hb _ _ _ _].
  rewrite E in Hb. cbn in Hb. by rewrite Hb.
Qed.

(** REST refuses one request that gRPC does not: a watering that expects a version below one. *)
Lemma twin_invalid r rr :
  rest_twin r = Some rr → request_valid rr = false →
  ∃ text p v, r = CompleteWatering text (Some v) ∧ (v < 1)%Z ∧
    rpc_message r = Ok (MCommand (WaterPlant (Uuid p) (Some v)), PView CCareSchedule).
Proof.
  destruct r as [h|text ver|h removed|text]; cbn [rest_twin]; open_rpc;
    destruct (model_validate_uuid _) as [u|]; try done; intros [= <-]; cbn; try done.
  unfold WateringRequest_valid. cbn. destruct ver as [v|]; [|done].
  rewrite bool_decide_eq_false. intros Hv. exists text, u, v. split_and!; [done|lia|done].
Qed.

(** ** Theorems *)

(** [C13] The two protocols are one application: an RPC and the HTTP request that asks the
    same leave the same rows, read models and cache (the attribution of new outbox rows
    apart), their statuses say the same, and a client of either reads the same: the message
    of the reply decodes to the body of the HTTP answer, field by field, and a failure is
    the same exception.  An identifier that is not a UUID is [INVALID_ARGUMENT] and touches
    nothing.  They differ in one request, a watering that expects a version below one: HTTP
    refuses its body with 422 before any route, while the RPC reaches the handler, which
    aborts it and, as no stored schedule has such a version, changes no row either.  Assumed
    of the answer only that its values are within the types that carry them. *)
Theorem protocols_agree (r : RpcRequest) (c : Call) (srv : Server) :
  (∀ m expected a srv', rpc_message r = Ok (m, expected) →
    send name_le ttl_seconds (Some (call_context GRPC_RAISER c)) m c srv = (Ok a, srv') →
    answer_fits_wire a) →
  let '(reply, s1) := grpc_handle r c srv in
  match rest_twin r with
  | None => reply = Aborted INVALID_ARGUMENT ValidationError ∧ s1 = srv
  | Some rr =>
      let '(response, s2) := rest_handle name_le request_fingerprint ttl_seconds rr c srv in
      if request_valid rr then
        same_rows (sv_db s1) (sv_db s2) ∧ sv_read s1 = sv_read s2 ∧ sv_cache s1 = sv_cache s2 ∧
        http_of_grpc (reply_status reply) = rs_status response ∧
        match reply with
        | Reply msg => read_message msg = Some (rs_body response)
        | Aborted _ e => response = problem e
        | Escaped _ => False
        end
      else
        (∃ p v, r = CompleteWatering p (Some v) ∧ (v < 1)%Z) ∧
        response = mkResponse 422 BInvalidRequest ∧ s2 = srv ∧
        ((∀ p m, db_care_schedules (sv_db srv) !! p = Some m → (1 ≤ csm_version m)%Z) →
         s1 = srv ∧ ∃ e, reply = Aborted (status_code_for e) e)
  end.
Proof.
  intros Hfits. unfold grpc_handle. destruct (rest_twin r) as [rr|] eqn:Htwin.
  - destruct (request_valid rr) eqn:Hvalid.
    + destruct (twin_message _ _ Htwin) as (m & expected & Hm & Hroute & Hst).
      rewrite Hm. unfold rest_handle, ProvenanceMiddleware. cbn [fst].
      pose proof (send_alike m (Some (call_context GRPC_RAISER c)) (Some (call_context API_RAISER c)) c srv)
        as Halike.
      specialize (Hfits m expected).
      destruct (send name_le ttl_seconds (Some (call_context GRPC_RAISER c)) m c srv) as [a1 s1] eqn:E1.
      rewrite Hvalid. cbn [negb]. rewrite Hroute.
      destruct (send name_le ttl_seconds (Some (call_context API_RAISER c)) m c srv) as [a2 s2] eqn:E2.
      destruct Halike as (-> & Hdb & Hread & Hcache).
      destruct a2 as [a|e]; cbn [mbind result_bind].
      * destruct (send_promise name_le request_fingerprint ttl_seconds _ _ _ _ _ _ _ _ Hroute E2)
          as [Hc Hok].
        destruct (answer_fits name_le request_fingerprint ttl_seconds _ _ _ _ _ _ _ _ Hroute E2)
          as (b & Hb & _).
        unfold view_of at 1. rewrite decide_True by done.
        destruct (render_reads r m expected a Hm Hc Hok) as (msg & Emsg & Hmsg);
          [by eapply Hfits|]. rewrite Emsg, Hb. split_and!; try done.
        rewrite Hmsg. cbn [rs_body]. unfold rest_response, mbind, result_bind, answer_response, view_of in Hb.
        rewrite decide_True in Hb by done. cbn in Hb.
        destruct (body_from_answer_ok a Hok) as (b' & Eb & _). rewrite Eb in Hb |- *.
        by injection Hb as ->.
      * change (rest_response rr expected (Raise e)) with (problem e).
        split_and!; try done. cbn [reply_status]. rewrite problem_status. apply status_tables_agree.
    + destruct (twin_invalid _ _ Htwin Hvalid) as (text & p & v & Er & Hv & Hm). rewrite Hm.
      unfold rest_handle, ProvenanceMiddleware. rewrite Hvalid. cbn [negb fst].
      assert ((∀ p m, db_care_schedules (sv_db srv) !! p = Some m → (1 ≤ csm_version m)%Z) →
        ∃ e, send name_le ttl_seconds (Some (call_context GRPC_RAISER c))
          (MCommand (WaterPlant (Uuid p) (Some v))) c srv = (Raise e, srv)) as Hrefused.
      { intros Hrows. destruct (watering_refused (Some (call_context GRPC_RAISER c)) p v (ca_env c)
          (sv_db srv)) as (e & He); [intros m Hp; specialize (Hrows p m Hp); lia|].
        exists e. cbn [send]. rewrite He. by destruct srv. }
      destruct (send _ _ _ _ _ _) as [a s1].
      assert (∀ out : RpcReply * Server, (out.2 = s1) →
        (∀ e, a = Raise e → out.1 = Aborted (status_code_for e) e) →
        let '(reply, s1) := out in
        (∃ p v, r = CompleteWatering p (Some v) ∧ (v < 1)%Z) ∧
        mkResponse 422 BInvalidRequest = mkResponse 422 BInvalidRequest ∧ srv = srv ∧
        ((∀ p m, db_care_schedules (sv_db srv) !! p = Some m → (1 ≤ csm_version m)%Z) →
         s1 = srv ∧ ∃ e, reply = Aborted (status_code_for e) e)) as Hgoal.
      { intros [reply s] Hs Hreply. cbn in *. subst s. split_and!; [by exists text, v|done|done|].
        intros (e & [= -> ->])%Hrefused. split; [done|]. exists e. by apply Hreply. }
      destruct a as [a|e]; cbn [mbind result_bind].
      * destruct (view_of a _) as [a'|e']; [destruct (render r a')|]; by apply (Hgoal (_, _)).
      * apply (Hgoal (_, _)); [done|]. by intros ? [= <-].
  - assert (∃ e, rpc_message r = Raise e ∧ e = ValidationError) as (e & -> & ->).
    { destruct r as [h|p ver|h removed|p]; cbn [rest_twin] in *; open_rpc;
        destruct (model_validate_uuid _) as [u|x] eqn:Hu; try done;
        exists x; (split; [done|]); by apply refused_text in Hu. }
    done.
Qed.

End Grpc.

(** ** Concrete inputs *)

Definition plain_protobuf : Protobuf := {|
  Timestamp := Z; Duration := Z;
  FromDatetime t := t; ToDatetime t := t;
  FromTimedelta t :=
    if bool_decide (Z.abs t ≤ seconds DURATION_SECONDS_MAX)%Z then Ok t else Raise ValueError;
  ToTimedelta t := t |}.

#[export] Instance plain_protobuf_laws : ProtobufLaws plain_protobuf.
Proof.
  split; cbn [FromDatetime ToDatetime FromTimedelta ToTimedelta plain_protobuf].
  - done.
  - intros t Ht. exists t. by rewrite bool_decide_true.
  - intros t d. case_bool_decide; [|done]. by intros [= <-].
Qed.

Definition plain_uuid_model : UuidModel := {|
  model_validate_uuid s := match UUID_of s with Some u => Ok u | None => Raise ValidationError end |}.

#[export] Instance plain_uuid_model_laws : UuidModelLaws plain_uuid_model.
Proof.
  split; cbn [model_validate_uuid plain_uuid_model].
  - intros u Hu. by rewrite UUID_of_str.
  - intros s e. destruct (UUID_of s); [done|]. by intros [= <-].
Qed.

Abbreviation demo_rpc := (grpc_handle (pb := plain_protobuf) (um := plain_uuid_model)
  (valkey := memory_valkey) (json := plain_json) any_order 60%Z) (only parsing).

Definition demo_watering : RpcRequest := CompleteWatering (uuid_str 10) None.

(** Watering the same plant of the same rows, over either protocol. *)
Lemma protocols_agree_witness :
  rest_twin (um := plain_uuid_model) demo_watering = Some (PostWater 10 (Some (mkWateringRequest None))) ∧
  reply_status (demo_rpc demo_watering (demo_call 30) demo_server).1 = OK ∧
  same_rows (sv_db (demo_rpc demo_watering (demo_call 30) demo_server).2)
    (sv_db (demo_rest (PostWater 10 (Some (mkWateringRequest None))) (demo_call 30) demo_server).2).
Proof.
  assert (rest_twin (um := plain_uuid_model) demo_watering =
    Some (PostWater 10 (Some (mkWateringRequest None)))) as Htwin by (vm_compute; reflexivity).
  pose proof (protocols_agree (pb := plain_protobuf) (um := plain_uuid_model)
    (valkey := memory_valkey) (json := plain_json) any_order (λ _, "hash"%string) 60
    demo_watering (demo_call 30) demo_server) as H.
  assert ((send (valkey := memory_valkey) (json := plain_json) any_order 60
      (Some (call_context GRPC_RAISER (demo_call 30))) (MCommand (WaterPlant (Uuid 10) None))
      (demo_call 30) demo_server).1 =
    Ok (AView (CareScheduleView (Uuid 10) (days 7) (hours 30 + days 7) 2))) as Hsend
    by (vm_compute; reflexivity).
  split; [exact Htwin|]. split; [vm_compute; reflexivity|].
  rewrite Htwin in H.
  destruct (demo_rpc demo_watering (demo_call 30) demo_server) as [reply s1].
  destruct (demo_rest (PostWater 10 (Some (mkWateringRequest None))) (demo_call 30) demo_server)
    as [response s2].
  apply H.
  intros m expected a srv' Hm Hs.
  assert (rpc_message (um := plain_uuid_model) demo_watering =
    Ok (MCommand (WaterPlant (Uuid 10) None), PView CCareSchedule)) as Hm' by (vm_compute; reflexivity).
  rewrite Hm' in Hm. injection Hm as <- <-. rewrite Hs in Hsend. injection Hsend as ->.
  cbn [answer_fits_wire view_fits]. unfold uuid_fits, time_fits, DATETIME_MIN, DATETIME_MAX.
  split_and!; vm_compute; congruence.
Defined.
