(* ===== verification/Sse.v ===== *)
(** Server-sent events: the framing ([apps/api/.../rest/sse.py]), the frames of a household's
    notification stream and the answer of the request that waits
    ([rest/routers/notifications.py]), against what a client makes of the bytes.

    The client is the reference: the line-by-line interpretation of a
    [text/event-stream] that browsers implement.  Characters are code points up to U+00FF. *)

From S2P Require Import Prelude Lines Domain Notification Rows Views Database SagaIntents UuidText.
From S2P Require Import SpeciesCache NotificationStream Api Rest.
From Stdlib Require Import Ascii.
From stdpp Require Import pretty.

(** ** Framing *)

Definition RETRY_MILLISECONDS : N := 3000.

(** ["\n".join(lines)]. *)
Fixpoint join_lines (lines : list text) : text :=
  match lines with
  | [] => []
  | [line] => line
  | line :: lines => line ++ LF :: join_lines lines
  end.

(** [data.splitlines() or [""]]. *)
Definition data_lines (data : text) : list text :=
  match splitlines data with [] => [[]] | lines => lines end.

Definition sse_event (data : text) (event event_id : option text) : text :=
  join_lines
    (match event_id with Some i => [txt "id: " ++ i] | None => [] end ++
     match event with Some e => [txt "event: " ++ e] | None => [] end ++
     ((λ line, txt "data: " ++ line) <$> data_lines data)) ++ [LF; LF].

Definition sse_comment (t : text) : text := txt ": " ++ t ++ [LF; LF].

Definition sse_retry (milliseconds : N) : text :=
  txt "retry: " ++ txt (pretty milliseconds) ++ [LF; LF].

(** ** The frames of a stream *)

(** [model_dump_json] of a response. *)
Class SchemaJson := { schema_dump_json : Schema → string }.

Section Frames.
Context {sj : SchemaJson}.

(** The frame of one event; a view of another class would be an [AttributeError]. *)
Definition event_frame (e : NotificationStreamEvent) : result text :=
  match e with
  | StreamOpened true => Ok (sse_comment (txt "signal unavailable: answering from storage"))
  | StreamOpened false => Ok (sse_comment (txt "stream open"))
  | StreamKeepAlive => Ok (sse_comment (txt "keep-alive"))
  | NotificationArrival v =>
      match NotificationResponse_from_view v, notification_view_id v with
      | Some response, Some i =>
          Ok (sse_event (txt (schema_dump_json response)) (Some (txt "notification"))
            (Some (txt (uuid_str (uuid_value i)))))
      | _, _ => Raise AttributeError
      end
  end.

(** The loop of [_frames]: [gone] says for each event whether the client was found
    disconnected before its frame. *)
Fixpoint event_frames (events : list NotificationStreamEvent) (gone : list bool) : result (list text) :=
  match events, gone with
  | [], _ | _, true :: _ => Ok []
  | e :: events, gone => frame ← event_frame e; rest ← event_frames events (tail gone); Ok (frame :: rest)
  end.

(** [_frames]: the retry hint, then the events. *)
Definition stream_frames (events : list NotificationStreamEvent) (gone : list bool) : result (list text) :=
  frames ← event_frames events gone; Ok (sse_retry RETRY_MILLISECONDS :: frames).

(** ** The request that waits *)

(** [list_pending]'s answer as a response: 200 with the collection, or 204 without a body. *)
Inductive pending_response :=
  | Pending200 (items : list Schema)
  | Pending204
  | PendingFailed (r : Response).

Definition respond_pending (a : result pending_answer) : pending_response :=
  match a with
  | Ok (Answer items) =>
      match mapM NotificationResponse_from_view items with
      | Some schemas => Pending200 schemas
      | None => PendingFailed (problem AttributeError)
      end
  | Ok NoContent => Pending204
  | Raise e => PendingFailed (problem e)
  end.

End Frames.

(** ** A client *)

(** The complete lines of a stream: each ends with a line feed, a carriage return, or both. *)
Fixpoint client_lines (line : text) (cr : bool) (l : text) : list text :=
  match l with
  | [] => []
  | c :: l =>
      if bool_decide (c = LF) then
        if cr then client_lines line false l else line :: client_lines [] false l
      else if bool_decide (c = CR) then line :: client_lines [] true l
      else client_lines (line ++ [c]) false l
  end.

(** What a client hands to the page. *)
Record sse_message := mkSseMessage { sm_type : text; sm_data : text; sm_last_event_id : text }.

(** The buffers between two messages: the data lines, the event type, the last identifier
    seen and the reconnection time. *)
Record sse_client := mkSseClient {
  sc_data : list text;
  sc_type : text;
  sc_last_event_id : text;
  sc_retry : option text }.

(** What follows the field name: a colon and at most one space are left out. *)
Fixpoint field_of (l : text) : text * text :=
  match l with
  | [] => ([], [])
  | c :: l =>
      if bool_decide (c = ":"%char) then
        ([], match l with sp :: value => if bool_decide (sp = " "%char) then value else l | [] => [] end)
      else let '(name, value) := field_of l in (c :: name, value)
  end.

(** One line.  An empty one hands over a message when data came; a comment has an empty
    field name and is left out, as every unknown field is. *)
Definition client_line (st : sse_client) (line : text) : list sse_message * sse_client :=
  match line with
  | [] =>
      let rest := mkSseClient [] [] (sc_last_event_id st) (sc_retry st) in
      match sc_data st with
      | [] => ([], rest)
      | lines => ([mkSseMessage (match sc_type st with [] => txt "message" | t => t end)
          (join_lines lines) (sc_last_event_id st)], rest)
      end
  | _ =>
      let '(name, value) := field_of line in
      ([], if bool_decide (name = txt "data") then
             mkSseClient (sc_data st ++ [value]) (sc_type st) (sc_last_event_id st) (sc_retry st)
           else if bool_decide (name = txt "event") then
             mkSseClient (sc_data st) value (sc_last_event_id st) (sc_retry st)
           else if bool_decide (name = txt "id") then
             mkSseClient (sc_data st) (sc_type st) value (sc_retry st)
           else if bool_decide (name = txt "retry") then
             mkSseClient (sc_data st) (sc_type st) (sc_last_event_id st) (Some value)
           else st)
  end.

Fixpoint client_feed (st : sse_client) (lines : list text) : list sse_message * sse_client :=
  match lines with
  | [] => ([], st)
  | line :: lines =>
      let '(out, st) := client_line st line in
      let '(rest, st) := client_feed st lines in (out ++ rest, st)
  end.

(** A client that connects with the last identifier it saw. *)
Definition client_receive (last_event_id : text) (stream : text) : list sse_message * sse_client :=
  client_feed (mkSseClient [] [] last_event_id None) (client_lines [] false stream).

(** ** Lemmas *)

Definition plain (l : text) : Prop := Forall (λ c, c ≠ LF ∧ c ≠ CR) l.
#[export] Instance plain_dec l : Decision (plain l).
Proof. unfold plain. apply _. Defined.

Lemma unbroken_plain l : unbroken l → plain l.
Proof.
  intros H. eapply Forall_impl; [exact H|]. intros c Hc.
  split; intros ->; vm_compute in Hc; discriminate.
Qed.

Lemma plain_app l1 l2 : plain l1 → plain l2 → plain (l1 ++ l2).
Proof. intros H1 H2. by apply Forall_app. Qed.

(** *** Splitting and joining *)

Lemma data_lines_unbroken data : Forall unbroken (data_lines data).
Proof.
  pose proof (splitlines_unbroken [] false data (Forall_nil_2 _)) as H.
  unfold data_lines, splitlines. destruct (splitlines_from [] false data) eqn:E; [|done].
  repeat constructor.
Qed.

(** A document on one line is one data line. *)
Lemma data_lines_one data : unbroken data → data_lines data = [data].
Proof.
  intros H. unfold data_lines, splitlines. rewrite splitlines_one by done. by destruct data.
Qed.

Lemma join_lines_terminated lines rest : lines ≠ [] →
  join_lines lines ++ LF :: rest = concat ((λ l, l ++ [LF]) <$> lines) ++ rest.
Proof.
  induction lines as [|l lines IH]; [done|]. intros _. destruct lines as [|l' lines].
  { cbn. by rewrite <- !app_assoc. }
  change (join_lines (l :: l' :: lines)) with (l ++ LF :: join_lines (l' :: lines)).
  rewrite (fmap_cons _ l). cbn [concat]. rewrite <- !app_assoc. cbn [app].
  by rewrite IH.
Qed.

(** *** The client's lines *)

Lemma client_lines_line cur line rest : plain line →
  client_lines cur false (line ++ LF :: rest) = (cur ++ line) :: client_lines [] false rest.
Proof.
  intros Hl. revert cur. induction Hl as [|c l [Hlf Hcr] _ IH]; intros cur; cbn [client_lines app].
  { rewrite bool_decide_true by done. by rewrite app_nil_r. }
  rewrite !bool_decide_false by done. by rewrite IH, <- app_assoc.
Qed.

Lemma client_lines_lines lines rest : Forall plain lines →
  client_lines [] false (concat ((λ l, l ++ [LF]) <$> lines) ++ rest) =
  lines ++ client_lines [] false rest.
Proof.
  induction 1 as [|l lines Hl _ IH]; [done|]. cbn. rewrite <- !app_assoc. cbn.
  rewrite client_lines_line by done. by rewrite IH.
Qed.

(** A frame is its lines and the empty line that ends it. *)
Lemma client_lines_frame lines rest : Forall plain lines → lines ≠ [] →
  client_lines [] false (join_lines lines ++ [LF; LF] ++ rest) =
  lines ++ [] :: client_lines [] false rest.
Proof.
  intros Hl Hne. cbn. rewrite (join_lines_terminated lines (LF :: rest) Hne).
  rewrite client_lines_lines by done. f_equal.
Qed.

Lemma client_feed_app st l1 l2 :
  client_feed st (l1 ++ l2) =
  let '(out1, st) := client_feed st l1 in let '(out2, st) := client_feed st l2 in (out1 ++ out2, st).
Proof.
  revert st. induction l1 as [|l l1 IH]; intros st; cbn.
  { by destruct (client_feed st l2). }
  destruct (client_line st l) as [out st1]. rewrite IH.
  destruct (client_feed st1 l1) as [out1 st2]. destruct (client_feed st2 l2) as [out2 st3].
  by rewrite app_assoc.
Qed.

(** *** What each line does *)

Lemma client_data st line :
  client_line st (txt "data: " ++ line) =
  ([], mkSseClient (sc_data st ++ [line]) (sc_type st) (sc_last_event_id st) (sc_retry st)).
Proof. reflexivity. Qed.

Lemma client_data_lines st lines :
  client_feed st ((λ l, txt "data: " ++ l) <$> lines) =
  ([], mkSseClient (sc_data st ++ lines) (sc_type st) (sc_last_event_id st) (sc_retry st)).
Proof.
  revert st. induction lines as [|l lines IH]; intros st.
  { cbn. rewrite app_nil_r. by destruct st. }
  rewrite fmap_cons. cbn [client_feed]. rewrite client_data, IH. cbn.
  by rewrite <- app_assoc.
Qed.

(** Nothing came in since the last message. *)
Definition idle_client (last_event_id : text) (retry : option text) : sse_client :=
  mkSseClient [] [] last_event_id retry.

(** One message per event frame. *)
Lemma feed_event data ev i last retry rest :
  ev ≠ [] → plain ev → plain i →
  client_feed (idle_client last retry)
    (client_lines [] false (sse_event data (Some ev) (Some i) ++ rest)) =
  let '(out, st) := client_feed (idle_client i retry) (client_lines [] false rest) in
  (mkSseMessage ev (join_lines (data_lines data)) i :: out, st).
Proof.
  intros Hne Hev Hi. unfold sse_event. rewrite <- app_assoc, client_lines_frame.
  - rewrite !client_feed_app. cbn [client_feed app].
    change (client_line (idle_client last retry) (txt "id: " ++ i)) with
      (@nil sse_message, idle_client i retry).
    cbn [client_feed app].
    change (client_line (idle_client i retry) (txt "event: " ++ ev)) with
      (@nil sse_message, mkSseClient [] ev i retry).
    cbn [app]. rewrite client_data_lines. cbn [sc_data sc_type sc_last_event_id sc_retry app client_line].
    destruct (data_lines data) as [|l lines] eqn:E.
    { unfold data_lines in E. by destruct (splitlines data). }
    destruct ev; [done|]. by destruct (client_feed _ _).
  - apply Forall_app; split; [|apply Forall_app; split]; rewrite ?Forall_singleton.
    + by apply plain_app; [apply (bool_decide_unpack _); vm_compute|].
    + by apply plain_app; [apply (bool_decide_unpack _); vm_compute|].
    + apply Forall_fmap. eapply Forall_impl; [apply data_lines_unbroken|].
      intros l Hl. apply plain_app; [apply (bool_decide_unpack _); by vm_compute|].
      by apply unbroken_plain.
  - done.
Qed.

(** A comment says nothing to the page. *)
Lemma feed_comment t last retry rest : plain t →
  client_feed (idle_client last retry) (client_lines [] false (sse_comment t ++ rest)) =
  client_feed (idle_client last retry) (client_lines [] false rest).
Proof.
  intros Ht. assert (sse_comment t ++ rest = join_lines [txt ": " ++ t] ++ [LF; LF] ++ rest) as ->.
  { unfold sse_comment. cbn [join_lines]. by rewrite <- !app_assoc. }
  rewrite client_lines_frame; [|apply Forall_singleton|done].
  - cbn [app client_feed].
    change (client_line (idle_client last retry) (txt ": " ++ t)) with
      (@nil sse_message, idle_client last retry).
    cbn. by destruct (client_feed _ _).
  - by apply plain_app; [apply (bool_decide_unpack _); vm_compute|].
Qed.

Lemma feed_retry last retry rest :
  client_feed (idle_client last retry)
    (client_lines [] false (sse_retry RETRY_MILLISECONDS ++ rest)) =
  client_feed (idle_client last (Some (txt "3000"))) (client_lines [] false rest).
Proof.
  assert (sse_retry RETRY_MILLISECONDS ++ rest =
    join_lines [txt "retry: 3000"] ++ [LF; LF] ++ rest) as -> by done.
  rewrite client_lines_frame; [|apply Forall_singleton|done].
  - cbn [app client_feed].
    change (client_line (idle_client last retry) (txt "retry: 3000")) with
      (@nil sse_message, idle_client last (Some (txt "3000"))).
    cbn. by destruct (client_feed _ _).
  - apply (bool_decide_unpack _). by vm_compute.
Qed.

(** *** A whole connection *)

Section Delivery.
Context {sj : SchemaJson}.

(** The notifications that were framed before the client was found gone. *)
Fixpoint framed (events : list NotificationStreamEvent) (gone : list bool) : list View :=
  match events, gone with
  | [], _ | _, true :: _ => []
  | NotificationArrival v :: events, gone => v :: framed events (tail gone)
  | _ :: events, gone => framed events (tail gone)
  end.

(** What the service yields: notification views whose identifiers are UUIDs. *)
Definition event_ok (e : NotificationStreamEvent) : Prop :=
  match e with
  | NotificationArrival (NotificationView i _ _ _ _ _) => (uuid_value i < 2 ^ 128)%N
  | NotificationArrival _ => False
  | _ => True
  end.

Definition arrival_text (v : View) : text :=
  match notification_view_id v with Some i => txt (uuid_str (uuid_value i)) | None => [] end.

(** The document of a notification as the client has it: one line per line of the text. *)
Definition arrival_data (v : View) : text :=
  match NotificationResponse_from_view v with
  | Some r => txt (schema_dump_json r)
  | None => []
  end.

Definition arrival_message (v : View) : sse_message :=
  mkSseMessage (txt "notification") (join_lines (data_lines (arrival_data v))) (arrival_text v).

(** The header a client reconnects with. *)
Definition last_event_text (since : option NotificationId) : text :=
  match since with Some i => txt (uuid_str (uuid_value i)) | None => [] end.

Lemma uuid_text_plain u : plain (txt (uuid_str u)).
Proof.
  apply Forall_forall. intros c Hc%uuid_str_chars. revert c Hc. apply Forall_forall.
  apply (bool_decide_unpack _). vm_compute. exact I.
Qed.

Lemma cursor_after_cons since v vs i :
  notification_view_id v = Some i → cursor_after since (v :: vs) = cursor_after (Some i) vs.
Proof.
  intros Hi. unfold cursor_after. cbn. rewrite Hi. rewrite last_cons.
  by destruct (last (omap notification_view_id vs)).
Qed.

Lemma feed_events events gone since retry frames :
  Forall event_ok events → event_frames events gone = Ok frames →
  client_feed (idle_client (last_event_text since) retry) (client_lines [] false (concat frames)) =
  (arrival_message <$> framed events gone,
   idle_client (last_event_text (cursor_after since (framed events gone))) retry).
Proof.
  intros Hok. revert gone since frames. induction Hok as [|e events He _ IH]; intros gone since frames.
  { cbn. intros [= <-]. done. }
  destruct (match gone with true :: _ => true | _ => false end) eqn:Hg.
  { destruct gone as [|[] gone]; try done. cbn. intros [= <-]. by destruct e. }
  assert (event_frames (e :: events) gone =
    (frame ← event_frame e; rest ← event_frames events (tail gone); Ok (frame :: rest))) as ->
    by (by destruct gone as [|[] gone]).
  destruct (event_frame e) as [frame|] eqn:Ef; [|done]. cbn [mbind result_bind].
  destruct (event_frames events (tail gone)) as [rest|] eqn:Er; [|done].
  intros [= <-]. cbn [concat]. specialize (IH (tail gone)).
  destruct e as [degraded|v|].
  - assert (framed (StreamOpened degraded :: events) gone = framed events (tail gone)) as ->
      by (by destruct gone as [|[] gone]).
    destruct degraded; injection Ef as <-; rewrite feed_comment by (apply (bool_decide_unpack _); by vm_compute);
      by apply IH.
  - destruct v as [| | | | |i h t p c r| | |]; try done.
    assert (framed (NotificationArrival (NotificationView i h t p c r) :: events) gone =
      NotificationView i h t p c r :: framed events (tail gone)) as -> by (by destruct gone as [|[] gone]).
    assert (frame = sse_event (arrival_data (NotificationView i h t p c r)) (Some (txt "notification"))
      (Some (last_event_text (Some i)))) as ->.
    { symmetry. exact (f_equal (λ f, match f with Ok f => f | Raise _ => [] end) Ef). }
    rewrite feed_event; [|done|apply (bool_decide_unpack _); by vm_compute|apply uuid_text_plain].
    rewrite (IH (Some i) rest Er). by rewrite (cursor_after_cons _ _ _ i).
  - assert (framed (StreamKeepAlive :: events) gone = framed events (tail gone)) as ->
      by (by destruct gone as [|[] gone]).
    injection Ef as <-. rewrite feed_comment by (apply (bool_decide_unpack _); by vm_compute).
    by apply IH.
Qed.

Lemma event_frames_Ok events gone : Forall event_ok events → ∃ frames, event_frames events gone = Ok frames.
Proof.
  intros Hok. revert gone. induction Hok as [|e events He _ IH]; intros gone; [by eexists|].
  assert (∃ f, event_frame e = Ok f) as [f Hf].
  { destruct e as [[]|v|]; try by eexists. destruct v; try done. by eexists. }
  destruct (IH (tail gone)) as [rest Hrest].
  destruct gone as [|[] gone]; cbn in *; rewrite ?Hf; cbn; rewrite ?Hrest; by eexists.
Qed.

(** A cursor that names a UUID. *)
Definition cursor_ok (c : option NotificationId) : Prop :=
  match c with Some i => (uuid_value i < 2 ^ 128)%N | None => True end.

(** The header of a reconnection reads as the cursor it was written from. *)
Lemma last_event_cursor c : cursor_ok c →
  stream_cursor None (UUID_of (String.string_of_list_ascii (last_event_text c))) = c.
Proof.
  intros Hc. destruct c as [i|]; [|reflexivity]. unfold last_event_text, txt.
  rewrite String.string_of_list_ascii_of_string, (UUID_of_str _ Hc). cbn. by destruct i.
Qed.

Lemma framed_ok events gone : Forall event_ok events →
  Forall (λ v, event_ok (NotificationArrival v)) (framed events gone).
Proof.
  intros Hok. revert gone. induction Hok as [|e events He _ IH]; intros gone; [constructor|].
  destruct gone as [|[] gone].
  - destruct e; [apply (IH [])|constructor; [done|apply (IH [])]|apply (IH [])].
  - by destruct e.
  - destruct e; [apply IH|constructor; [done|apply IH]|apply IH].
Qed.

Lemma cursor_after_ok since vs : cursor_ok since →
  Forall (λ v, event_ok (NotificationArrival v)) vs → cursor_ok (cursor_after since vs).
Proof.
  intros Hs Hv. revert since Hs. induction Hv as [|v vs Hv _ IH]; intros since Hs; [done|].
  destruct v as [| | | | |i h t p c r| | |]; try done.
  rewrite (cursor_after_cons _ _ _ i) by done. by apply IH.
Qed.

(** ** Theorems *)

(** [C15] The stream on the wire is the stream: whatever the service yields and whenever the
    client goes away, the bytes the server writes are read by a standard event-stream client
    as exactly the notifications framed until then, in order, each as one [notification]
    message with its identifier and its document (a document of several lines, line for
    line; one without line breaks, byte for byte), comments and keep-alives unseen; the
    client keeps the server's reconnection time, and the [Last-Event-ID] it reconnects with
    is the cursor after the last notification it was handed. *)
Theorem sse_stream_roundtrip (events : list NotificationStreamEvent) (gone : list bool)
    (since : option NotificationId) :
  Forall event_ok events → cursor_ok since →
  ∃ frames, stream_frames events gone = Ok frames ∧
    let '(messages, client) := client_receive (last_event_text since) (concat frames) in
    messages = arrival_message <$> framed events gone ∧
    (∀ v, v ∈ framed events gone → unbroken (arrival_data v) →
      sm_data (arrival_message v) = arrival_data v) ∧
    sc_data client = [] ∧ sc_retry client = Some (txt "3000") ∧
    stream_cursor None (UUID_of (String.string_of_list_ascii (sc_last_event_id client))) =
      cursor_after since (framed events gone).
Proof.
  intros Hok Hsince. destruct (event_frames_Ok events gone Hok) as [frames Hf].
  exists (sse_retry RETRY_MILLISECONDS :: frames). unfold stream_frames. rewrite Hf.
  split; [done|]. unfold client_receive. cbn [concat].
  change (mkSseClient [] [] (last_event_text since) None) with (idle_client (last_event_text since) None).
  rewrite feed_retry, (feed_events events gone since _ frames Hok Hf). split_and!; try done.
  - intros v _ Hv. cbn. by rewrite data_lines_one.
  - cbn [sc_last_event_id idle_client]. apply last_event_cursor, cursor_after_ok; [done|].
    by apply framed_ok.
Qed.

End Delivery.

(** ** Concrete inputs *)

Definition plain_documents : SchemaJson := {|
  schema_dump_json s :=
    match s with
    | NotificationResponse i _ t _ _ _ => ("{" +:+ uuid_str i +:+ NotificationType_value t +:+ "}")%string
    | _ => "{}"%string
    end |}.

Definition demo_events : list NotificationStreamEvent :=
  [StreamOpened false; NotificationArrival (NotificationView (Uuid 3) (Uuid 1) PLANT_ONBOARDED ∅ 0 None);
   StreamKeepAlive; NotificationArrival (NotificationView (Uuid 5) (Uuid 1) PLANT_ONBOARDED ∅ 0 None)].

(** The client is found gone before the fourth frame: it has seen one notification. *)
Lemma sse_stream_roundtrip_witness :
  ∃ frames, stream_frames (sj := plain_documents) demo_events [false; false; false; true] = Ok frames ∧
    length (client_receive [] (concat frames)).1 = 1 ∧
    stream_cursor None (UUID_of (String.string_of_list_ascii
      (sc_last_event_id (client_receive [] (concat frames)).2))) = Some (Uuid 3).
Proof.
  destruct (sse_stream_roundtrip (sj := plain_documents) demo_events [false; false; false; true] None)
    as (frames & Hf & H).
  - repeat constructor.
  - exact I.
  - exists frames. split; [exact Hf|]. change (last_event_text None) with (@nil Ascii.ascii) in H.
    destruct (client_receive [] (concat frames)) as [messages client].
    destruct H as (-> & _ & _ & _ & Hc). split; [reflexivity|exact Hc].
Defined.

(** A document with U+0085 in a string comes back with a line feed there. *)
Example next_line_is_rewritten :
  join_lines (data_lines (txt "a" ++ ["133"%char] ++ txt "b")) = txt "a" ++ [LF] ++ txt "b".
Proof. reflexivity. Qed.
