(* ===== verification/Simulator.v ===== *)
(** The virtual sensors of the IoT simulator ([src/tools/iot-simulator]): the physical model
    ([physics.py]), the scenarios ([scenarios.py]) and the simulator that advances them
    ([simulator.py]).

    [math.sin], [math.pi] and [**] on floats, and Python's random generator, are parameters;
    every other operation on a float is binary64's. *)

From S2P Require Import Prelude Domain Telemetry SagaIntents.
From Stdlib Require Import SpecFloat.
From stdpp Require Import pretty.

(** ** What is not the program's *)

Class Maths := {
  math_pi : float;
  math_sin : float → float;
  math_pow : float → float → float }.

(** [random.Random]: a generator is what its seed makes it, and each draw gives the next. *)
Class Random := {
  Rng : Type;
  seeded : Z → Rng;
  gauss : float → float → Rng → float * Rng;
  random_unit : Rng → float * Rng }.

(** ** Floats *)

Definition fadd : float → float → float := SFadd 53 1024.
Definition fsub : float → float → float := SFsub 53 1024.
Definition fmul : float → float → float := SFmul 53 1024.
Definition fdiv : float → float → float := SFdiv 53 1024.
(** The literal nearest to [n / d]. *)
Definition ratio (n d : Z) : float := fdiv (float_of_Z n) (float_of_Z d).

(** [max(a, b)] and [min(a, b)] keep [a] unless [b] is beyond it. *)
Definition py_max (a b : float) : float := if float_lt a b then b else a.
Definition py_min (a b : float) : float := if float_lt b a then b else a.

(** A duration as a float number of seconds. *)
Definition in_seconds (t : timedelta) : float := ratio t MICROSECONDS_PER_SECOND.

(** [instant.hour * 60 + instant.minute]. *)
Definition minute_of_day (instant : datetime) : Z := (instant mod days 1) / minutes 1.

(** ** The physical model *)

Definition MINUTES_PER_DAY : Z := 1440.
Definition SUNRISE_MINUTE : Z := 360.
Definition SUNSET_MINUTE : Z := 1200.
Definition LIGHT_PEAK_MINUTE : Z := 780.
Definition MOISTURE_MAX : float := float_of_Z 100.
Definition MOISTURE_FLOOR : float := float_of_Z 2.
Definition LIGHT_FACTOR_RANGE : float := ratio 4 10.
Definition TEMPERATURE_AMPLITUDE : float := ratio 3 2.
Definition DEFAULT_TEMPERATURE : float := float_of_Z 22.
Definition DEFAULT_LIGHT_LUX : float := float_of_Z 3000.
Definition DEFAULT_HALF_LIFE_HOURS : float := float_of_Z 12.

Record NoiseProfile := mkNoiseProfile {
  np_sigma : float;
  np_outlier_probability : float;
  np_outlier_sigma : float }.

Definition DEFAULT_NOISE : NoiseProfile :=
  mkNoiseProfile (ratio 4 10) (ratio 2 1000) (float_of_Z 12).

Definition light_factor (light_lux peak_lux : float) : float :=
  if float_le peak_lux (float_of_Z 0) then LIGHT_FACTOR_RANGE
  else
    let normalized := py_min (py_max (fdiv light_lux peak_lux) (float_of_Z 0)) (float_of_Z 1) in
    fadd LIGHT_FACTOR_RANGE (fmul (fsub (float_of_Z 1) LIGHT_FACTOR_RANGE) normalized).

Definition clamp (moisture : float) : float := py_min (py_max moisture MOISTURE_FLOOR) MOISTURE_MAX.

(** ** Scenarios

    The silence of a scenario is kept in microseconds, as every duration is. *)
Definition SILENCE_AFTER : timedelta := seconds 30.
Definition SILENCE_FOR : timedelta := seconds 300.
Definition SILENCE_WINDOW : timedelta := seconds 1800.
Definition COLD_SNAP_TEMPERATURE : float := float_of_Z (-2).
Definition OVERWATERING_FLOOR : float := float_of_Z 92.
Definition DROUGHT_MOISTURE : float := float_of_Z 31.

Record Conditions := mkConditions {
  cd_temperature : float;
  cd_light_multiplier : float;
  cd_moisture_floor : float }.

Record Scenario := mkScenario {
  sc_name : string;
  sc_ambient_temperature : float;
  sc_dry_factor : float;
  sc_initial_moisture : float;
  sc_light_multiplier : float;
  sc_moisture_floor : float;
  sc_half_life_hours : float;
  sc_silent_after : option timedelta;
  sc_silent_for : timedelta }.

(** Every sensor waits its turn: the windows are a fifth of the period apart. *)
Definition silence_offset (silent_after : timedelta) (sensor_index : nat) : timedelta :=
  (silent_after + Z.of_nat (sensor_index mod 5) * (SILENCE_WINDOW / 5))%Z.

Definition emits (s : Scenario) (elapsed : timedelta) (sensor_index : nat) : bool :=
  match sc_silent_after s with
  | None => true
  | Some silent_after =>
      let offset := silence_offset silent_after sensor_index in
      if bool_decide (elapsed < offset)%Z then true
      else bool_decide (sc_silent_for s ≤ (elapsed - offset) mod SILENCE_WINDOW)%Z
  end.

Definition NORMAL_SCENARIO : Scenario :=
  mkScenario "normal" DEFAULT_TEMPERATURE (float_of_Z 1) (float_of_Z 60) (float_of_Z 1)
    MOISTURE_FLOOR DEFAULT_HALF_LIFE_HOURS None SILENCE_FOR.

Definition DROUGHT_SCENARIO : Scenario :=
  mkScenario "drought" (float_of_Z 31) (float_of_Z 4) DROUGHT_MOISTURE (ratio 5 4)
    MOISTURE_FLOOR (float_of_Z 3) None SILENCE_FOR.

Definition OVERWATERING_SCENARIO : Scenario :=
  mkScenario "overwatering" (float_of_Z 19) (float_of_Z 1)
    (fadd OVERWATERING_FLOOR (float_of_Z 4)) (ratio 1 2) OVERWATERING_FLOOR (float_of_Z 48)
    None SILENCE_FOR.

Definition COLD_SNAP_SCENARIO : Scenario :=
  mkScenario "cold_snap" COLD_SNAP_TEMPERATURE (ratio 4 10) (float_of_Z 60) (float_of_Z 1)
    MOISTURE_FLOOR DEFAULT_HALF_LIFE_HOURS None SILENCE_FOR.

Definition SENSOR_FAILURE_SCENARIO : Scenario :=
  mkScenario "sensor_failure" DEFAULT_TEMPERATURE (float_of_Z 1) (float_of_Z 60) (float_of_Z 1)
    MOISTURE_FLOOR DEFAULT_HALF_LIFE_HOURS (Some SILENCE_AFTER) SILENCE_FOR.

Definition SCENARIOS : list Scenario :=
  [NORMAL_SCENARIO; DROUGHT_SCENARIO; OVERWATERING_SCENARIO; COLD_SNAP_SCENARIO;
   SENSOR_FAILURE_SCENARIO].

Definition scenario_named (name : string) : result Scenario :=
  match find (λ s, bool_decide (sc_name s = name)) SCENARIOS with
  | Some s => Ok s
  | None => Raise ValueError
  end.

(** ** The model in motion *)

Section Simulation.
Context {maths : Maths} {rand : Random} (uuid5 : uuid → string → uuid).

Definition light_at (instant : datetime) (peak_lux : float) : float :=
  let minutes := minute_of_day instant in
  if bool_decide (SUNRISE_MINUTE ≤ minutes ≤ SUNSET_MINUTE)%Z then
    let progress := ratio (minutes - SUNRISE_MINUTE) (SUNSET_MINUTE - SUNRISE_MINUTE) in
    fmul peak_lux (math_sin (fmul math_pi progress))
  else float_of_Z 0.

Definition dry_moisture (moisture : float) (elapsed : timedelta)
    (temperature light_lux half_life_hours dry_factor moisture_floor : float) : float :=
  if bool_decide (elapsed ≤ 0)%Z || float_le moisture moisture_floor then moisture
  else
    let hours := fdiv (in_seconds elapsed) (float_of_Z 3600) in
    let warmth := fdiv (py_max temperature (float_of_Z 0)) DEFAULT_TEMPERATURE in
    let effective_half_life := fdiv half_life_hours
      (py_max (fmul (fmul warmth (light_factor light_lux DEFAULT_LIGHT_LUX)) dry_factor)
        (ratio 1 1000000)) in
    let remaining := fmul (fsub moisture moisture_floor)
      (math_pow (ratio 1 2) (fdiv hours effective_half_life)) in
    clamp (fadd moisture_floor remaining).

(** The second draw decides whether a third is made. *)
Definition with_noise (value : float) (profile : NoiseProfile) (minimum maximum : float)
    (rng : Rng) : float * Rng :=
  let '(g, rng) := gauss (float_of_Z 0) (np_sigma profile) rng in
  let noisy := fadd value g in
  let '(u, rng) := random_unit rng in
  let '(noisy, rng) :=
    if float_lt u (np_outlier_probability profile) then
      let '(spike, rng) := gauss (float_of_Z 0) (np_outlier_sigma profile) rng in
      (fadd noisy spike, rng)
    else (noisy, rng) in
  (py_min (py_max noisy minimum) maximum, rng).

Definition sensor_temperature_offset (sensor_index : nat) : float :=
  fmul (math_sin (fmul (float_of_Z (Z.of_nat sensor_index)) (ratio 17 10))) (ratio 8 10).

Definition conditions (s : Scenario) (instant : datetime) (sensor_index : nat) : Conditions :=
  let daily_swing := fmul TEMPERATURE_AMPLITUDE (math_sin
    (fdiv (fmul (fmul (float_of_Z 2) math_pi) (float_of_Z (minute_of_day instant - LIGHT_PEAK_MINUTE)))
      (float_of_Z MINUTES_PER_DAY))) in
  mkConditions
    (fadd (fadd (sc_ambient_temperature s) daily_swing) (sensor_temperature_offset sensor_index))
    (sc_light_multiplier s) (sc_moisture_floor s).

(** ** The simulator *)

Definition SENSOR_ID_NAMESPACE : uuid := 0x6f9619ff8b86d011b42d00cf4fc964ff%N.

Definition sensor_id_for (base_id : uuid) (index : nat) : uuid :=
  uuid5 SENSOR_ID_NAMESPACE (uuid_str base_id +:+ ":" +:+ pretty index)%string.

Record Reading := mkReading {
  rd_sensor_id : uuid;
  rd_recorded_at : datetime;
  rd_moisture : float;
  rd_temperature : float;
  rd_light : float }.

Record SensorState := mkSensorState {
  st_sensor_id : uuid;
  st_moisture : float;
  st_temperature : float;
  st_light_lux : float }.

Record SensorSimulatorConfig := mkSensorSimulatorConfig {
  cf_sensor_count : Z;
  cf_base_id : uuid;
  cf_scenario : Scenario;
  cf_seed : Z;
  cf_step : timedelta;
  cf_noise : NoiseProfile;
  cf_peak_lux : float }.

Record SensorSimulator := mkSensorSimulator {
  sm_config : SensorSimulatorConfig;
  sm_started_at : option datetime;
  sm_states : list SensorState }.

Definition build_states (c : SensorSimulatorConfig) : list SensorState :=
  (λ index, mkSensorState (sensor_id_for (cf_base_id c) index)
    (clamp (fsub (fadd (sc_initial_moisture (cf_scenario c))
      (float_of_Z (Z.of_nat (index mod 5)))) (float_of_Z 2)))
    (sc_ambient_temperature (cf_scenario c)) (float_of_Z 0))
  <$> seq 0 (Z.to_nat (cf_sensor_count c)).

Definition SensorSimulator_new (c : SensorSimulatorConfig) : result SensorSimulator :=
  if bool_decide (cf_sensor_count c < 1)%Z then Raise ValueError
  else if bool_decide (cf_step c ≤ 0)%Z then Raise ValueError
  else Ok (mkSensorSimulator c None (build_states c)).

(** [_rng_for]: a generator made anew, at every call. *)
Definition rng_for (c : SensorSimulatorConfig) (index : nat) : Rng :=
  seeded (cf_seed c + Z.of_nat index).

(** [_step]: the sensor's next state, and its reading when the scenario lets it speak. *)
Definition step (c : SensorSimulatorConfig) (elapsed : timedelta) (instant : datetime)
    (index : nat) (state : SensorState) : SensorState * option Reading :=
  let s := cf_scenario c in
  let conditions := conditions s instant index in
  let light_lux := fmul (light_at instant (cf_peak_lux c)) (cd_light_multiplier conditions) in
  let moisture := dry_moisture (st_moisture state) (cf_step c) (cd_temperature conditions)
    light_lux (sc_half_life_hours s) (sc_dry_factor s) (cd_moisture_floor conditions) in
  let state := mkSensorState (st_sensor_id state) moisture (cd_temperature conditions) light_lux in
  if negb (emits s elapsed index) then (state, None)
  else
    let '(reported_moisture, rng) := with_noise moisture (cf_noise c)
      (py_max (cd_moisture_floor conditions) (float_of_Z 0)) MOISTURE_MAX (rng_for c index) in
    let '(reported_temperature, rng) := with_noise (cd_temperature conditions) (cf_noise c)
      (float_of_Z (-50)) (float_of_Z 60) rng in
    let '(reported_light, rng) := with_noise light_lux (cf_noise c)
      (float_of_Z 0) (fmul (cf_peak_lux c) (float_of_Z 2)) rng in
    (state, Some (mkReading (st_sensor_id state) instant reported_moisture reported_temperature
      reported_light)).

(** [readings]. *)
Definition readings (sim : SensorSimulator) (instant : datetime) : list Reading * SensorSimulator :=
  let started_at := default instant (sm_started_at sim) in
  let elapsed := (instant - started_at)%Z in
  let steps := imap (step (sm_config sim) elapsed instant) (sm_states sim) in
  (omap snd steps, mkSensorSimulator (sm_config sim) (Some started_at) steps.*1).

End Simulation.

(** ** Lemmas *)

Lemma SFcompare_swap x y : SFcompare y x = CompOpp <$> SFcompare x y.
Proof.
  destruct x as [s1|s1| |s1 m1 e1], y as [s2|s2| |s2 m2 e2]; try destruct s1; try destruct s2;
    try reflexivity; cbn; rewrite (Z.compare_antisym e1 e2);
    change Eq with (CompOpp Eq) at 1; rewrite <- (Pos.compare_cont_antisym m1 m2 Eq);
    destruct (e1 ?= e2)%Z; cbn; try done; by rewrite ?CompOpp_involutive.
Qed.

(** Numbers that are not NaN are totally ordered. *)
Lemma float_le_total x y : is_nan x = false → is_nan y = false → float_lt x y = false → float_le y x = true.
Proof.
  unfold float_lt, float_le, SFltb, SFleb. rewrite (SFcompare_swap x y).
  destruct (SFcompare x y) as [[]|] eqn:E; try done.
  intros Hx Hy _. destruct x as [s1|s1| |s1 m1 e1], y as [s2|s2| |s2 m2 e2]; try done;
    cbn in E; repeat case_match; done.
Qed.

Lemma float_lt_le x y : float_lt x y = true → float_le x y = true.
Proof. unfold float_lt, float_le, SFltb, SFleb. by destruct (SFcompare x y) as [[]|]. Qed.

Lemma float_le_refl x : is_nan x = false → float_le x x = true.
Proof.
  intros Hx. unfold float_le, SFleb. pose proof (SFcompare_swap x x) as H.
  destruct (SFcompare x x) as [[]|] eqn:E; try done. destruct x as [s|s| |s m e]; try done; by destruct s.
Qed.

(** A value forced into a range is in it, unless it is NaN. *)
Lemma clamped v low high :
  is_nan v = false → is_nan low = false → is_nan high = false → float_le low high = true →
  float_le low (py_min (py_max v low) high) = true ∧
  float_le (py_min (py_max v low) high) high = true.
Proof.
  intros Hv Hl Hh Hlh. unfold py_max, py_min.
  destruct (float_lt v low) eqn:E1.
  - destruct (float_lt high low) eqn:E2; [split; [done|by apply float_le_refl]|].
    split; [by apply float_le_refl|done].
  - destruct (float_lt high v) eqn:E2; [split; [done|by apply float_le_refl]|].
    split; by apply float_le_total.
Qed.

Lemma clamped_nan v low high : is_nan v = true → is_nan (py_min (py_max v low) high) = true.
Proof. destruct v; try done. intros _. unfold py_max, py_min. cbn. unfold float_lt, SFltb. by destruct high. Qed.

Section Runs.
Context {maths : Maths} {rand : Random} (uuid5 : uuid → string → uuid).

(** What a sensor adds to a value: a deviation, and the spike of an outlier. *)
Definition shifted (noise : float * option float) (value : float) : float :=
  match noise.2 with
  | None => fadd value noise.1
  | Some spike => fadd (fadd value noise.1) spike
  end.

(** The draws of [with_noise] depend on the generator alone. *)
Lemma with_noise_draws p rng : ∃ noise rng', ∀ v low high,
  with_noise v p low high rng = (py_min (py_max (shifted noise v) low) high, rng').
Proof.
  unfold with_noise. destruct (gauss _ _ rng) as [g rng1]. destruct (random_unit rng1) as [u rng2].
  destruct (float_lt u _).
  - destruct (gauss _ _ rng2) as [spike rng3]. by exists (g, Some spike), rng3.
  - by exists (g, None), rng2.
Qed.

(** *** Silences *)

(** A sensor is quiet exactly inside its windows. *)
Lemma emits_windows (e : timedelta) i :
  emits SENSOR_FAILURE_SCENARIO e i = false ↔
  ∃ k, (0 ≤ k)%Z ∧ let w := (silence_offset SILENCE_AFTER i + k * SILENCE_WINDOW)%Z in
    (w ≤ e < w + SILENCE_FOR)%Z.
Proof.
  unfold emits. cbn [SENSOR_FAILURE_SCENARIO sc_silent_after sc_silent_for].
  set (o := silence_offset SILENCE_AFTER i). unfold SILENCE_WINDOW, SILENCE_FOR, seconds, MICROSECONDS_PER_SECOND.
  case_bool_decide as Hlt.
  - split; [done|]. intros (k & Hk & Hw). lia.
  - rewrite bool_decide_eq_false. pose proof (Z.mod_pos_bound (e - o) (1800 * 1000000)) as Hm.
    pose proof (Z.div_mod (e - o) (1800 * 1000000)) as Hd. split.
    + intros Hp. exists ((e - o) / (1800 * 1000000))%Z. split; [apply Z.div_pos; lia|lia].
    + intros (k & Hk & Hw).
      assert ((e - o) / (1800 * 1000000) = k)%Z as Hq; [|lia].
      symmetry. apply (Z.div_unique _ _ _ (e - o - k * (1800 * 1000000))); lia.
Qed.

(** The last tick at or before an instant. *)
Lemma last_tick (interval x : Z) : (0 < interval)%Z → (0 ≤ x)%Z →
  ∃ n, (0 ≤ n * interval ≤ x)%Z ∧ (x < n * interval + interval)%Z.
Proof.
  intros Hi Hx. exists (x / interval)%Z. pose proof (Z.div_mod x interval).
  pose proof (Z.mod_pos_bound x interval). assert (0 ≤ x / interval)%Z by (apply Z.div_pos; lia). nia.
Qed.

Lemma silence_offset_bounds i : (SILENCE_AFTER ≤ silence_offset SILENCE_AFTER i ≤ SILENCE_AFTER + 4 * seconds 360)%Z.
Proof.
  unfold silence_offset. pose proof (Nat.mod_upper_bound i 5). 
  change (SILENCE_WINDOW / 5)%Z with (seconds 360). unfold seconds, MICROSECONDS_PER_SECOND. lia.
Qed.

(** ** Theorems *)

(** [C39] The [sensor_failure] scenario never takes a sensor offline: sensors of different
    turn are never silent together, and at any moment of a run that ticks at least every
    two and a half minutes a sensor has reported, within the domain's ten minutes, so that marking it
    offline is refused as still online. *)
Theorem failing_sensors_stay_online (i j : nat) (interval elapsed : timedelta) (started_at : datetime) :
  (0 < interval)%Z → (2 * interval ≤ SILENCE_FOR)%Z → (0 ≤ elapsed)%Z →
  (emits SENSOR_FAILURE_SCENARIO elapsed i = false → emits SENSOR_FAILURE_SCENARIO elapsed j = false →
    i mod 5 = j mod 5) ∧
  ∃ tick, (0 ≤ tick * interval ≤ elapsed)%Z ∧
    emits SENSOR_FAILURE_SCENARIO (tick * interval) i = true ∧
    ∀ (s : Sensor) (seen : datetime) (eid : uuid),
      sn_last_seen_at s = Some seen → (started_at + tick * interval ≤ seen)%Z →
      Sensor_mark_offline s (started_at + elapsed)%Z eid = Raise SensorStillOnlineError.
Proof.
  intros Hint Hint2 He. split.
  - intros (k1 & Hk1 & H1)%emits_windows (k2 & Hk2 & H2)%emits_windows. cbv zeta in *.
    unfold silence_offset in *. change (SILENCE_WINDOW / 5)%Z with (seconds 360) in *.
    pose proof (Nat.mod_upper_bound i 5). pose proof (Nat.mod_upper_bound j 5).
    unfold SILENCE_WINDOW, SILENCE_FOR, SILENCE_AFTER, seconds, MICROSECONDS_PER_SECOND in *. lia.
  - assert (∃ tick, 0 ≤ tick * interval ≤ elapsed ∧
      emits SENSOR_FAILURE_SCENARIO (tick * interval) i = true ∧
      elapsed - tick * interval < SILENCE_FOR + 2 * interval)%Z as (tick & Ht & Hem & Hgap).
    { destruct (last_tick interval elapsed) as (n & Hn & Hn'); [lia..|].
      destruct (emits SENSOR_FAILURE_SCENARIO (n * interval) i) eqn:Hem.
      { exists n. split; [done|]. split; [done|]. unfold SILENCE_FOR, seconds, MICROSECONDS_PER_SECOND. lia. }
      apply emits_windows in Hem as (k & Hk & Hw). cbv zeta in Hw.
      pose proof (silence_offset_bounds i) as Ho. set (o := silence_offset SILENCE_AFTER i) in *.
      set (w := (o + k * SILENCE_WINDOW)%Z) in *.
      destruct (last_tick interval (w - 1)) as (m & Hm & Hm'); [lia| |].
      { unfold w, SILENCE_WINDOW, SILENCE_AFTER, seconds, MICROSECONDS_PER_SECOND in *. lia. }
      exists m. split; [lia|]. split; [|lia].
      destruct (emits SENSOR_FAILURE_SCENARIO (m * interval) i) eqn:Hem; [done|].
      apply emits_windows in Hem as (k' & Hk' & Hw'). cbv zeta in Hw'. fold o in Hw'.
      assert (SILENCE_WINDOW = 1800000000%Z ∧ SILENCE_FOR = 300000000%Z) as [EW EF] by done.
      rewrite EW, EF in *. clearbody o. subst w. set (t := (m * interval)%Z) in *. clearbody t.
      clear Hn Hn' Hw. destruct (Z.lt_ge_cases k' k); lia. }
    exists tick. split; [done|]. split; [done|]. intros s seen eid Hs Hseen.
    unfold Sensor_mark_offline. rewrite Hs. rewrite decide_True; [done|].
    unfold OFFLINE_AFTER, SILENCE_FOR, minutes, seconds, MICROSECONDS_PER_SECOND in *. lia.
Qed.

(** The noise of a sensor is drawn once and for all: because the generator is made
    anew from the seed at every step, there are three fixed deviations, an outlier's spike
    included or not, which every reading of the sensor adds to the modelled moisture,
    temperature and light; a sensor that draws an outlier reports it at every tick, and one
    that does not never will. *)
Theorem sensor_noise_is_constant (c : SensorSimulatorConfig) (index : nat) :
  ∃ moisture_noise temperature_noise light_noise : float * option float,
    ∀ elapsed instant state,
      match step c elapsed instant index state with
      | (state', Some r) =>
          emits (cf_scenario c) elapsed index = true ∧
          rd_moisture r = py_min (py_max (shifted moisture_noise (st_moisture state'))
            (py_max (sc_moisture_floor (cf_scenario c)) (float_of_Z 0))) MOISTURE_MAX ∧
          rd_temperature r = py_min (py_max (shifted temperature_noise (st_temperature state'))
            (float_of_Z (-50))) (float_of_Z 60) ∧
          rd_light r = py_min (py_max (shifted light_noise (st_light_lux state'))
            (float_of_Z 0)) (fmul (cf_peak_lux c) (float_of_Z 2))
      | (_, None) => emits (cf_scenario c) elapsed index = false
      end.
Proof.
  destruct (with_noise_draws (cf_noise c) (rng_for c index)) as (n1 & rng1 & H1).
  destruct (with_noise_draws (cf_noise c) rng1) as (n2 & rng2 & H2).
  destruct (with_noise_draws (cf_noise c) rng2) as (n3 & rng3 & H3).
  exists n1, n2, n3. intros elapsed instant state. unfold step.
  destruct (emits _ _ _); [|done]. cbn [negb]. by rewrite H1, H2, H3.
Qed.

End Runs.

(** ** Concrete inputs *)

(** Six sensors in, the second is quiet from 390 s on, and the first never with it. *)
Lemma failing_sensors_stay_online_witness :
  emits SENSOR_FAILURE_SCENARIO (seconds 400) 6 = false ∧
  ∃ tick, (0 ≤ tick * seconds 10 ≤ seconds 400)%Z ∧
    emits SENSOR_FAILURE_SCENARIO (tick * seconds 10) 6 = true ∧
    ∀ (s : Sensor) (seen : datetime) (eid : uuid),
      sn_last_seen_at s = Some seen → (0 + tick * seconds 10 ≤ seen)%Z →
      Sensor_mark_offline s (0 + seconds 400)%Z eid = Raise SensorStillOnlineError.
Proof.
  split; [reflexivity|].
  refine (proj2 (failing_sensors_stay_online 6 0 (seconds 10) (seconds 400) 0%Z _ _ _)).
  - reflexivity.
  - discriminate.
  - discriminate.
Defined.
