(* ===== verification/Publishers.v ===== *)
(** Where a simulated reading goes ([publisher.py]): a text stream, one line per reading, or
    Kafka, in batches.

    The JSON of one reading is a parameter, and so are the broker's answers. *)

From S2P Require Import Prelude Lines Domain Simulator.
From Stdlib Require Import SpecFloat Ascii.

(** ** What is not the program's *)

(** [round(x, 3)], [json.dumps] of a reading's document and the reading a line holds. *)
Class ReadingJson := {
  round3 : float → float;
  reading_dumps : Reading → text;
  reading_loads : text → result Reading }.

Definition rounded `{ReadingJson} (r : Reading) : Reading :=
  mkReading (rd_sensor_id r) (rd_recorded_at r) (round3 (rd_moisture r))
    (round3 (rd_temperature r)) (round3 (rd_light r)).

(** A document is one line that is not blank and reads back as it was written; rounding is
    done once, and does not cross a whole number. *)
Class ReadingJsonLaws (rj : ReadingJson) : Prop := {
  dumped_line r : unbroken (reading_dumps r);
  dumped_not_blank r : strip_list (reading_dumps r) ≠ [];
  dumped_loads r : reading_loads (reading_dumps (rounded r)) = Ok (rounded r);
  round3_again x : round3 (round3 x) = round3 x;
  round3_above z x : float_le (float_of_Z z) x = true → float_le (float_of_Z z) (round3 x) = true;
  round3_below z x : float_le x (float_of_Z z) = true → float_le (round3 x) (float_of_Z z) = true }.

(** ** Publishers *)

(** The protocol: each call may raise and leaves the publisher in a state. *)
Record Publisher (P : Type) := mkPublisher {
  pub_send : Reading → P → result unit * P;
  pub_flush : P → result unit * P;
  pub_stop : P → result unit * P }.
Arguments mkPublisher {P}. Arguments pub_send {P}. Arguments pub_flush {P}. Arguments pub_stop {P}.

Section Json.
Context {rj : ReadingJson}.

(** [Reading.to_json]. *)
Definition to_json (r : Reading) : text := reading_dumps (rounded r).

(** The text written so far. *)
Definition JournalPublisher : Publisher text := mkPublisher
  (λ r stream, (Ok tt, stream ++ to_json r ++ [LF]))
  (λ stream, (Ok tt, stream))
  (λ stream, (Ok tt, stream)).

(** *** Kafka *)

Definition BATCH_MAX_MESSAGES : nat := 100.
Definition BATCH_MAX_SECONDS : timedelta := seconds 1.

(** The bounds of a batch, the readings whose delivery is not awaited yet, when the first of
    them was queued, whether the producer runs, and the readings whose delivery has been
    awaited. *)
Record KafkaPublisher := mkKafkaPublisher {
  kp_batch_max_messages : nat;
  kp_batch_max_seconds : timedelta;
  kp_pending : list Reading;
  kp_first_pending_at : option Z;
  kp_started : bool;
  kp_awaited : list Reading }.

Definition KafkaPublisher_new (batch_max_messages : nat) (batch_max_seconds : timedelta) :
    result KafkaPublisher :=
  if bool_decide (batch_max_messages < 1) then Raise ValueError
  else Ok (mkKafkaPublisher batch_max_messages batch_max_seconds [] None false []).

Definition kafka_started (started : bool) (p : KafkaPublisher) : KafkaPublisher :=
  mkKafkaPublisher (kp_batch_max_messages p) (kp_batch_max_seconds p) (kp_pending p)
    (kp_first_pending_at p) started (kp_awaited p).

Definition KafkaPublisher_start (connected : result unit) (p : KafkaPublisher) :
    result unit * KafkaPublisher :=
  if kp_started p then (Ok tt, p)
  else match connected with
       | Raise e => (Raise e, p)
       | Ok _ => (Ok tt, kafka_started true p)
       end.

(** [flush]: the batch is cleared before it is awaited; [delivery] is how the wait ends. *)
Definition KafkaPublisher_flush (delivery : result unit) (p : KafkaPublisher) :
    result unit * KafkaPublisher :=
  (delivery, mkKafkaPublisher (kp_batch_max_messages p) (kp_batch_max_seconds p) [] None
    (kp_started p) (kp_awaited p ++ kp_pending p)).

Definition KafkaPublisher_stop (delivery closed : result unit) (p : KafkaPublisher) :
    result unit * KafkaPublisher :=
  if negb (kp_started p) then (Ok tt, p)
  else match KafkaPublisher_flush delivery p with
       | (Raise e, p) => (Raise e, p)
       | (Ok _, p) =>
           match closed with
           | Raise e => (Raise e, p)
           | Ok _ => (Ok tt, kafka_started false p)
           end
       end.

(** [send]: [queued] is how the hand-over to the producer ends, [t1] and [t2] are the clock's
    two readings. *)
Definition KafkaPublisher_send (queued : result unit) (t1 t2 : Z) (delivery : result unit)
    (r : Reading) (p : KafkaPublisher) : result unit * KafkaPublisher :=
  match queued with
  | Raise e => (Raise e, p)
  | Ok _ =>
      let first := default t1 (kp_first_pending_at p) in
      let p := mkKafkaPublisher (kp_batch_max_messages p) (kp_batch_max_seconds p)
        (kp_pending p ++ [r]) (Some first) (kp_started p) (kp_awaited p) in
      if bool_decide (kp_batch_max_messages p ≤ length (kp_pending p)) ||
         bool_decide (kp_batch_max_seconds p ≤ t2 - first)%Z
      then KafkaPublisher_flush delivery p
      else (Ok tt, p)
  end.

(** The calls of a publisher, with what the broker and the clock answer. *)
Inductive KafkaCall :=
  | KafkaStart (connected : result unit)
  | KafkaSend (queued : result unit) (t1 t2 : Z) (delivery : result unit) (r : Reading)
  | KafkaFlush (delivery : result unit)
  | KafkaStop (delivery closed : result unit).

Definition kafka_call (c : KafkaCall) (p : KafkaPublisher) : result unit * KafkaPublisher :=
  match c with
  | KafkaStart connected => KafkaPublisher_start connected p
  | KafkaSend queued t1 t2 delivery r => KafkaPublisher_send queued t1 t2 delivery r p
  | KafkaFlush delivery => KafkaPublisher_flush delivery p
  | KafkaStop delivery closed => KafkaPublisher_stop delivery closed p
  end.

Definition kafka_calls (cs : list KafkaCall) (p : KafkaPublisher) : KafkaPublisher :=
  foldl (λ p c, (kafka_call c p).2) p cs.

(** The readings the producer took. *)
Definition queued_reading (c : KafkaCall) : option Reading :=
  match c with KafkaSend (Ok _) _ _ _ r => Some r | _ => None end.

Definition queued_readings : list KafkaCall → list Reading := omap queued_reading.

End Json.

(** ** Lemmas *)

(** What holds of a publisher between two calls. *)
Definition batch_ok (p : KafkaPublisher) (taken : list Reading) : Prop :=
  kp_awaited p ++ kp_pending p = taken ∧
  length (kp_pending p) < kp_batch_max_messages p ∧
  (kp_first_pending_at p = None ↔ kp_pending p = []).

Lemma kafka_call_bounds c p :
  kp_batch_max_messages (kafka_call c p).2 = kp_batch_max_messages p ∧
  kp_batch_max_seconds (kafka_call c p).2 = kp_batch_max_seconds p.
Proof.
  destruct c as [connected|queued t1 t2 delivery r|delivery|delivery closed]; cbn [kafka_call];
    unfold KafkaPublisher_start, KafkaPublisher_send, KafkaPublisher_stop, KafkaPublisher_flush;
    repeat case_match; simplify_eq/=; done.
Qed.

Lemma flush_keeps_batch delivery p taken :
  batch_ok p taken → batch_ok (KafkaPublisher_flush delivery p).2 taken.
Proof. intros (Ht & Hl & _). unfold batch_ok. cbn. rewrite app_nil_r. split_and!; [done|lia|done]. Qed.

Lemma kafka_call_batch c p taken :
  0 < kp_batch_max_messages p → batch_ok p taken →
  batch_ok (kafka_call c p).2 (taken ++ option_list (queued_reading c)).
Proof.
  intros Hmax Hok. destruct c as [connected|[[]|e] t1 t2 delivery r|delivery|delivery closed];
    cbn [kafka_call queued_reading option_list]; rewrite ?app_nil_r.
  - unfold KafkaPublisher_start. destruct (kp_started p); [done|]. by destruct connected.
  - cbn [KafkaPublisher_send]. destruct Hok as (Ht & Hl & Hf). case_match eqn:Hfull.
    + unfold batch_ok. cbn. rewrite app_nil_r, <- Ht, app_assoc. split_and!; [done|lia|done].
    + apply orb_false_iff in Hfull as [Hlen%bool_decide_eq_false _]. unfold batch_ok. cbn in *.
      rewrite app_assoc, Ht. split_and!; [done|lia|]. split; [done|]. intros [_ ?]%app_nil. done.
  - done.
  - by apply flush_keeps_batch.
  - unfold KafkaPublisher_stop. destruct (kp_started p); [|done]. cbn [negb].
    pose proof (flush_keeps_batch delivery p taken Hok) as Hflush.
    destruct (KafkaPublisher_flush delivery p) as [[[]|e] q]; [|done]. by destruct closed.
Qed.

Lemma kafka_calls_batch cs p taken :
  0 < kp_batch_max_messages p → batch_ok p taken →
  batch_ok (kafka_calls cs p) (taken ++ queued_readings cs) ∧
  kp_batch_max_messages (kafka_calls cs p) = kp_batch_max_messages p ∧
  kp_batch_max_seconds (kafka_calls cs p) = kp_batch_max_seconds p.
Proof.
  unfold kafka_calls. revert p taken. induction cs as [|c cs IH]; intros p taken Hmax Hok; cbn [foldl].
  { cbn. by rewrite app_nil_r. }
  destruct (kafka_call_bounds c p) as [E1 E2]. rewrite <- E1, <- E2.
  replace (taken ++ queued_readings (c :: cs)) with
    ((taken ++ option_list (queued_reading c)) ++ queued_readings cs).
  - apply IH; [by rewrite E1|]. by apply kafka_call_batch.
  - rewrite <- app_assoc. unfold queued_readings. cbn. by destruct (queued_reading c).
Qed.

(** ** Theorems *)

(** The Kafka publisher loses and repeats nothing, whatever the broker answers: after
    any calls the readings awaited, then those pending, are the readings the producer took,
    in order.  A batch stays below its bound, and its clock runs exactly while it holds
    something; a send leaves no batch older than the bound on its age, and a flush, a stop
    of a running producer included, leaves none at all even when the delivery fails. *)
Theorem kafka_batches (batch_max_messages : nat) (batch_max_seconds : timedelta)
    (p : KafkaPublisher) (cs : list KafkaCall) (c : KafkaCall) :
  KafkaPublisher_new batch_max_messages batch_max_seconds = Ok p →
  let p1 := kafka_calls cs p in
  let p2 := (kafka_call c p1).2 in
  kp_awaited p2 ++ kp_pending p2 = queued_readings (cs ++ [c]) ∧
  kp_awaited p1 `prefix_of` kp_awaited p2 ∧
  length (kp_pending p2) < batch_max_messages ∧
  (kp_first_pending_at p2 = None ↔ kp_pending p2 = []) ∧
  match c with
  | KafkaStart _ => kp_pending p2 = kp_pending p1
  | KafkaSend (Raise e) _ _ _ _ => p2 = p1
  | KafkaSend (Ok _) _ t2 _ _ =>
      ∀ first, kp_first_pending_at p2 = Some first → (t2 - first < batch_max_seconds)%Z
  | KafkaFlush _ => kp_pending p2 = []
  | KafkaStop _ _ => if kp_started p1 then kp_pending p2 = [] else p2 = p1
  end.
Proof.
  unfold KafkaPublisher_new. case_bool_decide as Hmax; [done|]. intros [= <-]. cbv zeta.
  set (p1 := kafka_calls cs _). set (p2 := (kafka_call c p1).2).
  destruct (kafka_calls_batch cs (mkKafkaPublisher batch_max_messages batch_max_seconds [] None false [])
    []) as (H1 & Em & Es); [cbn; lia|unfold batch_ok; cbn; split_and!; [done|lia|done]|].
  fold p1 in H1, Em, Es. cbn in Em, Es. cbn [app] in H1.
  destruct (kafka_call_batch c p1 _ ltac:(rewrite Em; lia) H1) as (H2 & Hl & Hf). fold p2 in H2, Hl, Hf.
  destruct (kafka_call_bounds c p1) as [Em2 _]. fold p2 in Em2. rewrite Em2, Em in Hl.
  split_and!; [|clear H1 H2 Hl Hf|done|done|].
  { rewrite H2. unfold queued_readings. rewrite omap_app. cbn. by destruct (queued_reading c). }
  all: clearbody p1; subst p2; destruct c as [connected|[[]|e] t1 t2 delivery r|delivery|delivery closed];
    cbn [kafka_call]; unfold KafkaPublisher_start, KafkaPublisher_send, KafkaPublisher_stop,
      KafkaPublisher_flush; cbn [fst snd].
  all: repeat case_match; simplify_eq/=; try done; try by eexists.
  intros first [= <-]. apply orb_false_iff in H as [_ Ht%bool_decide_eq_false]. lia.
Qed.

(** ** Concrete inputs *)

Definition demo_reading (n : N) : Reading :=
  mkReading n 0%Z (float_of_Z 60) (float_of_Z 20) (float_of_Z 0).

(** Two readings in a batch of two, whose delivery fails, and a third a second and a half
    old when the fourth call flushes it. *)
Lemma kafka_batches_witness :
  ∃ p, KafkaPublisher_new 2 BATCH_MAX_SECONDS = Ok p ∧
    let p1 := kafka_calls [KafkaStart (Ok tt); KafkaSend (Ok tt) 0 0 (Ok tt) (demo_reading 1);
      KafkaSend (Ok tt) 1 1 (Raise TransportError) (demo_reading 2)] p in
    let p2 := (kafka_call (KafkaSend (Ok tt) 5 (seconds 2) (Ok tt) (demo_reading 3)) p1).2 in
    kp_awaited p2 ++ kp_pending p2 = [demo_reading 1; demo_reading 2; demo_reading 3] ∧
    length (kp_pending p2) < 2.
Proof.
  eexists. split; [reflexivity|].
  destruct (kafka_batches 2 BATCH_MAX_SECONDS (mkKafkaPublisher 2 BATCH_MAX_SECONDS [] None false [])
    [KafkaStart (Ok tt); KafkaSend (Ok tt) 0 0 (Ok tt) (demo_reading 1);
      KafkaSend (Ok tt) 1 1 (Raise TransportError) (demo_reading 2)]
    (KafkaSend (Ok tt) 5 (seconds 2) (Ok tt) (demo_reading 3)) eq_refl) as (H1 & _ & H2 & _).
  split; [exact H1|exact H2].
Defined.
