(* ===== verification/Drive.v ===== *)
(** Running the simulator: the loop that drives the stream and the replay of a capture
    ([cli.py]), and what the platform makes of a simulated reading
    ([application/telemetry/ingest.py]). *)

From S2P Require Import Prelude Lines Domain Telemetry Ingest UuidText Simulator Publishers.
From Stdlib Require Import SpecFloat Ascii.

Section Json.
Context {rj : ReadingJson}.

(** ** Replay *)

(** [load_replay]: blank lines are passed over, a malformed one is a [ValueError], and so is
    a capture without readings. *)
Definition is_malformed (e : exn) : bool :=
  match e with KeyError | TypeError | ValueError | JSONDecodeError => true | _ => false end.

Fixpoint load_lines (lines : list text) : result (list Reading) :=
  match lines with
  | [] => Ok []
  | line :: lines =>
      if bool_decide (strip_list line = []) then load_lines lines
      else
        r ← match reading_loads line with
            | Raise e => Raise (if is_malformed e then ValueError else e)
            | Ok r => Ok r
            end;
        rest ← load_lines lines;
        Ok (r :: rest)
  end.

Definition load_replay (capture : text) : result (list Reading) :=
  rs ← load_lines (splitlines capture);
  match rs with [] => Raise ValueError | _ => Ok rs end.

(** ** The loop *)

Section Drive.
Context {maths : Maths} {rand : Random} {P : Type} (publisher : Publisher P).

(** Where the readings of a tick come from: the simulator, from a start, or a capture. *)
Inductive source := Live (started_at : datetime) | Replay (capture : list Reading).

(** What the loop has done. *)
Record Progress := mkProgress {
  pr_ticks : nat;
  pr_sent : nat;
  pr_waits : nat;
  pr_simulator : SensorSimulator;
  pr_publisher : P }.

Fixpoint send_all (rs : list Reading) (p : P) : result unit * P :=
  match rs with
  | [] => (Ok tt, p)
  | r :: rs =>
      match pub_send publisher r p with
      | (Ok _, p) => send_all rs p
      | (Raise e, p) => (Raise e, p)
      end
  end.

(** The readings of one tick; [None]: the capture is over. *)
Definition tick_readings (src : source) (interval : timedelta) (ticks : nat) (sim : SensorSimulator) :
    option (list Reading) * SensorSimulator :=
  match src with
  | Live started_at =>
      let '(rs, sim) := readings sim (started_at + Z.of_nat ticks * interval)%Z in (Some rs, sim)
  | Replay capture =>
      match take 1 (drop ticks capture) with
      | [] => (None, sim)
      | rs => (Some rs, sim)
      end
  end.

Definition below_max (max_ticks : option nat) (ticks : nat) : bool :=
  match max_ticks with None => true | Some m => bool_decide (ticks < m) end.

(** The turns of the loop; [stop n] is the answer of the n-th call of [stop], the first one
    before the loop.  [None]: more turns than [fuel]. *)
Fixpoint drive_loop (fuel : nat) (src : source) (interval : timedelta) (stop : nat → bool)
    (max_ticks : option nat) (pr : Progress) : option (result unit * Progress) :=
  match fuel with
  | O => None
  | S fuel =>
      if negb (stop (pr_ticks pr)) && below_max max_ticks (pr_ticks pr) then
        match tick_readings src interval (pr_ticks pr) (pr_simulator pr) with
        | (None, _) => Some (Ok tt, pr)
        | (Some rs, sim) =>
            match send_all rs (pr_publisher pr) with
            | (Raise e, p) =>
                Some (Raise e, mkProgress (pr_ticks pr) (pr_sent pr) (pr_waits pr) sim p)
            | (Ok _, p) =>
                let ticks := S (pr_ticks pr) in
                let sent := pr_sent pr + length rs in
                if stop ticks || negb (below_max max_ticks ticks)
                then Some (Ok tt, mkProgress ticks sent (pr_waits pr) sim p)
                else drive_loop fuel src interval stop max_ticks
                  (mkProgress ticks sent (S (pr_waits pr)) sim p)
            end
        end
      else Some (Ok tt, pr)
  end.

(** [drive]: the loop, then the flush and the stop of the publisher.  A send that raises
    passes both by. *)
Definition drive (fuel : nat) (src : source) (interval : timedelta) (stop : nat → bool)
    (max_ticks : option nat) (sim : SensorSimulator) (p : P) : option (result (nat * nat) * Progress) :=
  '(r, pr) ← drive_loop fuel src interval stop max_ticks (mkProgress 0 0 0 sim p);
  Some match r with
  | Raise e => (Raise e, pr)
  | Ok _ =>
      let close p := mkProgress (pr_ticks pr) (pr_sent pr) (pr_waits pr) (pr_simulator pr) p in
      match pub_flush publisher (pr_publisher pr) with
      | (Raise e, p) => (Raise e, close p)
      | (Ok _, p) =>
          match pub_stop publisher p with
          | (Raise e, p) => (Raise e, close p)
          | (Ok _, p) => (Ok (pr_ticks pr, pr_sent pr), close p)
          end
      end
  end.

End Drive.

(** ** Lemmas *)

(** The text of a capture: one line per reading. *)
Definition capture (rs : list Reading) : text := concat ((λ r, to_json r ++ [LF]) <$> rs).

Definition never : nat → bool := λ _, false.

Context {maths : Maths} {rand : Random} {laws : ReadingJsonLaws rj}.

Lemma rounded_twice r : rounded (rounded r) = rounded r.
Proof. unfold rounded. cbn. by rewrite !round3_again. Qed.

Lemma to_json_rounded r : to_json (rounded r) = to_json r.
Proof. unfold to_json. by rewrite rounded_twice. Qed.

Lemma capture_app rs1 rs2 : capture (rs1 ++ rs2) = capture rs1 ++ capture rs2.
Proof. unfold capture. by rewrite fmap_app, concat_app. Qed.

Lemma capture_rounded rs : capture (rounded <$> rs) = capture rs.
Proof.
  unfold capture. rewrite <- list_fmap_compose. f_equal. apply list_fmap_ext. intros _ r _. cbn.
  by rewrite to_json_rounded.
Qed.

Lemma load_lines_capture rs : load_lines (to_json <$> rs) = Ok (rounded <$> rs).
Proof.
  induction rs as [|r rs IH]; [done|]. rewrite fmap_cons. cbn [load_lines].
  rewrite bool_decide_false by apply dumped_not_blank. change (reading_loads (to_json r)) with (reading_loads (reading_dumps (rounded r))).
  rewrite dumped_loads. cbn [mbind result_bind]. by rewrite IH.
Qed.

(** A capture is read back whole, rounded as it was written. *)
Lemma load_capture rs : rs ≠ [] → load_replay (capture rs) = Ok (rounded <$> rs).
Proof.
  intros Hne. unfold load_replay, capture.
  assert (concat ((λ r, to_json r ++ [LF]) <$> rs) = concat ((λ l, l ++ [LF]) <$> (to_json <$> rs))) as ->.
  { by rewrite <- list_fmap_compose. }
  rewrite splitlines_lines by (apply Forall_fmap, Forall_true; intros r; apply dumped_line).
  rewrite load_lines_capture. cbn. by destruct rs.
Qed.

Lemma send_all_journal rs stream : send_all JournalPublisher rs stream = (Ok tt, stream ++ capture rs).
Proof.
  revert stream. induction rs as [|r rs IH]; intros stream; cbn.
  { by rewrite app_nil_r. }
  rewrite IH. unfold capture. cbn. by rewrite <- !app_assoc.
Qed.

(** The readings of [n] ticks from the k-th, and the simulator after them. *)
Fixpoint live_readings (started_at : datetime) (interval : timedelta) (k n : nat)
    (sim : SensorSimulator) : list Reading * SensorSimulator :=
  match n with
  | O => ([], sim)
  | S n =>
      let '(rs, sim) := readings sim (started_at + Z.of_nat k * interval)%Z in
      let '(rest, sim) := live_readings started_at interval (S k) n sim in
      (rs ++ rest, sim)
  end.

Lemma drive_live started_at interval n k sent waits sim stream :
  let '(rs, sim') := live_readings started_at interval k (S n) sim in
  drive_loop JournalPublisher (S (S n)) (Live started_at) interval never (Some (k + S n))
    (mkProgress k sent waits sim stream) =
  Some (Ok tt, mkProgress (k + S n) (sent + length rs) (waits + n) sim' (stream ++ capture rs)).
Proof.
  revert k sent waits sim stream. induction n as [|n IH]; intros k sent waits sim stream.
  - cbn [live_readings drive_loop pr_ticks never]. unfold below_max.
    rewrite bool_decide_true by lia. cbn [negb andb tick_readings pr_simulator].
    destruct (readings sim _) as [rs sim1]. cbn [pr_publisher]. rewrite send_all_journal.
    rewrite bool_decide_false by lia. cbn [negb orb pr_sent pr_waits never].
    rewrite app_nil_r, Nat.add_0_r, Nat.add_1_r. done.
  - change (live_readings started_at interval k (S (S n)) sim) with
      (let '(rs, sim) := readings sim (started_at + Z.of_nat k * interval)%Z in
       let '(rest, sim) := live_readings started_at interval (S k) (S n) sim in (rs ++ rest, sim)).
    remember (S n) as m eqn:Em. remember (S m) as f eqn:Ef.
    cbn [drive_loop pr_ticks never]. unfold below_max at 1.
    rewrite bool_decide_true by lia. cbn [negb andb tick_readings pr_simulator].
    destruct (readings sim _) as [rs sim1]. cbn [pr_publisher]. rewrite send_all_journal.
    unfold below_max at 1. rewrite bool_decide_true by lia. cbn [negb orb pr_sent pr_waits never].
    specialize (IH (S k) (sent + length rs) (S waits) sim1 (stream ++ capture rs)). subst f.
    destruct (live_readings started_at interval (S k) m sim1) as [rest sim2].
    replace (k + S m) with (S k + m) by lia. cbn [andb]. rewrite IH.
    rewrite capture_app, <- app_assoc, length_app. do 3 f_equal; lia.
Qed.

Lemma drive_replay interval n k capture_ sent waits sim stream :
  length capture_ = k + n →
  drive_loop JournalPublisher (S n) (Replay capture_) interval never None
    (mkProgress k sent waits sim stream) =
  Some (Ok tt, mkProgress (k + n) (sent + n) (waits + n) sim
    (stream ++ capture (drop k capture_))).
Proof.
  revert k sent waits stream. induction n as [|n IH]; intros k sent waits stream Hl.
  - cbn [drive_loop pr_ticks never below_max negb andb tick_readings].
    rewrite drop_ge by lia. cbn. by rewrite !Nat.add_0_r, app_nil_r.
  - remember (S n) as m eqn:Em. cbn [drive_loop pr_ticks never below_max negb andb tick_readings].
    destruct (drop k capture_) as [|r rest] eqn:Ed.
    { apply (f_equal length) in Ed. rewrite length_drop in Ed. cbn in Ed. lia. }
    cbn [take pr_publisher]. rewrite send_all_journal. cbn [orb pr_sent pr_waits pr_simulator length].
    subst m. specialize (IH (S k) (sent + 1) (S waits) (stream ++ capture [r])).
    cbn [negb andb never]. change (take 0 rest) with (@nil Reading). cbn [length]. rewrite IH by lia.
    assert (drop (S k) capture_ = rest) as ->.
    { rewrite <- Nat.add_1_r, <- drop_drop, Ed. done. }
    rewrite <- app_assoc. change (r :: rest) with ([r] ++ rest). rewrite capture_app.
    do 3 f_equal; lia.
Qed.

(** *** What the platform receives *)

(** The document a reading becomes on the topic. *)
Definition document_of (r : Reading) : RawDocument :=
  mkRawDocument (rd_sensor_id r) (rd_recorded_at r) (round3 (rd_moisture r))
    (round3 (rd_temperature r)) (round3 (rd_light r)).

Lemma pos_compare_above a b m : (b < a)%positive → (a ?= m)%positive ≠ Gt → (b ?= m)%positive = Lt.
Proof. intros Hba Ha. apply Pos.compare_lt_iff. eapply Pos.lt_le_trans; [exact Hba|exact Ha]. Qed.

Lemma far_above_the_threshold x :
  float_le OVERWATERING_FLOOR x = true → float_lt MOISTURE_HIGH_THRESHOLD x = true.
Proof.
  unfold float_le, float_lt, SFleb, SFltb, SFcompare.
  change OVERWATERING_FLOOR with (S754_finite false 6473924464345088 (-46)).
  change MOISTURE_HIGH_THRESHOLD with (S754_finite false 5629499534213120 (-46)).
  destruct x as [s|s| |s m e]; try destruct s; try done.
  destruct (Z.compare (-46) e); try done. change (Pos.compare_cont Eq ?a ?b) with (a ?= b)%positive.
  intros H. rewrite (pos_compare_above 6473924464345088); [done|lia|]. by intros E; rewrite E in H.
Qed.

Lemma above_positive a b x :
  float_le (S754_finite false a b) x = true → float_le (float_of_Z 0) x = true.
Proof. by destruct x as [[]|[]| |[]]. Qed.

(** What a sensor says is in the range it is cut to, unless it is not a number. *)
Lemma noise_within v p low high rng noisy rng' :
  with_noise v p low high rng = (noisy, rng') → is_nan noisy = false →
  is_nan low = false → is_nan high = false → float_le low high = true →
  float_le low noisy = true ∧ float_le noisy high = true.
Proof.
  destruct (with_noise_draws p rng) as (noise & rng1 & ->). intros [= <- _] Hn Hl Hh Hlh.
  apply clamped; try done. destruct (is_nan (shifted noise v)) eqn:E; [|done].
  by rewrite (clamped_nan _ low high E) in Hn.
Qed.

Lemma silent_scenario s elapsed index :
  s ∈ SCENARIOS → emits s elapsed index = false → s = SENSOR_FAILURE_SCENARIO.
Proof.
  unfold SCENARIOS. rewrite !elem_of_cons. by intros [->|[->|[->|[->|[->|[]%elem_of_nil]]]]].
Qed.

(** ** Theorems *)

(** [C37] Whatever the noise, every reading of the five scenarios is one the platform takes:
    published under the default light, it passes the domain's validation unless one of its
    values is not a number; only [sensor_failure] ever withholds one; and a reading of
    [overwatering] always carries the alert for wet soil. *)
Theorem simulated_readings_accepted (c : SensorSimulatorConfig) (elapsed : timedelta)
    (instant : datetime) (index : nat) (state : SensorState) :
  cf_scenario c ∈ SCENARIOS → cf_peak_lux c = DEFAULT_LIGHT_LUX →
  match step c elapsed instant index state with
  | (_, None) => cf_scenario c = SENSOR_FAILURE_SCENARIO
  | (_, Some r) =>
      is_nan (rd_moisture r) || is_nan (rd_temperature r) || is_nan (rd_light r) = true ∨
      ∃ raw, RawReading_validate (document_of r) = Ok raw ∧
        raw_sensor_id raw = st_sensor_id state ∧ raw_recorded_at raw = instant ∧
        (cf_scenario c = OVERWATERING_SCENARIO → ∀ plant_id,
          SoilMoistureHigh (Uuid (raw_sensor_id raw)) plant_id (raw_moisture raw)
            MOISTURE_HIGH_THRESHOLD
            ∈ reading_event_bodies (Uuid (raw_sensor_id raw)) plant_id (raw_reading raw))
  end.
Proof.
  intros Hs Hpeak. unfold step. destruct (emits (cf_scenario c) elapsed index) eqn:Hem; cbn [negb].
  2:{ by eapply silent_scenario. }
  cbn [conditions cd_moisture_floor cd_temperature cd_light_multiplier]. rewrite Hpeak.
  destruct (with_noise _ _ (py_max _ _) _ _) as [m rng1] eqn:Em.
  destruct (with_noise _ _ _ _ rng1) as [t rng2] eqn:Et.
  destruct (with_noise _ _ _ _ rng2) as [l rng3] eqn:El. cbn [rd_moisture rd_temperature rd_light].
  destruct (is_nan m) eqn:Nm; [by left|]. destruct (is_nan t) eqn:Nt; [by left|].
  destruct (is_nan l) eqn:Nl; [by left|]. right.
  apply noise_within in Et as [Ht1 Ht2]; [|done..]. apply noise_within in El as [Hl1 _]; [|done..].
  assert (float_le (float_of_Z 0) m = true ∧ float_le m (float_of_Z 100) = true ∧
    (cf_scenario c = OVERWATERING_SCENARIO → float_le OVERWATERING_FLOOR m = true)) as (Hm1 & Hm2 & Hm3).
  { assert (∃ a b, py_max (sc_moisture_floor (cf_scenario c)) (float_of_Z 0) = S754_finite false a b ∧
      is_nan (S754_finite false a b) = false ∧ float_le (S754_finite false a b) MOISTURE_MAX = true ∧
      (cf_scenario c = OVERWATERING_SCENARIO → S754_finite false a b = OVERWATERING_FLOOR))
      as (a & b & Elow & Ha & Hb & Hover).
    { unfold SCENARIOS in Hs. rewrite !elem_of_cons in Hs.
      destruct Hs as [E|[E|[E|[E|[E|[]%elem_of_nil]]]]]; rewrite E; do 2 eexists; by split_and!. }
    rewrite Elow in Em. apply noise_within in Em as [Hm1 Hm2]; [|done..].
    split_and!; [by eapply above_positive|done|]. intros E. by rewrite <- Hover. }
  unfold RawReading_validate, document_of, Moisture_validate, Temperature_validate, LightLevel_validate.
  cbn [doc_moisture doc_temperature doc_light rd_moisture rd_temperature rd_light].
  rewrite !round3_above, !round3_below by done. cbn [andb mbind result_bind].
  eexists. split; [done|]. split_and!; [done|done|]. intros Hover plant_id.
  unfold reading_event_bodies. rewrite !elem_of_app. right. right. left.
  cbn. rewrite far_above_the_threshold; [by left|]. by apply round3_above, Hm3.
Qed.

(** [C38] A dry run is a recording: a run of [n] ticks ends, and writes one line per reading
    of its simulator; the capture loads, and driving the replay ends after one tick per
    reading and writes the same bytes again.  A run waits between its ticks, and never after
    the last; a replay waits after its last reading too. *)
Theorem capture_replays (sim : SensorSimulator) (started_at : datetime) (interval again : timedelta)
    (n : nat) :
  (live_readings started_at interval 0 (S n) sim).1 ≠ [] →
  let rs := (live_readings started_at interval 0 (S n) sim).1 in
  ∃ run, drive JournalPublisher (S (S n)) (Live started_at) interval never (Some (S n)) sim [] =
      Some (Ok (S n, length rs), run) ∧
    pr_publisher run = capture rs ∧ pr_waits run = n ∧
    ∃ recording replay, load_replay (pr_publisher run) = Ok recording ∧
      drive JournalPublisher (S (length recording)) (Replay recording) again never None sim [] =
        Some (Ok (length rs, length rs), replay) ∧
      pr_publisher replay = pr_publisher run ∧ pr_waits replay = length rs.
Proof.
  intros Hne rs. pose proof (drive_live started_at interval n 0 0 0 sim []) as Hrun.
  destruct (live_readings started_at interval 0 (S n) sim) as [rs' sim'] eqn:El.
  cbn [fst] in *. subst rs. cbn [Nat.add] in Hrun.
  eexists. split; [unfold drive; rewrite Hrun; reflexivity|]. cbn [pr_publisher pr_waits].
  split_and!; [done|done|]. rewrite app_nil_l.
  exists (rounded <$> rs'). rewrite load_capture by done. rewrite <- (length_fmap rounded rs').
  pose proof (drive_replay again (length (rounded <$> rs')) 0 (rounded <$> rs') 0 0 sim [] eq_refl) as Hreplay.
  eexists. split; [done|]. split; [unfold drive; rewrite Hreplay; reflexivity|].
  cbn [pr_publisher pr_waits]. split; [|done].
  rewrite drop_0, app_nil_l. apply capture_rounded.
Qed.
End Json.


(** ** Concrete inputs *)

(** No light model and no noise: the sine is zero, drying halves nothing, every draw is its
    mean. *)
Definition still_maths : Maths := {|
  math_pi := float_of_Z 3; math_sin _ := float_of_Z 0; math_pow _ _ := float_of_Z 1 |}.

Definition no_noise : Random := {|
  Rng := unit; seeded _ := tt; gauss mean _ rng := (mean, rng); random_unit rng := (ratio 1 2, rng) |}.

(** Documents of digits, whose numbers are not rounded. *)
Definition float_fields (x : float) : bool + bool + (unit + bool * positive * Z) :=
  match x with
  | S754_zero s => inl (inl s)
  | S754_infinity s => inl (inr s)
  | S754_nan => inr (inl tt)
  | S754_finite s m e => inr (inr (s, m, e))
  end.

Definition fields_float (f : bool + bool + (unit + bool * positive * Z)) : float :=
  match f with
  | inl (inl s) => S754_zero s
  | inl (inr s) => S754_infinity s
  | inr (inl _) => S754_nan
  | inr (inr (s, m, e)) => S754_finite s m e
  end.

#[local] Instance float_countable : Countable float.
Proof. apply (inj_countable' float_fields fields_float). by intros []. Defined.

Definition digits_json : ReadingJson := {|
  round3 x := x;
  reading_dumps r := "0"%char :: String.list_ascii_of_string (positive_text (encode
    (rd_sensor_id r, rd_recorded_at r, rd_moisture r, rd_temperature r, rd_light r)));
  reading_loads line :=
    match decode (A := uuid * datetime * float * float * float)
        (text_positive (String.string_of_list_ascii (tail line))) with
    | Some (i, t, m, c, l) => Ok (mkReading i t m c l)
    | None => Raise ValueError
    end |}.

Lemma positive_text_digits p : Forall is_digit (String.list_ascii_of_string (positive_text p)).
Proof. induction p; constructor; try done; [by exists 1%N|by exists 0%N]. Qed.

Lemma digits_unbroken l : Forall is_digit l → unbroken l.
Proof.
  intros Hl. eapply Forall_impl; [exact Hl|]. cbn. intros c Hc%is_digit_cases. revert c Hc. apply Forall_forall.
  apply (bool_decide_unpack _). vm_compute. exact I.
Qed.

#[local] Instance digits_json_laws : ReadingJsonLaws digits_json.
Proof.
  assert (∀ r, Forall is_digit (reading_dumps (ReadingJson := digits_json) r)) as Hd.
  { intros r. constructor; [by exists 0%N|apply positive_text_digits]. }
  split.
  - intros r. apply digits_unbroken, Hd.
  - intros r. by rewrite strip_list_digits by apply Hd.
  - intros [i t m c l]. cbn.
    by rewrite String.string_of_list_ascii_of_string, text_positive_text, decode_encode.
  - done.
  - done.
  - done.
Qed.

Definition demo_simulator (s : Scenario) : SensorSimulator :=
  let c := mkSensorSimulatorConfig 2 7 s 0 (seconds 10) DEFAULT_NOISE DEFAULT_LIGHT_LUX in
  mkSensorSimulator c None (build_states (λ base name, (base + N.of_nat (String.length name))%N) c).

Lemma capture_replays_witness :
  (live_readings (maths := still_maths) (rand := no_noise) 0 (seconds 10) 0 3
    (demo_simulator NORMAL_SCENARIO)).1 ≠ [] ∧
  ∃ run, drive (maths := still_maths) (rand := no_noise)
      (JournalPublisher (rj := digits_json)) 4 (Live 0) (seconds 10) never (Some 3) (demo_simulator NORMAL_SCENARIO) [] =
    Some (Ok (3, 6), run).
Proof.
  assert ((live_readings (maths := still_maths) (rand := no_noise) 0 (seconds 10) 0 3
    (demo_simulator NORMAL_SCENARIO)).1 ≠ []) as H by (vm_compute; discriminate).
  split; [exact H|].
  destruct (capture_replays (rj := digits_json) (maths := still_maths) (rand := no_noise)
    (demo_simulator NORMAL_SCENARIO) 0 (seconds 10) (seconds 5) 2 H) as (run & Hrun & _).
  exists run. rewrite Hrun. do 4 f_equal.
Defined.

Definition soaked : SensorState := mkSensorState 5 (float_of_Z 96) (float_of_Z 19) (float_of_Z 0).

(** A sensor of [overwatering], whose soil is at 96 %. *)
Lemma simulated_readings_accepted_witness :
  OVERWATERING_SCENARIO ∈ SCENARIOS ∧
  ∃ raw, RawReading_validate (mkRawDocument 5 0 (float_of_Z 96) (float_of_Z 19) (float_of_Z 0)) = Ok raw ∧
    SoilMoistureHigh (Uuid 5) (Uuid 6) (raw_moisture raw) MOISTURE_HIGH_THRESHOLD
      ∈ reading_event_bodies (Uuid 5) (Uuid 6) (raw_reading raw).
Proof.
  assert (OVERWATERING_SCENARIO ∈ SCENARIOS) as Hs by (right; right; left).
  split; [exact Hs|].
  pose proof (simulated_readings_accepted (rj := digits_json) (maths := still_maths) (rand := no_noise)
    (sm_config (demo_simulator OVERWATERING_SCENARIO)) (seconds 10) 0 0 soaked Hs eq_refl) as H.
  assert (step (maths := still_maths) (rand := no_noise) (sm_config (demo_simulator OVERWATERING_SCENARIO))
    (seconds 10) 0 0 soaked =
    (soaked, Some (mkReading 5 0 (float_of_Z 96) (float_of_Z 19) (float_of_Z 0)))) as E
    by (vm_compute; reflexivity).
  rewrite E in H. destruct H as [H|(raw & Hraw & Hid & _ & Halert)]; [discriminate H|].
  exists raw. split; [exact Hraw|]. cbn [st_sensor_id soaked] in Hid. rewrite Hid in Halert.
  exact (Halert eq_refl (Uuid 6)).
Defined.
