(* ===== verification/Wiring.v ===== *)
(** Who hears which event, and who answers which request: the registries of the worker and
    of the admin site ([application/sagas/registry.py], [admin/projections/__init__.py]),
    the subscriptions both build from them ([workers/consumers.py],
    [admin/projections/subscriber.py]) and the registry of requests
    ([application/registry.py]). *)

From S2P Require Import Prelude Domain Catalog Telemetry Topics Rows Database UnitOfWork Repositories.
From S2P Require Import Idempotency Commands Delivery Consumers CareSagas SagaIntents SagaRows SagaBase.
From S2P Require Import SpeciesSync ReadModels Rollups Projections ReadSide NotificationStream.
From S2P Require Import SpeciesCache SagaRecovery Api Rest Grpc.

(** ** Registries *)

(** [dict.fromkeys]: the keys, each where it comes first. *)
Fixpoint dict_fromkeys (l : list string) : list string :=
  match l with
  | [] => []
  | x :: l => x :: filter (λ y, y ≠ x) (dict_fromkeys l)
  end.

(** A consumer's class: its name, the saga it triggers, and what an instance does. *)
Record ConsumerType := mkConsumerType {
  ct_class : string;
  ct_saga_name : option string;
  ct_consumer : Consumer }.

(** What a request scope resolves the consumers with. *)
Record WorkerContainer := mkWorkerContainer {
  wc_uuid5 : derived_name → uuid;
  wc_saga_uuid5 : uuid → string → uuid;
  wc_env : Env;
  wc_channel : HouseholdId → result unit;
  wc_fetch_all : result (list SpeciesRecord);
  wc_onboard_engine : uuid → OnboardPlantContext → tx unit;
  wc_sync_engine : uuid → SpeciesSyncContext → tx unit }.

Definition CONSUMER_TYPES (w : WorkerContainer) : list ConsumerType :=
  [mkConsumerType "AdaptiveWateringSaga" None (AdaptiveWateringSaga (wc_env w));
   mkConsumerType "MissedCareSaga" None (MissedCareSaga (wc_env w));
   mkConsumerType "JournalEntryConsumer" None (JournalEntryConsumer (wc_uuid5 w) (wc_env w));
   mkConsumerType "NotificationConsumer" None (NotificationConsumer (wc_uuid5 w) (wc_env w));
   mkConsumerType "NotificationPusher" None (NotificationPusher (wc_channel w));
   mkConsumerType "SpeciesCacheConsumer" None SpeciesCacheConsumer].

Definition TRIGGER_TYPES (w : WorkerContainer) : list ConsumerType :=
  [mkConsumerType "OnboardPlantTrigger" (Some "OnboardPlantSaga"%string)
     (OnboardPlantTrigger (wc_saga_uuid5 w) (wc_onboard_engine w) (wc_env w));
   mkConsumerType "SpeciesSyncTrigger" (Some "SpeciesSyncSaga"%string)
     (SpeciesSyncTrigger (wc_saga_uuid5 w) (wc_fetch_all w) (wc_sync_engine w) (wc_env w))].

Definition WORKER_CONSUMER_TYPES (w : WorkerContainer) : list ConsumerType :=
  CONSUMER_TYPES w ++ TRIGGER_TYPES w.

(** A class is known by its name. *)
Definition saga_type_named (name : string) : option string :=
  find (λ saga, bool_decide (saga = name)) SAGA_TYPES.

(** ** Subscriptions *)

Record Settings := mkSettings {
  read_side_consumer_group_prefix : string;
  worker_consumer_group_prefix : string;
  telemetry_raw_topic : string;
  telemetry_ingest_consumer_group : string }.

Definition TELEMETRY_RAW : string := "telemetry.raw".

Definition default_settings : Settings :=
  mkSettings "plantkeeper-read" "plantkeeper-worker" TELEMETRY_RAW "plantkeeper-telemetry-ingest".

Inductive offset_reset := Earliest | Latest.

Inductive Subscriber :=
  | ConsumerSubscriber (c : Consumer)
  | TelemetryIngestSubscriber
  | ProjectionSubscriber (p : Projection).

(** [broker.subscriber(...)] around a handler. *)
Record Subscription := mkSubscription {
  sb_topic : string;
  sb_group_id : string;
  sb_auto_offset_reset : offset_reset;
  sb_title : string;
  sb_description : string;
  sb_subscriber : Subscriber }.

(** [EVENT_TOPICS[event]]. *)
Definition event_topic (event : string) : result string :=
  match dict_get EVENT_TOPICS event with Some topic => Ok topic | None => Raise KeyError end.

Definition topics_for (events : list string) : result (list string) :=
  dict_fromkeys <$> mapM_result event_topic events.

Definition channel_title (topic consumer_group : string) : string :=
  (topic +:+ " to " +:+ consumer_group)%string.

(** [", ".join]. *)
Fixpoint join_with (sep : string) (l : list string) : string :=
  match l with
  | [] => ""
  | [s] => s
  | s :: l => s +:+ sep +:+ join_with sep l
  end%string.

Definition consumer_description (ct : ConsumerType) : string :=
  (ct_class ct +:+ " handles " +:+ join_with ", " (handled_types (ct_consumer ct)))%string.

Definition worker_group (st : Settings) (ct : ConsumerType) : string :=
  (worker_consumer_group_prefix st +:+ "-" +:+ consumer_name (ct_consumer ct))%string.

Definition consumer_subscription (st : Settings) (ct : ConsumerType) (topic : string) : Subscription :=
  mkSubscription topic (worker_group st ct) Earliest (channel_title topic (worker_group st ct))
    (consumer_description ct) (ConsumerSubscriber (ct_consumer ct)).

Definition register_consumers (w : WorkerContainer) (st : Settings) : result (list Subscription) :=
  concat (A := Subscription) <$> mapM_result (λ ct,
    fmap (M := list) (consumer_subscription st ct) <$> topics_for (handled_types (ct_consumer ct)))
    (WORKER_CONSUMER_TYPES w).

Definition register_telemetry_ingest (st : Settings) : Subscription :=
  mkSubscription (telemetry_raw_topic st) (telemetry_ingest_consumer_group st) Latest
    (channel_title (telemetry_raw_topic st) (telemetry_ingest_consumer_group st))
    "TelemetryIngestConsumer validates a raw measurement and stores it" TelemetryIngestSubscriber.

Definition read_group (st : Settings) (p : Projection) : string :=
  projection_group (read_side_consumer_group_prefix st) p.

Definition projection_subscription (st : Settings) (p : Projection) (topic : string) : Subscription :=
  mkSubscription topic (read_group st p) Earliest (channel_title topic (read_group st p))
    (pj_name p +:+ " projection")%string (ProjectionSubscriber p).

Definition register_projections (st : Settings) : list Subscription :=
  p ← ALL_PROJECTIONS; projection_subscription st p <$> pj_topics p.

(** Whether a subscription's handler goes on with a message: it is on the topic, and the
    handler's first test lets it through. *)
Definition takes (s : Subscription) (topic : string) (e : DomainEvent) : bool :=
  bool_decide (sb_topic s = topic) &&
  match sb_subscriber s with
  | ConsumerSubscriber c => Consumer_handles c e
  | TelemetryIngestSubscriber => true
  | ProjectionSubscriber p => Projection_handles p e
  end.

(** The two processes, and the ingress, together. *)
Definition all_subscriptions (w : WorkerContainer) (st : Settings) : result (list Subscription) :=
  worker ← register_consumers w st;
  Ok (worker ++ register_telemetry_ingest st :: register_projections st).

(** ** The registry of requests

    A request type and a handler type are known by their names. *)

Definition command_bindings : list (string * string) :=
  [("CreateHouseholdCommand", "CreateHouseholdHandler"); ("AddPlantCommand", "AddPlantHandler");
   ("RemovePlantCommand", "RemovePlantHandler"); ("MovePlantCommand", "MovePlantHandler");
   ("CreateCareScheduleCommand", "CreateCareScheduleHandler");
   ("DeleteCareScheduleCommand", "DeleteCareScheduleHandler");
   ("WaterPlantCommand", "WaterPlantHandler"); ("SkipWateringCommand", "SkipWateringHandler");
   ("RequestSpeciesSyncCommand", "RequestSpeciesSyncHandler");
   ("AddSensorCommand", "AddSensorHandler"); ("RemoveSensorCommand", "RemoveSensorHandler");
   ("AcknowledgeNotificationCommand", "AcknowledgeNotificationHandler");
   ("CreateOnboardingNotificationCommand", "CreateOnboardingNotificationHandler");
   ("DeleteNotificationCommand", "DeleteNotificationHandler");
   ("AddJournalEntryCommand", "AddJournalEntryHandler")]%string.

(** [build_command_map]. *)
Definition build_command_map : list (string * string) := command_bindings.

(** [build_request_map]: the commands, then the queries. *)
Definition build_request_map : list (string * string) :=
  command_bindings ++
  [("GetPlantQuery", "GetPlantQueryHandler"); ("ListPlantsQuery", "ListPlantsQueryHandler");
   ("GetHouseholdQuery", "GetHouseholdQueryHandler");
   ("GetTodayCareQuery", "GetTodayCareQueryHandler");
   ("ListSpeciesQuery", "ListSpeciesQueryHandler"); ("GetSpeciesQuery", "GetSpeciesQueryHandler");
   ("ListSensorsQuery", "ListSensorsQueryHandler");
   ("ListPendingNotificationsQuery", "ListPendingNotificationsHandler");
   ("GetJournalTimelineQuery", "GetJournalTimelineHandler");
   ("GetJournalAtDateQuery", "GetJournalAtDateHandler")]%string.

(** The types of the modelled requests. *)
Definition command_type (c : Command) : string :=
  match c with
  | CreateHousehold _ _ _ => "CreateHouseholdCommand"
  | AddPlant _ _ _ _ _ _ => "AddPlantCommand"
  | RemovePlant _ => "RemovePlantCommand"
  | MovePlant _ _ => "MovePlantCommand"
  | WaterPlant _ _ => "WaterPlantCommand"
  | SkipWatering _ _ => "SkipWateringCommand"
  | CreateCareSchedule _ _ _ _ => "CreateCareScheduleCommand"
  | DeleteCareSchedule _ => "DeleteCareScheduleCommand"
  | AddSensor _ _ _ _ => "AddSensorCommand"
  | RemoveSensor _ => "RemoveSensorCommand"
  | AcknowledgeNotification _ => "AcknowledgeNotificationCommand"
  | CreateOnboardingNotification _ _ _ _ _ _ => "CreateOnboardingNotificationCommand"
  | DeleteNotification _ => "DeleteNotificationCommand"
  | RequestSpeciesSync => "RequestSpeciesSyncCommand"
  end.

Definition query_type (q : Query) : string :=
  match q with
  | GetHouseholdQuery _ => "GetHouseholdQuery"
  | GetPlantQuery _ => "GetPlantQuery"
  | ListPlantsQuery _ _ => "ListPlantsQuery"
  | GetTodayCareQuery _ => "GetTodayCareQuery"
  | ListSensorsQuery _ => "ListSensorsQuery"
  | ListSpeciesQuery => "ListSpeciesQuery"
  | GetSpeciesQuery _ => "GetSpeciesQuery"
  | GetJournalTimelineQuery _ => "GetJournalTimelineQuery"
  | GetJournalAtDateQuery _ _ => "GetJournalAtDateQuery"
  end.

Definition message_type (m : Message) : string :=
  match m with MCommand c => command_type c | MQuery q => query_type q end.

(** ** Lemmas *)

Lemma dict_fromkeys_elem l x : x ∈ dict_fromkeys l ↔ x ∈ l.
Proof.
  induction l as [|y l IH]; [done|]. cbn. rewrite !elem_of_cons, list_elem_of_filter, IH.
  destruct (decide (x = y)); naive_solver.
Qed.

Lemma dict_fromkeys_NoDup l : NoDup (dict_fromkeys l).
Proof.
  induction l as [|y l IH]; [constructor|]. cbn. constructor; [|by apply NoDup_filter].
  rewrite list_elem_of_filter. naive_solver.
Qed.

Lemma event_topic_of (e : DomainEvent) topic :
  topic_for e = Ok topic ↔ event_topic (event_name (body e)) = Ok topic.
Proof. unfold topic_for, event_topic. by destruct (dict_get _ _). Qed.

Lemma mapM_result_from {A B} (f : A → result B) l l' b :
  mapM_result f l = Ok l' → b ∈ l' → ∃ a, a ∈ l ∧ f a = Ok b.
Proof.
  revert l'. induction l as [|a l IH]; cbn; intros l' H Hb.
  { injection H as <-. by apply not_elem_of_nil in Hb. }
  apply bind_Ok in H as (x & Hx & H). apply bind_Ok in H as (xs & Hxs & [= <-]).
  apply elem_of_cons in Hb as [->|Hb]; [exists a; split; [by left|done]|].
  destruct (IH xs Hxs Hb) as (a' & ? & ?). exists a'. split; [by right|done].
Qed.

(** A topic of the events handled is the topic of one of them, and each has its own. *)
Lemma topics_for_elem events topics topic :
  topics_for events = Ok topics →
  (topic ∈ topics ↔ ∃ event, event ∈ events ∧ event_topic event = Ok topic).
Proof.
  unfold topics_for. intros (l & Hl & ->)%fmap_Ok_inv. rewrite dict_fromkeys_elem. split.
  - intros Ht. by eapply mapM_result_from.
  - intros (event & He & Ht). destruct (mapM_result_elem _ _ _ _ Hl He) as (t & Et & Hin). congruence.
Qed.

Lemma topics_for_NoDup events topics : topics_for events = Ok topics → NoDup topics.
Proof. intros (l & _ & ->)%fmap_Ok_inv. apply dict_fromkeys_NoDup. Qed.

(** *** The worker's subscriptions *)

Lemma handled_types_catalogued w ct event :
  ct ∈ WORKER_CONSUMER_TYPES w → event ∈ handled_types (ct_consumer ct) → event ∈ EVENT_TYPES.
Proof.
  intros Hct He. assert (Forall (λ ct, Forall (λ n, n ∈ EVENT_TYPES) (handled_types (ct_consumer ct)))
    (WORKER_CONSUMER_TYPES w)) as H.
  { repeat constructor; apply (bool_decide_unpack _); vm_compute; exact I. }
  rewrite Forall_forall in H. specialize (H ct Hct). rewrite Forall_forall in H. by apply H.
Qed.

Lemma event_topic_catalogued event : event ∈ EVENT_TYPES → ∃ topic, event_topic event = Ok topic.
Proof.
  intros He. assert (Forall (λ n, is_ok (event_topic n) = true) EVENT_TYPES) as H by
    (apply (bool_decide_unpack _); vm_compute; exact I).
  rewrite Forall_forall in H. specialize (H _ He). destruct (event_topic event); [by eexists|done].
Qed.

Lemma topics_for_handled w ct : ct ∈ WORKER_CONSUMER_TYPES w →
  ∃ topics, topics_for (handled_types (ct_consumer ct)) = Ok topics.
Proof.
  intros Hct. unfold topics_for.
  destruct (mapM_result_total event_topic (handled_types (ct_consumer ct))) as [l ->]; [|by eexists].
  intros event He. destruct (event_topic_catalogued event) as [t ->]; [|done].
  by eapply handled_types_catalogued.
Qed.

Lemma register_consumers_Ok w st : ∃ subs, register_consumers w st = Ok subs ∧
  ∀ s, s ∈ subs ↔ ∃ ct topics topic, ct ∈ WORKER_CONSUMER_TYPES w ∧
    topics_for (handled_types (ct_consumer ct)) = Ok topics ∧ topic ∈ topics ∧
    s = consumer_subscription st ct topic.
Proof.
  unfold register_consumers. set (f := λ ct : ConsumerType, _).
  destruct (mapM_result_total f (WORKER_CONSUMER_TYPES w)) as [l Hl].
  { intros ct Hct. subst f. cbn. by destruct (topics_for_handled w ct Hct) as [topics ->]. }
  rewrite Hl. eexists. split; [reflexivity|]. intros s. rewrite list_elem_of_In, in_concat. split.
  - intros (block & Hb%list_elem_of_In & Hs%list_elem_of_In).
    destruct (mapM_result_from _ _ _ _ Hl Hb) as (ct & Hct & Hf). subst f. cbn in Hf.
    apply fmap_Ok_inv in Hf as (topics & Ht & ->). apply list_elem_of_fmap in Hs as (topic & -> & Hin).
    by exists ct, topics, topic.
  - intros (ct & topics & topic & Hct & Ht & Hin & ->).
    destruct (mapM_result_elem _ _ _ _ Hl Hct) as (block & Hf & Hb). subst f. cbn in Hf.
    rewrite Ht in Hf. injection Hf as <-. exists (consumer_subscription st ct <$> topics).
    split; apply list_elem_of_In; [done|]. apply list_elem_of_fmap. by exists topic.
Qed.

(** The name a group's identifier ends with, and where it listens. *)
Definition worker_channels : list (string * string) :=
  [(TELEMETRY_EVENTS, "adaptive-watering"); (CARE_EVENTS, "missed-care");
   (GARDEN_EVENTS, "journal-entries"); (CARE_EVENTS, "journal-entries");
   (GARDEN_EVENTS, "notifications"); (CARE_EVENTS, "notifications");
   (TELEMETRY_EVENTS, "notifications"); (NOTIFICATIONS_EVENTS, "notification-push");
   (CATALOG_EVENTS, "species-cache"); (GARDEN_EVENTS, "onboard-plant");
   (CATALOG_EVENTS, "species-sync")]%string.

Definition read_channels : list (string * string) :=
  [(GARDEN_EVENTS, "garden"); (CARE_EVENTS, "care"); (CATALOG_EVENTS, "catalog");
   (NOTIFICATIONS_EVENTS, "notifications"); (JOURNAL_EVENTS, "journal");
   (TELEMETRY_EVENTS, "telemetry-rollup")]%string.

Definition channel_of (s : Subscription) : string * string := (sb_topic s, sb_group_id s).

Definition prefixed (prefix : string) (tn : string * string) : string * string :=
  (tn.1, prefix +:+ "-" +:+ tn.2)%string.

#[export] Instance prefixed_inj prefix : Inj (=) (=) (prefixed prefix).
Proof.
  intros [t1 n1] [t2 n2]. unfold prefixed. cbn. intros H. simplify_eq. done.
Qed.

Lemma worker_channels_eq w st subs : register_consumers w st = Ok subs →
  channel_of <$> subs = prefixed (worker_consumer_group_prefix st) <$> worker_channels.
Proof. intros [= <-]. reflexivity. Qed.

Lemma read_channels_eq st :
  channel_of <$> register_projections st = prefixed (read_side_consumer_group_prefix st) <$> read_channels.
Proof. reflexivity. Qed.

(** *** Who hears an event *)

Definition heard (w : WorkerContainer) (e : DomainEvent) : bool :=
  existsb (λ ct, Consumer_handles (ct_consumer ct) e) (WORKER_CONSUMER_TYPES w) ||
  existsb (λ p, Projection_handles p e) ALL_PROJECTIONS.

Lemma heard_unless_saga w e : heard w e = negb (bool_decide (topic_for e = Ok SAGA_EVENTS)).
Proof. destruct e as [i t b]. destruct b; reflexivity. Qed.

Lemma projection_topics p e topic :
  p ∈ ALL_PROJECTIONS → Projection_handles p e = true → topic_for e = Ok topic → topic ∈ pj_topics p.
Proof.
  destruct e as [i t b]. unfold ALL_PROJECTIONS. rewrite !elem_of_cons, elem_of_nil.
  intros Hp Hh Ht. destruct b; injection Ht as <-;
    destruct Hp as [->|[->|[->|[->|[->|[->|[]]]]]]]; try discriminate Hh; by left.
Qed.

Lemma handled_topic w ct e topics topic :
  ct ∈ WORKER_CONSUMER_TYPES w → topics_for (handled_types (ct_consumer ct)) = Ok topics →
  topic_for e = Ok topic → Consumer_handles (ct_consumer ct) e = true → topic ∈ topics.
Proof.
  intros Hct Ht He Hh. apply (topics_for_elem _ _ _ Ht). exists (event_name (body e)).
  split; [by apply bool_decide_eq_true in Hh|by apply event_topic_of].
Qed.

Lemma register_projections_elem st s :
  s ∈ register_projections st ↔
  ∃ p topic, p ∈ ALL_PROJECTIONS ∧ topic ∈ pj_topics p ∧ s = projection_subscription st p topic.
Proof.
  unfold register_projections. rewrite list_elem_of_bind. split.
  - intros (p & (topic & -> & Ht)%list_elem_of_fmap & Hp). eauto.
  - intros (p & topic & Hp & Ht & ->). exists p. split; [|done]. apply list_elem_of_fmap. eauto.
Qed.

(** ** Theorems *)

(** [C5] Every event is offered to whoever handles it: registering the worker's consumers
    finds a topic for everything they declare; no group listens twice on a topic, on either
    side; for each consumer of the worker and each projection of the admin site that handles
    an event there is a subscription of its own, on the topic the event is published to,
    whose handler lets it through; and nobody hears an event exactly when it is one of a
    saga's lifecycle. *)
Theorem subscriptions_reach_handlers (w : WorkerContainer) (st : Settings) (e : DomainEvent) :
  ∃ topic worker, topic_for e = Ok topic ∧ register_consumers w st = Ok worker ∧
    NoDup (channel_of <$> worker) ∧ NoDup (channel_of <$> register_projections st) ∧
    (∀ ct, ct ∈ WORKER_CONSUMER_TYPES w → Consumer_handles (ct_consumer ct) e = true →
      ∃ s, s ∈ worker ∧ sb_subscriber s = ConsumerSubscriber (ct_consumer ct) ∧
        sb_group_id s = worker_group st ct ∧ takes s topic e = true) ∧
    (∀ p, p ∈ ALL_PROJECTIONS → Projection_handles p e = true →
      ∃ s, s ∈ register_projections st ∧ sb_subscriber s = ProjectionSubscriber p ∧
        sb_group_id s = read_group st p ∧ takes s topic e = true) ∧
    ((∀ s, s ∈ worker ++ register_projections st → takes s topic e = false) ↔ topic = SAGA_EVENTS).
Proof.
  destruct (topic_of e) as [topic Ht]. destruct (register_consumers_Ok w st) as (worker & Hw & Hin).
  exists topic, worker. split; [done|]. split; [done|].
  assert (∀ ct, ct ∈ WORKER_CONSUMER_TYPES w → Consumer_handles (ct_consumer ct) e = true →
    ∃ s, s ∈ worker ∧ sb_subscriber s = ConsumerSubscriber (ct_consumer ct) ∧
      sb_group_id s = worker_group st ct ∧ takes s topic e = true) as Hcs.
  { intros ct Hct Hh. destruct (topics_for_handled w ct Hct) as [topics Htopics].
    exists (consumer_subscription st ct topic). split_and!; try done.
    - apply Hin. exists ct, topics, topic. split_and!; try done. by eapply handled_topic.
    - unfold takes. cbn. by rewrite bool_decide_true. }
  assert (∀ p, p ∈ ALL_PROJECTIONS → Projection_handles p e = true →
    ∃ s, s ∈ register_projections st ∧ sb_subscriber s = ProjectionSubscriber p ∧
      sb_group_id s = read_group st p ∧ takes s topic e = true) as Hps.
  { intros p Hp Hh. exists (projection_subscription st p topic). split_and!; try done.
    - apply register_projections_elem. exists p, topic. split_and!; try done. by eapply projection_topics.
    - unfold takes. cbn. by rewrite bool_decide_true. }
  split_and!; [| |done|done|].
  - rewrite (worker_channels_eq _ _ _ Hw). apply NoDup_fmap_2; [apply _|]. apply (bool_decide_unpack _); vm_compute; exact I.
  - rewrite read_channels_eq. apply NoDup_fmap_2; [apply _|]. apply (bool_decide_unpack _); vm_compute; exact I.
  - assert (heard w e = false ↔ topic = SAGA_EVENTS) as <-.
    { rewrite heard_unless_saga, negb_false_iff, bool_decide_eq_true, Ht. naive_solver. }
    unfold heard. rewrite orb_false_iff. split.
    + intros Hnone. split; apply not_true_iff_false; intros (x & Hx%list_elem_of_In & Hh)%existsb_exists.
      * destruct (Hcs x Hx Hh) as (s & Hs & _ & _ & Htakes). rewrite Hnone in Htakes; [done|apply elem_of_app; by left].
      * destruct (Hps x Hx Hh) as (s & Hs & _ & _ & Htakes). rewrite Hnone in Htakes; [done|apply elem_of_app; by right].
    + intros [Hc Hp] s [Hs|Hs]%elem_of_app; apply not_true_iff_false; intros Htakes.
      * apply Hin in Hs as (ct & topics & t & Hct & _ & _ & ->). apply andb_true_iff in Htakes as [_ Hh].
        apply not_true_iff_false in Hc. destruct Hc. apply existsb_exists. exists ct.
        split; [by apply list_elem_of_In|done].
      * apply register_projections_elem in Hs as (p & t & Hp' & _ & ->).
        apply andb_true_iff in Htakes as [_ Hh]. apply not_true_iff_false in Hp. destruct Hp.
        apply existsb_exists. exists p. split; [by apply list_elem_of_In|done].
Qed.

(** With the defaults no group of one process is a group of another, and the raw topic
    carries no event. *)
Lemma default_groups_apart w worker : register_consumers w default_settings = Ok worker →
  NoDup (remove_dups (sb_group_id <$> worker) ++
    telemetry_ingest_consumer_group default_settings ::
    remove_dups (sb_group_id <$> register_projections default_settings)) ∧
  ∀ e, topic_for e ≠ Ok (telemetry_raw_topic default_settings).
Proof.
  intros H. split; [injection H as <-; apply (bool_decide_unpack _); vm_compute; exact I|].
  intros e Ht. destruct e as [i t b]. destruct b; discriminate Ht.
Qed.

(** Every request that reaches the mediator is bound to one handler, and every command to
    the same handler in the dispatcher's narrower map, which has no query. *)
Lemma requests_bound :
  NoDup build_request_map.*1 ∧
  (∀ m, ∃ handler, dict_get build_request_map (message_type m) = Some handler) ∧
  (∀ c, dict_get build_command_map (command_type c) = dict_get build_request_map (command_type c)) ∧
  (∀ q, dict_get build_command_map (query_type q) = None).
Proof.
  split; [apply (bool_decide_unpack _); vm_compute; exact I|]. split_and!.
  - intros [c|q]; [destruct c|destruct q]; by eexists.
  - by intros [].
  - by intros [].
Qed.
