(* ===== verification/Catalogue.v ===== *)
(** The contract catalogue ([infrastructure/contracts/catalogue.py]): a row per event, and
    the event-flow diagram that is checked in under [docs/diagrams]. *)

From S2P Require Import Prelude Domain Topics Rows Database Relay Delivery SagaIntents ReadModels.
From S2P Require Import Projections ReadSide Api Wiring.
From Stdlib Require Import Ascii.

(** ** Python's containers *)

(** [str.split(sep)]. *)
Fixpoint split_on (sep : ascii) (s : string) : list string :=
  match s with
  | EmptyString => [""%string]
  | String c s =>
      if bool_decide (c = sep) then ""%string :: split_on sep s
      else match split_on sep s with
           | [] => [String c EmptyString]
           | word :: words => String c word :: words
           end
  end.

(** [l[n]]. *)
Definition list_item {A} (l : list A) (n : nat) : result A :=
  match l !! n with Some x => Ok x | None => Raise IndexError end.

(** [d[k].append(v)] on a [defaultdict(list)]. *)
Fixpoint dict_append {K V} `{EqDecision K} (d : list (K * list V)) (k : K) (v : V) :
    list (K * list V) :=
  match d with
  | [] => [(k, [v])]
  | (k', vs) :: d => if decide (k' = k) then (k', vs ++ [v]) :: d else (k', vs) :: dict_append d k v
  end.

(** The order of strings, of pairs by their first component, and [sorted]. *)
Definition string_le : relation string := λ s t, String.leb s t = true.
Definition pair_le : relation (string * string) := λ a b,
  if decide (a.1 = b.1) then string_le a.2 b.2 else string_le a.1 b.1.
#[export] Instance string_le_dec s t : Decision (string_le s t).
Proof. unfold string_le. apply _. Defined.
#[export] Instance pair_le_dec a b : Decision (pair_le a b).
Proof. unfold pair_le. destruct (decide (a.1 = b.1)); apply _. Defined.

Definition sorted_by {A} (key : A → string) : list A → list A :=
  merge_sort (λ a b, string_le (key a) (key b)).
Definition sorted_strings : list string → list string := sorted_by id.
Definition sorted_pairs {A} (key : A → string * string) : list A → list A :=
  merge_sort (λ a b, pair_le (key a) (key b)).

(** ** Contexts and producers *)

Definition EVENT_CONTEXTS : list (string * string) :=
  [("garden", "Garden"); ("care", "Care"); ("catalog", "Catalog"); ("journal", "Journal");
   ("telemetry", "Telemetry"); ("notifications", "Notifications"); ("saga", "Saga")]%string.

Definition PRODUCER_OUTBOX_RELAY : string := "Outbox relay".
Definition PRODUCER_TELEMETRY_INGRESS : string := "Telemetry ingress".
Definition PRODUCER_SAGA_ENGINE : string := "Saga engine".

Definition CONSUMER_CONTEXTS : list (string * string) :=
  [("adaptive-watering", "Care"); ("missed-care", "Care"); ("journal-entries", "Journal");
   ("notifications", "Notifications"); ("notification-push", "Notifications");
   ("species-cache", "Catalog"); ("onboard-plant", "Garden"); ("species-sync", "Catalog");
   ("garden", "Analytics"); ("care", "Analytics"); ("catalog", "Analytics");
   ("journal", "Analytics")]%string.

(** [event.__module__]: the module of [plantkeeper.domain] each class is imported from. *)
Definition event_module (event : string) : string :=
  (if bool_decide (event ∈ ["PlantAdded"; "PlantMoved"; "PlantOnboarded"; "PlantRemoved"])
   then "plantkeeper.domain.garden.events"
   else if bool_decide (event ∈ ["CareMissed"; "CareScheduleCreated"; "CareSkipped";
     "WateringCompleted"; "WateringDue"; "WateringRescheduled"])
   then "plantkeeper.domain.care.events"
   else if bool_decide (event ∈ ["SpeciesAdded"; "SpeciesCacheInvalidated";
     "SpeciesSyncRequested"; "SpeciesUpdated"])
   then "plantkeeper.domain.catalog.events"
   else if bool_decide (event ∈ ["JournalEntryAdded"]) then "plantkeeper.domain.journal.events"
   else if bool_decide (event ∈ ["NotificationCreated"; "NotificationRead"])
   then "plantkeeper.domain.notifications.events"
   else if bool_decide (event ∈ ["SensorOffline"; "SoilMoistureHigh"; "SoilMoistureLow";
     "TelemetryReceived"; "TemperatureAnomaly"])
   then "plantkeeper.domain.telemetry.events"
   else "plantkeeper.domain.saga.events")%string.

Definition event_context (event : string) : result string :=
  segment ← list_item (split_on "."%char (event_module event)) 2;
  match dict_get EVENT_CONTEXTS segment with
  | Some context => Ok context
  | None => Raise KeyError
  end.

Definition producer_of (event : string) : result string :=
  context ← event_context event;
  if bool_decide (context = "Saga"%string) then Ok PRODUCER_SAGA_ENGINE
  else if bool_decide (event = "TelemetryReceived"%string) then Ok PRODUCER_TELEMETRY_INGRESS
  else Ok PRODUCER_OUTBOX_RELAY.

(** ** Consumers

    A dictionary from an event to its consumers, each a label and the suffix of its group. *)
Abbreviation consumer_dict := (list (string * list (string * string))) (only parsing).

Definition add_consumer (consumers : consumer_dict) (ct : ConsumerType) (label : string) :
    consumer_dict :=
  foldl (λ d event, dict_append d event (label, consumer_name (ct_consumer ct))) consumers
    (handled_types (ct_consumer ct)).

(** A trigger is listed under the saga it starts. *)
Definition trigger_label (ct : ConsumerType) : string :=
  match ct_saga_name ct ≫= saga_type_named with
  | Some saga => (saga +:+ " via " +:+ consumer_name (ct_consumer ct))%string
  | None => consumer_name (ct_consumer ct)
  end.

Definition write_side_consumers (w : WorkerContainer) : consumer_dict :=
  let consumers := foldl (λ d ct, add_consumer d ct (consumer_name (ct_consumer ct))) [] (CONSUMER_TYPES w) in
  foldl (λ d ct, add_consumer d ct (trigger_label ct)) consumers (TRIGGER_TYPES w).

(** A projection as the catalogue sees it: its name and the keys of its [handlers]. *)
Record ProjectionLike := mkProjectionLike {
  pl_projection : Projection;
  pl_handlers : list string }.

Definition PROJECTIONS : list ProjectionLike :=
  [mkProjectionLike GardenProjection ["PlantAdded"; "PlantMoved"; "PlantRemoved"; "PlantOnboarded"];
   mkProjectionLike CareProjection ["CareScheduleCreated"; "WateringCompleted";
     "WateringRescheduled"; "CareSkipped"; "CareMissed"];
   mkProjectionLike SpeciesProjection ["SpeciesAdded"; "SpeciesUpdated"];
   mkProjectionLike NotificationProjection ["NotificationCreated"; "NotificationRead"];
   mkProjectionLike JournalProjection ["JournalEntryAdded"];
   mkProjectionLike Rollups.TelemetryRollupProjection ["TelemetryReceived"; "SensorOffline";
     "SoilMoistureLow"; "SoilMoistureHigh"; "TemperatureAnomaly"]]%string.

Definition read_side_consumers (projections : list ProjectionLike) : consumer_dict :=
  foldl (λ d pl, foldl (λ d event, dict_append d event
      (pj_name (pl_projection pl) +:+ " projection", pj_name (pl_projection pl))%string) d
    (pl_handlers pl)) [] projections.

(** ** The catalogue *)

Record CatalogueRow := mkCatalogueRow {
  cr_event_name : string;
  cr_topic : string;
  cr_context : string;
  cr_producer : string;
  cr_consumers : list (string * string);
  cr_payload_schema : string }.

(** [sorted({*write_side.get(event, ()), *read_side.get(event, ())})]. *)
Definition consumers_of (write_side read_side : consumer_dict) (event : string) : list (string * string) :=
  sorted_pairs id (remove_dups
    (default [] (dict_get write_side event) ++ default [] (dict_get read_side event))).

Definition catalogue_row (write_side read_side : consumer_dict) (et : string * string) :
    result CatalogueRow :=
  context ← event_context et.1;
  producer ← producer_of et.1;
  Ok (mkCatalogueRow et.1 et.2 context producer (consumers_of write_side read_side et.1)
    ("#/components/schemas/" +:+ et.1)%string).

Definition catalogue_rows (w : WorkerContainer) (projections : list ProjectionLike) :
    result (list CatalogueRow) :=
  mapM_result (catalogue_row (write_side_consumers w) (read_side_consumers projections))
    (sorted_pairs (λ et, (et.2, et.1)) EVENT_TOPICS).

(** ** The envelope *)

(** A header of the message schema: its name and its type. *)
Definition envelope_properties : list (string * string) :=
  [("event_name", "string"); ("event_id", "string"); ("schema_version", "integer");
   ("raised_by", "string"); ("correlation_id", "string"); ("causation_id", "string");
   ("traceparent", "string"); ("occurred_at", "string")]%string.

Definition envelope_required : list string := ["event_name"; "event_id"; "schema_version"]%string.

(** ** The diagram *)

Definition consumer_context (consumer_group : string) : string :=
  default "Other"%string (dict_get CONSUMER_CONTEXTS consumer_group).

Definition producer_node (producer : string) : string :=
  (if bool_decide (producer = PRODUCER_OUTBOX_RELAY) then "relay"
   else if bool_decide (producer = PRODUCER_TELEMETRY_INGRESS) then "ingress"
   else "sagas")%string.

(** [str.isalnum] of one ASCII character. *)
Definition is_alnum (c : ascii) : bool :=
  let n := N_of_ascii c in
  bool_decide (48 ≤ n ≤ 57)%N || bool_decide (65 ≤ n ≤ 90)%N || bool_decide (97 ≤ n ≤ 122)%N.

Definition node (label : string) : string :=
  String.string_of_list_ascii (List.filter is_alnum (String.list_ascii_of_string label)).

Definition dq : string := String "034"%char EmptyString.
Definition newline : string := String "010"%char EmptyString.

(** What the loop over the rows collects. *)
Record Flow := mkFlow {
  fl_producers : list (string * list (string * list string));
  fl_edges : list ((string * string) * list string);
  fl_unconsumed : list string;
  fl_same_context_only : list string }.

(** [producers[producer][topic].append(event)]. *)
Fixpoint add_producer (d : list (string * list (string * list string))) (producer topic event : string) :
    list (string * list (string * list string)) :=
  match d with
  | [] => [(producer, [(topic, [event])])]
  | (p, topics) :: d =>
      if decide (p = producer) then (p, dict_append topics topic event) :: d
      else (p, topics) :: add_producer d producer topic event
  end.

Definition crosses (row : CatalogueRow) (group : string) : bool :=
  bool_decide (consumer_context group ≠ cr_context row).

Definition flow_row (f : Flow) (row : CatalogueRow) : Flow :=
  let event := cr_event_name row in
  let consumers := cr_consumers row in
  let edges := foldl (λ edges c,
    if crosses row c.2 then dict_append edges (event, consumer_context c.2) (cr_context row)
    else edges) (fl_edges f) consumers in
  let cross_context := existsb (λ c, crosses row c.2) consumers in
  mkFlow (add_producer (fl_producers f) (cr_producer row) (cr_topic row) event) edges
    (match consumers with [] => fl_unconsumed f ++ [event] | _ => fl_unconsumed f end)
    (match consumers with
     | [] => fl_same_context_only f
     | _ => if cross_context then fl_same_context_only f else fl_same_context_only f ++ [event]
     end).

Definition flow (rows : list CatalogueRow) : Flow := foldl flow_row (mkFlow [] [] [] []) rows.

Definition note (name text : string) (events : list string) : list string :=
  match events with
  | [] => []
  | _ => [("  " +:+ name +:+ "[" +:+ dq +:+ text +:+ join_with ", " (sorted_strings events) +:+ dq +:+ "]")%string]
  end.

Definition event_flow_diagram (rows : list CatalogueRow) : string :=
  let topics := sorted_strings (remove_dups (cr_topic <$> rows)) in
  let f := flow rows in
  let lines :=
    ["```mermaid"; "graph LR"; "  subgraph produce [Producers]"] ++
    ('(producer, topics_of) ← sorted_by fst (fl_producers f);
     '(topic, events) ← sorted_by fst topics_of;
     [("    " +:+ producer_node producer +:+ " -->|" +:+ dq +:+ join_with ", " (sorted_strings events)
       +:+ dq +:+ "| " +:+ node topic)]) ++
    ((λ topic, "    " +:+ node topic +:+ "[" +:+ dq +:+ topic +:+ dq +:+ "]") <$> topics) ++
    ["  end"; "  subgraph consume [Cross-context consumers]"] ++
    ((λ edge : (string * string) * list string,
       "    " +:+ node (join_with " / " (sorted_strings (remove_dups edge.2))) +:+ " -->|" +:+ dq +:+
       edge.1.1 +:+ dq +:+ "| " +:+ node edge.1.2) <$> sorted_pairs fst (fl_edges f)) ++
    ["  end"] ++
    note "note" "consumed only inside their own context: " (fl_same_context_only f) ++
    note "note2" "no consumer at all: " (fl_unconsumed f) ++ ["```"]
  in join_with newline lines +:+ newline%string.

(** ** The checked-in diagram *)

(** A text with an apostrophe for each double quote. *)
Definition quoted (s : string) : string :=
  String.string_of_list_ascii ((λ c, if bool_decide (c = "'"%char) then "034"%char else c)
    <$> String.list_ascii_of_string s).

(** The body of [docs/diagrams/event-flow.md]. *)
Definition checked_in_diagram : string :=
  (quoted (join_with newline [
   "```mermaid";
   "graph LR";
   "  subgraph produce [Producers]";
   "    relay -->|'CareMissed, CareScheduleCreated, CareSkipped, WateringCompleted, WateringDue, WateringRescheduled'| careevents";
   "    relay -->|'SpeciesAdded, SpeciesCacheInvalidated, SpeciesSyncRequested, SpeciesUpdated'| catalogevents";
   "    relay -->|'PlantAdded, PlantMoved, PlantOnboarded, PlantRemoved'| gardenevents";
   "    relay -->|'JournalEntryAdded'| journalevents";
   "    relay -->|'NotificationCreated, NotificationRead'| notificationsevents";
   "    relay -->|'SensorOffline, SoilMoistureHigh, SoilMoistureLow, TemperatureAnomaly'| telemetryevents";
   "    sagas -->|'SagaCompensated, SagaCompleted, SagaFailed, SagaParked, SagaRetrying, SagaStarted'| sagaevents";
   "    ingress -->|'TelemetryReceived'| telemetryevents";
   "    careevents['care.events']";
   "    catalogevents['catalog.events']";
   "    gardenevents['garden.events']";
   "    journalevents['journal.events']";
   "    notificationsevents['notifications.events']";
   "    sagaevents['saga.events']";
   "    telemetryevents['telemetry.events']";
   "  end";
   "  subgraph consume [Cross-context consumers]";
   "    Care -->|'CareMissed'| Analytics";
   "    Care -->|'CareMissed'| Notifications";
   "    Care -->|'CareScheduleCreated'| Analytics";
   "    Care -->|'CareSkipped'| Analytics";
   "    Journal -->|'JournalEntryAdded'| Analytics";
   "    Garden -->|'PlantAdded'| Analytics";
   "    Garden -->|'PlantAdded'| Journal";
   "    Garden -->|'PlantAdded'| Notifications";
   "    Garden -->|'PlantMoved'| Analytics";
   "    Garden -->|'PlantMoved'| Journal";
   "    Garden -->|'PlantMoved'| Notifications";
   "    Garden -->|'PlantOnboarded'| Analytics";
   "    Garden -->|'PlantRemoved'| Analytics";
   "    Garden -->|'PlantRemoved'| Journal";
   "    Garden -->|'PlantRemoved'| Notifications";
   "    Telemetry -->|'SensorOffline'| Notifications";
   "    Telemetry -->|'SensorOffline'| Other";
   "    Telemetry -->|'SoilMoistureHigh'| Care";
   "    Telemetry -->|'SoilMoistureHigh'| Other";
   "    Telemetry -->|'SoilMoistureLow'| Notifications";
   "    Telemetry -->|'SoilMoistureLow'| Other";
   "    Catalog -->|'SpeciesAdded'| Analytics";
   "    Catalog -->|'SpeciesUpdated'| Analytics";
   "    Telemetry -->|'TelemetryReceived'| Care";
   "    Telemetry -->|'TelemetryReceived'| Other";
   "    Telemetry -->|'TemperatureAnomaly'| Notifications";
   "    Telemetry -->|'TemperatureAnomaly'| Other";
   "    Care -->|'WateringCompleted'| Analytics";
   "    Care -->|'WateringCompleted'| Journal";
   "    Care -->|'WateringDue'| Notifications";
   "    Care -->|'WateringRescheduled'| Analytics";
   "    Care -->|'WateringRescheduled'| Notifications";
   "  end";
   "  note['consumed only inside their own context: NotificationCreated, NotificationRead, SpeciesCacheInvalidated, SpeciesSyncRequested']";
   "  note2['no consumer at all: SagaCompensated, SagaCompleted, SagaFailed, SagaParked, SagaRetrying, SagaStarted']";
   "```"]) +:+ newline)%string.

Lemma diagram_as_checked_in w :
  event_flow_diagram <$> catalogue_rows w PROJECTIONS = Ok checked_in_diagram.
Proof. vm_compute. reflexivity. Qed.

(** ** Lemmas *)

(** The consumers that let an event through, by the suffix of their group. *)
Definition listeners (w : WorkerContainer) (e : DomainEvent) : list string :=
  ((λ ct, consumer_name (ct_consumer ct)) <$>
     List.filter (λ ct, Consumer_handles (ct_consumer ct) e) (WORKER_CONSUMER_TYPES w)) ++
  (pj_name <$> List.filter (λ p, Projection_handles p e) ALL_PROJECTIONS).

Definition same_members (l l' : list string) : bool :=
  forallb (λ x, bool_decide (x ∈ l')) l && forallb (λ x, bool_decide (x ∈ l)) l'.

Lemma same_members_elem l l' x : same_members l l' = true → x ∈ l ↔ x ∈ l'.
Proof.
  unfold same_members. rewrite andb_true_iff, !forallb_forall. intros [H1 H2].
  split; intros Hx%list_elem_of_In; [apply H1 in Hx|apply H2 in Hx];
    by apply bool_decide_eq_true in Hx.
Qed.

(** The row of an event says where it travels and who listens. *)
Definition row_true (w : WorkerContainer) (rows : list CatalogueRow) (e : DomainEvent) : bool :=
  match List.filter (λ row, bool_decide (cr_event_name row = event_name (body e))) rows with
  | [row] => bool_decide (topic_for e = Ok (cr_topic row)) &&
      same_members (cr_consumers row).*2 (listeners w e)
  | _ => false
  end.

Lemma catalogue_rows_true w : ∃ rows, catalogue_rows w PROJECTIONS = Ok rows ∧ ∀ e, row_true w rows e = true.
Proof.
  eexists. split; [vm_compute; reflexivity|]. intros [i t b]. destruct b; vm_compute; reflexivity.
Qed.

Lemma flow_unconsumed rows : fl_unconsumed (flow rows) =
  cr_event_name <$> List.filter (λ row, match cr_consumers row with [] => true | _ => false end) rows.
Proof.
  assert (∀ f, fl_unconsumed (foldl flow_row f rows) = fl_unconsumed f ++
    (cr_event_name <$> List.filter (λ row, match cr_consumers row with [] => true | _ => false end) rows))
    as H; [|apply H].
  induction rows as [|row rows IH]; intros f; cbn [foldl]; [by rewrite app_nil_r|].
  rewrite IH. cbn. destruct (cr_consumers row); cbn; [|done]. by rewrite <- app_assoc.
Qed.

(** A group's suffix is known from its identifier, once the side is. *)
Lemma group_suffix prefix n n' : (prefix +:+ "-" +:+ n = prefix +:+ "-" +:+ n')%string → n = n'.
Proof. intros H. by simplify_eq. Qed.

Lemma listeners_elem w st e topic worker suffix :
  topic_for e = Ok topic → register_consumers w st = Ok worker →
  suffix ∈ listeners w e ↔
  (∃ s, s ∈ worker ∧ takes s topic e = true ∧
    sb_group_id s = (worker_consumer_group_prefix st +:+ "-" +:+ suffix)%string) ∨
  (∃ s, s ∈ register_projections st ∧ takes s topic e = true ∧
    sb_group_id s = (read_side_consumer_group_prefix st +:+ "-" +:+ suffix)%string).
Proof.
  intros Ht Hw. destruct (register_consumers_Ok w st) as (worker' & Hw' & Hin).
  assert (worker' = worker) as -> by congruence. unfold listeners.
  rewrite elem_of_app, !list_elem_of_fmap. f_equiv; split.
  - intros (ct & -> & [Hct Hh]%list_elem_of_In%filter_In). apply list_elem_of_In in Hct.
    destruct (topics_for_handled w ct Hct) as [topics Htopics].
    exists (consumer_subscription st ct topic). split_and!; [|unfold takes; cbn; by rewrite bool_decide_true|done].
    apply Hin. exists ct, topics, topic. split_and!; try done. by eapply handled_topic.
  - intros (s & Hs & Htakes & Hg). apply Hin in Hs as (ct & topics & t & Hct & _ & _ & ->).
    apply andb_true_iff in Htakes as [_ Hh]. exists ct. split; [by apply group_suffix in Hg|].
    apply list_elem_of_In, filter_In. split; [by apply list_elem_of_In|done].
  - intros (p & -> & [Hp Hh]%list_elem_of_In%filter_In). apply list_elem_of_In in Hp.
    exists (projection_subscription st p topic). split_and!; [|unfold takes; cbn; by rewrite bool_decide_true|done].
    apply register_projections_elem. exists p, topic. split_and!; try done. by eapply projection_topics.
  - intros (s & Hs & Htakes & Hg). apply register_projections_elem in Hs as (p & t & Hp & _ & ->).
    apply andb_true_iff in Htakes as [_ Hh]. exists p. split; [by apply group_suffix in Hg|].
    apply list_elem_of_In, filter_In. split; [by apply list_elem_of_In|done].
Qed.

Lemma heard_listeners w e : listeners w e = [] ↔ heard w e = false.
Proof.
  unfold listeners, heard. rewrite orb_false_iff. split.
  - intros [H1 H2]%app_nil. split; apply not_true_iff_false; intros (x & Hx & Hh)%existsb_exists.
    + apply fmap_nil_inv in H1. assert (x ∈ @nil ConsumerType) as []%elem_of_nil.
      rewrite <- H1. by apply list_elem_of_In, filter_In.
    + apply fmap_nil_inv in H2. assert (x ∈ @nil Projection) as []%elem_of_nil.
      rewrite <- H2. by apply list_elem_of_In, filter_In.
  - destruct e as [i t b]. destruct b; vm_compute; by intros [].
Qed.

(** ** Theorems *)

(** [C40] The catalogue is what the platform does: it has exactly one row per event, with
    the topic the event is published to; the groups a row names are exactly those with a
    subscription, of the worker or of the admin site, whose handler lets the event through;
    and the diagram's note of events without a consumer names an event exactly when nobody
    listens to it, which is so for the lifecycle of sagas alone. *)
Theorem catalogue_is_true (w : WorkerContainer) (st : Settings) :
  ∃ rows worker, catalogue_rows w PROJECTIONS = Ok rows ∧ register_consumers w st = Ok worker ∧
    ∀ e, ∃ row, topic_for e = Ok (cr_topic row) ∧
      (∀ row', row' ∈ rows ∧ cr_event_name row' = event_name (body e) ↔ row' = row) ∧
      (∀ suffix, suffix ∈ (cr_consumers row).*2 ↔
        (∃ s, s ∈ worker ∧ takes s (cr_topic row) e = true ∧
          sb_group_id s = (worker_consumer_group_prefix st +:+ "-" +:+ suffix)%string) ∨
        (∃ s, s ∈ register_projections st ∧ takes s (cr_topic row) e = true ∧
          sb_group_id s = (read_side_consumer_group_prefix st +:+ "-" +:+ suffix)%string)) ∧
      (event_name (body e) ∈ fl_unconsumed (flow rows) ↔ cr_topic row = SAGA_EVENTS).
Proof.
  destruct (catalogue_rows_true w) as (rows & Hrows & Htrue).
  destruct (register_consumers_Ok w st) as (worker & Hw & _).
  exists rows, worker. split; [done|]. split; [done|]. intros e. specialize (Htrue e). unfold row_true in Htrue.
  destruct (List.filter _ rows) as [|row [|]] eqn:Ef; [done| |done].
  apply andb_true_iff in Htrue as [Ht%bool_decide_eq_true Hsame]. exists row. split; [done|].
  assert (∀ row', row' ∈ rows ∧ cr_event_name row' = event_name (body e) ↔ row' = row) as Hone.
  { intros row'. assert (row' ∈ [row] ↔ row' = row) as <- by apply list_elem_of_singleton.
    rewrite <- Ef, !list_elem_of_In, filter_In, bool_decide_eq_true. done. }
  split; [done|]. split.
  - intros suffix. rewrite (same_members_elem _ _ _ Hsame). by apply listeners_elem.
  - rewrite flow_unconsumed, list_elem_of_fmap. transitivity (heard w e = false).
    2: { rewrite heard_unless_saga, negb_false_iff, bool_decide_eq_true, Ht. split; congruence. }
    rewrite <- heard_listeners. split.
    + intros (row' & Hn & [Hin Hnone]%list_elem_of_In%filter_In).
      assert (row' = row) as -> by (apply Hone; split; [by apply list_elem_of_In|done]).
      destruct (cr_consumers row) eqn:Ec; [|done]. destruct (listeners w e) as [|x l] eqn:El; [done|].
      assert (x ∈ @nil string) as []%elem_of_nil. apply (same_members_elem _ _ x Hsame). by left.
    + intros El. destruct (proj2 (Hone row) eq_refl) as [Hin Hn]. exists row. split; [done|].
      apply list_elem_of_In, filter_In. split; [by apply list_elem_of_In|].
      destruct (cr_consumers row) as [|c l] eqn:Ec; [done|].
      assert (c.2 ∈ @nil string) as []%elem_of_nil. rewrite <- El.
      apply (same_members_elem _ _ c.2 Hsame). by left.
Qed.

(** Every message carries the headers the schema requires, and no other than it describes. *)
Lemma envelope_describes_messages (m : OutboxMessage) :
  (∀ h, h ∈ (headers_for m).*1 → h ∈ envelope_properties.*1) ∧
  (∀ h, h ∈ envelope_required → h ∈ (headers_for m).*1).
Proof.
  assert (Forall (λ h, h ∈ envelope_properties.*1) (headers_for m).*1 ∧
    Forall (λ h, h ∈ (headers_for m).*1) envelope_required) as [H1 H2].
  { unfold headers_for. destruct (om_correlation_id m), (om_causation_id m), (om_traceparent m);
      apply (bool_decide_unpack _); vm_compute; exact I. }
  split; by apply Forall_forall.
Qed.

(** The table of contexts lacks a projection and gives the write side's context to another
    of the same name. *)
Lemma projections_without_their_context :
  consumer_context (pj_name Rollups.TelemetryRollupProjection) = "Other"%string ∧
  consumer_context (pj_name NotificationProjection) = "Notifications"%string.
Proof. done. Qed.
